(* ===== verification/_CoqProject ===== *)
-Q . S2P
Prelude.v
GoStrings.v
GoFloat.v
EventModel.v
GoBytes.v
Matcher.v
Policy.v
RuleSpec.v
Validation.v
EventView.v
Compiled.v
Engine.v
EngineLogic.v
EngineInv.v
CorrelateInv.v
Dispatch.v
EngineProps.v
EngineTheorems.v
RingBuffer.v
Graph.v
DataPlane.v
Segment.v
LocalStore.v
LocalStoreInv.v
LocalStoreTheorems.v
ExportPipeline.v
Batcher.v
BatcherTheorems.v
Bus.v
GoData.v
GoSha.v
Response.v
ControlModel.v
PolicyModel.v
Health.v
Analytics.v
StoreData.v
StoreAgents.v
StorePolicies.v
StoreTelemetry.v
StoreResponses.v
ResponseGate.v
StoreCommands.v
StoreEnrollment.v
Postgres.v
StoreTheorems.v
CommandTheorems.v
GoText.v
Normalize.v
TetragonAdapter.v
Collection.v
CollectionTheorems.v
TetragonPolicy.v
TetragonTheorems.v
TetragonBackend.v
OpenSearch.v
IngestWorker.v
Gateway.v
GatewayTheorems.v
GatewayControl.v
ControlTheorems.v
ContentStore.v
ContentTheorems.v
Agent.v
AgentTheorems.v
ControlChannel.v
ChannelTheorems.v
ManagerApi.v
ManagerEnrollment.v
ManagerServer.v
ManagerTheorems.v
EnrollmentTheorems.v
AgentConfig.v
ConfigRun.v
ConfigTheorems.v
