(* ===== verification/Prelude.v ===== *)
(** * SysArmor: a verification library

    SysArmor is an endpoint detection and response system.  On a host, a
    sensor (Tetragon) reports what processes do; the agent normalises the
    events, runs detection rules over them, keeps events and signals in a
    local store and uploads them in order.  In the cloud a gateway puts the
    uploads on a queue; a worker analyses them, raises incidents and indexes
    everything; a manager keeps agents, policies, commands, enrollments and
    incidents, and answers the operators.  This library translates the core
    of that code (Go, under [src/internal]) into executable definitions and
    proves what makes it correct.

    ** The parts and the files that model them

    Language and libraries.  [Prelude]: machine integers with their
    wrap-around ([u64], [i64], [u32]), the state monad [StateM], iteration
    over maps in an arbitrary order ([RangeOrder]).  [GoStrings], [GoText],
    [GoBytes], [GoFloat], [GoSha], [GoData]: the parts of Go's [strings],
    [unicode/utf8], [strconv], [path/filepath], [encoding/binary],
    [hash/crc32], [crypto/sha256], [time] and [sort] that the code uses, as
    functions on byte strings; record updates stand for assignments to
    fields.

    Detection on the endpoint ([endpoint/detection], [endpoint/matcher],
    [policy], [eventmodel]).  [EventModel] (messages and behaviours),
    [Matcher] (string matchers and their buckets), [Policy], [RuleSpec],
    [Validation] (policies, rules and which are accepted), [EventView] (the
    fields a rule reads), [Compiled] (compilation and evaluation), [Engine]
    (the state of the engine and [Process]).  [EngineLogic], [EngineInv],
    [CorrelateInv], [Dispatch], [EngineProps] carry the invariants;
    [EngineTheorems] states the results.

    Collection on the endpoint ([endpoint/normalize], [endpoint/context],
    [sensors], [agent/policy]).  [Normalize] (identities and lineages),
    [TetragonAdapter] (rows into events), [Collection] (collection and
    endpoint policies), [TetragonPolicy] (the tracing policy compiled from an
    intent), [TetragonBackend] (the policy in the kernel, scopes, the event
    loop); results in [CollectionTheorems], [TetragonTheorems] and at the end
    of [Normalize] and [TetragonBackend].

    Storage and upload on the endpoint ([endpoint/ringbuffer],
    [agent/localstore], [agent/daemon], [agent/telemetry]).  [RingBuffer],
    [DataPlane] (messages), [Segment] (the file format), [LocalStore] with
    [LocalStoreInv] and [LocalStoreTheorems], [ExportPipeline], [Batcher]
    with [BatcherTheorems], [Bus].

    The agent itself ([agent/content], [agent/daemon], [agent/config]).
    [ContentStore] (signed content, its directory, patches) with
    [ContentTheorems]; [Agent] (the daemon: start, updates of policies and
    content, frames of the gateway, events) with [AgentTheorems];
    [ControlChannel] (the agent's side of the control connection) with
    [ChannelTheorems], which composes it with the gateway's side;
    [AgentConfig] (the configuration file, its parser and the merge of a
    release into it) with [ConfigRun] (files as runs over lines) and
    [ConfigTheorems].

    The gateway ([gateway], [tlsconfig]).  [Gateway] (identities
    and uploads) with [GatewayTheorems]; [GatewayControl] (control frames)
    with [ControlTheorems].

    The cloud ([analytics], [store], [manager/auth], [manager/api],
    [platform/opensearch], [workers/ingest]).  [Graph], [Analytics], [Response], [ControlModel],
    [PolicyModel], [Health] (documents), [StoreData] with [StoreAgents],
    [StorePolicies], [StoreTelemetry], [StoreResponses], [StoreCommands],
    [StoreEnrollment] (the store in the memory of a process, one record and
    one function per method), [Postgres] (the database behind it: tables,
    writes, queries, transactions) with [StoreTheorems] and
    [CommandTheorems], which are about the two together, [ResponseGate],
    [OpenSearch], [IngestWorker]; [ManagerApi] (tokens and handlers),
    [ManagerEnrollment] (enrolments, certificates and artifacts over HTTP,
    [distribution]), [ManagerServer] (routes, the binding of requests to
    tenants, authentication) with [ManagerTheorems] and
    [EnrollmentTheorems].

    ** How code becomes definitions

    A struct is a record with the fields of the source, an enumeration an
    inductive type or the constants of the source, a nil pointer [None].  A
    method that changes its receiver is a function from the old state to the
    result and the new state, or a computation of [StateM]; methods run under
    a mutex, so that each is one step, and a history is a sequence of steps.
    [(T, error)] is [result T].  Where the source ranges over a map the order
    is the parameter [RangeOrder]; where it sorts with [sort.Slice] the order
    of equal elements is left open ([SliceSort]).  Names are those of the
    source; a definition for a part of a function (a loop, a filter) has a
    name of its own.

    ** Parameters

    Code that is not in the repository enters as an argument or a type class:
    [Codec] with [CodecLaws] (protobuf and zstd), [SensorText], [PolicyText],
    [JsonText], [Texts] (JSON, protojson and RFC 3339), [Unicode] (which
    runes are printable), [Host] and [Tetra] with [TetraLaws] (the operating
    system and the tool [tetra]), [Signatures] (Ed25519 and base64),
    [BatchText], [ControlText], [ContentText] with [ContentLaws],
    [AgentText], [ChannelText] with [TimeLaws], [ApiText] with [ApiLaws],
    [EnrollText] (the same formats for the gateway, content, the agent and
    the manager), [X509] with [X509Laws] (certificates, PEM and URLs).  The
    records [Env] and [World] of the ingest worker, the gateway, the agent and
    the manager are the world, which answers call by call; the check of a token's
    signature is an argument.  Clocks, disk statistics, replies of remote
    sides and answers of the database are arguments of the methods; the
    theorems about the manager, enrolments, policies and commands take the
    answers that [Postgres] gives, or a failure.  [Postgresql] is the collation
    of the database and the precision of its timestamps.  Every theorem that
    uses laws of such code has a witness with a concrete instance.

    ** What the theorems show

    The engine: every signal is explained by the events seen
    ([signals_explained]), the index of waiting sequences is exact and no
    waiting group is missed, for rules with an id, groups are partial
    matches, the state is bounded, compilation and the choice of matchers do not change a verdict,
    acceptance of a policy means what it should.  The graph queries are
    reachability and shortest walks.

    Collection: what an intent with its scope spelled out asks for is emitted
    by the probes compiled from it ([collection_complete]), the kernel has the policy of the intent
    ([policy_in_force]), rows become well-typed events, lineages agree with a
    search of the history, references in policies expand exactly.

    Storage: every batch that fits the format is read back in order after any
    crashes ([store_durable]), recovery succeeds after a torn record
    ([recovery_complete]), capacity is enforced from
    the oldest on, the checkpoint never passes a batch that was not
    committed, frames are conserved in the batcher and on the bus, the sender
    stops exactly at a final reply.

    The agent: content enters the store only when digest and signature allow
    ([content_admission]) and is there after a restart
    ([content_survives_restart]); a refused update changes nothing
    ([refused_update_changes_nothing]), the engine always runs the policy and
    the content in force ([engine_in_force]), and a restart makes the same
    engine ([detection_survives_restart]).  Installing a release over a host
    changes its content settings and nothing else ([merge_keeps_settings]),
    the labels of an enrolment reach the agent ([labels_arrive]), and no file
    gives it an identity ([file_sets_no_identity]).  The control connection: the
    gateway takes every frame of a session ([session_accepted]), reads what
    the agent wrote ([messages_understood]), executes a request once
    ([control_exactly_once]), and a command it sends ends acknowledged
    ([commands_acknowledged]).

    The cloud: an upload that is acknowledged is on the queue
    ([acknowledged_is_queued]), no message is lost by the ingest worker
    ([nothing_lost]), only an authorised request changes the state of the
    manager ([writes_authorized]), a request is answered with records of its
    tenant ([tenant_isolation]), a response command reaches an agent only
    when policy and approvals allow ([approval_gate]), enrolment credentials
    are used once ([http_enrollment_single_use]), a certificate names the
    agent it was bought for to the gateway ([certificates_identify]), bindings
    are permanent, control commands follow their state machine in memory and
    in the database ([control_commands_refine]), effective policies are those
    of the most specific assignment ([effective_policy_spec]), evidence is
    conserved, the analysis of a batch is what its rules say.

    Lemmas that show behaviour one would not expect (for instance
    [stale_policy_kept], [executions_starved], [no_fork_no_chmod],
    [segment_ids_reused], [export_stalls], [retry_not_processed],
    [health_of_another], [hello_refused], [colliding_refs],
    [unparsable_accepted], [answers_of_the_device], [scope_lost],
    [acknowledgement_refused], [unbound_bodies], [null_body_panics],
    [health_of_all_tenants], [responses_of_another], [upload_escapes],
    [byte_size_wraps], [tabbed_section_lost], [escape_not_undone],
    [label_cut_at_hash], [label_key_ends_document], [unnamed_scope_dropped],
    [torn_header_blocks_open], [blank_rule_id_never_completes],
    [analysis_changes_policy], [late_save_reopens_ticket],
    [stale_save_reopens_command]) stand beside the results they limit.

    ** Fuel

    Recursion that is not structural has fuel that is enough: the breadth
    first search runs at most once per node; [readRecords] and the UTF-8
    decoder consume at least a byte per turn and get the length of the input;
    [format_digits] gets twenty digits, enough for 64 bits; [chunks] gets the
    padded length; [container_ids] the length of the text; a loop that
    retries for thirty seconds with a second between rounds gets thirty-two
    rounds ([rounds_enough]).

    ** Not modelled

    Transport and wiring: sockets, TLS and gRPC set-up, the goroutines of the
    daemon, watch streams of the local control, collection of health,
    enrolment as a client, supervision of processes, installation of bundles.
    HTTP routes of the manager beyond those of [ManagerServer.mux]: search,
    reads of telemetry and incidents, status pages, the listings of the UI;
    the text of the install script.  Clients of external services (Kafka,
    Redis): what they do is the service's behaviour.  The command-line client
    and generated code.  In the local store: I/O errors other than torn
    writes, the SQL of the signal table.  In the store: the JSON file that
    [Save] writes without a database.  In the database: the table of the
    rarity baseline, columns no query reads, and transactions that overlap
    (each operation of [Postgres] is one step; two lemmas show what a [Save]
    that is overtaken does). *)

From Stdlib Require Export Ascii ZArith Lia.
From stdpp Require Export base tactics list sorting gmap strings numbers.

(** ** Scopes and options *)

Declare Scope sysarmor_scope.
Delimit Scope sysarmor_scope with sysarmor.
Global Open Scope sysarmor_scope.

(** ** Machine integers

    Go's [uint64], [int64] and [uint32] are kept as [Z]; every operation of
    the source that can leave the range is followed by the wrap-around the
    language prescribes. *)

Definition u64 (z : Z) : Z := (z mod 2 ^ 64)%Z.
Definition u32 (z : Z) : Z := (z mod 2 ^ 32)%Z.
Definition i64 (z : Z) : Z := ((z + 2 ^ 63) mod 2 ^ 64 - 2 ^ 63)%Z.

Definition in_u64 (z : Z) : Prop := (0 ≤ z < 2 ^ 64)%Z.

Lemma u64_id z : in_u64 z → u64 z = z.
Proof. apply Z.mod_small. Qed.

Lemma u64_bound z : in_u64 (u64 z).
Proof. apply Z.mod_pos_bound; lia. Qed.

Lemma u64_plus a b : u64 (u64 a + b) = u64 (a + b).
Proof. apply Zplus_mod_idemp_l. Qed.

Lemma i64_id z : (- 2 ^ 63 ≤ z < 2 ^ 63)%Z → i64 z = z.
Proof. intros ?. unfold i64. rewrite Z.mod_small; lia. Qed.

(** ** A state monad

    Go methods with a pointer receiver become computations that thread the
    receiver.  stdpp's monad notations ([x ← c; k], [mret]) apply. *)

Definition StateM (S A : Type) : Type := S → A * S.

Global Instance StateM_ret S : MRet (StateM S) := λ A x s, (x, s).
Global Instance StateM_bind S : MBind (StateM S) :=
  λ A B f c s, let '(a, s') := c s in f a s'.

Definition get {S} : StateM S S := λ s, (s, s).
Definition modify {S} (f : S → S) : StateM S unit := λ s, (tt, f s).
Definition gets {S A} (f : S → A) : StateM S A := λ s, (f s, s).

(** The loop [for _, x := range l { acc = append(acc, f(x)...) }]. *)
Fixpoint forM_concat {S A B} (f : A → StateM S (list B)) (l : list A) : StateM S (list B) :=
  match l with
  | [] => mret []
  | x :: l' => out ← f x; rest ← forM_concat f l'; mret (out ++ rest)
  end.

(** The loop [for _, x := range l { f(x) }]. *)
Fixpoint forM_ {S A} (f : A → StateM S unit) (l : list A) : StateM S unit :=
  match l with
  | [] => mret tt
  | x :: l' => f x ;; forM_ f l'
  end.

Lemma forM_concat_inv {S A B} (P : S → Prop) (f : A → StateM S (list B)) l s :
  (∀ x s, x ∈ l → P s → P (f x s).2) → P s → P (forM_concat f l s).2.
Proof.
  revert s. induction l as [|x l IH]; intros s Hf Hs; [done|].
  cbn. unfold mbind, StateM_bind.
  destruct (f x s) as [out s1] eqn:E1.
  assert (P s1) as H1 by (specialize (Hf x s); rewrite E1 in Hf; apply Hf; [left|done]).
  specialize (IH s1). destruct (forM_concat f l s1) as [rest s2].
  apply IH; [|done]. intros; apply Hf; [by right|done].
Qed.

(** An invariant of a computation that also constrains its results. *)
Lemma forM_concat_Forall {S A B} (P : S → Prop) (Q : B → Prop)
    (f : A → StateM S (list B)) l s :
  (∀ x s, x ∈ l → P s → P (f x s).2 ∧ Forall Q (f x s).1) → P s →
  Forall Q (forM_concat f l s).1.
Proof.
  revert s. induction l as [|x l IH]; intros s Hf Hs; [constructor|].
  cbn. unfold mbind, StateM_bind.
  destruct (f x s) as [out s1] eqn:E1.
  assert (P s1 ∧ Forall Q out) as [H1 HQ]
    by (specialize (Hf x s); rewrite E1 in Hf; apply Hf; [left|done]).
  specialize (IH s1). destruct (forM_concat f l s1) as [rest s2]; cbn in *.
  apply Forall_app; split; [done|]. apply IH; [|done]. intros; apply Hf; [by right|done].
Qed.

(** ** Map iteration

    Go leaves the order of [range] over a map unspecified.  The order is a
    parameter: a function from the set of keys to a list that enumerates it.
    Every theorem that mentions it holds for every such function. *)

Class RangeOrder := {
  range_order : gset string → list string;
  range_order_perm X : range_order X ≡ₚ elements X
}.

Definition elements_order : RangeOrder :=
  {| range_order X := elements X; range_order_perm X := reflexivity _ |}.

Definition range_keys `{RangeOrder} {A} (m : gmap string A) : list string :=
  range_order (dom m).

Section range.
Context `{RangeOrder}.

Lemma elem_of_range_keys {A} (m : gmap string A) k : k ∈ range_keys m ↔ is_Some (m !! k).
Proof.
  unfold range_keys. rewrite range_order_perm, elem_of_elements. apply elem_of_dom.
Qed.

Lemma NoDup_range_keys {A} (m : gmap string A) : NoDup (range_keys m).
Proof. unfold range_keys. rewrite range_order_perm. apply NoDup_elements. Qed.

Lemma range_keys_nil {A} (m : gmap string A) : range_keys m = [] → m = ∅.
Proof.
  intros E. apply map_empty. intros k. destruct (m !! k) eqn:Ek; [|done].
  assert (k ∈ range_keys m) as Hk by (apply elem_of_range_keys; eauto).
  rewrite E in Hk. by apply elem_of_nil in Hk.
Qed.
End range.

(** ** Stable sorting by an integer key: [sort.SliceStable] with a [less]
    that compares the keys. *)

Section stable_sort.
Context {A : Type} (key : A → Z).

Fixpoint stable_insert (x : A) (l : list A) : list A :=
  match l with
  | [] => [x]
  | y :: l' => if (key x <=? key y)%Z then x :: y :: l' else y :: stable_insert x l'
  end.

Definition stable_sort (l : list A) : list A := foldr stable_insert [] l.

Lemma stable_insert_perm x l : stable_insert x l ≡ₚ x :: l.
Proof.
  induction l as [|y l IH]; [done|]. cbn. case_match; [done|].
  rewrite IH. apply Permutation_swap.
Qed.

Lemma stable_sort_perm l : stable_sort l ≡ₚ l.
Proof.
  induction l as [|x l IH]; [done|]. cbn. by rewrite stable_insert_perm, IH.
Qed.

Lemma elem_of_stable_sort x l : x ∈ stable_sort l ↔ x ∈ l.
Proof. by rewrite stable_sort_perm. Qed.
End stable_sort.

(** ** Conjunctions and disjunctions over lists do not depend on the order *)

Global Instance forallb_perm_proper {A} (f : A → bool) :
  Proper ((≡ₚ) ==> (=)) (forallb f).
Proof.
  intros l1 l2 Hl. apply eq_true_iff_eq. rewrite !forallb_forall.
  split; intros HH x Hx; apply HH; apply list_elem_of_In; apply list_elem_of_In in Hx.
  - by rewrite Hl.
  - by rewrite <- Hl.
Qed.

Global Instance existsb_perm_proper {A} (f : A → bool) :
  Proper ((≡ₚ) ==> (=)) (existsb f).
Proof.
  intros l1 l2 Hl. apply eq_true_iff_eq. rewrite !existsb_exists.
  split; intros (x & Hx & ?); exists x; (split; [|done]);
    apply list_elem_of_In; apply list_elem_of_In in Hx.
  - by rewrite <- Hl.
  - by rewrite Hl.
Qed.

Lemma existsb_In_ext {A} (f g : A → bool) l1 l2 :
  (∀ x, x ∈ l1 → f x = true → ∃ y, y ∈ l2 ∧ g y = true) →
  (∀ y, y ∈ l2 → g y = true → ∃ x, x ∈ l1 ∧ f x = true) →
  existsb f l1 = existsb g l2.
Proof.
  intros H1 H2. apply eq_true_iff_eq. rewrite !existsb_exists.
  split; intros (x & Hx%list_elem_of_In & Hfx).
  - destruct (H1 x) as (y & Hy & ?); [done..|]. exists y. by rewrite <- list_elem_of_In.
  - destruct (H2 x) as (y & Hy & ?); [done..|]. exists y. by rewrite <- list_elem_of_In.
Qed.

(** ** Filters *)

Lemma filter_all {A} (P : A → Prop) `{∀ x, Decision (P x)} l : Forall P l → filter P l = l.
Proof. induction 1 as [|x l Hx _ IH]; [done|]. by rewrite filter_cons, decide_True, IH. Qed.

(** ** Automation *)

Create HintDb sysarmor discriminated.

(** Split every [match]/[if] of the goal and close the trivial cases. *)
Ltac case_all := repeat (case_match; simplify_eq/=; try done).
