(* ===== verification/GoStrings.v ===== *)
(** * The part of Go's string library the modelled code uses

    A Go [string] is a sequence of bytes; it is modelled by [string], whose
    characters are the bytes.  [TrimSpace] and [ToLower] decode UTF-8, as the
    Go functions do: an ill-formed byte decodes to U+FFFD with width one.  The
    case table is the simple lower-case mapping of Unicode 14. *)

From S2P Require Import Prelude.

Open Scope string_scope.
Open Scope list_scope.

Definition byte_val (c : Ascii.ascii) : Z := Z.of_N (Ascii.N_of_ascii c).
Definition byte_of (z : Z) : Ascii.ascii := Ascii.ascii_of_N (Z.to_N z).

Lemma byte_val_bound c : (0 ≤ byte_val c < 256)%Z.
Proof. unfold byte_val. pose proof (Ascii.N_ascii_bounded c). lia. Qed.

Lemma byte_val_of z : (0 ≤ z < 256)%Z → byte_val (byte_of z) = z.
Proof.
  intros Hz. unfold byte_val, byte_of.
  rewrite Ascii.N_ascii_embedding; lia.
Qed.

Lemma byte_of_val c : byte_of (byte_val c) = c.
Proof. unfold byte_val, byte_of. by rewrite N2Z.id, Ascii.ascii_N_embedding. Qed.

(** ** UTF-8 *)

Definition is_cont (b : Z) : bool := (128 <=? b)%Z && (b <=? 191)%Z.

(** [utf8.DecodeRuneInString] of a non-empty string: the rune, the bytes it
    was read from, and the rest. *)
Definition decode_rune (c0 : ascii) (s1 : string) : Z * string * string :=
  let b0 := byte_val c0 in
  let bad := (65533%Z, String c0 EmptyString, s1) in
  if (b0 <? 128)%Z then (b0, String c0 EmptyString, s1)
  else if (194 <=? b0)%Z && (b0 <=? 223)%Z then
    match s1 with
    | String c1 s2 =>
      let b1 := byte_val c1 in
      if is_cont b1
      then ((b0 - 192) * 64 + (b1 - 128), String c0 (String c1 EmptyString), s2)%Z
      else bad
    | EmptyString => bad
    end
  else if (224 <=? b0)%Z && (b0 <=? 239)%Z then
    match s1 with
    | String c1 (String c2 s3) =>
      let b1 := byte_val c1 in
      let b2 := byte_val c2 in
      let lo := if (b0 =? 224)%Z then 160%Z else 128%Z in
      let hi := if (b0 =? 237)%Z then 159%Z else 191%Z in
      if (lo <=? b1)%Z && (b1 <=? hi)%Z && is_cont b2
      then ((b0 - 224) * 4096 + (b1 - 128) * 64 + (b2 - 128),
            String c0 (String c1 (String c2 EmptyString)), s3)%Z
      else bad
    | _ => bad
    end
  else if (240 <=? b0)%Z && (b0 <=? 244)%Z then
    match s1 with
    | String c1 (String c2 (String c3 s4)) =>
      let b1 := byte_val c1 in
      let b2 := byte_val c2 in
      let b3 := byte_val c3 in
      let lo := if (b0 =? 240)%Z then 144%Z else 128%Z in
      let hi := if (b0 =? 244)%Z then 143%Z else 191%Z in
      if (lo <=? b1)%Z && (b1 <=? hi)%Z && is_cont b2 && is_cont b3
      then ((b0 - 240) * 262144 + (b1 - 128) * 4096 + (b2 - 128) * 64 + (b3 - 128),
            String c0 (String c1 (String c2 (String c3 EmptyString))), s4)%Z
      else bad
    | _ => bad
    end
  else bad.

(** The runes of a string, each with its bytes.  A step consumes at least one
    byte, so the length of the string is enough fuel. *)
Fixpoint runes_go (fuel : nat) (s : string) : list (Z * string) :=
  match fuel, s with
  | S fuel', String c0 s1 =>
    let '(r, chunk, rest) := decode_rune c0 s1 in (r, chunk) :: runes_go fuel' rest
  | _, _ => []
  end.

Definition runes (s : string) : list (Z * string) := runes_go (String.length s) s.

Definition valid_rune (r : Z) : bool :=
  (0 <=? r)%Z && (r <=? 1114111)%Z && negb ((55296 <=? r)%Z && (r <=? 57343)%Z).

(** [utf8.EncodeRune] *)
Definition encode_rune (r : Z) : string :=
  let b x := byte_of x in
  if (r <? 128)%Z then String (b r) EmptyString
  else if (r <? 2048)%Z then
    String (b (192 + r / 64))%Z (String (b (128 + r mod 64))%Z EmptyString)
  else if (r <? 65536)%Z then
    String (b (224 + r / 4096))%Z
      (String (b (128 + (r / 64) mod 64))%Z (String (b (128 + r mod 64))%Z EmptyString))
  else
    String (b (240 + r / 262144))%Z
      (String (b (128 + (r / 4096) mod 64))%Z
        (String (b (128 + (r / 64) mod 64))%Z (String (b (128 + r mod 64))%Z EmptyString))).

(** ** Case and space *)

(** [(lo, hi, stride, delta)]: the upper-case runes [lo, lo+stride, .., hi]
    have their lower-case form [delta] further on. *)
Definition lower_table : list (Z * Z * Z * Z) :=
  [(65, 90, 1, 32);
   (192, 214, 1, 32); (216, 222, 1, 32); (256, 302, 2, 1); (304, 304, 1, (-199)); (306, 310, 2,
   1); (313, 327, 2, 1); (330, 374, 2, 1); (376, 376, 1, (-121)); (377, 381, 2, 1); (385, 385,
   1, 210); (386, 388, 2, 1); (390, 390, 1, 206); (391, 391, 1, 1); (393, 394, 1, 205); (395,
   395, 1, 1); (398, 398, 1, 79); (399, 399, 1, 202); (400, 400, 1, 203); (401, 401, 1, 1);
   (403, 403, 1, 205); (404, 404, 1, 207); (406, 406, 1, 211); (407, 407, 1, 209); (408, 408,
   1, 1); (412, 412, 1, 211); (413, 413, 1, 213); (415, 415, 1, 214); (416, 420, 2, 1); (422,
   422, 1, 218); (423, 423, 1, 1); (425, 425, 1, 218); (428, 428, 1, 1); (430, 430, 1, 218);
   (431, 431, 1, 1); (433, 434, 1, 217); (435, 437, 2, 1); (439, 439, 1, 219); (440, 440, 1,
   1); (444, 444, 1, 1); (452, 452, 1, 2); (453, 453, 1, 1); (455, 455, 1, 2); (456, 456, 1,
   1); (458, 458, 1, 2); (459, 475, 2, 1); (478, 494, 2, 1); (497, 497, 1, 2); (498, 500, 2,
   1); (502, 502, 1, (-97)); (503, 503, 1, (-56)); (504, 542, 2, 1); (544, 544, 1, (-130));
   (546, 562, 2, 1); (570, 570, 1, 10795); (571, 571, 1, 1); (573, 573, 1, (-163)); (574, 574,
   1, 10792); (577, 577, 1, 1); (579, 579, 1, (-195)); (580, 580, 1, 69); (581, 581, 1, 71);
   (582, 590, 2, 1); (880, 882, 2, 1); (886, 886, 1, 1); (895, 895, 1, 116); (902, 902, 1, 38);
   (904, 906, 1, 37); (908, 908, 1, 64); (910, 911, 1, 63); (913, 929, 1, 32); (931, 939, 1,
   32); (975, 975, 1, 8); (984, 1006, 2, 1); (1012, 1012, 1, (-60)); (1015, 1015, 1, 1); (1017,
   1017, 1, (-7)); (1018, 1018, 1, 1); (1021, 1023, 1, (-130)); (1024, 1039, 1, 80); (1040,
   1071, 1, 32); (1120, 1152, 2, 1); (1162, 1214, 2, 1); (1216, 1216, 1, 15); (1217, 1229, 2,
   1); (1232, 1326, 2, 1); (1329, 1366, 1, 48); (4256, 4293, 1, 7264); (4295, 4295, 1, 7264);
   (4301, 4301, 1, 7264); (5024, 5103, 1, 38864); (5104, 5109, 1, 8); (7312, 7354, 1, (-3008));
   (7357, 7359, 1, (-3008)); (7680, 7828, 2, 1); (7838, 7838, 1, (-7615)); (7840, 7934, 2, 1);
   (7944, 7951, 1, (-8)); (7960, 7965, 1, (-8)); (7976, 7983, 1, (-8)); (7992, 7999, 1, (-8));
   (8008, 8013, 1, (-8)); (8025, 8031, 2, (-8)); (8040, 8047, 1, (-8)); (8072, 8079, 1, (-8));
   (8088, 8095, 1, (-8)); (8104, 8111, 1, (-8)); (8120, 8121, 1, (-8)); (8122, 8123, 1, (-74));
   (8124, 8124, 1, (-9)); (8136, 8139, 1, (-86)); (8140, 8140, 1, (-9)); (8152, 8153, 1, (-8));
   (8154, 8155, 1, (-100)); (8168, 8169, 1, (-8)); (8170, 8171, 1, (-112)); (8172, 8172, 1,
   (-7)); (8184, 8185, 1, (-128)); (8186, 8187, 1, (-126)); (8188, 8188, 1, (-9)); (8486, 8486,
   1, (-7517)); (8490, 8490, 1, (-8383)); (8491, 8491, 1, (-8262)); (8498, 8498, 1, 28); (8544,
   8559, 1, 16); (8579, 8579, 1, 1); (9398, 9423, 1, 26); (11264, 11311, 1, 48); (11360, 11360,
   1, 1); (11362, 11362, 1, (-10743)); (11363, 11363, 1, (-3814)); (11364, 11364, 1, (-10727));
   (11367, 11371, 2, 1); (11373, 11373, 1, (-10780)); (11374, 11374, 1, (-10749)); (11375,
   11375, 1, (-10783)); (11376, 11376, 1, (-10782)); (11378, 11378, 1, 1); (11381, 11381, 1,
   1); (11390, 11391, 1, (-10815)); (11392, 11490, 2, 1); (11499, 11501, 2, 1); (11506, 11506,
   1, 1); (42560, 42604, 2, 1); (42624, 42650, 2, 1); (42786, 42798, 2, 1); (42802, 42862, 2,
   1); (42873, 42875, 2, 1); (42877, 42877, 1, (-35332)); (42878, 42886, 2, 1); (42891, 42891,
   1, 1); (42893, 42893, 1, (-42280)); (42896, 42898, 2, 1); (42902, 42920, 2, 1); (42922,
   42922, 1, (-42308)); (42923, 42923, 1, (-42319)); (42924, 42924, 1, (-42315)); (42925,
   42925, 1, (-42305)); (42926, 42926, 1, (-42308)); (42928, 42928, 1, (-42258)); (42929,
   42929, 1, (-42282)); (42930, 42930, 1, (-42261)); (42931, 42931, 1, 928); (42932, 42946, 2,
   1); (42948, 42948, 1, (-48)); (42949, 42949, 1, (-42307)); (42950, 42950, 1, (-35384));
   (42951, 42953, 2, 1); (42960, 42960, 1, 1); (42966, 42968, 2, 1); (42997, 42997, 1, 1);
   (65313, 65338, 1, 32); (66560, 66599, 1, 40); (66736, 66771, 1, 40); (66928, 66938, 1, 39);
   (66940, 66954, 1, 39); (66956, 66962, 1, 39); (66964, 66965, 1, 39); (68736, 68786, 1, 64);
   (71840, 71871, 1, 32); (93760, 93791, 1, 32); (125184, 125217, 1, 34)]%Z.

Fixpoint lower_in (t : list (Z * Z * Z * Z)) (r : Z) : Z :=
  match t with
  | [] => r
  | (lo, hi, stride, delta) :: t' =>
    if (lo <=? r)%Z && (r <=? hi)%Z && ((r - lo) mod stride =? 0)%Z
    then (r + delta)%Z else lower_in t' r
  end.

(** [unicode.ToLower] *)
Definition lower_rune (r : Z) : Z :=
  if (r <? 65)%Z then r else lower_in lower_table r.

(** [unicode.IsSpace] *)
Definition is_space (r : Z) : bool :=
  ((9 <=? r)%Z && (r <=? 13)%Z) || (r =? 32)%Z || (r =? 133)%Z || (r =? 160)%Z
  || (r =? 5760)%Z || ((8192 <=? r)%Z && (r <=? 8202)%Z) || (r =? 8232)%Z || (r =? 8233)%Z
  || (r =? 8239)%Z || (r =? 8287)%Z || (r =? 12288)%Z.

Definition concat_str (l : list string) : string := foldr String.append "" l.

Fixpoint drop_spaces (l : list (Z * string)) : list (Z * string) :=
  match l with
  | [] => []
  | (r, chunk) :: l' => if is_space r then drop_spaces l' else l
  end.

(** [strings.TrimSpace] *)
Definition TrimSpace (s : string) : string :=
  concat_str (snd <$> reverse (drop_spaces (reverse (drop_spaces (runes s))))).

(** [strings.ToLower] *)
Definition ToLower (s : string) : string :=
  concat_str ((λ '(r, _), encode_rune (lower_rune r)) <$> runes s).

(** ** Searching *)

(** [strings.HasPrefix] *)
Definition HasPrefix (s p : string) : bool := String.prefix p s.

(** [strings.HasSuffix] *)
Definition HasSuffix (s suffix : string) : bool :=
  (String.length suffix <=? String.length s)%nat &&
  (String.substring (String.length s - String.length suffix) (String.length suffix) s =? suffix)%string.

(** [strings.Contains] *)
Fixpoint Contains (s sub : string) : bool :=
  HasPrefix s sub ||
  match s with
  | EmptyString => false
  | String _ s' => Contains s' sub
  end.

Fixpoint contains_byte (s : string) (c : Ascii.ascii) : bool :=
  match s with
  | EmptyString => false
  | String c' s' => Ascii.eqb c' c || contains_byte s' c
  end.

(** [strings.ContainsAny] for a set of ASCII characters *)
Fixpoint ContainsAny (s chars : string) : bool :=
  match s with
  | EmptyString => false
  | String c s' => contains_byte chars c || ContainsAny s' chars
  end.

(** [strings.Cut] with a one-byte separator: the text before and after its
    first occurrence, and whether there is one. *)
Fixpoint Cut (s : string) (sep : Ascii.ascii) : string * string * bool :=
  match s with
  | EmptyString => ("", "", false)
  | String c s' =>
    if Ascii.eqb c sep then ("", s', true)
    else let '(before, after, ok) := Cut s' sep in
         if ok then (String c before, after, true) else (s, "", false)
  end.

(** [strings.Join] *)
Fixpoint Join (l : list string) (sep : string) : string :=
  match l with
  | [] => ""
  | [x] => x
  | x :: l' => x +:+ sep +:+ Join l' sep
  end.

(** ** Numbers *)

Definition digit (z : Z) : Ascii.ascii := byte_of (48 + z)%Z.

Fixpoint format_digits (fuel : nat) (z : Z) (acc : string) : string :=
  match fuel with
  | O => acc
  | S fuel' =>
    let acc' := String (digit (z mod 10)%Z) acc in
    if (z <? 10)%Z then acc' else format_digits fuel' (z / 10)%Z acc'
  end.

(** [strconv.FormatUint(z, 10)] for a [uint64]: at most 20 digits. *)
Definition FormatUint (z : Z) : string := format_digits 20 z "".

Fixpoint pad_zeros (n : nat) (s : string) : string :=
  match n with O => s | S n' => String "0"%char (pad_zeros n' s) end.

(** [fmt.Sprintf("%020d", z)] for a [uint64] *)
Definition Sprintf_020d (z : Z) : string :=
  let s := FormatUint z in pad_zeros (20 - String.length s) s.

(** ** Paths *)

Fixpoint strip_slashes (l : list Ascii.ascii) : list Ascii.ascii :=
  match l with
  | c :: l' => if Ascii.eqb c "/"%char then strip_slashes l' else l
  | [] => []
  end.

Fixpoint upto_slash (l : list Ascii.ascii) : list Ascii.ascii :=
  match l with
  | c :: l' => if Ascii.eqb c "/"%char then [] else c :: upto_slash l'
  | [] => []
  end.

(** [filepath.Base] on a system whose separator is a slash *)
Definition Base (path : string) : string :=
  if (path =? "")%string then "."
  else
    let rpath := strip_slashes (reverse (String.list_ascii_of_string path)) in
    let name := String.string_of_list_ascii (reverse (upto_slash rpath)) in
    if (name =? "")%string then "/" else name.

(** ** Small helpers shared by several packages *)

(** [firstNonEmpty] of [internal/endpoint/detection/engine.go] *)
Fixpoint firstNonEmpty (values : list string) : string :=
  match values with
  | [] => ""
  | value :: values' =>
    if (TrimSpace value =? "")%string then firstNonEmpty values' else value
  end.

Global Arguments decode_rune : simpl never.
Global Arguments runes : simpl never.
Global Arguments TrimSpace : simpl never.
Global Arguments ToLower : simpl never.
Global Arguments HasPrefix : simpl never.
Global Arguments HasSuffix : simpl never.
Global Arguments Base : simpl never.
Global Arguments FormatUint : simpl never.

(** ** Specifications of the searching functions *)

Lemma string_app_nil_l (s : string) : "" +:+ s = s.
Proof. done. Qed.

Lemma string_app_cons (c : ascii) (a b : string) : String c a +:+ b = String c (a +:+ b).
Proof. done. Qed.

Lemma string_app_nil_r (s : string) : s +:+ "" = s.
Proof. induction s as [|c s IH]; [done|]. by rewrite string_app_cons, IH. Qed.

Lemma string_app_assoc (a b c : string) : a +:+ (b +:+ c) = (a +:+ b) +:+ c.
Proof. induction a as [|x a IH]; [done|]. by rewrite !string_app_cons, IH. Qed.

Lemma string_length_app (a b : string) :
  String.length (a +:+ b) = (String.length a + String.length b)%nat.
Proof. induction a as [|x a IH]; [done|]. rewrite string_app_cons. cbn. by rewrite IH. Qed.

Lemma HasPrefix_spec s p : HasPrefix s p = true ↔ ∃ r, s = p +:+ r.
Proof.
  unfold HasPrefix. revert s. induction p as [|c p IH]; intros s; cbn.
  { split; [by exists s|]. by destruct s. }
  destruct s as [|c' s]; cbn.
  { split; [done|]. intros [r E]; discriminate E. }
  destruct (ascii_dec c c') as [->|Hne].
  - rewrite IH. split; intros [r Hr]; exists r.
    + by rewrite Hr.
    + by injection Hr.
  - split; [done|]. intros [r E]. by injection E as -> _.
Qed.

Lemma substring_full s : String.substring 0 (String.length s) s = s.
Proof. induction s as [|c s IH]; [done|]. cbn. by rewrite IH. Qed.

Lemma substring_app_skip a b :
  String.substring (String.length a) (String.length b) (a +:+ b) = b.
Proof. induction a as [|c a IH]; [apply substring_full|exact IH]. Qed.

Lemma substring_split n m s :
  String.length s = (n + m)%nat → ∃ a, s = a +:+ String.substring n m s.
Proof.
  revert n. induction s as [|c s IH]; intros n Hlen; cbn in *.
  { assert (n = O) as -> by lia. assert (m = O) as -> by lia. by exists "". }
  destruct n as [|n]; cbn in *.
  - exists "". rewrite <- Hlen. by rewrite substring_full.
  - destruct (IH n) as [a Ha]; [lia|]. exists (String c a). by rewrite string_app_cons, <- Ha.
Qed.

Lemma HasSuffix_spec s p : HasSuffix s p = true ↔ ∃ r, s = r +:+ p.
Proof.
  unfold HasSuffix. rewrite andb_true_iff, Nat.leb_le, String.eqb_eq. split.
  - intros [Hlen Heq].
    destruct (substring_split (String.length s - String.length p) (String.length p) s) as [a Ha];
      [lia|].
    exists a. by rewrite Heq in Ha.
  - intros [r ->]. rewrite string_length_app. split; [lia|].
    replace (String.length r + String.length p - String.length p)%nat with (String.length r) by lia.
    apply substring_app_skip.
Qed.

Lemma Contains_spec s p : Contains s p = true ↔ ∃ a b, s = a +:+ p +:+ b.
Proof.
  induction s as [|c s IH]; cbn.
  - rewrite orb_false_r, HasPrefix_spec. split.
    + intros [r Hr]. by exists "", r.
    + intros (a & b & E). destruct a as [|x a]; [|discriminate E]. by exists b.
  - rewrite orb_true_iff, HasPrefix_spec, IH. split.
    + intros [[r Hr]|(a & b & Hs)]; [by exists "", r|].
      exists (String c a), b. by rewrite string_app_cons, Hs.
    + intros ([|x a] & b & E); [left; by exists b|right].
      exists a, b. by injection E.
Qed.

Lemma HasPrefix_length s p : HasPrefix s p = true → (String.length p ≤ String.length s)%nat.
Proof. rewrite HasPrefix_spec. intros [r ->]. rewrite string_length_app. lia. Qed.
Lemma HasSuffix_length s p : HasSuffix s p = true → (String.length p ≤ String.length s)%nat.
Proof. rewrite HasSuffix_spec. intros [r ->]. rewrite string_length_app. lia. Qed.
Lemma Contains_length s p : Contains s p = true → (String.length p ≤ String.length s)%nat.
Proof. rewrite Contains_spec. intros (a & b & ->). rewrite !string_length_app. lia. Qed.

(** Indexing: [s[i]], [None] where Go panics. *)
Definition byte_at (s : string) (i : nat) : option ascii := String.get i s.

Lemma byte_at_lt s i : (i < String.length s)%nat → ∃ c, byte_at s i = Some c.
Proof.
  unfold byte_at. revert i. induction s as [|c s IH]; intros i Hi; cbn in *; [lia|].
  destruct i as [|i]; [by exists c|]. apply IH. lia.
Qed.

Lemma byte_at_app_l a b i : (i < String.length a)%nat → byte_at (a +:+ b) i = byte_at a i.
Proof.
  unfold byte_at. revert i. induction a as [|c a IH]; intros i Hi; cbn in *; [lia|].
  destruct i as [|i]; [done|]. apply IH. lia.
Qed.

Lemma byte_at_app_r a b i : byte_at (a +:+ b) (String.length a + i) = byte_at b i.
Proof. unfold byte_at. by induction a as [|c a IH]. Qed.

Lemma contains_byte_spec s c : contains_byte s c = true ↔ ∃ i, byte_at s i = Some c.
Proof.
  unfold byte_at. induction s as [|x s IH]; cbn.
  - split; [done|]. intros [i Hi]. destruct i; discriminate Hi.
  - rewrite orb_true_iff, Ascii.eqb_eq, IH. split.
    + intros [->|[i Hi]]; [by exists O|by exists (S i)].
    + intros [[|i] Hi]; [left; by injection Hi|right; by exists i].
Qed.

(** ** Decoding inverts encoding *)

Section utf8.
#[local] Ltac decide_bounds :=
  repeat match goal with
  | |- context [(?a <=? ?b)%Z] =>
    first [ rewrite (proj2 (Z.leb_le a b)) by lia
          | rewrite (proj2 (Z.leb_gt a b)) by lia ]
  | |- context [(?a <? ?b)%Z] =>
    first [ rewrite (proj2 (Z.ltb_lt a b)) by lia
          | rewrite (proj2 (Z.ltb_ge a b)) by lia ]
  end.

Lemma valid_rune_spec r :
  valid_rune r = true ↔ (0 ≤ r ≤ 1114111)%Z ∧ ¬ (55296 ≤ r ≤ 57343)%Z.
Proof.
  unfold valid_rune. rewrite !andb_true_iff, negb_true_iff, andb_false_iff.
  rewrite !Z.leb_le, !Z.leb_gt. lia.
Qed.

(** The base-64 digits of a rune, without divisions. *)
Lemma rune_digits r :
  (0 ≤ r)%Z → ∃ q3 m2 m1 m0,
    (r / 262144 = q3 ∧ (r / 4096) mod 64 = m2 ∧ (r / 64) mod 64 = m1 ∧ r mod 64 = m0 ∧
     r / 4096 = 64 * q3 + m2 ∧ r / 64 = 64 * (64 * q3 + m2) + m1 ∧
     r = 64 * (64 * (64 * q3 + m2) + m1) + m0 ∧
     0 ≤ q3 ∧ 0 ≤ m2 < 64 ∧ 0 ≤ m1 < 64 ∧ 0 ≤ m0 < 64)%Z.
Proof.
  intros Hr. exists (r / 262144)%Z, ((r / 4096) mod 64)%Z, ((r / 64) mod 64)%Z, (r mod 64)%Z.
  assert (r / 4096 = r / 64 / 64)%Z as E1 by (rewrite Z.div_div; [done|lia..]).
  assert (r / 262144 = r / 4096 / 64)%Z as E2 by (rewrite Z.div_div; [done|lia..]).
  pose proof (Z.div_mod r 64). pose proof (Z.div_mod (r / 64) 64).
  pose proof (Z.div_mod (r / 4096) 64).
  pose proof (Z.mod_pos_bound r 64). pose proof (Z.mod_pos_bound (r / 64) 64).
  pose proof (Z.mod_pos_bound (r / 4096) 64).
  pose proof (Z.div_pos r 262144). lia.
Qed.

(** What one decoding step returns. *)
Lemma decode_rune_spec c0 s1 r chunk rest :
  decode_rune c0 s1 = (r, chunk, rest) →
  String c0 s1 = chunk +:+ rest ∧ chunk ≠ "" ∧ valid_rune r = true.
Proof.
  unfold decode_rune, is_cont. pose proof (byte_val_bound c0). intros Hd.
  assert (Hbad : valid_rune 65533 = true) by done.
  repeat (case_match; try (injection Hd as <- <- <-; rewrite ?string_app_cons; done)).
  all: rewrite ?andb_true_iff, ?Z.leb_le, ?Z.ltb_lt, ?Z.ltb_ge in *.
  all: injection Hd as <- <- <-; split; [by rewrite !string_app_cons|split; [done|]].
  all: apply valid_rune_spec.
  all: repeat match goal with
  | H : (_ =? _)%Z = true |- _ => apply Z.eqb_eq in H
  | H : (_ =? _)%Z = false |- _ => apply Z.eqb_neq in H
  end; lia.
Qed.

Lemma decode_rune_rest c0 s1 r chunk rest :
  decode_rune c0 s1 = (r, chunk, rest) → (String.length rest ≤ String.length s1)%nat.
Proof.
  intros (Heq & Hne & _)%decode_rune_spec.
  apply (f_equal String.length) in Heq. rewrite string_length_app in Heq. cbn in Heq.
  destruct chunk; [done|]. cbn in Heq. lia.
Qed.

Lemma runes_go_enough n m s :
  (String.length s ≤ n)%nat → (String.length s ≤ m)%nat → runes_go n s = runes_go m s.
Proof.
  revert m s. induction n as [|n IH]; intros m s Hn Hm.
  { destruct s; [by destruct m|cbn in Hn; lia]. }
  destruct s as [|c0 s1]; [by destruct m|]. destruct m as [|m]; [cbn in Hm; lia|]. cbn in *.
  destruct (decode_rune c0 s1) as [[r chunk] rest] eqn:Hd.
  apply decode_rune_rest in Hd. f_equal. apply IH; lia.
Qed.

Lemma runes_cons c0 s1 r chunk rest :
  decode_rune c0 s1 = (r, chunk, rest) → runes (String c0 s1) = (r, chunk) :: runes rest.
Proof.
  intros Hd. unfold runes. cbn. rewrite Hd. f_equal.
  apply runes_go_enough; [by eapply decode_rune_rest|done].
Qed.

(** Induction on the runes of a string. *)
Lemma runes_ind (P : string → Prop) :
  P "" →
  (∀ c0 s1 r chunk rest, decode_rune c0 s1 = (r, chunk, rest) → P rest → P (String c0 s1)) →
  ∀ s, P s.
Proof.
  intros H0 Hs s. remember (String.length s) as n eqn:Hn. revert s Hn.
  induction n as [n IH] using lt_wf_ind. intros [|c0 s1] ->; [done|].
  destruct (decode_rune c0 s1) as [[r chunk] rest] eqn:Hd.
  eapply Hs; [done|]. eapply IH; [|done]. apply decode_rune_rest in Hd. cbn. lia.
Qed.

Lemma runes_valid s : Forall (λ rc, valid_rune rc.1 = true ∧ rc.2 ≠ "") (runes s).
Proof.
  induction s as [|c0 s1 r chunk rest Hd IH] using runes_ind; [constructor|].
  rewrite (runes_cons _ _ _ _ _ Hd). apply decode_rune_spec in Hd as (_ & ? & ?).
  by constructor.
Qed.

Lemma runes_encode r s :
  valid_rune r = true → runes (encode_rune r +:+ s) = (r, encode_rune r) :: runes s.
Proof.
  rewrite valid_rune_spec. intros [Hr Hs]. unfold encode_rune.
  destruct (rune_digits r) as (q3 & m2 & m1 & m0 & -> & -> & -> & -> & -> & -> & Er & ?); [lia|].
  destruct (Z.ltb_spec r 128); [|destruct (Z.ltb_spec r 2048); [|destruct (Z.ltb_spec r 65536)]];
    rewrite !string_app_cons, string_app_nil_l; apply runes_cons; unfold decode_rune;
    rewrite !byte_val_of by lia; unfold is_cont.
  - decide_bounds. done.
  - decide_bounds. cbn [andb]. do 2 f_equal. lia.
  - destruct (Z.eqb_spec (224 + (64 * q3 + m2)) 224), (Z.eqb_spec (224 + (64 * q3 + m2)) 237);
      decide_bounds; cbn [andb]; do 2 f_equal; lia.
  - destruct (Z.eqb_spec (240 + q3) 240), (Z.eqb_spec (240 + q3) 244);
      decide_bounds; cbn [andb]; do 2 f_equal; lia.
Qed.

Lemma runes_encode_list rs :
  Forall (λ r, valid_rune r = true) rs →
  runes (concat_str (encode_rune <$> rs)) = (λ r, (r, encode_rune r)) <$> rs.
Proof.
  induction 1 as [|r rs Hr _ IH]; [done|]. cbn.
  fold (concat_str (encode_rune <$> rs)). by rewrite runes_encode, IH.
Qed.
End utf8.

(** ** Lower-casing does not create or remove white space at the ends *)

(** The table maps valid runes to valid runes that are not spaces. *)
Definition table_entry_ok (e : Z * Z * Z * Z) : bool :=
  let '(lo, hi, _, delta) := e in
  valid_rune (lo + delta) && valid_rune (hi + delta) &&
  bool_decide ((hi + delta < 55296) ∨ (57343 < lo + delta))%Z &&
  (* no white-space rune lies in [lo + delta, hi + delta] *)
  forallb (λ sp, (sp <? lo + delta) || (hi + delta <? sp))%Z
    [9; 10; 11; 12; 13; 32; 133; 160; 5760; 8192; 8193; 8194; 8195; 8196; 8197; 8198; 8199;
     8200; 8201; 8202; 8232; 8233; 8239; 8287; 12288]%Z.

Lemma is_space_list r :
  is_space r = true →
  r ∈ [9; 10; 11; 12; 13; 32; 133; 160; 5760; 8192; 8193; 8194; 8195; 8196; 8197; 8198; 8199;
       8200; 8201; 8202; 8232; 8233; 8239; 8287; 12288]%Z.
Proof.
  unfold is_space. intros H.
  assert (r = 9 ∨ r = 10 ∨ r = 11 ∨ r = 12 ∨ r = 13 ∨ r = 32 ∨ r = 133 ∨ r = 160 ∨ r = 5760 ∨
    r = 8192 ∨ r = 8193 ∨ r = 8194 ∨ r = 8195 ∨ r = 8196 ∨ r = 8197 ∨ r = 8198 ∨ r = 8199 ∨
    r = 8200 ∨ r = 8201 ∨ r = 8202 ∨ r = 8232 ∨ r = 8233 ∨ r = 8239 ∨ r = 8287 ∨ r = 12288)%Z
    by lia.
  rewrite !elem_of_cons, elem_of_nil. tauto.
Qed.

Lemma lower_in_ok t r :
  forallb table_entry_ok t = true → valid_rune r = true →
  lower_in t r = r ∨ (valid_rune (lower_in t r) = true ∧ is_space (lower_in t r) = false).
Proof.
  intros Ht Hr. induction t as [|[[[lo hi] stride] delta] t IH]; [by left|].
  cbn [forallb] in Ht. apply andb_true_iff in Ht as [He Ht]. cbn [lower_in].
  destruct ((lo <=? r)%Z && (r <=? hi)%Z && ((r - lo) mod stride =? 0)%Z) eqn:E; [|by apply IH].
  right. unfold table_entry_ok in He.
  rewrite !andb_true_iff, bool_decide_eq_true, !valid_rune_spec in He.
  destruct He as [[[[Hlo _] [Hhi _]] Hsur] Hsp].
  rewrite !andb_true_iff, !Z.leb_le in E. destruct E as [[? ?] _]. split.
  - apply valid_rune_spec. lia.
  - destruct (is_space (r + delta)) eqn:Es; [|done]. apply is_space_list in Es.
    rewrite forallb_forall in Hsp. apply list_elem_of_In in Es.
    specialize (Hsp _ Es). lia.
Qed.

Lemma lower_rune_ok r :
  valid_rune r = true →
  valid_rune (lower_rune r) = true ∧ (is_space (lower_rune r) = true → is_space r = true).
Proof.
  intros Hr. unfold lower_rune. destruct (Z.ltb_spec r 65); [done|].
  destruct (lower_in_ok lower_table r) as [->|[? ->]]; [by vm_compute|done..].
Qed.

Lemma drop_spaces_nil l : drop_spaces l = [] ↔ Forall (λ rc, is_space rc.1 = true) l.
Proof.
  induction l as [|[r c] l IH]; cbn; [done|]. rewrite Forall_cons_iff. cbn.
  destruct (is_space r); [rewrite IH; tauto|].
  split; [done|]. intros [[=] _].
Qed.

Lemma drop_spaces_head l rc l' : drop_spaces l = rc :: l' → is_space rc.1 = false.
Proof.
  induction l as [|[r c] l IH]; cbn; [done|]. destruct (is_space r) eqn:E; [done|].
  by intros [= <- <-].
Qed.

Lemma drop_spaces_suffix l : ∃ k, l = k ++ drop_spaces l.
Proof.
  induction l as [|[r c] l [k IH]]; cbn; [by exists []|].
  destruct (is_space r); [exists ((r, c) :: k); cbn; by f_equal|by exists []].
Qed.

Lemma concat_str_nil l : concat_str l = "" → Forall (λ s, s = "") l.
Proof.
  induction l as [|s l IH]; [done|]. cbn. intros E. destruct s; [|discriminate E].
  constructor; [done|]. by apply IH.
Qed.

(** A string trims to nothing exactly when all its runes are white space. *)
Lemma TrimSpace_empty s :
  TrimSpace s = "" ↔ Forall (λ rc, is_space rc.1 = true) (runes s).
Proof.
  unfold TrimSpace. split.
  - intros E. apply concat_str_nil in E. rewrite Forall_fmap in E.
    apply drop_spaces_nil. destruct (drop_spaces (runes s)) as [|rc l] eqn:Ed; [done|exfalso].
    pose proof (runes_valid s) as Hv. destruct (drop_spaces_suffix (runes s)) as [k Hk].
    rewrite Hk, Ed in Hv. apply Forall_app in Hv as [_ Hv].
    assert (Hns : ¬ Forall (λ rc, is_space rc.1 = true) (reverse (rc :: l))).
    { rewrite Forall_reverse, Forall_cons_iff. apply drop_spaces_head in Ed. intros [Hsp _]. congruence. }
    rewrite <- drop_spaces_nil in Hns.
    destruct (drop_spaces (reverse (rc :: l))) as [|rc' l'] eqn:Ed'; [done|].
    rewrite Forall_reverse, Forall_cons_iff in E. destruct E as [E _]. cbn in E.
    destruct (drop_spaces_suffix (reverse (rc :: l))) as [k' Hk'].
    rewrite <- Forall_reverse, Hk', Ed', Forall_app, Forall_cons_iff in Hv.
    destruct Hv as [_ [[_ Hne] _]]. done.
  - intros H. apply drop_spaces_nil in H. by rewrite H.
Qed.

Lemma runes_ToLower s : (runes (ToLower s)).*1 = lower_rune <$> (runes s).*1.
Proof.
  unfold ToLower.
  replace ((λ '(r, _), encode_rune (lower_rune r)) <$> runes s)
    with (encode_rune <$> (lower_rune <$> (runes s).*1)).
  2: { rewrite <- !list_fmap_compose. apply list_fmap_ext. by intros ? [r c] ?. }
  rewrite runes_encode_list.
  - rewrite <- list_fmap_compose. rewrite <- (list_fmap_id (lower_rune <$> _)) at 2. done.
  - rewrite !Forall_fmap. pose proof (runes_valid s) as Hv. rewrite Forall_forall in *.
    intros rc Hrc. destruct (Hv rc Hrc) as [Hr _]. cbn. by apply lower_rune_ok.
Qed.

(** Lower-casing keeps a string that is not all white space from becoming one. *)
Lemma TrimSpace_ToLower_empty s : TrimSpace (ToLower s) = "" → TrimSpace s = "".
Proof.
  rewrite !TrimSpace_empty, <- !(Forall_fmap fst (λ r, is_space r = true)), runes_ToLower.
  rewrite !Forall_fmap. intros H.
  pose proof (runes_valid s) as Hv. rewrite !Forall_forall in *.
  intros rc Hrc. cbn. destruct (Hv rc Hrc) as [Hr _].
  apply (lower_rune_ok _ Hr). by apply (H rc).
Qed.

(** ** Decimal rendering is injective *)

(** The number a string of digits denotes, after those read into [a]. *)
Fixpoint decimal_value (a : Z) (s : string) : Z :=
  match s with
  | EmptyString => a
  | String c s' => decimal_value (a * 10 + (byte_val c - 48))%Z s'
  end.

Lemma decimal_digit a d s :
  (0 ≤ d < 10)%Z → decimal_value a (String (digit d) s) = decimal_value (a * 10 + d) s.
Proof. intros Hd. cbn. unfold digit. rewrite byte_val_of by lia. f_equal. lia. Qed.

Lemma format_digits_S n z s :
  format_digits (S n) z s =
  if (z <? 10)%Z then String (digit (z mod 10)) s
  else format_digits n (z / 10) (String (digit (z mod 10)) s).
Proof. done. Qed.

Lemma decimal_format n z s :
  (0 ≤ z < 10 ^ Z.of_nat (S n))%Z → decimal_value 0 (format_digits (S n) z s) = decimal_value z s.
Proof.
  revert z s. induction n as [|n IH]; intros z s Hz;
    rewrite format_digits_S; destruct (Z.ltb_spec z 10) as [Hlt|Hge].
  - rewrite Z.mod_small, decimal_digit by lia. done.
  - cbn in Hz. lia.
  - rewrite Z.mod_small, decimal_digit by lia. done.
  - assert (0 ≤ z / 10 < 10 ^ Z.of_nat (S n))%Z as Hq.
    { split; [apply Z.div_pos; lia|]. apply Z.div_lt_upper_bound; [lia|].
      rewrite (Nat2Z.inj_succ (S n)), Z.pow_succ_r in Hz by lia. lia. }
    pose proof (Z.mod_pos_bound z 10 eq_refl). rewrite (IH _ _ Hq), decimal_digit by lia.
    f_equal. rewrite Z.mul_comm. symmetry. apply Z.div_mod. lia.
Qed.

Lemma decimal_pad n s : decimal_value 0 (pad_zeros n s) = decimal_value 0 s.
Proof. by induction n as [|n IH]. Qed.

Lemma Sprintf_020d_inj a b :
  in_u64 a → in_u64 b → Sprintf_020d a = Sprintf_020d b → a = b.
Proof.
  intros Ha Hb E. apply (f_equal (decimal_value 0)) in E. unfold Sprintf_020d, FormatUint in E.
  rewrite !decimal_pad, !decimal_format in E; [done|..]; unfold in_u64 in *; lia.
Qed.
