(* ===== verification/GoFloat.v ===== *)
(** * [strconv.ParseFloat] and [time.ParseDuration]

    Binary64 values are [spec_float] with precision 53 and maximal exponent
    1024, rounded to nearest even, as Go's [float64].  [ParseFloat] follows the
    scanner of the Go library ([special], [readFloat], [underscoreOK]) and
    rounds the exact decimal or hexadecimal value once. *)

From Stdlib Require Export SpecFloat.
From S2P Require Import Prelude GoStrings.

Definition f64_of_Z (z : Z) : spec_float := binary_normalize 53 1024 z 0 false.
Definition f64_mul : spec_float → spec_float → spec_float := SFmul 53 1024.
Definition f64_div : spec_float → spec_float → spec_float := SFdiv 53 1024.
Definition f32_one : spec_float := binary_normalize 24 128 1 0 false.

(** [uint64(x)] of a finite non-negative float64: truncation. *)
Definition f64_trunc (x : spec_float) : Z :=
  match x with
  | S754_finite false m e => if (0 <=? e)%Z then (Z.pos m * 2 ^ e)%Z else (Z.pos m / 2 ^ (- e))%Z
  | _ => 0%Z
  end.

(** [m * 10^e] or [m * 2^e], correctly rounded. *)
Definition f64_decimal (neg : bool) (m : Z) (e : Z) : spec_float :=
  match m with
  | Zpos p =>
    if (0 <=? e)%Z then
      match (Z.pos p * 10 ^ e)%Z with
      | Zpos q => binary_round 53 1024 neg q 0
      | _ => S754_zero neg
      end
    else
      match (10 ^ (- e))%Z with
      | Zpos q => f64_div (S754_finite neg p 0) (S754_finite false q 0)
      | _ => S754_zero neg
      end
  | _ => S754_zero neg
  end.

Definition f64_binary (neg : bool) (m : Z) (e : Z) : spec_float :=
  match m with
  | Zpos p => binary_round 53 1024 neg p e
  | _ => S754_zero neg
  end.

(** ** The scanner *)

Definition lower_byte (b : Z) : Z := Z.lor b 32.
Definition is_digit (b : Z) : bool := (48 <=? b)%Z && (b <=? 57)%Z.
Definition is_hex_letter (b : Z) : bool := (97 <=? lower_byte b)%Z && (lower_byte b <=? 102)%Z.

Definition bytes (s : string) : list Z := byte_val <$> String.list_ascii_of_string s.

Record mantissa := Mantissa {
  mant_value : Z;        (* the digits read as an integer *)
  mant_frac : Z;         (* how many of them follow the point *)
  mant_dot : bool;
  mant_digits : bool;
  mant_under : bool
}.

Fixpoint scan_mantissa (hex : bool) (l : list Z) (m : mantissa) : mantissa * list Z :=
  match l with
  | [] => (m, [])
  | c :: l' =>
    let '(Mantissa v k dot dig und) := m in
    if (c =? 95)%Z then scan_mantissa hex l' (Mantissa v k dot dig true)
    else if (c =? 46)%Z then
      if dot then (m, l) else scan_mantissa hex l' (Mantissa v k true dig und)
    else if is_digit c then
      scan_mantissa hex l'
        (Mantissa (v * (if hex then 16 else 10) + (c - 48)) (if dot then k + 1 else k) dot true und)%Z
    else if hex && is_hex_letter c then
      scan_mantissa hex l'
        (Mantissa (v * 16 + (lower_byte c - 87)) (if dot then k + 1 else k) dot true und)%Z
    else (m, l)
  end.

Fixpoint scan_exponent (l : list Z) (e : Z) (und : bool) : Z * bool * list Z :=
  match l with
  | [] => (e, und, [])
  | c :: l' =>
    if (c =? 95)%Z then scan_exponent l' e true
    else if is_digit c then
      scan_exponent l' (if (e <? 10000)%Z then (e * 10 + (c - 48))%Z else e) und
    else (e, und, l)
  end.

(** Underscores must separate digits; a base prefix counts as a digit. *)
Inductive saw := SawStart | SawDigit | SawUnder | SawOther.

Fixpoint underscores_ok (hex : bool) (l : list Z) (st : saw) : bool :=
  match l with
  | [] => match st with SawUnder => false | _ => true end
  | c :: l' =>
    if is_digit c || (hex && is_hex_letter c) then underscores_ok hex l' SawDigit
    else if (c =? 95)%Z then
      match st with SawDigit => underscores_ok hex l' SawUnder | _ => false end
    else match st with SawUnder => false | _ => underscores_ok hex l' SawOther end
  end.

Definition underscoreOK (l : list Z) : bool :=
  let l := match l with c :: l' => if (c =? 45)%Z || (c =? 43)%Z then l' else l | [] => [] end in
  match l with
  | 48%Z :: c :: l' =>
    let c' := lower_byte c in
    if (c' =? 98)%Z || (c' =? 111)%Z || (c' =? 120)%Z
    then underscores_ok (c' =? 120)%Z l' SawDigit
    else underscores_ok false l SawStart
  | _ => underscores_ok false l SawStart
  end.

Definition take_sign (l : list Z) : bool * list Z :=
  match l with
  | c :: l' => if (c =? 45)%Z then (true, l') else if (c =? 43)%Z then (false, l') else (false, l)
  | [] => (false, [])
  end.

(** The exponent part of a number: its value and whether it is well formed. *)
Definition read_exponent (hex : bool) (l : list Z) : option (Z * bool * list Z) :=
  match l with
  | c :: l1 =>
    if (lower_byte c =? (if hex then 112 else 101))%Z then
      let '(eneg, l2) := take_sign l1 in
      match l2 with
      | d :: _ =>
        if is_digit d then
          let '(e, und, l3) := scan_exponent l2 0 false in
          Some ((if eneg then - e else e)%Z, und, l3)
        else None
      | [] => None
      end
    else if hex then None else Some (0%Z, false, l)
  | [] => if hex then None else Some (0%Z, false, [])
  end.

(** [readFloat], followed by the conversion of what it read; [None] for a
    syntax error or text left over. *)
Definition read_float (l : list Z) : option spec_float :=
  let '(neg, l1) := take_sign l in
  let '(hex, l2) :=
    match l1 with
    | 48%Z :: x :: c :: l' => if (lower_byte x =? 120)%Z then (true, c :: l') else (false, l1)
    | _ => (false, l1)
    end in
  let '(m, l3) := scan_mantissa hex l2 (Mantissa 0 0 false false false) in
  if mant_digits m then
    match read_exponent hex l3 with
    | Some (e, und, []) =>
      if (mant_under m || und) && negb (underscoreOK l) then None
      else Some (if hex then f64_binary neg (mant_value m) (e - 4 * mant_frac m)
                 else f64_decimal neg (mant_value m) (e - mant_frac m))
    | _ => None
    end
  else None.

Definition special (l : list Z) : option spec_float :=
  let low := lower_byte <$> l in
  let '(neg, low1) := take_sign l in
  let low1 := lower_byte <$> low1 in
  if bool_decide (low1 = [105; 110; 102]%Z)
     || bool_decide (low1 = [105; 110; 102; 105; 110; 105; 116; 121]%Z)
  then Some (S754_infinity neg)
  else if bool_decide (low = [110; 97; 110]%Z) then Some S754_nan
  else None.

(** [strconv.ParseFloat(s, 64)]: [None] for a syntax error or a value out of
    range ([ErrRange]). *)
Definition ParseFloat (s : string) : option spec_float :=
  let l := bytes s in
  match special l with
  | Some x => Some x
  | None =>
    match read_float l with
    | Some (S754_infinity _) => None
    | r => r
    end
  end.

(** ** Durations *)

(** [leadingInt]: the value, [None] on overflow, and the rest. *)
Fixpoint leading_int (l : list Z) (x : Z) : option (Z * list Z) :=
  match l with
  | c :: l' =>
    if is_digit c then
      if (2 ^ 63 / 10 <? x)%Z then None
      else let x' := (x * 10 + (c - 48))%Z in
           if (2 ^ 63 <? x')%Z then None else leading_int l' x'
    else Some (x, l)
  | [] => Some (x, [])
  end.

(** [leadingFraction]: digits after the point; those that would overflow are
    skipped. *)
Fixpoint leading_fraction (l : list Z) (x : Z) (scale : spec_float) (over : bool)
    : Z * spec_float * list Z :=
  match l with
  | c :: l' =>
    if is_digit c then
      if over then leading_fraction l' x scale true
      else if ((2 ^ 63 - 1) / 10 <? x)%Z then leading_fraction l' x scale true
      else let y := (x * 10 + (c - 48))%Z in
           if (2 ^ 63 <? y)%Z then leading_fraction l' x scale true
           else leading_fraction l' y (f64_mul scale (f64_of_Z 10)) false
    else (x, scale, l)
  | [] => (x, scale, [])
  end.

Fixpoint take_unit (l : list Z) : list Z * list Z :=
  match l with
  | c :: l' => if (c =? 46)%Z || is_digit c then ([], l)
               else let '(u, r) := take_unit l' in (c :: u, r)
  | [] => ([], [])
  end.

(** [unitMap]; the micro sign is the two-byte U+00B5 or U+03BC. *)
Definition unit_ns (u : list Z) : option Z :=
  if bool_decide (u = [110; 115]%Z) then Some 1%Z
  else if bool_decide (u = [117; 115]%Z) then Some 1000%Z
  else if bool_decide (u = [194; 181; 115]%Z) then Some 1000%Z
  else if bool_decide (u = [206; 188; 115]%Z) then Some 1000%Z
  else if bool_decide (u = [109; 115]%Z) then Some 1000000%Z
  else if bool_decide (u = [115]%Z) then Some 1000000000%Z
  else if bool_decide (u = [109]%Z) then Some 60000000000%Z
  else if bool_decide (u = [104]%Z) then Some 3600000000000%Z
  else None.

(** The loop of [ParseDuration]; every round consumes a byte. *)
Fixpoint duration_go (fuel : nat) (l : list Z) (d : Z) : option Z :=
  match fuel, l with
  | _, [] => Some d
  | O, _ => None
  | S fuel', c :: _ =>
    if negb ((c =? 46)%Z || is_digit c) then None
    else match leading_int l 0 with
    | None => None
    | Some (v, l1) =>
      let pre := negb (length l1 =? length l)%nat in
      let '(f, scale, l2, post) :=
        match l1 with
        | 46%Z :: l1' =>
          let '(f, scale, l2) := leading_fraction l1' 0 (f64_of_Z 1) false in
          (f, scale, l2, negb (length l2 =? length l1')%nat)
        | _ => (0%Z, f64_of_Z 1, l1, false)
        end in
      if negb pre && negb post then None
      else let '(u, l3) := take_unit l2 in
        match u, unit_ns u with
        | _ :: _, Some ns =>
          if (2 ^ 63 / ns <? v)%Z then None
          else
            let v1 := (v * ns)%Z in
            let v2 := if (0 <? f)%Z
                      then (v1 + f64_trunc (f64_mul (f64_of_Z f) (f64_div (f64_of_Z ns) scale)))%Z
                      else v1 in
            if (2 ^ 63 <? v2)%Z then None
            else if (2 ^ 63 <? d + v2)%Z then None
            else duration_go fuel' l3 (d + v2)
        | _, _ => None
        end
    end
  end.

(** [time.ParseDuration]: nanoseconds, [None] for an error. *)
Definition ParseDuration (s : string) : option Z :=
  let '(neg, l) := take_sign (bytes s) in
  if bool_decide (l = [48]%Z) then Some 0%Z
  else match l with
  | [] => None
  | _ =>
    match duration_go (length l) l 0 with
    | Some d => if neg then Some (- d)%Z else if (2 ^ 63 - 1 <? d)%Z then None else Some d
    | None => None
    end
  end.

Global Arguments ParseFloat : simpl never.
Global Arguments ParseDuration : simpl never.

Example ParseFloat_decimal :
  ParseFloat "10" = Some (f64_of_Z 10) ∧ ParseFloat "1e1" = ParseFloat "0x1.4p3"
  ∧ ParseFloat "1_0.0" = Some (f64_of_Z 10) ∧ ParseFloat " 1" = None ∧ ParseFloat "1e999" = None
  ∧ ParseFloat "0.1" = Some (S754_finite false 7205759403792794 (-56)).
Proof. by vm_compute. Qed.

Example ParseDuration_ex :
  ParseDuration "1h30m" = Some 5400000000000%Z ∧ ParseDuration "1.5s" = Some 1500000000%Z
  ∧ ParseDuration "5" = None ∧ ParseDuration "0" = Some 0%Z ∧ ParseDuration "-2ms" = Some (-2000000)%Z.
Proof. by vm_compute. Qed.

(** ** [float32] arithmetic *)

Definition f32_of_Z (z : Z) : spec_float := binary_normalize 24 128 z 0 false.
Definition f32_zero : spec_float := S754_zero false.
Definition f32_add : spec_float → spec_float → spec_float := SFadd 24 128.
Definition f32_mul : spec_float → spec_float → spec_float := SFmul 24 128.
Definition f32_div : spec_float → spec_float → spec_float := SFdiv 24 128.

(** [x == 0], true of both zeros *)
Definition f32_is_zero (x : spec_float) : bool :=
  match x with S754_zero _ => true | _ => false end.
