(* ===== verification/EventModel.v ===== *)
(** * Events, signals and behaviours

    The protobuf messages of [api/proto/event/v1] and [api/proto/signal/v1]
    as records, with the nil-safe getters the generated code has, and the
    behaviour names of [internal/eventmodel/behavior.go].  A nil message is
    [None]; a getter on it returns the zero value. *)

From S2P Require Import Prelude GoStrings GoFloat.

Module EventModel.

(** ** event.proto *)

Record ProcessRef := MkProcessRef {
  proc_StableId : string;
  proc_Pid : Z;
  proc_Binary : string;
  proc_Argv : list string;
  proc_Uid : Z;
  proc_StartTimeNs : Z;
  proc_ArgvBoundariesTrusted : bool
}.

Record ObjectRef := MkObjectRef {
  obj_Kind : string;
  obj_FilePath : string;
  obj_SocketAddr : string;
  obj_TargetProcStableId : string
}.

Record RuntimeScope := MkRuntimeScope {
  scope_Type : string;
  scope_Selector : string
}.

Record CanonicalEvent := MkCanonicalEvent {
  ev_Id : string;
  ev_Seq : Z;
  ev_AgentId : string;
  ev_HostId : string;
  ev_MonoNs : Z;
  ev_SubjectProc : option ProcessRef;
  ev_Object : option ObjectRef;
  ev_ParentStableId : string;
  ev_LineageId : string;
  ev_RawRef : string;
  ev_TenantId : string;
  ev_Scope : option RuntimeScope;
  ev_ContainerId : string;
  ev_Cgroup : string;
  ev_Namespace : string;
  ev_Pod : string;
  ev_OccurredAtNs : Z;
  ev_Behavior : string;
  ev_Labels : gmap string string
}.

Definition zero_proc : ProcessRef := MkProcessRef "" 0 "" [] 0 0 false.
Definition zero_obj : ObjectRef := MkObjectRef "" "" "" "".
Definition zero_scope : RuntimeScope := MkRuntimeScope "" "".

(** [ev.GetSubjectProc().GetX()] on a nil process reads the zero value. *)
Definition GetSubjectProc (ev : CanonicalEvent) : ProcessRef := default zero_proc (ev_SubjectProc ev).
Definition GetObject (ev : CanonicalEvent) : ObjectRef := default zero_obj (ev_Object ev).
Definition GetScope (ev : CanonicalEvent) : RuntimeScope := default zero_scope (ev_Scope ev).

(** ** signal.proto *)

Inductive SignalWhere :=
  SIGNAL_WHERE_UNSPECIFIED | SIGNAL_WHERE_ENDPOINT | SIGNAL_WHERE_CLOUD.

Record EntityRef := MkEntityRef {
  ent_Kind : string;
  ent_Key : string;
  ent_Role : string
}.

Global Instance EntityRef_eq_dec : EqDecision EntityRef.
Proof. solve_decision. Defined.

Record ContentRefMsg := MkContentRefMsg {
  cref_Ref : string;
  cref_Version : string;
  cref_Digest : string
}.

Record EvidenceBundle := MkEvidenceBundle {
  evb_Id : string;
  evb_EventRefs : list string;
  evb_RawRefs : list string;
  evb_Entities : list EntityRef;
  evb_Summary : string
}.

Record ResponseIntentMsg := MkResponseIntentMsg {
  ri_ResponseIntent : string;
  ri_RecommendedAction : string;
  ri_Confidence : Z;
  ri_Reason : string
}.

Record Signal := MkSignal {
  sig_Id : string;
  sig_Name : string;
  sig_Where : SignalWhere;
  sig_BaseRisk : Z;
  sig_LocalRarity : spec_float;
  sig_GlobalRarity : spec_float;
  sig_LineageId : string;
  sig_Entities : list EntityRef;
  sig_EventRefs : list string;
  sig_SignalRefs : list string;
  sig_Terminal : bool;
  sig_Evidence : option EvidenceBundle;
  sig_CrossLineage : bool;
  sig_ResponseIntent : option ResponseIntentMsg;
  sig_RuleId : string;
  sig_RuleVersion : Z;
  sig_RulesetRef : string;
  sig_ContextRefs : list ContentRefMsg;
  sig_IocRefs : list ContentRefMsg;
  sig_Severity : string;
  sig_Confidence : Z;
  sig_Mode : string;
  sig_Labels : gmap string string
}.

(** ** Behaviours *)

Definition BehaviorProcessExec : string := "process.exec".
Definition BehaviorProcessFork : string := "process.fork".
Definition BehaviorProcessExit : string := "process.exit".
Definition BehaviorFileOpen : string := "file.open".
Definition BehaviorFileRead : string := "file.read".
Definition BehaviorFileWrite : string := "file.write".
Definition BehaviorFileChmod : string := "file.chmod".
Definition BehaviorNetworkConnect : string := "network.connect".

Definition AllBehaviors : list string :=
  [BehaviorProcessExec; BehaviorProcessFork; BehaviorProcessExit; BehaviorFileOpen;
   BehaviorFileRead; BehaviorFileWrite; BehaviorFileChmod; BehaviorNetworkConnect].

Definition NormalizeBehavior (name : string) : string := TrimSpace (ToLower name).

Definition KnownBehavior (name : string) : bool :=
  bool_decide (NormalizeBehavior name ∈ AllBehaviors).

(** A name that is not blank keeps a non-empty normal form. *)
Lemma NormalizeBehavior_nonblank name :
  TrimSpace name ≠ "" → NormalizeBehavior name ≠ "".
Proof. intros Hne He. apply Hne. by apply TrimSpace_ToLower_empty. Qed.

End EventModel.
