(* ===== verification/GoBytes.v ===== *)
(** * Byte slices, byte order and checksums

    What the storage code uses of Go's [encoding/binary], [hash/crc32] and
    error returns.  A [[]byte] is a list of bytes; a function that returns
    [(T, error)] returns a [result]. *)

From S2P Require Import Prelude GoStrings.

(** ** Errors *)

Inductive result (A : Type) : Type :=
| Ok (x : A)
| Err (msg : string).
Arguments Ok {A} _.
Arguments Err {A} _.

Global Instance result_ret : MRet result := λ A x, Ok x.
Global Instance result_bind : MBind result :=
  λ A B f r, match r with Ok x => f x | Err msg => Err msg end.

(** ** Bytes *)

Notation byte := Ascii.ascii.
Notation bytes := (list Ascii.ascii).

(** The conversion [[]byte(s)]. *)
Definition bytes_of (s : string) : bytes := String.list_ascii_of_string s.

Lemma bytes_of_length s : length (bytes_of s) = String.length s.
Proof. induction s as [|c s IH]; [done|]. cbn. by f_equal. Qed.

(** ** Big-endian integers

    [be n z] is what [PutUint16], [PutUint32] and [PutUint64] write for
    [n] = 2, 4 and 8, [be_val] what the readers return. *)

Fixpoint be (n : nat) (z : Z) : bytes :=
  match n with
  | O => []
  | S n' => byte_of (Z.shiftr z (8 * Z.of_nat n') mod 256) :: be n' z
  end.

Definition be_val (bs : bytes) : Z := foldl (λ acc b, (acc * 256 + byte_val b)%Z) 0%Z bs.

Lemma be_length n z : length (be n z) = n.
Proof. induction n as [|n IH]; [done|]. cbn. by f_equal. Qed.

Lemma be_val_app acc n z :
  foldl (λ acc b, (acc * 256 + byte_val b)%Z) acc (be n z) = (acc * 256 ^ Z.of_nat n + z mod 256 ^ Z.of_nat n)%Z.
Proof.
  revert acc. induction n as [|n IH]; intros acc.
  { cbn. rewrite Z.mod_1_r. lia. }
  cbn [be foldl]. rewrite IH, byte_val_of by (apply Z.mod_pos_bound; lia).
  rewrite Nat2Z.inj_succ, Z.pow_succ_r, Z.shiftr_div_pow2 by lia.
  replace (2 ^ (8 * Z.of_nat n))%Z with (256 ^ Z.of_nat n)%Z by (rewrite Z.pow_mul_r by lia; done).
  assert (0 < 256 ^ Z.of_nat n)%Z as Hp by (apply Z.pow_pos_nonneg; lia).
  rewrite (Z.mul_comm 256), (Z.rem_mul_r z) by lia. lia.
Qed.

Lemma be_val_be n z : (0 ≤ z < 256 ^ Z.of_nat n)%Z → be_val (be n z) = z.
Proof. intros Hz. unfold be_val. rewrite be_val_app, Z.mod_small by done. lia. Qed.

(** ** CRC-32 with the Castagnoli polynomial, bit by bit *)

Definition castagnoli : Z := 0x82F63B78.

Definition crc_bit (crc : Z) : Z :=
  if Z.odd crc then Z.lxor (Z.shiftr crc 1) castagnoli else Z.shiftr crc 1.

Definition crc_byte (crc : Z) (b : byte) : Z := Nat.iter 8 crc_bit (Z.lxor crc (byte_val b)).

Definition Checksum (bs : bytes) : Z := Z.lxor (foldl crc_byte 0xFFFFFFFF%Z bs) 0xFFFFFFFF.

(** The check value of the algorithm. *)
Example Checksum_check : Checksum (bytes_of "123456789") = 0xE3069283%Z.
Proof. vm_compute. reflexivity. Qed.

Lemma lxor_u32 a b : (0 ≤ a < 2 ^ 32 → 0 ≤ b < 2 ^ 32 → 0 ≤ Z.lxor a b < 2 ^ 32)%Z.
Proof.
  intros Ha Hb. assert (0 ≤ Z.lxor a b)%Z as H0 by (apply Z.lxor_nonneg; lia). split; [done|].
  destruct (decide (Z.lxor a b = 0)%Z) as [->|Hne]; [lia|]. apply Z.log2_lt_pow2; [lia|].
  assert (∀ z, 0 ≤ z < 2 ^ 32 → Z.log2 z < 32)%Z as Hlog.
  { intros z Hz. destruct (decide (z = 0)%Z) as [->|]; [done|]. apply Z.log2_lt_pow2; lia. }
  pose proof (Z.log2_lxor a b ltac:(lia) ltac:(lia)). pose proof (Hlog a Ha). pose proof (Hlog b Hb). lia.
Qed.

Lemma Checksum_bound bs : (0 ≤ Checksum bs < 2 ^ 32)%Z.
Proof.
  apply lxor_u32; [|lia].
  assert (∀ crc, 0 ≤ crc < 2 ^ 32 → 0 ≤ crc_bit crc < 2 ^ 32)%Z as Hbit.
  { intros crc Hc. unfold crc_bit.
    assert (0 ≤ Z.shiftr crc 1 < 2 ^ 32)%Z as Hs.
    { rewrite Z.shiftr_div_pow2 by lia. split; [apply Z.div_pos; lia|].
      apply Z.div_lt_upper_bound; lia. }
    destruct (Z.odd crc); [|done]. apply lxor_u32; [done|unfold castagnoli; lia]. }
  assert (∀ n crc, 0 ≤ crc < 2 ^ 32 → 0 ≤ Nat.iter n crc_bit crc < 2 ^ 32)%Z as Hiter.
  { intros n crc Hc. induction n as [|n IH]; [done|]. cbn. by apply Hbit. }
  assert (0 ≤ 0xFFFFFFFF < 2 ^ 32)%Z as Hi by lia. revert Hi. generalize 0xFFFFFFFF%Z.
  induction bs as [|b bs IH]; intros crc Hc; [done|]. cbn [foldl]. apply IH. unfold crc_byte. apply Hiter, lxor_u32; [done|].
  pose proof (byte_val_bound b). lia.
Qed.

(** ** Slices *)

(** [bs[i:j]], total: the callers check the bounds first. *)
Definition slice (bs : bytes) (i j : nat) : bytes := take (j - i) (drop i bs).

Lemma slice_app (pre mid post : bytes) i j :
  i = length pre → j = (i + length mid)%nat → slice (pre ++ mid ++ post) i j = mid.
Proof.
  intros -> ->. unfold slice. rewrite drop_app_length. replace (_ - _)%nat with (length mid) by lia.
  by rewrite take_app_length.
Qed.

Lemma slice_app_end (pre mid : bytes) i j :
  i = length pre → j = (i + length mid)%nat → slice (pre ++ mid) i j = mid.
Proof. intros Hi Hj. rewrite <- (app_nil_r mid) at 1. by apply slice_app. Qed.

Global Opaque Checksum be.
