(* ===== verification/Matcher.v ===== *)
(** * String matchers ([internal/endpoint/matcher/matcher.go])

    The [Matcher] interface of the compiled rules: a linear baseline for
    prefixes, suffixes and substrings, and the bucketed variants chosen by the
    process-wide strategy.  Bytes index arrays of 256 entries, modelled by
    lists of that length.  The last section proves that a matcher's answer
    does not depend on the strategy. *)

From S2P Require Import Prelude GoStrings.

Module Matcher.

(** ** Strategy *)

Definition StrategyLinear : string := "linear".
Definition StrategyOptimized : string := "optimized".

(** The value the global holds after [SetDefaultStrategy(strategy)]. *)
Definition SetDefaultStrategy (strategy : string) : string :=
  if bool_decide (strategy = StrategyLinear ∨ strategy = StrategyOptimized)
  then strategy else StrategyLinear.

(** [strategy] is what [DefaultStrategy()] returns. *)
Definition useOptimized (strategy : string) (size : nat) : bool :=
  bool_decide (strategy = StrategyOptimized).

(** ** The matchers *)

Inductive t :=
| emptyMatcher
| exactMatcher (values : gset string)
| prefixMatcher (prefixes : list string)
| suffixMatcher (suffixes : list string)
| containsMatcher (patterns : list string)
| bucketPrefixMatcher (prefixes : list string) (index : nat) (buckets : list (list string))
| bucketSuffixMatcher (suffixes : list string) (index : nat) (buckets : list (list string))
| bucketContainsMatcher (patterns : list string) (buckets : list (list string)).

Fixpoint normalize_go (seen : gset string) (values : list string) : list string :=
  match values with
  | [] => []
  | value :: values' =>
    if bool_decide (value = "") then normalize_go seen values'
    else if bool_decide (value ∈ seen) then normalize_go seen values'
    else value :: normalize_go ({[value]} ∪ seen) values'
  end.

Definition normalize (values : list string) : list string := normalize_go ∅ values.

(** ** Arrays indexed by a byte *)

Definition bucket_of (buckets : list (list string)) (key : ascii) : list string :=
  default [] (buckets !! nat_of_ascii key).

Definition bucket_append (buckets : list (list string)) (key : ascii) (s : string) : list (list string) :=
  alter (λ b, b ++ [s]) (nat_of_ascii key) buckets.

Definition no_buckets : list (list string) := replicate 256 [].

Definition sortByLengthDesc (values : list string) : list string :=
  stable_sort (λ s, (- Z.of_nat (String.length s))%Z) values.

Fixpoint shortest_go (shortest : nat) (values : list string) : nat :=
  match values with
  | [] => shortest
  | value :: values' =>
    shortest_go (if (String.length value <? shortest)%nat then String.length value else shortest) values'
  end.

Definition shortestLength (values : list string) : nat :=
  match values with
  | [] => 0%nat
  | value :: values' => shortest_go (String.length value) values'
  end.

(** The byte a shared index selects in [value]. *)
Definition index_byte (rev : bool) (index : nat) (value : string) : option ascii :=
  byte_at value (if rev then String.length value - 1 - index else index)%nat.

Fixpoint distinct_at (rev : bool) (index : nat) (seen : gset nat) (distinct : nat) (values : list string) : nat :=
  match values with
  | [] => distinct
  | value :: values' =>
    if (String.length value <=? index)%nat then distinct_at rev index seen distinct values'
    else match index_byte rev index value with
    | None => distinct_at rev index seen distinct values'
    | Some key =>
      if bool_decide (nat_of_ascii key ∈ seen) then distinct_at rev index seen distinct values'
      else distinct_at rev index ({[nat_of_ascii key]} ∪ seen) (S distinct) values'
    end
  end.

Fixpoint best_index_go (rev : bool) (values : list string) (indexes : list nat) (bestIndex bestDistinct : nat) : nat :=
  match indexes with
  | [] => bestIndex
  | index :: indexes' =>
    let distinct := distinct_at rev index ∅ 0 values in
    if (bestDistinct <? distinct)%nat
    then best_index_go rev values indexes' index distinct
    else best_index_go rev values indexes' bestIndex bestDistinct
  end.

Definition bestSharedIndex (values : list string) (rev : bool) : nat :=
  let maxLen := shortestLength values in
  let maxLen := if (32 <? maxLen)%nat then 32%nat else maxLen in
  best_index_go rev values (seq 0 maxLen) 0 0.

Fixpoint fill_buckets (rev : bool) (index : nat) (values : list string) (buckets : list (list string)) : list (list string) :=
  match values with
  | [] => buckets
  | value :: values' =>
    if (String.length value <=? index)%nat then fill_buckets rev index values' buckets
    else match index_byte rev index value with
    | None => fill_buckets rev index values' buckets
    | Some key => fill_buckets rev index values' (bucket_append buckets key value)
    end
  end.

Definition newBucketPrefixMatcher (prefixes : list string) : t :=
  let index := bestSharedIndex prefixes false in
  bucketPrefixMatcher prefixes index
    (sortByLengthDesc <$> fill_buckets false index prefixes no_buckets).

Definition newBucketSuffixMatcher (suffixes : list string) : t :=
  let index := bestSharedIndex suffixes true in
  bucketSuffixMatcher suffixes index
    (sortByLengthDesc <$> fill_buckets true index suffixes no_buckets).

(** ** Frequencies of bytes over the patterns *)

Fixpoint count_bytes (seen : gset nat) (value : string) (out : list Z) : list Z :=
  match value with
  | EmptyString => out
  | String key value' =>
    if bool_decide (nat_of_ascii key ∈ seen) then count_bytes seen value' out
    else count_bytes ({[nat_of_ascii key]} ∪ seen) value'
           (alter (λ n, (n + 1)%Z) (nat_of_ascii key) out)
  end.

Definition byteFrequencies (values : list string) : list Z :=
  foldl (λ out value, count_bytes ∅ value out) (replicate 256 0%Z) values.

Definition frequency (frequencies : list Z) (key : ascii) : Z :=
  default 0%Z (frequencies !! nat_of_ascii key).

Fixpoint rarest_go (frequencies : list Z) (value : string) (best : ascii) (bestCount : Z) : ascii :=
  match value with
  | EmptyString => best
  | String c value' =>
    let count := frequency frequencies c in
    if (count <? bestCount)%Z then
      if (count =? 1)%Z then c else rarest_go frequencies value' c count
    else rarest_go frequencies value' best bestCount
  end.

(** [None] where indexing the empty string panics. *)
Definition rarestGlobalByte (value : string) (frequencies : list Z) : option ascii :=
  match value with
  | EmptyString => None
  | String c value' => Some (rarest_go frequencies value' c (frequency frequencies c))
  end.

Fixpoint fill_contains (frequencies : list Z) (patterns : list string) (buckets : list (list string)) : list (list string) :=
  match patterns with
  | [] => buckets
  | pattern :: patterns' =>
    match rarestGlobalByte pattern frequencies with
    | None => fill_contains frequencies patterns' buckets
    | Some key => fill_contains frequencies patterns' (bucket_append buckets key pattern)
    end
  end.

Definition newBucketContainsMatcher (patterns : list string) : t :=
  bucketContainsMatcher patterns
    (sortByLengthDesc <$> fill_contains (byteFrequencies patterns) patterns no_buckets).

(** ** Constructors of the interface *)

Definition NewExact (values : list string) : t :=
  let values := normalize values in
  match values with
  | [] => emptyMatcher
  | _ => exactMatcher (list_to_set values)
  end.

Definition NewPrefix (strategy : string) (prefixes : list string) : t :=
  let prefixes := normalize prefixes in
  match prefixes with
  | [] => emptyMatcher
  | _ => if useOptimized strategy (length prefixes) then newBucketPrefixMatcher prefixes
         else prefixMatcher prefixes
  end.

Definition NewSuffix (strategy : string) (suffixes : list string) : t :=
  let suffixes := normalize suffixes in
  match suffixes with
  | [] => emptyMatcher
  | _ => if useOptimized strategy (length suffixes) then newBucketSuffixMatcher suffixes
         else suffixMatcher suffixes
  end.

Definition NewContains (strategy : string) (patterns : list string) : t :=
  let patterns := normalize patterns in
  match patterns with
  | [] => emptyMatcher
  | _ => if useOptimized strategy (length patterns) then newBucketContainsMatcher patterns
         else containsMatcher patterns
  end.

(** ** Matching *)

Definition match_bucket_at (rev : bool) (test : string → string → bool) (index : nat)
    (buckets : list (list string)) (value : string) : bool :=
  if (String.length value <=? index)%nat then false
  else match index_byte rev index value with
  | None => false
  | Some key =>
    existsb (λ p, (String.length p <=? String.length value)%nat && test value p)
      (bucket_of buckets key)
  end.

Fixpoint match_contains_go (buckets : list (list string)) (value : string) (seen : gset nat) (rest : string) : bool :=
  match rest with
  | EmptyString => false
  | String key rest' =>
    if bool_decide (nat_of_ascii key ∈ seen) then match_contains_go buckets value seen rest'
    else if existsb (λ p, (String.length p <=? String.length value)%nat && Contains value p)
              (bucket_of buckets key) then true
    else match_contains_go buckets value ({[nat_of_ascii key]} ∪ seen) rest'
  end.

Definition Match (m : t) (value : string) : bool :=
  match m with
  | emptyMatcher => false
  | exactMatcher values => bool_decide (value ∈ values)
  | prefixMatcher prefixes => existsb (HasPrefix value) prefixes
  | suffixMatcher suffixes => existsb (HasSuffix value) suffixes
  | containsMatcher patterns => existsb (Contains value) patterns
  | bucketPrefixMatcher _ index buckets => match_bucket_at false HasPrefix index buckets value
  | bucketSuffixMatcher _ index buckets => match_bucket_at true HasSuffix index buckets value
  | bucketContainsMatcher _ buckets =>
    if bool_decide (value = "") then false else match_contains_go buckets value ∅ value
  end.

(** ** Normalised values *)

Lemma elem_of_normalize_go seen values s :
  s ∈ normalize_go seen values ↔ s ∈ values ∧ s ≠ "" ∧ s ∉ seen.
Proof.
  revert seen. induction values as [|v values IH]; intros seen; cbn.
  { rewrite elem_of_nil. tauto. }
  rewrite elem_of_cons. repeat case_bool_decide; subst.
  - rewrite IH. split; [tauto|]. intros [[->|?] [? ?]]; tauto.
  - rewrite IH. split; [tauto|]. intros [[->|?] [? ?]]; tauto.
  - rewrite elem_of_cons, IH, not_elem_of_union, not_elem_of_singleton.
    split; [intros [->|?]; tauto|]. intros [Hs [? ?]].
    destruct (decide (s = v)); tauto.
Qed.

Lemma elem_of_normalize values s : s ∈ normalize values ↔ s ∈ values ∧ s ≠ "".
Proof.
  unfold normalize. rewrite elem_of_normalize_go.
  split; [tauto|]. intros [? ?]. split_and!; [done..|apply not_elem_of_empty].
Qed.

(** ** Buckets hold exactly the values filed under their key *)

Lemma nat_of_ascii_lt (c : ascii) : (nat_of_ascii c < 256)%nat.
Proof. apply nat_ascii_bounded. Qed.

Lemma nat_of_ascii_inj (c d : ascii) : nat_of_ascii c = nat_of_ascii d → c = d.
Proof. intros E. rewrite <- (ascii_nat_embedding c), <- (ascii_nat_embedding d). by rewrite E. Qed.

Lemma bucket_of_append buckets key k s v :
  length buckets = 256%nat →
  v ∈ bucket_of (bucket_append buckets key s) k ↔ v ∈ bucket_of buckets k ∨ (key = k ∧ v = s).
Proof.
  intros Hlen. unfold bucket_of, bucket_append.
  destruct (decide (key = k)) as [->|Hne].
  - destruct (lookup_lt_is_Some_2 buckets (nat_of_ascii k)) as [b Hb].
    { rewrite Hlen. apply nat_of_ascii_lt. }
    rewrite list_lookup_alter_eq, Hb. cbn. rewrite elem_of_app, list_elem_of_singleton. tauto.
  - rewrite list_lookup_alter_ne; [tauto|]. intros E. by apply nat_of_ascii_inj in E.
Qed.

Lemma length_bucket_append buckets key s : length (bucket_append buckets key s) = length buckets.
Proof. apply length_alter. Qed.

Lemma no_buckets_empty k : bucket_of no_buckets k = [].
Proof.
  unfold bucket_of, no_buckets. rewrite lookup_replicate_2; [done|]. apply nat_of_ascii_lt.
Qed.

Lemma elem_of_fill_buckets rev index values buckets k v :
  length buckets = 256%nat →
  v ∈ bucket_of (fill_buckets rev index values buckets) k ↔
  v ∈ bucket_of buckets k ∨
  (v ∈ values ∧ (index < String.length v)%nat ∧ index_byte rev index v = Some k).
Proof.
  revert buckets. induction values as [|w values IH]; intros buckets Hlen; cbn.
  { rewrite elem_of_nil. tauto. }
  rewrite elem_of_cons. destruct (Nat.leb_spec (String.length w) index).
  { rewrite IH by done. split; [tauto|]. intros [?|[[->|?] [? ?]]]; [tauto|lia|tauto]. }
  destruct (index_byte rev index w) as [key|] eqn:Ek.
  - rewrite IH by (by rewrite length_bucket_append). rewrite bucket_of_append by done.
    split; [intros [[?|[-> ->]]|?]; tauto|].
    intros [?|[[->|?] [? ?]]]; [tauto| |tauto]. left. right. split; congruence.
  - rewrite IH by done. split; [tauto|]. intros [?|[[->|?] [? ?]]]; [tauto|congruence|tauto].
Qed.

Lemma elem_of_fill_contains frequencies patterns buckets k v :
  length buckets = 256%nat →
  v ∈ bucket_of (fill_contains frequencies patterns buckets) k ↔
  v ∈ bucket_of buckets k ∨ (v ∈ patterns ∧ rarestGlobalByte v frequencies = Some k).
Proof.
  revert buckets. induction patterns as [|w patterns IH]; intros buckets Hlen; cbn.
  { rewrite elem_of_nil. tauto. }
  rewrite elem_of_cons. destruct (rarestGlobalByte w frequencies) as [key|] eqn:Ek.
  - rewrite IH by (by rewrite length_bucket_append). rewrite bucket_of_append by done.
    split; [intros [[?|[-> ->]]|?]; tauto|].
    intros [?|[[->|?] ?]]; [tauto| |tauto]. left. right. split; congruence.
  - rewrite IH by done. split; [tauto|]. intros [?|[[->|?] ?]]; [tauto|congruence|tauto].
Qed.

Lemma elem_of_sorted_bucket buckets k v :
  v ∈ bucket_of (sortByLengthDesc <$> buckets) k ↔ v ∈ bucket_of buckets k.
Proof.
  unfold bucket_of. rewrite list_lookup_fmap.
  destruct (buckets !! nat_of_ascii k) as [b|]; cbn; [|done].
  apply elem_of_stable_sort.
Qed.

(** ** The chosen index is inside every pattern *)

Lemma shortest_go_le n values :
  (shortest_go n values ≤ n)%nat ∧ ∀ v, v ∈ values → (shortest_go n values ≤ String.length v)%nat.
Proof.
  revert n. induction values as [|w values IH]; intros n; cbn [shortest_go].
  { split; [lia|]. intros v Hv. by apply elem_of_nil in Hv. }
  set (m := if (String.length w <? n)%nat then String.length w else n).
  assert (m ≤ n ∧ m ≤ String.length w)%nat as [? ?]
    by (subst m; destruct (Nat.ltb_spec (String.length w) n); lia).
  destruct (IH m) as [H1 H2]. split; [lia|]. intros v [->|Hv]%elem_of_cons; [lia|by apply H2].
Qed.

Lemma shortestLength_le values v : v ∈ values → (shortestLength values ≤ String.length v)%nat.
Proof.
  destruct values as [|w values]; cbn; [intros []%elem_of_nil|].
  destruct (shortest_go_le (String.length w) values) as [H1 H2].
  intros [->|Hv]%elem_of_cons; [done|by apply H2].
Qed.

Lemma best_index_go_in rev values indexes i d :
  best_index_go rev values indexes i d = i ∨ best_index_go rev values indexes i d ∈ indexes.
Proof.
  revert i d. induction indexes as [|x indexes IH]; intros i d; cbn; [by left|].
  rewrite elem_of_cons. case_match; [destruct (IH x (distinct_at rev x ∅ 0 values)); tauto|].
  destruct (IH i d); tauto.
Qed.

Lemma bestSharedIndex_lt values rev v :
  v ∈ values → (∀ w, w ∈ values → w ≠ "") → (bestSharedIndex values rev < String.length v)%nat.
Proof.
  intros Hv Hne. unfold bestSharedIndex.
  assert (0 < String.length v)%nat by (specialize (Hne _ Hv); destruct v; [done|cbn; lia]).
  pose proof (shortestLength_le values v Hv).
  set (n := if (32 <? shortestLength values)%nat then 32%nat else shortestLength values).
  assert (n ≤ String.length v)%nat
    by (subst n; destruct (Nat.ltb_spec 32 (shortestLength values)); lia).
  destruct (best_index_go_in rev values (seq 0 n) 0 0) as [->|Hin]; [done|].
  apply elem_of_seq in Hin. lia.
Qed.

(** ** Where a match puts the indexed byte *)

Lemma HasPrefix_index value p i :
  HasPrefix value p = true → (i < String.length p)%nat →
  index_byte false i value = index_byte false i p.
Proof. rewrite HasPrefix_spec. intros [r ->] Hi. by apply byte_at_app_l. Qed.

Lemma HasSuffix_index value p i :
  HasSuffix value p = true → (i < String.length p)%nat →
  index_byte true i value = index_byte true i p.
Proof.
  rewrite HasSuffix_spec. intros [r ->] Hi. unfold index_byte.
  rewrite string_length_app.
  replace (String.length r + String.length p - 1 - i)%nat
    with (String.length r + (String.length p - 1 - i))%nat by lia.
  apply byte_at_app_r.
Qed.

(** The bucketed test agrees with the linear one, for prefixes and suffixes. *)
Lemma match_bucket_at_linear rev test values value :
  (∀ s p, test s p = true → (String.length p ≤ String.length s)%nat) →
  (∀ s p i, test s p = true → (i < String.length p)%nat → index_byte rev i s = index_byte rev i p) →
  (∀ w, w ∈ values → w ≠ "") →
  let index := bestSharedIndex values rev in
  match_bucket_at rev test index (sortByLengthDesc <$> fill_buckets rev index values no_buckets) value
  = existsb (test value) values.
Proof.
  intros Hlen Hidx Hne index. unfold match_bucket_at.
  assert (Hfill : ∀ k v, v ∈ bucket_of (sortByLengthDesc <$> fill_buckets rev index values no_buckets) k
    ↔ v ∈ values ∧ (index < String.length v)%nat ∧ index_byte rev index v = Some k).
  { intros k v. rewrite elem_of_sorted_bucket, elem_of_fill_buckets by done.
    rewrite no_buckets_empty, elem_of_nil. tauto. }
  assert (Hin : ∀ v, v ∈ values → (index < String.length v)%nat)
    by (intros; by apply bestSharedIndex_lt).
  apply eq_true_iff_eq. rewrite existsb_exists.
  destruct (Nat.leb_spec (String.length value) index) as [Hshort|Hlong].
  { split; [done|]. intros (p & Hp%list_elem_of_In & Ht).
    specialize (Hin _ Hp). apply Hlen in Ht. lia. }
  destruct (index_byte rev index value) as [key|] eqn:Ekey.
  - rewrite existsb_exists. split; intros (p & Hp%list_elem_of_In & Ht).
    + apply Hfill in Hp as (Hp & _ & _). apply andb_true_iff in Ht as [_ Ht].
      exists p. by rewrite <- list_elem_of_In.
    + exists p. rewrite <- list_elem_of_In, Hfill. split.
      * split; [done|]. split; [by apply Hin|].
        rewrite <- Ekey. symmetry. apply Hidx; [done|by apply Hin].
      * apply andb_true_iff. split; [|done]. apply Nat.leb_le. by apply Hlen.
  - split; [done|]. intros (p & Hp%list_elem_of_In & Ht).
    pose proof (Hin _ Hp) as Hi. rewrite (Hidx _ _ _ Ht Hi) in Ekey.
    unfold index_byte in Ekey.
    destruct (byte_at_lt p (if rev then String.length p - 1 - index else index)%nat) as [c Hc];
      [destruct rev; lia|congruence].
Qed.

(** ** Substrings *)

Lemma rarest_go_in frequencies s best n :
  rarest_go frequencies s best n = best ∨ contains_byte s (rarest_go frequencies s best n) = true.
Proof.
  revert best n. induction s as [|c s IH]; intros best n; cbn; [by left|].
  assert (Ascii.eqb c c = true) as Hcc by apply Ascii.eqb_refl.
  repeat case_match.
  - right. by rewrite Hcc.
  - destruct (IH c (frequency frequencies c)) as [->| ->]; right; [by rewrite Hcc|apply orb_true_r].
  - destruct (IH best n) as [->| ->]; [by left|right; apply orb_true_r].
Qed.

Lemma rarestGlobalByte_in value frequencies k :
  rarestGlobalByte value frequencies = Some k → contains_byte value k = true.
Proof.
  destruct value as [|c s]; cbn; [done|]. intros [= <-].
  destruct (rarest_go_in frequencies s c (frequency frequencies c)) as [->| ->];
    [by rewrite Ascii.eqb_refl|apply orb_true_r].
Qed.

Lemma match_contains_go_spec buckets value seen rest :
  match_contains_go buckets value seen rest = true ↔
  ∃ k p, contains_byte rest k = true ∧ (nat_of_ascii k ∉ seen) ∧ p ∈ bucket_of buckets k ∧
         ((String.length p <=? String.length value)%nat = true) ∧ Contains value p = true.
Proof.
  revert seen. induction rest as [|c rest IH]; intros seen; cbn.
  { split; [done|]. intros (? & ? & ? & ?). done. }
  case_bool_decide as Hseen.
  { rewrite IH. split; intros (k & p & Hk & Hns & Hrest).
    - exists k, p. rewrite Hk, orb_true_r. done.
    - exists k, p. split; [|done]. apply orb_true_iff in Hk as [Hk|?]; [|done].
      apply Ascii.eqb_eq in Hk as ->. done. }
  destruct (existsb _ (bucket_of buckets c)) eqn:Ex.
  { split; [intros _|done]. apply existsb_exists in Ex as (p & Hp%list_elem_of_In & Ht).
    apply andb_true_iff in Ht as [? ?]. exists c, p. rewrite Ascii.eqb_refl. done. }
  rewrite IH. split; intros (k & p & Hk & Hns & Hp & Hl & Hc).
  - exists k, p. rewrite Hk, orb_true_r. split_and!; [done|set_solver|done..].
  - exists k, p. apply orb_true_iff in Hk as [Hk|Hk].
    + apply Ascii.eqb_eq in Hk as ->. exfalso.
      assert (existsb (λ p, (String.length p <=? String.length value)%nat && Contains value p)
                (bucket_of buckets k) = true); [|congruence].
      apply existsb_exists. exists p. rewrite <- list_elem_of_In, Hl, Hc. done.
    + destruct (decide (k = c)) as [->|Hne].
      * exfalso. assert (existsb (λ p, (String.length p <=? String.length value)%nat && Contains value p)
                (bucket_of buckets c) = true); [|congruence].
        apply existsb_exists. exists p. rewrite <- list_elem_of_In, Hl, Hc. done.
      * split_and!; [done| |done..]. rewrite not_elem_of_union, not_elem_of_singleton.
        split; [|done]. intros E. by apply nat_of_ascii_inj in E.
Qed.

Lemma Contains_byte s p k :
  Contains s p = true → contains_byte p k = true → contains_byte s k = true.
Proof.
  rewrite Contains_spec, !contains_byte_spec. intros (a & b & ->) [i Hi].
  exists (String.length a + i)%nat. rewrite byte_at_app_r, byte_at_app_l; [done|].
  unfold byte_at in Hi. revert i Hi. induction p as [|c p IH]; intros [|i] Hi; cbn in *; [done..|lia|].
  specialize (IH i Hi). lia.
Qed.

Lemma match_contains_linear patterns value :
  (∀ w, w ∈ patterns → w ≠ "") →
  Match (newBucketContainsMatcher patterns) value = existsb (Contains value) patterns.
Proof.
  intros Hne. cbn. set (fr := byteFrequencies patterns).
  assert (Hfill : ∀ k v, v ∈ bucket_of (sortByLengthDesc <$> fill_contains fr patterns no_buckets) k
    ↔ v ∈ patterns ∧ rarestGlobalByte v fr = Some k).
  { intros k v. rewrite elem_of_sorted_bucket, elem_of_fill_contains by done.
    rewrite no_buckets_empty, elem_of_nil. tauto. }
  apply eq_true_iff_eq. rewrite existsb_exists. case_bool_decide as Hv.
  { subst. split; [done|]. intros (p & Hp%list_elem_of_In & Ht).
    apply Contains_length in Ht. specialize (Hne _ Hp). destruct p; [done|cbn in Ht; lia]. }
  rewrite match_contains_go_spec. split.
  - intros (k & p & _ & _ & Hp & _ & Hc). apply Hfill in Hp as [Hp _].
    exists p. by rewrite <- list_elem_of_In.
  - intros (p & Hp%list_elem_of_In & Hc).
    destruct (rarestGlobalByte p fr) as [k|] eqn:Ek.
    2: { specialize (Hne _ Hp). by destruct p. }
    exists k, p. split_and!.
    + by apply (Contains_byte _ p), (rarestGlobalByte_in _ fr).
    + set_solver.
    + by apply Hfill.
    + apply Nat.leb_le. by apply Contains_length.
    + done.
Qed.

(** ** What the constructors promise, whatever the strategy *)

Lemma normalize_nonempty values w : w ∈ normalize values → w ≠ "".
Proof. rewrite elem_of_normalize. by intros [_ ?]. Qed.

Lemma normalize_nil_existsb (f : string → bool) values :
  normalize values = [] → existsb (λ p, negb (p =? "")%string && f p) values = false.
Proof.
  intros E. apply not_true_iff_false. rewrite existsb_exists.
  intros (p & Hp%list_elem_of_In & Ht). apply andb_true_iff in Ht as [Hne _].
  apply negb_true_iff, String.eqb_neq in Hne.
  assert (p ∈ normalize values) as Hn by (by apply elem_of_normalize).
  rewrite E in Hn. by apply elem_of_nil in Hn.
Qed.

Lemma existsb_normalize (f : string → bool) values :
  existsb f (normalize values) = existsb (λ p, negb (p =? "")%string && f p) values.
Proof.
  apply existsb_In_ext.
  - intros x [Hx Hne]%elem_of_normalize Hf. exists x. split; [done|].
    apply String.eqb_neq in Hne. by rewrite Hne, Hf.
  - intros y Hy [Hne Hf]%andb_true_iff. apply negb_true_iff, String.eqb_neq in Hne.
    exists y. by rewrite elem_of_normalize.
Qed.

Lemma NewExact_spec values v :
  Match (NewExact values) v = negb (v =? "")%string && bool_decide (v ∈ values).
Proof.
  apply eq_true_iff_eq.
  rewrite andb_true_iff, negb_true_iff, String.eqb_neq, bool_decide_eq_true.
  pose proof (elem_of_normalize values v) as Hn.
  unfold NewExact. destruct (normalize values) as [|x l]; cbn.
  - rewrite elem_of_nil in Hn. split; [done|tauto].
  - rewrite bool_decide_eq_true.
    change ({[x]} ∪ list_to_set l : gset string) with (list_to_set (x :: l) : gset string).
    rewrite elem_of_list_to_set. tauto.
Qed.

Lemma NewPrefix_spec strategy values v :
  Match (NewPrefix strategy values) v = existsb (λ p, negb (p =? "")%string && HasPrefix v p) values.
Proof.
  rewrite <- existsb_normalize. pose proof (normalize_nonempty values) as Hne.
  unfold NewPrefix. destruct (normalize values) as [|x l] eqn:E; [done|].
  destruct (useOptimized _ _); [|done]. apply match_bucket_at_linear; [|apply HasPrefix_index|done].
  apply HasPrefix_length.
Qed.

Lemma NewSuffix_spec strategy values v :
  Match (NewSuffix strategy values) v = existsb (λ p, negb (p =? "")%string && HasSuffix v p) values.
Proof.
  rewrite <- existsb_normalize. pose proof (normalize_nonempty values) as Hne.
  unfold NewSuffix. destruct (normalize values) as [|x l] eqn:E; [done|].
  destruct (useOptimized _ _); [|done]. apply match_bucket_at_linear; [|apply HasSuffix_index|done].
  apply HasSuffix_length.
Qed.

Lemma NewContains_spec strategy values v :
  Match (NewContains strategy values) v = existsb (λ p, negb (p =? "")%string && Contains v p) values.
Proof.
  rewrite <- existsb_normalize. pose proof (normalize_nonempty values) as Hne.
  unfold NewContains. destruct (normalize values) as [|x l] eqn:E; [done|].
  destruct (useOptimized _ _); [|done]. by apply match_contains_linear.
Qed.

(** C26. A bucketed matcher answers exactly as the linear baseline: for every
    list of values and every input, the prefix, suffix and substring matchers
    built under two strategies give the same answer. *)
Theorem strategies_agree (strategy1 strategy2 : string) (values : list string) (v : string) :
  Match (NewPrefix strategy1 values) v = Match (NewPrefix strategy2 values) v ∧
  Match (NewSuffix strategy1 values) v = Match (NewSuffix strategy2 values) v ∧
  Match (NewContains strategy1 values) v = Match (NewContains strategy2 values) v.
Proof. by rewrite !NewPrefix_spec, !NewSuffix_spec, !NewContains_spec. Qed.

Example optimized_runs :
  Match (NewContains StrategyOptimized ["nc -e"; "bash -i"; ""]) "sh -c bash -i" = true ∧
  Match (NewPrefix StrategyOptimized ["/tmp/"; "/dev/shm/"]) "/dev/shm/x" = true ∧
  Match (NewSuffix StrategyOptimized [".sh"; ".py"]) "a.py" = true.
Proof. by vm_compute. Qed.

End Matcher.
