(* ===== verification/Policy.v ===== *)
(** * Detection policies and collection intents

    The part of [internal/policy/model.go] and
    [internal/sensors/contract/contract.go] that the detection engine reads:
    the detection policy with its rule sets and overrides, its
    normalisation, and the collection intent with the capabilities of the
    sensor backend.  A Go pointer is an [option]. *)

From S2P Require Import Prelude GoStrings EventModel.

Module Policy.

Record ScopeSelector := MkScopeSelector {
  sel_Type : string;
  sel_Selector : string
}.

Record ResponseIntentRef := MkResponseIntentRef {
  rir_Action : string;
  rir_Confidence : Z;
  rir_Reason : string
}.

Record RuleSetRef := MkRuleSetRef {
  rs_Ref : string;
  rs_Version : string;
  rs_Enabled : option bool;
  rs_IOCRefs : list string
}.

Record RuleOverride := MkRuleOverride {
  ov_RuleID : string;
  ov_Enabled : option bool;
  ov_Mode : string;
  ov_Severity : string;
  ov_Scope : ScopeSelector;
  ov_ResponseIntent : option ResponseIntentRef;
  ov_Params : gmap string string;
  ov_Reason : string
}.

Record PolicyContentRef := MkPolicyContentRef {
  pcr_Ref : string;
  pcr_Version : string
}.

Record DetectionPolicy := MkDetectionPolicy {
  dp_PolicyID : string;
  dp_Version : Z;
  dp_Mode : string;
  dp_Scope : ScopeSelector;
  dp_RuleSets : list RuleSetRef;
  dp_RuleOverrides : list RuleOverride;
  dp_ContextRefs : list PolicyContentRef;
  dp_IOCRefs : list PolicyContentRef
}.

Definition DefaultDetectionPolicy : DetectionPolicy :=
  MkDetectionPolicy "default-endpoint-detection" 1 "observe" (MkScopeSelector "" "") [] [] [] [].

Definition NormalizeDetectionPolicy (policy : DetectionPolicy) : DetectionPolicy :=
  {| dp_PolicyID := if bool_decide (dp_PolicyID policy = "") then "default-endpoint-detection"
                    else dp_PolicyID policy;
     dp_Version := if (dp_Version policy =? 0)%Z then 1%Z else dp_Version policy;
     dp_Mode := if bool_decide (dp_Mode policy = "") then "observe" else dp_Mode policy;
     dp_Scope := dp_Scope policy;
     dp_RuleSets :=
       (λ rs, if bool_decide (rs_Version rs = "")
              then MkRuleSetRef (rs_Ref rs) "latest" (rs_Enabled rs) (rs_IOCRefs rs)
              else rs) <$> dp_RuleSets policy;
     dp_RuleOverrides := dp_RuleOverrides policy;
     dp_ContextRefs := dp_ContextRefs policy;
     dp_IOCRefs := dp_IOCRefs policy |}.

(** ** Collection intents ([internal/sensors/contract]) *)

Record CollectionBehaviorFilter := MkCollectionBehaviorFilter {
  cbf_Behavior : string;
  cbf_BinaryPrefixes : list string;
  cbf_FilePrefixes : list string;
  cbf_SocketFamilies : list string;
  cbf_SocketAddrs : list string;
  cbf_SocketPorts : list string
}.

Record NamespaceSelector := MkNamespaceSelector {
  ns_Namespace : string;
  ns_Values : list string
}.

Record CollectionBehaviorCapability := MkCollectionBehaviorCapability {
  cap_Behavior : string;
  cap_SensorMapping : string;
  cap_Fields : list string;
  cap_PushdownSelectors : list string;
  cap_AgentSideSelectors : list string;
  cap_UnsupportedSelectors : list string
}.

Record CollectionIntent := MkCollectionIntent {
  ci_Behaviors : list string;
  ci_BinaryPrefixes : list string;
  ci_FilePrefixes : list string;
  ci_SocketFamilies : list string;
  ci_SocketAddrs : list string;
  ci_SocketPorts : list string;
  ci_BehaviorFilters : list CollectionBehaviorFilter;
  ci_NamespaceSelectors : list NamespaceSelector;
  ci_ScopeType : string;
  ci_ScopeSelector : string;
  ci_ObserveOnly : bool;
  ci_Capabilities : list CollectionBehaviorCapability
}.

Definition zero_CollectionIntent : CollectionIntent :=
  MkCollectionIntent [] [] [] [] [] [] [] [] "" "" false [].

Definition intent_of_behaviors (behaviors : list string) : CollectionIntent :=
  MkCollectionIntent behaviors [] [] [] [] [] [] [] "" "" false [].

End Policy.
