(* ===== verification/RuleSpec.v ===== *)
(** * Rule specifications ([internal/endpoint/detection/engine.go], [compiled.go])

    The types of a rule as content delivers it, the vocabulary of fields and
    operators, the effective rules a policy selects, and the messages the
    package formats.  A Go slice for which the code distinguishes nil from
    empty (the children of a condition node) is an [option] of a list. *)

From S2P Require Import Prelude GoStrings EventModel Policy.

Module RuleSpec.
Import EventModel Policy.

(** ** Specifications *)

Record ConditionSpec := MkConditionSpec {
  c_Field : string;
  c_Op : string;
  c_Value : string;
  c_Values : list string;
  c_Ref : string;
  c_Step : string;
  c_StepField : string
}.

Inductive ConditionNodeSpec := MkConditionNodeSpec {
  n_All : option (list ConditionNodeSpec);
  n_Any : option (list ConditionNodeSpec);
  n_Not : option ConditionNodeSpec;
  n_Condition : option ConditionSpec
}.

Record RequiredEventSpec := MkRequiredEventSpec {
  re_Behavior : string;
  re_Fields : list string
}.

Record ExprSpec := MkExprSpec {
  ex_Conditions : list ConditionSpec;
  ex_ConditionGroup : option ConditionNodeSpec
}.

Record StepSpec := MkStepSpec {
  st_ID : string;
  st_Behavior : string;
  st_Conditions : list ConditionSpec;
  st_ConditionGroup : option ConditionNodeSpec
}.

(** Durations are nanoseconds ([time.Duration], an [int64]). *)
Record SequenceSpec := MkSequenceSpec {
  sq_Within : Z;
  sq_By : list string;
  sq_Steps : list StepSpec
}.

Record FactSpec := MkFactSpec {
  fa_ID : string;
  fa_Event : string;
  fa_Events : list string;
  fa_Conditions : list ConditionSpec;
  fa_ConditionGroup : option ConditionNodeSpec
}.

Record CorrelateSpec := MkCorrelateSpec {
  co_Within : Z;
  co_WithinText : string;
  co_By : list string;
  co_Facts : list FactSpec
}.

Record SuppressionSpec := MkSuppressionSpec {
  su_Within : Z;
  su_By : list string
}.

Record RuleSpec := MkRuleSpec {
  r_RuleID : string;
  r_Version : Z;
  r_RuleSetRef : string;
  r_Where : string;
  r_Severity : string;
  r_Runtime : string;
  r_RuntimeType : string;
  r_Expr : ExprSpec;
  r_Sequence : SequenceSpec;
  r_Correlate : CorrelateSpec;
  r_Suppression : SuppressionSpec;
  r_RequiredEvents : list RequiredEventSpec;
  r_RequiredBehaviors : list string;
  r_ContextRefs : list string;
  r_IOCRefs : list string;
  r_ResponseIntent : option ResponseIntentRef;
  r_Terminal : option bool
}.

Record ContentRef := MkContentRef {
  cr_Ref : string;
  cr_Version : string;
  cr_Digest : string;
  cr_Values : list string
}.

Definition zero_ContentRef : ContentRef := MkContentRef "" "" "" [].

Record ContentSnapshot := MkContentSnapshot {
  cs_ContextRefs : gmap string ContentRef;
  cs_IOCRefs : gmap string ContentRef;
  cs_Rules : list RuleSpec
}.

Definition contentValuesFromSnapshot (content : ContentSnapshot) (ref : string) : list string :=
  match cs_ContextRefs content !! ref with
  | Some item => cr_Values item
  | None =>
    match cs_IOCRefs content !! ref with
    | Some item => cr_Values item
    | None => []
    end
  end.

(** ** Fields *)

Inductive fieldID :=
| fieldUnknown | fieldEventID | fieldBehavior | fieldLineageID | fieldProcessStableID
| fieldProcessBinary | fieldProcessBinaryName | fieldProcessArgv | fieldProcessSudoCommand
| fieldProcessUID | fieldProcessPID | fieldParentStableID | fieldFilePath | fieldSocketAddr
| fieldSocketPort | fieldSocket | fieldScopeType | fieldScopeSelector | fieldContainerID
| fieldCgroup.

Global Instance fieldID_eq_dec : EqDecision fieldID.
Proof. solve_decision. Defined.

(** The constants' values ([iota] from 0), the order [sort.Slice] uses. *)
Definition field_index (f : fieldID) : Z :=
  match f with
  | fieldUnknown => 0 | fieldEventID => 1 | fieldBehavior => 2 | fieldLineageID => 3
  | fieldProcessStableID => 4 | fieldProcessBinary => 5 | fieldProcessBinaryName => 6
  | fieldProcessArgv => 7 | fieldProcessSudoCommand => 8 | fieldProcessUID => 9
  | fieldProcessPID => 10 | fieldParentStableID => 11 | fieldFilePath => 12
  | fieldSocketAddr => 13 | fieldSocketPort => 14 | fieldSocket => 15 | fieldScopeType => 16
  | fieldScopeSelector => 17 | fieldContainerID => 18 | fieldCgroup => 19
  end.

(** The names a [switch] lists for one case. *)
Definition is_one_of (names : list string) (s : string) : bool := bool_decide (s ∈ names).

Definition compileField (field : string) : fieldID :=
  let f := TrimSpace field in
  if is_one_of ["event.id"; "id"] f then fieldEventID
  else if is_one_of ["event.behavior"; "behavior"] f then fieldBehavior
  else if is_one_of ["lineage_id"; "lineage.id"] f then fieldLineageID
  else if is_one_of ["process.stable_id"; "process.id"] f then fieldProcessStableID
  else if is_one_of ["process.binary"; "binary"] f then fieldProcessBinary
  else if is_one_of ["process.binary_name"; "binary_name"] f then fieldProcessBinaryName
  else if is_one_of ["process.argv"; "argv"] f then fieldProcessArgv
  else if is_one_of ["process.sudo_command"] f then fieldProcessSudoCommand
  else if is_one_of ["process.uid"; "uid"] f then fieldProcessUID
  else if is_one_of ["process.pid"; "pid"] f then fieldProcessPID
  else if is_one_of ["parent.stable_id"; "parent.id"] f then fieldParentStableID
  else if is_one_of ["file.path"; "object.file_path"] f then fieldFilePath
  else if is_one_of ["socket.addr"; "object.socket_addr"] f then fieldSocketAddr
  else if is_one_of ["socket.port"] f then fieldSocketPort
  else if is_one_of ["socket"] f then fieldSocket
  else if is_one_of ["scope.type"] f then fieldScopeType
  else if is_one_of ["scope.selector"] f then fieldScopeSelector
  else if is_one_of ["container.id"; "container_id"] f then fieldContainerID
  else if is_one_of ["cgroup"] f then fieldCgroup
  else fieldUnknown.

Definition compileFields (fields : list string) : list fieldID :=
  match fields with
  | [] => [fieldLineageID]
  | _ => compileField <$> fields
  end.

Definition fieldName (field : fieldID) : string :=
  match field with
  | fieldEventID => "event.id"
  | fieldBehavior => "event.behavior"
  | fieldLineageID => "lineage_id"
  | fieldProcessStableID => "process.stable_id"
  | fieldProcessBinary => "process.binary"
  | fieldProcessBinaryName => "process.binary_name"
  | fieldProcessArgv => "process.argv"
  | fieldProcessSudoCommand => "process.sudo_command"
  | fieldProcessUID => "process.uid"
  | fieldProcessPID => "process.pid"
  | fieldParentStableID => "parent.stable_id"
  | fieldFilePath => "file.path"
  | fieldSocketAddr => "socket.addr"
  | fieldSocketPort => "socket.port"
  | fieldSocket => "socket"
  | fieldScopeType => "scope.type"
  | fieldScopeSelector => "scope.selector"
  | fieldContainerID => "container.id"
  | fieldCgroup => "cgroup"
  | fieldUnknown => ""
  end.

(** ** Operators; [opNone] is the zero value of an unsupported one. *)

Inductive conditionOp :=
| opNone | opEq | opNeq | opContains | opPrefix | opSuffix | opIn | opNotIn | opSameAs
| opExists | opGT | opGTE | opLT | opLTE.

Global Instance conditionOp_eq_dec : EqDecision conditionOp.
Proof. solve_decision. Defined.

Definition compileOp (op : string) : conditionOp :=
  let o := ToLower (TrimSpace op) in
  if is_one_of [""; "eq"; "equals"] o then opEq
  else if is_one_of ["neq"; "not_eq"] o then opNeq
  else if is_one_of ["contains"] o then opContains
  else if is_one_of ["prefix"; "has_prefix"] o then opPrefix
  else if is_one_of ["suffix"; "has_suffix"] o then opSuffix
  else if is_one_of ["in"] o then opIn
  else if is_one_of ["not_in"] o then opNotIn
  else if is_one_of ["same_as"] o then opSameAs
  else if is_one_of ["exists"] o then opExists
  else if is_one_of ["gt"] o then opGT
  else if is_one_of ["gte"] o then opGTE
  else if is_one_of ["lt"] o then opLT
  else if is_one_of ["lte"] o then opLTE
  else opNone.

Definition opString (op : conditionOp) : string :=
  match op with
  | opGT => "gt" | opGTE => "gte" | opLT => "lt" | opLTE => "lte" | _ => ""
  end.

(** ** Messages: one constructor per format string, with its arguments *)

Inductive Msg :=
| MsgRulesetRequired
| MsgRulesetUnavailable (ref : string)
| MsgDuplicateRule (rule : string)
| MsgMissingContextRef (rule ref : string)
| MsgMissingIOCRef (rule ref : string)
| MsgUnsupportedRuntime (rule runtimeType : string)
| MsgExprRequiresConditions (rule : string)
| MsgSequenceRequiresSteps (rule : string)
| MsgStepIDRequired (rule : string)
| MsgStepBehaviorRequired (rule step : string)
| MsgCorrelateRequiresFacts (rule : string)
| MsgInvalidCorrelateWindow (rule text : string)
| MsgCorrelateWindowRange (rule : string)
| MsgCorrelateByRequired (rule : string)
| MsgCorrelateByUnsupported (rule field : string)
| MsgCorrelateTwoFacts (rule : string)
| MsgFactIDRequired (rule : string)
| MsgDuplicateFact (rule fact : string)
| MsgFactEventExactlyOne (rule fact : string)
| MsgFactBehaviorRequired (rule fact : string)
| MsgSuppressionRequiresExpr (rule : string)
| MsgSuppressionWindowRange (rule : string)
| MsgSuppressionByRequired (rule : string)
| MsgSuppressionByUnsupported (rule field : string)
| MsgSequenceByUnsupported (rule field : string)
| MsgDuplicateStep (rule step : string)
| MsgTreeTooDeep (rule location : string)
| MsgNodeKind (rule location : string)
| MsgTreeTooManyLeaves (rule location : string)
| MsgGroupRequiresChildren (rule location group : string)
| MsgUnsupportedField (rule location field : string)
| MsgUnsupportedOperator (rule location op : string)
| MsgSameAsUnknownStep (rule location step : string)
| MsgUnsupportedStepField (rule location field : string)
| MsgMissingInputs (rule : string) (missing : list string).

(** ** Effective rules *)

Record effectiveRule := MkEffectiveRule {
  er_spec : RuleSpec;
  er_enabled : bool;
  er_mode : string;
  er_severity : string;
  er_intent : option ResponseIntentRef;
  er_params : gmap string string
}.

Definition er_id (r : effectiveRule) : string := r_RuleID (er_spec r).

Definition runtimeType (r : effectiveRule) : string :=
  if bool_decide (r_RuntimeType (er_spec r) ≠ "")
  then ToLower (TrimSpace (r_RuntimeType (er_spec r)))
  else
    let rt := ToLower (TrimSpace (r_Runtime (er_spec r))) in
    if is_one_of ["expr"; "sequence"; "correlate"] rt then rt else "".

Definition isCEP (r : effectiveRule) : bool :=
  is_one_of ["expr"; "sequence"; "correlate"] (runtimeType r).

Definition ruleRuntimeType (rule : RuleSpec) : string :=
  if bool_decide (r_RuntimeType rule ≠ "")
  then ToLower (TrimSpace (r_RuntimeType rule))
  else ToLower (TrimSpace (r_Runtime rule)).

Definition terminal (r : effectiveRule) (defaultValue : bool) : bool :=
  default defaultValue (r_Terminal (er_spec r)).

(** [enabledRuleSets]: a later entry for the same reference overwrites. *)
Definition enabledRuleSets (policy : DetectionPolicy) : gmap string bool :=
  foldl (λ m ref, if bool_decide (rs_Ref ref = "") then m
                  else <[rs_Ref ref := default true (rs_Enabled ref)]> m)
    ∅ (dp_RuleSets policy).

Definition overrides (policy : DetectionPolicy) : gmap string RuleOverride :=
  foldl (λ m ov, if bool_decide (ov_RuleID ov ≠ "") then <[ov_RuleID ov := ov]> m else m)
    ∅ (dp_RuleOverrides policy).

Definition apply_override (rule : effectiveRule) (ov : RuleOverride) : effectiveRule :=
  {| er_spec := er_spec rule;
     er_enabled := default (er_enabled rule) (ov_Enabled ov);
     er_mode := if bool_decide (ov_Mode ov ≠ "") then ov_Mode ov else er_mode rule;
     er_severity := if bool_decide (ov_Severity ov ≠ "") then ov_Severity ov else er_severity rule;
     er_intent := match ov_ResponseIntent ov with Some i => Some i | None => er_intent rule end;
     er_params := ov_Params ov |}.

Definition effective (policy : DetectionPolicy) (spec : RuleSpec) : effectiveRule :=
  let rule := MkEffectiveRule spec true (firstNonEmpty [dp_Mode policy; "observe"])
                (r_Severity spec) (r_ResponseIntent spec) ∅ in
  match overrides policy !! r_RuleID spec with
  | Some ov => apply_override rule ov
  | None => rule
  end.

Definition resolveRules (policy : DetectionPolicy) (content : ContentSnapshot) : list effectiveRule :=
  foldr (λ spec out,
      if default false (enabledRuleSets policy !! r_RuleSetRef spec)
      then let rule := effective policy spec in
           if er_enabled rule then rule :: out else out
      else out)
    [] (cs_Rules content).

(** Rules are resolved for specifications of the content, and are enabled. *)
Lemma elem_of_resolveRules policy content rule :
  rule ∈ resolveRules policy content →
  er_enabled rule = true ∧ er_spec rule ∈ cs_Rules content ∧
  enabledRuleSets policy !! r_RuleSetRef (er_spec rule) = Some true.
Proof.
  unfold resolveRules. induction (cs_Rules content) as [|spec specs IH]; cbn; [intros []%elem_of_nil|].
  assert (er_spec (effective policy spec) = spec) as Hspec
    by (unfold effective; case_match; done).
  destruct (enabledRuleSets policy !! r_RuleSetRef spec) as [[]|] eqn:Een; cbn;
    try (intros (?&?&?)%IH; split_and!; [done|by right|done]).
  destruct (er_enabled (effective policy spec)) eqn:Ee.
  - intros [->|(?&?&?)%IH]%elem_of_cons.
    + rewrite Hspec. split_and!; [done|left|done].
    + split_and!; [done|by right|done].
  - intros (?&?&?)%IH. split_and!; [done|by right|done].
Qed.

End RuleSpec.
