(* ===== verification/Validation.v ===== *)
(** * Rule validation ([internal/endpoint/detection/validation.go] and the
    policy checks of [engine.go])

    Every check returns the list of messages of what it rejects; an empty
    list accepts.  The set of earlier step ids is [None] where the code
    passes a nil map.  The second half characterises what an empty list
    means: well-formed condition trees, sequences and content references. *)

From S2P Require Import Prelude GoStrings GoFloat EventModel Policy RuleSpec.

Module Validation.
Import EventModel Policy RuleSpec.

Definition maxSuppressionWindow : Z := (24 * 3600 * 1000000000)%Z.
Definition maxConditionTreeDepth : Z := 8.
Definition maxConditionTreeLeaves : Z := 256.

Definition boolCount (values : list bool) : Z :=
  foldl (λ count (value : bool), if value then (count + 1)%Z else count) 0%Z values.

(** The body of the loop of [validateConditions]. *)
Definition validateCondition (ruleID location : string) (prior : option (gset string))
    (condition : ConditionSpec) : list Msg :=
  (if bool_decide (compileField (c_Field condition) = fieldUnknown)
   then [MsgUnsupportedField ruleID location (c_Field condition)] else []) ++
  (if bool_decide (compileOp (c_Op condition) = opNone)
   then [MsgUnsupportedOperator ruleID location (c_Op condition)]
   else if bool_decide (compileOp (c_Op condition) ≠ opSameAs) then []
   else
     let step := TrimSpace (c_Step condition) in
     (if match prior with
         | None => true
         | Some prior => bool_decide (step = "") || negb (bool_decide (step ∈ prior))
         end
      then [MsgSameAsUnknownStep ruleID location step] else []) ++
     (if bool_decide (compileField (firstNonEmpty [c_StepField condition; c_Field condition]) = fieldUnknown)
      then [MsgUnsupportedStepField ruleID location (c_StepField condition)] else [])).

Definition validateConditions (ruleID location : string) (conditions : list ConditionSpec)
    (prior : option (gset string)) : list Msg :=
  mjoin (validateCondition ruleID location prior <$> conditions).

(** [leaves] is the counter the recursion shares through a pointer. *)
Fixpoint validateConditionNode (ruleID location : string) (node : ConditionNodeSpec)
    (prior : option (gset string)) (depth : Z) (leaves : Z) {struct node} : list Msg * Z :=
  match node with
  | MkConditionNodeSpec all any not condition =>
    let children := fix children (l : list ConditionNodeSpec) (leaves : Z) : list Msg * Z :=
      match l with
      | [] => ([], leaves)
      | child :: l' =>
        let '(errs, leaves) := validateConditionNode ruleID location child prior (depth + 1)%Z leaves in
        let '(errs', leaves) := children l' leaves in
        (errs ++ errs', leaves)
      end in
    let group l name :=
      match l with
      | [] => ([MsgGroupRequiresChildren ruleID location name], leaves)
      | _ => children l leaves
      end in
    if (maxConditionTreeDepth <? depth)%Z then ([MsgTreeTooDeep ruleID location], leaves)
    else if negb (boolCount [bool_decide (is_Some condition); bool_decide (is_Some not);
                             bool_decide (is_Some all); bool_decide (is_Some any)] =? 1)%Z
    then ([MsgNodeKind ruleID location], leaves)
    else match condition with
    | Some c =>
      let leaves := (leaves + 1)%Z in
      if (maxConditionTreeLeaves <? leaves)%Z then ([MsgTreeTooManyLeaves ruleID location], leaves)
      else (validateConditions ruleID location [c] prior, leaves)
    | None =>
      match not with
      | Some child => validateConditionNode ruleID location child prior (depth + 1)%Z leaves
      | None =>
        match any with
        | Some l => group l "any"
        | None => match all with Some l => group l "all" | None => group [] "all" end
        end
      end
    end
  end.

Definition validateConditionTree (ruleID location : string) (node : option ConditionNodeSpec)
    (prior : option (gset string)) : list Msg :=
  match node with
  | None => []
  | Some node => (validateConditionNode ruleID location node prior 1 0).1
  end.

Fixpoint validate_steps (ruleID : string) (prior : gset string) (steps : list StepSpec) : list Msg :=
  match steps with
  | [] => []
  | step :: steps' =>
    let id := TrimSpace (st_ID step) in
    (if bool_decide (id ∈ prior) then [MsgDuplicateStep ruleID id] else []) ++
    validateConditions ruleID ("step " +:+ id) (st_Conditions step) (Some prior) ++
    validateConditionTree ruleID ("step " +:+ id) (st_ConditionGroup step) (Some prior) ++
    validate_steps ruleID ({[id]} ∪ prior) steps'
  end.

Definition unsupported_fields (msg : string → Msg) (fields : list string) : list Msg :=
  mjoin ((λ f, if bool_decide (compileField f = fieldUnknown) then [msg f] else []) <$> fields).

Definition validateSequence (rule : RuleSpec) : list Msg :=
  unsupported_fields (MsgSequenceByUnsupported (r_RuleID rule)) (sq_By (r_Sequence rule)) ++
  validate_steps (r_RuleID rule) ∅ (sq_Steps (r_Sequence rule)).

Definition validateSuppression (rule : RuleSpec) : list Msg :=
  let suppression := r_Suppression rule in
  if (su_Within suppression =? 0)%Z && bool_decide (su_By suppression = []) then []
  else
    (if bool_decide (ruleRuntimeType rule ≠ "expr")
     then [MsgSuppressionRequiresExpr (r_RuleID rule)] else []) ++
    (if (su_Within suppression <=? 0)%Z || (maxSuppressionWindow <? su_Within suppression)%Z
     then [MsgSuppressionWindowRange (r_RuleID rule)] else []) ++
    (if bool_decide (su_By suppression = []) then [MsgSuppressionByRequired (r_RuleID rule)] else []) ++
    unsupported_fields (MsgSuppressionByUnsupported (r_RuleID rule)) (su_By suppression).

Fixpoint validate_facts (ruleID : string) (seen : gset string) (facts : list FactSpec) : list Msg :=
  match facts with
  | [] => []
  | fact :: facts' =>
    let id := TrimSpace (fa_ID fact) in
    (if bool_decide (id = "") then [MsgFactIDRequired ruleID]
     else if bool_decide (id ∈ seen) then [MsgDuplicateFact ruleID id] else []) ++
    (if eqb (bool_decide (TrimSpace (fa_Event fact) ≠ "")) (bool_decide (fa_Events fact ≠ []))
     then [MsgFactEventExactlyOne ruleID id] else []) ++
    mjoin ((λ b, if bool_decide (TrimSpace b = "") then [MsgFactBehaviorRequired ruleID id] else [])
             <$> fa_Events fact) ++
    validateConditions ruleID ("fact " +:+ id) (fa_Conditions fact) None ++
    validateConditionTree ruleID ("fact " +:+ id) (fa_ConditionGroup fact) None ++
    validate_facts ruleID ({[id]} ∪ seen) facts'
  end.

Definition validateCorrelateFacts (ruleID : string) (facts : list FactSpec) : list Msg :=
  validate_facts ruleID ∅ facts.

Definition validateCorrelate (rule : RuleSpec) : list Msg :=
  let spec := r_Correlate rule in
  (if bool_decide (co_WithinText spec ≠ "") && bool_decide (ParseDuration (co_WithinText spec) = None)
   then [MsgInvalidCorrelateWindow (r_RuleID rule) (co_WithinText spec)] else []) ++
  (if (co_Within spec <=? 0)%Z || (maxSuppressionWindow <? co_Within spec)%Z
   then [MsgCorrelateWindowRange (r_RuleID rule)] else []) ++
  (if bool_decide (co_By spec = []) then [MsgCorrelateByRequired (r_RuleID rule)] else []) ++
  unsupported_fields (MsgCorrelateByUnsupported (r_RuleID rule)) (co_By spec) ++
  (if (length (co_Facts spec) <? 2)%nat then [MsgCorrelateTwoFacts (r_RuleID rule)] else []) ++
  validateCorrelateFacts (r_RuleID rule) (co_Facts spec).

Definition validateRuleSpec (rule : RuleSpec) : list Msg :=
  let out := validateSuppression rule in
  let rt := ruleRuntimeType rule in
  if bool_decide (rt = "expr") then
    out ++ validateConditions (r_RuleID rule) "expr" (ex_Conditions (r_Expr rule)) None
        ++ validateConditionTree (r_RuleID rule) "expr" (ex_ConditionGroup (r_Expr rule)) None
  else if bool_decide (rt = "sequence") then out ++ validateSequence rule
  else if bool_decide (rt = "correlate") then out ++ validateCorrelate rule
  else out.

Definition validateRuleSpecs (rules : list effectiveRule) : list Msg :=
  mjoin ((λ rule, validateRuleSpec (er_spec rule)) <$> rules).

(** ** Checks of [engine.go] *)

Definition missing_refs (msg : string → Msg) (refs : list string) (m : gmap string ContentRef) : list Msg :=
  mjoin ((λ ref, if bool_decide (is_Some (m !! ref)) then [] else [msg ref]) <$> refs).

Definition validateContentRefs (rules : list effectiveRule) (content : ContentSnapshot) : list Msg :=
  mjoin ((λ rule,
      missing_refs (MsgMissingContextRef (er_id rule)) (r_ContextRefs (er_spec rule)) (cs_ContextRefs content) ++
      missing_refs (MsgMissingIOCRef (er_id rule)) (r_IOCRefs (er_spec rule)) (cs_IOCRefs content))
    <$> rules).

Fixpoint duplicate_ids (seen : gset string) (rules : list effectiveRule) : list Msg :=
  match rules with
  | [] => []
  | rule :: rules' =>
    (if bool_decide (er_id rule ∈ seen) then [MsgDuplicateRule (er_id rule)] else []) ++
    duplicate_ids ({[er_id rule]} ∪ seen) rules'
  end.

Definition validateRuleSelection (policy : DetectionPolicy) (content : ContentSnapshot) : list Msg :=
  let available : gset string := list_to_set (r_RuleSetRef <$> cs_Rules content) in
  mjoin ((λ ref,
      if bool_decide (rs_Ref ref ≠ "") && default true (rs_Enabled ref)
         && negb (bool_decide (rs_Ref ref ∈ available))
      then [MsgRulesetUnavailable (rs_Ref ref)] else []) <$> dp_RuleSets policy) ++
  duplicate_ids ∅ (resolveRules policy content).

(** The body of the loop of [validateEffectiveRules]. *)
Definition validateEffectiveRule (rule : effectiveRule) : list Msg :=
  let rt := runtimeType rule in
  let spec := er_spec rule in
  (if is_one_of [""; "expr"; "sequence"; "correlate"] rt then []
   else [MsgUnsupportedRuntime (er_id rule) rt]) ++
  (if bool_decide (rt = "expr") && bool_decide (ex_Conditions (r_Expr spec) = [])
      && negb (bool_decide (is_Some (ex_ConditionGroup (r_Expr spec))))
   then [MsgExprRequiresConditions (er_id rule)] else []) ++
  (if bool_decide (rt = "sequence") then
     (if bool_decide (sq_Steps (r_Sequence spec) = [])
      then [MsgSequenceRequiresSteps (er_id rule)] else []) ++
     mjoin ((λ step,
         (if bool_decide (TrimSpace (st_ID step) = "") then [MsgStepIDRequired (er_id rule)] else []) ++
         (if bool_decide (TrimSpace (st_Behavior step) = "")
          then [MsgStepBehaviorRequired (er_id rule) (st_ID step)] else []))
       <$> sq_Steps (r_Sequence spec))
   else []) ++
  (if bool_decide (rt = "correlate") && bool_decide (co_Facts (r_Correlate spec) = [])
   then [MsgCorrelateRequiresFacts (er_id rule)] else []).

Definition validateEffectiveRules `{RangeOrder} (rules : gmap string effectiveRule) : list Msg :=
  mjoin ((λ id, from_option validateEffectiveRule [] (rules !! id)) <$> range_keys rules).

(** ** What an empty list of messages means *)

Lemma mjoin_fmap_nil {A B} (f : A → list B) l :
  mjoin (f <$> l) = [] ↔ Forall (λ x, f x = []) l.
Proof.
  induction l as [|x l IH]; cbn; [done|].
  rewrite Forall_cons_iff, <- IH. unfold mjoin. split; [intros ?%app_nil|intros ?; apply app_nil]; done.
Qed.

Lemma if_nil {A} (b : bool) (x : A) : (if b then [x] else []) = [] ↔ b = false.
Proof. by destruct b. Qed.

Definition condition_ok (prior : option (gset string)) (c : ConditionSpec) : Prop :=
  compileField (c_Field c) ≠ fieldUnknown ∧ compileOp (c_Op c) ≠ opNone ∧
  (compileOp (c_Op c) = opSameAs →
     (∃ seen, prior = Some seen ∧ TrimSpace (c_Step c) ≠ "" ∧ TrimSpace (c_Step c) ∈ seen) ∧
     compileField (firstNonEmpty [c_StepField c; c_Field c]) ≠ fieldUnknown).

Lemma validateCondition_nil rid loc prior c :
  validateCondition rid loc prior c = [] ↔ condition_ok prior c.
Proof.
  unfold validateCondition, condition_ok.
  rewrite app_nil, if_nil, bool_decide_eq_false. apply and_iff_compat_l.
  generalize (compileOp (c_Op c)); intros o. case_bool_decide as Ho; [split; [done|tauto]|].
  case_bool_decide as Hs; [split; [intros _; split; [done|tauto]|done]|].
  rewrite app_nil, !if_nil, bool_decide_eq_false.
  destruct prior as [seen|].
  - rewrite orb_false_iff, negb_false_iff, bool_decide_eq_false, bool_decide_eq_true. split.
    + intros [[? ?] ?]. split; [done|]. intros _. eauto 10.
    + intros [_ HH]. destruct (HH Hs) as [(? & [= <-] & ? & ?) ?]. done.
  - split; [by intros [? ?]|]. intros [_ HH]. by destruct (HH Hs) as [(? & ? & _) _].
Qed.

Lemma validateConditions_nil rid loc cs prior :
  validateConditions rid loc cs prior = [] ↔ Forall (condition_ok prior) cs.
Proof.
  unfold validateConditions. rewrite mjoin_fmap_nil.
  split; apply Forall_impl; intros c; apply validateCondition_nil.
Qed.

(** A well-formed condition tree of at most [n] levels: every node has one
    kind, groups have children, leaves are supported conditions. *)
Inductive wf_node (prior : option (gset string)) : nat → ConditionNodeSpec → Prop :=
| wf_leaf n c : condition_ok prior c →
    wf_node prior (S n) (MkConditionNodeSpec None None None (Some c))
| wf_not n child : wf_node prior n child →
    wf_node prior (S n) (MkConditionNodeSpec None None (Some child) None)
| wf_all n l : l ≠ [] → Forall (wf_node prior n) l →
    wf_node prior (S n) (MkConditionNodeSpec (Some l) None None None)
| wf_any n l : l ≠ [] → Forall (wf_node prior n) l →
    wf_node prior (S n) (MkConditionNodeSpec None (Some l) None None).

(** The number of conditions in a tree. *)
Fixpoint node_leaves (node : ConditionNodeSpec) : Z :=
  match node with
  | MkConditionNodeSpec all any not condition =>
    let sum := fix sum l := match l with [] => 0%Z | x :: l' => (node_leaves x + sum l')%Z end in
    (from_option sum 0 all + from_option sum 0 any + from_option node_leaves 0 not
     + match condition with Some _ => 1 | None => 0 end)%Z
  end.

Definition leaves_of (l : list ConditionNodeSpec) : Z := foldr (λ x n, node_leaves x + n)%Z 0%Z l.

Lemma node_leaves_group all any not c :
  node_leaves (MkConditionNodeSpec all any not c) =
  (from_option leaves_of 0 all + from_option leaves_of 0 any + from_option node_leaves 0 not
   + match c with Some _ => 1 | None => 0 end)%Z.
Proof. by destruct all, any. Qed.

Lemma leaves_of_bound (P : ConditionNodeSpec → Prop) l :
  (∀ x, P x → (1 ≤ node_leaves x)%Z) → Forall P l →
  (0 ≤ leaves_of l)%Z ∧ (l ≠ [] → (1 ≤ leaves_of l)%Z).
Proof.
  intros HP. induction 1 as [|x l Hx Hl [IH _]]; cbn; [done|].
  apply HP in Hx. unfold leaves_of in *. split; [lia|]. intros _. lia.
Qed.

Lemma node_leaves_pos prior n node : wf_node prior n node → (1 ≤ node_leaves node)%Z.
Proof.
  revert node. induction n as [|n IH]; intros node H;
    inversion H as [? c Hc|? child Hc|? l Hne Hl|? l Hne Hl]; subst; rewrite node_leaves_group; cbn;
    [lia|specialize (IH _ Hc); lia| |];
    destruct (leaves_of_bound _ l IH Hl) as [_ Hpos]; specialize (Hpos Hne); lia.
Qed.

Lemma leaves_of_nonneg prior n l : Forall (wf_node prior n) l → (0 ≤ leaves_of l)%Z.
Proof. apply leaves_of_bound, node_leaves_pos. Qed.

(** The loop over the children of a group, given the claim for each child. *)
Definition validate_children (rid loc : string) (prior : option (gset string)) (depth : Z) :=
  fix children (l : list ConditionNodeSpec) (leaves : Z) : list Msg * Z :=
    match l with
    | [] => ([], leaves)
    | child :: l' =>
      let '(errs, leaves) := validateConditionNode rid loc child prior depth leaves in
      let '(errs', leaves) := children l' leaves in
      (errs ++ errs', leaves)
    end.

(** The verdict on a node, relative to the leaves counted before it. *)
Definition verdict (ok : Prop) (count k : Z) (r : list Msg * Z) : Prop :=
  (r.1 = [] ↔ ok ∧ (k + count ≤ maxConditionTreeLeaves)%Z) ∧ (r.1 = [] → r.2 = (k + count)%Z).

Lemma verdict_ext ok ok' n n' k r : (ok ↔ ok') → n = n' → verdict ok n k r → verdict ok' n' k r.
Proof. unfold verdict. intros H -> [H1 H2]. rewrite <- H. by split. Qed.

Lemma group_verdict (ok : Prop) prior n l k msg r :
  (ok ↔ l ≠ [] ∧ Forall (wf_node prior n) l) →
  verdict (Forall (wf_node prior n) l) (leaves_of l) k r →
  verdict ok (leaves_of l) k (match l with [] => ([msg], k) | _ :: _ => r end).
Proof.
  intros Hok Hr. destruct l as [|x l].
  - split; cbn; [|done]. split; [done|]. rewrite Hok. by intros [[] _].
  - revert Hr. apply verdict_ext; [|done]. rewrite Hok. naive_solver.
Qed.

Lemma validate_children_verdict rid loc prior n depth l k :
  (∀ node k, (k ≤ maxConditionTreeLeaves)%Z →
     verdict (wf_node prior n node) (node_leaves node) k (validateConditionNode rid loc node prior depth k)) →
  (k ≤ maxConditionTreeLeaves)%Z →
  verdict (Forall (wf_node prior n) l) (leaves_of l) k (validate_children rid loc prior depth l k).
Proof.
  intros Hnode. revert k. induction l as [|x l IH]; intros k Hk; cbn.
  { split; cbn; [|intros _; lia]. split; [intros _; split; [constructor|lia]|done]. }
  destruct (Hnode x k Hk) as [Hx Hxk].
  destruct (validateConditionNode rid loc x prior depth k) as [errs k1] eqn:E1; cbn in *.
  destruct errs as [|e errs].
  - destruct Hx as [[Hwf Hle] _]; [done|]. specialize (Hxk eq_refl).
    destruct (IH k1) as [Hl Hlk]; [lia|].
    destruct (validate_children rid loc prior depth l k1) as [errs' k2] eqn:E2.
    split; cbn in *; unfold leaves_of in *.
    + rewrite Forall_cons_iff, Hl. split; [intros []; split; [done|lia]|intros [[] ?]; split; [done|lia]].
    + intros ->. rewrite Hlk by done. lia.
  - destruct (validate_children rid loc prior depth l k1) as [errs' k2] eqn:E2.
    split; cbn; [|done]. split; [done|]. intros [[Hw Hws]%Forall_cons_iff Hle].
    apply leaves_of_nonneg in Hws. destruct Hx as [_ Hx]. discriminate Hx.
    split; [done|]. unfold leaves_of in *. lia.
Qed.

Lemma validateConditionNode_verdict rid loc prior n node depth k :
  (depth + Z.of_nat n = maxConditionTreeDepth + 1)%Z → (k ≤ maxConditionTreeLeaves)%Z →
  verdict (wf_node prior n node) (node_leaves node) k (validateConditionNode rid loc node prior depth k).
Proof.
  revert node depth k. induction n as [|n IH]; intros [all any not c] depth k Hd Hk.
  { cbn. replace (maxConditionTreeDepth <? depth)%Z with true
      by (symmetry; apply Z.ltb_lt; lia).
    split; cbn; [|done]. split; [done|]. intros [Hw _]. inversion Hw. }
  assert (∀ l, verdict (Forall (wf_node prior n) l) (leaves_of l) k
                 (validate_children rid loc prior (depth + 1) l k)) as Hch.
  { intros l. apply validate_children_verdict; [|done]. intros; apply IH; [lia|done]. }
  rewrite node_leaves_group. cbn [validateConditionNode].
  replace (maxConditionTreeDepth <? depth)%Z with false by (symmetry; apply Z.ltb_ge; lia).
  fold (validate_children rid loc prior (depth + 1)%Z).
  destruct c as [c|], not as [child|], all as [la|], any as [ly|];
    cbn [bool_decide boolCount foldl]; cbn -[validate_children Z.add validateConditionNode validateConditions];
    try (split; cbn; [|done]; split; [done|]; intros [Hw _]; inversion Hw; done).
  all: change (negb (0 + 1 =? 1)%Z) with false; cbn iota.
  - unfold verdict. destruct (Z.ltb_spec maxConditionTreeLeaves (k + 1)); cbn [fst snd].
    + split; [|done]. split; [done|]. intros [_ ?]. lia.
    + rewrite validateConditions_nil, Forall_singleton. split; [|intros _; lia].
      split; [intros ?; split; [by constructor|lia]|]. intros [Hw _]. by inversion Hw.
  - eapply verdict_ext, IH; [|lia..]. split; [by constructor|]. intros Hw. by inversion Hw.
  - eapply verdict_ext, group_verdict, Hch; [reflexivity|lia|].
    split; [intros Hw; by inversion Hw|intros []; by constructor].
  - eapply verdict_ext, group_verdict, Hch; [reflexivity|lia|].
    split; [intros Hw; by inversion Hw|intros []; by constructor].
Qed.

(** A condition tree is accepted exactly when it is well formed: at most
    eight levels, every node of one kind, no empty group, every leaf a
    supported condition (a [same_as] names an earlier step), and at most 256
    leaves in all. *)
Theorem validateConditionTree_spec (rid loc : string) (node : ConditionNodeSpec)
    (prior : option (gset string)) :
  validateConditionTree rid loc (Some node) prior = [] ↔
  wf_node prior (Z.to_nat maxConditionTreeDepth) node ∧ (node_leaves node ≤ maxConditionTreeLeaves)%Z.
Proof.
  cbn. destruct (validateConditionNode_verdict rid loc prior 8 node 1 0) as [H _]; [done..|].
  by rewrite H.
Qed.

Definition tree_ok (prior : option (gset string)) (node : option ConditionNodeSpec) : Prop :=
  ∀ n, node = Some n →
    wf_node prior (Z.to_nat maxConditionTreeDepth) n ∧ (node_leaves n ≤ maxConditionTreeLeaves)%Z.

Lemma validateConditionTree_nil rid loc node prior :
  validateConditionTree rid loc node prior = [] ↔ tree_ok prior node.
Proof.
  unfold tree_ok. destruct node as [node|]; [|done].
  destruct (validateConditionNode_verdict rid loc prior 8 node 1 0) as [H _]; [done..|].
  cbn. rewrite H. naive_solver.
Qed.

(** ** Sequences *)

(** The ids of the steps that precede step [i]. *)
Definition prior_ids (steps : list StepSpec) (i : nat) : gset string :=
  list_to_set ((λ s, TrimSpace (st_ID s)) <$> take i steps).

Definition step_ok (prior : gset string) (step : StepSpec) : Prop :=
  TrimSpace (st_ID step) ∉ prior ∧ Forall (condition_ok (Some prior)) (st_Conditions step) ∧
  tree_ok (Some prior) (st_ConditionGroup step).

Lemma validate_steps_nil rid prior steps :
  validate_steps rid prior steps = [] ↔
  ∀ i step, steps !! i = Some step → step_ok (prior_ids steps i ∪ prior) step.
Proof.
  revert prior. induction steps as [|s steps IH]; intros prior; cbn.
  { split; [|done]. intros _ i step. by rewrite lookup_nil. }
  rewrite !app_nil, if_nil, validateConditions_nil, validateConditionTree_nil, bool_decide_eq_false, IH.
  split.
  - intros (H1 & H2 & H3 & H4) [|i] step; cbn.
    + intros [= <-]. unfold prior_ids. cbn. by rewrite (left_id_L ∅ (∪)).
    + intros Hi. apply H4 in Hi. unfold prior_ids in *. cbn.
      by rewrite <- (assoc_L (∪)), (comm_L (∪) {[_]}), <- (assoc_L (∪)), (comm_L (∪) prior).
  - intros H. pose proof (H 0%nat s eq_refl) as H0. unfold prior_ids in H0. cbn in H0.
    rewrite (left_id_L ∅ (∪)) in H0. destruct H0 as (?&?&?). split_and!; [done..|].
    intros i step Hi. specialize (H (S i) step Hi). unfold prior_ids in *. cbn in H.
    by rewrite <- (assoc_L (∪)), (comm_L (∪) {[_]}), <- (assoc_L (∪)), (comm_L (∪) prior) in H.
Qed.

(** A sequence is accepted exactly when its grouping fields are known and,
    for every step, the id differs from those of the earlier steps and every
    condition, alone or in the tree, is supported and refers only to earlier
    steps. *)
Theorem validateSequence_spec (rule : RuleSpec) :
  validateSequence rule = [] ↔
  Forall (λ f, compileField f ≠ fieldUnknown) (sq_By (r_Sequence rule)) ∧
  ∀ i step, sq_Steps (r_Sequence rule) !! i = Some step →
    step_ok (prior_ids (sq_Steps (r_Sequence rule)) i) step.
Proof.
  unfold validateSequence, unsupported_fields.
  rewrite app_nil, mjoin_fmap_nil, validate_steps_nil. f_equiv.
  - split; apply Forall_impl; intros f; case_bool_decide; done.
  - split; intros H i step Hi; specialize (H i step Hi); by rewrite ?(right_id_L ∅ (∪)) in *.
Qed.


(** ** Selection of rules *)

Lemma duplicate_ids_nil seen rules :
  duplicate_ids seen rules = [] ↔
  NoDup (er_id <$> rules) ∧ ∀ r, r ∈ rules → er_id r ∉ seen.
Proof.
  revert seen. induction rules as [|r rules IH]; intros seen; cbn.
  { split; [|done]. intros _. split; [constructor|]. intros r Hr. by apply elem_of_nil in Hr. }
  rewrite app_nil, if_nil, bool_decide_eq_false, IH, list.NoDup_cons. split.
  - intros (H1 & H2 & H3). split_and!; [|done|].
    + intros (r' & E & Hr')%list_elem_of_fmap. specialize (H3 _ Hr'). set_solver.
    + intros r' [->|Hr']%elem_of_cons; [done|]. specialize (H3 _ Hr'). set_solver.
  - intros ((H1 & H2) & H3). split_and!; [apply H3; left|done|].
    intros r' Hr'. assert (er_id r' ∉ seen) by (apply H3; by right).
    assert (er_id r' ≠ er_id r); [|set_solver].
    intros E. apply H1. apply list_elem_of_fmap. by exists r'.
Qed.

Lemma validateRuleSelection_NoDup policy content :
  validateRuleSelection policy content = [] → NoDup (er_id <$> resolveRules policy content).
Proof. unfold validateRuleSelection. intros [_ H]%app_nil. by apply duplicate_ids_nil in H as [? _]. Qed.

Lemma missing_refs_nil msg refs m :
  missing_refs msg refs m = [] ↔ Forall (λ ref, is_Some (m !! ref)) refs.
Proof.
  unfold missing_refs. rewrite mjoin_fmap_nil.
  split; apply Forall_impl; intros ref; case_bool_decide; done.
Qed.

(** The content references of a rule are resolved by the snapshot. *)
Definition refs_resolved (content : ContentSnapshot) (rule : effectiveRule) : Prop :=
  Forall (λ ref, is_Some (cs_ContextRefs content !! ref)) (r_ContextRefs (er_spec rule)) ∧
  Forall (λ ref, is_Some (cs_IOCRefs content !! ref)) (r_IOCRefs (er_spec rule)).

Lemma validateContentRefs_nil rules content :
  validateContentRefs rules content = [] ↔ Forall (refs_resolved content) rules.
Proof.
  unfold validateContentRefs, refs_resolved. rewrite mjoin_fmap_nil.
  split; apply Forall_impl; intros rule; cbn beta; rewrite app_nil, !missing_refs_nil; done.
Qed.

(** A sequence rule that passes has steps, and every step a behaviour. *)
Lemma validateEffectiveRule_sequence rule :
  validateEffectiveRule rule = [] → runtimeType rule = "sequence" →
  sq_Steps (r_Sequence (er_spec rule)) ≠ [] ∧
  Forall (λ step, TrimSpace (st_ID step) ≠ "" ∧ TrimSpace (st_Behavior step) ≠ "")
    (sq_Steps (r_Sequence (er_spec rule))).
Proof.
  unfold validateEffectiveRule. intros H Hrt. rewrite Hrt in H.
  rewrite !app_nil in H. destruct H as (_ & _ & H & _).
  rewrite bool_decide_eq_true_2 in H by done.
  apply app_nil in H as [Hne H]. rewrite if_nil, bool_decide_eq_false in Hne. apply mjoin_fmap_nil in H.
  split; [done|]. revert H. apply Forall_impl. intros step; cbn beta.
  rewrite app_nil, !if_nil, !bool_decide_eq_false. done.
Qed.

Lemma validateEffectiveRules_nil `{RangeOrder} rules id rule :
  validateEffectiveRules rules = [] → rules !! id = Some rule → validateEffectiveRule rule = [].
Proof.
  unfold validateEffectiveRules. rewrite mjoin_fmap_nil, list.Forall_forall. intros HF Hid.
  specialize (HF id). rewrite Hid in HF. apply HF. apply elem_of_range_keys. eauto.
Qed.

Lemma validateRuleSpecs_nil rules rule :
  validateRuleSpecs rules = [] → rule ∈ rules → validateRuleSpec (er_spec rule) = [].
Proof. unfold validateRuleSpecs. rewrite mjoin_fmap_nil, list.Forall_forall. auto. Qed.

(** Both notions of a rule's runtime agree on the three runtimes. *)
Lemma runtimeType_spec rule rt :
  rt ∈ ["expr"; "sequence"; "correlate"] → runtimeType rule = rt → ruleRuntimeType (er_spec rule) = rt.
Proof.
  unfold runtimeType, ruleRuntimeType, is_one_of. intros Hin. repeat case_bool_decide; try done.
  intros <-. set_solver.
Qed.

(** The facts of an accepted correlation have distinct ids. *)
Lemma validate_facts_NoDup rid seen facts :
  validate_facts rid seen facts = [] →
  NoDup ((λ f, TrimSpace (fa_ID f)) <$> facts) ∧ ∀ f, f ∈ facts → TrimSpace (fa_ID f) ∉ seen.
Proof.
  revert seen. induction facts as [|f facts IH]; intros seen; cbn.
  { intros _. split; [constructor|]. intros f Hf. by apply elem_of_nil in Hf. }
  rewrite !app_nil. intros (Hid & _ & _ & _ & _ & Hrest).
  destruct (IH _ Hrest) as [Hnd Hni].
  repeat case_bool_decide; try done. split.
  - apply list.NoDup_cons. split; [|done]. intros (f' & E & Hf')%list_elem_of_fmap.
    apply (Hni f' Hf'). rewrite <- E. set_solver.
  - intros f' [->|Hf']%elem_of_cons; [done|]. specialize (Hni f' Hf'). set_solver.
Qed.

Lemma validateRuleSpec_correlate rule :
  validateRuleSpec rule = [] → ruleRuntimeType rule = "correlate" →
  NoDup ((λ f, TrimSpace (fa_ID f)) <$> co_Facts (r_Correlate rule)).
Proof.
  unfold validateRuleSpec. intros H E. rewrite E in H. cbn in H.
  apply app_nil in H as [_ H]. unfold validateCorrelate in H. rewrite !app_nil in H.
  destruct H as (_ & _ & _ & _ & _ & H). by apply validate_facts_NoDup in H as [? _].
Qed.

End Validation.
