(* ===== verification/EventView.v ===== *)
(** * Views of an event ([compiled.go] lines 124-147 and 533-626, [engine.go] lines 393-413 and 829-992)

    The fields a rule can read, once as the flat record [eventView] that the
    compiled path reads, and once through [eventField], the lookup by name of
    the reference path.  [sudoCommand] extracts the command that an
    invocation of sudo runs. *)

From S2P Require Import Prelude GoStrings EventModel RuleSpec.

Module EventView.
Import EventModel RuleSpec.

Definition eventBehavior (ev : CanonicalEvent) : string :=
  let behavior := TrimSpace (ev_Behavior ev) in
  if bool_decide (behavior ≠ "") then ToLower behavior else "".

(** [time.Unix(0, int64(ns))]; [wall] is what [time.Now()] reads. *)
Definition eventWallTime (wall : Z) (ev : CanonicalEvent) : Z :=
  if (0 <? ev_OccurredAtNs ev)%Z then i64 (ev_OccurredAtNs ev)
  else if (0 <? ev_MonoNs ev)%Z then i64 (ev_MonoNs ev)
  else wall.

(** ** The command run by sudo *)

Definition sudoOptionNeedsValue (arg : string) : bool :=
  is_one_of ["-C"; "-D"; "-g"; "-h"; "-p"; "-R"; "-r"; "-T"; "-t"; "-u";
    "--chdir"; "--chroot"; "--close-from"; "--command-timeout"; "--group";
    "--host"; "--prompt"; "--role"; "--type"; "--user"] arg.

Definition sudoFlagWithoutValue (arg : string) : bool :=
  is_one_of ["-A"; "-b"; "-E"; "-H"; "-k"; "-n"; "-P"; "-S";
    "--askpass"; "--background"; "--non-interactive"; "--preserve-env";
    "--preserve-groups"; "--reset-timestamp"; "--set-home"; "--stdin"] arg.

Definition sudoOptionHasInlineValue (arg : string) : bool :=
  let '(name, _, ok) := Cut arg "="%char in
  if ok && HasPrefix name "--" then
    sudoOptionNeedsValue name || bool_decide (name = "--preserve-env")
  else
    (2 <? String.length arg)%nat &&
    match byte_at arg 1 with Some c => contains_byte "CDghprTtu" c | None => false end.

(** The loop over [argv[1:]]; an option that takes a value skips two. *)
Fixpoint sudo_scan (args : list string) : string :=
  match args with
  | [] => ""
  | arg :: rest =>
    if bool_decide (arg = "--") then
      match rest with next :: _ => Base next | [] => "" end
    else if negb (HasPrefix arg "-") || bool_decide (arg = "-") then Base arg
    else if sudoOptionHasInlineValue arg || sudoFlagWithoutValue arg then sudo_scan rest
    else if sudoOptionNeedsValue arg then
      match rest with _ :: rest' => sudo_scan rest' | [] => "" end
    else ""
  end.

(** The two quote characters, the double one by its code. *)
Definition quotes : string := String (ascii_of_nat 34) "'".

Definition sudoCommand (argv : list string) : string :=
  match argv with
  | arg0 :: ((_ :: _) as args) =>
    if bool_decide (Base arg0 ≠ "sudo") then ""
    else if existsb (λ arg, ContainsAny arg quotes) args then ""
    else sudo_scan args
  | _ => ""
  end.

(** ** The flat view *)

Record eventView := MkEventView {
  v_ev : CanonicalEvent;
  v_eventID : string;
  v_behavior : string;
  v_lineageID : string;
  v_processStableID : string;
  v_processBinary : string;
  v_processBinaryName : string;
  v_processArgv : string;
  v_processSudoCommand : string;
  v_processUID : string;
  v_processPID : string;
  v_parentStableID : string;
  v_filePath : string;
  v_socketAddr : string;
  v_socketPort : string;
  v_socket : string;
  v_scopeType : string;
  v_scopeSelector : string;
  v_containerID : string;
  v_cgroup : string;
  v_occurredAtNs : Z;
  v_monoNs : Z
}.

(** [p] and [o] guard the branches [proc != nil] and [obj != nil]. *)
Definition newEventView (ev : CanonicalEvent) : eventView :=
  let p {A} (z : A) (f : ProcessRef → A) := from_option f z (ev_SubjectProc ev) in
  let o {A} (z : A) (f : ObjectRef → A) := from_option f z (ev_Object ev) in
  let socket := o "" obj_SocketAddr in
  let '(addr, port, ok) := Cut socket ":"%char in
  {| v_ev := ev;
     v_eventID := ev_Id ev;
     v_behavior := eventBehavior ev;
     v_lineageID := ev_LineageId ev;
     v_processStableID := p "" proc_StableId;
     v_processBinary := p "" proc_Binary;
     v_processBinaryName := p "" (λ proc, Base (proc_Binary proc));
     v_processArgv := p "" (λ proc, Join (proc_Argv proc) " ");
     v_processSudoCommand := p "" (λ proc,
       if bool_decide (Base (proc_Binary proc) = "sudo") && proc_ArgvBoundariesTrusted proc
       then sudoCommand (proc_Argv proc) else "");
     v_processUID := p "" (λ proc, FormatUint (proc_Uid proc));
     v_processPID := p "" (λ proc, if (proc_Pid proc =? 0)%Z then "" else FormatUint (proc_Pid proc));
     v_parentStableID := ev_ParentStableId ev;
     v_filePath := o "" obj_FilePath;
     v_socketAddr := if ok then addr else socket;
     v_socketPort := if ok then port else "";
     v_socket := socket;
     v_scopeType := from_option scope_Type "" (ev_Scope ev);
     v_scopeSelector := from_option scope_Selector "" (ev_Scope ev);
     v_containerID := ev_ContainerId ev;
     v_cgroup := ev_Cgroup ev;
     v_occurredAtNs := ev_OccurredAtNs ev;
     v_monoNs := ev_MonoNs ev |}.

Definition field (v : eventView) (f : fieldID) : string :=
  match f with
  | fieldEventID => v_eventID v
  | fieldBehavior => v_behavior v
  | fieldLineageID => v_lineageID v
  | fieldProcessStableID => v_processStableID v
  | fieldProcessBinary => v_processBinary v
  | fieldProcessBinaryName => v_processBinaryName v
  | fieldProcessArgv => v_processArgv v
  | fieldProcessSudoCommand => v_processSudoCommand v
  | fieldProcessUID => v_processUID v
  | fieldProcessPID => v_processPID v
  | fieldParentStableID => v_parentStableID v
  | fieldFilePath => v_filePath v
  | fieldSocketAddr => v_socketAddr v
  | fieldSocketPort => v_socketPort v
  | fieldSocket => v_socket v
  | fieldScopeType => v_scopeType v
  | fieldScopeSelector => v_scopeSelector v
  | fieldContainerID => v_containerID v
  | fieldCgroup => v_cgroup v
  | fieldUnknown => ""
  end.

Definition eventTime (v : eventView) : Z :=
  if (v_occurredAtNs v =? 0)%Z then v_monoNs v else v_occurredAtNs v.

(** [eventFieldMapFromView]: a nil map (no fields) is the empty one, which
    the caller treats alike. *)
Definition eventFieldMapFromView (v : eventView) (fields : list fieldID) : gmap string string :=
  foldl (λ out f, <[fieldName f := field v f]> out) ∅ fields.

(** ** Lookup by name (the reference path) *)

Definition eventField (ev : CanonicalEvent) (name : string) : string :=
  let f := TrimSpace name in
  let proc := GetSubjectProc ev in
  let '(addr, port, ok) := Cut (obj_SocketAddr (GetObject ev)) ":"%char in
  if is_one_of ["event.id"; "id"] f then ev_Id ev
  else if is_one_of ["event.behavior"; "behavior"] f then ev_Behavior ev
  else if is_one_of ["lineage_id"; "lineage.id"] f then ev_LineageId ev
  else if is_one_of ["process.stable_id"; "process.id"] f then proc_StableId proc
  else if is_one_of ["process.binary"; "binary"] f then proc_Binary proc
  else if is_one_of ["process.argv"; "argv"] f then Join (proc_Argv proc) " "
  else if is_one_of ["process.sudo_command"] f then
    if bool_decide (Base (proc_Binary proc) ≠ "sudo") || negb (proc_ArgvBoundariesTrusted proc)
    then "" else sudoCommand (proc_Argv proc)
  else if is_one_of ["process.uid"; "uid"] f then FormatUint (proc_Uid proc)
  else if is_one_of ["process.pid"; "pid"] f then
    if (proc_Pid proc =? 0)%Z then "" else FormatUint (proc_Pid proc)
  else if is_one_of ["parent.stable_id"; "parent.id"] f then ev_ParentStableId ev
  else if is_one_of ["file.path"; "object.file_path"] f then obj_FilePath (GetObject ev)
  else if is_one_of ["socket.addr"; "object.socket_addr"] f then
    if ok then addr else obj_SocketAddr (GetObject ev)
  else if is_one_of ["socket.port"] f then if ok then port else ""
  else if is_one_of ["socket"] f then obj_SocketAddr (GetObject ev)
  else if is_one_of ["scope.type"] f then scope_Type (GetScope ev)
  else if is_one_of ["scope.selector"] f then scope_Selector (GetScope ev)
  else if is_one_of ["container.id"; "container_id"] f then ev_ContainerId ev
  else if is_one_of ["cgroup"] f then ev_Cgroup ev
  else "".

(** ** Entities of an event *)

Definition processEntity (ev : CanonicalEvent) : EntityRef :=
  MkEntityRef "process" (proc_StableId (GetSubjectProc ev)) "subject".

Definition fileEntity (path role : string) : EntityRef := MkEntityRef "file" path role.

Definition socketEntity (ev : CanonicalEvent) : EntityRef :=
  MkEntityRef "socket" (obj_SocketAddr (GetObject ev)) "object".

Definition eventEntities (ev : CanonicalEvent) : list EntityRef :=
  [processEntity ev] ++
  (if bool_decide (eventBehavior ev = BehaviorProcessExec)
      && bool_decide (proc_Binary (GetSubjectProc ev) ≠ "")
   then [fileEntity (proc_Binary (GetSubjectProc ev)) "subject"] else []) ++
  (if bool_decide (obj_FilePath (GetObject ev) ≠ "")
   then [fileEntity (obj_FilePath (GetObject ev)) "object"] else []) ++
  (if bool_decide (obj_SocketAddr (GetObject ev) ≠ "") then [socketEntity ev] else []) ++
  (if bool_decide (ev_ContainerId ev ≠ "")
   then [MkEntityRef "container" (ev_ContainerId ev) "scope"] else []).

(** ** The two ways to read a field agree *)

Example sudoCommand_runs :
  sudoCommand ["/usr/bin/sudo"; "-u"; "root"; "--host=h"; "-n"; "/bin/bash"; "-c"] = "bash" ∧
  sudoCommand ["sudo"; "--"; "/usr/bin/id"] = "id" ∧
  sudoCommand ["sudo"; "-x"; "id"] = "" ∧ sudoCommand ["sudo"; "echo 'a'"] = "".
Proof. by vm_compute. Qed.

(** For an event with a process, the compiled field of a name reads what
    [eventField] reads by that name, except for the behaviour, which the view
    normalises, and the binary's base name, which only the view has. *)
Lemma field_eventField ev name :
  is_Some (ev_SubjectProc ev) →
  compileField name ≠ fieldBehavior → compileField name ≠ fieldProcessBinaryName →
  field (newEventView ev) (compileField name) = eventField ev name.
Proof.
  intros [proc Hproc]. unfold compileField, eventField, newEventView, GetSubjectProc, GetObject, GetScope.
  rewrite Hproc. cbn [default from_option].
  replace (from_option obj_SocketAddr "" (ev_Object ev))
    with (obj_SocketAddr (default zero_obj (ev_Object ev))) by (by destruct (ev_Object ev)).
  replace (from_option obj_FilePath "" (ev_Object ev))
    with (obj_FilePath (default zero_obj (ev_Object ev))) by (by destruct (ev_Object ev)).
  replace (from_option scope_Type "" (ev_Scope ev))
    with (scope_Type (default zero_scope (ev_Scope ev))) by (by destruct (ev_Scope ev)).
  replace (from_option scope_Selector "" (ev_Scope ev))
    with (scope_Selector (default zero_scope (ev_Scope ev))) by (by destruct (ev_Scope ev)).
  destruct (Cut _ _) as [[addr port] ok].
  generalize (TrimSpace name); intros f. intros Hb Hbn.
  repeat (match goal with |- context [is_one_of ?l f] => destruct (is_one_of l f) eqn:? end;
    try done); cbn.
  repeat case_bool_decide; try done; by destruct (proc_ArgvBoundariesTrusted proc).
Qed.

End EventView.
