(* ===== verification/Compiled.v ===== *)
(** * Compiled rules ([internal/endpoint/detection/compiled.go], [condition_tree.go],
    the compile half of [correlate.go], and the reference conditions of [engine.go])

    Conditions with their matchers, condition trees, rules and the dispatch
    tables by behaviour, and their evaluation.  Evaluation counts work in the
    engine's metrics, so it runs in the state monad over [Metrics]; the pure
    functions [eval_condition] and [eval_node] give its boolean result.  The
    process-wide matcher strategy is an explicit argument. *)

From S2P Require Import Prelude GoStrings GoFloat Matcher EventModel Policy RuleSpec EventView.

Module Compiled.
Import EventModel Policy RuleSpec EventView.

(** ** Metrics *)

Record Metrics := MkMetrics {
  m_EventsProcessed : Z;
  m_EventsByBehavior : gmap string Z;
  m_CEPRulesScanned : Z;
  m_CEPRulesEvaluated : Z;
  m_ConditionsEvaluated : Z;
  m_ConditionsMatched : Z;
  m_FieldReads : Z;
  m_ProcessNanosTotal : Z;
  m_ActiveCEPGroups : Z;
  m_EvictedCEPGroups : Z;
  m_ExpiredCEPGroups : Z;
  m_DroppedEventRefs : Z;
  m_SuppressionEvictions : Z;
  m_CEPEvalErrors : Z;
  m_EmittedSignals : Z
}.

Definition zero_Metrics : Metrics :=
  MkMetrics 0 ∅ 0 0 0 0 0 0 0 0 0 0 0 0 0.

Definition upd_EventsProcessed (f : Z → Z) (m : Metrics) : Metrics :=
  MkMetrics (f (m_EventsProcessed m)) (m_EventsByBehavior m) (m_CEPRulesScanned m)
    (m_CEPRulesEvaluated m) (m_ConditionsEvaluated m) (m_ConditionsMatched m) (m_FieldReads m)
    (m_ProcessNanosTotal m) (m_ActiveCEPGroups m) (m_EvictedCEPGroups m) (m_ExpiredCEPGroups m)
    (m_DroppedEventRefs m) (m_SuppressionEvictions m) (m_CEPEvalErrors m) (m_EmittedSignals m).
Definition upd_EventsByBehavior (f : gmap string Z → gmap string Z) (m : Metrics) : Metrics :=
  MkMetrics (m_EventsProcessed m) (f (m_EventsByBehavior m)) (m_CEPRulesScanned m)
    (m_CEPRulesEvaluated m) (m_ConditionsEvaluated m) (m_ConditionsMatched m) (m_FieldReads m)
    (m_ProcessNanosTotal m) (m_ActiveCEPGroups m) (m_EvictedCEPGroups m) (m_ExpiredCEPGroups m)
    (m_DroppedEventRefs m) (m_SuppressionEvictions m) (m_CEPEvalErrors m) (m_EmittedSignals m).
Definition upd_CEPRulesScanned (f : Z → Z) (m : Metrics) : Metrics :=
  MkMetrics (m_EventsProcessed m) (m_EventsByBehavior m) (f (m_CEPRulesScanned m))
    (m_CEPRulesEvaluated m) (m_ConditionsEvaluated m) (m_ConditionsMatched m) (m_FieldReads m)
    (m_ProcessNanosTotal m) (m_ActiveCEPGroups m) (m_EvictedCEPGroups m) (m_ExpiredCEPGroups m)
    (m_DroppedEventRefs m) (m_SuppressionEvictions m) (m_CEPEvalErrors m) (m_EmittedSignals m).
Definition upd_CEPRulesEvaluated (f : Z → Z) (m : Metrics) : Metrics :=
  MkMetrics (m_EventsProcessed m) (m_EventsByBehavior m) (m_CEPRulesScanned m)
    (f (m_CEPRulesEvaluated m)) (m_ConditionsEvaluated m) (m_ConditionsMatched m)
    (m_FieldReads m) (m_ProcessNanosTotal m) (m_ActiveCEPGroups m) (m_EvictedCEPGroups m)
    (m_ExpiredCEPGroups m) (m_DroppedEventRefs m) (m_SuppressionEvictions m) (m_CEPEvalErrors m)
    (m_EmittedSignals m).
Definition upd_ConditionsEvaluated (f : Z → Z) (m : Metrics) : Metrics :=
  MkMetrics (m_EventsProcessed m) (m_EventsByBehavior m) (m_CEPRulesScanned m)
    (m_CEPRulesEvaluated m) (f (m_ConditionsEvaluated m)) (m_ConditionsMatched m)
    (m_FieldReads m) (m_ProcessNanosTotal m) (m_ActiveCEPGroups m) (m_EvictedCEPGroups m)
    (m_ExpiredCEPGroups m) (m_DroppedEventRefs m) (m_SuppressionEvictions m) (m_CEPEvalErrors m)
    (m_EmittedSignals m).
Definition upd_ConditionsMatched (f : Z → Z) (m : Metrics) : Metrics :=
  MkMetrics (m_EventsProcessed m) (m_EventsByBehavior m) (m_CEPRulesScanned m)
    (m_CEPRulesEvaluated m) (m_ConditionsEvaluated m) (f (m_ConditionsMatched m))
    (m_FieldReads m) (m_ProcessNanosTotal m) (m_ActiveCEPGroups m) (m_EvictedCEPGroups m)
    (m_ExpiredCEPGroups m) (m_DroppedEventRefs m) (m_SuppressionEvictions m) (m_CEPEvalErrors m)
    (m_EmittedSignals m).
Definition upd_FieldReads (f : Z → Z) (m : Metrics) : Metrics :=
  MkMetrics (m_EventsProcessed m) (m_EventsByBehavior m) (m_CEPRulesScanned m)
    (m_CEPRulesEvaluated m) (m_ConditionsEvaluated m) (m_ConditionsMatched m)
    (f (m_FieldReads m)) (m_ProcessNanosTotal m) (m_ActiveCEPGroups m) (m_EvictedCEPGroups m)
    (m_ExpiredCEPGroups m) (m_DroppedEventRefs m) (m_SuppressionEvictions m) (m_CEPEvalErrors m)
    (m_EmittedSignals m).
Definition upd_ProcessNanosTotal (f : Z → Z) (m : Metrics) : Metrics :=
  MkMetrics (m_EventsProcessed m) (m_EventsByBehavior m) (m_CEPRulesScanned m)
    (m_CEPRulesEvaluated m) (m_ConditionsEvaluated m) (m_ConditionsMatched m) (m_FieldReads m)
    (f (m_ProcessNanosTotal m)) (m_ActiveCEPGroups m) (m_EvictedCEPGroups m)
    (m_ExpiredCEPGroups m) (m_DroppedEventRefs m) (m_SuppressionEvictions m) (m_CEPEvalErrors m)
    (m_EmittedSignals m).
Definition upd_ActiveCEPGroups (f : Z → Z) (m : Metrics) : Metrics :=
  MkMetrics (m_EventsProcessed m) (m_EventsByBehavior m) (m_CEPRulesScanned m)
    (m_CEPRulesEvaluated m) (m_ConditionsEvaluated m) (m_ConditionsMatched m) (m_FieldReads m)
    (m_ProcessNanosTotal m) (f (m_ActiveCEPGroups m)) (m_EvictedCEPGroups m)
    (m_ExpiredCEPGroups m) (m_DroppedEventRefs m) (m_SuppressionEvictions m) (m_CEPEvalErrors m)
    (m_EmittedSignals m).
Definition upd_EvictedCEPGroups (f : Z → Z) (m : Metrics) : Metrics :=
  MkMetrics (m_EventsProcessed m) (m_EventsByBehavior m) (m_CEPRulesScanned m)
    (m_CEPRulesEvaluated m) (m_ConditionsEvaluated m) (m_ConditionsMatched m) (m_FieldReads m)
    (m_ProcessNanosTotal m) (m_ActiveCEPGroups m) (f (m_EvictedCEPGroups m))
    (m_ExpiredCEPGroups m) (m_DroppedEventRefs m) (m_SuppressionEvictions m) (m_CEPEvalErrors m)
    (m_EmittedSignals m).
Definition upd_ExpiredCEPGroups (f : Z → Z) (m : Metrics) : Metrics :=
  MkMetrics (m_EventsProcessed m) (m_EventsByBehavior m) (m_CEPRulesScanned m)
    (m_CEPRulesEvaluated m) (m_ConditionsEvaluated m) (m_ConditionsMatched m) (m_FieldReads m)
    (m_ProcessNanosTotal m) (m_ActiveCEPGroups m) (m_EvictedCEPGroups m)
    (f (m_ExpiredCEPGroups m)) (m_DroppedEventRefs m) (m_SuppressionEvictions m)
    (m_CEPEvalErrors m) (m_EmittedSignals m).
Definition upd_DroppedEventRefs (f : Z → Z) (m : Metrics) : Metrics :=
  MkMetrics (m_EventsProcessed m) (m_EventsByBehavior m) (m_CEPRulesScanned m)
    (m_CEPRulesEvaluated m) (m_ConditionsEvaluated m) (m_ConditionsMatched m) (m_FieldReads m)
    (m_ProcessNanosTotal m) (m_ActiveCEPGroups m) (m_EvictedCEPGroups m) (m_ExpiredCEPGroups m)
    (f (m_DroppedEventRefs m)) (m_SuppressionEvictions m) (m_CEPEvalErrors m)
    (m_EmittedSignals m).
Definition upd_SuppressionEvictions (f : Z → Z) (m : Metrics) : Metrics :=
  MkMetrics (m_EventsProcessed m) (m_EventsByBehavior m) (m_CEPRulesScanned m)
    (m_CEPRulesEvaluated m) (m_ConditionsEvaluated m) (m_ConditionsMatched m) (m_FieldReads m)
    (m_ProcessNanosTotal m) (m_ActiveCEPGroups m) (m_EvictedCEPGroups m) (m_ExpiredCEPGroups m)
    (m_DroppedEventRefs m) (f (m_SuppressionEvictions m)) (m_CEPEvalErrors m)
    (m_EmittedSignals m).
Definition upd_EmittedSignals (f : Z → Z) (m : Metrics) : Metrics :=
  MkMetrics (m_EventsProcessed m) (m_EventsByBehavior m) (m_CEPRulesScanned m)
    (m_CEPRulesEvaluated m) (m_ConditionsEvaluated m) (m_ConditionsMatched m) (m_FieldReads m)
    (m_ProcessNanosTotal m) (m_ActiveCEPGroups m) (m_EvictedCEPGroups m) (m_ExpiredCEPGroups m)
    (m_DroppedEventRefs m) (m_SuppressionEvictions m) (m_CEPEvalErrors m)
    (f (m_EmittedSignals m)).

(** A [uint64] counter. *)
Definition inc (n : Z) : Z := u64 (n + 1).

(** ** Engine state read by conditions *)

Record cepGroupState := MkCepGroupState {
  g_StepIndex : nat;
  g_Refs : list string;
  g_Entities : list EntityRef;
  g_Values : gmap string (gmap string string);
  g_ExpiresAt : Z;
  g_WaitingBehavior : string
}.

Definition new_group : cepGroupState := MkCepGroupState 0 [] [] ∅ 0 "".

(** ** Compiled data *)

Record compiledCondition := MkCompiledCondition {
  cc_field : fieldID;
  cc_op : conditionOp;
  cc_values : list string;
  cc_matcher : option Matcher.t;
  cc_step : string;
  cc_stepField : fieldID;
  cc_cost : Z
}.

Definition zero_condition : compiledCondition :=
  MkCompiledCondition fieldUnknown opNone [] None "" fieldUnknown 0.

Inductive compiledConditionNodeKind :=
| conditionNodeNone | conditionNodeAll | conditionNodeAny | conditionNodeNot | conditionNodeLeaf.

Inductive compiledConditionNode := MkCompiledConditionNode {
  cn_kind : compiledConditionNodeKind;
  cn_children : list compiledConditionNode;
  cn_child : option compiledConditionNode;
  cn_condition : compiledCondition
}.

Record compiledSuppression := MkCompiledSuppression {
  cs_within : Z;
  cs_by : list fieldID
}.

Record compiledExpr := MkCompiledExpr {
  ce_conditions : list compiledCondition;
  ce_conditionGroup : option compiledConditionNode;
  ce_suppression : compiledSuppression
}.

Record compiledStep := MkCompiledStep {
  cst_id : string;
  cst_behavior : string;
  cst_conditions : list compiledCondition;
  cst_conditionGroup : option compiledConditionNode;
  cst_saveFields : list fieldID
}.

Record compiledSequence := MkCompiledSequence {
  csq_within : Z;
  csq_by : list fieldID;
  csq_steps : list compiledStep
}.

Inductive compiledRuleKind := compiledRuleExpr | compiledRuleSequence.

Global Instance compiledRuleKind_eq_dec : EqDecision compiledRuleKind.
Proof. solve_decision. Defined.

Record compiledRule := MkCompiledRule {
  cru_rule : effectiveRule;
  cru_kind : compiledRuleKind;
  cru_expr : compiledExpr;
  cru_sequence : compiledSequence
}.

Definition zero_expr : compiledExpr := MkCompiledExpr [] None (MkCompiledSuppression 0 []).
Definition zero_sequence : compiledSequence := MkCompiledSequence 0 [] [].

Record compiledSequenceCandidate := MkCandidate {
  cand_rule : compiledRule;
  cand_stepIndex : nat;
  cand_firstStep : bool
}.

Record compiledRuntime := MkCompiledRuntime {
  rt_byBehavior : gmap string (list compiledRule);
  rt_behaviorAgnostic : list compiledRule
}.

Record compiledSequenceRuntime := MkCompiledSequenceRuntime {
  srt_firstByBehavior : gmap string (list compiledSequenceCandidate);
  srt_nextByBehavior : gmap string (list compiledSequenceCandidate);
  srt_behaviorAgnostic : list compiledSequenceCandidate
}.

Record compiledFact := MkCompiledFact {
  cf_id : string;
  cf_behaviors : gset string;
  cf_conditions : list compiledCondition;
  cf_conditionGroup : option compiledConditionNode
}.

Record compiledCorrelateRule := MkCompiledCorrelateRule {
  ccr_rule : effectiveRule;
  ccr_within : Z;
  ccr_by : list fieldID;
  ccr_facts : list compiledFact
}.

Record compiledCorrelateRuntime := MkCompiledCorrelateRuntime {
  crt_byBehavior : gmap string (list compiledCorrelateRule)
}.

(** ** Compilation of conditions *)

Definition conditionCost (op : conditionOp) (f : fieldID) : Z :=
  ((match op with
    | opExists => 1
    | opEq | opIn | opNeq | opNotIn => 2
    | opGT | opGTE | opLT | opLTE => 3
    | opSameAs => 4
    | opPrefix | opSuffix => 5
    | opContains => 8
    | opNone => 20
    end) +
   (match f with
    | fieldProcessArgv => 4
    | fieldSocketAddr | fieldSocketPort => 1
    | _ => 0
    end))%Z.

Fixpoint normalize_values_go (seen : gset string) (values : list string) : list string :=
  match values with
  | [] => []
  | value :: values' =>
    let value := TrimSpace value in
    if bool_decide (value = "") then normalize_values_go seen values'
    else if bool_decide (value ∈ seen) then normalize_values_go seen values'
    else value :: normalize_values_go ({[value]} ∪ seen) values'
  end.

Definition normalizeConditionValues (values : list string) : list string :=
  normalize_values_go ∅ values.

Definition compileMatcher (strategy : string) (op : conditionOp) (values : list string) : option Matcher.t :=
  match op with
  | opEq | opIn | opNeq | opNotIn => Some (Matcher.NewExact values)
  | opPrefix => Some (Matcher.NewPrefix strategy values)
  | opSuffix => Some (Matcher.NewSuffix strategy values)
  | opContains => Some (Matcher.NewContains strategy values)
  | _ => None
  end.

(** The values a condition compares with, inline ones and referenced ones. *)
Definition condition_values (content : ContentSnapshot) (cond : ConditionSpec) : list string :=
  c_Values cond ++
  (if bool_decide (c_Value cond ≠ "") then [c_Value cond] else []) ++
  (if bool_decide (c_Ref cond ≠ "") then contentValuesFromSnapshot content (c_Ref cond) else []).

(** The body of the loop of [compileConditions]. *)
Definition compile_one (strategy : string) (content : ContentSnapshot) (cond : ConditionSpec) : compiledCondition :=
  let values := condition_values content cond in
  let op := compileOp (c_Op cond) in
  let f := compileField (c_Field cond) in
  {| cc_field := f;
     cc_op := op;
     cc_values := normalizeConditionValues values;
     cc_matcher := compileMatcher strategy op values;
     cc_step := TrimSpace (c_Step cond);
     cc_stepField := compileField (firstNonEmpty [c_StepField cond; c_Field cond]);
     cc_cost := conditionCost op f |}.

Definition compileConditions (strategy : string) (conditions : list ConditionSpec)
    (content : ContentSnapshot) : list compiledCondition :=
  stable_sort cc_cost (compile_one strategy content <$> conditions).

Definition compileCondition (strategy : string) (cond : ConditionSpec) (content : ContentSnapshot) : compiledCondition :=
  match compileConditions strategy [cond] content with
  | [] => zero_condition
  | c :: _ => c
  end.

Fixpoint compile_node (strategy : string) (content : ContentSnapshot) (node : ConditionNodeSpec) : compiledConditionNode :=
  match node with
  | MkConditionNodeSpec all any not condition =>
    match condition, not, all, any with
    | Some c, _, _, _ =>
      MkCompiledConditionNode conditionNodeLeaf [] None (compileCondition strategy c content)
    | None, Some child, _, _ =>
      MkCompiledConditionNode conditionNodeNot [] (Some (compile_node strategy content child)) zero_condition
    | None, None, Some l, _ =>
      MkCompiledConditionNode conditionNodeAll (map (compile_node strategy content) l) None zero_condition
    | None, None, None, Some l =>
      MkCompiledConditionNode conditionNodeAny (map (compile_node strategy content) l) None zero_condition
    | None, None, None, None =>
      MkCompiledConditionNode conditionNodeNone [] None zero_condition
    end
  end.

Definition compileConditionNode (strategy : string) (node : option ConditionNodeSpec)
    (content : ContentSnapshot) : option compiledConditionNode :=
  compile_node strategy content <$> node.

Fixpoint node_conditions (node : compiledConditionNode) : list compiledCondition :=
  match node with
  | MkCompiledConditionNode kind children child condition =>
    match kind with
    | conditionNodeLeaf => [condition]
    | _ => from_option node_conditions [] child ++ concat (map node_conditions children)
    end
  end.

Definition appendCompiledNodeConditions (out : list compiledCondition)
    (node : option compiledConditionNode) : list compiledCondition :=
  out ++ from_option node_conditions [] node.

(** ** Saved fields of a sequence *)

(** [stepIndex]: the last step of an id wins. *)
Definition step_index (steps : list compiledStep) : gmap string nat :=
  foldl (λ m '(i, s), if bool_decide (cst_id s ≠ "") then <[cst_id s := i]> m else m)
    ∅ (imap pair steps).

(** The (step, field) pairs some [same_as] condition reads. *)
Definition saved_pairs (steps : list compiledStep) : list (nat * fieldID) :=
  mjoin ((λ s,
      omap (λ c,
          if bool_decide (cc_op c ≠ opSameAs) || bool_decide (cc_step c = "") then None
          else (λ idx, (idx, cc_stepField c)) <$> step_index steps !! cc_step c)
        (appendCompiledNodeConditions (cst_conditions s) (cst_conditionGroup s)))
    <$> steps).

Definition attachSequenceSaveFields (steps : list compiledStep) : list compiledStep :=
  imap (λ i s,
      MkCompiledStep (cst_id s) (cst_behavior s) (cst_conditions s) (cst_conditionGroup s)
        (stable_sort field_index
           (remove_dups (snd <$> filter (λ p, p.1 = i) (saved_pairs steps)))))
    steps.

(** ** Rules *)

Definition compile_step (strategy : string) (content : ContentSnapshot) (step : StepSpec) : compiledStep :=
  {| cst_id := TrimSpace (st_ID step);
     cst_behavior := NormalizeBehavior (st_Behavior step);
     cst_conditions := compileConditions strategy (st_Conditions step) content;
     cst_conditionGroup := compileConditionNode strategy (st_ConditionGroup step) content;
     cst_saveFields := [] |}.

(** [None] is the zero [compiledRule{}], whose kind 0 both callers skip. *)
Definition compileRule (strategy : string) (rule : effectiveRule) (content : ContentSnapshot) : option compiledRule :=
  let spec := er_spec rule in
  if bool_decide (runtimeType rule = "expr") then
    Some {| cru_rule := rule;
            cru_kind := compiledRuleExpr;
            cru_expr :=
              {| ce_conditions := compileConditions strategy (ex_Conditions (r_Expr spec)) content;
                 ce_conditionGroup := compileConditionNode strategy (ex_ConditionGroup (r_Expr spec)) content;
                 ce_suppression :=
                   {| cs_within := su_Within (r_Suppression spec);
                      cs_by := compileFields (su_By (r_Suppression spec)) |} |};
            cru_sequence := zero_sequence |}
  else if bool_decide (runtimeType rule = "sequence") then
    Some {| cru_rule := rule;
            cru_kind := compiledRuleSequence;
            cru_expr := zero_expr;
            cru_sequence :=
              {| csq_within := sq_Within (r_Sequence spec);
                 csq_by := compileFields (sq_By (r_Sequence spec));
                 csq_steps := attachSequenceSaveFields
                   (compile_step strategy content <$> sq_Steps (r_Sequence spec)) |} |}
  else None.

(** [behaviors]: the normalised names, without blanks and repetitions. *)
Fixpoint add_behaviors (seen : gset string) (names : list string) : list string :=
  match names with
  | [] => []
  | name :: names' =>
    let behavior := NormalizeBehavior name in
    if bool_decide (behavior = "") || bool_decide (behavior ∈ seen) then add_behaviors seen names'
    else behavior :: add_behaviors ({[behavior]} ∪ seen) names'
  end.

Definition behaviors (r : compiledRule) : list string :=
  match cru_kind r with
  | compiledRuleSequence => add_behaviors ∅ (cst_behavior <$> csq_steps (cru_sequence r))
  | compiledRuleExpr =>
    let spec := er_spec (cru_rule r) in
    add_behaviors ∅ (r_RequiredBehaviors spec ++ (re_Behavior <$> r_RequiredEvents spec))
  end.

(** [m[key] = append(m[key], v)] *)
Definition append_at {A} (m : gmap string (list A)) (key : string) (v : A) : gmap string (list A) :=
  <[key := default [] (m !! key) ++ [v]]> m.

Definition add_expr_rule (strategy : string) (content : ContentSnapshot) (rt : compiledRuntime)
    (rule : effectiveRule) : compiledRuntime :=
  if negb (er_enabled rule) || bool_decide (runtimeType rule ≠ "expr") then rt
  else match compileRule strategy rule content with
  | None => rt
  | Some compiled =>
    match behaviors compiled with
    | [] => MkCompiledRuntime (rt_byBehavior rt) (rt_behaviorAgnostic rt ++ [compiled])
    | bs => MkCompiledRuntime (foldl (λ m b, append_at m b compiled) (rt_byBehavior rt) bs)
              (rt_behaviorAgnostic rt)
    end
  end.

Definition compileRuntime (strategy : string) (rules : list effectiveRule) (content : ContentSnapshot) : compiledRuntime :=
  foldl (add_expr_rule strategy content) (MkCompiledRuntime ∅ []) rules.

(** The candidates after the first step, filed under their behaviours. *)
Definition add_next (rt : compiledSequenceRuntime) (candidate : compiledSequenceCandidate)
    (step : compiledStep) : compiledSequenceRuntime :=
  if bool_decide (cst_behavior step = "") then
    MkCompiledSequenceRuntime (srt_firstByBehavior rt) (srt_nextByBehavior rt)
      (srt_behaviorAgnostic rt ++ [candidate])
  else
    MkCompiledSequenceRuntime (srt_firstByBehavior rt)
      (append_at (srt_nextByBehavior rt) (cst_behavior step) candidate) (srt_behaviorAgnostic rt).

Definition add_first (rt : compiledSequenceRuntime) (compiled : compiledRule)
    (first : compiledStep) : compiledSequenceRuntime :=
  let candidate := MkCandidate compiled 0 true in
  if bool_decide (cst_behavior first = "") then
    MkCompiledSequenceRuntime (srt_firstByBehavior rt) (srt_nextByBehavior rt)
      (srt_behaviorAgnostic rt ++ [candidate])
  else
    MkCompiledSequenceRuntime (append_at (srt_firstByBehavior rt) (cst_behavior first) candidate)
      (srt_nextByBehavior rt) (srt_behaviorAgnostic rt).

Definition add_sequence_rule (strategy : string) (content : ContentSnapshot)
    (rt : compiledSequenceRuntime) (rule : effectiveRule) : compiledSequenceRuntime :=
  if negb (er_enabled rule) || bool_decide (runtimeType rule ≠ "sequence") then rt
  else match compileRule strategy rule content with
  | None => rt
  | Some compiled =>
    match csq_steps (cru_sequence compiled) with
    | [] => rt
    | first :: rest =>
      foldl (λ rt '(i, step), add_next rt (MkCandidate compiled (S i) false) step)
        (add_first rt compiled first) (imap pair rest)
    end
  end.

Definition compileSequenceRuntime (strategy : string) (rules : list effectiveRule)
    (content : ContentSnapshot) : compiledSequenceRuntime :=
  foldl (add_sequence_rule strategy content) (MkCompiledSequenceRuntime ∅ ∅ []) rules.

Definition compileFactBehaviors (fact : FactSpec) : gset string :=
  let behaviors := fa_Events fact ++
    (if bool_decide (TrimSpace (fa_Event fact) ≠ "") then [fa_Event fact] else []) in
  list_to_set (filter (λ b, b ≠ "") (NormalizeBehavior <$> behaviors)).

Definition compileCorrelateRule (strategy : string) (rule : effectiveRule) (content : ContentSnapshot) : compiledCorrelateRule :=
  let spec := r_Correlate (er_spec rule) in
  {| ccr_rule := rule;
     ccr_within := co_Within spec;
     ccr_by := compileFields (co_By spec);
     ccr_facts := (λ fact,
       {| cf_id := TrimSpace (fa_ID fact);
          cf_behaviors := compileFactBehaviors fact;
          cf_conditions := compileConditions strategy (fa_Conditions fact) content;
          cf_conditionGroup := compileConditionNode strategy (fa_ConditionGroup fact) content |})
       <$> co_Facts spec |}.

(** The order of the behaviours of one rule does not matter: each goes under
    its own key. *)
Definition compileCorrelateRuntime (strategy : string) (rules : list effectiveRule)
    (content : ContentSnapshot) : compiledCorrelateRuntime :=
  MkCompiledCorrelateRuntime
    (foldl (λ m rule,
        if negb (er_enabled rule) || bool_decide (runtimeType rule ≠ "correlate") then m
        else
          let compiled := compileCorrelateRule strategy rule content in
          foldl (λ m b, append_at m b compiled) m
            (elements (⋃ (cf_behaviors <$> ccr_facts compiled))))
      ∅ rules).

(** ** Dispatch *)

Definition rulesForBehavior (rt : compiledRuntime) (behavior : string) : list compiledRule :=
  default [] (rt_byBehavior rt !! behavior) ++ rt_behaviorAgnostic rt.

Definition active_count (active : gmap string (gmap string Z)) (behavior ruleID : string) : Z :=
  default 0%Z (active !! behavior ≫= lookup ruleID).

Definition cand_id (c : compiledSequenceCandidate) : string := er_id (cru_rule (cand_rule c)).

(** The [append] to the first candidates may reuse the spare capacity of the
    table's slice, but never changes the entries the table holds. *)
Definition candidatesForBehavior (rt : compiledSequenceRuntime) (behavior : string)
    (active : gmap string (gmap string Z)) : list compiledSequenceCandidate :=
  default [] (srt_firstByBehavior rt !! behavior) ++
  filter (λ c, (0 < active_count active behavior (cand_id c))%Z)
    (default [] (srt_nextByBehavior rt !! behavior)) ++
  srt_behaviorAgnostic rt.

Definition correlateRulesForBehavior (rt : compiledCorrelateRuntime) (behavior : string) : list compiledCorrelateRule :=
  default [] (crt_byBehavior rt !! behavior).

(** ** Evaluation *)

Definition containsString (values : list string) (actual : string) : bool :=
  existsb (λ value, bool_decide (actual = value)) values.

Fixpoint firstValue (values : list string) : string :=
  match values with
  | [] => ""
  | value :: values' => if bool_decide (value ≠ "") then value else firstValue values'
  end.

Definition compareNumber (actual expected op : string) : bool :=
  match ParseFloat actual, ParseFloat expected with
  | Some a, Some b =>
    if bool_decide (op = "gt") then SFltb b a
    else if bool_decide (op = "gte") then SFleb b a
    else if bool_decide (op = "lt") then SFltb a b
    else if bool_decide (op = "lte") then SFleb a b
    else false
  | _, _ => false
  end.

Definition recordConditionResult (matched : bool) : StateM Metrics bool :=
  if matched then modify (upd_ConditionsMatched inc);; mret true else mret false.

(** The verdict of a condition; [st] is the group whose saved values
    [same_as] compares with. *)
Definition eval_condition (view : eventView) (cond : compiledCondition) (st : option cepGroupState) : bool :=
  let actual := field view (cc_field cond) in
  match cc_op cond with
  | opEq | opIn | opContains | opPrefix | opSuffix =>
    match cc_matcher cond with Some m => Matcher.Match m actual | None => false end
  | opNeq | opNotIn =>
    match cc_matcher cond with Some m => negb (Matcher.Match m actual) | None => true end
  | opSameAs =>
    match st with
    | None => false
    | Some st =>
      if bool_decide (cc_step cond = "") then false
      else match g_Values st !! cc_step cond with
      | None => false
      | Some stepValues =>
        bool_decide (actual ≠ "") &&
        bool_decide (actual = default "" (stepValues !! fieldName (cc_stepField cond)))
      end
    end
  | opExists => bool_decide (actual ≠ "")
  | opGT | opGTE | opLT | opLTE => compareNumber actual (firstValue (cc_values cond)) (opString (cc_op cond))
  | opNone => false
  end.

Definition matchCompiledCondition (view : eventView) (cond : compiledCondition)
    (st : option cepGroupState) : StateM Metrics bool :=
  modify (upd_ConditionsEvaluated inc);;
  modify (upd_FieldReads inc);;
  recordConditionResult (eval_condition view cond st).

Fixpoint matchCompiledConditions (view : eventView) (conditions : list compiledCondition)
    (st : option cepGroupState) : StateM Metrics bool :=
  match conditions with
  | [] => mret true
  | cond :: conditions' =>
    ok ← matchCompiledCondition view cond st;
    if ok : bool then matchCompiledConditions view conditions' st else mret false
  end.

(** [matchAllConditionNodes] and [matchAnyConditionNode] are the two inner loops. *)
Fixpoint match_node (view : eventView) (st : option cepGroupState)
    (node : compiledConditionNode) {struct node} : StateM Metrics bool :=
  match node with
  | MkCompiledConditionNode kind children child condition =>
    match kind with
    | conditionNodeLeaf => matchCompiledCondition view condition st
    | conditionNodeNot =>
      match child with
      | None => mret false
      | Some child => ok ← match_node view st child; mret (negb ok)
      end
    | conditionNodeAll =>
      (fix matchAll (nodes : list compiledConditionNode) : StateM Metrics bool :=
         match nodes with
         | [] => mret true
         | n :: nodes' => ok ← match_node view st n; if ok : bool then matchAll nodes' else mret false
         end) children
    | conditionNodeAny =>
      (fix matchAny (nodes : list compiledConditionNode) : StateM Metrics bool :=
         match nodes with
         | [] => mret false
         | n :: nodes' => ok ← match_node view st n; if ok : bool then mret true else matchAny nodes'
         end) children
    | conditionNodeNone => mret false
    end
  end.

Definition matchCompiledConditionNode (view : eventView) (node : option compiledConditionNode)
    (st : option cepGroupState) : StateM Metrics bool :=
  match node with
  | None => mret true
  | Some node => match_node view st node
  end.

(** The conjunction [matchCompiledConditions(..) && matchCompiledConditionNode(..)]. *)
Definition match_both (view : eventView) (conditions : list compiledCondition)
    (group : option compiledConditionNode) (st : option cepGroupState) : StateM Metrics bool :=
  ok ← matchCompiledConditions view conditions st;
  if ok : bool then matchCompiledConditionNode view group st else mret false.

Definition matchCompiledStep (view : eventView) (step : compiledStep) (st : option cepGroupState) : StateM Metrics bool :=
  if bool_decide (cst_behavior step ≠ "") && bool_decide (v_behavior view ≠ cst_behavior step)
  then mret false
  else match_both view (cst_conditions step) (cst_conditionGroup step) st.

(** ** Results without the counters *)

Fixpoint eval_node (view : eventView) (st : option cepGroupState) (node : compiledConditionNode) : bool :=
  match node with
  | MkCompiledConditionNode kind children child condition =>
    match kind with
    | conditionNodeLeaf => eval_condition view condition st
    | conditionNodeNot => match child with None => false | Some child => negb (eval_node view st child) end
    | conditionNodeAll => forallb (eval_node view st) children
    | conditionNodeAny => existsb (eval_node view st) children
    | conditionNodeNone => false
    end
  end.

Definition eval_both (view : eventView) (conditions : list compiledCondition)
    (group : option compiledConditionNode) (st : option cepGroupState) : bool :=
  forallb (λ c, eval_condition view c st) conditions &&
  from_option (eval_node view st) true group.

Definition eval_step (view : eventView) (step : compiledStep) (st : option cepGroupState) : bool :=
  (bool_decide (cst_behavior step = "") || bool_decide (v_behavior view = cst_behavior step)) &&
  eval_both view (cst_conditions step) (cst_conditionGroup step) st.

(** ** The reference conditions (by name, on the specification) *)

Definition matchCondition_op (op : string) (content : ContentSnapshot) (ev : CanonicalEvent)
    (cond : ConditionSpec) (st : option cepGroupState) : bool :=
  let actual := eventField ev (c_Field cond) in
  let values := condition_values content cond in
  if is_one_of ["eq"; "equals"] op then containsString values actual
  else if is_one_of ["neq"; "not_eq"] op then negb (containsString values actual)
  else if is_one_of ["contains"] op then
    existsb (λ value, bool_decide (value ≠ "") && Contains actual value) values
  else if is_one_of ["prefix"; "has_prefix"] op then
    existsb (λ value, bool_decide (value ≠ "") && HasPrefix actual value) values
  else if is_one_of ["suffix"; "has_suffix"] op then
    existsb (λ value, bool_decide (value ≠ "") && HasSuffix actual value) values
  else if is_one_of ["in"] op then containsString values actual
  else if is_one_of ["not_in"] op then negb (containsString values actual)
  else if is_one_of ["same_as"] op then
    match st with
    | None => false
    | Some st =>
      if bool_decide (c_Step cond = "") then false
      else match g_Values st !! c_Step cond with
      | None => false
      | Some stepValues =>
        let stepField := firstNonEmpty [c_StepField cond; c_Field cond] in
        bool_decide (actual ≠ "") && bool_decide (actual = default "" (stepValues !! stepField))
      end
    end
  else if is_one_of ["exists"] op then bool_decide (actual ≠ "")
  else if is_one_of ["gt"; "gte"; "lt"; "lte"] op then compareNumber actual (firstValue values) op
  else false.

Definition matchCondition (content : ContentSnapshot) (ev : CanonicalEvent) (cond : ConditionSpec)
    (st : option cepGroupState) : StateM Metrics bool :=
  let op := ToLower (TrimSpace (c_Op cond)) in
  let op := if bool_decide (op = "") then "eq" else op in
  modify (upd_ConditionsEvaluated inc);;
  modify (upd_FieldReads inc);;
  recordConditionResult (matchCondition_op op content ev cond st).

Fixpoint matchConditions (content : ContentSnapshot) (ev : CanonicalEvent) (conditions : list ConditionSpec)
    (st : option cepGroupState) : StateM Metrics bool :=
  match conditions with
  | [] => mret true
  | cond :: conditions' =>
    ok ← matchCondition content ev cond st;
    if ok : bool then matchConditions content ev conditions' st else mret false
  end.

Definition matchStep (content : ContentSnapshot) (ev : CanonicalEvent) (step : StepSpec)
    (st : option cepGroupState) : StateM Metrics bool :=
  if bool_decide (TrimSpace (st_Behavior step) ≠ "")
     && bool_decide (eventBehavior ev ≠ NormalizeBehavior (TrimSpace (st_Behavior step)))
  then mret false
  else matchConditions content ev (st_Conditions step) st.

(** ** Evaluation returns the pure verdict *)

Lemma matchCompiledCondition_eval view cond st m :
  (matchCompiledCondition view cond st m).1 = eval_condition view cond st.
Proof. unfold matchCompiledCondition. cbn. by destruct (eval_condition view cond st). Qed.

Lemma matchCompiledConditions_eval view conditions st m :
  (matchCompiledConditions view conditions st m).1 = forallb (λ c, eval_condition view c st) conditions.
Proof.
  revert m. induction conditions as [|c cs IH]; intros m; [done|]. cbn [matchCompiledConditions forallb].
  pose proof (matchCompiledCondition_eval view c st m) as Hc. unfold mbind, StateM_bind.
  destruct (matchCompiledCondition view c st m) as [ok m']; cbn in Hc. subst ok.
  destruct (eval_condition view c st); [apply IH|done].
Qed.

(** Induction on a compiled tree, through its children. *)
Lemma compiledConditionNode_rect' (P : compiledConditionNode → Prop) :
  (∀ kind children child condition,
     Forall P children → (∀ c, child = Some c → P c) →
     P (MkCompiledConditionNode kind children child condition)) →
  ∀ node, P node.
Proof.
  intros Hstep. fix IH 1. intros [kind children child condition]. apply Hstep.
  - induction children as [|n ns IHns]; constructor; [apply IH|exact IHns].
  - destruct child as [c|]; intros c' E; [|discriminate]. injection E as <-. apply IH.
Qed.

Lemma match_node_eval view st node m : (match_node view st node m).1 = eval_node view st node.
Proof.
  revert m. induction node as [kind children child condition Hch Hc] using compiledConditionNode_rect'.
  intros m. destruct kind; cbn [match_node eval_node]; [done| | | |apply matchCompiledCondition_eval].
  - revert m. induction Hch as [|n ns Hn Hns IH]; intros m; [done|]. cbn [forallb].
    unfold mbind, StateM_bind. specialize (Hn m).
    destruct (match_node view st n m) as [ok m']; cbn in Hn. subst ok.
    destruct (eval_node view st n); [apply IH|done].
  - revert m. induction Hch as [|n ns Hn Hns IH]; intros m; [done|]. cbn [existsb].
    unfold mbind, StateM_bind. specialize (Hn m).
    destruct (match_node view st n m) as [ok m']; cbn in Hn. subst ok.
    destruct (eval_node view st n); [done|apply IH].
  - destruct child as [c|]; [|done]. specialize (Hc c eq_refl m).
    unfold mbind, StateM_bind. destruct (match_node view st c m) as [ok m']; cbn in Hc. by subst ok.
Qed.

Lemma match_both_eval view conditions group st m :
  (match_both view conditions group st m).1 = eval_both view conditions group st.
Proof.
  unfold match_both, eval_both, mbind, StateM_bind.
  pose proof (matchCompiledConditions_eval view conditions st m) as Hc.
  destruct (matchCompiledConditions view conditions st m) as [ok m']; cbn in Hc. rewrite <- Hc.
  destruct ok; [|done]. destruct group as [node|]; [|done]. apply match_node_eval.
Qed.

Lemma matchCompiledStep_eval view step st m :
  (matchCompiledStep view step st m).1 = eval_step view step st.
Proof.
  unfold matchCompiledStep, eval_step.
  repeat case_bool_decide; cbn; try done; apply match_both_eval.
Qed.

(** ** Compiled conditions agree with the reference *)

(** The reference verdict, by operator instead of by its name. *)
Definition reference_op (op : conditionOp) (content : ContentSnapshot) (ev : CanonicalEvent)
    (cond : ConditionSpec) (st : option cepGroupState) : bool :=
  let actual := eventField ev (c_Field cond) in
  let values := condition_values content cond in
  match op with
  | opEq | opIn => containsString values actual
  | opNeq | opNotIn => negb (containsString values actual)
  | opContains => existsb (λ value, bool_decide (value ≠ "") && Contains actual value) values
  | opPrefix => existsb (λ value, bool_decide (value ≠ "") && HasPrefix actual value) values
  | opSuffix => existsb (λ value, bool_decide (value ≠ "") && HasSuffix actual value) values
  | opSameAs => matchCondition_op "same_as" content ev cond st
  | opExists => bool_decide (actual ≠ "")
  | opGT | opGTE | opLT | opLTE => compareNumber actual (firstValue values) (opString op)
  | opNone => false
  end.

Definition op_names : list string :=
  [""; "eq"; "equals"; "neq"; "not_eq"; "contains"; "prefix"; "has_prefix"; "suffix"; "has_suffix";
   "in"; "not_in"; "same_as"; "exists"; "gt"; "gte"; "lt"; "lte"].

Lemma is_one_of_false names s :
  forallb (λ n, is_one_of op_names n) names = true → s ∉ op_names → is_one_of names s = false.
Proof.
  rewrite forallb_forall. intros Hsub Hs. apply bool_decide_eq_false. intros Hin.
  apply Hs. eapply bool_decide_eq_true, Hsub. by apply list_elem_of_In.
Qed.

Lemma matchCondition_op_reference content ev cond st :
  let op := ToLower (TrimSpace (c_Op cond)) in
  matchCondition_op (if bool_decide (op = "") then "eq" else op) content ev cond st
  = reference_op (compileOp (c_Op cond)) content ev cond st.
Proof.
  cbn zeta. unfold compileOp. generalize (ToLower (TrimSpace (c_Op cond))); intros o.
  destruct (decide (o ∈ op_names)) as [Hin|Hout].
  - unfold op_names in Hin.
    repeat (apply elem_of_cons in Hin as [->|Hin]; [reflexivity|]). by apply elem_of_nil in Hin.
  - rewrite bool_decide_eq_false_2 by (intros ->; apply Hout; left).
    unfold matchCondition_op. rewrite !is_one_of_false by (exact Hout || reflexivity). done.
Qed.

(** The side conditions under which a condition means the same on both
    paths: the field is read alike, values carry no surrounding blanks and
    none is empty, and a [same_as] names its step and field canonically. *)
Record canonical (content : ContentSnapshot) (cond : ConditionSpec) : Prop := {
  can_behavior : compileField (c_Field cond) ≠ fieldBehavior;
  can_binary_name : compileField (c_Field cond) ≠ fieldProcessBinaryName;
  can_values : Forall (λ v, v ≠ "" ∧ TrimSpace v = v) (condition_values content cond);
  can_step : TrimSpace (c_Step cond) = c_Step cond;
  can_stepField : let sf := firstNonEmpty [c_StepField cond; c_Field cond] in
    fieldName (compileField sf) = sf
}.

Lemma firstValue_normalize values :
  Forall (λ v, v ≠ "" ∧ TrimSpace v = v) values →
  firstValue (normalizeConditionValues values) = firstValue values.
Proof.
  unfold normalizeConditionValues. destruct 1 as [|v vs [Hne Ht] _]; [done|]. cbn.
  rewrite Ht, !bool_decide_eq_false_2 by (done || apply not_elem_of_empty). cbn.
  by rewrite !bool_decide_eq_true_2.
Qed.

Lemma containsString_exact values actual :
  Forall (λ v, v ≠ "" ∧ TrimSpace v = v) values →
  Matcher.Match (Matcher.NewExact values) actual = containsString values actual.
Proof.
  intros HF. rewrite Matcher.NewExact_spec. apply eq_true_iff_eq. unfold containsString.
  rewrite andb_true_iff, negb_true_iff, String.eqb_neq, bool_decide_eq_true, existsb_exists.
  rewrite list.Forall_forall in HF. split.
  - intros [_ Hin]. exists actual. rewrite <- list_elem_of_In. split; [done|]. by apply bool_decide_eq_true.
  - intros (v & Hv%list_elem_of_In & ->%bool_decide_eq_true). split; [|done]. by apply HF.
Qed.

Lemma existsb_nonempty (f : string → bool) values :
  existsb (λ p, negb (p =? "")%string && f p) values =
  existsb (λ p, bool_decide (p ≠ "") && f p) values.
Proof.
  induction values as [|v vs IH]; [done|]. cbn. rewrite IH. f_equal. f_equal.
  apply eq_true_iff_eq. by rewrite negb_true_iff, String.eqb_neq, bool_decide_eq_true.
Qed.

Lemma eval_condition_reference strategy content ev cond st :
  is_Some (ev_SubjectProc ev) → canonical content cond →
  eval_condition (newEventView ev) (compile_one strategy content cond) st
  = reference_op (compileOp (c_Op cond)) content ev cond st.
Proof.
  intros Hproc [Hb Hn Hv Hs Hf]. unfold eval_condition, compile_one, reference_op.
  cbn [cc_field cc_op cc_values cc_matcher cc_step cc_stepField].
  rewrite field_eventField by done.
  destruct (compileOp (c_Op cond)); cbn [compileMatcher]; try done;
    rewrite ?containsString_exact, ?Matcher.NewContains_spec, ?Matcher.NewPrefix_spec,
      ?Matcher.NewSuffix_spec, ?existsb_nonempty, ?firstValue_normalize by done; try done.
  cbv zeta in Hf. rewrite Hs, Hf. done.
Qed.

(** C25. Compilation preserves the meaning of a condition: on an event with a
    process, a canonical condition evaluates on the compiled path to the same
    verdict and the same counters as the reference [matchCondition], under
    every matcher strategy and every group state. *)
Theorem compiled_condition_equiv (strategy : string) (content : ContentSnapshot) (ev : CanonicalEvent)
    (cond : ConditionSpec) (st : option cepGroupState) (m : Metrics) :
  is_Some (ev_SubjectProc ev) → canonical content cond →
  matchCompiledCondition (newEventView ev) (compileCondition strategy cond content) st m
  = matchCondition content ev cond st m.
Proof.
  intros Hproc Hcan. unfold matchCompiledCondition, matchCondition.
  rewrite matchCondition_op_reference. cbn -[eval_condition reference_op newEventView].
  by rewrite eval_condition_reference.
Qed.

Lemma matchConditions_reference content ev conditions st m :
  (matchConditions content ev conditions st m).1 =
  forallb (λ c, reference_op (compileOp (c_Op c)) content ev c st) conditions.
Proof.
  revert m. induction conditions as [|c cs IH]; intros m; [done|]. cbn [matchConditions forallb].
  unfold mbind, StateM_bind. unfold matchCondition. rewrite matchCondition_op_reference.
  cbn -[reference_op]. destruct (reference_op _ content ev c st); cbn; [apply IH|done].
Qed.

(** The cost order chosen at compile time does not change what a step
    accepts: a step of canonical conditions matches an event on the compiled
    path exactly when the reference [matchStep] accepts it. *)
Theorem compiled_step_equiv (strategy : string) (content : ContentSnapshot) (ev : CanonicalEvent)
    (step : StepSpec) (st : option cepGroupState) (m m' : Metrics) :
  is_Some (ev_SubjectProc ev) → Forall (canonical content) (st_Conditions step) →
  st_ConditionGroup step = None → TrimSpace (st_Behavior step) = st_Behavior step →
  (matchCompiledStep (newEventView ev) (compile_step strategy content step) st m).1
  = (matchStep content ev step st m').1.
Proof.
  intros Hproc Hcan Hgroup Htrim. rewrite matchCompiledStep_eval. unfold eval_step, matchStep, eval_both.
  cbn [compile_step cst_behavior cst_conditions cst_conditionGroup]. rewrite Hgroup, Htrim.
  cbn [compileConditionNode fmap option_fmap option_map from_option].
  replace (v_behavior (newEventView ev)) with (eventBehavior ev)
    by (unfold newEventView; by destruct (Cut _ _) as [[??]?]).
  assert (st_Behavior step = "" ↔ NormalizeBehavior (st_Behavior step) = "") as Hblank.
  { split; [intros ->; done|]. intros E. rewrite <- Htrim.
    destruct (decide (TrimSpace (st_Behavior step) = "")); [done|].
    by apply NormalizeBehavior_nonblank in E. }
  rewrite andb_true_r.
  assert (forallb (λ c, eval_condition (newEventView ev) c st)
            (compileConditions strategy (st_Conditions step) content)
          = (matchConditions content ev (st_Conditions step) st m').1) as Hconds.
  { unfold compileConditions. rewrite stable_sort_perm, matchConditions_reference.
    clear -Hproc Hcan. induction Hcan as [|c cs Hc Hcs IH]; [done|]. cbn -[reference_op].
    rewrite eval_condition_reference by done. by f_equal. }
  rewrite Hconds. repeat case_bool_decide; cbn; try done; tauto.
Qed.

(** ** A concrete event, condition and step *)

Definition sample_event (behavior binary : string) (at_ns : Z) : CanonicalEvent :=
  {| ev_Id := "ev-" +:+ behavior; ev_Seq := 1; ev_AgentId := "a"; ev_HostId := "h"; ev_MonoNs := 0;
     ev_SubjectProc := Some (MkProcessRef "p1" 7 binary ["sh"; "-c"; "id"] 0 0 true);
     ev_Object := None; ev_ParentStableId := "p0"; ev_LineageId := "lin"; ev_RawRef := "raw";
     ev_TenantId := "t"; ev_Scope := None; ev_ContainerId := ""; ev_Cgroup := "";
     ev_Namespace := ""; ev_Pod := ""; ev_OccurredAtNs := at_ns; ev_Behavior := behavior;
     ev_Labels := ∅ |}.

Definition no_content : ContentSnapshot := MkContentSnapshot ∅ ∅ [].

Definition sample_condition : ConditionSpec :=
  MkConditionSpec "process.binary" "prefix" "/bin/" ["/tmp/"] "" "" "process.binary".

Lemma sample_condition_canonical : canonical no_content sample_condition.
Proof.
  split; [by vm_compute..| |by vm_compute|by vm_compute].
  repeat (constructor; [split; [done|by vm_compute]|]). constructor.
Qed.

Lemma compiled_condition_equiv_witness :
  matchCompiledCondition (newEventView (sample_event "process.exec" "/bin/sh" 5))
    (compileCondition Matcher.StrategyOptimized sample_condition no_content) None zero_Metrics
  = matchCondition no_content (sample_event "process.exec" "/bin/sh" 5) sample_condition None zero_Metrics
  ∧ (matchCondition no_content (sample_event "process.exec" "/bin/sh" 5) sample_condition None zero_Metrics).1 = true.
Proof.
  split; [|by vm_compute].
  apply compiled_condition_equiv; [by eexists|apply sample_condition_canonical].
Defined.

Definition sample_step : StepSpec := MkStepSpec "s1" "process.exec" [sample_condition] None.

Lemma compiled_step_equiv_witness :
  (matchCompiledStep (newEventView (sample_event "process.exec" "/bin/sh" 5))
     (compile_step Matcher.StrategyLinear no_content sample_step) None zero_Metrics).1
  = (matchStep no_content (sample_event "process.exec" "/bin/sh" 5) sample_step None zero_Metrics).1.
Proof.
  apply compiled_step_equiv;
    [by eexists|constructor; [apply sample_condition_canonical|constructor]|done|by vm_compute].
Defined.

End Compiled.
