(* ===== verification/Engine.v ===== *)
(** * The detection engine ([internal/endpoint/detection/engine.go], [correlate.go])

    The engine's state as one record and every method that changes it as a
    computation of the state monad: construction from a policy, [Process]
    with its three stages (expression rules, sequences, correlations),
    suppression, the index of waiting sequences and the eviction of groups.

    A rule's groups ([cep], [correlate]) are maps from the group key; a method
    that mutates a group through its pointer writes the group back at the
    points where the source changes it.  [RangeOrder] is the order in which
    Go ranges over a map.  [wall id] is what [time.Now()] returns while rule
    [id] is evaluated, [elapsed] the duration of the call. *)

From S2P Require Import Prelude GoStrings GoFloat EventModel Policy RuleSpec Validation EventView Compiled.

Module Engine.
Import EventModel Policy RuleSpec Validation EventView Compiled.

(** ** State *)

Definition defaultMaxCEPGroups : Z := 4096.
Definition defaultMaxCEPRefs : Z := 128.
Definition maxSuppressionKeys : Z := 8192.

Record EngineLimits := MkEngineLimits {
  lim_MaxCEPGroups : Z;
  lim_MaxCEPRefs : Z
}.

Record correlateFactMatch := MkCorrelateFactMatch {
  fm_EventID : string;
  fm_Entities : list EntityRef
}.

Record correlateGroupState := MkCorrelateGroupState {
  cg_ExpiresAt : Z;
  cg_Facts : gmap string correlateFactMatch
}.

Record Engine := MkEngine {
  e_nextID : Z;
  e_rules : gmap string effectiveRule;
  e_cep : gmap string (gmap string cepGroupState);
  e_cepActive : gmap string (gmap string Z);
  e_correlate : gmap string (gmap string correlateGroupState);
  e_suppression : gmap string Z;
  e_limits : EngineLimits;
  e_metrics : Metrics;
  e_refs : ContentSnapshot;
  e_compiled : compiledRuntime;
  e_sequence : compiledSequenceRuntime;
  e_correlation : compiledCorrelateRuntime
}.

Definition upd_nextID (f : Z → Z) (e : Engine) : Engine :=
  MkEngine (f (e_nextID e)) (e_rules e) (e_cep e) (e_cepActive e) (e_correlate e)
    (e_suppression e) (e_limits e) (e_metrics e) (e_refs e) (e_compiled e) (e_sequence e)
    (e_correlation e).
Definition upd_cep (f : gmap string (gmap string cepGroupState) → gmap string (gmap string cepGroupState)) (e : Engine) : Engine :=
  MkEngine (e_nextID e) (e_rules e) (f (e_cep e)) (e_cepActive e) (e_correlate e)
    (e_suppression e) (e_limits e) (e_metrics e) (e_refs e) (e_compiled e) (e_sequence e)
    (e_correlation e).
Definition upd_cepActive (f : gmap string (gmap string Z) → gmap string (gmap string Z)) (e : Engine) : Engine :=
  MkEngine (e_nextID e) (e_rules e) (e_cep e) (f (e_cepActive e)) (e_correlate e)
    (e_suppression e) (e_limits e) (e_metrics e) (e_refs e) (e_compiled e) (e_sequence e)
    (e_correlation e).
Definition upd_correlate (f : gmap string (gmap string correlateGroupState) → gmap string (gmap string correlateGroupState)) (e : Engine) : Engine :=
  MkEngine (e_nextID e) (e_rules e) (e_cep e) (e_cepActive e) (f (e_correlate e))
    (e_suppression e) (e_limits e) (e_metrics e) (e_refs e) (e_compiled e) (e_sequence e)
    (e_correlation e).
Definition upd_suppression (f : gmap string Z → gmap string Z) (e : Engine) : Engine :=
  MkEngine (e_nextID e) (e_rules e) (e_cep e) (e_cepActive e) (e_correlate e)
    (f (e_suppression e)) (e_limits e) (e_metrics e) (e_refs e) (e_compiled e) (e_sequence e)
    (e_correlation e).
Definition upd_metrics (f : Metrics → Metrics) (e : Engine) : Engine :=
  MkEngine (e_nextID e) (e_rules e) (e_cep e) (e_cepActive e) (e_correlate e) (e_suppression e)
    (e_limits e) (f (e_metrics e)) (e_refs e) (e_compiled e) (e_sequence e) (e_correlation e).

Definition lift {A} (c : StateM Metrics A) : StateM Engine A :=
  λ e, let '(a, m) := c (e_metrics e) in (a, upd_metrics (λ _, m) e).

Definition count (f : (Z → Z) → Metrics → Metrics) (n : Z) : StateM Engine unit :=
  modify (upd_metrics (f (λ x, u64 (x + n)))).

(** ** Reports *)

Record RuleCoverage := MkRuleCoverage {
  rc_RuleID : string;
  rc_Status : string;
  rc_RequiredBehaviors : list string;
  rc_RequiredFields : list string;
  rc_MissingBehaviors : list string;
  rc_MissingFields : list string
}.

Record CoverageReport := MkCoverageReport {
  cov_Status : string;
  cov_Rules : list RuleCoverage;
  cov_Warnings : list Msg
}.

Record ApplyReport := MkApplyReport {
  rep_Status : string;
  rep_Message : string;
  rep_Details : list Msg;
  rep_RuleIDs : list string;
  rep_Warnings : list Msg;
  rep_Coverage : CoverageReport
}.

(** ** Lists without repetitions *)

Definition appendUnique (items : list string) (item : string) : list string :=
  if bool_decide (item = "") then items
  else if bool_decide (item ∈ items) then items
  else items ++ [item].

Definition appendRefs (base refs : list string) : list string := foldl appendUnique base refs.

Definition appendUniqueEntities (out values : list EntityRef) : list EntityRef :=
  foldl (λ out value, if bool_decide (value ∈ out) then out else out ++ [value]) out values.

(** ** Coverage of the rules by the collection *)

Definition process_fields : list string :=
  ["process.stable_id"; "process.id"; "process.binary"; "process.argv"; "process.uid";
   "process.pid"; "pid"; "parent.stable_id"; "parent.id"].

Definition normalized_behaviors (collection : CollectionIntent) : gset string :=
  list_to_set (NormalizeBehavior <$> ci_Behaviors collection).

Definition availableFieldsFromCapabilities (collection : CollectionIntent) : gset string :=
  let behaviors := normalized_behaviors collection ∖ {[""]} in
  foldl (λ fields cap,
      if bool_decide (behaviors ≠ ∅) && negb (bool_decide (NormalizeBehavior (cap_Behavior cap) ∈ behaviors))
      then fields
      else fields ∪ (list_to_set (cap_Fields cap) ∖ {[""]}))
    ∅ (ci_Capabilities collection).

Definition availableFieldsForCollection (collection : CollectionIntent) : gset string :=
  if bool_decide (ci_Capabilities collection ≠ []) then availableFieldsFromCapabilities collection
  else
    let base : gset string := list_to_set ["event.id"; "event.behavior"; "lineage_id"; "scope.type";
      "scope.selector"; "container.id"; "container_id"; "cgroup"] in
    let process : gset string := list_to_set process_fields in
    if bool_decide (ci_Behaviors collection = []) then
      base ∪ list_to_set ["file.path"; "object.file_path"; "socket.addr"; "object.socket_addr";
        "socket.port"; "socket"] ∪ process
    else
      let behaviors := normalized_behaviors collection in
      let has := λ names, existsb (λ b, bool_decide (b ∈ behaviors)) names in
      base ∪
      (if has [BehaviorProcessExec; BehaviorProcessFork; BehaviorProcessExit] then process else ∅) ∪
      (if has [BehaviorFileOpen; BehaviorFileRead; BehaviorFileWrite; BehaviorFileChmod]
       then process ∪ list_to_set ["file.path"; "object.file_path"] else ∅) ∪
      (if has [BehaviorNetworkConnect]
       then process ∪ list_to_set ["socket.addr"; "object.socket_addr"; "socket.port"; "socket"] else ∅).

Definition require_behavior (collected : gset string) (cov : RuleCoverage) (name : string) : RuleCoverage :=
  let behavior := NormalizeBehavior name in
  if bool_decide (behavior = "") then cov
  else MkRuleCoverage (rc_RuleID cov) (rc_Status cov)
    (appendUnique (rc_RequiredBehaviors cov) behavior) (rc_RequiredFields cov)
    (if bool_decide (behavior ∈ collected) then rc_MissingBehaviors cov
     else appendUnique (rc_MissingBehaviors cov) behavior)
    (rc_MissingFields cov).

Definition require_field (available : gset string) (behavior : string) (cov : RuleCoverage)
    (f : string) : RuleCoverage :=
  if bool_decide (f = "") then cov
  else
    let required := firstNonEmpty [NormalizeBehavior behavior; behavior; "event"] +:+ ":" +:+ f in
    MkRuleCoverage (rc_RuleID cov) (rc_Status cov) (rc_RequiredBehaviors cov)
      (appendUnique (rc_RequiredFields cov) required) (rc_MissingBehaviors cov)
      (if bool_decide (f ∈ available) then rc_MissingFields cov
       else appendUnique (rc_MissingFields cov) required).

Definition rule_coverage (collected available : gset string) (rule : effectiveRule) : RuleCoverage :=
  let cov := MkRuleCoverage (er_id rule) "covered" [] [] [] [] in
  let cov := foldl (require_behavior collected) cov (r_RequiredBehaviors (er_spec rule)) in
  let cov := foldl (λ cov req,
      foldl (require_field available (re_Behavior req))
        (require_behavior collected cov (re_Behavior req)) (re_Fields req))
    cov (r_RequiredEvents (er_spec rule)) in
  if bool_decide (rc_MissingBehaviors cov ≠ []) || bool_decide (rc_MissingFields cov ≠ [])
  then MkRuleCoverage (rc_RuleID cov) "missing_inputs" (rc_RequiredBehaviors cov)
         (rc_RequiredFields cov) (rc_MissingBehaviors cov) (rc_MissingFields cov)
  else cov.

Definition has_missing (cov : RuleCoverage) : bool := bool_decide (rc_Status cov = "missing_inputs").

Definition CheckCoverageWithContent (policy : option DetectionPolicy) (collection : CollectionIntent)
    (content : ContentSnapshot) : CoverageReport :=
  let policy := default DefaultDetectionPolicy policy in
  let collected := normalized_behaviors collection ∖ {[""]} in
  if bool_decide (collected = ∅) then MkCoverageReport "unknown" [] []
  else
    let rules := rule_coverage collected (availableFieldsForCollection collection)
                   <$> resolveRules policy content in
    let missing := filter (λ cov, has_missing cov = true) rules in
    MkCoverageReport (if bool_decide (missing = []) then "covered" else "degraded") rules
      ((λ cov, MsgMissingInputs (rc_RuleID cov) (rc_MissingBehaviors cov ++ rc_MissingFields cov)) <$> missing).

(** ** Construction *)

Definition normalizeLimits (limits : EngineLimits) : EngineLimits :=
  MkEngineLimits
    (if (lim_MaxCEPGroups limits <=? 0)%Z then defaultMaxCEPGroups else lim_MaxCEPGroups limits)
    (if (lim_MaxCEPRefs limits <=? 0)%Z then defaultMaxCEPRefs else lim_MaxCEPRefs limits).

Definition empty_engine (limits : EngineLimits) (content : ContentSnapshot)
    (rules : gmap string effectiveRule) : Engine :=
  {| e_nextID := 0; e_rules := rules; e_cep := ∅; e_cepActive := ∅; e_correlate := ∅;
     e_suppression := ∅; e_limits := limits; e_metrics := zero_Metrics; e_refs := content;
     e_compiled := MkCompiledRuntime ∅ [];
     e_sequence := MkCompiledSequenceRuntime ∅ ∅ [];
     e_correlation := MkCompiledCorrelateRuntime ∅ |}.

Definition no_coverage : CoverageReport := MkCoverageReport "" [] [].

Definition NewWithRuntimeLimits `{RangeOrder} (strategy : string) (policy : option DetectionPolicy)
    (collection : CollectionIntent) (content : ContentSnapshot) (limits : EngineLimits)
    : Engine * ApplyReport :=
  let normalized := from_option NormalizeDetectionPolicy DefaultDetectionPolicy policy in
  let limits := normalizeLimits limits in
  if bool_decide (dp_RuleSets normalized = []) then
    (empty_engine limits content ∅,
     MkApplyReport "rejected" "detection policy rejected: explicit ruleset is required"
       [MsgRulesetRequired] [] [] no_coverage)
  else if bool_decide (validateRuleSelection normalized content ≠ []) then
    (empty_engine limits content ∅,
     MkApplyReport "rejected" "detection policy rejected"
       (validateRuleSelection normalized content) [] [] no_coverage)
  else
    let rules := resolveRules normalized content in
    let table := foldl (λ m rule, <[er_id rule := rule]> m) ∅ rules in
    let ids := er_id <$> rules in
    let errs := validateEffectiveRules table ++ validateRuleSpecs rules ++ validateContentRefs rules content in
    if bool_decide (errs ≠ []) then
      (empty_engine limits content table,
       MkApplyReport "rejected" "detection policy rejected" errs ids errs no_coverage)
    else
      let coverage := CheckCoverageWithContent (Some normalized) collection content in
      let warnings := cov_Warnings coverage in
      ({| e_nextID := 0; e_rules := table; e_cep := ∅; e_cepActive := ∅; e_correlate := ∅;
          e_suppression := ∅; e_limits := limits; e_metrics := zero_Metrics; e_refs := content;
          e_compiled := compileRuntime strategy rules content;
          e_sequence := compileSequenceRuntime strategy rules content;
          e_correlation := compileCorrelateRuntime strategy rules content |},
       if bool_decide (warnings = []) then
         MkApplyReport "applied" "detection policy applied" [] ids [] coverage
       else
         MkApplyReport "degraded" "detection policy applied with missing collection inputs"
           warnings ids warnings coverage).

Definition New `{RangeOrder} (strategy : string) (policy : option DetectionPolicy) : Engine * ApplyReport :=
  NewWithRuntimeLimits strategy policy zero_CollectionIntent (MkContentSnapshot ∅ ∅ []) (MkEngineLimits 0 0).

(** ** Observation *)

Definition sum_sizes {A} (m : gmap string (gmap string A)) : Z :=
  map_fold (λ _ groups n, (Z.of_nat (size groups) + n)%Z) 0%Z m.

(** The method [Metrics()]. *)
Definition GetMetrics (e : Engine) : Metrics :=
  upd_ActiveCEPGroups (λ _, u64 (sum_sizes (e_cep e) + sum_sizes (e_correlate e))) (e_metrics e).

(** ** Signals *)

Definition riskForSeverity (severity : string) : Z :=
  let s := ToLower severity in
  if bool_decide (s = "critical") then 80
  else if bool_decide (s = "high") then 55
  else if bool_decide (s = "medium") then 35
  else if bool_decide (s = "low") then 15
  else 30.

Definition confidenceForRule (rule : effectiveRule) : Z :=
  let given := λ intent : option ResponseIntentRef,
    match intent with
    | Some i => if (0 <? rir_Confidence i)%Z then Some (rir_Confidence i) else None
    | None => None
    end in
  match given (er_intent rule) with
  | Some c => c
  | None =>
    match given (r_ResponseIntent (er_spec rule)) with
    | Some c => c
    | None =>
      let s := ToLower (er_severity rule) in
      if bool_decide (s = "critical") then 80
      else if bool_decide (s = "high") then 70
      else if bool_decide (s = "medium") then 55
      else 40
    end
  end.

(** Keys that trim to the same name overwrite each other in range order. *)
Definition cloneLabels `{RangeOrder} (labels : gmap string string) : gmap string string :=
  foldl (λ out key,
      let k := TrimSpace key in
      if bool_decide (k = "") then out
      else match labels !! key with Some value => <[k := value]> out | None => out end)
    ∅ (range_keys labels).

Definition signalContentRefs (refs : list string) (resolved : gmap string ContentRef) : list ContentRefMsg :=
  mjoin ((λ ref,
      if bool_decide (TrimSpace ref = "") then []
      else let item := default zero_ContentRef (resolved !! ref) in
           [MkContentRefMsg (cr_Ref item) (cr_Version item) (cr_Digest item)]) <$> refs).

Definition signal_id (n : Z) : string := "sig-" +:+ Sprintf_020d n.

Definition response_intent (rule : effectiveRule) (terminal : bool) : option ResponseIntentMsg :=
  if terminal || bool_decide (is_Some (er_intent rule)) then
    let intent := match er_intent rule with
                  | Some i => Some i
                  | None => r_ResponseIntent (er_spec rule)
                  end in
    match intent with
    | Some i =>
      if bool_decide (rir_Action i ≠ "")
      then Some (MkResponseIntentMsg (rir_Action i) (rir_Action i) (rir_Confidence i) (rir_Reason i))
      else None
    | None => None
    end
  else None.

(** The signal [e.signal] builds with identifier number [n]. *)
Definition build_signal `{RangeOrder} (content : ContentSnapshot) (n : Z) (ev : CanonicalEvent)
    (rule : effectiveRule) (refs : list string) (terminal : bool) (entities : list EntityRef) : Signal :=
  let spec := er_spec rule in
  let refs := appendRefs [] refs in
  let refs := match refs with [] => [ev_Id ev] | _ => refs end in
  {| sig_Id := signal_id n;
     sig_Name := er_id rule;
     sig_Where := SIGNAL_WHERE_ENDPOINT;
     sig_BaseRisk := riskForSeverity (er_severity rule);
     sig_LocalRarity := f32_one;
     sig_GlobalRarity := f32_one;
     sig_LineageId := ev_LineageId ev;
     sig_Entities := entities;
     sig_EventRefs := refs;
     sig_SignalRefs := [];
     sig_Terminal := terminal;
     sig_Evidence :=
       if terminal then
         Some (MkEvidenceBundle ("evb-" +:+ signal_id n) refs [ev_RawRef ev] entities
           ("rule=" +:+ er_id rule +:+ " version=" +:+ FormatUint (r_Version spec) +:+
            " ruleset=" +:+ r_RuleSetRef spec +:+ " severity=" +:+ er_severity rule))
       else None;
     sig_CrossLineage := false;
     sig_ResponseIntent := response_intent rule terminal;
     sig_RuleId := er_id rule;
     sig_RuleVersion := r_Version spec;
     sig_RulesetRef := r_RuleSetRef spec;
     sig_ContextRefs := signalContentRefs (r_ContextRefs spec) (cs_ContextRefs content);
     sig_IocRefs := signalContentRefs (r_IOCRefs spec) (cs_IOCRefs content);
     sig_Severity := er_severity rule;
     sig_Confidence := confidenceForRule rule;
     sig_Mode := er_mode rule;
     sig_Labels := cloneLabels (ev_Labels ev) |}.

Definition signal `{RangeOrder} (ev : CanonicalEvent) (rule : effectiveRule) (refs : list string)
    (terminal : bool) (entities : list EntityRef) : StateM Engine Signal :=
  modify (upd_nextID (λ n, u64 (n + 1)));;
  e ← get;
  mret (build_signal (e_refs e) (e_nextID e) ev rule refs terminal entities).

(** ** Suppression *)

(** [for len(m) >= max { for k := range m { delete(m, k); ...; break } }]:
    the keys the loop deletes, in order.  Each turn removes one key, so the
    size of the map is enough fuel. *)
Fixpoint evicted `{RangeOrder} {A} (fuel : nat) (max : Z) (m : gmap string A) : list string :=
  if (Z.of_nat (size m) <? max)%Z then []
  else match fuel, range_keys m with
  | S fuel, key :: _ => key :: evicted fuel max (delete key m)
  | _, _ => []
  end.

Definition delete_all {A} (keys : list string) (m : gmap string A) : gmap string A :=
  foldl (λ m key, delete key m) m keys.

Definition suppressSignal `{RangeOrder} (key : string) (now window : Z) : StateM Engine bool :=
  if bool_decide (key = "") || (window <=? 0)%Z then mret false
  else
    suppression ← gets e_suppression;
    if match suppression !! key with Some expiresAt => (now <? expiresAt)%Z | None => false end
    then mret true
    else
      let live := if (maxSuppressionKeys <=? Z.of_nat (size suppression))%Z
                  then filter (λ p, (now < p.2)%Z) suppression else suppression in
      let gone := evicted (size live) maxSuppressionKeys live in
      count upd_SuppressionEvictions (Z.of_nat (length gone));;
      modify (upd_suppression (λ _, <[key := (now + window)%Z]> (delete_all gone live)));;
      mret false.

(** The key of a suppression window or of a group. *)
Definition key_part (view : eventView) (f : fieldID) : string := fieldName f +:+ "=" +:+ field view f.

Definition suppressCompiledRule `{RangeOrder} (wall : string → Z) (view : eventView)
    (rule : compiledRule) : StateM Engine bool :=
  let suppression := ce_suppression (cru_expr rule) in
  if (cs_within suppression <=? 0)%Z || bool_decide (cs_by suppression = []) then mret false
  else
    count upd_FieldReads (Z.of_nat (length (cs_by suppression)));;
    suppressSignal
      (Join (("rule=" +:+ er_id (cru_rule rule)) :: (key_part view <$> cs_by suppression)) "|")
      (eventWallTime (wall (er_id (cru_rule rule))) (v_ev view)) (cs_within suppression).

Definition compiledSequenceGroupKey (view : eventView) (fields : list fieldID) : StateM Engine string :=
  let fields := match fields with [] => [fieldLineageID] | _ => fields end in
  count upd_FieldReads (Z.of_nat (length fields));;
  mret (Join (key_part view <$> fields) "|").

(** ** The index of waiting sequences *)

Definition activate (ruleID behavior : string) (active : gmap string (gmap string Z)) : gmap string (gmap string Z) :=
  if bool_decide (ruleID = "") then active
  else
    let rules := default ∅ (active !! behavior) in
    <[behavior := <[ruleID := (default 0 (rules !! ruleID) + 1)%Z]> rules]> active.

Definition deactivate (ruleID behavior : string) (active : gmap string (gmap string Z)) : gmap string (gmap string Z) :=
  if bool_decide (ruleID = "") then active
  else match active !! behavior with
  | None => active
  | Some rules =>
    let n := default 0%Z (rules !! ruleID) in
    if (n <=? 1)%Z then
      if bool_decide (delete ruleID rules = ∅) then delete behavior active
      else <[behavior := delete ruleID rules]> active
    else <[behavior := <[ruleID := (n - 1)%Z]> rules]> active
  end.

Definition activateSequenceWait (ruleID behavior : string) : StateM Engine unit :=
  modify (upd_cepActive (activate ruleID behavior)).

Definition deactivateSequenceWait (ruleID behavior : string) : StateM Engine unit :=
  modify (upd_cepActive (deactivate ruleID behavior)).

(** ** Groups of a sequence rule *)

Definition groups_of (e : Engine) (ruleID : string) : gmap string cepGroupState :=
  default ∅ (e_cep e !! ruleID).

Definition put_group (ruleID key : string) (st : cepGroupState) : StateM Engine unit :=
  modify (λ e, upd_cep (insert ruleID (<[key := st]> (groups_of e ruleID))) e).

Definition delete_group (ruleID key : string) : StateM Engine unit :=
  modify (λ e, upd_cep (insert ruleID (delete key (groups_of e ruleID))) e).

Definition expired (expiresAt now : Z) : bool := (0 <? expiresAt)%Z && (expiresAt <? now)%Z.

(** One turn of the loop that drops expired groups. *)
Definition expire_group (ruleID : string) (now : Z) (key : string) : StateM Engine unit :=
  groups ← gets (λ e, groups_of e ruleID);
  match groups !! key with
  | Some group =>
    if expired (g_ExpiresAt group) now then
      deactivateSequenceWait ruleID (g_WaitingBehavior group);;
      delete_group ruleID key;;
      count upd_ExpiredCEPGroups 1
    else mret tt
  | None => mret tt
  end.

(** One turn of the loop that evicts. *)
Definition evict_group (ruleID key : string) : StateM Engine unit :=
  groups ← gets (λ e, groups_of e ruleID);
  match groups !! key with
  | Some group =>
    deactivateSequenceWait ruleID (g_WaitingBehavior group);;
    delete_group ruleID key;;
    count upd_EvictedCEPGroups 1
  | None => mret tt
  end.

Definition evictCEPGroups `{RangeOrder} (ruleID : string) (now : Z) : StateM Engine unit :=
  e ← get;
  if (Z.of_nat (size (groups_of e ruleID)) <? lim_MaxCEPGroups (e_limits e))%Z then mret tt
  else
    forM_ (expire_group ruleID now) (range_keys (groups_of e ruleID));;
    e' ← get;
    let groups := groups_of e' ruleID in
    forM_ (evict_group ruleID) (evicted (size groups) (lim_MaxCEPGroups (e_limits e')) groups).

(** ** Sequences *)

(** [st.StepIndex = 0; st.Refs = nil; ...]: all but the expiry is cleared. *)
Definition reset_group (st : cepGroupState) : cepGroupState :=
  MkCepGroupState 0 [] [] ∅ (g_ExpiresAt st) "".

(** Keeping the last [max] references, and counting the dropped ones. *)
Definition cap_refs (max : Z) (refs : list string) : list string :=
  if (max <? Z.of_nat (length refs))%Z then drop (length refs - Z.to_nat max) refs else refs.

(** The group after its current step has matched, before it waits for the next. *)
Definition advance_group (max : Z) (view : eventView) (seq : compiledSequence) (step : compiledStep)
    (st : cepGroupState) : cepGroupState :=
  let saved := eventFieldMapFromView view (cst_saveFields step) in
  {| g_StepIndex := S (g_StepIndex st);
     g_Refs := cap_refs max (appendUnique (g_Refs st) (v_eventID view));
     g_Entities := appendUniqueEntities (g_Entities st) (eventEntities (v_ev view));
     g_Values := if bool_decide (saved = ∅) then g_Values st else <[cst_id step := saved]> (g_Values st);
     g_ExpiresAt := if bool_decide (g_StepIndex st = 0%nat) && (0 <? csq_within seq)%Z
                    then u64 (eventTime view + u64 (csq_within seq)) else g_ExpiresAt st;
     g_WaitingBehavior := g_WaitingBehavior st |}.

Definition set_waiting (b : string) (st : cepGroupState) : cepGroupState :=
  MkCepGroupState (g_StepIndex st) (g_Refs st) (g_Entities st) (g_Values st) (g_ExpiresAt st) b.

(** From [step := seq.steps[st.StepIndex]] to the end, for the group [st]
    stored under [key]. *)
Definition sequence_step `{RangeOrder} (view : eventView) (rule : compiledRule) (key : string)
    (st : cepGroupState) : StateM Engine (option Signal) :=
  let rid := er_id (cru_rule rule) in
  let seq := cru_sequence rule in
  match csq_steps seq !! g_StepIndex st with
  | None => mret None
  | Some step =>
    ok ← lift (matchCompiledStep view step (Some st));
    if ok : bool then
      max ← gets (λ e, lim_MaxCEPRefs (e_limits e));
      let refs := appendUnique (g_Refs st) (v_eventID view) in
      count upd_DroppedEventRefs (Z.max 0 (Z.of_nat (length refs) - max));;
      let st' := advance_group max view seq step st in
      match csq_steps seq !! g_StepIndex st' with
      | Some next =>
        deactivateSequenceWait rid (g_WaitingBehavior st');;
        put_group rid key (set_waiting (cst_behavior next) st');;
        activateSequenceWait rid (cst_behavior next);;
        mret None
      | None =>
        deactivateSequenceWait rid (g_WaitingBehavior st');;
        delete_group rid key;;
        sig ← signal (v_ev view) (cru_rule rule) (appendRefs [] (g_Refs st'))
                (terminal (cru_rule rule) true) (g_Entities st');
        mret (Some sig)
      end
    else mret None
  end.

(** Restarting the group stored under [key]. *)
Definition restart_group (ruleID key : string) (st : cepGroupState) : StateM Engine cepGroupState :=
  deactivateSequenceWait ruleID (g_WaitingBehavior st);;
  put_group ruleID key (reset_group st);;
  mret (reset_group st).

(** The group [st] under [key], unless it has expired: then it is dropped. *)
Definition live_group (ruleID key : string) (now : Z) : StateM Engine (option cepGroupState) :=
  groups ← gets (λ e, groups_of e ruleID);
  match groups !! key with
  | Some st =>
    if expired (g_ExpiresAt st) now then
      deactivateSequenceWait ruleID (g_WaitingBehavior st);;
      delete_group ruleID key;;
      count upd_ExpiredCEPGroups 1;;
      mret None
    else mret (Some st)
  | None => mret None
  end.

(** From [if st == nil] on: allocate the group, restart a finished one, step. *)
Definition enter_group `{RangeOrder} (view : eventView) (rule : compiledRule) (key : string)
    (st : option cepGroupState) : StateM Engine (option Signal) :=
  let rid := er_id (cru_rule rule) in
  st ← (match st with
        | Some st => mret st
        | None =>
          evictCEPGroups rid (eventTime view);;
          put_group rid key new_group;;
          mret new_group
        end);
  st ← (if (length (csq_steps (cru_sequence rule)) <=? g_StepIndex st)%nat
        then restart_group rid key st else mret st);
  sequence_step view rule key st.

(** From [if !candidate.firstStep] on, for the live group [st] of [key]. *)
Definition resume_candidate `{RangeOrder} (view : eventView) (candidate : compiledSequenceCandidate)
    (first : compiledStep) (key : string) (st : option cepGroupState) : StateM Engine (option Signal) :=
  let rule := cand_rule candidate in
  if negb (cand_firstStep candidate) then
    match st with
    | Some g =>
      if bool_decide (g_StepIndex g = cand_stepIndex candidate)
      then enter_group view rule key st else mret None
    | None => mret None
    end
  else
    match st with
    | Some g =>
      if (0 <? g_StepIndex g)%nat then
        ok ← lift (matchCompiledStep view first (Some new_group));
        if ok : bool then
          g' ← restart_group (er_id (cru_rule rule)) key g;
          enter_group view rule key (Some g')
        else mret None
      else enter_group view rule key st
    | None => enter_group view rule key None
    end.

Definition detectSequenceCandidate `{RangeOrder} (view : eventView)
    (candidate : compiledSequenceCandidate) : StateM Engine (option Signal) :=
  let rule := cand_rule candidate in
  let rid := er_id (cru_rule rule) in
  match csq_steps (cru_sequence rule) with
  | [] => mret None
  | first :: _ =>
    modify (λ e, upd_cep (insert rid (groups_of e rid)) e);;
    key ← compiledSequenceGroupKey view (csq_by (cru_sequence rule));
    st ← live_group rid key (eventTime view);
    resume_candidate view candidate first key st
  end.

(** ** Correlations *)

Definition facts_of (e : Engine) (ruleID : string) : gmap string correlateGroupState :=
  default ∅ (e_correlate e !! ruleID).

Definition put_facts (ruleID : string) (groups : gmap string correlateGroupState) : StateM Engine unit :=
  modify (upd_correlate (insert ruleID groups)).

Definition evictCorrelateGroups `{RangeOrder} (ruleID : string) (now : Z) : StateM Engine unit :=
  e ← get;
  let groups := facts_of e ruleID in
  let max := lim_MaxCEPGroups (e_limits e) in
  if (Z.of_nat (size groups) <? max)%Z then mret tt
  else
    let live := filter (λ p, expired (cg_ExpiresAt p.2) now = false) groups in
    count upd_ExpiredCEPGroups (Z.of_nat (size groups) - Z.of_nat (size live));;
    let gone := evicted (size live) max live in
    count upd_EvictedCEPGroups (Z.of_nat (length gone));;
    put_facts ruleID (delete_all gone live).

Fixpoint matchCorrelateFacts (view : eventView) (facts : list compiledFact) : StateM Engine (list compiledFact) :=
  match facts with
  | [] => mret []
  | fact :: facts' =>
    ok ← (if bool_decide (v_behavior view ∈ cf_behaviors fact)
          then lift (match_both view (cf_conditions fact) (cf_conditionGroup fact) None)
          else mret false);
    out ← matchCorrelateFacts view facts';
    mret (if ok : bool then fact :: out else out)
  end.

Definition fact_match (group : correlateGroupState) (fact : compiledFact) : correlateFactMatch :=
  default (MkCorrelateFactMatch "" []) (cg_Facts group !! cf_id fact).

Definition correlateEvidence (group : correlateGroupState) (facts : list compiledFact)
    : StateM Engine (list string * list EntityRef) :=
  let refs := foldl (λ refs fact, appendUnique refs (fm_EventID (fact_match group fact))) [] facts in
  let entities := foldl (λ es fact, appendUniqueEntities es (fm_Entities (fact_match group fact))) [] facts in
  max ← gets (λ e, lim_MaxCEPRefs (e_limits e));
  count upd_DroppedEventRefs (Z.max 0 (Z.of_nat (length refs) - max));;
  mret (cap_refs max refs, entities).

Definition record_facts (view : eventView) (matched : list compiledFact)
    (group : correlateGroupState) : correlateGroupState :=
  MkCorrelateGroupState (cg_ExpiresAt group)
    (foldl (λ m fact, <[cf_id fact := MkCorrelateFactMatch (v_eventID view) (eventEntities (v_ev view))]> m)
       (cg_Facts group) matched).

(** The group of [key], unless it has expired: then it is dropped. *)
Definition live_facts (rid key : string) (now : Z) : StateM Engine (option correlateGroupState) :=
  e ← get;
  match facts_of e rid !! key with
  | Some g =>
    if expired (cg_ExpiresAt g) now then
      put_facts rid (delete key (facts_of e rid));;
      count upd_ExpiredCEPGroups 1;;
      mret None
    else mret (Some g)
  | None => mret None
  end.

(** The group to record in: the live one, or a fresh one after eviction. *)
Definition target_group `{RangeOrder} (rid : string) (now within : Z)
    (group : option correlateGroupState) : StateM Engine correlateGroupState :=
  match group with
  | Some g => mret g
  | None =>
    evictCorrelateGroups rid now;;
    mret (MkCorrelateGroupState (u64 (now + u64 within)) ∅)
  end.

(** Storing the group with its new facts, and reporting it if complete. *)
Definition report_group `{RangeOrder} (view : eventView) (rule : compiledCorrelateRule) (key : string)
    (group : correlateGroupState) : StateM Engine (option Signal) :=
  let rid := er_id (ccr_rule rule) in
  e ← get;
  put_facts rid (<[key := group]> (facts_of e rid));;
  if (size (cg_Facts group) <? length (ccr_facts rule))%nat then mret None
  else
    ev ← correlateEvidence group (ccr_facts rule);
    e ← get;
    put_facts rid (delete key (facts_of e rid));;
    sig ← signal (v_ev view) (ccr_rule rule) ev.1 (terminal (ccr_rule rule) false) ev.2;
    mret (Some sig).

Definition detectCorrelateRule `{RangeOrder} (view : eventView) (rule : compiledCorrelateRule)
    : StateM Engine (option Signal) :=
  let rid := er_id (ccr_rule rule) in
  let now := eventTime view in
  modify (λ e, upd_correlate (insert rid (facts_of e rid)) e);;
  key ← compiledSequenceGroupKey view (ccr_by rule);
  group ← live_facts rid key now;
  matched ← matchCorrelateFacts view (ccr_facts rule);
  if bool_decide (matched = []) then mret None
  else
    group ← target_group rid now (ccr_within rule) group;
    report_group view rule key (record_facts view matched group).

(** ** The three stages, and [Process] *)

Definition option_list {A} (o : option A) : list A := match o with Some x => [x] | None => [] end.

Definition run_expr_rule `{RangeOrder} (wall : string → Z) (view : eventView)
    (rule : compiledRule) : StateM Engine (list Signal) :=
  count upd_CEPRulesScanned 1;;
  if negb (er_enabled (cru_rule rule)) then mret []
  else
    count upd_CEPRulesEvaluated 1;;
    match cru_kind rule with
    | compiledRuleExpr =>
      ok ← lift (match_both view (ce_conditions (cru_expr rule)) (ce_conditionGroup (cru_expr rule)) None);
      if ok : bool then
        suppressed ← suppressCompiledRule wall view rule;
        if suppressed : bool then mret []
        else
          sig ← signal (v_ev view) (cru_rule rule) [v_eventID view]
                  (terminal (cru_rule rule) false) (eventEntities (v_ev view));
          mret [sig]
      else mret []
    | compiledRuleSequence => mret []
    end.

Definition run_candidate `{RangeOrder} (view : eventView) (candidate : compiledSequenceCandidate)
    : StateM Engine (list Signal) :=
  count upd_CEPRulesScanned 1;;
  if negb (er_enabled (cru_rule (cand_rule candidate))) then mret []
  else
    count upd_CEPRulesEvaluated 1;;
    sig ← detectSequenceCandidate view candidate;
    mret (option_list sig).

Definition run_correlate `{RangeOrder} (view : eventView) (rule : compiledCorrelateRule)
    : StateM Engine (list Signal) :=
  count upd_CEPRulesScanned 1;;
  count upd_CEPRulesEvaluated 1;;
  sig ← detectCorrelateRule view rule;
  mret (option_list sig).

(** The candidates of the sequence stage are chosen before any of them runs. *)
Definition detectCEPRules `{RangeOrder} (wall : string → Z) (view : eventView) : StateM Engine (list Signal) :=
  e ← get;
  out1 ← forM_concat (run_expr_rule wall view) (rulesForBehavior (e_compiled e) (v_behavior view));
  e ← get;
  out2 ← forM_concat (run_candidate view)
           (candidatesForBehavior (e_sequence e) (v_behavior view) (e_cepActive e));
  e ← get;
  out3 ← forM_concat (run_correlate view)
           (correlateRulesForBehavior (e_correlation e) (v_behavior view));
  mret (out1 ++ out2 ++ out3).

(** Signals are never nil here, so [compact] keeps them all. *)
Definition compact (signals : list (option Signal)) : list Signal := omap id signals.

Definition process_event `{RangeOrder} (wall : string → Z) (elapsed : Z) (ev : CanonicalEvent)
    : StateM Engine (list Signal) :=
  let view := newEventView ev in
  count upd_EventsProcessed 1;;
  modify (upd_metrics (upd_EventsByBehavior
    (λ m, <[v_behavior view := u64 (default 0%Z (m !! v_behavior view) + 1)]> m)));;
  out ← detectCEPRules wall view;
  let out := compact (Some <$> out) in
  count upd_EmittedSignals (Z.of_nat (length out));;
  count upd_ProcessNanosTotal (u64 elapsed);;
  mret out.

Definition Process `{RangeOrder} (wall : string → Z) (elapsed : Z) (ev : option CanonicalEvent)
    : StateM Engine (list Signal) :=
  match ev with
  | Some ev =>
    match ev_SubjectProc ev with
    | Some _ => process_event wall elapsed ev
    | None => mret []
    end
  | None => mret []
  end.

End Engine.
