(* ===== verification/EngineLogic.v ===== *)
(** * Reasoning about engine computations

    Hoare triples and frame rules for the state monad over [Engine], and the
    frames of every operation of [Engine]: which parts of the state it leaves
    alone.  The invariants are proved on top of these rules. *)

From S2P Require Import Prelude GoStrings GoFloat EventModel Policy RuleSpec Validation EventView Compiled Engine.

Module EngineLogic.
Import EventModel Policy RuleSpec EventView Compiled Engine.

(** ** Triples *)

Definition triple {A} (P : Engine → Prop) (c : StateM Engine A) (Q : A → Engine → Prop) : Prop :=
  ∀ e, P e → Q (c e).1 (c e).2.

Lemma triple_ret {A} (P : Engine → Prop) (x : A) (Q : A → Engine → Prop) :
  (∀ e, P e → Q x e) → triple P (mret x) Q.
Proof. intros H e He. by apply H. Qed.

Lemma triple_bind {A B} P (c : StateM Engine A) (f : A → StateM Engine B) R Q :
  triple P c R → (∀ x, triple (R x) (f x) Q) → triple P (c ≫= f) Q.
Proof.
  intros Hc Hf e He. unfold mbind, StateM_bind. specialize (Hc e He).
  destruct (c e) as [x e1]. exact (Hf x e1 Hc).
Qed.

Lemma triple_conseq {A} (P P' : Engine → Prop) (c : StateM Engine A) (Q Q' : A → Engine → Prop) :
  triple P' c Q' → (∀ e, P e → P' e) → (∀ x e, Q' x e → Q x e) → triple P c Q.
Proof. intros H HP HQ e He. apply HQ, H, HP, He. Qed.

Lemma triple_modify P f (Q : unit → Engine → Prop) :
  (∀ e, P e → Q tt (f e)) → triple P (modify f) Q.
Proof. intros H e He. by apply H. Qed.

Lemma triple_gets {A} P (f : Engine → A) (Q : A → Engine → Prop) :
  (∀ e, P e → Q (f e) e) → triple P (gets f) Q.
Proof. intros H e He. by apply H. Qed.

Lemma triple_get P (Q : Engine → Engine → Prop) :
  (∀ e, P e → Q e e) → triple P get Q.
Proof. intros H e He. by apply H. Qed.

Lemma triple_forM_ {A} (P : Engine → Prop) (f : A → StateM Engine unit) l :
  (∀ x, triple P (f x) (λ _, P)) → triple P (forM_ f l) (λ _, P).
Proof.
  intros Hf. induction l as [|x l IH]; cbn; [by apply triple_ret|].
  eapply triple_bind; [apply Hf|]. intros []. apply IH.
Qed.

Lemma triple_forM_concat {A B} (P : Engine → Prop) (Q : B → Prop) (f : A → StateM Engine (list B)) l :
  (∀ x, x ∈ l → triple P (f x) (λ out e, P e ∧ Forall Q out)) →
  triple P (forM_concat f l) (λ out e, P e ∧ Forall Q out).
Proof.
  induction l as [|x l IH]; intros Hf; cbn.
  { apply triple_ret. intros e He. split; [done|constructor]. }
  eapply triple_bind; [apply Hf; left|]. intros out e [He Ho].
  assert (triple P (forM_concat f l) (λ out e, P e ∧ Forall Q out)) as IH'
    by (apply IH; intros; apply Hf; by right).
  specialize (IH' e He). unfold mbind, StateM_bind.
  destruct (forM_concat f l e) as [rest e']. destruct IH'. split; [done|]. by apply Forall_app.
Qed.

(** ** Frames: a projection of the state that a computation leaves alone *)

Definition frame {A B} (proj : Engine → B) (c : StateM Engine A) : Prop :=
  ∀ e, proj (c e).2 = proj e.

Section frame.
Context {B : Type} (proj : Engine → B).

Lemma frame_ret {A} (x : A) : frame proj (mret x).
Proof. done. Qed.

Lemma frame_bind {A C} (c : StateM Engine A) (f : A → StateM Engine C) :
  frame proj c → (∀ x, frame proj (f x)) → frame proj (c ≫= f).
Proof.
  intros Hc Hf e. unfold mbind, StateM_bind. specialize (Hc e). destruct (c e) as [x e1].
  cbn in Hc. rewrite <- Hc. apply Hf.
Qed.

Lemma frame_modify f : (∀ e, proj (f e) = proj e) → frame proj (modify f).
Proof. intros H e. apply H. Qed.

Lemma frame_gets {A} (f : Engine → A) : frame proj (gets f).
Proof. done. Qed.

Lemma frame_get : frame proj get.
Proof. done. Qed.

Lemma frame_forM_ {A} (f : A → StateM Engine unit) l :
  (∀ x, frame proj (f x)) → frame proj (forM_ f l).
Proof. intros Hf. induction l; cbn; [apply frame_ret|by apply frame_bind]. Qed.

Lemma frame_forM_concat {A C} (f : A → StateM Engine (list C)) l :
  (∀ x, frame proj (f x)) → frame proj (forM_concat f l).
Proof.
  intros Hf. induction l; cbn; [apply frame_ret|].
  apply frame_bind; [done|]. intros ?. apply frame_bind; [done|]. intros ?. apply frame_ret.
Qed.

Lemma frame_lift {A} (c : StateM Metrics A) :
  (∀ e f, proj (upd_metrics f e) = proj e) → frame proj (lift c).
Proof. intros H e. unfold lift. destruct (c (e_metrics e)). apply H. Qed.
End frame.

(** A framed fact survives in a triple. *)
Lemma frame_triple {A B} (proj : Engine → B) (c : StateM Engine A) (P : B → Prop) :
  frame proj c → triple (λ e, P (proj e)) c (λ _ e, P (proj e)).
Proof. intros Hf e He. by rewrite Hf. Qed.

(** Decomposes a computation down to its primitive updates. *)
Ltac frame_step :=
  match goal with
  | |- frame _ (_ ≫= _) => apply frame_bind; [|intros ?]
  | |- frame _ (mret _) => apply frame_ret
  | |- frame _ (modify _) => apply frame_modify; intros ?; done
  | |- frame _ (gets _) => apply frame_gets
  | |- frame _ get => apply frame_get
  | |- frame _ (forM_ _ _) => apply frame_forM_; intros ?
  | |- frame _ (forM_concat _ _) => apply frame_forM_concat; intros ?
  | |- frame _ (lift _) => apply frame_lift; intros ??; done
  | |- frame _ (if ?b then _ else _) => destruct b
  | |- frame _ (match ?x with _ => _ end) => destruct x
  | |- frame _ (let '(_, _) := ?x in _) => destruct x
  | |- frame _ (count _ _) => apply frame_modify; intros ?; done
  end.
Ltac frame_solve := repeat (frame_step; cbv zeta).

(** ** What the operations leave alone *)

(** The compiled rules, the limits and the content never change. *)
Definition statics (e : Engine) :=
  (e_rules e, e_limits e, e_refs e, e_compiled e, e_sequence e, e_correlation e).

Definition seq_part (e : Engine) := (e_cep e, e_cepActive e).

Section frames.
Context `{RangeOrder}.

Lemma signal_frame {B} (proj : Engine → B) ev rule refs terminal entities :
  (∀ f e, proj (upd_nextID f e) = proj e) → frame proj (signal ev rule refs terminal entities).
Proof. intros Hp. unfold signal. frame_step; [apply frame_modify; intros; apply Hp|frame_solve]. Qed.

Lemma run_expr_rule_frame {B} (proj : Engine → B) wall view rule :
  (∀ f e, proj (upd_nextID f e) = proj e) → (∀ f e, proj (upd_metrics f e) = proj e) →
  (∀ f e, proj (upd_suppression f e) = proj e) → frame proj (run_expr_rule wall view rule).
Proof.
  intros H1 H2 H3. unfold run_expr_rule, suppressCompiledRule, suppressSignal.
  repeat (first [ frame_step
                | apply signal_frame; done
                | apply frame_modify; intros ?; (apply H2 || apply H3)
                | apply frame_lift; intros ??; apply H2 ]; cbv zeta).
Qed.

Lemma matchCorrelateFacts_frame {B} (proj : Engine → B) view facts :
  (∀ f e, proj (upd_metrics f e) = proj e) → frame proj (matchCorrelateFacts view facts).
Proof.
  intros H2. induction facts as [|f facts IH]; cbn; [apply frame_ret|].
  apply frame_bind; [|intros ?; apply frame_bind; [done|intros ?; apply frame_ret]].
  destruct (bool_decide _); [apply frame_lift; intros; apply H2|apply frame_ret].
Qed.

Lemma run_correlate_frame {B} (proj : Engine → B) view rule :
  (∀ f e, proj (upd_nextID f e) = proj e) → (∀ f e, proj (upd_metrics f e) = proj e) →
  (∀ f e, proj (upd_correlate f e) = proj e) → frame proj (run_correlate view rule).
Proof.
  intros H1 H2 H3. unfold run_correlate, detectCorrelateRule, live_facts, target_group, report_group, evictCorrelateGroups, put_facts,
    compiledSequenceGroupKey, correlateEvidence.
  repeat (first [ frame_step
                | apply signal_frame; done
                | apply matchCorrelateFacts_frame; done
                | apply frame_modify; intros ?; (apply H2 || apply H3)
                | apply frame_lift; intros ??; apply H2 ]; cbv zeta).
Qed.

Lemma run_candidate_frame {B} (proj : Engine → B) view candidate :
  (∀ f e, proj (upd_nextID f e) = proj e) → (∀ f e, proj (upd_metrics f e) = proj e) →
  (∀ f e, proj (upd_cep f e) = proj e) → (∀ f e, proj (upd_cepActive f e) = proj e) →
  frame proj (run_candidate view candidate).
Proof.
  intros H1 H2 H3 H4. unfold run_candidate, detectSequenceCandidate, resume_candidate, enter_group, sequence_step,
    restart_group, live_group, evictCEPGroups, expire_group, evict_group, compiledSequenceGroupKey,
    put_group, delete_group, activateSequenceWait, deactivateSequenceWait.
  repeat (first [ frame_step
                | apply signal_frame; done
                | apply frame_modify; intros ?; (apply H2 || apply H3 || apply H4)
                | apply frame_lift; intros ??; apply H2 ]; cbv zeta).
Qed.

Lemma detectCEPRules_frame {B} (proj : Engine → B) wall view :
  (∀ f e, proj (upd_nextID f e) = proj e) → (∀ f e, proj (upd_metrics f e) = proj e) →
  (∀ f e, proj (upd_cep f e) = proj e) → (∀ f e, proj (upd_cepActive f e) = proj e) →
  (∀ f e, proj (upd_correlate f e) = proj e) → (∀ f e, proj (upd_suppression f e) = proj e) →
  frame proj (detectCEPRules wall view).
Proof.
  intros. unfold detectCEPRules. frame_solve.
  - by apply run_expr_rule_frame.
  - by apply run_candidate_frame.
  - by apply run_correlate_frame.
Qed.

Lemma Process_frame {B} (proj : Engine → B) wall elapsed ev :
  (∀ f e, proj (upd_nextID f e) = proj e) → (∀ f e, proj (upd_metrics f e) = proj e) →
  (∀ f e, proj (upd_cep f e) = proj e) → (∀ f e, proj (upd_cepActive f e) = proj e) →
  (∀ f e, proj (upd_correlate f e) = proj e) → (∀ f e, proj (upd_suppression f e) = proj e) →
  frame proj (Process wall elapsed ev).
Proof.
  intros H1 H2 H3 H4 H5 H6. unfold Process, process_event.
  destruct ev as [ev|]; [|apply frame_ret]. destruct (ev_SubjectProc ev); [|apply frame_ret]. cbv zeta.
  repeat (first [ apply detectCEPRules_frame; done | apply frame_modify; intros ?; apply H2 | frame_step ]).
Qed.

(** Processing an event never changes the rules, limits or content. *)
Lemma Process_statics wall elapsed ev : frame statics (Process wall elapsed ev).
Proof. by apply Process_frame. Qed.
End frames.

End EngineLogic.
