(* ===== verification/EngineInv.v ===== *)
(** * Invariants of the sequence state

    The index of waiting sequences counts the waiting groups, every group is
    a partial match of its rule over the events seen so far, and the number
    of groups and references stays within the limits.  [run_of] is the
    abstract specification of a partial match: the events that took a group
    through its steps, one by one, with the group's key and in its window. *)

From S2P Require Import Prelude GoStrings GoFloat EventModel Policy RuleSpec Validation EventView Compiled Engine EngineLogic.

Module EngineInv.
Import EventModel Policy RuleSpec EventView Compiled Engine EngineLogic.

(** ** Counting the waiting groups *)

Definition waiting_count (groups : gmap string cepGroupState) (b : string) : nat :=
  size (filter (λ p, g_WaitingBehavior p.2 = b) groups).

Definition is_waiting (b : string) (g : option cepGroupState) : nat :=
  match g with Some g => if decide (g_WaitingBehavior g = b) then 1 else 0 | None => 0 end.

Lemma waiting_count_insert groups key g b :
  groups !! key = None →
  waiting_count (<[key := g]> groups) b = (waiting_count groups b + is_waiting b (Some g))%nat.
Proof.
  intros Hk. unfold waiting_count, is_waiting. destruct (decide _) as [Hb|Hb].
  - rewrite map_filter_insert_True by done. rewrite map_size_insert_None; [lia|].
    apply map_lookup_filter_None. auto.
  - rewrite map_filter_insert_False by done. rewrite delete_id by done. lia.
Qed.

Lemma waiting_count_lookup groups key b :
  waiting_count groups b = (waiting_count (delete key groups) b + is_waiting b (groups !! key))%nat.
Proof.
  destruct (groups !! key) as [g|] eqn:E.
  - rewrite <- (waiting_count_insert (delete key groups) key g b) by apply lookup_delete_eq.
    by rewrite insert_delete_id.
  - rewrite delete_id by done. cbn. lia.
Qed.

(** Replacing the entry of one key, by a group or by nothing. *)
Definition set_entry {A} (key : string) (new : option A) (groups : gmap string A) : gmap string A :=
  partial_alter (λ _, new) key groups.

Lemma waiting_count_set_entry groups key new b :
  (waiting_count (set_entry key new groups) b + is_waiting b (groups !! key)
   = waiting_count groups b + is_waiting b new)%nat.
Proof.
  unfold set_entry. rewrite (waiting_count_lookup groups key b).
  rewrite (waiting_count_lookup (partial_alter _ key groups) key b), lookup_partial_alter_eq.
  rewrite delete_partial_alter_eq. lia.
Qed.

(** ** The index *)

Definition index_wf (active : gmap string (gmap string Z)) : Prop :=
  active !! "" = None ∧
  ∀ b rules, active !! b = Some rules → ∀ rid n, rules !! rid = Some n → (0 < n)%Z.

Lemma active_count_pos active b rid :
  index_wf active → (0 ≤ active_count active b rid)%Z.
Proof.
  intros [_ Hpos]. unfold active_count.
  destruct (active !! b) as [rules|] eqn:Eb; cbn; [|done].
  destruct (rules !! rid) as [n|] eqn:Er; cbn; [|done]. specialize (Hpos _ _ Eb _ _ Er). lia.
Qed.

Lemma index_wf_activate rid b active : b ≠ "" → index_wf active → index_wf (activate rid b active).
Proof.
  intros Hb [H1 H2]. unfold activate. case_bool_decide; [done|]. split.
  { by rewrite lookup_insert_ne. }
  intros b' rules. destruct (decide (b = b')) as [<-|Hne].
  - rewrite lookup_insert_eq. intros [= <-] r n. destruct (decide (rid = r)) as [<-|?].
    + rewrite lookup_insert_eq. intros [= <-].
      destruct (active !! b) as [rules|] eqn:Eb; cbn; [|rewrite lookup_empty; cbn; lia].
      destruct (rules !! rid) as [m|] eqn:Em; cbn; [|lia]. specialize (H2 _ _ Eb _ _ Em). lia.
    + rewrite lookup_insert_ne by done.
      destruct (active !! b) as [rules|] eqn:Eb; cbn; [by apply (H2 b)|by rewrite lookup_empty].
  - rewrite lookup_insert_ne by done. apply H2.
Qed.

Lemma index_wf_deactivate rid b active : index_wf active → index_wf (deactivate rid b active).
Proof.
  intros [H1 H2]. unfold deactivate. case_bool_decide; [done|].
  destruct (active !! b) as [rules|] eqn:Eb; [|done]. cbv zeta.
  assert (b ≠ "") as Hb by (intros ->; congruence).
  destruct (Z.leb_spec (default 0%Z (rules !! rid)) 1).
  - case_bool_decide.
    + split; [by rewrite lookup_delete_ne|]. intros b' rs. rewrite lookup_delete_Some.
      intros [_ ?]. by eapply H2.
    + split; [by rewrite lookup_insert_ne|]. intros b' rs. rewrite lookup_insert_Some.
      intros [[<- <-]|[_ ?]]; [|by eapply H2]. intros r n. rewrite lookup_delete_Some.
      intros [_ ?]. by eapply H2.
  - split; [by rewrite lookup_insert_ne|]. intros b' rs. rewrite lookup_insert_Some.
    intros [[<- <-]|[_ ?]]; [|by eapply H2]. intros r n. rewrite lookup_insert_Some.
    intros [[<- <-]|[_ ?]]; [lia|by eapply H2].
Qed.

Lemma active_count_activate rid b active rid' b' :
  rid ≠ "" →
  active_count (activate rid b active) b' rid' =
  (active_count active b' rid' + if decide (b = b' ∧ rid = rid') then 1 else 0)%Z.
Proof.
  intros Hr. unfold activate, active_count. rewrite bool_decide_eq_false_2 by done.
  destruct (decide (b = b')) as [<-|Hne].
  - rewrite lookup_insert_eq. cbn. destruct (decide (rid = rid')) as [<-|Hne'].
    + rewrite lookup_insert_eq, decide_True by done. cbn. by destruct (active !! b).
    + rewrite lookup_insert_ne, decide_False by naive_solver.
      destruct (active !! b); cbn; [lia|]. rewrite lookup_empty. done.
  - rewrite lookup_insert_ne, decide_False by naive_solver. lia.
Qed.

Lemma active_count_deactivate rid b active rid' b' :
  index_wf active → rid ≠ "" →
  active_count (deactivate rid b active) b' rid' =
  (if decide (b = b' ∧ rid = rid') then Z.max 0 (active_count active b' rid' - 1)
   else active_count active b' rid')%Z.
Proof.
  intros [_ Hwf] Hr. unfold deactivate. rewrite bool_decide_eq_false_2 by done.
  destruct (active !! b) as [rules|] eqn:Eb.
  2:{ destruct (decide _) as [[<- <-]|]; [|done]. unfold active_count. by rewrite Eb. }
  cbv zeta. set (n := default 0%Z (rules !! rid)).
  assert (active_count active b rid = n) as En by (unfold active_count; by rewrite Eb).
  assert (0 ≤ n)%Z as Hn by (subst n; destruct (rules !! rid) eqn:Er; cbn; [specialize (Hwf _ _ Eb _ _ Er)|]; lia).
  assert (∀ rs, active_count (<[b := rs]> active) b' rid' =
    if decide (b = b') then default 0%Z (rs !! rid') else active_count active b' rid') as Hins.
  { intros rs. unfold active_count. destruct (decide (b = b')) as [<-|?];
      [by rewrite lookup_insert_eq|by rewrite lookup_insert_ne]. }
  assert (∀ r, active_count active b r = default 0%Z (rules !! r)) as Hb
    by (intros r; unfold active_count; by rewrite Eb).
  destruct (Z.leb_spec n 1); [case_bool_decide as Hd|].
  - unfold active_count at 1. destruct (decide (b = b')) as [<-|?].
    + rewrite lookup_delete_eq. cbn. destruct (decide _) as [[_ <-]|Hne]; [lia|].
      rewrite Hb. assert (rules !! rid' = None) as ->; [|done].
      rewrite <- (lookup_delete_ne rules rid rid') by naive_solver. by rewrite Hd.
    + rewrite lookup_delete_ne by done. rewrite decide_False by naive_solver. done.
  - rewrite Hins. destruct (decide (b = b')) as [<-|?]; [|by rewrite decide_False by naive_solver].
    destruct (decide _) as [[_ <-]|Hne]; [rewrite lookup_delete_eq; cbn; lia|].
    rewrite lookup_delete_ne by naive_solver. by rewrite Hb.
  - rewrite Hins. destruct (decide (b = b')) as [<-|?]; [|by rewrite decide_False by naive_solver].
    destruct (decide _) as [[_ <-]|Hne]; [rewrite lookup_insert_eq; cbn; lia|].
    rewrite lookup_insert_ne by naive_solver. by rewrite Hb.
Qed.

Lemma deactivate_blank rid active : index_wf active → deactivate rid "" active = active.
Proof. intros [H _]. unfold deactivate. rewrite H. by case_bool_decide. Qed.

(** The index counts, for every named rule and behaviour, the groups of the
    rule that wait for the behaviour. *)
Definition index_ok (groups : string → gmap string cepGroupState)
    (active : gmap string (gmap string Z)) : Prop :=
  index_wf active ∧
  ∀ rid b, rid ≠ "" → b ≠ "" → active_count active b rid = Z.of_nat (waiting_count (groups rid) b).

(** What a group waits for; nothing for an absent one. *)
Definition waits (g : option cepGroupState) : string := from_option g_WaitingBehavior "" g.

Definition activate_for (rid : string) (g : option cepGroupState) (active : gmap string (gmap string Z)) :=
  if decide (waits g = "") then active else activate rid (waits g) active.

Lemma is_waiting_waits b g : b ≠ "" → is_waiting b g = if decide (waits g = b) then 1%nat else 0%nat.
Proof. intros Hb. destruct g as [g|]; cbn; [done|]. rewrite decide_False by done. done. Qed.

(** Replacing one group, and moving its entry in the index, keeps it exact. *)
Lemma index_ok_replace groups groups' active rid key new :
  index_ok groups active →
  groups' rid = set_entry key new (groups rid) → (∀ rid', rid' ≠ rid → groups' rid' = groups rid') →
  index_ok groups' (activate_for rid new (deactivate rid (waits (groups rid !! key)) active)).
Proof.
  intros [Hwf Hcount] Hrid Hother. set (old := groups rid !! key).
  assert (index_wf (deactivate rid (waits old) active)) as Hwf' by (by apply index_wf_deactivate).
  split.
  { unfold activate_for. destruct (decide _); [done|]. by apply index_wf_activate. }
  intros r b Hr Hb. destruct (decide (r = rid)) as [->|Hne].
  - rewrite Hrid. pose proof (waiting_count_set_entry (groups rid) key new b) as Hset. fold old in Hset.
    rewrite (is_waiting_waits b old), (is_waiting_waits b new) in Hset by done.
    specialize (Hcount rid b Hr Hb).
    assert (active_count (deactivate rid (waits old) active) b rid =
      Z.of_nat (waiting_count (groups rid) b) - if decide (waits old = b) then 1 else 0)%Z as Hde.
    { rewrite active_count_deactivate by done. pose proof (waiting_count_lookup (groups rid) key b) as Hl.
      fold old in Hl. rewrite is_waiting_waits in Hl by done. destruct (decide (waits old = b)) as [Ew|Ew].
      - rewrite decide_True by done. lia.
      - rewrite decide_False by naive_solver. lia. }
    unfold activate_for. destruct (decide (waits new = "")) as [Ew|Ew].
    + rewrite Hde. rewrite (decide_False (P := waits new = b)) in Hset by congruence.
      destruct (decide (waits old = b)); lia.
    + rewrite active_count_activate by done. rewrite Hde.
      destruct (decide (waits new = b)) as [E|E].
      * rewrite (decide_True (P := waits new = b ∧ rid = rid)) by done. destruct (decide (waits old = b)); lia.
      * rewrite (decide_False (P := waits new = b ∧ rid = rid)) by naive_solver.
        destruct (decide (waits old = b)); lia.
  - rewrite Hother by done. rewrite <- Hcount by done.
    assert (∀ b', active_count (deactivate rid (waits old) active) b' r = active_count active b' r) as Hde.
    { intros b'. destruct (decide (rid = "")) as [->|?]; [unfold deactivate; by rewrite bool_decide_eq_true_2|].
      rewrite active_count_deactivate, decide_False by naive_solver. done. }
    unfold activate_for. destruct (decide _); [done|].
    destruct (decide (rid = "")) as [->|?]; [unfold activate; by rewrite bool_decide_eq_true_2|].
    rewrite active_count_activate, decide_False by naive_solver. rewrite Hde. lia.
Qed.

(** ** Partial matches *)

(** The key [compiledSequenceGroupKey] computes. *)
Definition group_key (view : eventView) (fields : list fieldID) : string :=
  Join (key_part view <$> match fields with [] => [fieldLineageID] | _ => fields end) "|".

(** [run_of max seq key evs g]: the events [evs], in order, took a fresh
    group with this key through its first steps and left it as [g].  Every
    event has the group's key, satisfies the step it advances against the
    values saved so far, and arrives before the group expires. *)
Inductive run_of (max : Z) (seq : compiledSequence) (key : string)
  : list CanonicalEvent → cepGroupState → Prop :=
| run_start expiresAt :
    run_of max seq key [] (MkCepGroupState 0 [] [] ∅ expiresAt "")
| run_step evs g ev step b :
    run_of max seq key evs g →
    csq_steps seq !! g_StepIndex g = Some step →
    group_key (newEventView ev) (csq_by seq) = key →
    expired (g_ExpiresAt g) (eventTime (newEventView ev)) = false →
    eval_step (newEventView ev) step (Some g) = true →
    run_of max seq key (evs ++ [ev]) (set_waiting b (advance_group max (newEventView ev) seq step g)).

Lemma run_of_length max seq key evs g : run_of max seq key evs g → length evs = g_StepIndex g.
Proof. induction 1; [done|]. rewrite length_app. cbn. lia. Qed.

(** [evs] happened in this order within [hist]; an event may count twice. *)
Definition happened (hist evs : list CanonicalEvent) : Prop :=
  ∃ idx : list nat, Forall2 (λ i ev, hist !! i = Some ev) idx evs ∧
    ∀ a b i j, (a ≤ b)%nat → idx !! a = Some i → idx !! b = Some j → (i ≤ j)%nat.

Lemma happened_nil hist : happened hist [].
Proof. exists []. split; [constructor|]. intros a b i j _ Ha. by rewrite lookup_nil in Ha. Qed.

Lemma happened_app hist ev evs : happened hist evs → happened (hist ++ [ev]) evs.
Proof.
  intros (idx & HF & Hs). exists idx. split; [|done].
  revert HF. apply Forall2_impl. intros i x Hi. by apply lookup_app_l_Some.
Qed.

Lemma happened_snoc hist ev evs : happened (hist ++ [ev]) evs → happened (hist ++ [ev]) (evs ++ [ev]).
Proof.
  intros (idx & HF & Hs). exists (idx ++ [length hist]). split.
  - apply Forall2_app; [done|]. constructor; [|constructor].
    rewrite lookup_app_r by lia. by rewrite Nat.sub_diag.
  - assert (∀ a i, idx !! a = Some i → (i ≤ length hist)%nat) as Hle.
    { intros a i Ha. destruct (Forall2_lookup_l _ _ _ _ _ HF Ha) as (x & _ & Hx).
      apply lookup_lt_Some in Hx. rewrite length_app in Hx. cbn in Hx. lia. }
    intros a b i j Hab Ha Hb. apply lookup_app_Some in Hb as [Hb|[Hlb Hb]].
    + rewrite lookup_app_l in Ha by (apply lookup_lt_Some in Hb; lia). by eapply Hs.
    + apply list_lookup_singleton_Some in Hb as [_ <-].
      apply lookup_app_Some in Ha as [Ha|[_ Ha]]; [by eapply Hle|].
      by apply list_lookup_singleton_Some in Ha as [_ <-].
Qed.

(** ** The invariant *)

Section inv.
Context (seq_of : string → compiledSequence) (lim : EngineLimits).
Context (lim_groups : (0 < lim_MaxCEPGroups lim)%Z) (lim_refs : (0 < lim_MaxCEPRefs lim)%Z).
Context (behaviors_ok : ∀ rid step, step ∈ csq_steps (seq_of rid) → cst_behavior step ≠ "").

(** A group at step 0 waits for nothing, a later one for its step's behaviour. *)
Definition waits_for_step (rid : string) (g : cepGroupState) : Prop :=
  match g_StepIndex g with
  | O => g_WaitingBehavior g = ""
  | S _ => ∃ step, csq_steps (seq_of rid) !! g_StepIndex g = Some step ∧
                   g_WaitingBehavior g = cst_behavior step
  end.

Record group_ok (hist : list CanonicalEvent) (rid key : string) (g : cepGroupState) : Prop := {
  go_waits : waits_for_step rid g;
  go_refs : (Z.of_nat (length (g_Refs g)) ≤ lim_MaxCEPRefs lim)%Z;
  go_run : ∃ evs, run_of (lim_MaxCEPRefs lim) (seq_of rid) key evs g ∧ happened hist evs
}.

Record inv (hist : list CanonicalEvent) (e : Engine) : Prop := {
  inv_lim : e_limits e = lim;
  inv_size : ∀ rid, (Z.of_nat (size (groups_of e rid)) ≤ lim_MaxCEPGroups lim)%Z;
  inv_group : ∀ rid key g, groups_of e rid !! key = Some g → group_ok hist rid key g;
  inv_index : index_ok (groups_of e) (e_cepActive e)
}.

Lemma inv_happened hist ev e : inv hist e → inv (hist ++ [ev]) e.
Proof.
  intros [H1 H2 H3 H4]. split; [done|done| |done]. intros rid key g Hg.
  destruct (H3 _ _ _ Hg) as [? ? (evs & ? & ?)]. split; [done|done|].
  exists evs. split; [done|]. by apply happened_app.
Qed.

(** The invariant only reads the limits, the groups and the index. *)
Lemma inv_groups_ext hist e e' :
  e_limits e' = e_limits e → (∀ rid, groups_of e' rid = groups_of e rid) →
  e_cepActive e' = e_cepActive e → inv hist e → inv hist e'.
Proof.
  intros E1 Hg E3 [H1 H2 H3 H4].
  split; [congruence|intros; by rewrite Hg|intros rid key g; rewrite Hg; apply H3|].
  destruct H4 as [Hw Hc]. rewrite E3. split; [done|]. intros. rewrite Hg. by apply Hc.
Qed.

Lemma inv_ext hist e e' :
  e_limits e' = e_limits e → e_cep e' = e_cep e → e_cepActive e' = e_cepActive e →
  inv hist e → inv hist e'.
Proof. intros ? E ?. apply inv_groups_ext; [done| |done]. intros; unfold groups_of; by rewrite E. Qed.

Lemma inv_replace hist e e' rid key new :
  inv hist e → e_limits e' = e_limits e →
  groups_of e' rid = set_entry key new (groups_of e rid) →
  (∀ rid', rid' ≠ rid → groups_of e' rid' = groups_of e rid') →
  e_cepActive e' = activate_for rid new (deactivate rid (waits (groups_of e rid !! key)) (e_cepActive e)) →
  (∀ g, new = Some g → group_ok hist rid key g) →
  (Z.of_nat (size (groups_of e' rid)) ≤ lim_MaxCEPGroups lim)%Z →
  inv hist e'.
Proof.
  intros [H1 H2 H3 H4] El Er Eo Ea Hnew Hsize. split; [congruence| | |].
  - intros rid'. destruct (decide (rid' = rid)) as [->|Hne]; [done|]. by rewrite Eo.
  - intros rid' key' g. destruct (decide (rid' = rid)) as [->|Hne]; [|rewrite Eo by done; apply H3].
    rewrite Er. unfold set_entry. destruct (decide (key' = key)) as [->|Hk].
    + rewrite lookup_partial_alter_eq. apply Hnew.
    + rewrite lookup_partial_alter_ne by done. apply H3.
  - rewrite Ea. by apply index_ok_replace.
Qed.

Lemma groups_of_insert rid groups e rid' :
  groups_of (upd_cep (insert rid groups) e) rid' = if decide (rid' = rid) then groups else groups_of e rid'.
Proof.
  unfold groups_of. cbn. destruct (decide (rid' = rid)) as [->|Hne];
    [by rewrite lookup_insert_eq|by rewrite lookup_insert_ne].
Qed.

Lemma groups_of_insert_eq rid groups e : groups_of (upd_cep (insert rid groups) e) rid = groups.
Proof. by rewrite groups_of_insert, decide_True. Qed.
Lemma groups_of_insert_ne rid groups e rid' :
  rid' ≠ rid → groups_of (upd_cep (insert rid groups) e) rid' = groups_of e rid'.
Proof. intros. by rewrite groups_of_insert, decide_False. Qed.

(** Dropping a group with its entry in the index. *)
Definition dropped (rid key : string) (g : cepGroupState) (e : Engine) : Engine :=
  (delete_group rid key (deactivateSequenceWait rid (g_WaitingBehavior g) e).2).2.

Lemma groups_of_dropped rid key g e rid' :
  groups_of (dropped rid key g e) rid' =
  if decide (rid' = rid) then delete key (groups_of e rid) else groups_of e rid'.
Proof. unfold dropped. cbn -[groups_of]. rewrite groups_of_insert. by destruct (decide _). Qed.

Lemma inv_dropped hist rid key g e :
  groups_of e rid !! key = Some g → inv hist e → inv hist (dropped rid key g e).
Proof.
  intros Hg Hinv. apply (inv_replace hist e _ rid key None); [done|done| | | |done|].
  - by rewrite groups_of_dropped, decide_True.
  - intros. by rewrite groups_of_dropped, decide_False.
  - rewrite Hg. done.
  - rewrite groups_of_dropped, decide_True by done.
    pose proof (inv_size _ _ Hinv rid). rewrite map_size_delete, Hg. lia.
Qed.

(** ** Eviction *)

Lemma groups_of_metrics f e rid : groups_of (upd_metrics f e) rid = groups_of e rid.
Proof. done. Qed.

Lemma inv_metrics hist f e : inv hist e → inv hist (upd_metrics f e).
Proof. by apply inv_ext. Qed.

(** Dropping the key [k] of the rule, if present, and counting it. *)
Lemma drop_spec hist rid k (P : cepGroupState → bool) f e :
  inv hist e →
  let e' := match groups_of e rid !! k with
            | Some g => if P g then upd_metrics f (dropped rid k g e) else e
            | None => e
            end in
  inv hist e' ∧ ∀ k', groups_of e rid !! k' = None → groups_of e' rid !! k' = None.
Proof.
  intros Hi. cbv zeta. destruct (groups_of e rid !! k) as [g|] eqn:Eg; [|done].
  destruct (P g); [|done]. split; [by apply inv_metrics, inv_dropped|].
  intros k' Hk'. rewrite groups_of_metrics, groups_of_dropped, decide_True by done.
  by apply lookup_delete_None; right.
Qed.

Lemma expire_group_state rid now k e :
  (expire_group rid now k e).2 =
  match groups_of e rid !! k with
  | Some g => if expired (g_ExpiresAt g) now
              then upd_metrics (upd_ExpiredCEPGroups (λ x, u64 (x + 1))) (dropped rid k g e) else e
  | None => e
  end.
Proof.
  unfold expire_group, mbind, StateM_bind, gets. destruct (groups_of e rid !! k) as [g|]; [|done].
  by destruct (expired (g_ExpiresAt g) now).
Qed.

Lemma evict_group_state rid k e :
  (evict_group rid k e).2 =
  match groups_of e rid !! k with
  | Some g => upd_metrics (upd_EvictedCEPGroups (λ x, u64 (x + 1))) (dropped rid k g e)
  | None => e
  end.
Proof.
  unfold evict_group, mbind, StateM_bind, gets. by destruct (groups_of e rid !! k) as [g|].
Qed.

Lemma groups_of_evict_group rid k e :
  groups_of (evict_group rid k e).2 rid = delete k (groups_of e rid).
Proof.
  rewrite evict_group_state. destruct (groups_of e rid !! k) as [g|] eqn:Eg.
  - by rewrite groups_of_metrics, groups_of_dropped, decide_True.
  - by rewrite delete_id.
Qed.

Lemma groups_of_evict_groups rid keys e :
  groups_of (forM_ (evict_group rid) keys e).2 rid = delete_all keys (groups_of e rid).
Proof.
  revert e. induction keys as [|k keys IH]; intros e; [done|]. cbn [forM_ delete_all foldl].
  unfold mbind, StateM_bind. destruct (evict_group rid k e) as [[] e1] eqn:E1.
  rewrite IH. unfold delete_all. f_equal.
  replace e1 with (evict_group rid k e).2 by (by rewrite E1). apply groups_of_evict_group.
Qed.

Lemma inv_evict_groups hist rid keys :
  triple (inv hist) (forM_ (evict_group rid) keys) (λ _, inv hist).
Proof.
  apply triple_forM_. intros k e He. rewrite evict_group_state.
  apply (drop_spec hist rid k (λ _, true) (upd_EvictedCEPGroups (λ x, u64 (x + 1))) e He).
Qed.

Lemma lookup_delete_all {A} keys (m : gmap string A) k :
  m !! k = None → delete_all keys m !! k = None.
Proof.
  unfold delete_all. revert m. induction keys as [|x keys IH]; intros m Hm; [done|].
  apply IH. by apply lookup_delete_None; right.
Qed.

(** The eviction loop ends below the limit. *)
Lemma evicted_size `{RangeOrder} {A} fuel max (m : gmap string A) :
  (size m ≤ fuel)%nat → (0 < max)%Z →
  (Z.of_nat (size (delete_all (evicted fuel max m) m)) < max)%Z.
Proof.
  revert m. induction fuel as [|fuel IH]; intros m Hf Hmax; cbn [evicted];
    destruct (Z.ltb_spec (Z.of_nat (size m)) max) as [|Hge]; try done; [lia|].
  destruct (range_keys m) as [|k ks] eqn:Ek.
  - apply range_keys_nil in Ek as ->. rewrite map_size_empty in Hge. lia.
  - change (delete_all (k :: ?l) m) with (delete_all l (delete k m)).
    apply IH; [|done].
    assert (is_Some (m !! k)) as [x Hx] by (apply elem_of_range_keys; rewrite Ek; left).
    rewrite map_size_delete, Hx. lia.
Qed.

Lemma evictCEPGroups_spec `{RangeOrder} hist rid now key :
  triple (λ e, inv hist e ∧ groups_of e rid !! key = None) (evictCEPGroups rid now)
    (λ _ e, inv hist e ∧ groups_of e rid !! key = None ∧
            (Z.of_nat (size (groups_of e rid)) < lim_MaxCEPGroups lim)%Z).
Proof.
  intros e [He Hk]. unfold evictCEPGroups, mbind, StateM_bind, get. cbv beta iota.
  rewrite (inv_lim _ _ He).
  destruct (Z.ltb_spec (Z.of_nat (size (groups_of e rid))) (lim_MaxCEPGroups lim)); [done|].
  assert (triple (λ e, inv hist e ∧ groups_of e rid !! key = None)
    (forM_ (expire_group rid now) (range_keys (groups_of e rid)))
    (λ _ e, inv hist e ∧ groups_of e rid !! key = None)) as Hexp.
  { apply triple_forM_. intros k e0 [He0 Hk0]. rewrite expire_group_state.
    destruct (drop_spec hist rid k (λ g, expired (g_ExpiresAt g) now)
      (upd_ExpiredCEPGroups (λ x, u64 (x + 1))) e0 He0) as [? ?]. auto. }
  specialize (Hexp e (conj He Hk)).
  destruct (forM_ (expire_group rid now) _ e) as [[] e1]. destruct Hexp as [He1 Hk1]. cbn in He1, Hk1.
  rewrite (inv_lim _ _ He1). split; [by apply inv_evict_groups|].
  rewrite groups_of_evict_groups. split; [by apply lookup_delete_all|]. by apply evicted_size.
Qed.

(** ** One event *)

Lemma cap_refs_length max refs : (0 < max)%Z → (Z.of_nat (length (cap_refs max refs)) ≤ max)%Z.
Proof.
  intros Hm. unfold cap_refs. destruct (Z.ltb_spec max (Z.of_nat (length refs))); [|lia].
  rewrite length_drop. lia.
Qed.

Lemma v_ev_new ev : v_ev (newEventView ev) = ev.
Proof. unfold newEventView. by destruct (Cut _ _) as [[??]?]. Qed.

Lemma lift_state {A} (c : StateM Metrics A) e :
  lift c e = ((c (e_metrics e)).1, upd_metrics (λ _, (c (e_metrics e)).2) e).
Proof. unfold lift. by destruct (c (e_metrics e)). Qed.

Section event.
Context `{RangeOrder} (past : list CanonicalEvent) (ev : CanonicalEvent).
Let hist : list CanonicalEvent := past ++ [ev].
Let view : eventView := newEventView ev.

(** A signal of a sequence rule reports a complete match: events that
    happened in order, one per step, under one key, the signal carrying their
    references and entities. *)
Definition sequence_alert (rule : compiledRule) (sig : Signal) : Prop :=
  ∃ key evs g content n,
    run_of (lim_MaxCEPRefs lim) (cru_sequence rule) key evs g ∧
    length evs = length (csq_steps (cru_sequence rule)) ∧ happened hist evs ∧
    sig = build_signal content n ev (cru_rule rule) (appendRefs [] (g_Refs g))
            (terminal (cru_rule rule) true) (g_Entities g).

Section rule.
Context (rule : compiledRule).
Let rid : string := er_id (cru_rule rule).
Let key : string := group_key view (csq_by (cru_sequence rule)).
Context (rule_seq : cru_sequence rule = seq_of rid).

(** Advancing keeps a partial match, with any behaviour to wait for next. *)
Lemma advance_run st step b :
  group_ok hist rid key st →
  csq_steps (seq_of rid) !! g_StepIndex st = Some step →
  expired (g_ExpiresAt st) (eventTime view) = false → eval_step view step (Some st) = true →
  ∃ evs, run_of (lim_MaxCEPRefs lim) (seq_of rid) key evs
           (set_waiting b (advance_group (lim_MaxCEPRefs lim) view (seq_of rid) step st)) ∧
         happened hist evs.
Proof.
  intros [_ _ (evs & Hrun & Hh)] Hstep Hexp Hev. exists (evs ++ [ev]).
  split; [|by apply happened_snoc]. apply run_step; try done. unfold key. by rewrite rule_seq.
Qed.

Lemma sequence_step_spec st :
  triple (λ e, inv hist e ∧ groups_of e rid !! key = Some st ∧
               expired (g_ExpiresAt st) (eventTime view) = false)
    (sequence_step view rule key st)
    (λ out e, inv hist e ∧ ∀ sig, out = Some sig → sequence_alert rule sig).
Proof.
  intros e (Hinv & Hst & Hexp). unfold sequence_step. rewrite rule_seq. fold rid.
  destruct (csq_steps (seq_of rid) !! g_StepIndex st) as [step|] eqn:Estep; [|done].
  unfold mbind, StateM_bind. rewrite lift_state. cbv beta iota.
  pose proof (matchCompiledStep_eval view step (Some st) (e_metrics e)) as Hok.
  destruct (matchCompiledStep view step (Some st) (e_metrics e)) as [ok m1]. cbn [fst snd] in *. subst ok.
  destruct (eval_step view step (Some st)) eqn:Eev; [|split; [by apply inv_metrics|done]].
  pose proof (inv_group _ _ Hinv _ _ _ Hst) as Hgo.
  unfold gets. change (e_limits (upd_metrics ?f e)) with (e_limits e). rewrite (inv_lim _ _ Hinv).
  cbn [advance_group g_StepIndex g_WaitingBehavior].
  destruct (csq_steps (seq_of rid) !! S (g_StepIndex st)) as [next|] eqn:Enext.
  - split; [|done].
    apply (inv_replace hist e _ rid key (Some (set_waiting (cst_behavior next)
      (advance_group (lim_MaxCEPRefs lim) view (seq_of rid) step st)))); [done|done| | | | |].
    + apply groups_of_insert_eq.
    + intros rid' Hne. by apply (groups_of_insert_ne rid _ e).
    + rewrite Hst. unfold activate_for. rewrite decide_False; [done|].
      apply (behaviors_ok rid). by eapply list_elem_of_lookup_2.
    + intros g [= <-]. split; [by exists next| |by apply advance_run].
      apply cap_refs_length, lim_refs.
    + unfold groups_of at 1. cbn. rewrite lookup_insert_eq. cbn.
      rewrite map_size_insert_Some by (unfold groups_of in Hst; cbn; eauto).
      apply (inv_size _ _ Hinv rid).
  - split.
    + apply (inv_ext hist (dropped rid key st e)); [done|done|done|]. by apply inv_dropped.
    + intros sig <-%(inj Some). destruct (advance_run st step "" Hgo Estep Hexp Eev) as (evs & Hrun & Hh).
      exists key, evs. eexists _, _, _. rewrite rule_seq. split; [exact Hrun|].
      split; [|split; [done|f_equal; apply v_ev_new]].
      apply run_of_length in Hrun. rewrite Hrun. cbn.
      apply lookup_lt_Some in Estep. apply lookup_ge_None in Enext. lia.
Qed.

Lemma fresh_group_ok x : group_ok hist rid key (MkCepGroupState 0 [] [] ∅ x "").
Proof.
  split; [done|cbn; lia|]. exists []. split; [apply run_start|apply happened_nil].
Qed.

Lemma restart_group_spec st :
  triple (λ e, inv hist e ∧ groups_of e rid !! key = Some st) (restart_group rid key st)
    (λ g e, g = reset_group st ∧ inv hist e ∧ groups_of e rid !! key = Some g).
Proof.
  intros e [Hinv Hst]. split; [done|]. split.
  - apply (inv_replace hist e _ rid key (Some (reset_group st))); [done|done| | | | |].
    + apply groups_of_insert_eq.
    + intros rid' Hne. by apply (groups_of_insert_ne rid _ e).
    + rewrite Hst. unfold activate_for. by rewrite decide_True.
    + intros g [= <-]. apply fresh_group_ok.
    + etrans; [|apply (inv_size _ _ Hinv rid)].
      assert (groups_of (restart_group rid key st e).2 rid = <[key := reset_group st]> (groups_of e rid)) as ->
        by apply groups_of_insert_eq.
      by rewrite map_size_insert_Some.
  - etrans; [apply (f_equal (lookup key)), groups_of_insert_eq|apply lookup_insert_eq].
Qed.

Lemma live_group_spec now :
  triple (inv hist) (live_group rid key now)
    (λ st e, inv hist e ∧ groups_of e rid !! key = st ∧
             ∀ g, st = Some g → expired (g_ExpiresAt g) now = false).
Proof.
  intros e Hinv. unfold live_group, mbind, StateM_bind, gets. cbv beta iota.
  destruct (groups_of e rid !! key) as [g|] eqn:Eg; [|done].
  destruct (expired (g_ExpiresAt g) now) eqn:Ex.
  - split; [apply inv_metrics; by apply (inv_dropped hist rid key g)|]. split; [|done].
    change (groups_of (dropped rid key g e) rid !! key = None).
    rewrite groups_of_dropped, decide_True by done. apply lookup_delete_eq.
  - split; [done|]. split; [done|]. by intros g' [= <-].
Qed.

Lemma allocate_spec now :
  triple (λ e, inv hist e ∧ groups_of e rid !! key = None)
    (evictCEPGroups rid now ;; put_group rid key new_group ;; mret new_group)
    (λ g e, g = new_group ∧ inv hist e ∧ groups_of e rid !! key = Some g).
Proof.
  eapply triple_bind; [apply evictCEPGroups_spec|]. intros [] e (Hinv & Hk & Hsize).
  split; [done|]. split.
  - apply (inv_replace hist e _ rid key (Some new_group)); [done|done| | | | |].
    + apply groups_of_insert_eq.
    + intros rid' Hne. by apply (groups_of_insert_ne rid _ e).
    + rewrite Hk. unfold activate_for. rewrite decide_True by done. symmetry. apply deactivate_blank.
      apply (inv_index _ _ Hinv).
    + intros g [= <-]. apply fresh_group_ok.
    + assert (groups_of (put_group rid key new_group e).2 rid = <[key := new_group]> (groups_of e rid)) as Hp
        by apply groups_of_insert_eq.
      change (Z.of_nat (size (groups_of (put_group rid key new_group e).2 rid)) ≤ lim_MaxCEPGroups lim)%Z.
      rewrite Hp, map_size_insert_None by done. lia.
  - etrans; [apply (f_equal (lookup key)), groups_of_insert_eq|apply lookup_insert_eq].
Qed.

Lemma enter_group_spec st :
  triple (λ e, inv hist e ∧ groups_of e rid !! key = st ∧
               ∀ g, st = Some g → expired (g_ExpiresAt g) (eventTime view) = false)
    (enter_group view rule key st)
    (λ out e, inv hist e ∧ ∀ sig, out = Some sig → sequence_alert rule sig).
Proof.
  unfold enter_group. fold rid.
  eapply (triple_bind _ _ _ (λ g e, inv hist e ∧ groups_of e rid !! key = Some g ∧
                                    expired (g_ExpiresAt g) (eventTime view) = false)).
  { destruct st as [g|].
    - apply triple_ret. intros e (?&?&?). auto.
    - eapply triple_conseq; [apply (allocate_spec (eventTime view))|intros e (?&?&?); auto|].
      intros g e (-> & ? & ?). done. }
  intros g. eapply (triple_bind _ _ _ (λ g e, inv hist e ∧ groups_of e rid !! key = Some g ∧
                                    expired (g_ExpiresAt g) (eventTime view) = false)).
  { destruct (_ <=? _)%nat; [|by apply triple_ret].
    intros e (Hinv & Hg & Hx). destruct (restart_group_spec g e (conj Hinv Hg)) as (-> & ? & ?). done. }
  intros g'. apply sequence_step_spec.
Qed.

Lemma resume_candidate_spec candidate first st :
  cand_rule candidate = rule →
  triple (λ e, inv hist e ∧ groups_of e rid !! key = st ∧
               ∀ g, st = Some g → expired (g_ExpiresAt g) (eventTime view) = false)
    (resume_candidate view candidate first key st)
    (λ out e, inv hist e ∧ ∀ sig, out = Some sig → sequence_alert rule sig).
Proof.
  intros Hrule. unfold resume_candidate. rewrite Hrule. fold rid.
  destruct (negb (cand_firstStep candidate)).
  - destruct st as [g|]; [|apply triple_ret; intros e (?&?&?); done].
    destruct (bool_decide _); [apply enter_group_spec|apply triple_ret; intros e (?&?&?); done].
  - destruct st as [g|]; [|apply enter_group_spec].
    destruct (0 <? g_StepIndex g)%nat; [|apply enter_group_spec].
    eapply (triple_bind _ _ _ (λ _ e, (inv hist e ∧ groups_of e rid !! key = Some g) ∧
                                      expired (g_ExpiresAt g) (eventTime view) = false)).
    { intros e (Hinv & Hg & Hx). rewrite lift_state.
      split; [|by apply Hx]. split; [by apply inv_metrics|done]. }
    intros []; [|apply triple_ret; intros e [[? ?] ?]; done].
    eapply (triple_bind _ _ _ (λ g' e, g' = reset_group g ∧ inv hist e ∧
      groups_of e rid !! key = Some g' ∧ expired (g_ExpiresAt g) (eventTime view) = false)).
    { intros e [Hpre Hx]. destruct (restart_group_spec g e Hpre) as (?&?&?). done. }
    intros g'. eapply triple_conseq; [apply (enter_group_spec (Some g'))| |done].
    intros e1 (-> & ? & ? & ?). split; [done|]. split; [done|].
    intros g0 E. by assert (g0 = reset_group g) as -> by congruence.
Qed.

Lemma detectSequenceCandidate_spec candidate :
  cand_rule candidate = rule →
  triple (inv hist) (detectSequenceCandidate view candidate)
    (λ out e, inv hist e ∧ ∀ sig, out = Some sig → sequence_alert rule sig).
Proof.
  intros Hrule. unfold detectSequenceCandidate. rewrite Hrule. fold rid.
  destruct (csq_steps (cru_sequence rule)) as [|first rest] eqn:Esteps; [by apply triple_ret|].
  eapply (triple_bind _ _ _ (λ _, inv hist)).
  { apply triple_modify. intros e. apply inv_groups_ext; [done| |done]. intros rid'.
    rewrite groups_of_insert. by destruct (decide _) as [->|]. }
  intros []. eapply (triple_bind _ _ _ (λ k e, k = key ∧ inv hist e)).
  { intros e He. split; [done|]. by apply inv_metrics. }
  intros k. eapply (triple_bind _ _ _ (λ st e, k = key ∧ inv hist e ∧ groups_of e rid !! key = st ∧
    ∀ g, st = Some g → expired (g_ExpiresAt g) (eventTime view) = false)).
  { intros e [-> He]. split; [done|]. by apply live_group_spec. }
  intros st e [-> He]. by apply (resume_candidate_spec candidate first st Hrule).
Qed.
End rule.

Lemma run_candidate_spec candidate :
  cru_sequence (cand_rule candidate) = seq_of (cand_id candidate) →
  triple (inv hist) (run_candidate view candidate)
    (λ out e, inv hist e ∧ Forall (sequence_alert (cand_rule candidate)) out).
Proof.
  intros Hseq. unfold run_candidate.
  eapply (triple_bind _ _ _ (λ _, inv hist)); [intros e; apply inv_metrics|]. intros [].
  destruct (negb _); [by apply triple_ret|].
  eapply (triple_bind _ _ _ (λ _, inv hist)); [intros e; apply inv_metrics|]. intros [].
  eapply triple_bind; [by apply (detectSequenceCandidate_spec (cand_rule candidate) Hseq)|].
  intros out. apply triple_ret. intros e [He Hout]. split; [done|].
  destruct out as [sig|]; repeat constructor. by apply Hout.
Qed.
End event.
End inv.
End EngineInv.
