(* ===== verification/CorrelateInv.v ===== *)
(** * Invariants of correlations and of suppression

    Every fact a correlation group has recorded was matched by an event seen
    so far, under the group's key; the groups and the suppression windows
    stay within their limits; a suppressed key stays suppressed for its
    window. *)

From S2P Require Import Prelude GoStrings GoFloat EventModel Policy RuleSpec Validation EventView Compiled Engine EngineLogic EngineInv.

Module CorrelateInv.
Import EventModel Policy RuleSpec EventView Compiled Engine EngineLogic EngineInv.

(** ** Facts *)

Definition fact_matches (view : eventView) (fact : compiledFact) : bool :=
  bool_decide (v_behavior view ∈ cf_behaviors fact) &&
  eval_both view (cf_conditions fact) (cf_conditionGroup fact) None.

Lemma matchCorrelateFacts_eval view facts e :
  (matchCorrelateFacts view facts e).1 = filter (λ f, fact_matches view f = true) facts.
Proof.
  revert e. induction facts as [|f facts IH]; intros e; [done|].
  cbn [matchCorrelateFacts]. rewrite filter_cons. unfold mbind, StateM_bind.
  match goal with |- context [(if bool_decide ?P then ?a else ?b) e] =>
    assert (((if bool_decide P then a else b) e).1 = fact_matches view f) as Hok;
    [|destruct ((if bool_decide P then a else b) e) as [ok e1]] end.
  { unfold fact_matches. case_bool_decide; [|done]. rewrite lift_state. apply match_both_eval. }
  cbn [fst] in Hok. subst ok. specialize (IH e1).
  destruct (matchCorrelateFacts view facts e1) as [out e2]. cbn [fst] in IH. subst out.
  destruct (decide (fact_matches view f = true)) as [E|E]; [by rewrite E|].
  by rewrite (not_true_is_false _ E).
Qed.

Lemma lookup_delete_all_Some {A} keys (m : gmap string A) k x :
  delete_all keys m !! k = Some x → m !! k = Some x.
Proof.
  unfold delete_all. revert m. induction keys as [|y keys IH]; intros m Hm; [done|].
  apply IH in Hm. by apply lookup_delete_Some in Hm as [_ ?].
Qed.

Lemma size_filter_le {A} (P : string * A → Prop) `{!∀ x, Decision (P x)} (m : gmap string A) :
  (size (filter P m) ≤ size m)%nat.
Proof. apply map_subseteq_size, map_filter_subseteq. Qed.

Section inv.
Context (by_of : string → list fieldID) (facts_spec : string → list compiledFact) (lim : EngineLimits).
Context (lim_groups : (0 < lim_MaxCEPGroups lim)%Z).

(** The event [ev'] of the history matched [fact] for a group with this key. *)
Definition witnessed (hist : list CanonicalEvent) (rid key : string) (fact : compiledFact)
    (m : correlateFactMatch) : Prop :=
  ∃ ev', ev' ∈ hist ∧ group_key (newEventView ev') (by_of rid) = key ∧
    fact_matches (newEventView ev') fact = true ∧
    m = MkCorrelateFactMatch (v_eventID (newEventView ev')) (eventEntities ev').

Definition corr_group_ok (hist : list CanonicalEvent) (rid key : string) (g : correlateGroupState) : Prop :=
  ∀ id m, cg_Facts g !! id = Some m →
    ∃ fact, fact ∈ facts_spec rid ∧ cf_id fact = id ∧ witnessed hist rid key fact m.

Record corr_inv (hist : list CanonicalEvent) (e : Engine) : Prop := {
  ci_lim : e_limits e = lim;
  ci_size : ∀ rid, (Z.of_nat (size (facts_of e rid)) ≤ lim_MaxCEPGroups lim)%Z;
  ci_group : ∀ rid key g, facts_of e rid !! key = Some g → corr_group_ok hist rid key g
}.

Lemma corr_inv_happened hist ev e : corr_inv hist e → corr_inv (hist ++ [ev]) e.
Proof.
  intros [H1 H2 H3]. split; [done|done|]. intros rid key g Hg id m Hm.
  destruct (H3 _ _ _ Hg _ _ Hm) as (fact & ? & ? & ev' & ? & ? & ? & ?).
  exists fact. do 2 (split; [done|]). exists ev'. split; [|done]. by apply elem_of_app; left.
Qed.

Lemma corr_inv_ext hist e e' :
  e_limits e' = e_limits e → (∀ rid, facts_of e' rid = facts_of e rid) → corr_inv hist e → corr_inv hist e'.
Proof.
  intros E1 E2 [H1 H2 H3]. split; [congruence|intros; by rewrite E2|].
  intros rid key g. rewrite E2. apply H3.
Qed.

Lemma corr_inv_metrics hist f e : corr_inv hist e → corr_inv hist (upd_metrics f e).
Proof. by apply corr_inv_ext. Qed.

Lemma facts_of_put rid groups e rid' :
  facts_of (put_facts rid groups e).2 rid' = if decide (rid' = rid) then groups else facts_of e rid'.
Proof.
  unfold facts_of. cbn. destruct (decide (rid' = rid)) as [->|?];
    [by rewrite lookup_insert_eq|by rewrite lookup_insert_ne].
Qed.

Lemma corr_inv_put hist rid groups e :
  corr_inv hist e → (Z.of_nat (size groups) ≤ lim_MaxCEPGroups lim)%Z →
  (∀ key g, groups !! key = Some g → corr_group_ok hist rid key g) →
  corr_inv hist (put_facts rid groups e).2.
Proof.
  intros [H1 H2 H3] Hs Hg. split; [done| |].
  - intros rid'. rewrite facts_of_put. by destruct (decide _).
  - intros rid' key g. rewrite facts_of_put. destruct (decide _) as [->|]; [apply Hg|apply H3].
Qed.

Lemma evictCorrelateGroups_spec `{RangeOrder} hist rid now key :
  triple (λ e, corr_inv hist e ∧ facts_of e rid !! key = None) (evictCorrelateGroups rid now)
    (λ _ e, corr_inv hist e ∧ facts_of e rid !! key = None ∧
            (Z.of_nat (size (facts_of e rid)) < lim_MaxCEPGroups lim)%Z).
Proof.
  intros e [He Hk]. unfold evictCorrelateGroups, mbind, StateM_bind, get. cbv beta iota zeta.
  rewrite (ci_lim _ _ He).
  destruct (Z.ltb_spec (Z.of_nat (size (facts_of e rid))) (lim_MaxCEPGroups lim)); [done|].
  set (live := filter _ (facts_of e rid)). set (gone := evicted _ _ live).
  assert (Hsz : (Z.of_nat (size (delete_all gone live)) < lim_MaxCEPGroups lim)%Z)
    by (apply evicted_size; [done|apply lim_groups]).
  assert (Hlive : ∀ k, facts_of e rid !! k = None → live !! k = None)
    by (intros; apply map_lookup_filter_None; auto).
  set (e1 := (count upd_EvictedCEPGroups (Z.of_nat (length gone))
    (count upd_ExpiredCEPGroups (Z.of_nat (size (facts_of e rid)) - Z.of_nat (size live)) e).2).2).
  assert (facts_of (put_facts rid (delete_all gone live) e1).2 rid = delete_all gone live) as Hfacts
    by (by rewrite facts_of_put, decide_True).
  change (corr_inv hist (put_facts rid (delete_all gone live) e1).2 ∧
    facts_of (put_facts rid (delete_all gone live) e1).2 rid !! key = None ∧
    (Z.of_nat (size (facts_of (put_facts rid (delete_all gone live) e1).2 rid)) < lim_MaxCEPGroups lim)%Z).
  rewrite Hfacts. split; [|split; [by apply lookup_delete_all, Hlive|done]].
  apply corr_inv_put; [by do 2 apply corr_inv_metrics|lia|].
  intros k g Hg. apply lookup_delete_all_Some in Hg. apply map_lookup_filter_Some in Hg as [Hg _].
  by eapply ci_group.
Qed.

(** ** One event *)

Section event.
Context `{RangeOrder} (past : list CanonicalEvent) (ev : CanonicalEvent).
Let hist : list CanonicalEvent := past ++ [ev].
Let view : eventView := newEventView ev.

(** A signal of a correlation reports that every fact of the rule was
    matched by an event of the history with the group's key. *)
Definition correlate_alert (rule : compiledCorrelateRule) (sig : Signal) : Prop :=
  ∃ key refs entities content n,
    sig = build_signal content n ev (ccr_rule rule) refs (terminal (ccr_rule rule) false) entities ∧
    ∀ fact, fact ∈ ccr_facts rule → ∃ m, witnessed hist (er_id (ccr_rule rule)) key fact m.

Section rule.
Context (rule : compiledCorrelateRule).
Let rid : string := er_id (ccr_rule rule).
Let key : string := group_key view (ccr_by rule).
Context (rule_by : ccr_by rule = by_of rid) (rule_facts : ccr_facts rule = facts_spec rid).
Context (facts_NoDup : NoDup (cf_id <$> ccr_facts rule)).

Lemma record_facts_ok g matched :
  corr_group_ok hist rid key g →
  (∀ f, f ∈ matched → f ∈ ccr_facts rule ∧ fact_matches view f = true) →
  corr_group_ok hist rid key (record_facts view matched g).
Proof.
  intros Hg Hm. unfold corr_group_ok, record_facts in *. cbn [cg_Facts].
  revert Hg. generalize (cg_Facts g). induction matched as [|f fs IH]; intros facts Hg; [done|].
  cbn [foldl]. apply IH; [intros; apply Hm; by right|].
  intros id m. rewrite lookup_insert_Some. intros [[<- <-]|[_ Hm']]; [|by apply Hg].
  destruct (Hm f) as [Hf Hmatch]; [left|]. exists f. rewrite <- rule_facts. do 2 (split; [done|]).
  exists ev. split; [apply elem_of_app; right; left|]. split; [by rewrite <- rule_by|].
  split; [done|]. unfold view. by rewrite v_ev_new.
Qed.

(** Enough recorded facts means all of them. *)
Lemma all_facts_witnessed g fact :
  corr_group_ok hist rid key g → (length (ccr_facts rule) ≤ size (cg_Facts g))%nat →
  fact ∈ ccr_facts rule → ∃ m, witnessed hist rid key fact m.
Proof.
  intros Hg Hsize Hf.
  set (ids := list_to_set (cf_id <$> ccr_facts rule) : gset string).
  assert (dom (cg_Facts g) ⊆ ids) as Hsub.
  { intros id. rewrite elem_of_dom. intros [m Hm]. destruct (Hg _ _ Hm) as (f & Hf' & <- & _).
    apply elem_of_list_to_set, list_elem_of_fmap. exists f. by rewrite rule_facts. }
  assert (dom (cg_Facts g) = ids) as Hdom.
  { apply set_eq. intros id. revert id. apply set_equiv.
    apply set_subseteq_size_equiv; [done|]. unfold ids.
    rewrite size_list_to_set by done. rewrite length_fmap, size_dom. done. }
  assert (cf_id fact ∈ dom (cg_Facts g)) as Hid.
  { rewrite Hdom. apply elem_of_list_to_set, list_elem_of_fmap. by exists fact. }
  apply elem_of_dom in Hid as [m Hm]. destruct (Hg _ _ Hm) as (f & Hf' & Eid & Hw).
  rewrite <- rule_facts in Hf'. exists m.
  assert (f = fact) as <-; [|done].
  apply list_elem_of_lookup_1 in Hf as [i Hi]. apply list_elem_of_lookup_1 in Hf' as [j Hj].
  assert (i = j) as ->; [|congruence].
  eapply NoDup_lookup; [exact facts_NoDup| |]; rewrite list_lookup_fmap; [by rewrite Hi|].
  rewrite Hj. cbn. by rewrite Eid.
Qed.

Lemma corr_inv_delete hist' k e :
  corr_inv hist' e → corr_inv hist' (put_facts rid (delete k (facts_of e rid)) e).2.
Proof.
  intros He. apply corr_inv_put; [done| |].
  - pose proof (ci_size _ _ He rid). etrans; [|done].
    apply inj_le. apply map_subseteq_size, delete_subseteq.
  - intros k' g [_ Hg]%lookup_delete_Some. by eapply ci_group.
Qed.

Lemma live_facts_spec :
  triple (corr_inv hist) (live_facts rid key (eventTime view))
    (λ g e, corr_inv hist e ∧ facts_of e rid !! key = g).
Proof.
  intros e He. unfold live_facts, mbind, StateM_bind, get. cbv beta iota.
  destruct (facts_of e rid !! key) as [g|] eqn:Eg; [|by split].
  destruct (expired _ _); [|by split].
  split; [apply corr_inv_metrics; by apply (corr_inv_delete hist key e)|].
  change (facts_of (put_facts rid (delete key (facts_of e rid)) e).2 rid !! key = None).
  rewrite facts_of_put, decide_True by done. apply lookup_delete_eq.
Qed.

Lemma target_group_spec g now within :
  triple (λ e, corr_inv hist e ∧ facts_of e rid !! key = g) (target_group rid now within g)
    (λ g e, corr_inv hist e ∧ corr_group_ok hist rid key g ∧
       ∀ g', (Z.of_nat (size (<[key := g']> (facts_of e rid))) ≤ lim_MaxCEPGroups lim)%Z).
Proof.
  destruct g as [g|]; cbn [target_group].
  - apply triple_ret. intros e [He Hg]. split; [done|]. split; [by eapply ci_group|].
    intros g'. rewrite map_size_insert_Some by (by rewrite Hg). by eapply ci_size.
  - eapply triple_bind; [apply evictCorrelateGroups_spec|]. intros [].
    apply triple_ret. intros e (He & Hk & Hs). split; [done|]. split.
    + intros id m. cbn. by rewrite lookup_empty.
    + intros g'. rewrite map_size_insert_None by done. lia.
Qed.

Lemma report_group_spec group :
  corr_group_ok hist rid key group →
  triple (λ e, corr_inv hist e ∧ (Z.of_nat (size (<[key := group]> (facts_of e rid))) ≤ lim_MaxCEPGroups lim)%Z)
    (report_group view rule key group)
    (λ out e, corr_inv hist e ∧ ∀ sig, out = Some sig → correlate_alert rule sig).
Proof.
  intros Hok. unfold report_group. fold rid.
  eapply (triple_bind _ _ _ (λ e0 e, e0 = e ∧ corr_inv hist e ∧
    (Z.of_nat (size (<[key := group]> (facts_of e rid))) ≤ lim_MaxCEPGroups lim)%Z));
    [by apply triple_get|].
  intros e0. eapply (triple_bind _ _ _ (λ _, corr_inv hist)).
  { intros e (-> & He & Hs). apply corr_inv_put; [done|done|].
    intros k g. rewrite lookup_insert_Some. intros [[<- <-]|[_ ?]]; [done|by eapply ci_group]. }
  intros []. destruct (Nat.ltb_spec (size (cg_Facts group)) (length (ccr_facts rule))) as [|Hfull];
    [by apply triple_ret|].
  eapply (triple_bind _ _ _ (λ _, corr_inv hist)); [intros e He; by apply corr_inv_metrics|].
  intros [refs entities].
  eapply (triple_bind _ _ _ (λ e0 e, e0 = e ∧ corr_inv hist e)); [by apply triple_get|].
  intros e1. eapply (triple_bind _ _ _ (λ _, corr_inv hist)).
  { intros e [-> He]. by apply corr_inv_delete. }
  intros [] e He. split; [by apply (corr_inv_ext hist e)|].
  intros sig <-%(inj Some). exists key. eexists _, _, _, _. split; [f_equal; apply v_ev_new|].
  intros fact Hf. by eapply all_facts_witnessed.
Qed.

Lemma detectCorrelateRule_spec :
  triple (corr_inv hist) (detectCorrelateRule view rule)
    (λ out e, corr_inv hist e ∧ ∀ sig, out = Some sig → correlate_alert rule sig).
Proof.
  unfold detectCorrelateRule. fold rid.
  eapply (triple_bind _ _ _ (λ _, corr_inv hist)).
  { apply triple_modify. intros e. apply corr_inv_ext; [done|]. intros rid'.
    change (facts_of (put_facts rid (facts_of e rid) e).2 rid' = facts_of e rid').
    rewrite facts_of_put. by destruct (decide _) as [->|]. }
  intros []. eapply (triple_bind _ _ _ (λ k e, k = key ∧ corr_inv hist e)).
  { intros e He. split; [done|]. by apply corr_inv_metrics. }
  intros k. eapply (triple_bind _ _ _ (λ g e, k = key ∧ corr_inv hist e ∧ facts_of e rid !! key = g)).
  { intros e [-> He]. split; [done|]. by apply live_facts_spec. }
  intros g. eapply (triple_bind _ _ _ (λ matched e, k = key ∧
    (matched = filter (λ f, fact_matches view f = true) (ccr_facts rule)) ∧
    corr_inv hist e ∧ facts_of e rid !! key = g)).
  { intros e (-> & He & Hg). split; [done|]. split; [apply matchCorrelateFacts_eval|].
    pose proof (matchCorrelateFacts_frame (λ e, (e_limits e, e_correlate e)) view (ccr_facts rule)
      (λ _ _, eq_refl) e) as Hfr. injection Hfr as Hl Hc.
    assert (∀ rid', facts_of (matchCorrelateFacts view (ccr_facts rule) e).2 rid' = facts_of e rid') as Hf
      by (intros; unfold facts_of; by rewrite Hc).
    rewrite Hf. split; [by apply (corr_inv_ext hist e)|done]. }
  intros matched. case_bool_decide; [apply triple_ret; intros e (?&?&?&?); done|].
  eapply (triple_bind _ _ _ (λ g e, k = key ∧
    matched = filter (λ f, fact_matches view f = true) (ccr_facts rule) ∧ corr_inv hist e ∧
    corr_group_ok hist rid key g ∧
    ∀ g', (Z.of_nat (size (<[key := g']> (facts_of e rid))) ≤ lim_MaxCEPGroups lim)%Z)).
  { intros e (-> & -> & Hpre). do 2 (split; [done|]). by apply (target_group_spec g). }
  intros g0 e (-> & -> & He & Hg & Hs). apply report_group_spec; [|by split].
  apply record_facts_ok; [done|]. intros f Hf. apply list_elem_of_filter in Hf as [? ?]. done.
Qed.
End rule.

Lemma run_correlate_spec rule :
  ccr_by rule = by_of (er_id (ccr_rule rule)) → ccr_facts rule = facts_spec (er_id (ccr_rule rule)) →
  NoDup (cf_id <$> ccr_facts rule) →
  triple (corr_inv hist) (run_correlate view rule)
    (λ out e, corr_inv hist e ∧ Forall (correlate_alert rule) out).
Proof.
  intros Hby Hfacts Hnd. unfold run_correlate.
  eapply (triple_bind _ _ _ (λ _, corr_inv hist)); [intros e; apply corr_inv_metrics|]. intros [].
  eapply (triple_bind _ _ _ (λ _, corr_inv hist)); [intros e; apply corr_inv_metrics|]. intros [].
  eapply triple_bind; [by apply detectCorrelateRule_spec|].
  intros out. apply triple_ret. intros e [He Hout]. split; [done|].
  destruct out as [sig|]; repeat constructor. by apply Hout.
Qed.
End event.
End inv.

(** ** Suppression *)

Definition suppression_bounded (e : Engine) : Prop :=
  (Z.of_nat (size (e_suppression e)) ≤ maxSuppressionKeys)%Z.

Lemma suppressSignal_bounded `{RangeOrder} key now window :
  triple suppression_bounded (suppressSignal key now window) (λ _, suppression_bounded).
Proof.
  unfold suppressSignal. destruct (_ || _); [by apply triple_ret|].
  intros e He. unfold mbind, StateM_bind, gets. cbv beta iota.
  destruct (match e_suppression e !! key with Some x => _ | None => _ end); [done|].
  cbv zeta. match goal with |- context [evicted (size ?l)] => set (live := l) end.
  pose proof (evicted_size (size live) maxSuppressionKeys live (le_n _) eq_refl) as Hs.
  unfold suppression_bounded. cbn.
  set (m := delete_all _ live) in *. clearbody m.
  destruct (m !! key) eqn:E.
  - rewrite map_size_insert_Some by done. lia.
  - rewrite map_size_insert_None by done. lia.
Qed.

Lemma run_expr_rule_bounded `{RangeOrder} wall view rule :
  triple suppression_bounded (run_expr_rule wall view rule) (λ _, suppression_bounded).
Proof.
  unfold run_expr_rule. eapply (triple_bind _ _ _ (λ _, suppression_bounded)); [by intros ?|]. intros [].
  destruct (negb _); [by apply triple_ret|].
  eapply (triple_bind _ _ _ (λ _, suppression_bounded)); [by intros ?|]. intros [].
  destruct (cru_kind rule); [|by apply triple_ret].
  eapply (triple_bind _ _ _ (λ _, suppression_bounded)); [by intros ? ?; rewrite lift_state|].
  intros []; [|by apply triple_ret].
  eapply (triple_bind _ _ _ (λ _, suppression_bounded)).
  { unfold suppressCompiledRule. cbv zeta. destruct (_ || _); [by apply triple_ret|].
    eapply (triple_bind _ _ _ (λ _, suppression_bounded)); [by intros ?|]. intros [].
    apply suppressSignal_bounded. }
  intros []; [by apply triple_ret|]. by intros ?.
Qed.

End CorrelateInv.
