(* ===== verification/Dispatch.v ===== *)
(** * The dispatch tables

    What the compiled tables contain: a candidate for every step of every
    sequence rule under the step's behaviour and nothing else, every
    expression rule under each of its behaviours, every correlation under
    the behaviours of its facts.  These facts link the tables the engine
    reads with the rules the policy selected. *)

From S2P Require Import Prelude GoStrings EventModel Policy RuleSpec Validation EventView Compiled.

Module Dispatch.
Import EventModel Policy RuleSpec EventView Compiled.

(** ** Folds *)

Lemma foldl_preserve {A B} (P : A → Prop) (f : A → B → A) l a :
  P a → (∀ a y, y ∈ l → P a → P (f a y)) → P (foldl f a l).
Proof.
  revert a. induction l as [|y l IH]; intros a Ha Hf; [done|]. cbn. apply IH.
  - apply Hf; [left|done].
  - intros; apply Hf; [by right|done].
Qed.

Lemma foldl_establish {A B} (P : A → Prop) (f : A → B → A) l a x :
  x ∈ l → (∀ a, P (f a x)) → (∀ a y, P a → P (f a y)) → P (foldl f a l).
Proof.
  intros Hx Hest Hpres. revert a. induction Hx as [x l|x y l Hx IH]; intros a; cbn; [|by apply IH].
  apply foldl_preserve; [by apply Hest|auto].
Qed.

Lemma elem_of_append_at {A} (m : gmap string (list A)) k v k' c :
  c ∈ default [] (append_at m k v !! k') ↔ c ∈ default [] (m !! k') ∨ (k = k' ∧ c = v).
Proof.
  unfold append_at. destruct (decide (k = k')) as [<-|Hne].
  - rewrite lookup_insert_eq. cbn. rewrite elem_of_app, list_elem_of_singleton. naive_solver.
  - rewrite lookup_insert_ne by done. naive_solver.
Qed.

Lemma elem_of_imap_pair {A} (l : list A) i x : (i, x) ∈ imap pair l ↔ l !! i = Some x.
Proof.
  rewrite list_elem_of_lookup. split.
  - intros [j Hj]. rewrite list_lookup_imap in Hj. destruct (l !! j) eqn:E; [|done]. cbn in Hj. congruence.
  - intros Hi. exists i. by rewrite list_lookup_imap, Hi.
Qed.

Section tables.
Context (strategy : string) (content : ContentSnapshot).

Lemma compileRule_rule rule c : compileRule strategy rule content = Some c → cru_rule c = rule.
Proof. unfold compileRule. repeat case_bool_decide; intros; simplify_eq; done. Qed.

Lemma compileRule_sequence rule :
  runtimeType rule = "sequence" → ∃ c, compileRule strategy rule content = Some c ∧
    csq_steps (cru_sequence c) =
    attachSequenceSaveFields (compile_step strategy content <$> sq_Steps (r_Sequence (er_spec rule))).
Proof. intros E. unfold compileRule. rewrite E. cbn. eauto. Qed.

(** Saved fields aside, the steps are the specification's, in order. *)
Lemma attach_lookup steps i :
  attachSequenceSaveFields steps !! i =
  (λ s, MkCompiledStep (cst_id s) (cst_behavior s) (cst_conditions s) (cst_conditionGroup s)
     (stable_sort field_index (remove_dups (snd <$> filter (λ p, p.1 = i) (saved_pairs steps))))) <$> steps !! i.
Proof. unfold attachSequenceSaveFields. by rewrite list_lookup_imap. Qed.

(** ** Sequences *)

Definition in_first (rt : compiledSequenceRuntime) (b : string) (c : compiledSequenceCandidate) : Prop :=
  c ∈ default [] (srt_firstByBehavior rt !! b).
Definition in_next (rt : compiledSequenceRuntime) (b : string) (c : compiledSequenceCandidate) : Prop :=
  c ∈ default [] (srt_nextByBehavior rt !! b).
Definition in_tables (rt : compiledSequenceRuntime) (c : compiledSequenceCandidate) : Prop :=
  (∃ b, in_first rt b c) ∨ (∃ b, in_next rt b c) ∨ c ∈ srt_behaviorAgnostic rt.

Lemma in_next_add_next rt cand step b c :
  in_next (add_next rt cand step) b c ↔
  in_next rt b c ∨ (cst_behavior step ≠ "" ∧ cst_behavior step = b ∧ c = cand).
Proof.
  unfold add_next, in_next. case_bool_decide; cbn; [naive_solver|].
  rewrite elem_of_append_at. naive_solver.
Qed.

Lemma in_first_add_next rt cand step b c : in_first (add_next rt cand step) b c ↔ in_first rt b c.
Proof. unfold add_next, in_first. by case_bool_decide. Qed.

Lemma in_next_add_first rt r step b c : in_next (add_first rt r step) b c ↔ in_next rt b c.
Proof. unfold add_first, in_next. by case_bool_decide. Qed.

Lemma in_first_add_first rt r step b c :
  in_first (add_first rt r step) b c ↔
  in_first rt b c ∨ (cst_behavior step ≠ "" ∧ cst_behavior step = b ∧ c = MkCandidate r 0 true).
Proof.
  unfold add_first, in_first. case_bool_decide; cbn; [naive_solver|].
  rewrite elem_of_append_at. naive_solver.
Qed.

Lemma in_tables_add_next rt cand step c : in_tables (add_next rt cand step) c → in_tables rt c ∨ c = cand.
Proof.
  unfold in_tables. setoid_rewrite in_first_add_next. setoid_rewrite in_next_add_next.
  intros [[b Hb]|[[b Hb]|Hb]]; [naive_solver..|].
  revert Hb. unfold add_next. case_bool_decide; cbn; [|naive_solver].
  rewrite elem_of_app, list_elem_of_singleton. naive_solver.
Qed.

Lemma in_tables_add_first rt r step c : in_tables (add_first rt r step) c → in_tables rt c ∨ c = MkCandidate r 0 true.
Proof.
  unfold in_tables. setoid_rewrite in_first_add_first. setoid_rewrite in_next_add_first.
  intros [[b Hb]|[[b Hb]|Hb]]; [naive_solver..|].
  revert Hb. unfold add_first. case_bool_decide; cbn; [|naive_solver].
  rewrite elem_of_app, list_elem_of_singleton. naive_solver.
Qed.

(** Every candidate is a step of an enabled sequence rule of the list. *)
Definition candidate_of (rules : list effectiveRule) (c : compiledSequenceCandidate) : Prop :=
  ∃ rule, rule ∈ rules ∧ er_enabled rule = true ∧ runtimeType rule = "sequence" ∧
    compileRule strategy rule content = Some (cand_rule c).

Lemma compileSequenceRuntime_sound rules c :
  in_tables (compileSequenceRuntime strategy rules content) c → candidate_of rules c.
Proof.
  revert c. unfold compileSequenceRuntime.
  apply (foldl_preserve (λ rt, ∀ c, in_tables rt c → candidate_of rules c)).
  { intros c [[b Hb]|[[b Hb]|Hb]]; [unfold in_first in Hb|unfold in_next in Hb|];
      cbn in Hb; rewrite ?lookup_empty in Hb; by apply elem_of_nil in Hb. }
  intros rt rule Hrule IH c. unfold add_sequence_rule.
  destruct (er_enabled rule) eqn:Een; [|apply IH]. cbn [negb orb].
  case_bool_decide as Hrt; [apply IH|].
  destruct (compileRule strategy rule content) as [compiled|] eqn:Ec; [|apply IH].
  destruct (csq_steps (cru_sequence compiled)) as [|first rest]; [apply IH|]. revert c.
  apply (foldl_preserve (λ rt, ∀ c, in_tables rt c → candidate_of rules c)).
  - intros c [?| ->]%in_tables_add_first; [by apply IH|]. by exists rule.
  - intros rt' [i step] _ IH' c [?| ->]%in_tables_add_next; [by apply IH'|]. by exists rule.
Qed.

(** Every later step of an enabled sequence rule is filed under its behaviour. *)
Lemma compileSequenceRuntime_next rules rule c i step :
  rule ∈ rules → er_enabled rule = true → runtimeType rule = "sequence" →
  compileRule strategy rule content = Some c →
  csq_steps (cru_sequence c) !! S i = Some step → cst_behavior step ≠ "" →
  in_next (compileSequenceRuntime strategy rules content) (cst_behavior step) (MkCandidate c (S i) false).
Proof.
  intros Hin Hen Hrt Hc Hstep Hb. unfold compileSequenceRuntime.
  eapply (foldl_establish (λ rt, in_next rt _ _)); [exact Hin| |].
  - intros rt. unfold add_sequence_rule. rewrite Hen, Hrt, Hc. cbn [negb orb].
    rewrite bool_decide_eq_false_2 by auto.
    destruct (csq_steps (cru_sequence c)) as [|first rest]; [done|]. cbn in Hstep.
    eapply (foldl_establish (λ rt, in_next rt _ _)); [by apply elem_of_imap_pair| |].
    + intros rt'. apply in_next_add_next. by right.
    + intros rt' [j s] ?. apply in_next_add_next. by left.
  - intros rt r Hn. unfold add_sequence_rule. destruct (_ || _); [done|].
    destruct (compileRule strategy r content) as [c'|]; [|done].
    destruct (csq_steps (cru_sequence c')) as [|first rest]; [done|].
    apply (foldl_preserve (λ rt, in_next rt _ _)); [by apply in_next_add_first|].
    intros rt' [j s] _ ?. apply in_next_add_next. by left.
Qed.

Lemma compileSequenceRuntime_first rules rule c step :
  rule ∈ rules → er_enabled rule = true → runtimeType rule = "sequence" →
  compileRule strategy rule content = Some c →
  csq_steps (cru_sequence c) !! 0%nat = Some step → cst_behavior step ≠ "" →
  in_first (compileSequenceRuntime strategy rules content) (cst_behavior step) (MkCandidate c 0 true).
Proof.
  intros Hin Hen Hrt Hc Hstep Hb. unfold compileSequenceRuntime.
  assert (∀ rt l b x, in_first rt b x →
    in_first (foldl (λ rt '(i, step), add_next rt (MkCandidate c (S i) false) step) rt l) b x) as Hnext.
  { intros rt l b x Hx. apply (foldl_preserve (λ rt, in_first rt b x)); [done|].
    intros rt' [j s] _ ?. by apply in_first_add_next. }
  eapply (foldl_establish (λ rt, in_first rt _ _)); [exact Hin| |].
  - intros rt. unfold add_sequence_rule. rewrite Hen, Hrt, Hc. cbn [negb orb].
    rewrite bool_decide_eq_false_2 by auto.
    destruct (csq_steps (cru_sequence c)) as [|first rest]; [done|]. cbn in Hstep. simplify_eq.
    apply Hnext, in_first_add_first. by right.
  - intros rt r Hn. unfold add_sequence_rule. destruct (_ || _); [done|].
    destruct (compileRule strategy r content) as [c'|]; [|done].
    destruct (csq_steps (cru_sequence c')) as [|first rest]; [done|].
    apply (foldl_preserve (λ rt, in_first rt _ _)); [by apply in_first_add_first; left|].
    intros rt' [j s] _ ?. by apply in_first_add_next.
Qed.

Lemma elem_of_candidates rt b active c : c ∈ candidatesForBehavior rt b active → in_tables rt c.
Proof.
  unfold candidatesForBehavior, in_tables, in_first, in_next.
  rewrite !elem_of_app, list_elem_of_filter. naive_solver.
Qed.

(** ** Expressions and correlations *)

Lemma compileRuntime_sound rules b c :
  c ∈ rulesForBehavior (compileRuntime strategy rules content) b →
  ∃ rule, rule ∈ rules ∧ er_enabled rule = true ∧ runtimeType rule = "expr" ∧
    compileRule strategy rule content = Some c.
Proof.
  unfold compileRuntime, rulesForBehavior. revert c.
  apply (foldl_preserve (λ rt, ∀ c, c ∈ default [] (rt_byBehavior rt !! b) ++ rt_behaviorAgnostic rt →
    ∃ rule, rule ∈ rules ∧ er_enabled rule = true ∧ runtimeType rule = "expr" ∧
            compileRule strategy rule content = Some c)).
  { cbn. rewrite lookup_empty. intros c []%elem_of_nil. }
  intros rt rule Hrule IH c. unfold add_expr_rule.
  destruct (er_enabled rule) eqn:Een; [|apply IH]. cbn [negb orb].
  case_bool_decide as Hrt; [apply IH|].
  destruct (compileRule strategy rule content) as [compiled|] eqn:Ec; [|apply IH].
  destruct (behaviors compiled) as [|x bs]; cbn [rt_byBehavior rt_behaviorAgnostic].
  - rewrite !elem_of_app, list_elem_of_singleton. intros [?|[?| ->]];
      [apply IH, elem_of_app; auto..|eauto].
  - rewrite elem_of_app. intros [Hb|?]; [|apply IH, elem_of_app; auto].
    assert (c ∈ default [] (rt_byBehavior rt !! b) ∨ c = compiled) as [?| ->];
      [|apply IH, elem_of_app; auto|eauto].
    revert Hb. apply (foldl_preserve (λ m : gmap string (list compiledRule),
      c ∈ default [] (m !! b) → c ∈ default [] (rt_byBehavior rt !! b) ∨ c = compiled)); [auto|].
    intros m y _ Hm. rewrite elem_of_append_at. naive_solver.
Qed.

Lemma compileCorrelateRuntime_sound rules b r :
  r ∈ correlateRulesForBehavior (compileCorrelateRuntime strategy rules content) b →
  ∃ rule, rule ∈ rules ∧ er_enabled rule = true ∧ runtimeType rule = "correlate" ∧
    r = compileCorrelateRule strategy rule content.
Proof.
  unfold compileCorrelateRuntime, correlateRulesForBehavior. cbn [crt_byBehavior]. revert r.
  apply (foldl_preserve (λ m : gmap string (list compiledCorrelateRule), ∀ r, r ∈ default [] (m !! b) →
    ∃ rule, rule ∈ rules ∧ er_enabled rule = true ∧ runtimeType rule = "correlate" ∧
            r = compileCorrelateRule strategy rule content)).
  { rewrite lookup_empty. intros r []%elem_of_nil. }
  intros m rule Hrule IH. destruct (er_enabled rule) eqn:Een; [|apply IH]. cbn [negb orb].
  case_bool_decide as Hrt; [apply IH|]. cbv zeta.
  apply (foldl_preserve (λ m : gmap string (list compiledCorrelateRule), ∀ r, r ∈ default [] (m !! b) →
    ∃ rule, rule ∈ rules ∧ er_enabled rule = true ∧ runtimeType rule = "correlate" ∧
            r = compileCorrelateRule strategy rule content)); [done|].
  intros m' y _ IH' r. rewrite elem_of_append_at. intros [?|[_ ->]]; [by apply IH'|eauto].
Qed.

End tables.

(** A table indexed by id finds each of its rules when ids are distinct. *)
Lemma rule_table_lookup rules rule :
  NoDup (er_id <$> rules) → rule ∈ rules →
  foldl (λ m r, <[er_id r := r]> m) (∅ : gmap string effectiveRule) rules !! er_id rule = Some rule.
Proof.
  intros Hnd Hin. assert (∀ m : gmap string effectiveRule,
    foldl (λ m r, <[er_id r := r]> m) m rules !! er_id rule = Some rule) as H; [|apply H].
  induction Hin as [rule l|rule y l Hin IH]; intros m; cbn in *; apply list.NoDup_cons in Hnd as [Hni Hnd].
  - apply (foldl_preserve (λ m : gmap string effectiveRule, m !! er_id rule = Some rule)).
    + by rewrite lookup_insert_eq.
    + intros m' r Hr Hm. rewrite lookup_insert_ne; [done|]. intros E. apply Hni.
      apply list_elem_of_fmap. by exists r.
  - by apply IH.
Qed.

Lemma rule_table_inv rules id rule :
  foldl (λ m r, <[er_id r := r]> m) (∅ : gmap string effectiveRule) rules !! id = Some rule →
  rule ∈ rules ∧ er_id rule = id.
Proof.
  apply (foldl_preserve (λ m : gmap string effectiveRule, m !! id = Some rule → rule ∈ rules ∧ er_id rule = id)).
  - by rewrite lookup_empty.
  - intros m r Hr IH. rewrite lookup_insert_Some. intros [[<- <-]|[_ ?]]; [done|by apply IH].
Qed.

End Dispatch.
