(* ===== verification/EngineProps.v ===== *)
(** * What the engine guarantees

    Theorems about every engine reachable from an accepted policy by any
    sequence of events: the index of waiting groups is exact, no group is
    left out of dispatch, the tables stay within their limits, and every
    signal is explained by the events seen.  Then the behaviour of single
    calls: rejection, identifiers, evidence, suppression, counters. *)

From S2P Require Import Prelude GoStrings GoFloat Matcher EventModel Policy RuleSpec Validation EventView Compiled Engine EngineLogic EngineInv CorrelateInv Dispatch.

Module EngineProps.
Import EventModel Policy RuleSpec Validation EventView Compiled Engine EngineLogic EngineInv
  CorrelateInv Dispatch.

Section engine.
Context (strategy : string) (policy : option DetectionPolicy) (collection : CollectionIntent)
  (content : ContentSnapshot) (limits : EngineLimits).

(** ** The engine of an accepted policy *)

Definition normalized : DetectionPolicy := from_option NormalizeDetectionPolicy DefaultDetectionPolicy policy.
Definition rules : list effectiveRule := resolveRules normalized content.
Definition table : gmap string effectiveRule := foldl (λ m rule, <[er_id rule := rule]> m) ∅ rules.
Definition lim : EngineLimits := normalizeLimits limits.

Definition accepted_engine : Engine :=
  {| e_nextID := 0; e_rules := table; e_cep := ∅; e_cepActive := ∅; e_correlate := ∅;
     e_suppression := ∅; e_limits := lim; e_metrics := zero_Metrics; e_refs := content;
     e_compiled := compileRuntime strategy rules content;
     e_sequence := compileSequenceRuntime strategy rules content;
     e_correlation := compileCorrelateRuntime strategy rules content |}.

Record valid : Prop := {
  valid_ids : NoDup (er_id <$> rules);
  valid_rules : ∀ rule, rule ∈ rules → validateEffectiveRule rule = [];
  valid_specs : ∀ rule, rule ∈ rules → validateRuleSpec (er_spec rule) = [];
  valid_refs : Forall (refs_resolved content) rules
}.

Lemma accepted_valid `{RangeOrder} e rep :
  NewWithRuntimeLimits strategy policy collection content limits = (e, rep) →
  rep_Status rep ≠ "rejected" → e = accepted_engine ∧ valid.
Proof.
  unfold NewWithRuntimeLimits. fold normalized lim rules table. cbv zeta.
  case_bool_decide; [intros [= <- <-]; done|].
  case_bool_decide as Hsel; [intros [= <- <-]; done|].
  case_bool_decide as Herr; [intros [= <- <-]; done|].
  apply dec_stable in Hsel || idtac. apply dec_stable in Herr || idtac.
  intros [= <- _] _. split; [done|].
  rewrite !app_nil in Herr. destruct Herr as (H1 & H2 & H3).
  apply validateRuleSelection_NoDup in Hsel. split; [done| | |by apply validateContentRefs_nil].
  - intros rule Hr. eapply validateEffectiveRules_nil; [exact H1|]. by apply rule_table_lookup.
  - intros rule Hr. by eapply validateRuleSpecs_nil.
Qed.

(** The engines and the events they have processed. *)
Definition seen (ev : option CanonicalEvent) : list CanonicalEvent :=
  match ev with
  | Some ev => match ev_SubjectProc ev with Some _ => [ev] | None => [] end
  | None => []
  end.

Inductive reach : list CanonicalEvent → Engine → Prop :=
| reach_new (o : RangeOrder) e rep :
    NewWithRuntimeLimits strategy policy collection content limits = (e, rep) →
    rep_Status rep ≠ "rejected" → reach [] e
| reach_process (o : RangeOrder) wall elapsed ev hist e :
    reach hist e → reach (hist ++ seen ev) (Process wall elapsed ev e).2.

Lemma reach_valid hist e : reach hist e → valid.
Proof. induction 1; [by eapply accepted_valid|done]. Qed.

(** ** The specifications the invariants refer to, by rule id *)

Definition seq_of (rid : string) : compiledSequence :=
  match table !! rid with
  | Some rule => from_option cru_sequence zero_sequence (compileRule strategy rule content)
  | None => zero_sequence
  end.

Definition by_of (rid : string) : list fieldID :=
  from_option (λ rule, ccr_by (compileCorrelateRule strategy rule content)) [] (table !! rid).

Definition facts_spec (rid : string) : list compiledFact :=
  from_option (λ rule, ccr_facts (compileCorrelateRule strategy rule content)) [] (table !! rid).

Lemma lim_pos : (0 < lim_MaxCEPGroups lim)%Z ∧ (0 < lim_MaxCEPRefs lim)%Z.
Proof.
  unfold lim, normalizeLimits. cbn.
  split; case_match eqn:E; try done; apply Z.leb_gt in E; done.
Qed.

Section valid.
Context (Hvalid : valid).

Lemma table_lookup rule : rule ∈ rules → table !! er_id rule = Some rule.
Proof. apply rule_table_lookup, valid_ids, Hvalid. Qed.

Lemma behaviors_ok rid step : step ∈ csq_steps (seq_of rid) → cst_behavior step ≠ "".
Proof.
  unfold seq_of. destruct (table !! rid) as [rule|] eqn:Et; [|intros []%elem_of_nil].
  apply rule_table_inv in Et as [Hr _].
  unfold compileRule. repeat case_bool_decide; cbn; try intros []%elem_of_nil.
  pose proof (validateEffectiveRule_sequence rule (valid_rules Hvalid _ Hr) ltac:(done)) as [_ HF].
  intros [i Hi]%list_elem_of_lookup_1. rewrite attach_lookup, list_lookup_fmap in Hi.
  destruct (sq_Steps (r_Sequence (er_spec rule)) !! i) as [s|] eqn:Es; [|done].
  cbn in Hi. injection Hi as <-. cbn. rewrite list.Forall_forall in HF.
  apply NormalizeBehavior_nonblank. by eapply HF, list_elem_of_lookup_2.
Qed.

Lemma candidate_seq b active c :
  c ∈ candidatesForBehavior (compileSequenceRuntime strategy rules content) b active →
  cru_sequence (cand_rule c) = seq_of (cand_id c).
Proof.
  intros (rule & Hr & _ & _ & Hc)%elem_of_candidates%compileSequenceRuntime_sound.
  unfold seq_of, cand_id. rewrite (compileRule_rule _ _ _ _ Hc), table_lookup, Hc by done. done.
Qed.

Lemma correlate_spec b r :
  r ∈ correlateRulesForBehavior (compileCorrelateRuntime strategy rules content) b →
  ccr_by r = by_of (er_id (ccr_rule r)) ∧ ccr_facts r = facts_spec (er_id (ccr_rule r)) ∧
  NoDup (cf_id <$> ccr_facts r).
Proof.
  intros (rule & Hr & _ & Hrt & ->)%compileCorrelateRuntime_sound.
  unfold by_of, facts_spec. cbn [ccr_rule compileCorrelateRule]. rewrite table_lookup by done.
  do 2 (split; [done|]). cbn. rewrite <- list_fmap_compose.
  apply (validateRuleSpec_correlate _ (valid_specs Hvalid _ Hr)).
  by apply runtimeType_spec; [set_solver|].
Qed.
End valid.

(** ** Every reachable engine satisfies the invariants *)

Record Inv (hist : list CanonicalEvent) (e : Engine) : Prop := {
  I_statics : statics e = statics accepted_engine;
  I_seq : inv seq_of lim hist e;
  I_corr : corr_inv by_of facts_spec lim hist e;
  I_supp : suppression_bounded e
}.

Section event.
Context `{RangeOrder} (past : list CanonicalEvent) (ev : CanonicalEvent) (Hvalid : valid).
Let hist : list CanonicalEvent := past ++ [ev].
Let view : eventView := newEventView ev.

Definition expr_alert (rule : compiledRule) (sig : Signal) : Prop :=
  eval_both view (ce_conditions (cru_expr rule)) (ce_conditionGroup (cru_expr rule)) None = true ∧
  ∃ n, sig = build_signal content n ev (cru_rule rule) [ev_Id ev] (terminal (cru_rule rule) false)
               (eventEntities ev).

Lemma Inv_frame {A} (c : StateM Engine A) e :
  frame (λ e, (statics e, seq_part e, e_correlate e)) c → suppression_bounded (c e).2 →
  Inv hist e → Inv hist (c e).2.
Proof.
  intros Hf Hs [H1 H2 H3 H4]. specialize (Hf e). cbn in Hf.
  injection Hf as E1 E2 E3 E4 E5 E6 E7 E8 E9. split; [unfold statics in *; congruence| | |done].
  - by apply (inv_ext _ _ hist e).
  - apply (corr_inv_ext _ _ _ hist e); [done|intros; unfold facts_of; by rewrite E9|done].
Qed.

Lemma suppressCompiledRule_refs wall rule : frame e_refs (suppressCompiledRule wall view rule).
Proof. unfold suppressCompiledRule, suppressSignal. frame_solve. Qed.

Lemma run_expr_rule_spec wall rule :
  triple (Inv hist) (run_expr_rule wall view rule) (λ out e, Inv hist e ∧ Forall (expr_alert rule) out).
Proof.
  intros e He. split; [apply Inv_frame; [by apply run_expr_rule_frame| |done];
    by apply run_expr_rule_bounded, (I_supp _ _ He)|].
  unfold run_expr_rule, mbind, StateM_bind. destruct (count _ _ e) as [[] e1] eqn:E1.
  destruct (negb _); [constructor|]. destruct (count _ _ e1) as [[] e2] eqn:E2.
  destruct (cru_kind rule); [|constructor]. rewrite lift_state.
  pose proof (match_both_eval view (ce_conditions (cru_expr rule)) (ce_conditionGroup (cru_expr rule))
    None (e_metrics e2)) as Hok.
  destruct (match_both view _ _ None (e_metrics e2)) as [ok m]. cbn [fst snd] in *. subst ok.
  destruct (eval_both _ _ _ _) eqn:Eev; [|constructor].
  set (e3 := upd_metrics (λ _, m) e2).
  assert (e_refs e3 = content) as Hrefs.
  { subst e3. cbn. change (e_refs e2) with ((statics e2).1.1.1.2).
    assert (statics e2 = statics e) as ->; [|by rewrite (I_statics _ _ He)].
    unfold count, modify in *. simplify_eq. done. }
  destruct (suppressCompiledRule wall view rule e3) as [suppressed e4] eqn:Es.
  destruct suppressed; [constructor|]. repeat constructor; [done|].
  assert (e_refs e4 = content) as Hrefs4.
  { rewrite <- Hrefs. replace e4 with (suppressCompiledRule wall view rule e3).2 by (by rewrite Es).
    apply suppressCompiledRule_refs. }
  eexists. cbn -[build_signal view]. unfold get. rewrite Hrefs4. unfold view. rewrite v_ev_new.
  f_equal. unfold newEventView. by destruct (Cut _ _) as [[??]?].
Qed.

Lemma run_candidate_Inv candidate :
  cru_sequence (cand_rule candidate) = seq_of (cand_id candidate) →
  triple (Inv hist) (run_candidate view candidate)
    (λ out e, Inv hist e ∧ Forall (sequence_alert lim past ev (cand_rule candidate)) out).
Proof.
  intros Hseq e He. destruct lim_pos as [Hg Hr].
  destruct (run_candidate_spec seq_of lim Hg Hr (behaviors_ok Hvalid) past ev candidate Hseq e (I_seq _ _ He))
    as [Hinv Hout]. split; [|done].
  pose proof (run_candidate_frame (λ e, (statics e, e_correlate e, e_suppression e)) view candidate
    (λ _ _, eq_refl) (λ _ _, eq_refl) (λ _ _, eq_refl) (λ _ _, eq_refl) e) as Hf. cbn in Hf.
  injection Hf as E1 E2 E3 E4 E5 E6 E7 E8. destruct He as [H1 H2 H3 H4].
  split; [unfold statics in *; congruence|done| |].
  - apply (corr_inv_ext _ _ _ hist e); [done|intros; unfold facts_of; by rewrite E7|done].
  - unfold suppression_bounded in *. by rewrite E8.
Qed.

Lemma run_correlate_Inv rule :
  ccr_by rule = by_of (er_id (ccr_rule rule)) → ccr_facts rule = facts_spec (er_id (ccr_rule rule)) →
  NoDup (cf_id <$> ccr_facts rule) →
  triple (Inv hist) (run_correlate view rule)
    (λ out e, Inv hist e ∧ Forall (correlate_alert by_of past ev rule) out).
Proof.
  intros Hby Hfacts Hnd e He. destruct lim_pos as [Hg Hr].
  destruct (run_correlate_spec by_of facts_spec lim Hg past ev rule Hby Hfacts Hnd e (I_corr _ _ He))
    as [Hinv Hout]. split; [|done].
  pose proof (run_correlate_frame (λ e, (statics e, seq_part e, e_suppression e)) view rule
    (λ _ _, eq_refl) (λ _ _, eq_refl) (λ _ _, eq_refl) e) as Hf. cbn in Hf.
  injection Hf as E1 E2 E3 E4 E5 E6 E7 E8 E9. destruct He as [H1 H2 H3 H4].
  split; [unfold statics in *; congruence| |done|].
  - by apply (inv_ext _ _ hist e).
  - unfold suppression_bounded in *. by rewrite E9.
Qed.

(** Why a signal was raised: an expression holds of the event, a sequence is
    complete, or all the facts of a correlation were seen. *)
Inductive explained (sig : Signal) : Prop :=
| explained_expr rule c :
    rule ∈ rules → runtimeType rule = "expr" → compileRule strategy rule content = Some c →
    expr_alert c sig → explained sig
| explained_sequence rule c :
    rule ∈ rules → runtimeType rule = "sequence" → compileRule strategy rule content = Some c →
    sequence_alert lim past ev c sig → explained sig
| explained_correlate rule :
    rule ∈ rules → runtimeType rule = "correlate" →
    correlate_alert by_of past ev (compileCorrelateRule strategy rule content) sig → explained sig.

Lemma statics_fields e : statics e = statics accepted_engine →
  e_compiled e = compileRuntime strategy rules content ∧
  e_sequence e = compileSequenceRuntime strategy rules content ∧
  e_correlation e = compileCorrelateRuntime strategy rules content.
Proof. unfold statics. by intros [= ? ? ? -> -> ->]. Qed.

Lemma detectCEPRules_spec wall :
  triple (Inv hist) (detectCEPRules wall view) (λ out e, Inv hist e ∧ Forall explained out).
Proof.
  unfold detectCEPRules.
  eapply (triple_bind _ _ _ (λ e0 e, e0 = e ∧ Inv hist e)); [by apply triple_get|]. intros e1.
  eapply (triple_bind _ _ _ (λ out e, Inv hist e ∧ Forall explained out)).
  { intros e [-> He]. destruct (statics_fields _ (I_statics _ _ He)) as (-> & _ & _).
    revert e He. apply triple_forM_concat. intros c Hc.
    apply compileRuntime_sound in Hc as (rule & Hr & _ & Hrt & Hcomp).
    eapply triple_conseq; [apply (run_expr_rule_spec wall c)|done|].
    intros out e [? HF]. split; [done|]. revert HF. apply Forall_impl. intros sig. by eapply explained_expr. }
  intros out1. eapply (triple_bind _ _ _ (λ e0 e, e0 = e ∧ Inv hist e ∧ Forall explained out1));
    [by apply triple_get|]. intros e2.
  eapply (triple_bind _ _ _ (λ out e, Inv hist e ∧ Forall explained out1 ∧ Forall explained out)).
  { intros e (-> & He & Ho). destruct (statics_fields _ (I_statics _ _ He)) as (_ & -> & _).
    enough (triple (Inv hist) (forM_concat (run_candidate view)
      (candidatesForBehavior (compileSequenceRuntime strategy rules content) (v_behavior view) (e_cepActive e)))
      (λ out e, Inv hist e ∧ Forall explained out)) as Ht by (destruct (Ht e He); auto).
    apply triple_forM_concat. intros c Hc. pose proof (candidate_seq Hvalid _ _ _ Hc) as Hseq.
    apply elem_of_candidates, compileSequenceRuntime_sound in Hc as (rule & Hr & _ & Hrt & Hcomp).
    eapply triple_conseq; [by apply (run_candidate_Inv c)|done|].
    intros out e1' [? HF]. split; [done|]. revert HF. apply Forall_impl. intros sig. by eapply explained_sequence. }
  intros out2. eapply (triple_bind _ _ _ (λ e0 e, e0 = e ∧ Inv hist e ∧ Forall explained (out1 ++ out2)));
    [apply triple_get; intros e (?&?&?); split; [done|]; split; [done|]; by apply Forall_app|]. intros e3.
  eapply (triple_bind _ _ _ (λ out e, Inv hist e ∧ Forall explained ((out1 ++ out2) ++ out))).
  { intros e (-> & He & Ho). destruct (statics_fields _ (I_statics _ _ He)) as (_ & _ & ->).
    enough (triple (Inv hist) (forM_concat (run_correlate view)
      (correlateRulesForBehavior (compileCorrelateRuntime strategy rules content) (v_behavior view)))
      (λ out e, Inv hist e ∧ Forall explained out)) as Ht
      by (destruct (Ht e He); split; [done|]; by apply Forall_app).
    apply triple_forM_concat. intros r Hr'. pose proof (correlate_spec Hvalid _ _ Hr') as (Hb & Hf & Hn).
    apply compileCorrelateRuntime_sound in Hr' as (rule & Hr & _ & Hrt & ->).
    eapply triple_conseq; [by apply (run_correlate_Inv (compileCorrelateRule strategy rule content))|done|].
    intros out e1' [? HF]. split; [done|]. revert HF. apply Forall_impl. intros sig.
    by eapply explained_correlate. }
  intros out3. apply triple_ret. intros e [He Ho]. split; [done|]. by rewrite app_assoc.
Qed.

Lemma Inv_happened e : Inv past e → Inv hist e.
Proof. intros [H1 H2 H3 H4]. split; [done|by apply inv_happened|by apply corr_inv_happened|done]. Qed.

Lemma Inv_metrics f e : Inv hist e → Inv hist (upd_metrics f e).
Proof. intros [H1 H2 H3 H4]. split; [done|by apply inv_metrics|by apply corr_inv_metrics|done]. Qed.

Lemma compact_Some (out : list Signal) : compact (Some <$> out) = out.
Proof. unfold compact. induction out as [|s out IH]; [done|]. cbn. by rewrite IH. Qed.

Lemma process_event_spec wall elapsed :
  triple (Inv past) (process_event wall elapsed ev) (λ out e, Inv hist e ∧ Forall explained out).
Proof.
  unfold process_event. cbv zeta.
  eapply (triple_bind _ _ _ (λ _, Inv hist)); [intros e He; by apply Inv_metrics, Inv_happened|]. intros [].
  eapply (triple_bind _ _ _ (λ _, Inv hist)); [intros e He; by apply Inv_metrics|]. intros [].
  eapply triple_bind; [apply detectCEPRules_spec|]. intros out. rewrite compact_Some.
  eapply (triple_bind _ _ _ (λ _ e, Inv hist e ∧ Forall explained out)).
  { intros e [He Ho]. split; [by apply Inv_metrics|done]. } intros [].
  eapply (triple_bind _ _ _ (λ _ e, Inv hist e ∧ Forall explained out)).
  { intros e [He Ho]. split; [by apply Inv_metrics|done]. } intros [].
  by apply triple_ret.
Qed.
End event.

Lemma Inv_initial : Inv [] accepted_engine.
Proof.
  assert (∀ rid, groups_of accepted_engine rid = ∅) as Hg by (intros; unfold groups_of; cbn; by rewrite lookup_empty).
  assert (∀ rid, facts_of accepted_engine rid = ∅) as Hf by (intros; unfold facts_of; cbn; by rewrite lookup_empty).
  destruct lim_pos as [Hp _]. split; [done| | |done].
  - split; [done| | |].
    + intros rid. rewrite Hg, map_size_empty. lia.
    + intros rid key g. by rewrite Hg, lookup_empty.
    + split; [split; [done|]|].
      * intros b rs. cbn. by rewrite lookup_empty.
      * intros rid b _ _. rewrite Hg. unfold active_count, waiting_count. cbn.
        by rewrite lookup_empty, map_filter_empty, map_size_empty.
  - split; [done| |].
    + intros rid. rewrite Hf, map_size_empty. lia.
    + intros rid key g. by rewrite Hf, lookup_empty.
Qed.

Lemma reach_Inv hist e : reach hist e → Inv hist e.
Proof.
  induction 1 as [o e rep Hnew Hst|o wall elapsed ev hist e Hreach IH].
  { destruct (accepted_valid e rep Hnew Hst) as [-> _]. apply Inv_initial. }
  pose proof (reach_valid _ _ Hreach) as Hv. unfold seen.
  destruct ev as [ev|]; [|by rewrite app_nil_r]. unfold Process.
  destruct (ev_SubjectProc ev); [|by rewrite app_nil_r].
  by apply (process_event_spec hist ev Hv wall elapsed e).
Qed.
End engine.
End EngineProps.
