(* ===== verification/EngineTheorems.v ===== *)
(** * Theorems about the detection engine

    The statements proved of every engine reachable from an accepted policy,
    each with a witness on a concrete rule set, and the concrete runs that
    show behaviour the rules do not ask for. *)

From S2P Require Import Prelude GoStrings GoFloat Matcher EventModel Policy RuleSpec Validation EventView Compiled Engine EngineLogic EngineInv CorrelateInv Dispatch EngineProps.

Module EngineTheorems.
Import EventModel Policy RuleSpec Validation EventView Compiled Engine EngineLogic EngineInv
  CorrelateInv Dispatch EngineProps.

(** ** Fresh identifiers *)

Definition fresh_out (k : Z) (out : option Signal) (e : Engine) : Prop :=
  match out with
  | None => e_nextID e = k
  | Some sig => e_nextID e = u64 (k + 1) ∧ sig_Id sig = signal_id (u64 (k + 1))
  end.

Definition fresh (c : StateM Engine (option Signal)) : Prop :=
  ∀ k, triple (λ e, e_nextID e = k) c (fresh_out k).

Lemma fresh_none : fresh (mret None).
Proof. intros k. by apply triple_ret. Qed.

Lemma fresh_bind {A} (c : StateM Engine A) f :
  frame e_nextID c → (∀ x, fresh (f x)) → fresh (c ≫= f).
Proof.
  intros Hc Hf k. eapply triple_bind; [apply (frame_triple e_nextID c (λ n, n = k) Hc)|].
  intros x. apply Hf.
Qed.

Lemma fresh_signal `{RangeOrder} ev rule refs terminal entities :
  fresh (signal ev rule refs terminal entities ≫= λ sig, mret (Some sig)).
Proof. intros k e <-. done. Qed.

Ltac fresh_solve :=
  repeat first
    [ apply fresh_none | apply fresh_signal
    | apply fresh_bind; [solve [frame_solve]|intros ?]
    | match goal with
      | |- fresh (if ?b then _ else _) => destruct b
      | |- fresh (match ?x with _ => _ end) => destruct x
      end; cbv zeta ].

Lemma detectSequenceCandidate_fresh `{RangeOrder} view c : fresh (detectSequenceCandidate view c).
Proof.
  unfold detectSequenceCandidate, resume_candidate, enter_group, sequence_step, restart_group, live_group,
    evictCEPGroups, expire_group, evict_group, compiledSequenceGroupKey, put_group, delete_group,
    activateSequenceWait, deactivateSequenceWait. cbv zeta. fresh_solve.
Qed.

Lemma detectCorrelateRule_fresh `{RangeOrder} view r : fresh (detectCorrelateRule view r).
Proof.
  unfold detectCorrelateRule, live_facts, target_group, report_group, evictCorrelateGroups,
    compiledSequenceGroupKey, correlateEvidence, put_facts. cbv zeta.
  repeat first [apply fresh_bind; [by apply matchCorrelateFacts_frame|intros ?] | progress fresh_solve].
Qed.

(** A list of signals numbered from [k+1], and the counter after them. *)
Definition numbered_out (k : Z) (out : list Signal) (e : Engine) : Prop :=
  e_nextID e = u64 (k + Z.of_nat (length out)) ∧
  ∀ i sig, out !! i = Some sig → sig_Id sig = signal_id (u64 (k + 1 + Z.of_nat i)).

Definition numbered (c : StateM Engine (list Signal)) : Prop :=
  ∀ k, in_u64 k → triple (λ e, e_nextID e = k) c (numbered_out k).

Lemma u64_add a b : u64 (u64 a + b) = u64 (a + b).
Proof. unfold u64. by rewrite Zplus_mod_idemp_l. Qed.

Lemma numbered_nil : numbered (mret []).
Proof. intros k Hk e <-. split; [|done]. cbn. by rewrite Z.add_0_r, u64_id. Qed.

Lemma numbered_bind {A} (c : StateM Engine A) f :
  frame e_nextID c → (∀ x, numbered (f x)) → numbered (c ≫= f).
Proof.
  intros Hc Hf k Hk. eapply triple_bind; [apply (frame_triple e_nextID c (λ n, n = k) Hc)|].
  intros x. by apply Hf.
Qed.

Lemma numbered_fresh c : fresh c → numbered (c ≫= λ sig, mret (option_list sig)).
Proof.
  intros Hc k Hk. eapply triple_bind; [apply Hc|]. intros [sig|]; apply triple_ret; intros e He.
  - destruct He as [En Eid]. split; [done|]. intros [|i] sig' Hi; [|by destruct i].
    cbn in Hi. rewrite <- (inj Some _ _ Hi), Eid. by rewrite Z.add_0_r.
  - split; [|done]. rewrite He. cbn. by rewrite Z.add_0_r, u64_id.
Qed.

Lemma numbered_append (c : StateM Engine (list Signal)) (d : list Signal → StateM Engine (list Signal)) :
  numbered c → (∀ k out, in_u64 k → triple (λ e, e_nextID e = u64 (k + Z.of_nat (length out))) (d out)
    (λ out' e, ∃ new, out' = out ++ new ∧ numbered_out (u64 (k + Z.of_nat (length out))) new e)) →
  numbered (c ≫= d).
Proof.
  intros Hc Hd k Hk e He. unfold mbind, StateM_bind. destruct (Hc k Hk e He) as [H1 H2].
  destruct (c e) as [out e1]; cbn in *.
  destruct (Hd k out Hk e1 H1) as (new & E & Hn1 & Hn2). rewrite E. split.
  - rewrite Hn1, u64_add, length_app. f_equal. lia.
  - intros i sig Hi. apply lookup_app_Some in Hi as [Hi|[Hge Hi]]; [by apply H2|].
    rewrite (Hn2 _ _ Hi). rewrite <- (Z.add_assoc (u64 _)), u64_add.
    by replace (k + Z.of_nat (length out) + (1 + Z.of_nat (i - length out)))%Z
      with (k + 1 + Z.of_nat i)%Z by lia.
Qed.

Lemma numbered_forM_concat {A} (f : A → StateM Engine (list Signal)) l :
  (∀ x, numbered (f x)) → numbered (forM_concat f l).
Proof.
  intros Hf. induction l as [|x l IH]; cbn; [apply numbered_nil|].
  apply numbered_append; [done|]. intros k out Hk.
  eapply triple_bind; [apply IH, u64_bound|]. intros rest. apply triple_ret. intros e He. by exists rest.
Qed.

Lemma run_expr_rule_numbered `{RangeOrder} wall view rule : numbered (run_expr_rule wall view rule).
Proof.
  unfold run_expr_rule, suppressCompiledRule, suppressSignal.
  apply numbered_bind; [by apply frame_modify|]. intros _.
  destruct (negb _); [apply numbered_nil|]. apply numbered_bind; [by apply frame_modify|]. intros _.
  destruct (cru_kind rule); [|apply numbered_nil].
  apply numbered_bind; [by apply frame_lift|]. intros []; [|apply numbered_nil].
  apply numbered_bind; [frame_solve|]. intros []; [apply numbered_nil|].
  intros k Hk e He. destruct (fresh_signal (v_ev view) (cru_rule rule) [v_eventID view]
    (terminal (cru_rule rule) false) (eventEntities (v_ev view)) k e He) as [H1 H2].
  split; [exact H1|]. intros [|i] sig Hi; [|by destruct i].
  rewrite <- (inj Some _ _ Hi). rewrite Z.add_0_r. exact H2.
Qed.

Lemma detectCEPRules_numbered `{RangeOrder} wall view : numbered (detectCEPRules wall view).
Proof.
  unfold detectCEPRules. apply numbered_bind; [done|]. intros e1.
  apply numbered_append; [apply numbered_forM_concat, run_expr_rule_numbered|]. intros k out1 Hk.
  eapply (triple_bind _ _ _ (λ _ e, e_nextID e = u64 (k + Z.of_nat (length out1)))); [by apply triple_get|].
  intros e2.
  assert (numbered (out2 ← forM_concat (run_candidate view)
      (candidatesForBehavior (e_sequence e2) (v_behavior view) (e_cepActive e2));
    e ← get;
    out3 ← forM_concat (run_correlate view) (correlateRulesForBehavior (e_correlation e) (v_behavior view));
    mret (out2 ++ out3))) as Hrest.
  { apply numbered_append.
    - apply numbered_forM_concat. intros c. unfold run_candidate.
      apply numbered_bind; [by apply frame_modify|]. intros _.
      destruct (negb _); [apply numbered_nil|]. apply numbered_bind; [by apply frame_modify|]. intros _.
      apply numbered_fresh, detectSequenceCandidate_fresh.
    - intros k' out2 Hk'.
      eapply (triple_bind _ _ _ (λ _ e, e_nextID e = u64 (k' + Z.of_nat (length out2)))); [by apply triple_get|].
      intros e3. eapply triple_bind.
      + apply numbered_forM_concat; [|apply u64_bound]. intros r. unfold run_correlate.
        do 2 (apply numbered_bind; [by apply frame_modify|]; intros _).
        apply numbered_fresh, detectCorrelateRule_fresh.
      + intros out3. apply triple_ret. intros e He. by exists out3. }
  intros e He. destruct (Hrest _ (u64_bound _) e He) as [H1 H2].
  unfold mbind, StateM_bind in *.
  destruct (forM_concat (run_candidate view) _ e) as [out2 e3]. unfold get in *. cbv beta iota in *.
  destruct (forM_concat (run_correlate view) _ e3) as [out3 e4]. exists (out2 ++ out3). by split.
Qed.

Lemma Process_numbered `{RangeOrder} wall elapsed ev : numbered (Process wall elapsed ev).
Proof.
  unfold Process, process_event. destruct ev as [ev|]; [|apply numbered_nil].
  destruct (ev_SubjectProc ev); [|apply numbered_nil]. cbv zeta.
  do 2 (apply numbered_bind; [by apply frame_modify|]; intros _).
  intros k Hk. eapply triple_bind; [by apply detectCEPRules_numbered|]. intros out e He.
  rewrite compact_Some. done.
Qed.

(** ** Reachable engines *)

Section reachable.
Context (strategy : string) (policy : option DetectionPolicy) (collection : CollectionIntent)
  (content : ContentSnapshot) (limits : EngineLimits).

Local Abbreviation reach := (reach strategy policy collection content limits).
Local Abbreviation rules := (rules policy content).
Local Abbreviation lim := (lim limits).

(** C1. Every signal is explained: whatever an engine of an accepted policy
    emits for an event is either an expression rule whose conditions hold of
    that event, a sequence rule all of whose steps were matched by events
    seen so far, in order, under one group key and before the group expired,
    or a correlation every fact of which was matched by an event seen so far
    under one group key.  The signal is the one built for that rule. *)
Theorem signals_explained (hist : list CanonicalEvent) (e : Engine) (o : RangeOrder)
    (wall : string → Z) (elapsed : Z) (ev : CanonicalEvent) :
  reach hist e → is_Some (ev_SubjectProc ev) →
  Forall (explained strategy policy content limits hist ev) (Process wall elapsed (Some ev) e).1.
Proof.
  intros Hr [proc Hproc]. unfold Process. rewrite Hproc.
  apply (process_event_spec strategy policy content limits hist ev (reach_valid _ _ _ _ _ _ _ Hr)).
  by eapply reach_Inv.
Qed.

(** C11. The index of waiting sequences is exact for rules that have an id:
    after any sequence of events, the counter of a non-empty behaviour and a
    non-empty rule id is the number of the rule's groups that wait for that
    behaviour.  (A rule without an id passes validation and is not indexed:
    [blank_rule_id_never_completes].) *)
Theorem wait_index_exact (hist : list CanonicalEvent) (e : Engine) (rid b : string) :
  reach hist e → rid ≠ "" → b ≠ "" →
  active_count (e_cepActive e) b rid = Z.of_nat (waiting_count (groups_of e rid) b).
Proof. intros Hr Hrid Hb. by apply (inv_index _ _ _ _ (I_seq _ _ _ _ _ _ (reach_Inv _ _ _ _ _ _ _ Hr))). Qed.

(** C15. No waiting group of a rule that has an id is left out: when an event
    arrives with the behaviour a group in progress waits for, and the id of
    the group's rule is not empty, the candidates of that behaviour include
    the rule at exactly the group's step.  (A rule without an id passes
    validation and is never a candidate past its first step:
    [blank_rule_id_never_completes].) *)
Theorem dispatch_complete (hist : list CanonicalEvent) (e : Engine) (rule : effectiveRule)
    (key : string) (g : cepGroupState) :
  reach hist e → rule ∈ rules → runtimeType rule = "sequence" → er_id rule ≠ "" →
  groups_of e (er_id rule) !! key = Some g → (0 < g_StepIndex g)%nat →
  ∃ c, c ∈ candidatesForBehavior (e_sequence e) (g_WaitingBehavior g) (e_cepActive e) ∧
    compileRule strategy rule content = Some (cand_rule c) ∧
    cand_stepIndex c = g_StepIndex g ∧ cand_firstStep c = false.
Proof.
  intros Hr Hin Hrt Hid Hg Hpos. pose proof (reach_valid _ _ _ _ _ _ _ Hr) as Hv.
  pose proof (reach_Inv _ _ _ _ _ _ _ Hr) as HI.
  destruct (compileRule_sequence strategy content rule Hrt) as (c & Hc & _).
  destruct (inv_group _ _ _ _ (I_seq _ _ _ _ _ _ HI) _ _ _ Hg) as [Hw _ _].
  unfold waits_for_step in Hw. destruct (g_StepIndex g) as [|i] eqn:Ei; [lia|].
  destruct Hw as (step & Hstep & Hwb).
  assert (seq_of strategy policy content (er_id rule) = cru_sequence c) as Hseq
    by (unfold seq_of; by rewrite (table_lookup _ _ Hv rule Hin), Hc).
  pose proof (behaviors_ok strategy policy content Hv (er_id rule) step) as Hb.
  rewrite Hseq in Hstep, Hb. specialize (Hb ltac:(by eapply list_elem_of_lookup_2)).
  exists (MkCandidate c (S i) false). split; [|done].
  destruct (statics_fields _ _ _ _ _ (I_statics _ _ _ _ _ _ HI)) as (_ & -> & _).
  unfold candidatesForBehavior. rewrite !elem_of_app. right; left. apply list_elem_of_filter. split.
  - unfold cand_id. cbn [cand_rule]. rewrite (compileRule_rule _ _ _ _ Hc), Hwb.
    destruct (inv_index _ _ _ _ (I_seq _ _ _ _ _ _ HI)) as [_ Hcount]. rewrite Hcount by done.
    rewrite (waiting_count_lookup _ key), Hg. cbn. rewrite decide_True by done. lia.
  - rewrite Hwb. eapply compileSequenceRuntime_next; [exact Hin| |done..].
    by apply elem_of_resolveRules in Hin as [? _].
Qed.

(** C27. Every group in progress is a partial match: events seen so far, in
    order, took a fresh group of that key through as many steps as the group
    counts, each satisfying its step and arriving before the expiry. *)
Theorem groups_are_partial_matches (hist : list CanonicalEvent) (e : Engine) (rid key : string)
    (g : cepGroupState) :
  reach hist e → groups_of e rid !! key = Some g →
  ∃ evs, run_of (lim_MaxCEPRefs lim) (seq_of strategy policy content rid) key evs g ∧
         happened hist evs ∧ length evs = g_StepIndex g.
Proof.
  intros Hr Hg. destruct (inv_group _ _ _ _ (I_seq _ _ _ _ _ _ (reach_Inv _ _ _ _ _ _ _ Hr)) _ _ _ Hg)
    as [_ _ (evs & Hrun & Hh)].
  exists evs. split; [done|]. split; [done|]. by eapply run_of_length.
Qed.

(** C31. The state stays within its limits: no rule ever holds more groups
    than [MaxCEPGroups], no group more references than [MaxCEPRefs], and
    there are never more than 8192 suppression windows. *)
Theorem state_bounded (hist : list CanonicalEvent) (e : Engine) (rid : string) :
  reach hist e →
  (Z.of_nat (size (groups_of e rid)) ≤ lim_MaxCEPGroups lim)%Z ∧
  (Z.of_nat (size (facts_of e rid)) ≤ lim_MaxCEPGroups lim)%Z ∧
  (∀ key g, groups_of e rid !! key = Some g → (Z.of_nat (length (g_Refs g)) ≤ lim_MaxCEPRefs lim)%Z) ∧
  (Z.of_nat (size (e_suppression e)) ≤ maxSuppressionKeys)%Z.
Proof.
  intros Hr. destruct (reach_Inv _ _ _ _ _ _ _ Hr) as [_ Hs Hc Hsupp].
  split; [apply (inv_size _ _ _ _ Hs)|]. split; [apply (ci_size _ _ _ _ _ Hc)|]. split; [|done].
  intros key g Hg. by apply (inv_group _ _ _ _ Hs) in Hg as [_ ? _].
Qed.

(** What acceptance of a policy guarantees of its rules: distinct ids,
    resolved content references, and for every sequence rule at least one
    step, each with an id of its own and a behaviour, whose conditions are
    supported and refer to earlier steps only. *)
Theorem accepted_rules (o : RangeOrder) (e : Engine) (rep : ApplyReport) :
  NewWithRuntimeLimits strategy policy collection content limits = (e, rep) →
  rep_Status rep ≠ "rejected" →
  NoDup (er_id <$> rules) ∧ Forall (refs_resolved content) rules ∧
  ∀ rule, rule ∈ rules → runtimeType rule = "sequence" →
    let steps := sq_Steps (r_Sequence (er_spec rule)) in
    steps ≠ [] ∧
    ∀ i step, steps !! i = Some step →
      TrimSpace (st_ID step) ≠ "" ∧ TrimSpace (st_Behavior step) ≠ "" ∧ step_ok (prior_ids steps i) step.
Proof.
  intros Hnew Hst. destruct (accepted_valid _ _ _ _ _ e rep Hnew Hst) as [_ Hv].
  split; [apply Hv|]. split; [apply Hv|]. intros rule Hin Hrt steps.
  destruct (validateEffectiveRule_sequence rule (valid_rules _ _ Hv rule Hin) Hrt) as [Hne HF].
  split; [done|]. intros i step Hi.
  pose proof (valid_specs _ _ Hv rule Hin) as Hspec. unfold validateRuleSpec in Hspec.
  rewrite (runtimeType_spec rule "sequence") in Hspec by (done || set_solver). cbn in Hspec.
  apply app_nil in Hspec as [_ Hspec]. unfold validateSequence in Hspec. apply app_nil in Hspec as [_ Hspec].
  rewrite list.Forall_forall in HF. destruct (HF step) as [? ?]; [by eapply list_elem_of_lookup_2|].
  split; [done|]. split; [done|]. rewrite <- (right_id_L ∅ (∪) (prior_ids steps i)).
  by eapply validate_steps_nil.
Qed.
End reachable.

(** ** Rejection *)

(** The engines a sequence of calls leads to. *)
Inductive calls : Engine → Engine → Prop :=
| calls_none e : calls e e
| calls_process (o : RangeOrder) wall elapsed ev e e' :
    calls e e' → calls e (Process wall elapsed ev e').2.

Definition no_rules (e : Engine) : Prop :=
  e_compiled e = MkCompiledRuntime ∅ [] ∧ e_sequence e = MkCompiledSequenceRuntime ∅ ∅ [] ∧
  e_correlation e = MkCompiledCorrelateRuntime ∅.

Lemma Process_no_rules `{RangeOrder} wall elapsed ev e :
  no_rules e → (Process wall elapsed ev e).1 = [] ∧ no_rules (Process wall elapsed ev e).2.
Proof.
  intros (E1 & E2 & E3). split.
  - destruct ev as [ev|]; [|done]. unfold Process. destruct (ev_SubjectProc ev); [|done].
    unfold process_event, detectCEPRules, mbind, StateM_bind, get. cbn -[newEventView].
    rewrite E1. unfold rulesForBehavior. cbn -[newEventView]. rewrite lookup_empty. cbn -[newEventView].
    rewrite E2. unfold candidatesForBehavior. cbn -[newEventView]. rewrite !lookup_empty. cbn -[newEventView].
    rewrite E3. unfold correlateRulesForBehavior. cbn -[newEventView]. by rewrite lookup_empty.
  - pose proof (Process_statics wall elapsed ev e) as Hs. unfold statics in Hs.
    injection Hs as _ _ _ H1 H2 H3. unfold no_rules. by rewrite H1, H2, H3.
Qed.

(** A rejected policy detects nothing: an engine built from a policy
    that was rejected never emits a signal, whatever events it is given. *)
Theorem rejected_is_silent (o o' : RangeOrder) (strategy : string) (policy : option DetectionPolicy)
    (collection : CollectionIntent) (content : ContentSnapshot) (limits : EngineLimits)
    (e e' : Engine) (rep : ApplyReport) (wall : string → Z) (elapsed : Z) (ev : option CanonicalEvent) :
  @NewWithRuntimeLimits o strategy policy collection content limits = (e, rep) →
  rep_Status rep = "rejected" → calls e e' →
  (@Process o' wall elapsed ev e').1 = [].
Proof.
  intros Hnew Hrej Hcalls. assert (no_rules e) as He.
  { revert Hnew. unfold NewWithRuntimeLimits. cbv zeta.
    repeat case_bool_decide; intros [= <- <-]; done. }
  assert (no_rules e') as He' by (induction Hcalls; [done|by apply Process_no_rules; auto]).
  by apply Process_no_rules.
Qed.

(** ** Identifiers *)

(** The signals of one call carry consecutive identifiers that start
    after the engine's counter, and no two of them are equal as long as the
    64-bit counter does not wrap; the counter ends on the last one. *)
Theorem signal_ids_fresh (o : RangeOrder) (wall : string → Z) (elapsed : Z) (ev : option CanonicalEvent)
    (e : Engine) (out : list Signal) (e' : Engine) :
  in_u64 (e_nextID e) → Process wall elapsed ev e = (out, e') →
  (e_nextID e + Z.of_nat (length out) < 2 ^ 64)%Z →
  e_nextID e' = (e_nextID e + Z.of_nat (length out))%Z ∧
  (∀ i sig, out !! i = Some sig → sig_Id sig = signal_id (e_nextID e + 1 + Z.of_nat i)) ∧
  NoDup (sig_Id <$> out).
Proof.
  intros Hn Hp Hov. pose proof (Process_numbered wall elapsed ev _ Hn e eq_refl) as [H1 H2].
  rewrite Hp in H1, H2. cbn in H1, H2. unfold in_u64 in Hn.
  assert (∀ i sig, out !! i = Some sig → sig_Id sig = signal_id (e_nextID e + 1 + Z.of_nat i)) as Hid.
  { intros i sig Hi. rewrite (H2 _ _ Hi), u64_id; [done|]. apply lookup_lt_Some in Hi. unfold in_u64. lia. }
  split; [rewrite H1; apply u64_id; unfold in_u64; lia|]. split; [done|].
  apply NoDup_alt. intros i j x Hi Hj. rewrite list_lookup_fmap in Hi, Hj.
  destruct (out !! i) as [si|] eqn:Ei; [|done]. destruct (out !! j) as [sj|] eqn:Ej; [|done].
  cbn in Hi, Hj. injection Hi as <-. injection Hj as Hj. rewrite (Hid _ _ Ei), (Hid _ _ Ej) in Hj.
  apply lookup_lt_Some in Ei. apply lookup_lt_Some in Ej.
  unfold signal_id in Hj. apply (inj (String.append _)) in Hj. apply Sprintf_020d_inj in Hj; unfold in_u64; lia.
Qed.

(** Eviction makes room: on any engine with a positive limit, the eviction
    loop of a sequence rule ends with fewer groups than the limit, so the
    allocation that follows respects it. *)
Theorem evictCEPGroups_makes_room (o : RangeOrder) (rid : string) (now : Z) (e : Engine) :
  (0 < lim_MaxCEPGroups (e_limits e))%Z →
  (Z.of_nat (size (groups_of (evictCEPGroups rid now e).2 rid)) < lim_MaxCEPGroups (e_limits e))%Z.
Proof.
  intros Hpos. unfold evictCEPGroups, mbind, StateM_bind, get. cbv beta iota.
  destruct (Z.ltb_spec (Z.of_nat (size (groups_of e rid))) (lim_MaxCEPGroups (e_limits e))); [done|].
  assert (frame e_limits (forM_ (expire_group rid now) (range_keys (groups_of e rid)))) as Hf.
  { unfold expire_group, delete_group, deactivateSequenceWait. frame_solve. }
  specialize (Hf e). destruct (forM_ (expire_group rid now) _ e) as [[] e1]. cbn in Hf.
  rewrite groups_of_evict_groups, Hf. by apply evicted_size.
Qed.

(** ** Signals *)

Lemma appendRefs_spec base refs :
  NoDup base → "" ∉ base →
  NoDup (appendRefs base refs) ∧ ∀ r, r ∈ appendRefs base refs ↔ r ∈ base ∨ (r ∈ refs ∧ r ≠ "").
Proof.
  unfold appendRefs. revert base. induction refs as [|x refs IH]; intros base Hnd Hne; cbn.
  { split; [done|]. intros r. rewrite elem_of_nil. tauto. }
  assert (NoDup (appendUnique base x) ∧ ("" ∉ appendUnique base x) ∧
    ∀ r, r ∈ appendUnique base x ↔ r ∈ base ∨ (r = x ∧ r ≠ "")) as (H1 & H2 & H3).
  { unfold appendUnique. repeat case_bool_decide; subst.
    - split; [done|]. split; [done|]. naive_solver.
    - split; [done|]. split; [done|]. naive_solver.
    - split; [apply list.NoDup_app; split; [done|]; split; [set_solver|apply NoDup_singleton]|].
      split; [set_solver|]. intros r. rewrite elem_of_app, list_elem_of_singleton. naive_solver. }
  destruct (IH _ H1 H2) as [H4 H5]. split; [done|]. intros r. rewrite H5, H3, elem_of_cons. naive_solver.
Qed.

(** Every signal the engine builds is well formed: its references are the
    given non-blank ones without repetition, or the event's own id when there
    are none; it carries an evidence bundle exactly when it is terminal, with
    the same references and an id derived from its own. *)
Theorem signal_wellformed (o : RangeOrder) (ev : CanonicalEvent) (rule : effectiveRule)
    (refs : list string) (term : bool) (entities : list EntityRef) (e : Engine) :
  let sig := (signal ev rule refs term entities e).1 in
  sig_RuleId sig = er_id rule ∧ NoDup (sig_EventRefs sig) ∧
  ((∀ r, r ∈ sig_EventRefs sig ↔ r ∈ refs ∧ r ≠ "") ∨
   (Forall (λ r, r = "") refs ∧ sig_EventRefs sig = [ev_Id ev])) ∧
  match sig_Evidence sig with
  | Some b => term = true ∧ evb_EventRefs b = sig_EventRefs sig ∧ evb_Id b = "evb-" +:+ sig_Id sig ∧
              evb_Entities b = sig_Entities sig
  | None => term = false
  end.
Proof.
  cbv zeta.
  change (signal ev rule refs term entities e).1
    with (build_signal (e_refs e) (u64 (e_nextID e + 1)) ev rule refs term entities).
  unfold build_signal. cbn [sig_RuleId sig_EventRefs sig_Evidence sig_Id sig_Entities].
  destruct (appendRefs_spec [] refs) as [Hnd Hin].
  { constructor. } { apply not_elem_of_nil. }
  split; [done|]. destruct (appendRefs [] refs) as [|r0 rest] eqn:Er.
  - split; [apply NoDup_singleton|]. split; [right; split; [|done]|by destruct term].
    apply list.Forall_forall. intros r Hr. destruct (decide (r = "")) as [|Hne]; [done|].
    assert (r ∈ []) as []%elem_of_nil. apply Hin. by right.
  - split; [done|]. split; [left|by destruct term].
    intros r. rewrite Hin, elem_of_nil. tauto.
Qed.

(** ** Suppression windows *)

Definition suppression_key (view : eventView) (rule : compiledRule) : string :=
  Join (("rule=" +:+ er_id (cru_rule rule)) :: (key_part view <$> cs_by (ce_suppression (cru_expr rule)))) "|".

Lemma suppression_key_nonempty view rule : suppression_key view rule ≠ "".
Proof.
  unfold suppression_key. destruct (key_part view <$> _) as [|p ps]; cbn [Join];
    change ("rule=" +:+ ?s) with (String "r" ("ule=" +:+ s)); rewrite ?string_app_cons; done.
Qed.

Section suppression.
Context `{RangeOrder} (rule : compiledRule).
Let within := cs_within (ce_suppression (cru_expr rule)).
Let now (wall : string → Z) (view : eventView) := eventWallTime (wall (er_id (cru_rule rule))) (v_ev view).
Context (Hwithin : (0 < within)%Z) (Hby : cs_by (ce_suppression (cru_expr rule)) ≠ []).

Lemma suppressCompiledRule_eq wall view e :
  suppressCompiledRule wall view rule e =
  suppressSignal (suppression_key view rule) (now wall view) within
    (count upd_FieldReads (Z.of_nat (length (cs_by (ce_suppression (cru_expr rule))))) e).2.
Proof.
  unfold suppressCompiledRule. cbv zeta. fold within.
  rewrite (proj2 (Z.leb_gt within 0)) by done. rewrite bool_decide_eq_false_2 by done. done.
Qed.

(** A key whose window is open is suppressed. *)
Lemma suppressSignal_open key t e x :
  key ≠ "" → e_suppression e !! key = Some x → (t < x)%Z → suppressSignal key t within e = (true, e).
Proof.
  intros Hk Hx Ht. unfold suppressSignal. rewrite bool_decide_eq_false_2 by done.
  rewrite (proj2 (Z.leb_gt within 0)) by done. cbn [orb].
  unfold mbind, StateM_bind, gets. cbv beta iota. rewrite Hx.
  by rewrite (proj2 (Z.ltb_lt t x)) by done.
Qed.

(** A key that is let through opens its window. *)
Lemma suppressSignal_opens key t e :
  key ≠ "" → (suppressSignal key t within e).1 = false →
  e_suppression (suppressSignal key t within e).2 !! key = Some (t + within)%Z.
Proof.
  intros Hk. unfold suppressSignal. rewrite bool_decide_eq_false_2 by done.
  rewrite (proj2 (Z.leb_gt within 0)) by done. cbn [orb].
  unfold mbind, StateM_bind, gets. cbv beta iota.
  destruct (match e_suppression e !! key with Some _ => _ | None => _ end); [done|].
  intros _. cbn. by rewrite lookup_insert_eq.
Qed.

Lemma run_expr_rule_open wall view e x :
  e_suppression e !! suppression_key view rule = Some x → (now wall view < x)%Z →
  (run_expr_rule wall view rule e).1 = [].
Proof.
  intros Hx Ht. unfold run_expr_rule, mbind, StateM_bind. cbv beta iota.
  destruct (count _ _ e) as [[] e1] eqn:E1. destruct (negb _); [done|].
  destruct (count _ _ e1) as [[] e2] eqn:E2. destruct (cru_kind rule); [|done].
  rewrite lift_state. destruct (match_both _ _ _ _ _) as [[] m]; [|done]. cbn [fst snd].
  rewrite suppressCompiledRule_eq. erewrite suppressSignal_open; [done| | |done].
  - apply suppression_key_nonempty.
  - unfold count, modify in *. simplify_eq. exact Hx.
Qed.

Lemma run_expr_rule_opens wall view e :
  (run_expr_rule wall view rule e).1 ≠ [] →
  e_suppression (run_expr_rule wall view rule e).2 !! suppression_key view rule
  = Some (now wall view + within)%Z.
Proof.
  unfold run_expr_rule, mbind, StateM_bind. cbv beta iota.
  destruct (count _ _ e) as [[] e1]. destruct (negb _); [done|].
  destruct (count _ _ e1) as [[] e2]. destruct (cru_kind rule); [|done].
  rewrite lift_state. destruct (match_both _ _ _ _ _) as [[] m]; [|done]. cbn [fst snd].
  rewrite suppressCompiledRule_eq. set (e3 := (count _ _ _).2).
  pose proof (suppressSignal_opens (suppression_key view rule) (now wall view) e3
    (suppression_key_nonempty view rule)) as Hopen.
  destruct (suppressSignal _ _ _ e3) as [[] e4]; [done|]. intros _. by apply Hopen.
Qed.
End suppression.

(** A suppressed rule stays quiet for its window: once an expression rule
    with a suppression window has emitted for a key, the next event with the
    same key and a wall-clock time inside the window emits nothing. *)
Theorem suppression_window (o : RangeOrder) (rule : compiledRule) (wall wall' : string → Z)
    (view view' : eventView) (e : Engine) :
  let s := ce_suppression (cru_expr rule) in
  let now w v := eventWallTime (w (er_id (cru_rule rule))) (v_ev v) in
  (0 < cs_within s)%Z → cs_by s ≠ [] →
  key_part view <$> cs_by s = key_part view' <$> cs_by s →
  (run_expr_rule wall view rule e).1 ≠ [] →
  (now wall' view' < now wall view + cs_within s)%Z →
  (run_expr_rule wall' view' rule (run_expr_rule wall view rule e).2).1 = [].
Proof.
  cbv zeta. intros Hw Hby Hkey Hemit Hnow. eapply run_expr_rule_open; [done|done| |exact Hnow].
  replace (suppression_key view' rule) with (suppression_key view rule)
    by (unfold suppression_key; by rewrite Hkey).
  by apply run_expr_rule_opens.
Qed.

(** ** Concrete rules and events *)

#[local] Existing Instance elements_order.

Definition demo_rule (id runtime : string) (expr : ExprSpec) (steps : list StepSpec)
    (facts : list FactSpec) (suppression : SuppressionSpec) (behaviors : list string) : RuleSpec :=
  {| r_RuleID := id; r_Version := 1; r_RuleSetRef := "rs"; r_Where := "endpoint"; r_Severity := "high";
     r_Runtime := runtime; r_RuntimeType := ""; r_Expr := expr;
     r_Sequence := MkSequenceSpec 1000 ["lineage_id"] steps;
     r_Correlate := MkCorrelateSpec (if bool_decide (facts = []) then 0 else 1000) "" ["lineage_id"] facts;
     r_Suppression := suppression; r_RequiredEvents := []; r_RequiredBehaviors := behaviors;
     r_ContextRefs := []; r_IOCRefs := []; r_ResponseIntent := None; r_Terminal := None |}.

Definition demo_step (id behavior : string) (conditions : list ConditionSpec) : StepSpec :=
  MkStepSpec id behavior conditions None.

Definition demo_sequence (id : string) (steps : list StepSpec) : RuleSpec :=
  demo_rule id "sequence" (MkExprSpec [] None) steps [] (MkSuppressionSpec 0 []) [].

Definition is_shell : ConditionSpec := MkConditionSpec "process.binary" "suffix" "/sh" [] "" "" "".

Definition demo_expr : RuleSpec :=
  demo_rule "shell" "expr" (MkExprSpec [is_shell] None) [] [] (MkSuppressionSpec 1000 ["lineage_id"])
    ["process.exec"].

Definition demo_policy : DetectionPolicy :=
  MkDetectionPolicy "" 0 "" (MkScopeSelector "" "") [MkRuleSetRef "rs" "" None []] [] [] [].

Definition demo_content (specs : list RuleSpec) : ContentSnapshot := MkContentSnapshot ∅ ∅ specs.

Definition demo_new (specs : list RuleSpec) (limits : EngineLimits) : Engine * ApplyReport :=
  @NewWithRuntimeLimits elements_order Matcher.StrategyLinear (Some demo_policy) zero_CollectionIntent
    (demo_content specs) limits.

Definition demo_process (ev : CanonicalEvent) (e : Engine) : list Signal * Engine :=
  @Process elements_order (λ _, 0%Z) 1 (Some ev) e.

(** An event of a given lineage. *)
Definition demo_event (id behavior binary lineage : string) (at_ns : Z) : CanonicalEvent :=
  let ev := sample_event behavior binary at_ns in
  {| ev_Id := id; ev_Seq := ev_Seq ev; ev_AgentId := ev_AgentId ev; ev_HostId := ev_HostId ev;
     ev_MonoNs := ev_MonoNs ev; ev_SubjectProc := ev_SubjectProc ev; ev_Object := ev_Object ev;
     ev_ParentStableId := ev_ParentStableId ev; ev_LineageId := lineage; ev_RawRef := ev_RawRef ev;
     ev_TenantId := ev_TenantId ev; ev_Scope := ev_Scope ev; ev_ContainerId := ev_ContainerId ev;
     ev_Cgroup := ev_Cgroup ev; ev_Namespace := ev_Namespace ev; ev_Pod := ev_Pod ev;
     ev_OccurredAtNs := at_ns; ev_Behavior := behavior; ev_Labels := ev_Labels ev |}.

Definition drop_chain : RuleSpec :=
  demo_sequence "chain" [demo_step "a" "process.exec" [is_shell]; demo_step "b" "file.write" []].

Definition ev_exec : CanonicalEvent := demo_event "e1" "process.exec" "/bin/sh" "L1" 5.
Definition ev_write : CanonicalEvent := demo_event "e2" "file.write" "/bin/sh" "L1" 6.

Definition demo_limits : EngineLimits := MkEngineLimits 0 0.
Definition demo_specs : list RuleSpec := [drop_chain; demo_expr].
Definition demo_e0 : Engine := (demo_new demo_specs demo_limits).1.
Definition demo_e1 : Engine := (demo_process ev_exec demo_e0).2.

Local Abbreviation demo_reach :=
  (reach Matcher.StrategyLinear (Some demo_policy) zero_CollectionIntent (demo_content demo_specs) demo_limits).

Lemma demo_reach1 : demo_reach [ev_exec] demo_e1.
Proof.
  apply (reach_process _ _ _ _ _ elements_order (λ _, 0%Z) 1 (Some ev_exec) [] demo_e0).
  eapply (reach_new _ _ _ _ _ elements_order); [apply surjective_pairing|by vm_compute].
Qed.

(** The sequence is in progress, and the next event completes it. *)
Example demo_run :
  (λ g, (g_StepIndex g, g_WaitingBehavior g)) <$> groups_of demo_e1 "chain" !! "lineage_id=L1"
    = Some (1%nat, "file.write") ∧
  (λ s, (sig_RuleId s, sig_EventRefs s)) <$> (demo_process ev_write demo_e1).1 = [("chain", ["e1"; "e2"])].
Proof. by vm_compute. Qed.

Lemma signals_explained_witness :
  Forall (explained Matcher.StrategyLinear (Some demo_policy) (demo_content demo_specs) demo_limits
            [ev_exec] ev_write) (demo_process ev_write demo_e1).1 ∧
  length (demo_process ev_write demo_e1).1 = 1%nat.
Proof.
  split; [|by vm_compute].
  apply (signals_explained _ _ zero_CollectionIntent); [apply demo_reach1|by eexists].
Defined.

Lemma wait_index_exact_witness :
  active_count (e_cepActive demo_e1) "file.write" "chain"
    = Z.of_nat (waiting_count (groups_of demo_e1 "chain") "file.write") ∧
  active_count (e_cepActive demo_e1) "file.write" "chain" = 1%Z.
Proof.
  split; [|by vm_compute]. eapply wait_index_exact; [apply demo_reach1|done|done].
Defined.

Definition demo_chain_rule : effectiveRule := effective (NormalizeDetectionPolicy demo_policy) drop_chain.
Definition demo_group : cepGroupState := default new_group (groups_of demo_e1 "chain" !! "lineage_id=L1").

Lemma demo_chain_in : demo_chain_rule ∈ rules (Some demo_policy) (demo_content demo_specs).
Proof.
  assert (rules (Some demo_policy) (demo_content demo_specs)
    = [demo_chain_rule; effective (NormalizeDetectionPolicy demo_policy) demo_expr]) as -> by reflexivity.
  left.
Qed.

Lemma dispatch_complete_witness :
  ∃ c, c ∈ candidatesForBehavior (e_sequence demo_e1) (g_WaitingBehavior demo_group) (e_cepActive demo_e1) ∧
    compileRule Matcher.StrategyLinear demo_chain_rule (demo_content demo_specs) = Some (cand_rule c) ∧
    cand_stepIndex c = g_StepIndex demo_group ∧ cand_firstStep c = false.
Proof.
  apply (dispatch_complete _ (Some demo_policy) zero_CollectionIntent _ demo_limits [ev_exec] demo_e1
    demo_chain_rule "lineage_id=L1" demo_group).
  - apply demo_reach1.
  - apply demo_chain_in.
  - by vm_compute.
  - done.
  - by vm_compute.
  - vm_compute. lia.
Defined.

Lemma groups_are_partial_matches_witness :
  ∃ evs, run_of 128 (seq_of Matcher.StrategyLinear (Some demo_policy) (demo_content demo_specs) "chain")
           "lineage_id=L1" evs demo_group ∧ happened [ev_exec] evs ∧ length evs = g_StepIndex demo_group.
Proof.
  apply (groups_are_partial_matches _ (Some demo_policy) zero_CollectionIntent _ demo_limits [ev_exec] demo_e1
    "chain" "lineage_id=L1" demo_group); [apply demo_reach1|by vm_compute].
Defined.

Lemma state_bounded_witness :
  (Z.of_nat (size (groups_of demo_e1 "chain")) ≤ 4096)%Z ∧ (Z.of_nat (size (facts_of demo_e1 "chain")) ≤ 4096)%Z ∧
  (∀ key g, groups_of demo_e1 "chain" !! key = Some g → (Z.of_nat (length (g_Refs g)) ≤ 128)%Z) ∧
  (Z.of_nat (size (e_suppression demo_e1)) ≤ maxSuppressionKeys)%Z.
Proof.
  apply (state_bounded Matcher.StrategyLinear (Some demo_policy) zero_CollectionIntent (demo_content demo_specs)
    demo_limits [ev_exec]). apply demo_reach1.
Defined.

Lemma accepted_rules_witness :
  NoDup (er_id <$> rules (Some demo_policy) (demo_content demo_specs)) ∧
  Forall (refs_resolved (demo_content demo_specs)) (rules (Some demo_policy) (demo_content demo_specs)) ∧
  ∀ rule, rule ∈ rules (Some demo_policy) (demo_content demo_specs) → runtimeType rule = "sequence" →
    let steps := sq_Steps (r_Sequence (er_spec rule)) in
    steps ≠ [] ∧
    ∀ i step, steps !! i = Some step →
      TrimSpace (st_ID step) ≠ "" ∧ TrimSpace (st_Behavior step) ≠ "" ∧ step_ok (prior_ids steps i) step.
Proof.
  eapply (accepted_rules Matcher.StrategyLinear (Some demo_policy) zero_CollectionIntent _ demo_limits elements_order);
    [apply surjective_pairing|by vm_compute].
Defined.

(** A policy whose only rule is a sequence without steps. *)
Definition empty_chain : RuleSpec := demo_sequence "empty" [].

Lemma rejected_is_silent_witness :
  (demo_process ev_exec (demo_new [empty_chain] demo_limits).1).1 = [] ∧
  rep_Status (demo_new [empty_chain] demo_limits).2 = "rejected".
Proof.
  split; [|by vm_compute].
  eapply (rejected_is_silent elements_order elements_order Matcher.StrategyLinear (Some demo_policy)
    zero_CollectionIntent (demo_content [empty_chain]) demo_limits);
    [apply surjective_pairing|by vm_compute|constructor].
Defined.

Lemma signal_ids_fresh_witness :
  let '(out, e') := demo_process ev_write demo_e1 in
  e_nextID e' = (e_nextID demo_e1 + Z.of_nat (length out))%Z ∧
  (∀ i sig, out !! i = Some sig → sig_Id sig = signal_id (e_nextID demo_e1 + 1 + Z.of_nat i)) ∧
  NoDup (sig_Id <$> out).
Proof.
  assert (length (demo_process ev_write demo_e1).1 = 1%nat ∧ e_nextID demo_e1 = 1%Z) as [H1 H2]
    by (by vm_compute).
  destruct (demo_process ev_write demo_e1) as [out e'] eqn:E. cbn [fst] in H1.
  apply (signal_ids_fresh elements_order (λ _, 0%Z) 1 (Some ev_write)); [|exact E|].
  - rewrite H2. unfold in_u64. lia.
  - rewrite H1, H2. lia.
Defined.

Lemma evictCEPGroups_makes_room_witness :
  let e := (demo_process ev_exec (demo_new [drop_chain] (MkEngineLimits 1 1)).1).2 in
  (Z.of_nat (size (groups_of (@evictCEPGroups elements_order "chain" 5 e).2 "chain")) < lim_MaxCEPGroups (e_limits e))%Z
  ∧ size (groups_of e "chain") = 1%nat.
Proof.
  cbv zeta. split; [|by vm_compute]. apply evictCEPGroups_makes_room. by vm_compute.
Defined.

Definition demo_compiled_expr : compiledRule :=
  default (MkCompiledRule demo_chain_rule compiledRuleExpr zero_expr zero_sequence)
    (compileRule Matcher.StrategyLinear (effective (NormalizeDetectionPolicy demo_policy) demo_expr)
       (demo_content demo_specs)).

Lemma suppression_window_witness :
  let view1 := newEventView ev_exec in
  let view2 := newEventView (demo_event "e9" "process.exec" "/usr/bin/sh" "L1" 900) in
  let step := @run_expr_rule elements_order (λ _, 0%Z) in
  length (step view1 demo_compiled_expr demo_e0).1 = 1%nat ∧
  (step view2 demo_compiled_expr (step view1 demo_compiled_expr demo_e0).2).1 = [].
Proof.
  cbv zeta. split; [by vm_compute|].
  apply suppression_window; by vm_compute.
Defined.

(** ** Behaviour the rules do not ask for *)

(** Two executions in a row. *)
Definition twice : RuleSpec :=
  demo_sequence "twice" [demo_step "a" "process.exec" []; demo_step "b" "process.exec" []].

Definition twice_e0 : Engine := (demo_new [twice] demo_limits).1.
Definition twice_e1 : Engine := (demo_process (demo_event "e1" "process.exec" "/bin/sh" "L1" 5) twice_e0).2.

Definition ev_other : CanonicalEvent := demo_event "e2" "process.exec" "/bin/sh" "L2" 6.

Definition refs_of (out : list Signal) : list (list string) := sig_EventRefs <$> out.

(** One event can complete a sequence on its own.  The candidates of an event are
    chosen before any of them runs, so while some group of the rule waits for
    a behaviour, an event with that behaviour that starts a fresh group goes
    on to the group's second step.  A rule that asks for two executions of
    one lineage then fires for the single execution of another lineage,
    though the same event is not enough on an engine where no group waits. *)
Theorem one_event_completes_sequence :
  refs_of (demo_process ev_other twice_e0).1 = [] ∧
  refs_of (demo_process ev_other twice_e1).1 = [["e2"]].
Proof. by vm_compute. Qed.

(** A group is allocated before its first step is checked.  With room for one
    group, an event that has the first step's behaviour but does not satisfy
    its conditions evicts the group in progress of another lineage, and the
    chain of that lineage is missed. *)
Theorem nonmatching_event_evicts :
  let e1 := (demo_process ev_exec (demo_new [drop_chain] (MkEngineLimits 1 8)).1).2 in
  let e2 := (demo_process (demo_event "e3" "process.exec" "/usr/bin/id" "L2" 6) e1).2 in
  refs_of (demo_process ev_write e1).1 = [["e1"; "e2"]] ∧ refs_of (demo_process ev_write e2).1 = [].
Proof. by vm_compute. Qed.

(** A sequence rule without an id never completes: it passes validation, but its
    waits are not indexed, so its second step is never a candidate. *)
Theorem blank_rule_id_never_completes :
  let new := demo_new [demo_sequence "" [demo_step "a" "process.exec" []; demo_step "b" "file.write" []]]
               demo_limits in
  rep_Status new.2 = "applied" ∧
  refs_of (demo_process ev_write (demo_process ev_exec new.1).2).1 = [] ∧
  g_WaitingBehavior <$> groups_of (demo_process ev_exec new.1).2 "" !! "lineage_id=L1" = Some "file.write".
Proof. by vm_compute. Qed.

End EngineTheorems.
