(* ===== verification/RingBuffer.v ===== *)
(** * The raw-record ring buffer ([internal/endpoint/ringbuffer/ringbuffer.go])

    A bounded store of raw sensor records by reference, evicting in order of
    first insertion.  The mutex makes every method one atomic step, so a
    method is a function of the buffer.  The abstract specification is a
    queue of (reference, data) pairs of bounded length. *)

From S2P Require Import Prelude GoStrings.

Module RingBuffer.

Record Entry := MkEntry {
  en_Ref : string;
  en_Data : string
}.

Record Buffer := MkBuffer {
  b_next : Z;
  b_cap : Z;
  b_order : list string;
  b_entries : gmap string Entry
}.

Definition New (capacity : Z) : Buffer :=
  MkBuffer 0 (if (capacity <=? 0)%Z then 1%Z else capacity) [] ∅.

(** The loop [for len(b.order) > b.cap]; every turn removes the head. *)
Fixpoint evict (cap : Z) (order : list string) (entries : gmap string Entry)
    : list string * gmap string Entry :=
  if (cap <? Z.of_nat (length order))%Z then
    match order with
    | oldest :: order' => evict cap order' (delete oldest entries)
    | [] => (order, entries)
    end
  else (order, entries).

Definition putLocked (b : Buffer) (ref data : string) : Buffer :=
  let order := if bool_decide (is_Some (b_entries b !! ref)) then b_order b else b_order b ++ [ref] in
  let entries := <[ref := MkEntry ref data]> (b_entries b) in
  let '(order, entries) := evict (b_cap b) order entries in
  MkBuffer (b_next b) (b_cap b) order entries.

Definition Put (b : Buffer) (data : string) : string * Buffer :=
  let b := MkBuffer (u64 (b_next b + 1)) (b_cap b) (b_order b) (b_entries b) in
  let ref := "raw-" +:+ Sprintf_020d (b_next b) in
  (ref, putLocked b ref data).

Definition Remember (b : Buffer) (ref data : string) : string * Buffer :=
  if bool_decide (ref = "") then Put b data else (ref, putLocked b ref data).

Definition Get (b : Buffer) (ref : string) : option Entry := b_entries b !! ref.

Definition Len (b : Buffer) : nat := size (b_entries b).

(** ** Invariant *)

Record wf (b : Buffer) : Prop := {
  wf_cap : (0 < b_cap b)%Z;
  wf_NoDup : NoDup (b_order b);
  wf_dom : dom (b_entries b) = list_to_set (b_order b);
  wf_size : (Z.of_nat (length (b_order b)) ≤ b_cap b)%Z;
  wf_ref : ∀ ref en, b_entries b !! ref = Some en → en_Ref en = ref
}.

Lemma wf_buffer_New capacity : wf (New capacity).
Proof.
  split; cbn.
  - destruct (Z.leb_spec capacity 0); lia.
  - constructor.
  - by rewrite dom_empty_L.
  - destruct (Z.leb_spec capacity 0); lia.
  - intros ref en. by rewrite lookup_empty.
Qed.

(** With at most one reference too many, the loop drops just the oldest. *)
Lemma evict_spec cap order entries :
  (0 < cap)%Z → (Z.of_nat (length order) ≤ cap + 1)%Z →
  evict cap order entries =
  match order with
  | oldest :: order' =>
    if (cap <? Z.of_nat (length order))%Z then (order', delete oldest entries) else (order, entries)
  | [] => (order, entries)
  end.
Proof.
  intros Hc Hl. destruct order as [|x order]; cbn [evict]; [by destruct (Z.ltb_spec cap (Z.of_nat (@length string [])))|].
  destruct (Z.ltb_spec cap (Z.of_nat (length (x :: order)))); [|done].
  cbn in Hl. destruct order as [|y order]; cbn [evict];
    [by destruct (Z.ltb_spec cap (Z.of_nat (@length string [])))|].
  destruct (Z.ltb_spec cap (Z.of_nat (length (y :: order)))); [cbn in *; lia|done].
Qed.

Lemma elem_of_order b ref : wf b → ref ∈ b_order b ↔ is_Some (b_entries b !! ref).
Proof. intros Hw. by rewrite <- elem_of_dom, (wf_dom _ Hw), elem_of_list_to_set. Qed.

(** The order after storing [ref]: appended if new, the oldest dropped if full. *)
Definition next_order (b : Buffer) (ref : string) : list string :=
  if decide (ref ∈ b_order b) then b_order b
  else if (b_cap b <=? Z.of_nat (length (b_order b)))%Z then tail (b_order b) ++ [ref]
  else b_order b ++ [ref].

Definition dropped (b : Buffer) (ref : string) : option string :=
  if decide (ref ∈ b_order b) then None
  else if (b_cap b <=? Z.of_nat (length (b_order b)))%Z then head (b_order b) else None.

Lemma putLocked_spec b ref data :
  wf b →
  putLocked b ref data =
  MkBuffer (b_next b) (b_cap b) (next_order b ref)
    (from_option (λ x, delete x (<[ref := MkEntry ref data]> (b_entries b)))
       (<[ref := MkEntry ref data]> (b_entries b)) (dropped b ref)).
Proof.
  intros Hw. pose proof (wf_cap _ Hw) as Hc. pose proof (wf_size _ Hw) as Hs.
  unfold putLocked, next_order, dropped. cbv zeta. destruct (decide (ref ∈ b_order b)) as [Hin|Hni].
  - rewrite bool_decide_eq_true_2 by (by apply elem_of_order). rewrite evict_spec by lia.
    destruct (b_order b) as [|x l] eqn:E; [done|].
    destruct (Z.ltb_spec (b_cap b) (Z.of_nat (length (x :: l)))); [lia|done].
  - rewrite bool_decide_eq_false_2 by (by rewrite <- elem_of_order).
    rewrite evict_spec by (rewrite ?length_app; cbn; lia).
    destruct (b_order b) as [|x l] eqn:E.
    + change ([] ++ [ref]) with [ref].
      destruct (Z.ltb_spec (b_cap b) (Z.of_nat (length [ref]))); [cbn in *; lia|].
      destruct (Z.leb_spec (b_cap b) (Z.of_nat (@length string []))); [cbn in *; lia|done].
    + change ((x :: l) ++ [ref]) with (x :: (l ++ [ref])).
      destruct (Z.ltb_spec (b_cap b) (Z.of_nat (length (x :: (l ++ [ref]))))),
        (Z.leb_spec (b_cap b) (Z.of_nat (length (x :: l)))); try done;
        cbn in *; rewrite length_app in *; cbn in *; lia.
Qed.

Lemma wf_putLocked b ref data : wf b → wf (putLocked b ref data).
Proof.
  intros Hw. rewrite putLocked_spec by done. destruct Hw as [Hc Hnd Hdom Hs Href].
  unfold next_order, dropped. destruct (decide (ref ∈ b_order b)) as [Hin|Hni].
  - split; cbn; [done|done| |done|].
    + rewrite dom_insert_L, Hdom. set_solver.
    + intros r en. rewrite lookup_insert_Some. intros [[<- <-]|[_ ?]]; [done|by apply Href].
  - assert (∀ r en, <[ref:=MkEntry ref data]> (b_entries b) !! r = Some en → en_Ref en = r) as Hins.
    { intros r en. rewrite lookup_insert_Some. intros [[<- <-]|[_ ?]]; [done|by apply Href]. }
    destruct (Z.leb_spec (b_cap b) (Z.of_nat (length (b_order b)))) as [Hfull|Hroom].
    + destruct (b_order b) as [|x l] eqn:E; [cbn in *; lia|].
      apply list.NoDup_cons in Hnd as [Hx Hnd]. split; cbn; [done| | | |].
      * apply list.NoDup_app. split; [done|]. split; [|apply NoDup_singleton]. set_solver.
      * rewrite dom_delete_L, dom_insert_L, Hdom. set_solver.
      * rewrite length_app. cbn in *. lia.
      * intros r en [_ ?]%lookup_delete_Some. by apply Hins.
    + split; cbn; [done| | | |done].
      * apply list.NoDup_app. split; [done|]. split; [set_solver|apply NoDup_singleton].
      * rewrite dom_insert_L, Hdom. set_solver.
      * rewrite length_app. cbn. lia.
Qed.

(** The buffers the methods build. *)
Inductive reachable : Buffer → Prop :=
| reachable_New capacity : reachable (New capacity)
| reachable_Put b data : reachable b → reachable (Put b data).2
| reachable_Remember b ref data : reachable b → reachable (Remember b ref data).2.

Lemma wf_next n b : wf b → wf (MkBuffer n (b_cap b) (b_order b) (b_entries b)).
Proof. by intros [? ? ? ? ?]. Qed.

Lemma reachable_wf b : reachable b → wf b.
Proof.
  induction 1 as [capacity|b data _ IH|b ref data _ IH]; [apply wf_buffer_New|by apply wf_putLocked, wf_next|].
  unfold Remember. case_bool_decide; [by apply wf_putLocked, wf_next|by apply wf_putLocked].
Qed.

(** ** The abstract queue *)

Definition queue (b : Buffer) : list (string * string) :=
  omap (λ ref, (λ en, (ref, en_Data en)) <$> b_entries b !! ref) (b_order b).

Definition queue_put (cap : Z) (q : list (string * string)) (ref data : string) : list (string * string) :=
  if bool_decide (ref ∈ q.*1) then (λ p, if bool_decide (p.1 = ref) then (ref, data) else p) <$> q
  else (if (cap <=? Z.of_nat (length q))%Z then tail q else q) ++ [(ref, data)].

Definition data_of (entries : gmap string Entry) (ref : string) : string :=
  from_option en_Data "" (entries !! ref).

Lemma queue_alt b : wf b → queue b = (λ ref, (ref, data_of (b_entries b) ref)) <$> b_order b.
Proof.
  intros Hw. unfold queue.
  assert (∀ r, r ∈ b_order b → is_Some (b_entries b !! r)) as Hall by (intros; by apply elem_of_order).
  clear Hw. induction (b_order b) as [|x l IH]; [done|]. cbn.
  destruct (Hall x) as [en Hen]; [left|]. unfold data_of at 1. rewrite Hen. cbn. f_equal.
  apply IH. intros. apply Hall. by right.
Qed.

Lemma fmap_ext_in {A B} (f g : A → B) (l : list A) : (∀ x, x ∈ l → f x = g x) → f <$> l = g <$> l.
Proof. intros H. apply list_fmap_ext. intros i x Hx. apply H. by eapply list_elem_of_lookup_2. Qed.

Lemma queue_putLocked b ref data :
  wf b → queue (putLocked b ref data) = queue_put (b_cap b) (queue b) ref data.
Proof.
  intros Hw. rewrite (queue_alt (putLocked b ref data)) by (by apply wf_putLocked).
  rewrite putLocked_spec, queue_alt by done. cbn [b_order b_entries].
  unfold queue_put. rewrite <- list_fmap_compose, length_fmap.

  replace (((fst ∘ λ r, (r, data_of (b_entries b) r)) <$> b_order b)) with (b_order b)
    by (symmetry; apply list_fmap_id).
  pose proof (wf_NoDup _ Hw) as Hnd.
  unfold next_order, dropped. destruct (decide (ref ∈ b_order b)) as [Hin|Hni].
  - rewrite bool_decide_eq_true_2 by done. rewrite <- list_fmap_compose. apply fmap_ext_in.
    intros r Hr. cbn. unfold data_of. case_bool_decide as E.
    + subst. by rewrite lookup_insert_eq.
    + by rewrite lookup_insert_ne.
  - rewrite bool_decide_eq_false_2 by done.
    destruct (Z.leb_spec (b_cap b) (Z.of_nat (length (b_order b)))) as [Hfull|Hroom].
    + pose proof (wf_cap _ Hw). destruct (b_order b) as [|x l] eqn:E; [cbn in *; lia|]. cbn [tail head from_option].
      rewrite fmap_app, fmap_cons. cbn [tail fmap list_fmap]. apply list.NoDup_cons in Hnd as [Hx Hnd].
      assert (ref ≠ x) by set_solver.
      f_equal; [apply fmap_ext_in; intros r Hr|]; unfold data_of.
      * by rewrite lookup_delete_ne, lookup_insert_ne by set_solver.
      * by rewrite lookup_delete_ne, lookup_insert_eq by set_solver.
    + rewrite fmap_app. cbn [from_option]. f_equal; [apply fmap_ext_in; intros r Hr|cbn]; unfold data_of.
      * by rewrite lookup_insert_ne by set_solver.
      * by rewrite lookup_insert_eq.
Qed.

(** C32. The ring buffer implements a bounded queue: storing a record under a
    reference it already holds replaces the data in place, and under a new
    reference appends it, dropping the oldest record when the buffer is full. *)
Theorem Remember_refines_queue (b : Buffer) (ref data : string) :
  reachable b → ref ≠ "" →
  queue (Remember b ref data).2 = queue_put (b_cap b) (queue b) ref data.
Proof.
  intros Hr Hne. unfold Remember. rewrite bool_decide_eq_false_2 by done.
  by apply queue_putLocked, reachable_wf.
Qed.

(** What was just stored can be read back: after [Put] or [Remember], [Get]
    of the returned reference finds exactly the stored data, whatever the
    buffer held and however small it is. *)
Theorem Get_after_store (b : Buffer) (ref data : string) :
  reachable b →
  (let '(r, b') := Put b data in Get b' r = Some (MkEntry r data)) ∧
  (let '(r, b') := Remember b ref data in Get b' r = Some (MkEntry r data)).
Proof.
  intros Hr%reachable_wf.
  assert (∀ b' r, wf b' → Get (putLocked b' r data) r = Some (MkEntry r data)) as Hput.
  { intros b' r Hw. rewrite putLocked_spec by done. unfold Get, dropped. cbn [b_entries].
    destruct (decide (r ∈ b_order b')) as [Hin|Hni]; [apply lookup_insert_eq|].
    destruct (_ <=? _)%Z; [|apply lookup_insert_eq].
    destruct (b_order b') as [|x l]; cbn [head from_option]; [apply lookup_insert_eq|].
    rewrite lookup_delete_ne, lookup_insert_eq; [done|]. set_solver. }
  split; [apply Hput, wf_next, Hr|]. unfold Remember. case_bool_decide; [|by apply Hput].
  apply Hput, wf_next, Hr.
Qed.

(** A buffer never holds more records than its capacity, and its order lists
    exactly the references it holds, once each. *)
Theorem buffer_bounded (b : Buffer) :
  reachable b →
  (Z.of_nat (Len b) ≤ b_cap b)%Z ∧ NoDup (b_order b) ∧
  ∀ ref, ref ∈ b_order b ↔ is_Some (Get b ref).
Proof.
  intros Hr%reachable_wf. split; [|split; [apply Hr|intros; by apply elem_of_order]].
  unfold Len. rewrite <- size_dom, (wf_dom _ Hr), size_list_to_set by apply Hr. apply Hr.
Qed.

(** ** A small buffer *)

Definition demo : Buffer := (Remember (Remember (New 2) "raw-a" "a").2 "raw-b" "b").2.

Lemma demo_reachable : reachable demo.
Proof. repeat constructor. Qed.

Lemma Remember_refines_queue_witness :
  queue (Remember demo "raw-c" "c").2 = queue_put (b_cap demo) (queue demo) "raw-c" "c" ∧
  queue (Remember demo "raw-c" "c").2 = [("raw-b", "b"); ("raw-c", "c")].
Proof.
  split; [|by vm_compute]. apply Remember_refines_queue; [apply demo_reachable|done].
Defined.

Lemma Get_after_store_witness :
  (let '(r, b') := Put demo "x" in Get b' r = Some (MkEntry r "x")) ∧
  (let '(r, b') := Remember demo "" "x" in Get b' r = Some (MkEntry r "x")).
Proof. apply Get_after_store, demo_reachable. Defined.

Lemma buffer_bounded_witness :
  (Z.of_nat (Len demo) ≤ b_cap demo)%Z ∧ NoDup (b_order demo) ∧
  ∀ ref, ref ∈ b_order demo ↔ is_Some (Get demo ref).
Proof. apply buffer_bounded, demo_reachable. Defined.

End RingBuffer.
