(* ===== verification/Graph.v ===== *)
(** * The evidence graph ([internal/analytics/graph/graph.go], [internal/analytics/entity/entity.go])

    Normalised entities, the graph built from signals, and its queries: the
    k-hop neighbourhood of a node and the shortest path between two nodes,
    both reading edges in either direction.  A missing edge reads as the zero
    message, as the nil-safe getters of the generated code do.

    The specification is reachability in at most [n] edges ([within]); the
    theorems say the neighbourhood is exactly the nodes within the hops and
    the path found is a shortest one. *)

From stdpp Require Import functions.
From S2P Require Import Prelude GoStrings EventModel.

Module Graph.
Import EventModel.

(** ** Entities *)

Definition ensurePrefix (key prefix : string) : string :=
  if bool_decide (key = "") || HasPrefix key prefix then key else prefix +:+ key.

Definition prefixed_kinds : list string := ["file"; "socket"; "process"; "container"; "user"; "token"].

Definition Normalize (ref : EntityRef) : EntityRef :=
  let kind := TrimSpace (ToLower (ent_Kind ref)) in
  let key := TrimSpace (ent_Key ref) in
  let role := TrimSpace (ToLower (ent_Role ref)) in
  MkEntityRef kind (if bool_decide (kind ∈ prefixed_kinds) then ensurePrefix key (kind +:+ ":") else key) role.

(** The separator of the deduplication key, a NUL byte. *)
Definition nul : string := String Ascii.zero "".

Definition unique_key (ref : EntityRef) : string :=
  ent_Kind ref +:+ nul +:+ ent_Key ref +:+ nul +:+ ent_Role ref.

Fixpoint unique_go (seen : gset string) (refs : list EntityRef) : list EntityRef :=
  match refs with
  | [] => []
  | ref :: refs' =>
    let normalized := Normalize ref in
    if bool_decide (ent_Kind normalized = "") || bool_decide (ent_Key normalized = "") then unique_go seen refs'
    else if bool_decide (unique_key normalized ∈ seen) then unique_go seen refs'
    else normalized :: unique_go ({[unique_key normalized]} ∪ seen) refs'
  end.

Definition Unique (refs : list EntityRef) : list EntityRef := unique_go ∅ refs.

(** ** The graph *)

Record GraphNode := MkGraphNode {
  gn_Id : string;
  gn_Kind : string;
  gn_Label : string;
  gn_Entities : list EntityRef
}.

Record GraphEdge := MkGraphEdge {
  ge_Id : string;
  ge_From : string;
  ge_To : string;
  ge_Kind : string
}.

Record EvidenceSubgraph := MkEvidenceSubgraph {
  es_Nodes : list GraphNode;
  es_Edges : list GraphEdge
}.

Record Graph := MkGraph {
  g_nodes : gmap string GraphNode;
  g_nodeOrder : list string;
  g_edges : gmap string GraphEdge;
  g_edgeOrder : list string
}.

Definition zero_node : GraphNode := MkGraphNode "" "" "" [].
Definition zero_edge : GraphEdge := MkGraphEdge "" "" "" "".
Definition empty_subgraph : EvidenceSubgraph := MkEvidenceSubgraph [] [].

Definition node_of (g : Graph) (id : string) : GraphNode := default zero_node (g_nodes g !! id).
Definition edge_of (g : Graph) (id : string) : GraphEdge := default zero_edge (g_edges g !! id).

Definition New : Graph := MkGraph ∅ [] ∅ [].

Definition addNode (g : Graph) (ref : EntityRef) : Graph :=
  let key := ent_Key ref in
  if bool_decide (key = "") || bool_decide (is_Some (g_nodes g !! key)) then g
  else MkGraph (<[key := MkGraphNode key (ent_Kind ref) key [ref]]> (g_nodes g)) (g_nodeOrder g ++ [key])
         (g_edges g) (g_edgeOrder g).

Definition edge_id (kind from to : string) : string := kind +:+ ":" +:+ from +:+ "->" +:+ to.

Definition addEdge (g : Graph) (from to kind : string) : Graph :=
  if bool_decide (from = "") || bool_decide (to = "") || bool_decide (from = to) then g
  else
    let id := edge_id kind from to in
    if bool_decide (is_Some (g_edges g !! id)) then g
    else MkGraph (g_nodes g) (g_nodeOrder g) (<[id := MkGraphEdge id from to kind]> (g_edges g))
           (g_edgeOrder g ++ [id]).

Definition edgeKind (sig : Signal) (to : EntityRef) : string :=
  let k := ent_Kind to in
  if bool_decide (k = "socket") then "connect"
  else if bool_decide (k = "file") then
    if bool_decide (sig_Name sig = "payload_dropped") then "write" else "load"
  else if bool_decide (k = "process") then "exec"
  else "relates_to".

Definition subjectEntity (refs : list EntityRef) : option EntityRef :=
  match filter (λ r, ent_Role r = "subject") refs with
  | r :: _ => Some r
  | [] => head (filter (λ r, ent_Kind r = "process") refs)
  end.

(** The loop over consecutive pairs when there is no subject. *)
Fixpoint add_chain (sig : Signal) (g : Graph) (refs : list EntityRef) : Graph :=
  match refs with
  | a :: ((b :: _) as rest) => add_chain sig (addEdge g (ent_Key a) (ent_Key b) (edgeKind sig b)) rest
  | _ => g
  end.

Definition addSignalEdges (g : Graph) (sig : Signal) (refs : list EntityRef) : Graph :=
  if (length refs <? 2)%nat then g
  else match subjectEntity refs with
  | Some subject =>
    foldl (λ g ref, if bool_decide (ent_Key ref = ent_Key subject) then g
                    else addEdge g (ent_Key subject) (ent_Key ref) (edgeKind sig ref)) g refs
  | None => add_chain sig g refs
  end.

Definition AddSignal (g : Graph) (sig : Signal) : Graph :=
  let refs := Unique (sig_Entities sig) in
  addSignalEdges (foldl addNode g refs) sig refs.

Definition FromSignals (signals : list Signal) : Graph := foldl AddSignal New signals.

Definition GetEvidenceSubgraph (g : Graph) : EvidenceSubgraph :=
  MkEvidenceSubgraph (node_of g <$> g_nodeOrder g) (edge_of g <$> g_edgeOrder g).

Definition subgraph (g : Graph) (seenNodes seenEdges : gset string) : EvidenceSubgraph :=
  MkEvidenceSubgraph
    (node_of g <$> filter (λ id, id ∈ seenNodes) (g_nodeOrder g))
    (edge_of g <$> filter (λ id, id ∈ seenEdges) (g_edgeOrder g)).

(** ** Neighbourhoods *)

(** The end of the edge opposite to [node], if the edge touches it. *)
Definition other_end (edge : GraphEdge) (node : string) : option string :=
  if bool_decide (ge_From edge ≠ node) && bool_decide (ge_To edge ≠ node) then None
  else Some (if bool_decide (ge_To edge = node) then ge_From edge else ge_To edge).

Record hop_state := MkHop {
  h_nodes : gset string;
  h_edges : gset string;
  h_next : list string
}.

Definition hop_edge (g : Graph) (node : string) (st : hop_state) (edgeID : string) : hop_state :=
  match other_end (edge_of g edgeID) node with
  | None => st
  | Some other =>
    let edges := {[edgeID]} ∪ h_edges st in
    if bool_decide (other ∈ h_nodes st) then MkHop (h_nodes st) edges (h_next st)
    else MkHop ({[other]} ∪ h_nodes st) edges (h_next st ++ [other])
  end.

Definition hop_node (g : Graph) (st : hop_state) (node : string) : hop_state :=
  foldl (hop_edge g node) st (g_edgeOrder g).

Fixpoint hop_rounds (g : Graph) (hops : nat) (nodes edges : gset string) (frontier : list string)
    : gset string * gset string :=
  match hops, frontier with
  | S hops', _ :: _ =>
    let st := foldl (hop_node g) (MkHop nodes edges []) frontier in
    hop_rounds g hops' (h_nodes st) (h_edges st) (h_next st)
  | _, _ => (nodes, edges)
  end.

Definition KHop (g : Graph) (seed : string) (hops : Z) : EvidenceSubgraph :=
  if bool_decide (seed = "") || (hops <? 0)%Z then empty_subgraph
  else if bool_decide (g_nodes g !! seed = None) then empty_subgraph
  else let '(nodes, edges) := hop_rounds g (Z.to_nat hops) {[seed]} ∅ [seed] in subgraph g nodes edges.

(** ** Shortest paths *)

Record bfs_state := MkBfs {
  bf_parents : gmap string (string * string);
  bf_seen : gset string;
  bf_queue : list string
}.

(** The loop over the edges of [node]; [true] when [to] was reached. *)
Fixpoint bfs_edges (g : Graph) (to node : string) (edgeIDs : list string) (st : bfs_state) : bool * bfs_state :=
  match edgeIDs with
  | [] => (false, st)
  | edgeID :: edgeIDs' =>
    match other_end (edge_of g edgeID) node with
    | None => bfs_edges g to node edgeIDs' st
    | Some other =>
      if bool_decide (other ∈ bf_seen st) then bfs_edges g to node edgeIDs' st
      else
        let parents := <[other := (node, edgeID)]> (bf_parents st) in
        let seen := {[other]} ∪ bf_seen st in
        if bool_decide (other = to) then (true, MkBfs parents seen (bf_queue st))
        else bfs_edges g to node edgeIDs' (MkBfs parents seen (bf_queue st ++ [other]))
    end
  end.

(** The loop over the queue; every turn takes one node off it. *)
Fixpoint bfs (fuel : nat) (g : Graph) (to : string) (st : bfs_state) : option bfs_state :=
  match fuel, bf_queue st with
  | S fuel', node :: queue =>
    let '(found, st') := bfs_edges g to node (g_edgeOrder g) (MkBfs (bf_parents st) (bf_seen st) queue) in
    if found : bool then Some st' else bfs fuel' g to st'
  | _, _ => None
  end.

(** The walk back from [cur] to [from]; [None] where a parent is missing. *)
Fixpoint walk_back (fuel : nat) (parents : gmap string (string * string)) (from cur : string)
    (nodes edges : gset string) : option (gset string * gset string) :=
  if bool_decide (cur = from) then Some (nodes, edges)
  else match fuel with
  | O => None
  | S fuel' =>
    match parents !! cur with
    | None => None
    | Some (node, edge) => walk_back fuel' parents from node ({[node]} ∪ nodes) ({[edge]} ∪ edges)
    end
  end.

Definition pathSubgraph (g : Graph) (from to : string) (parents : gmap string (string * string)) : EvidenceSubgraph :=
  match walk_back (size parents) parents from to {[to]} ∅ with
  | Some (nodes, edges) => subgraph g nodes edges
  | None => empty_subgraph
  end.

(** Every node enters the queue at most once, so their number is enough fuel. *)
Definition ShortestPath (g : Graph) (from to : string) : EvidenceSubgraph :=
  if bool_decide (from = "") || bool_decide (to = "") then empty_subgraph
  else if bool_decide (g_nodes g !! from = None) then empty_subgraph
  else if bool_decide (g_nodes g !! to = None) then empty_subgraph
  else if bool_decide (from = to) then subgraph g {[from]} ∅
  else match bfs (size (g_nodes g)) g to (MkBfs ∅ {[from]} [from]) with
  | Some st => pathSubgraph g from to (bf_parents st)
  | None => empty_subgraph
  end.

(** ** Reachability *)

(** The edge [id] leads from [a] to [b], in one of its two directions. *)
Definition links (g : Graph) (id a b : string) : Prop :=
  id ∈ g_edgeOrder g ∧ other_end (edge_of g id) a = Some b.

Definition adj (g : Graph) (a b : string) : Prop := ∃ id, links g id a b.

(** [b] is reached from [a] over at most [n] edges. *)
Inductive within (g : Graph) (a : string) : nat → string → Prop :=
| within_here n : within g a n a
| within_step n b c : within g a n b → adj g b c → within g a (S n) c.

Lemma within_mono g a n m b : within g a n b → (n ≤ m)%nat → within g a m b.
Proof.
  intros Hw. revert m. induction Hw as [n|n b c Hw IH Hadj]; intros m Hm; [constructor|].
  destruct m as [|m]; [lia|]. eapply within_step; [apply IH; lia|done].
Qed.

Lemma within_S g a n c : within g a (S n) c ↔ within g a n c ∨ ∃ b, within g a n b ∧ adj g b c.
Proof.
  split.
  - inversion 1; subst; [left; constructor|eauto].
  - intros [Hw|(b & Hw & Hadj)]; [eapply within_mono; [exact Hw|lia]|by eapply within_step].
Qed.

(** ** Neighbourhoods *)

(** [st'] has seen, besides what [st] had, the nodes [N] and the edges [E]. *)
Definition hop_rel (st st' : hop_state) (N E : string → Prop) : Prop :=
  (∀ x, x ∈ h_nodes st' ↔ x ∈ h_nodes st ∨ N x) ∧
  (∀ id, id ∈ h_edges st' ↔ id ∈ h_edges st ∨ E id) ∧
  (∀ x, x ∈ h_next st' ↔ x ∈ h_next st ∨ (x ∈ h_nodes st' ∧ x ∉ h_nodes st)).

Lemma hop_rel_refl st : hop_rel st st (λ _, False) (λ _, False).
Proof. split_and!; naive_solver. Qed.

Lemma hop_rel_trans st1 st2 st3 N1 E1 N2 E2 :
  hop_rel st1 st2 N1 E1 → hop_rel st2 st3 N2 E2 →
  hop_rel st1 st3 (λ x, N1 x ∨ N2 x) (λ x, E1 x ∨ E2 x).
Proof.
  intros (A1 & A2 & A3) (B1 & B2 & B3). split_and!.
  - intros x. rewrite B1, A1. tauto.
  - intros x. rewrite B2, A2. tauto.
  - intros x. specialize (A1 x). rewrite B3, A3, B1. destruct (decide (x ∈ h_nodes st1)), (decide (x ∈ h_nodes st2)); tauto.
Qed.

Lemma hop_rel_ext st st' N E N' E' :
  (∀ x, N x ↔ N' x) → (∀ x, E x ↔ E' x) → hop_rel st st' N E → hop_rel st st' N' E'.
Proof.
  intros HN HE (A1 & A2 & A3). split_and!; [|intros; rewrite A2, HE; done|done].
  intros; rewrite A1, HN; done.
Qed.

Lemma hop_edge_spec g node st id :
  hop_rel st (hop_edge g node st id) (λ x, other_end (edge_of g id) node = Some x)
    (λ id', id' = id ∧ is_Some (other_end (edge_of g id) node)).
Proof.
  unfold hop_edge. destruct (other_end (edge_of g id) node) as [other|].
  - case_bool_decide as Hin; split_and!; cbn; intros x.
    + split; [auto|]. intros [?|[= <-]]; done.
    + rewrite elem_of_union, elem_of_singleton. naive_solver.
    + naive_solver.
    + rewrite elem_of_union, elem_of_singleton. naive_solver.
    + rewrite elem_of_union, elem_of_singleton. naive_solver.
    + rewrite elem_of_app, list_elem_of_singleton, elem_of_union, elem_of_singleton. naive_solver.
  - eapply hop_rel_ext; [| |apply hop_rel_refl]; [naive_solver|].
    intros x. split; [done|]. intros [_ [? ?]]. done.
Qed.

(** A fold of steps sees what the single steps see. *)
Lemma hop_rel_foldl {A} (f : hop_state → A → hop_state) (N E : A → string → Prop) l st :
  (∀ st x, hop_rel st (f st x) (N x) (E x)) →
  hop_rel st (foldl f st l) (λ y, ∃ x, x ∈ l ∧ N x y) (λ y, ∃ x, x ∈ l ∧ E x y).
Proof.
  intros Hf. revert st. induction l as [|x l IH]; intros st; cbn.
  - eapply hop_rel_ext; [| |apply hop_rel_refl]; intros y; split; try done;
      intros (x & []%elem_of_nil & _).
  - eapply hop_rel_ext; [| |eapply hop_rel_trans; [apply Hf|apply IH]]; intros y; cbn;
      setoid_rewrite elem_of_cons; naive_solver.
Qed.

Definition touches (g : Graph) (id a : string) : Prop := ∃ b, links g id a b.

Lemma hop_round_spec g st frontier :
  hop_rel st (foldl (hop_node g) st frontier) (λ y, ∃ a, a ∈ frontier ∧ adj g a y)
    (λ id, ∃ a, a ∈ frontier ∧ touches g id a).
Proof.
  apply hop_rel_foldl. clear st. intros st node. unfold hop_node.
  eapply hop_rel_ext; [| |apply hop_rel_foldl; intros; apply hop_edge_spec].
  - intros y. unfold adj, links. naive_solver.
  - intros id. unfold touches, links. split.
    + intros (id' & ? & -> & [b Hb]). eauto.
    + intros (b & ? & Hb). exists id. eauto.
Qed.

(** After [d] rounds: the nodes within [d], the last of them in the frontier. *)
Record round_inv (g : Graph) (seed : string) (d : nat) (nodes edges : gset string) (F : list string) : Prop := {
  ri_nodes : ∀ x, x ∈ nodes ↔ within g seed d x;
  ri_front : ∀ x, x ∈ F → within g seed d x;
  ri_done : ∀ x, within g seed d x → x ∈ F ∨ ∃ n, (n < d)%nat ∧ within g seed n x;
  ri_edges : ∀ id, id ∈ edges ↔ ∃ n a, (n < d)%nat ∧ within g seed n a ∧ touches g id a
}.

Lemma round_inv_start g seed : round_inv g seed 0 {[seed]} ∅ [seed].
Proof.
  assert (∀ x, within g seed 0 x ↔ x = seed) as H0.
  { intros x. split; [by inversion 1|intros ->; constructor]. }
  split.
  - intros x. by rewrite H0, elem_of_singleton.
  - intros x ->%list_elem_of_singleton. constructor.
  - intros x ->%H0. left. left.
  - intros id. split; [by intros []%elem_of_empty|]. intros (n & a & ? & _). lia.
Qed.

Lemma round_inv_step g seed d nodes edges F :
  round_inv g seed d nodes edges F →
  let st := foldl (hop_node g) (MkHop nodes edges []) F in
  round_inv g seed (S d) (h_nodes st) (h_edges st) (h_next st).
Proof.
  intros [R1 R2 R3 R4] st.
  destruct (hop_round_spec g (MkHop nodes edges []) F) as (H1 & H2 & H3). fold st in H1, H2, H3. cbn in *.
  assert (∀ x, x ∈ h_nodes st ↔ within g seed (S d) x) as Hn.
  { intros x. rewrite H1, R1, within_S. split; [naive_solver|].
    intros [?|(b & Hb & Hadj)]; [by left|]. destruct (R3 b Hb) as [Hf|(n & Hn & Hw)]; [eauto|].
    left. eapply within_mono; [by eapply within_step|lia]. }
  split; [done| | |].
  - intros x [[]%elem_of_nil|[? _]]%H3. by apply Hn.
  - intros x Hx. destruct (decide (x ∈ nodes)) as [Hin|Hni].
    + right. exists d. rewrite <- R1. split; [lia|done].
    + left. apply H3. right. rewrite Hn. done.
  - intros id. rewrite H2, R4. split.
    + intros [(n & a & ? & ? & ?)|(a & Hf & Ht)]; [exists n, a; split; [lia|done]|].
      exists d, a. split; [lia|]. auto.
    + intros (n & a & Hn' & Hw & Ht). assert (within g seed d a) as Hd by (eapply within_mono; [done|lia]).
      destruct (R3 a Hd) as [?|(n' & ? & ?)]; [eauto|]. left. exists n', a. auto.
Qed.

Lemma round_inv_closed g seed d nodes edges k :
  round_inv g seed d nodes edges [] → round_inv g seed (d + k) nodes edges [].
Proof.
  intros [R1 R2 R3 R4].
  assert (∀ x, within g seed d x → ∃ n, (n < d)%nat ∧ within g seed n x) as Hlt.
  { intros x Hx. destruct (R3 x Hx) as [[]%elem_of_nil|?]; done. }
  assert (∀ m x, within g seed m x → within g seed d x) as Hcl.
  { intros m x Hx. induction Hx as [m|m b c _ IH Hadj]; [constructor|].
    destruct (Hlt b IH) as (n & ? & ?). eapply within_mono; [by eapply within_step|lia]. }
  split.
  - intros x. rewrite R1. split; [intros; eapply within_mono; [done|lia]|apply Hcl].
  - intros x []%elem_of_nil.
  - intros x Hx. right. destruct (Hlt x (Hcl _ _ Hx)) as (n & ? & ?). exists n. split; [lia|done].
  - intros id. rewrite R4. split; intros (n & a & Hn & Hw & Ht).
    + exists n, a. split; [lia|done].
    + destruct (Hlt a (Hcl _ _ Hw)) as (n' & ? & ?). eauto.
Qed.

Lemma hop_rounds_spec g seed hops d nodes edges F :
  round_inv g seed d nodes edges F →
  ∃ F', round_inv g seed (d + hops) (hop_rounds g hops nodes edges F).1 (hop_rounds g hops nodes edges F).2 F'.
Proof.
  revert d nodes edges F. induction hops as [|hops IH]; intros d nodes edges F HR.
  { rewrite Nat.add_0_r. by exists F. }
  destruct F as [|x F]; [exists []; by apply round_inv_closed|].
  cbn [hop_rounds]. rewrite <- Nat.add_succ_comm. apply IH. by apply round_inv_step.
Qed.

(** ** Well-formed graphs *)

Definition is_node (g : Graph) (id : string) : Prop := is_Some (g_nodes g !! id).

(** The orders list the keys of the maps once each, an entry carries its key,
    and an edge joins two distinct nodes. *)
Record wf (g : Graph) : Prop := {
  wf_nodeOrder : ∀ id, id ∈ g_nodeOrder g ↔ is_node g id;
  wf_edgeOrder : ∀ id, id ∈ g_edgeOrder g ↔ is_Some (g_edges g !! id);
  wf_node : ∀ id n, g_nodes g !! id = Some n → gn_Id n = id;
  wf_edge : ∀ id e, g_edges g !! id = Some e →
    ge_Id e = id ∧ is_node g (ge_From e) ∧ is_node g (ge_To e) ∧ ge_From e ≠ ge_To e;
  wf_nodes_nodup : NoDup (g_nodeOrder g);
  wf_edges_nodup : NoDup (g_edgeOrder g)
}.

Lemma wf_New : wf New.
Proof.
  split; cbn; try apply NoDup_nil_2; unfold is_node; intros id *; rewrite ?lookup_empty; try done;
    rewrite elem_of_nil; split; (done || by intros [? ?]).
Qed.

Lemma addNode_grows g ref id : is_node g id → is_node (addNode g ref) id.
Proof.
  unfold addNode, is_node. destruct (_ || _); [done|]. cbn. rewrite lookup_insert_is_Some'. tauto.
Qed.

Lemma addNode_adds g ref : ent_Key ref ≠ "" → is_node (addNode g ref) (ent_Key ref).
Proof.
  intros Hne. unfold addNode, is_node. rewrite (bool_decide_false _ Hne). cbn.
  case_bool_decide; [done|]. cbn. rewrite lookup_insert_eq. eauto.
Qed.

Lemma wf_addNode g ref : wf g → wf (addNode g ref).
Proof.
  intros [W1 W2 W3 W4 W5 W6]. pose proof (addNode_grows g ref) as Hg. revert Hg. unfold addNode.
  destruct (bool_decide_reflect (ent_Key ref = "")) as [|Hne]; [done|]. cbn.
  case_bool_decide as Hk; [done|]. intros Hg. split; cbn.
  - intros id. rewrite elem_of_app, list_elem_of_singleton, W1. unfold is_node. cbn.
    rewrite lookup_insert_is_Some. destruct (decide (ent_Key ref = id)); naive_solver.
  - done.
  - intros id n. rewrite lookup_insert_Some. intros [[<- <-]|[_ ?]]; [done|auto].
  - intros id e He. destruct (W4 id e He) as (? & ? & ? & ?). auto.
  - apply list.NoDup_app. split_and!; [done| |apply NoDup_singleton].
    intros x Hx ->%list_elem_of_singleton. apply Hk, W1, Hx.
  - done.
Qed.

Lemma addEdge_nodes g from to kind : g_nodes (addEdge g from to kind) = g_nodes g.
Proof. unfold addEdge. destruct (_ || _ || _); [done|]. by case_bool_decide. Qed.

Lemma wf_addEdge g from to kind :
  (from ≠ "" → is_node g from) → (to ≠ "" → is_node g to) → wf g → wf (addEdge g from to kind).
Proof.
  intros Hf Ht [W1 W2 W3 W4 W5 W6]. unfold addEdge.
  destruct (bool_decide_reflect (from = "")) as [|Hf']; [done|].
  destruct (bool_decide_reflect (to = "")) as [|Ht']; [done|].
  destruct (bool_decide_reflect (from = to)) as [|Hft]; [done|]. cbn.
  case_bool_decide as Hk; [done|]. split; cbn; try done.
  - intros id. rewrite elem_of_app, list_elem_of_singleton, W2, lookup_insert_is_Some.
    destruct (decide (edge_id kind from to = id)); naive_solver.
  - intros id e. rewrite lookup_insert_Some. intros [[<- <-]|[_ He]]; [cbn; auto|].
    destruct (W4 id e He) as (? & ? & ? & ?). auto.
  - apply list.NoDup_app. split_and!; [done| |apply NoDup_singleton].
    intros x Hx ->%list_elem_of_singleton. apply Hk, W2, Hx.
Qed.

Definition all_nodes (g : Graph) (refs : list EntityRef) : Prop :=
  ∀ ref, ref ∈ refs → ent_Key ref ≠ "" → is_node g (ent_Key ref).

Lemma foldl_addNode_grows refs g id : is_node g id → is_node (foldl addNode g refs) id.
Proof. revert g. induction refs as [|ref refs IH]; intros g Hn; cbn; [done|]. by apply IH, addNode_grows. Qed.

Lemma wf_foldl_addNode refs g : wf g → wf (foldl addNode g refs) ∧ all_nodes (foldl addNode g refs) refs.
Proof.
  revert g. induction refs as [|ref refs IH]; intros g Hw; cbn.
  { split; [done|]. by intros ? []%elem_of_nil. }
  destruct (IH (addNode g ref)) as [H1 H2]; [by apply wf_addNode|]. split; [done|].
  intros r [->|Hr]%elem_of_cons Hne; [|auto]. by apply foldl_addNode_grows, addNode_adds.
Qed.

Lemma all_nodes_addEdge g refs from to kind : all_nodes g refs → all_nodes (addEdge g from to kind) refs.
Proof. intros H r Hr Hne. unfold is_node. rewrite addEdge_nodes. by apply H. Qed.

Lemma wf_addSignalEdges g sig refs : wf g → all_nodes g refs → wf (addSignalEdges g sig refs).
Proof.
  intros Hw Ha. unfold addSignalEdges. destruct (_ <? _)%nat; [done|].
  destruct (subjectEntity refs) as [subj|] eqn:Hsub.
  - assert (subj ∈ refs) as Hin.
    { unfold subjectEntity in Hsub. destruct (filter (λ r, ent_Role r = "subject") refs) as [|r l] eqn:Hfl.
      - destruct (filter (λ r, ent_Kind r = "process") refs) as [|r l] eqn:Hfl'; [done|]. injection Hsub as <-.
        assert (r ∈ r :: l) as Hr by left. rewrite <- Hfl' in Hr. by apply list_elem_of_filter in Hr as [_ ?].
      - injection Hsub as <-. assert (r ∈ r :: l) as Hr by left. rewrite <- Hfl in Hr.
        by apply list_elem_of_filter in Hr as [_ ?]. }
    assert (∀ l g, (∀ r, r ∈ l → r ∈ refs) → wf g → all_nodes g refs →
      wf (foldl (λ g ref, if bool_decide (ent_Key ref = ent_Key subj) then g
                    else addEdge g (ent_Key subj) (ent_Key ref) (edgeKind sig ref)) g l)) as Hl.
    { intros l. induction l as [|r l IH]; intros g' Hsubl Hw' Ha'; cbn; [done|].
      apply IH; [intros; apply Hsubl; by right| |]; case_bool_decide; try done.
      - apply wf_addEdge; auto. apply Ha', Hsubl. left.
      - by apply all_nodes_addEdge. }
    by apply Hl.
  - clear Hsub. revert g Hw Ha. induction refs as [|a [|b rest] IH]; intros g Hw Ha; cbn [add_chain]; [done..|].
    apply IH.
    + apply wf_addEdge; [..|done]; apply Ha; [left|right; left].
    + apply all_nodes_addEdge. intros r Hr. apply Ha. by right.
Qed.

Lemma wf_AddSignal g sig : wf g → wf (AddSignal g sig).
Proof. intros Hw. destruct (wf_foldl_addNode (Unique (sig_Entities sig)) g Hw). by apply wf_addSignalEdges. Qed.

Lemma wf_FromSignals signals : wf (FromSignals signals).
Proof.
  unfold FromSignals. generalize wf_New. generalize New.
  induction signals as [|s l IH]; intros g Hw; cbn; [done|]. by apply IH, wf_AddSignal.
Qed.

Lemma links_nodes g id a b : wf g → links g id a b → is_node g a ∧ is_node g b ∧ a ≠ b.
Proof.
  intros Hw [Hid Ho]. apply (wf_edgeOrder _ Hw) in Hid as [e He].
  unfold edge_of in Ho. rewrite He in Ho. cbn in Ho. apply (wf_edge _ Hw) in He as (_ & Hf & Ht & Hne).
  unfold other_end in Ho. repeat case_bool_decide; simplify_eq/=; auto; congruence.
Qed.

Lemma within_node g a n b : wf g → is_node g a → within g a n b → is_node g b.
Proof. intros Hw Ha. induction 1 as [|n b c _ _ [id Hl]]; [done|]. by destruct (links_nodes g id b c Hw Hl) as (_ & ? & _). Qed.

(** The identifiers of a subgraph. *)
Definition node_ids (s : EvidenceSubgraph) : list string := gn_Id <$> es_Nodes s.
Definition edge_ids (s : EvidenceSubgraph) : list string := ge_Id <$> es_Edges s.

Lemma node_ids_subgraph g N E : wf g → node_ids (subgraph g N E) = filter (λ id, id ∈ N) (g_nodeOrder g).
Proof.
  intros Hw. unfold node_ids, subgraph. cbn. rewrite <- list_fmap_compose.
  rewrite (list_fmap_ext _ id); [apply list_fmap_id|]. intros i x Hx.
  apply list_elem_of_lookup_2, list_elem_of_filter in Hx as [_ [n Hn]%(wf_nodeOrder _ Hw)].
  unfold compose, node_of. rewrite Hn. cbn. by apply (wf_node _ Hw) in Hn.
Qed.

Lemma edge_ids_subgraph g N E : wf g → edge_ids (subgraph g N E) = filter (λ id, id ∈ E) (g_edgeOrder g).
Proof.
  intros Hw. unfold edge_ids, subgraph. cbn. rewrite <- list_fmap_compose.
  rewrite (list_fmap_ext _ id); [apply list_fmap_id|]. intros i x Hx.
  apply list_elem_of_lookup_2, list_elem_of_filter in Hx as [_ [n Hn]%(wf_edgeOrder _ Hw)].
  unfold compose, edge_of. rewrite Hn. cbn. by apply (wf_edge _ Hw) in Hn as [? _].
Qed.

Lemma elem_of_node_ids g N E id : wf g → id ∈ node_ids (subgraph g N E) ↔ id ∈ N ∧ is_node g id.
Proof. intros Hw. by rewrite node_ids_subgraph, list_elem_of_filter, (wf_nodeOrder _ Hw). Qed.

Lemma elem_of_edge_ids g N E id : wf g → id ∈ edge_ids (subgraph g N E) ↔ id ∈ E ∧ id ∈ g_edgeOrder g.
Proof. intros Hw. by rewrite edge_ids_subgraph, list_elem_of_filter. Qed.

(** the neighbourhood of a node of a graph built from signals is
    exactly the nodes reached over at most [hops] edges and the edges that
    touch a node reached over fewer, each once. *)
Theorem KHop_spec signals seed hops :
  let g := FromSignals signals in
  is_node g seed → seed ≠ "" → (0 <= hops)%Z →
  (∀ id, id ∈ node_ids (KHop g seed hops) ↔ within g seed (Z.to_nat hops) id) ∧
  (∀ id, id ∈ edge_ids (KHop g seed hops) ↔
    ∃ n a, (n < Z.to_nat hops)%nat ∧ within g seed n a ∧ touches g id a) ∧
  NoDup (node_ids (KHop g seed hops)) ∧ NoDup (edge_ids (KHop g seed hops)).
Proof.
  intros g Hs Hne Hh. pose proof (wf_FromSignals signals) as Hw. fold g in Hw.
  unfold KHop. rewrite (bool_decide_false _ Hne), (proj2 (Z.ltb_ge _ _) Hh). cbn [orb].
  rewrite bool_decide_false by (destruct Hs as [? Hs]; rewrite Hs; done).
  destruct (hop_rounds_spec g seed (Z.to_nat hops) 0 _ _ _ (round_inv_start g seed)) as [F [R1 _ _ R4]].
  destruct (hop_rounds _ _ _ _ _) as [N E]. cbn in R1, R4. split_and!.
  - intros id. rewrite elem_of_node_ids, R1 by done. split; [tauto|].
    intros H. split; [done|]. by eapply within_node.
  - intros id. rewrite elem_of_edge_ids, R4 by done. split; [tauto|]. intros H. split; [done|].
    by destruct H as (n & a & _ & _ & b & ? & _).
  - rewrite node_ids_subgraph by done. apply list.NoDup_filter, (wf_nodes_nodup _ Hw).
  - rewrite edge_ids_subgraph by done. apply list.NoDup_filter, (wf_edges_nodup _ Hw).
Qed.

(** ** Shortest paths *)

(** A walk of [n] edges from [a], with its nodes and edges, the last first. *)
Inductive walk (g : Graph) (a : string) : nat → list string → list string → string → Prop :=
| walk_nil : walk g a 0 [a] [] a
| walk_step n ns es b id c :
    walk g a n ns es b → links g id b c → walk g a (S n) (c :: ns) (id :: es) c.

Lemma walk_within g a n ns es b : walk g a n ns es b → within g a n b.
Proof. induction 1 as [|n ns es b id c _ IH Hl]; [constructor|]. eapply within_step; [done|by exists id]. Qed.

Lemma walk_nodes g a n ns es b :
  wf g → is_node g a → walk g a n ns es b → ∀ id, id ∈ ns → is_node g id.
Proof.
  intros Hw Ha. induction 1 as [|n ns es b id c _ IH Hl]; intros x.
  - by intros ->%list_elem_of_singleton.
  - intros [->|?]%elem_of_cons; [|auto]. by destruct (links_nodes g id b c Hw Hl) as (_ & ? & _).
Qed.

Lemma walk_edges g a n ns es b : walk g a n ns es b → ∀ id, id ∈ es → id ∈ g_edgeOrder g.
Proof.
  induction 1 as [|n ns es b id c _ IH Hl]; intros x; [by intros []%elem_of_nil|].
  intros [->|?]%elem_of_cons; [|auto]. by destruct Hl.
Qed.

Section bfs.
Variable g : Graph.
Variable from : string.
Hypothesis Hwf : wf g.

(** The parents form a tree rooted at [from] in which [d] is the depth. *)
Record tree (d : string → nat) (P : gmap string (string * string)) (S : gset string) : Prop := {
  tr_root : from ∈ S ∧ d from = 0%nat;
  tr_parent : ∀ x, x ∈ S → x = from ∨ ∃ p e, P !! x = Some (p, e);
  tr_links : ∀ x p e, P !! x = Some (p, e) → links g e p x ∧ p ∈ S ∧ x ∈ S ∧ d x = Datatypes.S (d p);
  tr_size : ∀ x, x ∈ S → (d x ≤ size P)%nat;
  tr_nodes : ∀ x, x ∈ S → is_node g x
}.

Lemma tree_start : is_node g from → tree (λ _, 0%nat) ∅ {[from]}.
Proof.
  intros Hn. split.
  - split; [by apply elem_of_singleton|done].
  - intros x ->%elem_of_singleton. by left.
  - intros x p e. by rewrite lookup_empty.
  - intros. lia.
  - by intros x ->%elem_of_singleton.
Qed.

(** The path the parents give from the root to a node of the tree. *)
Lemma walk_back_spec d P S fuel x N E :
  tree d P S → x ∈ S → (d x ≤ fuel)%nat →
  ∃ ns es N' E', walk g from (d x) (x :: ns) es x ∧
    walk_back fuel P from x N E = Some (N', E') ∧
    (∀ y, y ∈ N' ↔ y ∈ N ∨ y ∈ ns) ∧ (∀ id, id ∈ E' ↔ id ∈ E ∨ id ∈ es).
Proof.
  intros [[T0 T0'] T1 T2 T3 T4]. revert x N E. induction fuel as [|fuel IH]; intros x N E Hx Hd; cbn.
  all: destruct (bool_decide_reflect (x = from)) as [->|Hne];
    [exists [], [], N, E; rewrite T0'; split_and!; [constructor|done|set_solver..]|].
  all: destruct (T1 x Hx) as [?|(p & e & Hp)]; [done|]; destruct (T2 x p e Hp) as (Hl & HpS & _ & Hdx).
  { lia. }
  rewrite Hp. destruct (IH p ({[p]} ∪ N) ({[e]} ∪ E)) as (ns & es & N' & E' & Hw & Hb & HN & HE); [done|lia|].
  exists (p :: ns), (e :: es), N', E'. rewrite Hdx. split_and!; [by eapply walk_step|done| |].
  - intros y. rewrite HN. set_solver.
  - intros y. rewrite HE. set_solver.
Qed.

(** The state of the search at depth [k]: the queue holds the nodes [A] of
    that depth and the nodes [B] one deeper, everything within [k] is seen at
    its depth, and a seen node outside the queue has its neighbours seen,
    the edges [todo] of the node [v] in hand excepted. *)
Record bfs_inv (to : string) (d : string → nat) (k : nat) (A B : list string) (v : string) (todo : list string)
    (P : gmap string (string * string)) (S : gset string) : Prop := {
  bi_tree : tree d P S;
  bi_to : to ∉ S;
  bi_A : ∀ x, x ∈ A → x ∈ S ∧ d x = k;
  bi_B : ∀ x, x ∈ B → x ∈ S ∧ d x = Datatypes.S k;
  bi_near : ∀ n x, (n ≤ k)%nat → within g from n x → x ∈ S ∧ (d x ≤ n)%nat;
  bi_shallow : ∀ x, x ∈ S → (d x ≤ Datatypes.S k)%nat;
  bi_closed : ∀ x id y, x ∈ S → links g id x y →
    x ∈ A ∨ x ∈ B ∨ (x = v ∧ id ∈ todo) ∨ (y ∈ S ∧ (d y ≤ Datatypes.S (d x))%nat)
}.

Lemma bfs_inv_start to : is_node g from → from ≠ to → bfs_inv to (λ _, 0%nat) 0 [from] [] "" [] ∅ {[from]}.
Proof.
  intros Hn Hne. split.
  - by apply tree_start.
  - by intros ->%elem_of_singleton.
  - intros x ->%list_elem_of_singleton. split; [by apply elem_of_singleton|done].
  - by intros x []%elem_of_nil.
  - intros n x Hn0 Hw. assert (n = 0%nat) as -> by lia. inversion Hw; subst.
    split; [by apply elem_of_singleton|lia].
  - intros. lia.
  - intros x id y ->%elem_of_singleton _. left. left.
Qed.

(** When the nodes of a depth are used up, the search is one deeper. *)
Lemma bfs_inv_deeper to d k B v P S :
  bfs_inv to d k [] B v [] P S → bfs_inv to d (Datatypes.S k) B [] v [] P S.
Proof.
  intros [H1 H2 H3 H4 H5 H7 H6]. split; auto.
  - by intros x []%elem_of_nil.
  - intros n x Hn Hw. destruct (decide (n ≤ k)%nat) as [|Hgt]; [by apply H5|].
    assert (n = Datatypes.S k) as -> by lia. apply within_S in Hw as [Hw|(b & Hb & [id Hl])].
    { destruct (H5 k x) as [? ?]; [lia|done|]. split; [done|lia]. }
    destruct (H5 k b) as [HbS Hdb]; [lia|done|].
    destruct (H6 b id x HbS Hl) as [[]%elem_of_nil|[HB|[[_ []%elem_of_nil]|[? ?]]]].
    + destruct (H4 b HB). lia.
    + split; [done|lia].
  - intros x id y HS Hl. destruct (H6 x id y HS Hl) as [[]%elem_of_nil|[?|[?|?]]]; auto.
Qed.

Lemma tree_insert d P S v y e :
  tree d P S → v ∈ S → y ∉ S → links g e v y →
  tree (<[y := Datatypes.S (d v)]> d) (<[y := (v, e)]> P) ({[y]} ∪ S).
Proof.
  intros [[T0 T0'] T1 T2 T3 T4] Hv Hy Hl.
  assert (∀ x, x ∈ S → (<[y := Datatypes.S (d v)]> d) x = d x) as Hd.
  { intros x Hx. apply fn_lookup_insert_ne. by intros ->. }
  assert (P !! y = None) as HPy.
  { destruct (P !! y) as [[p e']|] eqn:HP; [|done]. by destruct (T2 y p e' HP) as (_ & _ & ? & _). }
  assert (size (<[y := (v, e)]> P) = Datatypes.S (size P)) as Hsz by by apply map_size_insert_None.
  split.
  - rewrite Hd by done. set_solver.
  - intros x [->%elem_of_singleton|Hx]%elem_of_union; [right; exists v, e; apply lookup_insert_eq|].
    destruct (T1 x Hx) as [?|(p & e' & Hp)]; [by left|]. right. exists p, e'.
    rewrite lookup_insert_ne; [done|]. by intros ->.
  - intros x p e'. rewrite lookup_insert_Some. intros [[<- [= <- <-]]|[Hne Hp]].
    + rewrite fn_lookup_insert, Hd by done. set_solver.
    + destruct (T2 x p e' Hp) as (? & ? & ? & ?). rewrite !Hd by done. set_solver.
  - intros x [->%elem_of_singleton|Hx]%elem_of_union; rewrite Hsz.
    + rewrite fn_lookup_insert. specialize (T3 v Hv). lia.
    + rewrite Hd by done. specialize (T3 x Hx). lia.
  - intros x [->%elem_of_singleton|Hx]%elem_of_union; [|auto].
    by destruct (links_nodes g e v y Hwf Hl) as (_ & ? & _).
Qed.

(** A new node [y], found from the node in hand, joins the deeper half of the queue. *)
Lemma bfs_inv_insert d d' to k A B v id todo P S y :
  bfs_inv to d k A B v (id :: todo) P S → d v = k → to ≠ y → links g id v y →
  tree d' (<[y := (v, id)]> P) ({[y]} ∪ S) → d' y = Datatypes.S k → (∀ x, x ∈ S → d' x = d x) → v ∈ S →
  bfs_inv to d' k A (B ++ [y]) v todo (<[y := (v, id)]> P) ({[y]} ∪ S).
Proof.
  intros [H1 H2 H3 H4 H5 H7 H6] Hd Hto Hlink Htree Hdy Hdx Hv. split; [done|set_solver|..].
  - intros x Hx. destruct (H3 x Hx) as [HxS ?]. rewrite Hdx by done. set_solver.
  - intros x [Hx| ->%list_elem_of_singleton]%elem_of_app; [|split; [set_solver|done]].
    destruct (H4 x Hx) as [HxS ?]. rewrite Hdx by done. set_solver.
  - intros n x Hn Hw. destruct (H5 n x Hn Hw) as [HxS ?]. rewrite Hdx by done. set_solver.
  - intros x [->%elem_of_singleton|Hx]%elem_of_union; [lia|]. rewrite Hdx by done. auto.
  - intros x id' y' [->%elem_of_singleton|Hx]%elem_of_union Hl; [set_solver|].
    destruct (H6 x id' y' Hx Hl) as [?|[?|[[-> [->|?]%elem_of_cons]|[HyS ?]]]]; [by left|set_solver| |tauto|].
    + destruct Hl as [_ Hl], Hlink as [_ Hlink]. assert (y' = y) as -> by congruence.
      do 3 right. split; [set_solver|]. rewrite Hdy, Hdx, Hd by done. lia.
    + do 3 right. split; [set_solver|]. by rewrite !Hdx.
Qed.

(** The loop over the edges of the node [v] of depth [k]. *)
Lemma bfs_edges_spec to d k A B v todo P S :
  bfs_inv to d k A B v todo P S → v ∈ S → d v = k → (∀ id, id ∈ todo → id ∈ g_edgeOrder g) →
  let '(found, st) := bfs_edges g to v todo (MkBfs P S (A ++ B)) in
  if found : bool
  then ∃ d', tree d' (bf_parents st) (bf_seen st) ∧ to ∈ bf_seen st ∧ d' to = Datatypes.S k ∧
         (∀ n, (n ≤ k)%nat → ¬ within g from n to)
  else ∃ d' B', bfs_inv to d' k A B' v [] (bf_parents st) (bf_seen st) ∧ bf_queue st = A ++ B' ∧
         (size (bf_seen st) + length B = size S + length B')%nat.
Proof.
  revert d B P S. induction todo as [|id todo IH]; intros d B P S Hinv Hv Hd Hsub; cbn.
  { exists d, B. auto. }
  pose proof Hinv as [H1 H2 H3 H4 H5 H7 H6].
  assert (∀ id', id' ∈ todo → id' ∈ g_edgeOrder g) as Hsub' by (intros; apply Hsub; by right).
  destruct (other_end (edge_of g id) v) as [y|] eqn:Ho.
  2:{ apply (IH d B P S); auto. split; auto. intros x id' y Hx Hl.
      destruct (H6 x id' y Hx Hl) as [?|[?|[[-> [->|?]%elem_of_cons]|?]]]; auto 6.
      destruct Hl as [_ Hl]. congruence. }
  assert (links g id v y) as Hlink by (split; [apply Hsub; left|done]).
  case_bool_decide as Hy.
  { apply (IH d B P S); auto. split; auto. intros x id' y' Hx Hl.
    destruct (H6 x id' y' Hx Hl) as [?|[?|[[-> [->|?]%elem_of_cons]|?]]]; auto 6.
    destruct Hl as [_ Hl]. assert (y' = y) as -> by congruence. do 3 right. split; [done|]. rewrite Hd. auto. }
  pose proof (tree_insert d P S v y id H1 Hv Hy Hlink) as Htree. rewrite Hd in Htree.
  set (d' := <[y := Datatypes.S k]> d) in *.
  assert (d' y = Datatypes.S k) as Hdy by apply fn_lookup_insert.
  assert (∀ x, x ∈ S → d' x = d x) as Hdx by (intros x Hx; apply fn_lookup_insert_ne; by intros ->).
  case_bool_decide as Hto.
  { subst y. exists d'. split_and!; [done|set_solver|done|]. intros n Hn Hw. by destruct (H5 n to Hn Hw). }
  specialize (IH d' (B ++ [y]) (<[y := (v, id)]> P) ({[y]} ∪ S)). rewrite app_assoc in IH.
  destruct (bfs_edges g to v todo _) as [found st] eqn:Eb.
  assert (bfs_inv to d' k A (B ++ [y]) v todo (<[y := (v, id)]> P) ({[y]} ∪ S)) as Hinv'.
  { apply (bfs_inv_insert d); auto. }
  assert (d' v = k) as Hdv by (rewrite Hdx; done).
  specialize (IH Hinv' ltac:(set_solver) Hdv Hsub').
  destruct found; [done|]. destruct IH as (d'' & B' & ? & ? & Hsz). exists d'', B'. split_and!; [done..|].
  rewrite size_union, size_singleton, length_app in Hsz by set_solver. cbn in Hsz. lia.
Qed.

Lemma bfs_closed to d k v P S : bfs_inv to d k [] [] v [] P S → ∀ n, ¬ within g from n to.
Proof.
  intros [[[T0 _] _ _ _ _] H2 _ _ _ _ H6] n Hw. apply H2. clear H2. revert T0.
  induction Hw as [|n b c _ IH [id Hl]]; [done|]. intros T0.
  by destruct (H6 b id c (IH T0) Hl) as [[]%elem_of_nil|[[]%elem_of_nil|[[_ []%elem_of_nil]|[? _]]]].
Qed.

(** The search finds [to] at its distance, or [to] is not reachable. *)
Lemma bfs_spec to fuel d k A B v P S :
  bfs_inv to d k A B v [] P S →
  (size (g_nodes g) + length (A ++ B) ≤ fuel + size S)%nat →
  match bfs fuel g to (MkBfs P S (A ++ B)) with
  | Some st => ∃ d' n, tree d' (bf_parents st) (bf_seen st) ∧ to ∈ bf_seen st ∧ d' to = Datatypes.S n ∧
      (∀ m, (m ≤ n)%nat → ¬ within g from m to)
  | None => ∀ n, ¬ within g from n to
  end.
Proof.
  revert d k A B v P S. induction fuel as [|fuel IH]; intros d k A B v P S Hinv Hf.
  - assert (size S ≤ size (g_nodes g))%nat as Hle.
    { rewrite <- size_dom. apply subseteq_size. intros x Hx. apply elem_of_dom.
      by apply (tr_nodes _ _ _ (bi_tree _ _ _ _ _ _ _ _ _ Hinv)). }
    rewrite length_app in Hf. destruct A; [|cbn in Hf; lia]. destruct B; [|cbn in Hf; lia].
    cbn. by eapply bfs_closed.
  - assert (∃ k' x A' B', A ++ B = x :: A' ++ B' ∧ bfs_inv to d k' (x :: A') B' v [] P S ∨
              A = [] ∧ B = [] ∧ k' = k ∧ x = v ∧ A' = A ∧ B' = B) as (k' & x & A' & B' & [[Hq Hinv']|Hend]).
    { destruct A as [|x A]; [destruct B as [|x B]|].
      - exists k, v, [], []. by right.
      - exists (Datatypes.S k), x, B, []. left. rewrite app_nil_r. split; [done|]. by apply bfs_inv_deeper.
      - exists k, x, A, B. by left. }
    2:{ destruct Hend as (-> & -> & _). cbn. by eapply bfs_closed. }
    rewrite Hq in *. cbn. pose proof Hinv' as [H1 H2 H3 H4 H5 H7 H6].
    destruct (H3 x) as [HxS Hdx]; [left|].
    pose proof (bfs_edges_spec to d k' A' B' x (g_edgeOrder g) P S) as Hspec.
    destruct (bfs_edges g to x (g_edgeOrder g) _) as [found st].
    assert (bfs_inv to d k' A' B' x (g_edgeOrder g) P S) as Hstart.
    { split; auto.
      - intros y Hy. apply H3. by right.
      - intros y id z Hy Hl. destruct (H6 y id z Hy Hl) as [[->|?]%elem_of_cons|[?|[[_ []%elem_of_nil]|?]]]; auto.
        destruct Hl as [Hl _]. auto. }
    specialize (Hspec Hstart HxS Hdx (λ _ H, H)). destruct found.
    + destruct Hspec as (d' & ? & ? & ? & ?). by exists d', k'.
    + destruct Hspec as (d' & B'' & Hi & Hqu & Hsz). destruct st as [P' S' Q']. cbn in *. subst Q'.
      apply (IH d' k' A' B'' x); [done|]. rewrite length_app in *. cbn in Hf. lia.
Qed.
End bfs.

(** between two nodes of a graph built from signals, the answer is
    the nodes and edges of a walk than which there is no shorter, or the
    empty subgraph when no walk joins the nodes. *)
Theorem ShortestPath_spec signals from to :
  let g := FromSignals signals in
  is_node g from → is_node g to → from ≠ "" → to ≠ "" →
  (∃ n ns es, walk g from n ns es to ∧ (∀ m, (m < n)%nat → ¬ within g from m to) ∧
    (∀ id, id ∈ node_ids (ShortestPath g from to) ↔ id ∈ ns) ∧
    (∀ id, id ∈ edge_ids (ShortestPath g from to) ↔ id ∈ es)) ∨
  (ShortestPath g from to = empty_subgraph ∧ ∀ n, ¬ within g from n to).
Proof.
  intros g Hf Ht Hfe Hte. pose proof (wf_FromSignals signals) as Hw. fold g in Hw. unfold ShortestPath.
  rewrite (bool_decide_false _ Hfe), (bool_decide_false _ Hte). cbn [orb].
  rewrite (bool_decide_false (g_nodes g !! from = None)) by (destruct Hf as [? Hf]; by rewrite Hf).
  rewrite (bool_decide_false (g_nodes g !! to = None)) by (destruct Ht as [? Ht]; by rewrite Ht).
  case_bool_decide as Heq.
  { subst to. left. exists 0%nat, [from], []. split_and!; [constructor|lia|..]; intros id.
    - rewrite elem_of_node_ids, elem_of_singleton, list_elem_of_singleton by done. naive_solver.
    - rewrite elem_of_edge_ids by done. set_solver. }
  pose proof (bfs_spec g from Hw to (size (g_nodes g)) _ 0 [from] [] "" ∅ {[from]} (bfs_inv_start g from to Hf Heq)) as Hb.
  specialize (Hb ltac:(rewrite size_singleton; cbn; lia)). cbn [app] in Hb.
  destruct (bfs (size (g_nodes g)) g to _) as [st|]; [|by right]. left.
  destruct Hb as (d & n & Htr & Hto & Hd & Hmin). unfold pathSubgraph.
  destruct (walk_back_spec g from Hw d _ _ (size (bf_parents st)) to {[to]} ∅ Htr Hto)
    as (ns & es & N & E & Hwalk & Hback & HN & HE); [by apply (tr_size _ _ _ _ _ Htr)|].
  rewrite Hback. exists (d to), (to :: ns), es. split_and!; [done| | |].
  - intros m Hm. apply Hmin. lia.
  - intros id. rewrite elem_of_node_ids, HN, elem_of_singleton, elem_of_cons by done.
    split; [tauto|]. intros H. split; [done|]. assert (id ∈ to :: ns) as Hid by (by apply elem_of_cons).
    by apply (walk_nodes g from _ _ _ _ Hw Hf Hwalk).
  - intros id. rewrite elem_of_edge_ids, HE by done. split; [set_solver|]. intros H. split; [by right|].
    by apply (walk_edges g from _ _ _ _ Hwalk).
Qed.

(** ** A concrete graph *)

Definition sample_signal (refs : list EntityRef) : Signal :=
  MkSignal "sig" "payload_dropped" SIGNAL_WHERE_ENDPOINT 50 (SpecFloat.S754_zero false) (SpecFloat.S754_zero false) "" refs [] [] false None
    false None "r" 1 "" [] [] "" 0 "" ∅.

(** A process that writes a file and connects, and a second process that loads the file. *)
Definition sample_signals : list Signal :=
  [sample_signal [MkEntityRef "process" "sh" "subject"; MkEntityRef "file" "/tmp/x" ""; MkEntityRef "socket" "1.2.3.4:80" ""];
   sample_signal [MkEntityRef "process" "x" "subject"; MkEntityRef "file" "/tmp/x" ""]].

Definition sample_graph : Graph := FromSignals sample_signals.

Lemma sample_graph_nodes : g_nodeOrder sample_graph = ["process:sh"; "file:/tmp/x"; "socket:1.2.3.4:80"; "process:x"].
Proof. vm_compute. reflexivity. Qed.

Lemma sample_is_node id : bool_decide (is_node sample_graph id) = true → is_node sample_graph id.
Proof. by intros ?%bool_decide_eq_true. Qed.

Lemma KHop_spec_witness :
  "socket:1.2.3.4:80" ∈ node_ids (KHop sample_graph "file:/tmp/x" 2) ∧
  within sample_graph "file:/tmp/x" 2 "socket:1.2.3.4:80".
Proof.
  assert ("socket:1.2.3.4:80" ∈ node_ids (KHop sample_graph "file:/tmp/x" 2)) as Hin.
  { apply (bool_decide_unpack _). vm_compute. exact I. }
  split; [exact Hin|].
  refine (proj1 (proj1 (KHop_spec sample_signals "file:/tmp/x" 2 _ _ _) _) Hin).
  - apply sample_is_node. vm_compute. reflexivity.
  - discriminate.
  - lia.
Defined.

Lemma ShortestPath_spec_witness :
  node_ids (ShortestPath sample_graph "process:sh" "process:x") = ["process:sh"; "file:/tmp/x"; "process:x"] ∧
  ∃ n ns es, walk sample_graph "process:sh" n ns es "process:x" ∧
    (∀ m, (m < n)%nat → ¬ within sample_graph "process:sh" m "process:x").
Proof.
  split; [vm_compute; reflexivity|].
  destruct (ShortestPath_spec sample_signals "process:sh" "process:x") as [(n & ns & es & Hw & Hmin & _)|[Hemp _]].
  - apply sample_is_node. vm_compute. reflexivity.
  - apply sample_is_node. vm_compute. reflexivity.
  - discriminate.
  - discriminate.
  - exists n, ns, es. split; [exact Hw|exact Hmin].
  - exfalso. apply (f_equal node_ids) in Hemp. vm_compute in Hemp. discriminate.
Defined.
End Graph.
