(* ===== verification/DataPlane.v ===== *)
(** * Data-plane messages ([api/proto/dataplane/v1/dataplane.pb.go], [internal/endpoint/dataappend/ack.go])

    Batches of event and signal frames as the agent stores and uploads them,
    the acknowledgements of the manager, and their reading.  A nil header
    reads as the zero header, as in the generated getters. *)

From S2P Require Import Prelude GoStrings EventModel.

Module DataPlane.
Import EventModel.

Record BatchHeader := MkBatchHeader {
  bh_BatchId : string;
  bh_TenantId : string;
  bh_AgentId : string;
  bh_HostId : string;
  bh_PolicyId : string;
  bh_PolicyVersion : Z;
  bh_PolicyMode : string;
  bh_EventSeqStart : Z;
  bh_EventSeqEnd : Z;
  bh_SignalSeqStart : Z;
  bh_SignalSeqEnd : Z;
  bh_EventCount : Z;
  bh_SignalCount : Z;
  bh_DroppedEventsDelta : Z;
  bh_ParseErrorsDelta : Z;
  bh_CreatedAtUnixNano : Z;
  bh_Labels : gmap string string
}.

Record EventFrame := MkEventFrame {
  ef_Sequence : Z;
  ef_ObservedAt : string;
  ef_Event : option CanonicalEvent
}.

Record SignalFrame := MkSignalFrame {
  sf_Sequence : Z;
  sf_ObservedAt : string;
  sf_Signal : option Signal
}.

Record DataBatch := MkDataBatch {
  db_Header : option BatchHeader;
  db_Events : list EventFrame;
  db_Signals : list SignalFrame;
  db_SchemaVersion : string
}.

Definition zero_header : BatchHeader :=
  MkBatchHeader "" "" "" "" "" 0 "" 0 0 0 0 0 0 0 0 0 ∅.

Definition GetHeader (batch : DataBatch) : BatchHeader := default zero_header (db_Header batch).

(** ** Acknowledgements *)

Inductive AckStatus :=
  STATUS_UNSPECIFIED | STATUS_ACCEPTED | STATUS_DUPLICATE | STATUS_RETRYABLE | STATUS_REJECTED.

Record DataAck := MkDataAck {
  ack_BatchId : string;
  ack_Accepted : bool;
  ack_Message : string;
  ack_Status : AckStatus;
  ack_ReasonCode : string;
  ack_CommittedCursor : string;
  ack_ServerTime : string;
  ack_AcceptedEvents : Z;
  ack_AcceptedSignals : Z;
  ack_Retryable : bool;
  ack_RetryAfterMs : Z;
  ack_Partial : bool;
  ack_RejectedEvents : Z;
  ack_RejectedSignals : Z;
  ack_ContractVersion : string
}.

Definition AckCommitted (ack : option DataAck) : bool :=
  match ack with
  | None => false
  | Some ack =>
    match ack_Status ack with
    | STATUS_ACCEPTED | STATUS_DUPLICATE => true
    | STATUS_UNSPECIFIED => ack_Accepted ack
    | _ => false
    end
  end.

Definition AckRetryable (ack : option DataAck) : bool :=
  match ack with
  | None => true
  | Some ack => ack_Retryable ack || match ack_Status ack with STATUS_RETRYABLE => true | _ => false end
  end.

Definition AckTerminalRejected (ack : option DataAck) : bool :=
  match ack with
  | None => false
  | Some ack => match ack_Status ack with STATUS_REJECTED => true | _ => false end && negb (ack_Retryable ack)
  end.

(** ** Decidable equality *)

Global Instance spec_float_eq_dec : EqDecision SpecFloat.spec_float.
Proof. solve_decision. Defined.
Global Instance SignalWhere_eq_dec : EqDecision SignalWhere.
Proof. solve_decision. Defined.
Global Instance EntityRef_eq_dec : EqDecision EntityRef.
Proof. solve_decision. Defined.
Global Instance ContentRefMsg_eq_dec : EqDecision ContentRefMsg.
Proof. solve_decision. Defined.
Global Instance EvidenceBundle_eq_dec : EqDecision EvidenceBundle.
Proof. solve_decision. Defined.
Global Instance ResponseIntentMsg_eq_dec : EqDecision ResponseIntentMsg.
Proof. solve_decision. Defined.
Global Instance Signal_eq_dec : EqDecision Signal.
Proof. solve_decision. Defined.
Global Instance ProcessRef_eq_dec : EqDecision ProcessRef.
Proof. solve_decision. Defined.
Global Instance ObjectRef_eq_dec : EqDecision ObjectRef.
Proof. solve_decision. Defined.
Global Instance RuntimeScope_eq_dec : EqDecision RuntimeScope.
Proof. solve_decision. Defined.
Global Instance CanonicalEvent_eq_dec : EqDecision CanonicalEvent.
Proof. solve_decision. Defined.
Global Instance BatchHeader_eq_dec : EqDecision BatchHeader.
Proof. solve_decision. Defined.
Global Instance EventFrame_eq_dec : EqDecision EventFrame.
Proof. solve_decision. Defined.
Global Instance SignalFrame_eq_dec : EqDecision SignalFrame.
Proof. solve_decision. Defined.
Global Instance DataBatch_eq_dec : EqDecision DataBatch.
Proof. solve_decision. Defined.
End DataPlane.
