(* ===== verification/Segment.v ===== *)
(** * Segment files of the local store ([internal/agent/localstore/segment_format.go], [segment_reader.go])

    The on-disk format: a 32-byte header, then length-prefixed records with a
    checksum, each a compressed batch.  Serialisation of a batch (protobuf)
    and compression (zstd) are third-party code: they are the operations of
    the class [Codec], and their documented round trips are [CodecLaws].

    Reading a file is shown to give back what was written, and reading the
    file left by a torn write gives back the complete records and cuts the
    incomplete one off. *)

From S2P Require Import Prelude GoStrings GoBytes EventModel DataPlane.

Module Segment.
Import EventModel DataPlane.

Class Codec := {
  Marshal : DataBatch → option bytes;
  Unmarshal : bytes → option DataBatch;
  EncodeAll : bytes → bytes;
  DecodeAll : bytes → option bytes
}.

Class CodecLaws `{Codec} : Prop := {
  unmarshal_marshal batch raw : Marshal batch = Some raw → Unmarshal raw = Some batch;
  decode_encode raw : DecodeAll (EncodeAll raw) = Some raw
}.

Definition segmentHeaderSize : nat := 32.
Definition recordFixedSize : nat := 20.
Definition segmentVersion : Z := 1.
Definition maxBatchBytes : Z := 16 * 2 ^ 20.
Definition segmentMagic : bytes := bytes_of "SYSASEG1".

(** ** The header *)

(** The bytes 11 to 15 stay zero, byte 10 is the format. *)
Definition encodeSegmentHeader (segmentID createdAt : Z) : bytes :=
  segmentMagic ++ be 2 segmentVersion ++ [byte_of 1] ++ replicate 5 (byte_of 0) ++
  be 8 segmentID ++ be 8 (u64 createdAt).

Definition parseSegmentHeader (header : bytes) : result Z :=
  if bool_decide (length header ≠ segmentHeaderSize) || bool_decide (take 8 header ≠ segmentMagic)
  then Err "invalid segment header"
  else if bool_decide (be_val (slice header 8 10) ≠ segmentVersion) ||
          bool_decide (default 0%Z (byte_val <$> header !! 10%nat) ≠ 1%Z)
  then Err "unsupported segment format"
  else Ok (be_val (slice header 16 24)).

(** ** Records *)

Definition batchSequence (batch : DataBatch) : Z :=
  if (0 <? bh_EventSeqStart (GetHeader batch))%Z then bh_EventSeqStart (GetHeader batch)
  else bh_SignalSeqStart (GetHeader batch).

Section codec.
Context `{Codec}.

(** The record's body: what the checksum covers. *)
Definition record_body (raw : bytes) (sequence : Z) (batchID compressed : bytes) : bytes :=
  be 4 (Z.of_nat (length raw)) ++ be 8 sequence ++ be 2 (Z.of_nat (length batchID)) ++
  replicate 2 (byte_of 0) ++ batchID ++ compressed.

Definition encodeRecord (batch : DataBatch) : result (bytes * Z) :=
  match Marshal batch with
  | None => Err "marshal"
  | Some raw =>
    if (maxBatchBytes <? Z.of_nat (length raw))%Z then Err "data batch exceeds limit"
    else
      let compressed := EncodeAll raw in
      let batchID := bytes_of (bh_BatchId (GetHeader batch)) in
      let sequence := batchSequence batch in
      let total := (recordFixedSize - 4 + length batchID + length compressed + 4)%nat in
      let body := record_body raw sequence batchID compressed in
      Ok (be 4 (Z.of_nat total) ++ body ++ be 4 (Checksum body), sequence)
  end.

Definition decodeRecord (record : bytes) : result (DataBatch * Z) :=
  if (length record <? recordFixedSize + 4)%nat then Err "record is too short"
  else
    let crcAt := (length record - 4)%nat in
    if bool_decide (Checksum (slice record 4 crcAt) ≠ be_val (drop crcAt record)) then Err "record CRC mismatch"
    else
      let rawLen := be_val (slice record 4 8) in
      if (maxBatchBytes <? rawLen)%Z then Err "record payload exceeds limit"
      else
        let idLen := Z.to_nat (be_val (slice record 16 18)) in
        if (crcAt <? 20 + idLen)%nat then Err "record batch id length is invalid"
        else match DecodeAll (slice record (20 + idLen) crcAt) with
        | None => Err "decompress data batch"
        | Some raw =>
          if bool_decide (Z.of_nat (length raw) ≠ rawLen) then Err "decompressed data batch length"
          else match Unmarshal raw with
          | None => Err "unmarshal"
          | Some batch => Ok (batch, be_val (slice record 8 16))
          end
        end.

(** ** Reading a segment *)

Record Position := MkPosition {
  pos_SegmentID : Z;
  pos_RecordOffset : Z;
  pos_BatchSequence : Z;
  pos_BatchID : string
}.

Record StoredBatch := MkStoredBatch {
  sb_Position : Position;
  sb_Batch : DataBatch
}.

(** The batches read, and the size the file was cut to, if it was. *)
Definition read_result : Type := list StoredBatch * option Z.

Definition truncateOrError (offset : Z) (allowed : bool) (batches : list StoredBatch) : result read_result :=
  if allowed then Ok (batches, Some offset) else Err "unexpected EOF".

(** The loop; [rest] is the file from [offset] on.  Every turn but the last
    consumes at least the four bytes of the length, so the file's length is
    enough fuel. *)
Fixpoint readRecords_go (fuel : nat) (segmentID : Z) (truncateTail : bool) (offset : Z) (rest : bytes)
    (out : list StoredBatch) : result read_result :=
  match fuel with
  | O => Err "out of fuel"
  | S fuel' =>
    if bool_decide (rest = []) then Ok (out, None)
    else if (length rest <? 4)%nat then truncateOrError offset truncateTail out
    else
      let len := be_val (take 4 rest) in
      if (len <? Z.of_nat recordFixedSize)%Z || (maxBatchBytes <? len)%Z then Err "invalid record length"
      else if (Z.of_nat (length (drop 4 rest)) <? len)%Z then truncateOrError offset truncateTail out
      else
        let size := (4 + Z.to_nat len)%nat in
        match decodeRecord (take size rest) with
        | Err msg => Err msg
        | Ok (batch, sequence) =>
          let position := MkPosition segmentID offset sequence (bh_BatchId (GetHeader batch)) in
          readRecords_go fuel' segmentID truncateTail (offset + Z.of_nat size)%Z (drop size rest)
            (out ++ [MkStoredBatch position batch])
        end
  end.

Definition readRecords (rest : bytes) (segmentID : Z) (truncateTail : bool) : result read_result :=
  readRecords_go (S (length rest)) segmentID truncateTail (Z.of_nat segmentHeaderSize) rest [].

Definition readSegment (content : bytes) (truncateTail : bool) : result read_result :=
  if (length content <? segmentHeaderSize)%nat then Err "unexpected EOF"
  else match parseSegmentHeader (take segmentHeaderSize content) with
  | Err msg => Err msg
  | Ok segmentID => readRecords (drop segmentHeaderSize content) segmentID truncateTail
  end.

(** ** What was written is read back *)

(** What the format can hold: a batch whose record the reader accepts. *)
Record storable (batch : DataBatch) (record : bytes) (sequence : Z) : Prop := {
  st_encode : encodeRecord batch = Ok (record, sequence);
  st_id : (Z.of_nat (String.length (bh_BatchId (GetHeader batch))) < 2 ^ 16)%Z;
  st_seq : in_u64 sequence;
  st_size : (Z.of_nat (length record) ≤ maxBatchBytes + 4)%Z
}.

Lemma record_body_length raw sequence batchID compressed :
  length (record_body raw sequence batchID compressed) = (16 + length batchID + length compressed)%nat.
Proof. unfold record_body. rewrite !length_app, !be_length. cbn. lia. Qed.

Lemma encodeRecord_inv batch record sequence :
  encodeRecord batch = Ok (record, sequence) →
  ∃ raw, Marshal batch = Some raw ∧ (Z.of_nat (length raw) ≤ maxBatchBytes)%Z ∧ sequence = batchSequence batch ∧
    let batchID := bytes_of (bh_BatchId (GetHeader batch)) in
    let body := record_body raw sequence batchID (EncodeAll raw) in
    record = be 4 (Z.of_nat (length record - 4)) ++ body ++ be 4 (Checksum body) ∧
    length record = (24 + length batchID + length (EncodeAll raw))%nat.
Proof.
  unfold encodeRecord. destruct (Marshal batch) as [raw|]; [|done].
  destruct (Z.ltb_spec maxBatchBytes (Z.of_nat (length raw))) as [|Hle]; [done|].
  intros E. injection E as Hr Hs. exists raw. split; [done|]. split; [done|]. split; [done|]. cbv zeta.
  rewrite Hs in Hr. set (id := bytes_of _) in *. set (body := record_body raw _ id _) in *.
  assert (length record = (24 + length id + length (EncodeAll raw))%nat) as Hlen.
  { rewrite <- Hr, !length_app, !be_length. unfold body. rewrite record_body_length. lia. }
  split; [|done]. rewrite Hlen. rewrite <- Hr at 1. do 3 f_equal. unfold recordFixedSize. lia.
Qed.

(** The fields of a record, by position. *)
Lemma record_fields (pre : bytes) raw sequence id compressed post :
  length pre = 4%nat →
  let record := pre ++ record_body raw sequence id compressed ++ post in
  slice record 4 8 = be 4 (Z.of_nat (length raw)) ∧
  slice record 8 16 = be 8 sequence ∧
  slice record 16 18 = be 2 (Z.of_nat (length id)) ∧
  slice record (20 + length id) (20 + length id + length compressed) = compressed ∧
  slice record 4 (4 + length (record_body raw sequence id compressed)) = record_body raw sequence id compressed.
Proof.
  intros Hpre record.
  assert (slice record 4 (4 + length (record_body raw sequence id compressed)) = record_body raw sequence id compressed)
    as Hbody by (apply slice_app; lia).
  unfold record, record_body in *. repeat rewrite <- app_assoc in *. split_and!; [..|done].
  - apply slice_app; rewrite ?be_length; lia.
  - rewrite app_assoc. apply slice_app; rewrite ?length_app, ?be_length; lia.
  - rewrite (app_assoc pre), (app_assoc _ (be 8 sequence)).
    apply slice_app; rewrite ?length_app, ?be_length; lia.
  - rewrite (app_assoc pre), (app_assoc _ (be 8 sequence)), (app_assoc _ (be 2 _)), (app_assoc _ (replicate 2 _)),
      (app_assoc _ id).
    apply slice_app; rewrite ?length_app, ?be_length, ?length_replicate; lia.
Qed.

Lemma decodeRecord_encode `{!CodecLaws} batch record sequence :
  storable batch record sequence → decodeRecord record = Ok (batch, sequence).
Proof.
  intros [Henc Hid Hseq _].
  destruct (encodeRecord_inv batch record sequence Henc) as (raw & Hm & Hraw & _ & Hrec & Hlen).
  set (id := bytes_of _) in *. set (body := record_body raw sequence id (EncodeAll raw)) in *.
  unfold decodeRecord, recordFixedSize. destruct (Nat.ltb_spec (length record) (20 + 4)) as [|_]; [lia|].
  assert (length body = (16 + length id + length (EncodeAll raw))%nat) as Hb by apply record_body_length.
  destruct (record_fields (be 4 (Z.of_nat (length record - 4))) raw sequence id (EncodeAll raw) (be 4 (Checksum body)))
    as (F1 & F2 & F3 & F4 & F5); [apply be_length|].
  fold body in F1, F2, F3, F4, F5. rewrite <- Hrec in F1, F2, F3, F4, F5.
  replace (length record - 4)%nat with (4 + length body)%nat in * by lia.
  rewrite F5. assert (drop (4 + length body) record = be 4 (Checksum body)) as ->.
  { rewrite Hrec, app_assoc. apply drop_app_length'. rewrite length_app, be_length. lia. }
  rewrite be_val_be by apply Checksum_bound. rewrite bool_decide_false by tauto.
  unfold maxBatchBytes in *. rewrite F1, be_val_be by lia. destruct (Z.ltb_spec (16 * 2 ^ 20) (Z.of_nat (length raw))) as [|_]; [lia|].
  assert (length id = String.length (bh_BatchId (GetHeader batch))) as Hidl by apply bytes_of_length.
  rewrite F3, be_val_be by lia. rewrite Nat2Z.id.
  destruct (Nat.ltb_spec (4 + length body) (20 + length id)) as [|_]; [lia|].
  replace (4 + length body)%nat with (20 + length id + length (EncodeAll raw))%nat by lia.
  rewrite F4, decode_encode. rewrite bool_decide_false by tauto.
  rewrite (unmarshal_marshal _ _ Hm), F2, be_val_be by exact Hseq. done.
Qed.

(** The length field of a storable record, and how far it reaches. *)
Lemma storable_length batch record sequence :
  storable batch record sequence →
  be_val (take 4 record) = Z.of_nat (length record - 4) ∧
  (Z.of_nat recordFixedSize ≤ Z.of_nat (length record - 4) ≤ maxBatchBytes)%Z ∧ (24 ≤ length record)%nat.
Proof.
  intros [Henc _ _ Hsz]. destruct (encodeRecord_inv batch record sequence Henc) as (raw & _ & _ & _ & Hrec & Hlen).
  unfold recordFixedSize, maxBatchBytes in *. split_and!; [|lia..].
  rewrite Hrec at 1. rewrite take_app_length' by (by rewrite be_length). rewrite be_val_be; [done|]. lia.
Qed.

(** ** The layout of a file *)

(** The records of the batches, and the positions at which they are stored. *)
Inductive layout (segmentID : Z) : Z → list DataBatch → bytes → list StoredBatch → Prop :=
| layout_nil offset : layout segmentID offset [] [] []
| layout_cons offset batch batches record sequence rest stored :
    storable batch record sequence →
    layout segmentID (offset + Z.of_nat (length record)) batches rest stored →
    layout segmentID offset (batch :: batches) (record ++ rest)
      (MkStoredBatch (MkPosition segmentID offset sequence (bh_BatchId (GetHeader batch))) batch :: stored).

(** A write that stopped before its end, perhaps before its first byte. *)
Definition torn (tail : bytes) : Prop :=
  tail = [] ∨ ∃ batch record sequence rest, storable batch record sequence ∧ record = tail ++ rest ∧ rest ≠ [].

(** One turn of the loop over a complete record. *)
Lemma readRecords_go_record `{!CodecLaws} fuel sid tr offset batch record sequence rest out :
  storable batch record sequence →
  readRecords_go (S fuel) sid tr offset (record ++ rest) out =
  readRecords_go fuel sid tr (offset + Z.of_nat (length record)) rest
    (out ++ [MkStoredBatch (MkPosition sid offset sequence (bh_BatchId (GetHeader batch))) batch]).
Proof.
  intros Hst. destruct (storable_length batch record sequence Hst) as (Hlen & Hrange & H24).
  cbn [readRecords_go]. rewrite bool_decide_false.
  2:{ destruct record; cbn in *; [lia|done]. }
  destruct (Nat.ltb_spec (length (record ++ rest)) 4) as [Hlt|_]; [rewrite length_app in Hlt; lia|].
  rewrite take_app_le by lia. rewrite Hlen.
  destruct (Z.ltb_spec (Z.of_nat (length record - 4)) (Z.of_nat recordFixedSize)) as [|_]; [lia|].
  destruct (Z.ltb_spec maxBatchBytes (Z.of_nat (length record - 4))) as [|_]; [lia|]. cbn [orb].
  rewrite length_drop, length_app.
  destruct (Z.ltb_spec (Z.of_nat (length record + length rest - 4)) (Z.of_nat (length record - 4))) as [|_]; [lia|].
  rewrite Nat2Z.id. replace (4 + (length record - 4))%nat with (length record) by lia.
  rewrite take_app_length, drop_app_length. by rewrite (decodeRecord_encode batch record sequence Hst).
Qed.

(** The loop over a torn record, or over nothing. *)
Lemma readRecords_go_torn fuel sid tr offset tail out :
  torn tail →
  readRecords_go (S fuel) sid tr offset tail out =
  if bool_decide (tail = []) then Ok (out, None) else truncateOrError offset tr out.
Proof.
  intros [->|(batch & record & sequence & rest & Hst & Hrec & Hne)]; [done|].
  destruct (storable_length batch record sequence Hst) as (Hlen & Hrange & H24).
  cbn [readRecords_go]. case_bool_decide as Htail; [done|].
  destruct (Nat.ltb_spec (length tail) 4) as [|Hge]; [done|].
  assert (take 4 tail = take 4 record) as ->.
  { rewrite Hrec. by rewrite take_app_le. }
  rewrite Hlen. destruct (Z.ltb_spec (Z.of_nat (length record - 4)) (Z.of_nat recordFixedSize)) as [|_]; [lia|].
  destruct (Z.ltb_spec maxBatchBytes (Z.of_nat (length record - 4))) as [|_]; [lia|]. cbn [orb].
  assert (length record = length tail + length rest)%nat as Hl by by rewrite Hrec, length_app.
  assert (0 < length rest)%nat by (destruct rest; cbn; [done|lia]).
  rewrite length_drop. destruct (Z.ltb_spec (Z.of_nat (length tail - 4)) (Z.of_nat (length record - 4))) as [|]; [done|lia].
Qed.

Lemma readRecords_go_layout `{!CodecLaws} fuel sid tr offset batches content stored tail out :
  layout sid offset batches content stored → torn tail → (length content < fuel)%nat →
  readRecords_go fuel sid tr offset (content ++ tail) out =
  if bool_decide (tail = []) then Ok (out ++ stored, None)
  else truncateOrError (offset + Z.of_nat (length content)) tr (out ++ stored).
Proof.
  intros Hl Ht. revert fuel out.
  induction Hl as [offset|offset batch batches record sequence rest stored Hst Hl IH]; intros fuel out Hf.
  - destruct fuel as [|fuel]; [cbn in Hf; lia|]. cbn [app length]. rewrite readRecords_go_torn by done.
    rewrite app_nil_r, Z.add_0_r. done.
  - destruct (storable_length batch record sequence Hst) as (_ & _ & H24). rewrite length_app in *.
    destruct fuel as [|fuel]; [lia|]. rewrite <- app_assoc.
    rewrite (readRecords_go_record fuel sid tr offset batch record sequence) by done.
    rewrite IH by lia. rewrite <- app_assoc. cbn [app].
    rewrite Nat2Z.inj_add, Z.add_assoc. done.
Qed.

(** ** Headers *)

Lemma encodeSegmentHeader_length sid createdAt : length (encodeSegmentHeader sid createdAt) = segmentHeaderSize.
Proof. unfold encodeSegmentHeader. rewrite !length_app, !be_length. done. Qed.

Lemma parse_encode_header sid createdAt : in_u64 sid → parseSegmentHeader (encodeSegmentHeader sid createdAt) = Ok sid.
Proof.
  intros Hs. unfold parseSegmentHeader. rewrite encodeSegmentHeader_length.
  assert (length segmentMagic = 8%nat) as Hmagic by done.
  unfold encodeSegmentHeader. rewrite bool_decide_false by tauto. rewrite take_app_length' by done.
  rewrite bool_decide_false by tauto. cbn [orb].
  rewrite (slice_app segmentMagic) by (rewrite ?be_length; done).
  rewrite be_val_be by (unfold segmentVersion; lia). rewrite bool_decide_false by tauto.
  set (l := _ ++ _).
  assert (l !! 10%nat = Some (byte_of 1)) as ->.
  { unfold l. rewrite lookup_app_r by (rewrite Hmagic; lia). rewrite Hmagic.
    rewrite lookup_app_r by (rewrite be_length; lia). by rewrite be_length. }
  cbn [fmap option_fmap option_map default from_option]. rewrite byte_val_of by lia.
  rewrite bool_decide_false by tauto. cbn [orb]. f_equal. unfold l.
  rewrite !(app_assoc segmentMagic), !(app_assoc (segmentMagic ++ _)), !(app_assoc ((segmentMagic ++ _) ++ _)).
  rewrite slice_app by (rewrite ?length_app, ?be_length; done). by apply be_val_be.
Qed.

Lemma readRecords_layout `{!CodecLaws} sid tr batches content stored tail :
  layout sid (Z.of_nat segmentHeaderSize) batches content stored → torn tail →
  readRecords (content ++ tail) sid tr =
  if bool_decide (tail = []) then Ok (stored, None)
  else truncateOrError (Z.of_nat segmentHeaderSize + Z.of_nat (length content)) tr stored.
Proof.
  intros Hl Ht. unfold readRecords. rewrite (readRecords_go_layout _ sid tr _ batches content stored tail []) by
    (rewrite ?length_app; done || lia). done.
Qed.

Lemma readSegment_header sid createdAt rest tr :
  in_u64 sid → readSegment (encodeSegmentHeader sid createdAt ++ rest) tr = readRecords rest sid tr.
Proof.
  intros Hs. unfold readSegment. rewrite length_app, encodeSegmentHeader_length.
  destruct (Nat.ltb_spec (segmentHeaderSize + length rest) segmentHeaderSize) as [|_]; [lia|].
  rewrite take_app_length', drop_app_length' by (by rewrite encodeSegmentHeader_length).
  by rewrite parse_encode_header.
Qed.

(** A stored record is read back: decoding the bytes of a batch that the
    format can hold gives the batch and its sequence number. *)
Theorem record_roundtrip `{!CodecLaws} batch record sequence :
  storable batch record sequence → decodeRecord record = Ok (batch, sequence).
Proof. apply decodeRecord_encode. Qed.

(** Reading after a torn write: from a file that holds complete records and
    then the beginning of one more, recovery returns the complete batches at
    their positions and cuts the file at the end of the last complete record;
    a plain read returns them only when nothing was torn and fails otherwise. *)
Theorem read_after_torn_write `{!CodecLaws} sid createdAt batches content stored tail :
  in_u64 sid → layout sid (Z.of_nat segmentHeaderSize) batches content stored → torn tail →
  let file := encodeSegmentHeader sid createdAt ++ content ++ tail in
  readSegment file true =
    Ok (stored, if bool_decide (tail = []) then None
                else Some (Z.of_nat (length (encodeSegmentHeader sid createdAt ++ content)))) ∧
  (tail = [] → readSegment file false = Ok (stored, None)) ∧
  (tail ≠ [] → readSegment file false = Err "unexpected EOF").
Proof.
  intros Hs Hl Ht file.
  assert (∀ tr, readSegment file tr = if bool_decide (tail = []) then Ok (stored, None)
    else truncateOrError (Z.of_nat segmentHeaderSize + Z.of_nat (length content)) tr stored) as Hread.
  { intros tr. unfold file. rewrite readSegment_header by done.
    by apply (readRecords_layout sid tr batches). }
  rewrite !Hread. unfold truncateOrError. rewrite length_app, encodeSegmentHeader_length, Nat2Z.inj_add.
  case_bool_decide; split_and!; tauto || done.
Qed.
End codec.

(** ** A concrete codec

    Serialisation of the batches of a fixed table by their index, without
    compression: enough to run the code on concrete inputs. *)

Definition table_codec (table : list DataBatch) : Codec := {|
  Marshal batch :=
    match list_find (batch =.) table with
    | Some (i, _) => if (i <? 256)%nat then Some [byte_of (Z.of_nat i)] else None
    | None => None
    end;
  Unmarshal raw := match raw with [c] => table !! Z.to_nat (byte_val c) | _ => None end;
  EncodeAll raw := raw;
  DecodeAll raw := Some raw
|}.

Lemma table_codec_laws table : @CodecLaws (table_codec table).
Proof.
  split; [|done]. intros batch raw. cbn [Marshal Unmarshal table_codec].
  destruct (list_find (batch =.) table) as [[i b]|] eqn:Ef; [|done].
  apply list_find_Some in Ef as (Hi & <- & _).
  destruct (Nat.ltb_spec i 256) as [Hlt|]; [|done]. intros [= <-].
  rewrite byte_val_of by lia. by rewrite Nat2Z.id.
Qed.

Definition demo_batch (id : string) (sequence : Z) : DataBatch :=
  MkDataBatch (Some (MkBatchHeader id "" "" "" "" 0 "" sequence sequence 0 0 0 0 0 0 0 ∅)) [] [] "v1".

Definition demo_codec : Codec := table_codec [demo_batch "batch-1" 1; demo_batch "batch-2" 2].

#[local] Existing Instance demo_codec.
#[local] Instance demo_codec_laws : CodecLaws := table_codec_laws _.

Definition demo_record (batch : DataBatch) : bytes :=
  match encodeRecord batch with Ok (record, _) => record | Err _ => [] end.

Lemma demo_storable_1 : storable (demo_batch "batch-1" 1) (demo_record (demo_batch "batch-1" 1)) 1.
Proof. split; [vm_compute; reflexivity|vm_compute; reflexivity|unfold in_u64; lia|vm_compute; discriminate]. Qed.

Lemma demo_storable_2 : storable (demo_batch "batch-2" 2) (demo_record (demo_batch "batch-2" 2)) 2.
Proof. split; [vm_compute; reflexivity|vm_compute; reflexivity|unfold in_u64; lia|vm_compute; discriminate]. Qed.

Lemma record_roundtrip_witness :
  decodeRecord (demo_record (demo_batch "batch-1" 1)) = Ok (demo_batch "batch-1" 1, 1%Z).
Proof. apply record_roundtrip. exact demo_storable_1. Defined.

(** Seven bytes of the second record made it to the file. *)
Lemma read_after_torn_write_witness :
  let record := demo_record (demo_batch "batch-1" 1) in
  let tail := take 7 (demo_record (demo_batch "batch-2" 2)) in
  readSegment (encodeSegmentHeader 1 0 ++ record ++ tail) true =
    Ok ([MkStoredBatch (MkPosition 1 32 1 "batch-1") (demo_batch "batch-1" 1)],
        Some (Z.of_nat (32 + length record))).
Proof.
  intros record tail.
  destruct (read_after_torn_write 1 0 [demo_batch "batch-1" 1] record
    [MkStoredBatch (MkPosition 1 32 1 "batch-1") (demo_batch "batch-1" 1)] tail) as [Hread _].
  - unfold in_u64. lia.
  - rewrite <- (app_nil_r record). apply (layout_cons 1 32 (demo_batch "batch-1" 1) [] record 1 [] []).
    + exact demo_storable_1.
    + constructor.
  - right. exists (demo_batch "batch-2" 2), (demo_record (demo_batch "batch-2" 2)), 2%Z, (drop 7 (demo_record (demo_batch "batch-2" 2))).
    split; [exact demo_storable_2|]. split; [symmetry; apply take_drop|vm_compute; discriminate].
  - rewrite Hread. vm_compute. reflexivity.
Defined.
End Segment.
