(* ===== verification/LocalStore.v ===== *)
(** * The local store of the agent ([internal/agent/localstore])

    Batches of telemetry are appended to segment files in a spool directory;
    a small database keeps the table of segments, the sequence cursor, the
    upload checkpoint and the drop counters.  The durable part ([Disk]) is
    what a crash leaves behind, the rest of [Store] is rebuilt by [Open].

    Files are named by their path under the spool directory.  Calls to the
    operating system and the database are taken to succeed; the clock and
    the free space of the disk are arguments.  The table of signals is
    modelled as far as pruning reads it. *)

From S2P Require Import Prelude GoStrings GoBytes EventModel DataPlane Segment.

Module LocalStore.
Import EventModel DataPlane Segment.

(** ** Data *)

Definition defaultMaxBytes : Z := 10 * 2 ^ 30.
Definition defaultMinFreeBytes : Z := 2 * 2 ^ 30.
Definition defaultSegmentSize : Z := 64 * 2 ^ 20.
Definition defaultSignalMaxCount : Z := 100000.

Record Options := MkOptions {
  o_MaxBytes : Z;
  o_MinFreeBytes : Z;
  o_SegmentSize : Z;
  o_SignalMaxCount : Z
}.

Definition normalizeOptions (opts : Options) : Options :=
  MkOptions (if (o_MaxBytes opts <=? 0)%Z then defaultMaxBytes else o_MaxBytes opts)
    (if (o_MinFreeBytes opts <=? 0)%Z then defaultMinFreeBytes else o_MinFreeBytes opts)
    (if (o_SegmentSize opts <=? 0)%Z then defaultSegmentSize else o_SegmentSize opts)
    (if (o_SignalMaxCount opts <=? 0)%Z then defaultSignalMaxCount else o_SignalMaxCount opts).

Record SequenceCursor := MkCursor { cur_Event : Z; cur_Signal : Z }.

Record Checkpoint := MkCheckpoint {
  cp_SegmentID : Z;
  cp_RecordOffset : Z;
  cp_LastBatchID : string;
  cp_UpdatedAt : Z
}.

(** A row of the table [segments]. *)
Record segmentRow := MkRow {
  row_path : string;
  row_state : string;
  row_first : Z;
  row_last : Z;
  row_records : Z;
  row_bytes : Z;
  row_created : Z;
  row_sealed : option Z
}.

Record segmentWriter := MkWriter {
  w_id : Z;
  w_path : string;
  w_size : Z;
  w_records : Z;
  w_firstSequence : Z;
  w_lastSequence : Z
}.

(** The rows of the tables [device_identity], [enrollment] and [policy]. *)
Record DeviceIdentity := MkDeviceIdentity {
  di_DeviceID : string;
  di_HostID : string;
  di_CreatedAt : Z
}.

Inductive EnrollmentState := StateStandalone | StateManaged.

Record Enrollment := MkEnrollment {
  en_State : EnrollmentState;
  en_TenantID : string;
  en_AgentID : string;
  en_GatewayAddress : string;
  en_TLSCAPath : string;
  en_TLSCertPath : string;
  en_TLSKeyPath : string;
  en_TLSServerName : string;
  en_UploadHistory : bool;
  en_ManagedFromSequence : Z;
  en_UpdatedAt : Z
}.

Record PolicyRecord := MkPolicyRecord {
  pr_Kind : string;
  pr_Version : Z;
  pr_Document : bytes;
  pr_Digest : string;
  pr_UpdatedAt : Z
}.

Record Meta := MkMeta {
  m_identity : option DeviceIdentity;
  m_enrollment : option Enrollment;
  m_policies : gmap string PolicyRecord
}.

Record Disk := MkDisk {
  d_meta : Meta;
  d_files : gmap string bytes;
  d_segments : gmap Z segmentRow;
  d_cursor : SequenceCursor;
  d_checkpoint : option Checkpoint;
  d_droppedBatches : Z;
  d_signals : gmap Z string
}.

Record Store := MkStore {
  s_disk : Disk;
  s_opts : Options;
  s_writer : option segmentWriter;
  s_batchPositions : gmap string Position;
  s_cursor : SequenceCursor
}.

Definition upd_files (f : gmap string bytes → gmap string bytes) (d : Disk) : Disk :=
  MkDisk (d_meta d) (f (d_files d)) (d_segments d) (d_cursor d) (d_checkpoint d) (d_droppedBatches d) (d_signals d).
Definition upd_segments (f : gmap Z segmentRow → gmap Z segmentRow) (d : Disk) : Disk :=
  MkDisk (d_meta d) (d_files d) (f (d_segments d)) (d_cursor d) (d_checkpoint d) (d_droppedBatches d) (d_signals d).
Definition set_disk (d : Disk) (s : Store) : Store :=
  MkStore d (s_opts s) (s_writer s) (s_batchPositions s) (s_cursor s).
Definition set_writer (w : option segmentWriter) (s : Store) : Store :=
  MkStore (s_disk s) (s_opts s) w (s_batchPositions s) (s_cursor s).
Definition set_cursor (c : SequenceCursor) (s : Store) : Store :=
  MkStore (s_disk s) (s_opts s) (s_writer s) (s_batchPositions s) c.

(** A database without rows but the one the schema inserts. *)
Definition empty_disk : Disk := MkDisk (MkMeta None None ∅) ∅ ∅ (MkCursor 0 0) None 0 ∅.

(** ** The sequence cursor *)

Definition advanceSequenceCursor (batch : DataBatch) (s : Store) : Store :=
  let header := GetHeader batch in
  set_cursor (MkCursor
    (if (cur_Event (s_cursor s) <? bh_EventSeqEnd header)%Z then bh_EventSeqEnd header else cur_Event (s_cursor s))
    (if (cur_Signal (s_cursor s) <? bh_SignalSeqEnd header)%Z then bh_SignalSeqEnd header else cur_Signal (s_cursor s))) s.

Definition loadSequenceCursor (s : Store) : Store :=
  let persisted := d_cursor (s_disk s) in
  set_cursor (MkCursor
    (if (cur_Event (s_cursor s) <? cur_Event persisted)%Z then cur_Event persisted else cur_Event (s_cursor s))
    (if (cur_Signal (s_cursor s) <? cur_Signal persisted)%Z then cur_Signal persisted else cur_Signal (s_cursor s))) s.

Definition persistSequenceCursor (s : Store) : Store :=
  let d := s_disk s in
  set_disk (MkDisk (d_meta d) (d_files d) (d_segments d)
    (MkCursor (Z.max (cur_Event (d_cursor d)) (cur_Event (s_cursor s)))
              (Z.max (cur_Signal (d_cursor d)) (cur_Signal (s_cursor s))))
    (d_checkpoint d) (d_droppedBatches d) (d_signals d)) s.

(** ** The segment table *)

(** [SELECT COALESCE(MAX(segment_id), 0) + 1 FROM segments]. *)
Definition nextSegmentID (d : Disk) : Z :=
  (map_fold (λ id _ acc, Z.max id acc) 0 (d_segments d) + 1)%Z.

(** The row's creation time survives a conflict. *)
Definition upsertSegment (w : segmentWriter) (state : string) (sealedAt now : Z) (d : Disk) : Disk :=
  let created := match d_segments d !! w_id w with Some row => row_created row | None => now end in
  let sealed := if (0 <? sealedAt)%Z then Some sealedAt else None in
  upd_segments (<[w_id w := MkRow (w_path w) state (w_firstSequence w) (w_lastSequence w) (w_records w) (w_size w)
    created sealed]>) d.

(** ** Appending *)

(** [fmt.Sprintf("%016d", id)]. *)
Definition Sprintf_016d (z : Z) : string := let s := FormatUint z in pad_zeros (16 - String.length s) s.

Definition open_name (id : Z) : string := Sprintf_016d id +:+ ".open".
Definition sealed_name (id : Z) : string := Sprintf_016d id +:+ ".seg".

(** [file.Write] on a file opened with [O_APPEND]. *)
Definition append_file (path : string) (data : bytes) (d : Disk) : Disk :=
  upd_files (λ files, <[path := default [] (files !! path) ++ data]> files) d.

Definition ensureWriter (now : Z) (s : Store) : Store :=
  match s_writer s with
  | Some _ => s
  | None =>
    let id := nextSegmentID (s_disk s) in
    let w := MkWriter id (open_name id) (Z.of_nat segmentHeaderSize) 0 0 0 in
    let d := append_file (open_name id) (encodeSegmentHeader id now) (s_disk s) in
    set_writer (Some w) (set_disk (upsertSegment w "open" 0 now d) s)
  end.

(** [path[:len(path)-len(".open")] + ".seg"]. *)
Definition sealed_path (path : string) : string :=
  String.substring 0 (String.length path - 5) path +:+ ".seg".

Definition rename_file (old new : string) (d : Disk) : Disk :=
  upd_files (λ files, match files !! old with
                      | Some content => <[new := content]> (delete old files)
                      | None => files
                      end) d.

Definition sealLocked (now : Z) (s : Store) : Store :=
  match s_writer s with
  | None => s
  | Some w =>
    let sealed := sealed_path (w_path w) in
    let d := rename_file (w_path w) sealed (s_disk s) in
    let w' := MkWriter (w_id w) sealed (w_size w) (w_records w) (w_firstSequence w) (w_lastSequence w) in
    set_writer None (set_disk (upsertSegment w' "sealed" now now d) s)
  end.

Definition Seal := sealLocked.

Section codec.
Context `{Codec}.

(** The writer the record goes to: a new one where the record does not fit. *)
Definition writer_for (now : Z) (record : bytes) (s : Store) : Store :=
  let s := ensureWriter now s in
  match s_writer s with
  | Some w =>
    if (0 <? w_records w)%Z && (o_SegmentSize (s_opts s) <? w_size w + Z.of_nat (length record))%Z
    then ensureWriter now (sealLocked now s) else s
  | None => s
  end.

Definition AppendBatch (now : Z) (batch : DataBatch) (s : Store) : result Position * Store :=
  let batchID := bh_BatchId (GetHeader batch) in
  if bool_decide (batchID = "") then (Err "data batch and batch id are required", s)
  else match encodeRecord batch with
  | Err msg => (Err msg, s)
  | Ok (record, sequence) =>
    match s_batchPositions s !! batchID with
    | Some position => (Ok position, s)
    | None =>
      let s := writer_for now record s in
      match s_writer s with
      | None => (Err "no writer", s)
      | Some w =>
        let position := MkPosition (w_id w) (w_size w) sequence batchID in
        let w' := MkWriter (w_id w) (w_path w) (w_size w + Z.of_nat (length record)) (w_records w + 1)
          (if (w_firstSequence w =? 0)%Z then sequence else w_firstSequence w) sequence in
        let d := upsertSegment w' "open" 0 now (append_file (w_path w) record (s_disk s)) in
        let s := persistSequenceCursor (advanceSequenceCursor batch (set_writer (Some w') (set_disk d s))) in
        (Ok position, MkStore (s_disk s) (s_opts s) (s_writer s) (<[batchID := position]> (s_batchPositions s)) (s_cursor s))
      end
    end
  end.

(** ** Reading *)

Definition is_segment_file (name : string) : bool := HasSuffix name ".seg" || HasSuffix name ".open".

(** The names in byte order. *)
Definition segmentFiles (d : Disk) : list string :=
  merge_sort String.le (filter (λ name, is_segment_file name = true) (elements (dom (d_files d)))).

Definition file_content (d : Disk) (path : string) : bytes := default [] (d_files d !! path).

Record ReadOptions := MkReadOptions { ro_Limit : Z; ro_FromSequence : Z }.

(** The inner loop of [ReadBatches]; [true] when the limit was reached. *)
Fixpoint collect (limit from : Z) (batches out : list StoredBatch) : bool * list StoredBatch :=
  match batches with
  | [] => (false, out)
  | batch :: batches' =>
    if (pos_BatchSequence (sb_Position batch) <? from)%Z then collect limit from batches' out
    else
      let out := out ++ [batch] in
      if (limit <=? Z.of_nat (length out))%Z then (true, out) else collect limit from batches' out
  end.

Fixpoint read_files (d : Disk) (limit from : Z) (paths : list string) (out : list StoredBatch)
    : result (list StoredBatch) :=
  match paths with
  | [] => Ok out
  | path :: paths' =>
    match readSegment (file_content d path) false with
    | Err msg => Err msg
    | Ok (batches, _) =>
      let '(full, out') := collect limit from batches out in
      if full : bool then Ok out' else read_files d limit from paths' out'
    end
  end.

Definition ReadBatches (opts : ReadOptions) (s : Store) : result (list StoredBatch) :=
  let limit := if (ro_Limit opts <=? 0)%Z then 100%Z else ro_Limit opts in
  read_files (s_disk s) limit (ro_FromSequence opts) (segmentFiles (s_disk s)) [].

Record EventQuery := MkEventQuery { eq_Behavior : string; eq_AfterSequence : Z; eq_Limit : Z }.

Definition wanted_frame (query : EventQuery) (frame : EventFrame) : bool :=
  negb (ef_Sequence frame <=? eq_AfterSequence query)%Z &&
  (bool_decide (eq_Behavior query = "") ||
   bool_decide (default "" (ev_Behavior <$> ef_Event frame) = eq_Behavior query)).

Definition QueryEvents (query : EventQuery) (s : Store) : result (list EventFrame) :=
  match ReadBatches (MkReadOptions 1000000 (u64 (eq_AfterSequence query + 1))) s with
  | Err msg => Err msg
  | Ok batches =>
    let limit := if (eq_Limit query <=? 0)%Z || (1000 <? eq_Limit query)%Z then 100%Z else eq_Limit query in
    let frames := filter (λ f, wanted_frame query f = true) (batches ≫= λ b, db_Events (sb_Batch b)) in
    Ok (if (limit <? Z.of_nat (length frames))%Z then drop (length frames - Z.to_nat limit) frames else frames)
  end.

(** ** Recovery *)

Definition reconcileSegment (path : string) (id : Z) (batches : list StoredBatch) (open : bool) (now : Z) (d : Disk) : Disk :=
  let size := Z.of_nat (length (file_content d path)) in
  let seq b := pos_BatchSequence (sb_Position b) in
  let w := match batches with
           | [] => MkWriter id path size 0 0 0
           | b :: _ => MkWriter (pos_SegmentID (sb_Position b)) path size (Z.of_nat (length batches)) (seq b)
                         (default 0%Z (seq <$> batches !! (length batches - 1)%nat))
           end in
  upsertSegment w (if open then "open" else "sealed") 0 now d.

Definition openRecoveredWriter (path : string) (id : Z) (batches : list StoredBatch) (d : Disk) : segmentWriter :=
  let size := Z.of_nat (length (file_content d path)) in
  let seq b := pos_BatchSequence (sb_Position b) in
  match batches with
  | [] => MkWriter id path size 0 0 0
  | b :: _ => MkWriter (pos_SegmentID (sb_Position b)) path size (Z.of_nat (length batches)) (seq b)
                (default 0%Z (seq <$> batches !! (length batches - 1)%nat))
  end.

(** [file.Truncate(offset)]. *)
Definition truncate_file (path : string) (size : option Z) (d : Disk) : Disk :=
  match size with
  | None => d
  | Some n => upd_files (λ files, <[path := take (Z.to_nat n) (default [] (files !! path))]> files) d
  end.

(** The batch joins the cursor and the positions. *)
Definition remember_batch (s : Store) (b : StoredBatch) : Store :=
  let s := advanceSequenceCursor (sb_Batch b) s in
  MkStore (s_disk s) (s_opts s) (s_writer s)
    (<[pos_BatchID (sb_Position b) := sb_Position b]> (s_batchPositions s)) (s_cursor s).

(** The body of the loop of [recoverSegments]. *)
Definition recover_file (now : Z) (path : string) (s : Store) : result Store :=
  let open := HasSuffix path ".open" in
  match readSegment (file_content (s_disk s) path) open with
  | Err msg => Err msg
  | Ok (batches, cut) =>
    let id := match parseSegmentHeader (take segmentHeaderSize (file_content (s_disk s) path)) with
              | Ok id => id | Err _ => 0%Z end in
    let d := reconcileSegment path id batches open now (truncate_file path cut (s_disk s)) in
    let s := foldl remember_batch (set_disk d s) batches in
    if open then
      match s_writer s with
      | Some _ => Err "multiple open segments"
      | None => Ok (set_writer (Some (openRecoveredWriter path id batches (s_disk s))) s)
      end
    else Ok s
  end.

Fixpoint recover_files (now : Z) (paths : list string) (s : Store) : result Store :=
  match paths with
  | [] => Ok s
  | path :: paths' =>
    match recover_file now path s with
    | Err msg => Err msg
    | Ok s' => recover_files now paths' s'
    end
  end.

Definition recoverSegments (now : Z) (s : Store) : result Store :=
  let s := loadSequenceCursor s in
  match recover_files now (segmentFiles (s_disk s)) s with
  | Err msg => Err msg
  | Ok s => Ok (persistSequenceCursor s)
  end.

(** The identity and the standalone enrolment of a device that has none. *)
Definition ensureIdentity (now : Z) (host deviceID : string) (d : Disk) : Disk :=
  match m_identity (d_meta d) with
  | Some _ => d
  | None =>
    let standalone := MkEnrollment StateStandalone "" "" "" "" "" "" "" false 0 now in
    let enrollment := match m_enrollment (d_meta d) with Some e => e | None => standalone end in
    MkDisk (MkMeta (Some (MkDeviceIdentity deviceID host now)) (Some enrollment) (m_policies (d_meta d)))
      (d_files d) (d_segments d) (d_cursor d) (d_checkpoint d) (d_droppedBatches d) (d_signals d)
  end.

Definition Open (now : Z) (host deviceID : string) (opts : Options) (d : Disk) : result Store :=
  recoverSegments now (MkStore (ensureIdentity now host deviceID d) (normalizeOptions opts) None ∅ (MkCursor 0 0)).
End codec.

(** ** Checkpoints *)

Definition SaveCheckpoint (now : Z) (c : Checkpoint) (s : Store) : Store :=
  let d := s_disk s in
  set_disk (MkDisk (d_meta d) (d_files d) (d_segments d) (d_cursor d)
    (Some (MkCheckpoint (cp_SegmentID c) (cp_RecordOffset c) (cp_LastBatchID c) now)) (d_droppedBatches d) (d_signals d)) s.

Definition GetCheckpoint (s : Store) : Checkpoint :=
  default (MkCheckpoint 0 0 "" 0) (d_checkpoint (s_disk s)).

(** ** Capacity *)

(** The oldest signals beyond the maximum are deleted. *)
Definition PruneSignals (s : Store) : Store :=
  let d := s_disk s in
  let keys := merge_sort Z.le (map_to_list (d_signals d)).*1 in
  let excess := Z.to_nat (Z.max (Z.of_nat (length keys) - o_SignalMaxCount (s_opts s)) 0) in
  set_disk (MkDisk (d_meta d) (d_files d) (d_segments d) (d_cursor d) (d_checkpoint d) (d_droppedBatches d)
    (foldr delete (d_signals d) (take excess keys))) s.

(** What the store cannot see of the disk: the bytes of the other files under
    the root and the free space. *)
Record DiskStat := MkDiskStat { ds_other : Z; ds_free : Z }.

Definition directoryBytes (stat : DiskStat) (d : Disk) : Z :=
  (map_fold (λ _ content acc, Z.of_nat (length content) + acc) 0 (d_files d) + ds_other stat)%Z.

Definition overCapacity (stat : DiskStat) (s : Store) : bool :=
  (o_MaxBytes (s_opts s) <? directoryBytes stat (s_disk s))%Z || (ds_free stat <? o_MinFreeBytes (s_opts s))%Z.

Record segmentCandidate := MkCandidate {
  cand_id : Z;
  cand_path : string;
  cand_records : Z;
  cand_uploaded : bool
}.

Definition candidate_of (checkpoint : Checkpoint) (segments : gmap Z segmentRow) (id : Z) : option segmentCandidate :=
  match segments !! id with
  | Some row => if bool_decide (row_state row = "sealed")
                then Some (MkCandidate id (row_path row) (row_records row) (id <? cp_SegmentID checkpoint)%Z) else None
  | None => None
  end.

Definition capacityCandidates (s : Store) : list segmentCandidate :=
  let ids := merge_sort Z.le (map_to_list (d_segments (s_disk s))).*1 in
  let rows := omap (candidate_of (GetCheckpoint s) (d_segments (s_disk s))) ids in
  filter (λ c, cand_uploaded c = true) rows ++ filter (λ c, cand_uploaded c = false) rows.

Record CapacityResult := MkCapacityResult {
  cr_RemovedSegments : list Z;
  cr_RemovedBatches : Z;
  cr_DroppedUnuploaded : bool
}.

Definition remove_segment (c : segmentCandidate) (d : Disk) : Disk :=
  upd_segments (delete (cand_id c)) (upd_files (delete (cand_path c)) d).

(** The loop over the candidates; [stats k] is the disk as the [k]-th check sees it. *)
Fixpoint remove_candidates (stats : nat → DiskStat) (k : nat) (candidates : list segmentCandidate) (r : CapacityResult) (s : Store)
    : CapacityResult * Store :=
  match candidates with
  | [] => (r, s)
  | c :: candidates' =>
    let s := set_disk (remove_segment c (s_disk s)) s in
    let r := MkCapacityResult (cr_RemovedSegments r ++ [cand_id c])
      (if cand_uploaded c then cr_RemovedBatches r else u64 (cr_RemovedBatches r + cand_records c))
      (cr_DroppedUnuploaded r || negb (cand_uploaded c)) in
    if overCapacity (stats k) s then remove_candidates stats (S k) candidates' r s else (r, s)
  end.

Definition recordDroppedBatches (count : Z) (s : Store) : Store :=
  let d := s_disk s in
  set_disk (MkDisk (d_meta d) (d_files d) (d_segments d) (d_cursor d) (d_checkpoint d) (d_droppedBatches d + count)
    (d_signals d)) s.

Definition EnforceCapacity (stats : nat → DiskStat) (s : Store) : CapacityResult * Store :=
  let s := PruneSignals s in
  let none := MkCapacityResult [] 0 false in
  if overCapacity (stats 0%nat) s then
    let '(r, s) := remove_candidates stats 1 (capacityCandidates s) none s in
    (r, if cr_DroppedUnuploaded r then recordDroppedBatches (cr_RemovedBatches r) s else s)
  else (none, s).

(** ** Enrolment and policies *)

Definition set_meta (m : Meta) (s : Store) : Store :=
  let d := s_disk s in
  set_disk (MkDisk m (d_files d) (d_segments d) (d_cursor d) (d_checkpoint d) (d_droppedBatches d) (d_signals d)) s.

Definition validateManaged (e : Enrollment) : bool :=
  forallb (λ value, negb (bool_decide (TrimSpace value = "")))
    [en_TenantID e; en_AgentID e; en_GatewayAddress e; en_TLSCAPath e; en_TLSCertPath e; en_TLSKeyPath e].

(** An update of the row, if there is one. *)
Definition update_enrollment (e : Enrollment) (s : Store) : Store :=
  let m := d_meta (s_disk s) in
  set_meta (MkMeta (m_identity m) (match m_enrollment m with Some _ => Some e | None => None end) (m_policies m)) s.

Definition SetManaged (now : Z) (e : Enrollment) (s : Store) : result unit * Store :=
  if validateManaged e then
    (Ok tt, update_enrollment (MkEnrollment StateManaged (en_TenantID e) (en_AgentID e) (en_GatewayAddress e)
       (en_TLSCAPath e) (en_TLSCertPath e) (en_TLSKeyPath e) (en_TLSServerName e) (en_UploadHistory e)
       (en_ManagedFromSequence e) now) s)
  else (Err "managed enrollment fields are incomplete", s).

Definition SetStandalone (now : Z) (s : Store) : Store :=
  update_enrollment (MkEnrollment StateStandalone "" "" "" "" "" "" "" false 0 now) s.

Definition GetEnrollment (s : Store) : result Enrollment :=
  match m_enrollment (d_meta (s_disk s)) with Some e => Ok e | None => Err "sql: no rows in result set" end.

Definition PutPolicy (now : Z) (policy : PolicyRecord) (s : Store) : result unit * Store :=
  if bool_decide (TrimSpace (pr_Kind policy) = "") || bool_decide (pr_Document policy = []) ||
     bool_decide (TrimSpace (pr_Digest policy) = "")
  then (Err "policy kind, document, and digest are required", s)
  else
    let m := d_meta (s_disk s) in
    let row := MkPolicyRecord (pr_Kind policy) (pr_Version policy) (pr_Document policy) (pr_Digest policy) now in
    (Ok tt, set_meta (MkMeta (m_identity m) (m_enrollment m) (<[pr_Kind policy := row]> (m_policies m))) s).

Definition GetPolicy (kind : string) (s : Store) : option PolicyRecord := m_policies (d_meta (s_disk s)) !! kind.
End LocalStore.
