(* ===== verification/LocalStoreInv.v ===== *)
(** * Invariant of the local store

    The abstract content of a store is a [log]: the sealed segments in order
    and the open one, each with its batches.  [disk_ok] and [store_ok] say
    when files, table and volatile state represent a log; the operations are
    shown to keep the representation and to act on the log as expected. *)

From S2P Require Import Prelude GoStrings GoBytes EventModel DataPlane Segment LocalStore.

Module LocalStoreInv.
Import EventModel DataPlane Segment LocalStore.

(** ** File names are ordered as the identifiers are *)

Fixpoint all_digits (s : string) : Prop :=
  match s with
  | EmptyString => True
  | String c s' => (48 ≤ byte_val c < 58)%Z ∧ all_digits s'
  end.

Lemma decimal_value_shift a s :
  decimal_value a s = (a * 10 ^ Z.of_nat (String.length s) + decimal_value 0 s)%Z.
Proof.
  revert a. induction s as [|c s IH]; intros a; [cbn; lia|].
  cbn [decimal_value String.length]. rewrite (IH (a * 10 + _)%Z), (IH (0 * 10 + _)%Z), Nat2Z.inj_succ, Z.pow_succ_r by lia.
  lia.
Qed.

Lemma decimal_value_bound s :
  all_digits s → (0 ≤ decimal_value 0 s < 10 ^ Z.of_nat (String.length s))%Z.
Proof.
  induction s as [|c s IH]; [cbn; lia|]. intros [Hc Hs]. specialize (IH Hs).
  cbn [decimal_value String.length]. rewrite decimal_value_shift, Nat2Z.inj_succ, Z.pow_succ_r by lia. nia.
Qed.

Lemma compare_byte_lt c d : (byte_val c < byte_val d)%Z → Ascii.compare c d = Lt.
Proof. unfold byte_val, Ascii.compare. intros ?. apply N.compare_lt_iff. lia. Qed.

Lemma decimal_compare s t x y :
  String.length s = String.length t → all_digits s → all_digits t →
  (decimal_value 0 s < decimal_value 0 t)%Z → String.compare (s +:+ x) (t +:+ y) = Lt.
Proof.
  revert t. induction s as [|c s IH]; intros [|d t] Hlen Hs Ht Hlt; cbn in Hlen; try done.
  injection Hlen as Hlen. destruct Hs as [Hc Hs], Ht as [Hd Ht].
  cbn [decimal_value] in Hlt. rewrite (decimal_value_shift (0 * 10 + (byte_val c - 48))), (decimal_value_shift (0 * 10 + (byte_val d - 48))), Hlen in Hlt.
  pose proof (decimal_value_bound s Hs) as Bs. pose proof (decimal_value_bound t Ht) as Bt. rewrite Hlen in Bs.
  rewrite !string_app_cons. cbn [String.compare].
  destruct (Z.lt_trichotomy (byte_val c) (byte_val d)) as [Hcd|[Heq|Hcd]].
  - by rewrite compare_byte_lt.
  - apply (f_equal byte_of) in Heq as Hcd. rewrite !byte_of_val in Hcd. subst d.
    assert (Ascii.compare c c = Eq) as -> by (unfold Ascii.compare; apply N.compare_refl).
    apply IH; [done..|lia].
  - exfalso. nia.
Qed.

Lemma all_digits_format n z acc : (0 ≤ z)%Z → all_digits acc → all_digits (format_digits n z acc).
Proof.
  revert z acc. induction n as [|n IH]; intros z acc Hz Ha; [done|]. rewrite format_digits_S.
  pose proof (Z.mod_pos_bound z 10 eq_refl).
  assert (all_digits (String (digit (z mod 10)) acc)) as Hs.
  { split; [|done]. unfold digit. rewrite byte_val_of; lia. }
  destruct (z <? 10)%Z; [done|]. apply IH; [apply Z.div_pos; lia|done].
Qed.

Lemma length_format n z acc k :
  (0 ≤ z < 10 ^ Z.of_nat (S k))%Z → (String.length (format_digits n z acc) ≤ String.length acc + S k)%nat.
Proof.
  revert z acc k. induction n as [|n IH]; intros z acc k Hz; [cbn; lia|]. rewrite format_digits_S.
  destruct (Z.ltb_spec z 10); [cbn [String.length]; lia|].
  destruct k as [|k]; [cbn in Hz; lia|].
  etrans; [apply (IH _ _ k)|cbn [String.length]; lia].
  split; [apply Z.div_pos; lia|]. apply Z.div_lt_upper_bound; [lia|].
  rewrite (Nat2Z.inj_succ (S k)), Z.pow_succ_r in Hz by lia. lia.
Qed.

Lemma length_pad n s : String.length (pad_zeros n s) = (n + String.length s)%nat.
Proof. induction n as [|n IH]; cbn; [done|]. by rewrite IH. Qed.

Lemma all_digits_pad n s : all_digits s → all_digits (pad_zeros n s).
Proof. intros Hs. induction n as [|n IH]; [done|]. split; [change (byte_val "0") with 48%Z; lia|done]. Qed.

(** The identifiers whose names sort as numbers do. *)
Definition id_ok (id : Z) : Prop := (0 < id < 10 ^ 16)%Z.

Lemma Sprintf_016d_spec z :
  (0 ≤ z < 10 ^ 16)%Z →
  String.length (Sprintf_016d z) = 16%nat ∧ all_digits (Sprintf_016d z) ∧ decimal_value 0 (Sprintf_016d z) = z.
Proof.
  intros Hz. unfold Sprintf_016d, FormatUint. split_and!.
  - rewrite length_pad. pose proof (length_format 20 z "" 15). cbn [String.length] in *. lia.
  - apply all_digits_pad, all_digits_format; [lia|done].
  - rewrite decimal_pad, decimal_format; [done|lia].
Qed.

Lemma names_lt a b x y :
  (0 ≤ a < b)%Z → (b < 10 ^ 16)%Z → String.le (Sprintf_016d a +:+ x) (Sprintf_016d b +:+ y).
Proof.
  intros Ha Hb. destruct (Sprintf_016d_spec a) as (La & Da & Va); [lia|].
  destruct (Sprintf_016d_spec b) as (Lb & Db & Vb); [lia|].
  unfold String.le, String.leb. rewrite decimal_compare; [done|congruence|done|done|lia].
Qed.

Lemma Sprintf_016d_inj a b x y :
  id_ok a → id_ok b → Sprintf_016d a +:+ x = Sprintf_016d b +:+ y → a = b ∧ x = y.
Proof.
  unfold id_ok. intros Ha Hb E.
  assert (∀ a b x y, id_ok a → id_ok b → Sprintf_016d a +:+ x = Sprintf_016d b +:+ y → ¬ (a < b)%Z) as Hlt.
  { clear. unfold id_ok. intros a b x y Ha Hb E Hab. destruct (Sprintf_016d_spec a) as (La & Da & Va); [lia|].
    destruct (Sprintf_016d_spec b) as (Lb & Db & Vb); [lia|].
    assert (String.compare (Sprintf_016d a +:+ x) (Sprintf_016d b +:+ y) = Lt) as Hc
      by (apply decimal_compare; [congruence|done|done|lia]).
    rewrite E in Hc. assert (∀ s, String.compare s s = Eq) as Hr.
    { intros s. induction s as [|c s IH]; [done|]. cbn. unfold Ascii.compare. by rewrite N.compare_refl. }
    by rewrite Hr in Hc. }
  assert (a = b) as -> by (pose proof (Hlt _ _ _ _ Ha Hb E); pose proof (Hlt _ _ _ _ Hb Ha (eq_sym E)); lia).
  split; [done|]. by apply (inj (String.append _)) in E.
Qed.

(** ** Logs *)

Section log.
Context `{CodecLaws}.

(** A segment with what its file holds. *)
Record seg := MkSeg {
  sg_id : Z;
  sg_created : Z;
  sg_batches : list DataBatch;
  sg_content : bytes;
  sg_stored : list StoredBatch
}.

Definition seg_ok (g : seg) : Prop :=
  id_ok (sg_id g) ∧ layout (sg_id g) (Z.of_nat segmentHeaderSize) (sg_batches g) (sg_content g) (sg_stored g).

Definition seg_file (g : seg) : bytes := encodeSegmentHeader (sg_id g) (sg_created g) ++ sg_content g.

Record log := MkLog { l_sealed : list seg; l_open : option seg }.

Definition segs (l : log) : list seg := l_sealed l ++ option_list (l_open l).
Definition stored_of (l : log) : list StoredBatch := segs l ≫= sg_stored.
Definition batches_of (l : log) : list DataBatch := sb_Batch <$> stored_of l.
Definition bid (b : StoredBatch) : string := pos_BatchID (sb_Position b).

Definition sealed_entry (g : seg) : string * bytes := (sealed_name (sg_id g), seg_file g).
Definition open_entry (tail : bytes) (g : seg) : string * bytes := (open_name (sg_id g), seg_file g ++ tail).

(** The files of a log, with what a torn write left at the end of the open one. *)
Definition files_of (l : log) (tail : bytes) : list (string * bytes) :=
  (sealed_entry <$> l_sealed l) ++ (open_entry tail <$> option_list (l_open l)).

Record log_ok (l : log) : Prop := {
  lo_segs : Forall seg_ok (segs l);
  lo_ids : StronglySorted Z.lt (sg_id <$> segs l);
  lo_bids : NoDup (bid <$> stored_of l)
}.

(** The files are those of the log, and every segment has a row. *)
Record disk_ok (d : Disk) (l : log) (tail : bytes) : Prop := {
  do_log : log_ok l;
  do_files : d_files d = list_to_map (files_of l tail)
}.

Definition table_ok (d : Disk) (l : log) : Prop :=
  (∀ g, g ∈ segs l → is_Some (d_segments d !! sg_id g)) ∧
  (∀ id row, d_segments d !! id = Some row → (0 < id)%Z).

Definition writer_ok (w : segmentWriter) (g : seg) : Prop :=
  w_id w = sg_id g ∧ w_path w = open_name (sg_id g) ∧ w_size w = Z.of_nat (length (seg_file g)) ∧
  w_records w = Z.of_nat (length (sg_stored g)).

Definition writer_matches (w : option segmentWriter) (g : option seg) : Prop :=
  match w, g with
  | Some w, Some g => writer_ok w g
  | None, None => True
  | _, _ => False
  end.

Record store_ok (s : Store) (l : log) : Prop := {
  so_disk : disk_ok (s_disk s) l [];
  so_table : table_ok (s_disk s) l;
  so_writer : writer_matches (s_writer s) (l_open l);
  so_positions : ∀ id p, s_batchPositions s !! id = Some p ↔ ∃ b, b ∈ stored_of l ∧ bid b = id ∧ sb_Position b = p
}.

(** ** Files *)

Lemma layout_bids sid off bs content stored b :
  layout sid off bs content stored → b ∈ stored → bid b = bh_BatchId (GetHeader (sb_Batch b)).
Proof.
  induction 1 as [|off batch bs record sequence rest stored _ _ IH]; [by intros []%elem_of_nil|].
  intros [->|Hin]%elem_of_cons; [done|auto].
Qed.

Lemma elem_of_files_of l tail name content :
  (name, content) ∈ files_of l tail ↔
  (∃ g, g ∈ l_sealed l ∧ name = sealed_name (sg_id g) ∧ content = seg_file g) ∨
  (∃ g, l_open l = Some g ∧ name = open_name (sg_id g) ∧ content = seg_file g ++ tail).
Proof.
  unfold files_of. rewrite elem_of_app, !list_elem_of_fmap. split.
  - intros [(g & [= -> ->] & Hg)|(g & [= -> ->] & Hg)]; [left; eauto|right].
    exists g. destruct (l_open l); [|by apply elem_of_nil in Hg]. by apply list_elem_of_singleton in Hg as ->.
  - intros [(g & Hg & -> & ->)|(g & Hg & -> & ->)]; [left; by exists g|right]. exists g. rewrite Hg. split; [done|].
    by apply list_elem_of_singleton.
Qed.

Lemma names_of_files l tail :
  (files_of l tail).*1 =
  ((λ g, sealed_name (sg_id g)) <$> l_sealed l) ++ ((λ g, open_name (sg_id g)) <$> option_list (l_open l)).
Proof. unfold files_of. rewrite fmap_app, <- !list_fmap_compose. done. Qed.

(** Names under a sorted list of identifiers are sorted. *)
Lemma sorted_names l tail : log_ok l → StronglySorted String.le (files_of l tail).*1.
Proof.
  intros [Hsegs Hids _]. rewrite names_of_files.
  set (name := λ '(g, x), Sprintf_016d (sg_id g) +:+ x : string).
  assert (∀ L : list (seg * string), Forall seg_ok L.*1 → StronglySorted Z.lt (sg_id <$> L.*1) →
    StronglySorted String.le (name <$> L)) as Hgen.
  { induction L as [|[g x] L IH]; intros HL Hs; [constructor|]. cbn in *. apply Forall_cons_iff in HL as [Hg HL].
    apply StronglySorted_inv in Hs as [Hs Hlt]. constructor; [by apply IH|].
    apply list.Forall_forall. intros y Hy. apply list_elem_of_fmap in Hy as ([g' x'] & -> & Hin).
    rewrite list.Forall_forall in HL. rewrite list.Forall_forall in Hlt.
    assert (g' ∈ L.*1) as Hg' by (apply list_elem_of_fmap; by exists (g', x')).
    destruct Hg as [Hg _]. destruct (HL g' Hg') as [Hb _]. unfold id_ok in Hg, Hb.
    apply names_lt; [|lia]. split; [lia|]. apply Hlt, list_elem_of_fmap. by exists g'. }
  specialize (Hgen (((λ g, (g, ".seg")) <$> l_sealed l) ++ ((λ g, (g, ".open")) <$> option_list (l_open l)))).
  rewrite !fmap_app, <- !list_fmap_compose in Hgen.
  rewrite (list_fmap_ext (fst ∘ λ g, (g, ".seg")) id), list_fmap_id in Hgen by done.
  rewrite (list_fmap_ext (fst ∘ λ g, (g, ".open")) id), list_fmap_id in Hgen by done.
  apply Hgen; [exact Hsegs|]. rewrite <- fmap_app. exact Hids.
Qed.

Lemma NoDup_ids l : log_ok l → NoDup (sg_id <$> segs l).
Proof.
  intros [_ Hs _]. induction Hs as [|x L Hs IH Hlt]; [constructor|]. constructor; [|done].
  intros Hin. rewrite list.Forall_forall in Hlt. specialize (Hlt x Hin). lia.
Qed.

Lemma seg_id_inj l g1 g2 : log_ok l → g1 ∈ segs l → g2 ∈ segs l → sg_id g1 = sg_id g2 → g1 = g2.
Proof.
  intros Hok%NoDup_ids (i & Hi)%list_elem_of_lookup_1 (j & Hj)%list_elem_of_lookup_1 E.
  assert (i = j) as ->; [|congruence]. eapply NoDup_lookup; [exact Hok|..].
  - rewrite list_lookup_fmap, Hi. done.
  - rewrite list_lookup_fmap, Hj. cbn. by rewrite E.
Qed.

Lemma names_NoDup l tail : log_ok l → NoDup (files_of l tail).*1.
Proof.
  intros Hok. pose proof (NoDup_ids l Hok) as Hnd. destruct Hok as [Hsegs _ _]. rewrite names_of_files.
  unfold segs in *. rewrite fmap_app in Hnd. apply Forall_app in Hsegs as [Hs Ho].
  rewrite list.Forall_forall in Hs. rewrite list.Forall_forall in Ho.
  apply list.NoDup_app in Hnd as (Hns & Hdisj & Hno).
  assert (∀ (x : string) L, NoDup (sg_id <$> L) → (∀ g, g ∈ L → seg_ok g) →
    NoDup ((λ g, Sprintf_016d (sg_id g) +:+ x) <$> L)) as Hgen.
  { intros x L. induction L as [|g L IH]; intros Hn HL; [constructor|]. cbn in *.
    apply list.NoDup_cons in Hn as [Hg Hn]. constructor; [|apply IH; [done|intros; apply HL; by right]].
    intros (g' & E & Hg')%list_elem_of_fmap. apply Hg, list_elem_of_fmap. exists g'. split; [|done].
    eapply Sprintf_016d_inj; [apply HL; left|apply HL; by right|exact E]. }
  apply list.NoDup_app. split_and!; [by apply Hgen| |by apply Hgen].
  intros n (g & -> & Hg)%list_elem_of_fmap (g' & E & Hg')%list_elem_of_fmap.
  apply Sprintf_016d_inj in E as [_ E]; [done|apply Hs, Hg|apply Ho, Hg'].
Qed.

Lemma lookup_file d l tail name content :
  disk_ok d l tail → d_files d !! name = Some content ↔ (name, content) ∈ files_of l tail.
Proof.
  intros [Hl ->]. symmetry. apply elem_of_list_to_map. by apply names_NoDup.
Qed.

Lemma segmentFiles_ok d l tail : disk_ok d l tail → segmentFiles d = (files_of l tail).*1.
Proof.
  intros [Hl Hf]. unfold segmentFiles. rewrite Hf, dom_list_to_map_L.
  apply (StronglySorted_unique String.le).
  - apply (StronglySorted_merge_sort String.le).
  - by apply sorted_names.
  - rewrite merge_sort_Permutation, elements_list_to_set by by apply names_NoDup.
    rewrite filter_all; [done|]. apply list.Forall_forall. intros name Hin.
    rewrite names_of_files in Hin. unfold is_segment_file. apply orb_true_iff.
    apply elem_of_app in Hin as [Hin|Hin]; apply list_elem_of_fmap in Hin as (g & -> & _); [left|right];
      apply HasSuffix_spec; eexists; reflexivity.
Qed.

Lemma read_seg_file g tail tr :
  seg_ok g → torn tail →
  readSegment (seg_file g ++ tail) tr =
  if bool_decide (tail = []) then Ok (sg_stored g, None)
  else truncateOrError (Z.of_nat (length (seg_file g))) tr (sg_stored g).
Proof.
  intros [Hid Hl] Ht. unfold seg_file. rewrite <- app_assoc, readSegment_header by (unfold id_ok, in_u64 in *; lia).
  rewrite (readRecords_layout (sg_id g) tr (sg_batches g) (sg_content g) (sg_stored g)) by done.
  rewrite length_app, encodeSegmentHeader_length, Nat2Z.inj_add. done.
Qed.

(** ** Reading *)

Lemma collect_spec limit from batches out :
  (Z.of_nat (length out) < limit)%Z →
  let wanted := filter (λ b, (from ≤ pos_BatchSequence (sb_Position b))%Z) batches in
  collect limit from batches out =
  if (limit <=? Z.of_nat (length (out ++ wanted)))%Z then (true, take (Z.to_nat limit) (out ++ wanted))
  else (false, out ++ wanted).
Proof.
  cbv zeta. revert out. induction batches as [|b batches IH]; intros out Hlt; cbn [collect].
  { rewrite filter_nil, app_nil_r. destruct (Z.leb_spec limit (Z.of_nat (length out))); [lia|done]. }
  rewrite filter_cons. destruct (Z.ltb_spec (pos_BatchSequence (sb_Position b)) from) as [Hs|Hs].
  { rewrite decide_False by lia. by apply IH. }
  rewrite decide_True by lia. set (wanted := filter _ batches).
  replace (out ++ b :: wanted) with ((out ++ [b]) ++ wanted) by by rewrite <- app_assoc.
  destruct (Z.leb_spec limit (Z.of_nat (length (out ++ [b])))) as [Hle|Hgt]; [|by apply IH].
  assert (Z.to_nat limit = length (out ++ [b])) as E by (rewrite length_app in *; cbn in *; lia).
  destruct (Z.leb_spec limit (Z.of_nat (length ((out ++ [b]) ++ wanted)))) as [_|Hlt'];
    [|rewrite length_app in Hlt'; lia].
  by rewrite E, take_app_length.
Qed.

Lemma read_files_spec d limit from (files : list (string * list StoredBatch)) out :
  (∀ path stored, (path, stored) ∈ files → readSegment (file_content d path) false = Ok (stored, None)) →
  (Z.of_nat (length out) < limit)%Z →
  read_files d limit from files.*1 out =
  Ok (take (Z.to_nat limit) (out ++ filter (λ b, (from ≤ pos_BatchSequence (sb_Position b))%Z) (files ≫= snd))).
Proof.
  revert out. induction files as [|[path stored] files IH]; intros out Hread Hlt; cbn [read_files fmap list_fmap fst].
  { cbn. rewrite app_nil_r. f_equal. symmetry. apply take_ge. lia. }
  rewrite (Hread path stored) by left. rewrite collect_spec by done. cbn. rewrite list.filter_app.
  set (w1 := filter _ stored). set (w2 := filter _ _). rewrite app_assoc.
  destruct (Z.leb_spec limit (Z.of_nat (length (out ++ w1)))) as [Hle|Hgt].
  - f_equal. symmetry. apply take_app_le. lia.
  - apply IH; [|done]. intros; apply Hread; by right.
Qed.

(** A read of a well-formed store. *)
Lemma ReadBatches_ok s l limit from :
  disk_ok (s_disk s) l [] → (0 < limit)%Z →
  ReadBatches (MkReadOptions limit from) s =
  Ok (take (Z.to_nat limit) (filter (λ b, (from ≤ pos_BatchSequence (sb_Position b))%Z) (stored_of l))).
Proof.
  intros Hd Hlim. unfold ReadBatches. cbn [ro_Limit ro_FromSequence].
  destruct (Z.leb_spec limit 0) as [|_]; [lia|]. rewrite (segmentFiles_ok _ l []) by done.
  set (named := ((λ g, (sealed_name (sg_id g), sg_stored g)) <$> l_sealed l) ++
                ((λ g, (open_name (sg_id g), sg_stored g)) <$> option_list (l_open l))).
  assert ((files_of l []).*1 = named.*1) as ->.
  { rewrite names_of_files. unfold named. rewrite fmap_app, <- !list_fmap_compose. done. }
  rewrite read_files_spec; [|..|done].
  - assert (∀ (f : seg → string) L, ((λ g, (f g, sg_stored g)) <$> L) ≫= snd = L ≫= sg_stored) as Hbind.
    { intros f L. induction L as [|g L IH]; cbn; congruence. }
    cbn [app]. do 3 f_equal. unfold named, stored_of, segs. by rewrite !bind_app, !Hbind.
  - intros path stored Hin. unfold named in Hin. destruct (do_log _ _ _ Hd) as [Hsegs _ _].
    rewrite list.Forall_forall in Hsegs.
    assert (∃ g, g ∈ segs l ∧ stored = sg_stored g ∧ file_content (s_disk s) path = seg_file g ++ []) as (g & Hg & -> & ->).
    { apply elem_of_app in Hin as [Hin|Hin]; apply list_elem_of_fmap in Hin as (g & [= -> ->] & Hg); exists g;
        (split; [unfold segs; apply elem_of_app; tauto|split; [done|]]); unfold file_content.
      - assert (d_files (s_disk s) !! sealed_name (sg_id g) = Some (seg_file g)) as ->; [|cbn; by rewrite app_nil_r].
        apply (lookup_file _ _ _ _ _ Hd), elem_of_files_of. eauto.
      - assert (d_files (s_disk s) !! open_name (sg_id g) = Some (seg_file g ++ [])) as ->; [|done].
        apply (lookup_file _ _ _ _ _ Hd), elem_of_files_of. right. exists g. split; [|done].
        destruct (l_open l); [|by apply elem_of_nil in Hg]. by apply list_elem_of_singleton in Hg as ->. }
    rewrite read_seg_file by (by left || apply Hsegs, Hg). done.
Qed.

(** ** Opening, sealing and extending a segment *)

Lemma StronglySorted_snoc {A} (R : A → A → Prop) L y :
  StronglySorted R L → Forall (λ x, R x y) L → StronglySorted R (L ++ [y]).
Proof.
  induction 1 as [|x L HL IH Hx]; intros Hy; cbn; [repeat constructor|].
  apply Forall_cons_iff in Hy as [Hxy Hy]. constructor; [auto|]. apply Forall_app. auto.
Qed.

Lemma nextSegmentID_spec d :
  (0 < nextSegmentID d)%Z ∧ ∀ id row, d_segments d !! id = Some row → (id < nextSegmentID d)%Z.
Proof.
  unfold nextSegmentID.
  assert (0 ≤ map_fold (λ id (_ : segmentRow) acc, Z.max id acc) 0 (d_segments d) ∧
    ∀ id row, d_segments d !! id = Some row →
      id ≤ map_fold (λ id (_ : segmentRow) acc, Z.max id acc) 0 (d_segments d))%Z as [H1 H2].
  { apply (map_fold_weak_ind (λ r m, 0 ≤ r ∧ ∀ id row, m !! id = Some row → id ≤ r)%Z).
    - split; [lia|]. intros id row. by rewrite lookup_empty.
    - intros i x m r _ [IH1 IH2]. split; [lia|]. intros id row.
      rewrite lookup_insert_Some. intros [[<- _]|[_ Hl]]; [lia|]. specialize (IH2 _ _ Hl). lia. }
  split; [lia|]. intros id row Hr. specialize (H2 _ _ Hr). lia.
Qed.

Definition new_seg (id now : Z) : seg := MkSeg id now [] [] [].

Lemma files_of_open sealed g tail :
  log_ok (MkLog sealed (Some g)) →
  (list_to_map (files_of (MkLog sealed (Some g)) tail) : gmap string bytes) =
    <[open_name (sg_id g) := seg_file g ++ tail]> (list_to_map (sealed_entry <$> sealed)) ∧
  (list_to_map (sealed_entry <$> sealed) : gmap string bytes) !! open_name (sg_id g) = None.
Proof.
  intros Hok. pose proof (names_NoDup _ tail Hok) as Hnd. unfold files_of in *. cbn [l_sealed l_open] in *.
  change (open_entry tail <$> option_list (Some g)) with [(open_name (sg_id g), seg_file g ++ tail)] in *.
  rewrite fmap_app in Hnd. apply list.NoDup_app in Hnd as (_ & Hdisj & _).
  assert (open_name (sg_id g) ∉ (sealed_entry <$> sealed).*1) as Hni.
  { intros Hin. apply (Hdisj _ Hin). cbn. left. }
  split; [by apply list_to_map_snoc|]. by apply not_elem_of_list_to_map.
Qed.

Lemma log_ok_ext l l' : segs l = segs l' → log_ok l → log_ok l'.
Proof. intros E [H1 H2 H3]. unfold stored_of in H3. rewrite E in H1, H2, H3. by split. Qed.

Lemma stored_of_snoc sealed g : stored_of (MkLog sealed (Some g)) = (sealed ≫= sg_stored) ++ sg_stored g.
Proof. unfold stored_of, segs. cbn [l_sealed l_open option_list]. rewrite bind_app. cbn. by rewrite app_nil_r. Qed.

Lemma stored_of_sealed sealed : stored_of (MkLog sealed None) = sealed ≫= sg_stored.
Proof. unfold stored_of, segs. cbn. by rewrite app_nil_r. Qed.

Lemma log_ok_new sealed id now :
  log_ok (MkLog sealed None) → id_ok id → Forall (λ g, (sg_id g < id)%Z) sealed →
  log_ok (MkLog sealed (Some (new_seg id now))).
Proof.
  intros [H1 H2 H3] Hid Hlt. unfold segs in *. cbn [l_sealed l_open option_list] in *. rewrite app_nil_r in H1, H2.
  split; [unfold segs; cbn [l_sealed l_open option_list]..|].
  - apply Forall_app. split; [done|]. repeat constructor; apply Hid.
  - rewrite fmap_app. apply StronglySorted_snoc; [done|]. by apply Forall_fmap.
  - rewrite stored_of_snoc, app_nil_r. by rewrite stored_of_sealed in H3.
Qed.

Lemma table_ok_upsert w state sealedAt now d l l' :
  table_ok d l → (0 < w_id w)%Z → (∀ g, g ∈ segs l' → g ∈ segs l ∨ sg_id g = w_id w ∨ ∃ g', g' ∈ segs l ∧ sg_id g' = sg_id g) →
  table_ok (upsertSegment w state sealedAt now d) l'.
Proof.
  intros [T1 T2] Hw Hs. unfold upsertSegment, upd_segments. split; cbn [d_segments].
  - intros g Hg. rewrite lookup_insert_is_Some'. destruct (Hs g Hg) as [?|[->|(g' & ? & <-)]]; auto.
  - intros id row. rewrite lookup_insert_Some. intros [[<- _]|[_ ?]]; eauto.
Qed.

Lemma ensureWriter_spec now s l :
  store_ok s l → (nextSegmentID (s_disk s) < 10 ^ 16)%Z →
  ∃ g, store_ok (ensureWriter now s) (MkLog (l_sealed l) (Some g)) ∧
    stored_of (MkLog (l_sealed l) (Some g)) = stored_of l ∧
    s_batchPositions (ensureWriter now s) = s_batchPositions s ∧ s_opts (ensureWriter now s) = s_opts s ∧
    (l_open l = None → sg_stored g = []) ∧ (∀ g', l_open l = Some g' → ensureWriter now s = s).
Proof.
  intros [Hd Ht Hw Hp] Hlim. destruct l as [sealed [g|]]; cbn [l_sealed l_open] in *.
  { exists g. destruct (s_writer s) as [w|] eqn:Ew; [|done]. unfold ensureWriter. rewrite Ew.
    split; [split; rewrite ?Ew; done|]. done. }
  destruct (s_writer s) as [w|] eqn:Ew; [done|].
  pose proof (nextSegmentID_spec (s_disk s)) as [Hn1 Hn2]. set (id := nextSegmentID (s_disk s)) in *.
  destruct Hd as [Hlog Hfiles].
  assert (log_ok (MkLog sealed (Some (new_seg id now)))) as Hlog'.
  { apply log_ok_new; [done|split; lia|]. apply list.Forall_forall. intros g Hg.
    destruct Ht as [T1 _]. destruct (T1 g) as [row Hrow]; [unfold segs; apply elem_of_app; by left|]. eauto. }
  destruct (files_of_open sealed (new_seg id now) [] Hlog') as [Hf Hno]. cbn [sg_id new_seg] in Hf, Hno.
  exists (new_seg id now). unfold ensureWriter. rewrite Ew. fold id.
  assert (stored_of (MkLog sealed (Some (new_seg id now))) = stored_of (MkLog sealed None)) as Hst.
  { rewrite stored_of_snoc, stored_of_sealed. by rewrite app_nil_r. }
  split_and!; try done. split; cbn [s_disk s_writer s_batchPositions set_writer set_disk l_open].
  - split; [done|]. rewrite Hf. cbn [upsertSegment upd_segments append_file upd_files d_files].
    rewrite Hfiles. unfold files_of at 1 2. cbn [l_sealed l_open option_list fmap list_fmap]. rewrite app_nil_r.
    rewrite Hno. cbn [default from_option app]. unfold seg_file. cbn. by rewrite !app_nil_r.
  - eapply table_ok_upsert; [exact Ht|cbn; lia|]. intros g [Hg|Hg]%elem_of_app; [left; apply elem_of_app; by left|].
    cbn in Hg. apply list_elem_of_singleton in Hg as ->. by right; left.
  - split_and!; [done..| |done]. unfold seg_file. rewrite length_app, encodeSegmentHeader_length. done.
  - by rewrite Hst.
Qed.

Lemma sealed_path_open id : sealed_path (open_name id) = sealed_name id.
Proof.
  unfold sealed_path, open_name, sealed_name. f_equal. rewrite string_length_app. cbn [String.length].
  replace (_ + 5 - 5)%nat with (String.length (Sprintf_016d id)) by lia.
  generalize (Sprintf_016d id). intros s. induction s as [|c s IH]; [done|]. rewrite string_app_cons. cbn. by rewrite IH.
Qed.

Lemma elem_of_segs_open sealed g : g ∈ segs (MkLog sealed (Some g)).
Proof. unfold segs. apply elem_of_app. right. by apply list_elem_of_singleton. Qed.

Lemma sealLocked_spec now s sealed g :
  store_ok s (MkLog sealed (Some g)) → store_ok (sealLocked now s) (MkLog (sealed ++ [g]) None).
Proof.
  intros [Hd Ht Hw Hp]. cbn [l_open] in Hw. destruct (s_writer s) as [w|] eqn:Ew; [|done].
  destruct Hw as (W1 & W2 & W3 & W4). unfold sealLocked. rewrite Ew, W2, sealed_path_open.
  destruct Hd as [Hlog Hfiles]. destruct (files_of_open sealed g [] Hlog) as [Hf Hno].
  assert (segs (MkLog (sealed ++ [g]) None) = segs (MkLog sealed (Some g))) as Hsegs
    by (unfold segs; cbn; by rewrite app_nil_r).
  assert (log_ok (MkLog (sealed ++ [g]) None)) as Hlog' by (eapply log_ok_ext; [symmetry; exact Hsegs|done]).
  split; cbn [s_disk s_writer s_batchPositions set_writer set_disk l_open]; [split; [done|]| |done|].
  - cbn [upsertSegment upd_segments rename_file upd_files d_files]. rewrite Hfiles, Hf, lookup_insert_eq.
    rewrite delete_insert_id by done. pose proof (names_NoDup _ [] Hlog') as Hnd.
    unfold files_of in *. cbn [l_sealed l_open option_list fmap list_fmap] in *. rewrite app_nil_r in *.
    rewrite fmap_app in *. cbn [fmap list_fmap] in *. rewrite fmap_app in Hnd. apply list.NoDup_app in Hnd as (_ & Hdisj & _).
    change (sealed_entry g) with (sealed_name (sg_id g), seg_file g) in *.
    change (open_entry [] <$> option_list None) with (@nil (string * bytes)). rewrite app_nil_r.
    symmetry. rewrite list_to_map_snoc; [done|]. intros Hin. apply (Hdisj _ Hin). left.
  - eapply table_ok_upsert; [exact Ht| |].
    + cbn. rewrite W1. destruct Ht as [T1 T2]. destruct (T1 g) as [row Hrow]; [apply elem_of_segs_open|]. eauto.
    + intros g' Hg'. left. by rewrite <- Hsegs.
  - intros id p. rewrite Hp. unfold stored_of. by rewrite Hsegs.
Qed.

Lemma nextSegmentID_le d n :
  (0 < n)%Z → (∀ id row, d_segments d !! id = Some row → (id < n)%Z) → (nextSegmentID d ≤ n)%Z.
Proof.
  intros Hn. unfold nextSegmentID.
  enough ((∀ id row, d_segments d !! id = Some row → (id < n)%Z) →
    (map_fold (λ id (_ : segmentRow) acc, Z.max id acc) 0 (d_segments d) < n)%Z) as Hlt by (intros Hall; specialize (Hlt Hall); lia).
  apply (map_fold_weak_ind (λ r m, (∀ id row, m !! id = Some row → (id < n)%Z) → (r < n)%Z)); [lia|].
  intros i x m r Hi IH Hm. assert (i < n)%Z by (apply (Hm i x), lookup_insert_eq).
  assert (r < n)%Z; [|lia]. apply IH. intros id row Hl. apply (Hm id row).
  rewrite lookup_insert_ne; [done|]. by intros ->; congruence.
Qed.

Lemma nextSegmentID_seal now s sealed g :
  store_ok s (MkLog sealed (Some g)) → (nextSegmentID (s_disk (sealLocked now s)) ≤ nextSegmentID (s_disk s))%Z.
Proof.
  intros [_ [T1 T2] Hw _]. cbn [l_open] in Hw. destruct (s_writer s) as [w|] eqn:Ew; [|done].
  destruct Hw as (W1 & _). unfold sealLocked. rewrite Ew.
  pose proof (nextSegmentID_spec (s_disk s)) as [N1 N2]. apply nextSegmentID_le; [done|].
  intros id row. cbn. rewrite lookup_insert_Some. intros [[<- _]|[_ ?]]; [|eauto].
  rewrite W1. destruct (T1 g) as [row' Hrow']; [apply elem_of_segs_open|]. eauto.
Qed.

Lemma layout_snoc sid off bs content stored batch record sequence :
  layout sid off bs content stored → storable batch record sequence →
  layout sid off (bs ++ [batch]) (content ++ record)
    (stored ++ [MkStoredBatch (MkPosition sid (off + Z.of_nat (length content)) sequence (bh_BatchId (GetHeader batch))) batch]).
Proof.
  intros Hl Hst. induction Hl as [off|off b bs r sq rest stored Hb Hl IH]; cbn [app].
  - cbn [length]. rewrite Z.add_0_r. rewrite <- (app_nil_r record) at 1. econstructor; [done|constructor].
  - rewrite <- app_assoc. econstructor; [done|]. rewrite length_app, Nat2Z.inj_add, Z.add_assoc. exact IH.
Qed.

(** The writer that takes a record. *)
Lemma writer_for_spec now record s l :
  store_ok s l → (nextSegmentID (s_disk s) < 10 ^ 16)%Z →
  ∃ sealed g, store_ok (writer_for now record s) (MkLog sealed (Some g)) ∧
    stored_of (MkLog sealed (Some g)) = stored_of l ∧
    s_batchPositions (writer_for now record s) = s_batchPositions s.
Proof.
  intros Hs Hlim. destruct (ensureWriter_spec now s l Hs Hlim) as (g & Hs1 & Hst & Hpos & _ & Hnew & Hold).
  unfold writer_for. set (s1 := ensureWriter now s) in *.
  pose proof (so_writer _ _ Hs1) as Hw. cbn [l_open] in Hw. destruct (s_writer s1) as [w|] eqn:Ew; [|done].
  destruct ((0 <? w_records w)%Z && _) eqn:Ec; [|by exists (l_sealed l), g].
  apply andb_true_iff in Ec as [Hrec%Z.ltb_lt _]. destruct Hw as (_ & _ & _ & W4). rewrite W4 in Hrec.
  destruct (l_open l) as [g0|] eqn:Eo; [|rewrite (Hnew eq_refl) in Hrec; cbn in Hrec; lia].
  specialize (Hold g0 eq_refl). pose proof (sealLocked_spec now s1 _ _ Hs1) as Hs2.
  destruct (ensureWriter_spec now (sealLocked now s1) _ Hs2) as (g2 & Hs3 & Hst2 & Hpos2 & _).
  { pose proof (nextSegmentID_seal now s1 _ _ Hs1). rewrite Hold in *. lia. }
  cbn [l_sealed] in Hs3, Hst2. exists (l_sealed l ++ [g]), g2. split; [done|]. split.
  - rewrite Hst2, <- Hst, stored_of_sealed, stored_of_snoc, bind_app. cbn. by rewrite app_nil_r.
  - rewrite Hpos2. transitivity (s_batchPositions s1); [|done]. unfold sealLocked. by rewrite Ew.
Qed.

Lemma log_ok_append sealed g batch record sequence :
  log_ok (MkLog sealed (Some g)) → storable batch record sequence →
  bh_BatchId (GetHeader batch) ∉ (bid <$> stored_of (MkLog sealed (Some g))) →
  let position := MkPosition (sg_id g) (Z.of_nat (length (seg_file g))) sequence (bh_BatchId (GetHeader batch)) in
  let g' := MkSeg (sg_id g) (sg_created g) (sg_batches g ++ [batch]) (sg_content g ++ record)
    (sg_stored g ++ [MkStoredBatch position batch]) in
  log_ok (MkLog sealed (Some g')) ∧
  stored_of (MkLog sealed (Some g')) = stored_of (MkLog sealed (Some g)) ++ [MkStoredBatch position batch].
Proof.
  intros [H1 H2 H3] Hst Hfresh position g'.
  assert (stored_of (MkLog sealed (Some g')) = stored_of (MkLog sealed (Some g)) ++ [MkStoredBatch position batch])
    as Hstored by (rewrite !stored_of_snoc; unfold g'; cbn [sg_stored]; by rewrite app_assoc).
  split; [|done]. unfold segs in *. cbn [l_sealed l_open option_list] in *. apply Forall_app in H1 as [H1 Hg].
  split; [unfold segs; cbn [l_sealed l_open option_list]..|].
  - apply Forall_app. split; [done|]. apply Forall_cons_iff in Hg as [[Hid Hl] _]. constructor; [|constructor].
    split; [done|]. unfold g'. cbn [sg_id sg_batches sg_content sg_stored]. unfold position, seg_file.
    rewrite length_app, encodeSegmentHeader_length, Nat2Z.inj_add. by apply layout_snoc.
  - by rewrite fmap_app in *.
  - rewrite Hstored, fmap_app. cbn. apply list.NoDup_app. split; [done|]. split; [|apply NoDup_singleton].
    intros x Hx Hin. apply list_elem_of_singleton in Hin. cbn in Hin. by subst x.
Qed.

Lemma table_ok_ext d d' l : d_segments d' = d_segments d → table_ok d l → table_ok d' l.
Proof. unfold table_ok. by intros ->. Qed.

(** Appending a batch that is not stored yet puts it at the end of the log. *)
Lemma AppendBatch_spec now batch record sequence s l :
  store_ok s l → (nextSegmentID (s_disk s) < 10 ^ 16)%Z → storable batch record sequence →
  bh_BatchId (GetHeader batch) ≠ "" → s_batchPositions s !! bh_BatchId (GetHeader batch) = None →
  ∃ l' p s', AppendBatch now batch s = (Ok p, s') ∧ store_ok s' l' ∧
    stored_of l' = stored_of l ++ [MkStoredBatch p batch].
Proof.
  intros Hs Hlim Hst Hne Hfresh. unfold AppendBatch. rewrite bool_decide_false by done.
  rewrite (st_encode _ _ _ Hst), Hfresh.
  destruct (writer_for_spec now record s l Hs Hlim) as (sealed & g & [Hd Ht Hw Hp] & Hstored & Hpos).
  set (s1 := writer_for now record s) in *. cbn [l_open] in Hw. destruct (s_writer s1) as [w|] eqn:Ew; [|done].
  destruct Hw as (W1 & W2 & W3 & W4). destruct Hd as [Hlog Hfiles].
  assert (bh_BatchId (GetHeader batch) ∉ (bid <$> stored_of (MkLog sealed (Some g)))) as Hni.
  { intros (b & Eb & Hb)%list_elem_of_fmap.
    assert (s_batchPositions s1 !! bh_BatchId (GetHeader batch) = Some (sb_Position b)) as E by (apply Hp; eauto).
    rewrite Hpos in E. congruence. }
  destruct (log_ok_append sealed g batch record sequence Hlog Hst Hni) as [Hlog' Hstored']. cbv zeta in Hlog', Hstored'.
  rewrite <- W1, <- W3 in Hlog', Hstored'. set (position := MkPosition (w_id w) (w_size w) _ _) in *.
  set (g' := MkSeg _ _ _ _ _) in *. eexists (MkLog sealed (Some g')), position, _. split; [reflexivity|].
  split; [|by rewrite Hstored', Hstored].
  split; cbn [s_disk s_writer s_batchPositions persistSequenceCursor advanceSequenceCursor set_cursor set_writer set_disk l_open].
  - split; [done|]. cbn [upsertSegment upd_segments append_file upd_files d_files].
    destruct (files_of_open sealed g [] Hlog) as [Hf _]. destruct (files_of_open sealed g' [] Hlog') as [Hf' _].
    rewrite Hfiles, Hf, Hf', W2, lookup_insert_eq. unfold g', seg_file.
    cbn [sg_id sg_created sg_content]. rewrite W1, insert_insert_eq. cbn [default from_option].
    by rewrite !app_nil_r, app_assoc.
  - apply (table_ok_ext (upsertSegment (MkWriter (w_id w) (w_path w) (w_size w + Z.of_nat (length record)) (w_records w + 1)
      (if (w_firstSequence w =? 0)%Z then sequence else w_firstSequence w) sequence) "open" 0 now
      (append_file (w_path w) record (s_disk s1)))); [done|].
    eapply (table_ok_upsert _ _ _ _ _ (MkLog sealed (Some g))); [exact Ht| |].
    + cbn. destruct Ht as [T1 T2]. destruct (T1 g) as [row Hrow]; [apply elem_of_segs_open|]. rewrite W1. eauto.
    + intros g0 [Hg0|Hg0]%elem_of_app; [left; apply elem_of_app; by left|].
      cbn in Hg0. apply list_elem_of_singleton in Hg0 as ->. right; left. done.
  - split_and!; [done|cbn; by rewrite W2, W1| |].
    + unfold g', seg_file. cbn [sg_id sg_created sg_content w_size]. rewrite W3, W1. unfold seg_file. rewrite !length_app. lia.
    + unfold g'. cbn. rewrite W4, length_app. cbn. lia.
  - intros id p. rewrite lookup_insert_Some, Hp, Hstored'. setoid_rewrite elem_of_app. split.
    + intros [[<- <-]|[Hne' (b & Hb & <- & <-)]]; [|eauto].
      eexists. split; [right; by apply list_elem_of_singleton|done].
    + intros (b & [Hb|Hb] & <- & <-).
      * right. split; [|eauto]. intros E. apply Hni, list_elem_of_fmap. eauto.
      * apply list_elem_of_singleton in Hb as ->. left. done.
Qed.

(** ** Recovery *)

Lemma seg_not_open (x r : string) : x +:+ ".seg" ≠ r +:+ ".open".
Proof.
  revert r. induction x as [|c x IH]; intros r E.
  - apply (f_equal String.length) in E. rewrite !string_length_app in E. cbn in E. lia.
  - destruct r as [|c' r]; rewrite !string_app_cons in E.
    + rewrite string_app_nil_l in E. injection E as _ E. destruct x as [|c1 x]; [done|].
      apply (f_equal String.length) in E. rewrite string_length_app in E. cbn in E. lia.
    + injection E as _ E. by apply (IH r).
Qed.

Lemma open_suffix id : HasSuffix (open_name id) ".open" = true.
Proof. apply HasSuffix_spec. by eexists. Qed.

Lemma sealed_suffix id : HasSuffix (sealed_name id) ".open" = false.
Proof.
  destruct (HasSuffix (sealed_name id) ".open") eqn:E; [|done].
  apply HasSuffix_spec in E as [r E]. by apply seg_not_open in E.
Qed.

Lemma layout_sid sid off bs content stored b :
  layout sid off bs content stored → b ∈ stored → pos_SegmentID (sb_Position b) = sid.
Proof.
  induction 1 as [|off batch bs record sequence rest stored _ _ IH]; [by intros []%elem_of_nil|].
  intros [->|Hin]%elem_of_cons; [done|auto].
Qed.

(** Remembering batches touches the positions and the cursor only. *)
Lemma remember_batches batches s :
  NoDup (bid <$> batches) → (∀ b, b ∈ batches → s_batchPositions s !! bid b = None) →
  let s' := foldl remember_batch s batches in
  s_disk s' = s_disk s ∧ s_opts s' = s_opts s ∧ s_writer s' = s_writer s ∧
  ∀ id p, s_batchPositions s' !! id = Some p ↔
    s_batchPositions s !! id = Some p ∨ ∃ b, b ∈ batches ∧ bid b = id ∧ sb_Position b = p.
Proof.
  cbv zeta. revert s. induction batches as [|b batches IH]; intros s Hnd Hf; cbn [foldl].
  { split_and!; [done..|]. intros id p. split; [by left|]. intros [?|(b & []%elem_of_nil & _)]; done. }
  cbn in Hnd. apply list.NoDup_cons in Hnd as [Hb Hnd].
  assert (s_batchPositions (remember_batch s b) = <[bid b := sb_Position b]> (s_batchPositions s)) as Hpos by done.
  destruct (IH (remember_batch s b)) as (I1 & I2 & I3 & I4); [done| |].
  { intros b' Hb'. rewrite Hpos, lookup_insert_ne; [apply Hf; by right|].
    intros E. apply Hb, list_elem_of_fmap. eauto. }
  rewrite I1, I2, I3. split_and!; [done..|]. intros id p. rewrite I4, Hpos, lookup_insert_Some.
  setoid_rewrite elem_of_cons. split.
  - intros [[[<- <-]|[_ ?]]|(b' & ? & ? & ?)]; [right; exists b; auto|by left|right; exists b'; auto].
  - intros [Hl|(b' & [->|Hb'] & <- & <-)]; [|left; left; done|right; eauto].
    left. right. split; [|done]. intros <-. rewrite (Hf b) in Hl by left. done.
Qed.

(** The state after the files of [gs] have been recovered. *)
Record recovered (d : Disk) (gs : list seg) (s : Store) : Prop := {
  rc_files : d_files (s_disk s) = d_files d;
  rc_rows : ∀ g, g ∈ gs → is_Some (d_segments (s_disk s) !! sg_id g);
  rc_pos : ∀ id row, d_segments (s_disk s) !! id = Some row → (0 < id)%Z;
  rc_writer : s_writer s = None;
  rc_positions : ∀ id p, s_batchPositions s !! id = Some p ↔ ∃ b, b ∈ (gs ≫= sg_stored) ∧ bid b = id ∧ sb_Position b = p
}.

Lemma reconcile_row path id batches open now d g tail :
  seg_ok g → batches = sg_stored g → id = sg_id g →
  file_content d path = seg_file g ++ tail →
  ∃ w, reconcileSegment path id batches open now d = upsertSegment w (if open then "open" else "sealed") 0 now d ∧
    openRecoveredWriter path id batches d = w ∧
    w_id w = sg_id g ∧ w_path w = path ∧ w_size w = Z.of_nat (length (seg_file g ++ tail)) ∧
    w_records w = Z.of_nat (length (sg_stored g)).
Proof.
  intros [_ Hl] -> -> Hc. unfold reconcileSegment, openRecoveredWriter. rewrite Hc.
  destruct (sg_stored g) as [|b stored] eqn:Es.
  - eexists. split_and!; done.
  - eexists. split_and!; try done. cbn. eapply layout_sid; [exact Hl|left].
Qed.

Lemma parse_seg_file g rest :
  seg_ok g → parseSegmentHeader (take segmentHeaderSize (seg_file g ++ rest)) = Ok (sg_id g).
Proof.
  intros [Hid _]. unfold seg_file. rewrite <- app_assoc, take_app_length' by (by rewrite encodeSegmentHeader_length).
  apply parse_encode_header. unfold id_ok, in_u64 in *. lia.
Qed.

(** What recovery of one file needs to know of the identifiers seen so far. *)
Lemma bids_fresh gs g rest s d :
  recovered d gs s → NoDup (bid <$> ((gs ++ g :: rest) ≫= sg_stored)) →
  NoDup (bid <$> sg_stored g) ∧ ∀ b, b ∈ sg_stored g → s_batchPositions s !! bid b = None.
Proof.
  intros Hr Hnd. rewrite bind_app, fmap_app in Hnd. cbn in Hnd. rewrite fmap_app in Hnd.
  apply list.NoDup_app in Hnd as (_ & Hd & Hnd). apply list.NoDup_app in Hnd as (Hnd & _ & _).
  split; [done|]. intros b Hb. destruct (s_batchPositions s !! bid b) as [p|] eqn:E; [|done].
  apply (rc_positions _ _ _ Hr) in E as (b' & Hb' & E' & _). exfalso. apply (Hd (bid b)).
  - apply list_elem_of_fmap. eauto.
  - apply elem_of_app. left. apply list_elem_of_fmap. eauto.
Qed.

Lemma recover_sealed now d gs g rest s :
  recovered d gs s → seg_ok g → NoDup (bid <$> ((gs ++ g :: rest) ≫= sg_stored)) →
  d_files d !! sealed_name (sg_id g) = Some (seg_file g) →
  ∃ s', recover_file now (sealed_name (sg_id g)) s = Ok s' ∧ recovered d (gs ++ [g]) s'.
Proof.
  intros Hr Hg Hnd Hf. destruct (bids_fresh _ _ _ _ _ Hr Hnd) as [Hnd1 Hfresh]. destruct Hr as [R1 R2 R3 R4 R5].
  unfold recover_file. rewrite sealed_suffix.
  assert (file_content (s_disk s) (sealed_name (sg_id g)) = seg_file g ++ []) as Hc
    by (unfold file_content; rewrite R1, Hf; cbn; by rewrite app_nil_r).
  rewrite Hc, read_seg_file by (by left || done). cbn [bool_decide decide_rel]. rewrite parse_seg_file by done.
  rewrite bool_decide_true by done.
  destruct (reconcile_row (sealed_name (sg_id g)) (sg_id g) (sg_stored g) false now (s_disk s) g []) as (w & Hrec & _ & Wid & _);
    [done..|]. cbn [truncate_file]. rewrite Hrec.
  set (d1 := upsertSegment _ _ _ _ _).
  destruct (remember_batches (sg_stored g) (set_disk d1 s)) as (I1 & _ & I3 & I4); [done..|].
  eexists. split; [reflexivity|]. set (s' := foldl _ _ _) in *. cbn [s_disk s_writer s_batchPositions set_disk] in I1, I3, I4. split.
  - rewrite I1. done.
  - intros g' [Hg'| ->%list_elem_of_singleton]%elem_of_app; rewrite I1; unfold d1, upsertSegment, upd_segments; cbn [d_segments];
      rewrite Wid, lookup_insert_is_Some'; [right; auto|by left].
  - intros id row. rewrite I1. unfold d1, upsertSegment, upd_segments. cbn [d_segments]. rewrite Wid, lookup_insert_Some.
    intros [[<- _]|[_ ?]]; [|eauto]. destruct Hg as [[? _] _]. done.
  - by rewrite I3.
  - intros id p. rewrite I4, R5, bind_app. cbn. rewrite app_nil_r. setoid_rewrite elem_of_app. naive_solver.
Qed.

Lemma recover_files_app now paths1 paths2 s :
  recover_files now (paths1 ++ paths2) s =
  match recover_files now paths1 s with Ok s' => recover_files now paths2 s' | Err msg => Err msg end.
Proof.
  revert s. induction paths1 as [|path paths1 IH]; intros s; cbn; [done|]. destruct (recover_file now path s); [apply IH|done].
Qed.

Lemma recover_all_sealed now d sealed rest gs s :
  recovered d gs s → Forall seg_ok sealed → NoDup (bid <$> ((gs ++ sealed ++ rest) ≫= sg_stored)) →
  (∀ g, g ∈ sealed → d_files d !! sealed_name (sg_id g) = Some (seg_file g)) →
  ∃ s', recover_files now ((λ g, sealed_name (sg_id g)) <$> sealed) s = Ok s' ∧ recovered d (gs ++ sealed) s'.
Proof.
  revert gs s. induction sealed as [|g sealed IH]; intros gs s Hr Hok Hnd Hf; cbn [fmap list_fmap recover_files].
  { exists s. by rewrite app_nil_r. }
  apply Forall_cons_iff in Hok as [Hg Hok].
  destruct (recover_sealed now d gs g (sealed ++ rest) s) as (s1 & E1 & Hr1); [done..|apply Hf; left|].
  rewrite E1. replace (gs ++ g :: sealed) with ((gs ++ [g]) ++ sealed) by by rewrite <- app_assoc.
  apply IH; [done|done| |intros; apply Hf; by right]. by rewrite <- app_assoc.
Qed.

(** The open file, with its torn tail cut off. *)
Lemma recover_open now d gs g tail s :
  recovered d gs s → seg_ok g → torn tail → NoDup (bid <$> ((gs ++ [g]) ≫= sg_stored)) →
  d_files d !! open_name (sg_id g) = Some (seg_file g ++ tail) →
  ∃ s' w, recover_file now (open_name (sg_id g)) s = Ok s' ∧ s_writer s' = Some w ∧ writer_ok w g ∧
    d_files (s_disk s') = <[open_name (sg_id g) := seg_file g]> (d_files d) ∧
    (∀ g', g' ∈ gs ++ [g] → is_Some (d_segments (s_disk s') !! sg_id g')) ∧
    (∀ id row, d_segments (s_disk s') !! id = Some row → (0 < id)%Z) ∧
    ∀ id p, s_batchPositions s' !! id = Some p ↔ ∃ b, b ∈ ((gs ++ [g]) ≫= sg_stored) ∧ bid b = id ∧ sb_Position b = p.
Proof.
  intros Hr Hg Ht Hnd Hf. destruct (bids_fresh _ _ _ _ _ Hr Hnd) as [Hnd1 Hfresh]. destruct Hr as [R1 R2 R3 R4 R5].
  unfold recover_file. rewrite open_suffix.
  assert (file_content (s_disk s) (open_name (sg_id g)) = seg_file g ++ tail) as Hc
    by (unfold file_content; by rewrite R1, Hf).
  rewrite Hc, read_seg_file by done. unfold truncateOrError.
  set (cut := if bool_decide (tail = []) then None else Some (Z.of_nat (length (seg_file g)))).
  assert ((if bool_decide (tail = []) then Ok (sg_stored g, None) else Ok (sg_stored g, Some (Z.of_nat (length (seg_file g)))))
    = Ok (sg_stored g, cut) :> result read_result) as -> by (unfold cut; by case_bool_decide).
  rewrite parse_seg_file by done.
  assert (d_files (truncate_file (open_name (sg_id g)) cut (s_disk s)) = <[open_name (sg_id g) := seg_file g]> (d_files d) ∧
    d_segments (truncate_file (open_name (sg_id g)) cut (s_disk s)) = d_segments (s_disk s)) as [Hfiles Hrows].
  { unfold cut. case_bool_decide as Htail; cbn [truncate_file upd_files d_files d_segments]; split; try done.
    - rewrite R1. symmetry. apply insert_id. rewrite Hf. f_equal. subst tail. apply app_nil_r.
    - rewrite R1, Hf, Nat2Z.id. change (default [] (Some ?x)) with x. by rewrite take_app_length. }
  set (d1 := truncate_file _ _ _) in *.
  destruct (reconcile_row (open_name (sg_id g)) (sg_id g) (sg_stored g) true now d1 g []) as (w & Hrec & Hwr & Wid & Wpath & Wsize & Wrec);
    [done..|unfold file_content; rewrite Hfiles, lookup_insert_eq; cbn; by rewrite app_nil_r|].
  rewrite Hrec. set (d2 := upsertSegment _ _ _ _ _).
  destruct (remember_batches (sg_stored g) (set_disk d2 s)) as (I1 & _ & I3 & I4); [done..|].
  set (s' := foldl _ _ _) in *. cbn [s_disk s_writer s_batchPositions set_disk] in I1, I3, I4. rewrite I3, R4.
  assert (openRecoveredWriter (open_name (sg_id g)) (sg_id g) (sg_stored g) (s_disk s') = w) as ->.
  { rewrite I1, <- Hwr. unfold openRecoveredWriter, file_content. done. }
  eexists _, w. split; [reflexivity|]. cbn [s_writer s_disk s_batchPositions set_writer]. rewrite I1.
  assert (d_segments d2 = <[sg_id g := MkRow (w_path w) "open" (w_firstSequence w) (w_lastSequence w) (w_records w) (w_size w)
    (match d_segments d1 !! sg_id g with Some row => row_created row | None => now end) None]> (d_segments (s_disk s))) as Hd2.
  { unfold d2, upsertSegment, upd_segments. cbn [d_segments]. by rewrite Wid, Hrows. }
  split_and!; [done| |done|..].
  - split_and!; [done|done|by rewrite Wsize, app_nil_r|done].
  - intros g' [Hg'| ->%list_elem_of_singleton]%elem_of_app; rewrite Hd2, lookup_insert_is_Some'; [right; auto|by left].
  - intros id row. rewrite Hd2, lookup_insert_Some. intros [[<- _]|[_ ?]]; [|eauto]. destruct Hg as [[? _] _]. done.
  - intros id p. rewrite I4, R5, bind_app. cbn. rewrite app_nil_r. setoid_rewrite elem_of_app. naive_solver.
Qed.

(** Opening a disk whose open file may end in a torn record. *)
Lemma Open_spec now host deviceID opts d l tail :
  disk_ok d l tail → torn tail → (l_open l = None → tail = []) →
  (∀ id row, d_segments d !! id = Some row → (0 < id)%Z) →
  ∃ s, Open now host deviceID opts d = Ok s ∧ store_ok s l.
Proof.
  intros Hd Ht Hnone Hrows. unfold Open, recoverSegments.
  set (d0 := ensureIdentity now host deviceID d).
  assert (d_files d0 = d_files d ∧ d_segments d0 = d_segments d) as [Hf0 Hr0]
    by (unfold d0, ensureIdentity; by destruct (m_identity (d_meta d))).
  assert (disk_ok d0 l tail) as Hd0 by (destruct Hd as [? ?]; split; [done|by rewrite Hf0]).
  set (s0 := loadSequenceCursor _).
  assert (segmentFiles (s_disk s0) = (files_of l tail).*1) as -> by (apply segmentFiles_ok, Hd0).
  assert (recovered d0 [] s0) as Hr.
  { split; try done.
    - by intros g []%elem_of_nil.
    - intros id row. cbn. rewrite Hr0. apply Hrows.
    - intros id p. cbn. rewrite lookup_empty. split; [done|]. intros (b & []%elem_of_nil & _). }
  destruct Hd0 as [Hlog Hfiles]. pose proof Hlog as [Hsegs _ Hbids]. rewrite names_of_files, recover_files_app.
  unfold segs in Hsegs. apply Forall_app in Hsegs as [Hsealed Hopen].
  assert (∀ name content, (name, content) ∈ files_of l tail → d_files d0 !! name = Some content) as Hlook.
  { intros name content Hin. apply (lookup_file d0 l tail); [by split|done]. }
  destruct (recover_all_sealed now d0 (l_sealed l) (option_list (l_open l)) [] s0) as (s1 & E1 & Hr1); [done..| |].
  { intros g Hg. apply Hlook, elem_of_files_of. eauto. }
  rewrite E1. cbn [app] in Hr1. destruct l as [sealed [g|]]; cbn [l_sealed l_open] in *.
  - change (_ <$> option_list (Some g)) with [open_name (sg_id g)]. cbn [recover_files]. apply Forall_cons_iff in Hopen as [Hg _].
    destruct (recover_open now d0 sealed g tail s1) as (s2 & w & E2 & Hw & Hwok & Hf2 & Hrow2 & Hpos2 & Hp2);
      [done..|apply Hlook, elem_of_files_of; right; by exists g|].
    rewrite E2. eexists. split; [reflexivity|].
    split; cbn [s_disk s_writer s_batchPositions persistSequenceCursor set_disk l_open].
    + split; [done|]. cbn [d_files]. rewrite Hf2, Hfiles.
      destruct (files_of_open sealed g tail Hlog) as [-> _]. destruct (files_of_open sealed g [] Hlog) as [-> _].
      by rewrite insert_insert_eq, app_nil_r.
    + split; [exact Hrow2|exact Hpos2].
    + by rewrite Hw.
    + exact Hp2.
  - change (_ <$> option_list None) with (@nil string). cbn [recover_files]. destruct Hr1 as [R1 R2 R3 R4 R5].
    eexists. split; [reflexivity|].
    split; cbn [s_disk s_writer s_batchPositions persistSequenceCursor set_disk l_open].
    + split; [done|]. cbn [d_files]. by rewrite R1, Hfiles, (Hnone eq_refl).
    + split; [|exact R3]. intros g Hg. apply R2. unfold segs in Hg. cbn in Hg. by rewrite app_nil_r in Hg.
    + by rewrite R4.
    + intros id p. rewrite R5, stored_of_sealed. done.
Qed.

Lemma disk_ok_empty : disk_ok empty_disk (MkLog [] None) [].
Proof. split; [|done]. split; repeat constructor. Qed.
End log.
End LocalStoreInv.
