(* ===== verification/LocalStoreTheorems.v ===== *)
(** * Theorems about the local store

    A store is reached by opening an empty disk, appending, sealing and
    crashing: a crash keeps the disk, with any part of one more record at the
    end of the open file, and the store is opened again.  Whatever happens,
    the batches appended so far are read back in order. *)

From S2P Require Import Prelude GoStrings GoBytes EventModel DataPlane Segment LocalStore LocalStoreInv.

Module LocalStoreTheorems.
Import EventModel DataPlane Segment LocalStore LocalStoreInv.

(** What a crash leaves: the disk, with a torn record in the open file. *)
Definition crash_disk (s : Store) (tail : bytes) : Disk :=
  match s_writer s with
  | Some w => append_file (w_path w) tail (s_disk s)
  | None => s_disk s
  end.

Section reach.
Context `{CodecLaws}.

Inductive reach : Store → list DataBatch → Prop :=
| reach_open now host deviceID opts s :
    Open now host deviceID opts empty_disk = Ok s → reach s []
| reach_append now batch record sequence s bs p s' :
    reach s bs → storable batch record sequence → (nextSegmentID (s_disk s) < 10 ^ 16)%Z →
    AppendBatch now batch s = (Ok p, s') →
    reach s' (if bool_decide (s_batchPositions s !! bh_BatchId (GetHeader batch) = None) then bs ++ [batch] else bs)
| reach_seal now s bs : reach s bs → reach (Seal now s) bs
| reach_checkpoint now c s bs : reach s bs → reach (SaveCheckpoint now c s) bs
| reach_crash now host deviceID opts s bs tail s' :
    reach s bs → torn tail → Open now host deviceID opts (crash_disk s tail) = Ok s' → reach s' bs.

Lemma crash_disk_ok s l tail :
  store_ok s l → torn tail → ∃ tail', disk_ok (crash_disk s tail) l tail' ∧ torn tail' ∧ (l_open l = None → tail' = []) ∧
    d_segments (crash_disk s tail) = d_segments (s_disk s).
Proof.
  intros [Hd [_ Hrows] Hw _] Ht. unfold crash_disk. destruct l as [sealed [g|]]; cbn [l_open] in *.
  - destruct (s_writer s) as [w|]; [|done]. destruct Hw as (_ & W2 & _). exists tail. split_and!; try done.
    destruct Hd as [Hlog Hf]. split; [done|]. cbn [append_file upd_files d_files]. rewrite Hf, W2.
    destruct (files_of_open sealed g [] Hlog) as [-> _]. destruct (files_of_open sealed g tail Hlog) as [-> _].
    rewrite lookup_insert_eq, insert_insert_eq. change (default [] (Some ?x)) with x. by rewrite app_nil_r.
  - destruct (s_writer s); [done|]. exists []. split_and!; try done. by left.
Qed.

Lemma store_ok_checkpoint now c s l : store_ok s l → store_ok (SaveCheckpoint now c s) l.
Proof. intros [[? ?] ? ? ?]. split; done. Qed.

Lemma reach_store_ok s bs : reach s bs → ∃ l, store_ok s l ∧ batches_of l = bs.
Proof.
  induction 1 as [now host dev opts s Ho|now batch record sequence s bs p s' _ (l & Hs & Hb) Hst Hlim Ha|now s bs _ (l & Hs & Hb)
    |now c s bs _ (l & Hs & Hb)|now host dev opts s bs tail s' _ (l & Hs & Hb) Ht Ho].
  - destruct (Open_spec now host dev opts empty_disk (MkLog [] None) []) as (s' & E & Hs).
    + apply disk_ok_empty.
    + by left.
    + done.
    + intros id row. cbn. by rewrite lookup_empty.
    + rewrite Ho in E. injection E as <-. by exists (MkLog [] None).
  - case_bool_decide as Hnew.
    + assert (bh_BatchId (GetHeader batch) ≠ "") as Hne.
      { intros E. unfold AppendBatch in Ha. by rewrite bool_decide_true in Ha. }
      destruct (AppendBatch_spec now batch record sequence s l Hs Hlim Hst Hne Hnew) as (l' & p' & s1 & E & Hs' & Hstored).
      rewrite Ha in E. injection E as <- <-. exists l'. split; [done|]. unfold batches_of. rewrite Hstored, fmap_app.
      by rewrite <- Hb.
    + exists l. split; [|done]. unfold AppendBatch in Ha. rewrite (st_encode _ _ _ Hst) in Ha.
      destruct (bool_decide (_ = "")); [done|]. destruct (s_batchPositions s !! _); [|done]. by injection Ha as _ <-.
  - destruct l as [sealed [g|]].
    + exists (MkLog (sealed ++ [g]) None). split; [by apply sealLocked_spec|]. rewrite <- Hb. unfold batches_of.
      f_equal. rewrite stored_of_sealed, stored_of_snoc, bind_app. cbn. by rewrite app_nil_r.
    + exists (MkLog sealed None). split; [|done]. unfold Seal, sealLocked.
      pose proof (so_writer _ _ Hs) as Hw. cbn in Hw. by destruct (s_writer s).
  - exists l. split; [by apply store_ok_checkpoint|done].
  - destruct (crash_disk_ok s l tail Hs Ht) as (tail' & Hd & Ht' & Hn & Hrows).
    destruct (Open_spec now host dev opts _ l tail' Hd Ht' Hn) as (s1 & E & Hs1).
    + intros id row. rewrite Hrows. apply (so_table _ _ Hs).
    + rewrite Ho in E. injection E as <-. by exists l.
Qed.

(** C2. The store is durable for batches its format can hold: when every
    batch that was appended is [storable] (its id is shorter than 2^16 bytes
    and its record is within the reader's limit, which the writer does not
    check) and there were fewer than 10^16 segments, then however the store
    was reached, through appends, seals, checkpoints, crashes in the middle of
    the write of such a record and reopenings, reading it gives exactly the
    batches appended so far, in order and each once (with the limit and the
    lower bound on sequence numbers the reader asks for). *)
Theorem store_durable s bs :
  reach s bs →
  ∃ stored, sb_Batch <$> stored = bs ∧ NoDup (bid <$> stored) ∧
    ∀ limit from, (0 < limit)%Z →
      ReadBatches (MkReadOptions limit from) s =
      Ok (take (Z.to_nat limit) (filter (λ b, (from ≤ pos_BatchSequence (sb_Position b))%Z) stored)).
Proof.
  intros (l & Hs & Hb)%reach_store_ok. exists (stored_of l). split; [done|]. split; [apply (do_log _ _ _ (so_disk _ _ Hs))|].
  intros limit from Hlim. apply ReadBatches_ok; [apply Hs|done].
Qed.

(** C28. A torn record is recovered from: in a store reached as [store_durable]
    says, when the crash happens in the middle of writing the record of a
    storable batch to a segment that is already open (its header was
    written), the store opens again and answers every read as it did before
    the write.  A crash while the header of a new
    segment is written is not covered: [torn_header_blocks_open] shows that
    the store then does not open. *)
Theorem recovery_complete now host deviceID opts s bs tail :
  reach s bs → torn tail →
  ∃ s', Open now host deviceID opts (crash_disk s tail) = Ok s' ∧ reach s' bs ∧
    ∀ limit from, (0 < limit)%Z → ReadBatches (MkReadOptions limit from) s' = ReadBatches (MkReadOptions limit from) s.
Proof.
  intros Hr Ht. destruct (reach_store_ok s bs Hr) as (l & Hs & Hb).
  destruct (crash_disk_ok s l tail Hs Ht) as (tail' & Hd & Ht' & Hn & Hrows).
  destruct (Open_spec now host deviceID opts _ l tail' Hd Ht' Hn) as (s1 & E & Hs1).
  { intros id row. rewrite Hrows. apply (so_table _ _ Hs). }
  exists s1. split; [done|]. split; [eapply reach_crash; [exact Hr|exact Ht|exact E]|]. intros limit from Hlim.
  rewrite (ReadBatches_ok s1 l), (ReadBatches_ok s l); done || apply Hs || apply Hs1.
Qed.

(** Appending is idempotent by batch id and tells the truth about the
    position: a new batch is stored at the position returned, after all the
    others, and appending it again returns the same position and changes
    nothing. *)
Theorem append_stores_once now now' batch record sequence s bs :
  reach s bs → storable batch record sequence → (nextSegmentID (s_disk s) < 10 ^ 16)%Z →
  bh_BatchId (GetHeader batch) ≠ "" → s_batchPositions s !! bh_BatchId (GetHeader batch) = None →
  ∃ p s' stored, AppendBatch now batch s = (Ok p, s') ∧
    (∀ limit, (Z.of_nat (length stored) < limit)%Z → ReadBatches (MkReadOptions limit 0) s = Ok stored) ∧
    (∀ limit, (Z.of_nat (length stored) < limit)%Z → ReadBatches (MkReadOptions limit 0) s' = Ok (stored ++ [MkStoredBatch p batch])) ∧
    AppendBatch now' batch s' = (Ok p, s').
Proof.
  intros Hr Hst Hlim Hne Hnew. destruct (reach_store_ok s bs Hr) as (l & Hs & Hb).
  destruct (AppendBatch_spec now batch record sequence s l Hs Hlim Hst Hne Hnew) as (l' & p & s' & E & Hs' & Hstored).
  assert (∀ l0 b, store_ok s l0 ∨ store_ok s' l0 → b ∈ stored_of l0 → (0 ≤ pos_BatchSequence (sb_Position b))%Z) as Hseq.
  { intros l0 b Hor Hin. assert (log_ok l0) as [Hsegs _ _] by (destruct Hor as [[[] _ _ _]|[[] _ _ _]]; done).
    unfold stored_of in Hin. apply list_elem_of_bind in Hin as (g & Hb' & Hg). rewrite list.Forall_forall in Hsegs.
    destruct (Hsegs g Hg) as [_ Hl]. clear -Hl Hb'. induction Hl as [|off ba bs record sq rest stored Hst _ IH]; [by apply elem_of_nil in Hb'|].
    apply elem_of_cons in Hb' as [->|?]; [|auto]. destruct (st_seq _ _ _ Hst). done. }
  exists p, s', (stored_of l). split; [done|]. split_and!.
  - intros limit Hl. rewrite (ReadBatches_ok s l) by (apply Hs || lia). f_equal.
    rewrite filter_all by (apply list.Forall_forall; eauto). apply take_ge. lia.
  - intros limit Hl. rewrite (ReadBatches_ok s' l') by (apply Hs' || lia). f_equal.
    rewrite filter_all by (apply list.Forall_forall; eauto). rewrite Hstored. apply take_ge. rewrite length_app. cbn. lia.
  - assert (s_batchPositions s' !! bh_BatchId (GetHeader batch) = Some p) as Hp.
    { apply (so_positions _ _ Hs'). exists (MkStoredBatch p batch). rewrite Hstored. split; [apply elem_of_app; right; by apply list_elem_of_singleton|].
      split; [|done]. unfold AppendBatch in E. rewrite bool_decide_false, (st_encode _ _ _ Hst), Hnew in E by done.
      destruct (s_writer _); [|done]. by injection E as <- _. }
    unfold AppendBatch. by rewrite bool_decide_false, (st_encode _ _ _ Hst), Hp by done.
Qed.
End reach.

(** ** Capacity *)

Definition remove_all (removed : list segmentCandidate) (d : Disk) : Disk := foldl (λ d c, remove_segment c d) d removed.

(** The batches of the removed segments that were not uploaded. *)
Definition lost_batches (removed : list segmentCandidate) : Z :=
  foldr (λ c acc, if cand_uploaded c then acc else (cand_records c + acc)%Z) 0%Z removed.

Lemma lost_batches_cons c removed :
  lost_batches (c :: removed) = ((if cand_uploaded c then 0 else cand_records c) + lost_batches removed)%Z.
Proof. unfold lost_batches. cbn. destruct (cand_uploaded c); lia. Qed.

Lemma lost_batches_nonneg removed : Forall (λ c, (0 ≤ cand_records c)%Z) removed → (0 ≤ lost_batches removed)%Z.
Proof. induction 1 as [|c removed Hc _ IH]; [done|]. rewrite lost_batches_cons. destruct (cand_uploaded c); lia. Qed.

Lemma lost_batches_none removed : existsb (λ c, negb (cand_uploaded c)) removed = false → lost_batches removed = 0%Z.
Proof.
  induction removed as [|c removed IH]; [done|]. cbn [existsb]. intros [Hc Hr]%orb_false_iff. apply negb_false_iff in Hc. rewrite lost_batches_cons, Hc, IH by done. done.
Qed.

Lemma remove_candidates_spec stats k cands r s :
  Forall (λ c, (0 ≤ cand_records c)%Z) cands → (0 ≤ cr_RemovedBatches r)%Z →
  (cr_RemovedBatches r + lost_batches cands < 2 ^ 64)%Z →
  let '(r', s') := remove_candidates stats k cands r s in
  ∃ n, (n ≤ length cands)%nat ∧ s' = set_disk (remove_all (take n cands) (s_disk s)) s ∧
    cr_RemovedSegments r' = cr_RemovedSegments r ++ (cand_id <$> take n cands) ∧
    cr_RemovedBatches r' = (cr_RemovedBatches r + lost_batches (take n cands))%Z ∧
    cr_DroppedUnuploaded r' = cr_DroppedUnuploaded r || existsb (λ c, negb (cand_uploaded c)) (take n cands) ∧
    (0 < n ∨ cands = [])%nat ∧ (n < length cands → overCapacity (stats (k + n - 1)) s' = false)%nat.
Proof.
  revert k r s. induction cands as [|c cands IH]; intros k r s Hpos Hr Hsum; cbn [remove_candidates].
  { exists 0%nat. cbn. rewrite app_nil_r, Z.add_0_r, orb_false_r. destruct s. split_and!; auto; lia. }
  apply Forall_cons_iff in Hpos as [Hc Hpos]. rewrite lost_batches_cons in Hsum. pose proof (lost_batches_nonneg cands Hpos) as Hl.
  set (s1 := set_disk _ s). set (r1 := MkCapacityResult _ _ _).
  assert (cr_RemovedBatches r1 = cr_RemovedBatches r + (if cand_uploaded c then 0 else cand_records c))%Z as Hr1.
  { unfold r1. cbn. destruct (cand_uploaded c); [lia|]. rewrite u64_id; [done|]. unfold in_u64. lia. }
  destruct (overCapacity (stats k) s1) eqn:Eo.
  - specialize (IH (S k) r1 s1 Hpos). destruct (remove_candidates stats (S k) cands r1 s1) as [r' s'].
    destruct IH as (n & Hn & I1 & I2 & I3 & I4 & _ & I6); [destruct (cand_uploaded c); lia..|].
    exists (S n). cbn [take length fmap list_fmap existsb]. split_and!; [lia|exact I1| | | |lia|].
    + rewrite I2. unfold r1. cbn. by rewrite <- app_assoc.
    + rewrite I3, Hr1, lost_batches_cons. lia.
    + rewrite I4. unfold r1. cbn. by rewrite orb_assoc.
    + intros Hlt. replace (k + S n - 1)%nat with (S k + n - 1)%nat by lia. apply I6. lia.
  - exists 1%nat. cbn [take fmap list_fmap existsb]. rewrite firstn_0, lost_batches_cons. cbn [existsb].
    split_and!; [cbn; lia|done|done| |by rewrite orb_false_r|lia|].
    + rewrite Hr1. change (lost_batches []) with 0%Z. lia.
    + intros _. by replace (k + 1 - 1)%nat with k by lia.
Qed.

(** Candidates are rows of sealed segments. *)
Lemma elem_of_capacityCandidates s c :
  c ∈ capacityCandidates s →
  ∃ row, d_segments (s_disk s) !! cand_id c = Some row ∧ row_state row = "sealed" ∧
    cand_path c = row_path row ∧ cand_records c = row_records row ∧
    cand_uploaded c = (cand_id c <? cp_SegmentID (GetCheckpoint s))%Z.
Proof.
  unfold capacityCandidates. rewrite elem_of_app, !list_elem_of_filter.
  intros [[_ Hin]|[_ Hin]]; apply list_elem_of_omap in Hin as (id & _ & Hc); unfold candidate_of in Hc;
    destruct (d_segments (s_disk s) !! id) as [row|] eqn:E; try done; case_bool_decide as Hst; simplify_eq/=; eauto 8.
Qed.

Lemma remove_all_segments removed d id :
  d_segments (remove_all removed d) !! id = if bool_decide (id ∈ cand_id <$> removed) then None else d_segments d !! id.
Proof.
  unfold remove_all. revert d. induction removed as [|c removed IH]; intros d; cbn [foldl fmap list_fmap].
  { by rewrite bool_decide_false by apply not_elem_of_nil. }
  rewrite IH. cbn [remove_segment upd_segments d_segments upd_files].
  destruct (decide (id ∈ cand_id <$> removed)) as [Hin|Hni].
  - rewrite !bool_decide_true; [done|by right|done].
  - rewrite (bool_decide_false (id ∈ _)) by done. destruct (decide (id = cand_id c)) as [->|Hne].
    + rewrite bool_decide_true by left. apply lookup_delete_eq.
    + rewrite bool_decide_false by (by intros [?|?]%elem_of_cons). by apply lookup_delete_ne.
Qed.

(** Enforcing the capacity removes an initial part of the candidates, the
    sealed segments with the uploaded ones first, until the store fits; the
    rows of all other segments, the open one among them, stay; and the
    counter of lost batches grows by exactly the batches of the removed
    segments that were not uploaded. *)
Theorem EnforceCapacity_spec stats s :
  let '(r, s') := EnforceCapacity stats s in
  let cands := capacityCandidates s in
  Forall (λ c, (0 ≤ cand_records c)%Z) cands → (lost_batches cands < 2 ^ 64)%Z →
  ∃ n, cr_RemovedSegments r = cand_id <$> take n cands ∧
    (∀ id row, d_segments (s_disk s) !! id = Some row → id ∉ cr_RemovedSegments r → d_segments (s_disk s') !! id = Some row) ∧
    (∀ id row, d_segments (s_disk s) !! id = Some row → id ∈ cr_RemovedSegments r → row_state row = "sealed") ∧
    d_droppedBatches (s_disk s') = (d_droppedBatches (s_disk s) + lost_batches (take n cands))%Z ∧
    ((n < length cands)%nat → ∃ k, overCapacity (stats k) s' = false).
Proof.
  unfold EnforceCapacity. set (s0 := PruneSignals s).
  assert (capacityCandidates s0 = capacityCandidates s) as Hcands by done.
  destruct (overCapacity (stats 0%nat) s0) eqn:Eo.
  2:{ intros _ _. exists 0%nat. rewrite take_0. change (lost_batches []) with 0%Z. rewrite Z.add_0_r.
      split_and!; [done|done|by intros id row _ []%elem_of_nil|done|]. intros _. by exists 0%nat. }
  rewrite Hcands. pose proof (remove_candidates_spec stats 1 (capacityCandidates s) (MkCapacityResult [] 0 false) s0) as Hrem.
  destruct (remove_candidates _ _ _ _ _) as [r s1]. intros Hpos Hsum.
  destruct Hrem as (n & Hn & I1 & I2 & I3 & I4 & _ & I6); [done|done|cbn; lia|].
  cbn [cr_RemovedSegments cr_RemovedBatches cr_DroppedUnuploaded app orb] in I2, I3, I4. rewrite Z.add_0_l in I3.
  exists n. rewrite I2.
  assert (∀ d, d_segments (s_disk (if cr_DroppedUnuploaded r then recordDroppedBatches (cr_RemovedBatches r) s1 else s1)) =
    d_segments (s_disk s1) ∧ (d = s_disk s1 → d_droppedBatches (s_disk (if cr_DroppedUnuploaded r then recordDroppedBatches (cr_RemovedBatches r) s1 else s1)) =
      d_droppedBatches d + lost_batches (take n (capacityCandidates s)))%Z) as Hd.
  { intros d. destruct (cr_DroppedUnuploaded r) eqn:Ed; split; try done; intros ->.
    - cbn. by rewrite I3.
    - rewrite (lost_batches_none (take n _)) by done. lia. }
  destruct (Hd (s_disk s1)) as [Hseg Hdrop]. rewrite Hseg, Hdrop by done.
  assert (d_segments (s_disk s1) = d_segments (remove_all (take n (capacityCandidates s)) (s_disk s0))) as Hs1 by by rewrite I1.
  split_and!; [done| | | |].
  - intros id row Hrow Hni. rewrite Hs1, remove_all_segments, bool_decide_false by done. done.
  - intros id row Hrow (c & -> & Hc)%list_elem_of_fmap.
    destruct (elem_of_capacityCandidates s c) as (row' & E & ? & _); [|congruence].
    apply list_elem_of_lookup_1 in Hc as [i Hi]. apply lookup_take_Some in Hi as [Hi _]. by eapply list_elem_of_lookup_2.
  - f_equal. rewrite I1. cbn [s_disk set_disk]. assert (∀ l d, d_droppedBatches (remove_all l d) = d_droppedBatches d) as Hl.
    { intros l. induction l as [|c l IH]; intros d; [done|]. apply (IH (remove_segment c d)). }
    by rewrite Hl.
  - intros Hlt. exists (1 + n - 1)%nat. specialize (I6 Hlt). destruct (cr_DroppedUnuploaded r); exact I6.
Qed.

(** ** A concrete store *)

Definition batch1 : DataBatch := demo_batch "batch-1" 1.
Definition batch2 : DataBatch := demo_batch "batch-2" 2.
Definition batch3 : DataBatch := demo_batch "batch-3" 3.

#[local] Instance run_codec : Codec := table_codec [batch1; batch2; batch3].
#[local] Instance run_codec_laws : CodecLaws := table_codec_laws _.

Definition run_opts : Options := MkOptions 0 0 80 0.
Definition run_open (d : Disk) : Store :=
  match Open 7 "host" "device" run_opts d with Ok s => s | Err _ => MkStore d run_opts None ∅ (MkCursor 0 0) end.
Definition run_append (batch : DataBatch) (s : Store) : Store := (AppendBatch 8 batch s).2.
Definition read_ids (s : Store) : list string :=
  match ReadBatches (MkReadOptions 10 0) s with Ok l => bid <$> l | Err _ => ["error"] end.

Definition run_s0 : Store := run_open empty_disk.
Definition run_s1 : Store := run_append batch1 run_s0.
Definition run_s2 : Store := run_append batch2 run_s1.

Definition run_record (batch : DataBatch) : bytes :=
  match encodeRecord batch with Ok (r, _) => r | Err _ => [] end.
Definition run_tail : bytes := take 9 (run_record batch3).

Lemma run_storable batch :
  batch ∈ [batch1; batch2; batch3] →
  storable batch (run_record batch) (batchSequence batch).
Proof.
  intros Hin.
  assert (batch = batch1 ∨ batch = batch2 ∨ batch = batch3) as [->|[->| ->]] by set_solver;
    (split; [vm_compute; reflexivity|vm_compute; reflexivity|vm_compute; split; congruence|vm_compute; discriminate]).
Qed.

Lemma run_reach1 : reach run_s1 [batch1].
Proof.
  refine (reach_append 8 batch1 _ _ run_s0 [] _ run_s1 _ (run_storable batch1 _) _ _).
  - apply (reach_open 7 "host" "device" run_opts). vm_compute. reflexivity.
  - left.
  - vm_compute. reflexivity.
  - vm_compute. reflexivity.
Qed.

Lemma run_reach2 : reach run_s2 [batch1; batch2].
Proof.
  refine (reach_append 8 batch2 _ _ run_s1 [batch1] _ run_s2 run_reach1 (run_storable batch2 _) _ _).
  - right. left.
  - vm_compute. reflexivity.
  - vm_compute. reflexivity.
Qed.

Lemma run_torn : torn (run_tail).
Proof.
  right. eexists batch3, _, _, (drop 9 (run_record batch3)).
  split; [apply run_storable; do 2 right; left|]. split; [symmetry; apply take_drop|vm_compute; discriminate].
Qed.

Lemma store_durable_witness :
  read_ids run_s2 = ["batch-1"; "batch-2"] ∧ ∃ stored, sb_Batch <$> stored = [batch1; batch2] ∧
    ReadBatches (MkReadOptions 10 0) run_s2 =
      Ok (take 10 (filter (λ b, (0 ≤ pos_BatchSequence (sb_Position b))%Z) stored)).
Proof.
  split; [vm_compute; reflexivity|].
  destruct (store_durable run_s2 [batch1; batch2] run_reach2) as (stored & Hst & _ & Hread).
  exists stored. split; [exact Hst|]. exact (Hread 10%Z 0%Z eq_refl).
Defined.

Lemma recovery_complete_witness :
  ∃ s', Open 9 "host" "device" run_opts
      (crash_disk run_s2 (run_tail)) = Ok s' ∧
    ReadBatches (MkReadOptions 10 0) s' = ReadBatches (MkReadOptions 10 0) run_s2.
Proof.
  destruct (recovery_complete 9 "host" "device" run_opts run_s2 [batch1; batch2]
    (run_tail) run_reach2 run_torn) as (s' & Ho & _ & Hr).
  exists s'. split; [exact Ho|]. exact (Hr 10%Z 0%Z eq_refl).
Defined.

Lemma append_stores_once_witness :
  ∃ p s', AppendBatch 9 batch3 run_s2 = (Ok p, s') ∧ AppendBatch 10 batch3 s' = (Ok p, s').
Proof.
  destruct (append_stores_once 9 10 batch3 _ _ run_s2 [batch1; batch2] run_reach2 (run_storable batch3 ltac:(do 2 right; left)))
    as (p & s' & stored & H1 & _ & _ & H2).
  - vm_compute. reflexivity.
  - discriminate.
  - vm_compute. reflexivity.
  - exists p, s'. split; [exact H1|exact H2].
Defined.

(** Two sealed segments, the first one uploaded; the disk stays full. *)
Definition full_store : Store :=
  SaveCheckpoint 9 (MkCheckpoint 2 32 "batch-2" 0) (Seal 9 run_s2).
Definition full_disk (_ : nat) : DiskStat := MkDiskStat 0 0.

Lemma EnforceCapacity_spec_witness :
  let '(r, s') := EnforceCapacity full_disk full_store in
  cr_RemovedSegments r = [1; 2]%Z ∧ d_droppedBatches (s_disk s') = 1%Z.
Proof.
  pose proof (EnforceCapacity_spec full_disk full_store) as Hspec.
  destruct (EnforceCapacity full_disk full_store) as [r s'] eqn:E.
  assert (E2 : EnforceCapacity full_disk full_store = (r, s')) by exact E. clear E.
  destruct Hspec as (n & Hr & _ & _ & Hd & _).
  - vm_compute. repeat constructor; discriminate.
  - vm_compute. reflexivity.
  - vm_compute in E2. injection E2 as <- <-. split; reflexivity.
Defined.

(** Segment numbers are reused: when capacity has removed the rows of all
    segments, the next segment gets number 1 again, below the upload
    checkpoint; what is appended from then on counts as uploaded already. *)
Theorem segment_ids_reused :
  let s := (EnforceCapacity full_disk full_store).2 in
  match AppendBatch 10 batch3 s with
  | (Ok p, s') => pos_SegmentID p = 1%Z ∧ cp_SegmentID (GetCheckpoint s') = 2%Z
  | (Err _, _) => False
  end.
Proof. vm_compute. split; reflexivity. Qed.

(** A crash while the header of a new segment is written cannot be
    recovered from: the incomplete header is an error, not a torn tail, and
    opening the store fails. *)
Theorem torn_header_blocks_open id createdAt n now host deviceID opts :
  (n < segmentHeaderSize)%nat →
  Open now host deviceID opts
    (MkDisk (MkMeta None None ∅) {[open_name id := take n (encodeSegmentHeader id createdAt)]} ∅ (MkCursor 0 0) None 0 ∅)
  = Err "unexpected EOF".
Proof.
  intros Hn. unfold Open, recoverSegments, segmentFiles. cbn [s_disk loadSequenceCursor set_cursor d_files ensureIdentity m_identity d_meta].
  rewrite dom_singleton_L, elements_singleton, filter_cons.
  rewrite decide_True by (unfold is_segment_file; rewrite open_suffix; apply orb_true_r).
  cbn [filter list_filter merge_sort recover_files].
  assert (∀ s, file_content (s_disk s) (open_name id) = take n (encodeSegmentHeader id createdAt) →
    recover_file now (open_name id) s = Err "unexpected EOF") as Hrec.
  { intros s Hc. unfold recover_file. rewrite Hc. unfold readSegment.
    destruct (Nat.ltb_spec (length (take n (encodeSegmentHeader id createdAt))) segmentHeaderSize) as [|Hge]; [done|].
    rewrite length_take, encodeSegmentHeader_length in Hge. lia. }
  cbv [merge_sort merge_sort_aux merge_list_to_stack merge_stack]. cbn [list_merge recover_files].
  rewrite Hrec; [done|]. unfold file_content.
  change (default [] (({[open_name id := take n (encodeSegmentHeader id createdAt)]} : gmap string bytes) !! open_name id)
    = take n (encodeSegmentHeader id createdAt)).
  by rewrite lookup_singleton_eq.
Qed.

Lemma torn_header_blocks_open_witness :
  Open 1 "host" "device" run_opts
    (MkDisk (MkMeta None None ∅) {[open_name 1 := take 10 (encodeSegmentHeader 1 0)]} ∅ (MkCursor 0 0) None 0 ∅)
  = Err "unexpected EOF".
Proof. apply torn_header_blocks_open. unfold segmentHeaderSize. lia. Defined.
End LocalStoreTheorems.
