(* ===== verification/ExportPipeline.v ===== *)
(** * The export pipeline ([internal/agent/daemon/export_pipeline.go], [exporter.go])

    Stored batches are uploaded in order; the checkpoint in the local store
    says how far.  The remote side is a stream of replies, one per call of
    the sender.  The theorems say that the checkpoint never passes a batch
    that the gateway did not commit, and that only the first thousand batches of the
    store are looked at: behind a thousand uploaded batches nothing more is
    sent until a segment is removed. *)

From S2P Require Import Prelude GoStrings GoBytes EventModel DataPlane Segment LocalStore LocalStoreInv LocalStoreTheorems.

Module ExportPipeline.
Import EventModel DataPlane Segment LocalStore LocalStoreInv LocalStoreTheorems.

(** What [sender.SendBatch] returns: an error or an acknowledgement. *)
Definition Reply : Type := result (option DataAck).

Definition cloudExporter_Export (reply : Reply) : result bool :=
  match reply with
  | Err msg => Err msg
  | Ok ack => if AckCommitted ack then Ok true else Err ("cloud export rejected: " +:+ from_option ack_Message "" ack)
  end.

Record exportPipeline := MkPipeline {
  u_fromSequence : Z;
  u_tenantID : string;
  u_agentID : string
}.

Definition beforeCheckpoint (p : Position) (c : Checkpoint) : bool :=
  (pos_SegmentID p <? cp_SegmentID c)%Z ||
  ((pos_SegmentID p =? cp_SegmentID c)%Z && (pos_RecordOffset p <? cp_RecordOffset c)%Z).

Definition saveCheckpoint (now : Z) (p : Position) (s : Store) : Store :=
  SaveCheckpoint now (MkCheckpoint (pos_SegmentID p) (pos_RecordOffset p) (pos_BatchID p) 0) s.

(** The batch was recorded under another enrolment. *)
Definition foreign (u : exportPipeline) (batch : DataBatch) : bool :=
  negb (bool_decide (u_tenantID u = "")) &&
  (negb (bool_decide (bh_TenantId (GetHeader batch) = u_tenantID u)) ||
   negb (bool_decide (bh_AgentId (GetHeader batch) = u_agentID u))).

(** The loop over the batches read; [k] numbers the calls of the exporter and
    [sent] collects the batches it committed. *)
Fixpoint export_go (u : exportPipeline) (now : Z) (replies : nat → Reply) (k : nat) (checkpoint : Checkpoint)
    (batches : list StoredBatch) (s : Store) (sent : list StoredBatch) : result unit * Store * list StoredBatch :=
  match batches with
  | [] => (Ok tt, s, sent)
  | b :: batches' =>
    if beforeCheckpoint (sb_Position b) checkpoint then export_go u now replies k checkpoint batches' s sent
    else if foreign u (sb_Batch b) then
      export_go u now replies k checkpoint batches' (saveCheckpoint now (sb_Position b) s) sent
    else match cloudExporter_Export (replies k) with
    | Err msg => (Err msg, s, sent)
    | Ok committed =>
      if committed : bool
      then export_go u now replies (S k) checkpoint batches' (saveCheckpoint now (sb_Position b) s) (sent ++ [b])
      else (Err ("batch " +:+ pos_BatchID (sb_Position b) +:+ " was not committed"), s, sent)
    end
  end.

Section export.
Context `{Codec}.

Definition exportAvailable (u : exportPipeline) (now : Z) (replies : nat → Reply) (s : Store)
    : result unit * Store * list StoredBatch :=
  match ReadBatches (MkReadOptions 1000 (u_fromSequence u)) s with
  | Err msg => (Err msg, s, [])
  | Ok batches => export_go u now replies 0 (GetCheckpoint s) batches s []
  end.

(** The pause of [Run] after an attempt, in nanoseconds, and the next backoff. *)
Definition next_delay (failed : bool) (backoff : Z) : Z * Z :=
  let second := (10 ^ 9)%Z in
  if failed then (backoff, if (30 * second <? backoff * 2)%Z then (30 * second)%Z else (backoff * 2)%Z)
  else ((500 * 10 ^ 6)%Z, second).
End export.

(** ** The loop *)

(** A batch the loop does not send. *)
Definition skipped (u : exportPipeline) (c : Checkpoint) (b : StoredBatch) : bool :=
  beforeCheckpoint (sb_Position b) c || foreign u (sb_Batch b).

(** The checkpoint after the loop has passed [done]. *)
Definition checkpoint_after (now : Z) (c : Checkpoint) (old : option Checkpoint) (done : list StoredBatch) : option Checkpoint :=
  foldl (λ cp b, if beforeCheckpoint (sb_Position b) c then cp
                 else Some (MkCheckpoint (pos_SegmentID (sb_Position b)) (pos_RecordOffset (sb_Position b))
                              (pos_BatchID (sb_Position b)) now)) old done.

(** What the gateway answers to commit a batch: an acknowledgement that says
    accepted or duplicate, or, from a gateway that sets no status, accepted. *)
Definition commits (reply : Reply) : Prop :=
  ∃ ack, reply = Ok (Some ack) ∧
    (ack_Status ack ∈ [STATUS_ACCEPTED; STATUS_DUPLICATE] ∨ ack_Status ack = STATUS_UNSPECIFIED ∧ ack_Accepted ack = true).

Lemma Export_commits reply : cloudExporter_Export reply = Ok true ↔ commits reply.
Proof.
  unfold cloudExporter_Export, commits. destruct reply as [[ack|]|msg]; cbn [AckCommitted]; [|naive_solver..]. split.
  - intros Ha. exists ack. split; [done|]. destruct (ack_Status ack); try discriminate Ha; [|left; set_solver..].
    destruct (ack_Accepted ack); [by right|discriminate Ha].
  - intros (a & [= <-] & [Hs|[-> ->]]); [|done]. by repeat (apply elem_of_cons in Hs as [->|Hs]; [done|]); apply elem_of_nil in Hs.
Qed.

Lemma Export_never_false reply : cloudExporter_Export reply ≠ Ok false.
Proof. unfold cloudExporter_Export. destruct reply as [ack|]; [|done]. by destruct (AckCommitted ack). Qed.

(** The outcome of the loop on the batches from call [k] on: what was sent
    beyond [sent] was committed, each by its own reply, and what stopped the
    loop, if anything, is a batch whose reply does not commit it. *)
Record exported (u : exportPipeline) (now : Z) (replies : nat → Reply) (k : nat) (c : Checkpoint) (batches : list StoredBatch)
    (old : option Checkpoint) (res : result unit) (new : option Checkpoint) (sent : list StoredBatch) : Prop := {
  ex_parts : ∃ done rest, batches = done ++ rest ∧ sent = filter (λ b, skipped u c b = false) done ∧
    new = checkpoint_after now c old done ∧ (res = Ok tt → rest = []) ∧
    (res ≠ Ok tt → ∃ b rest', rest = b :: rest' ∧ skipped u c b = false ∧ ¬ commits (replies (k + length sent)%nat));
  ex_committed : ∀ i, (i < length sent)%nat → commits (replies (k + i)%nat)
}.

Lemma exported_skip u now replies k c b batches old old' res new sent :
  skipped u c b = true → old' = checkpoint_after now c old [b] → exported u now replies k c batches old' res new sent →
  exported u now replies k c (b :: batches) old res new sent.
Proof.
  intros Hb -> [(done & rest & -> & -> & -> & Hok & Herr) Hc]. split; [|done]. exists (b :: done), rest.
  rewrite filter_cons_False by congruence. by split_and!.
Qed.

Lemma exported_send u now replies k c b batches old old' res new sent :
  skipped u c b = false → commits (replies k) → old' = checkpoint_after now c old [b] →
  exported u now replies (S k) c batches old' res new sent → exported u now replies k c (b :: batches) old res new (b :: sent).
Proof.
  intros Hb Hk -> [(done & rest & -> & -> & -> & Hok & Herr) Hc]. split.
  - exists (b :: done), rest. rewrite filter_cons_True by done. cbn [length]. rewrite Nat.add_succ_r. by split_and!.
  - intros [|i] Hi; [by rewrite Nat.add_0_r|]. rewrite Nat.add_succ_r. apply (Hc i). cbn [length] in Hi. lia.
Qed.

Lemma exported_stop u now replies k c b batches old msg :
  skipped u c b = false → ¬ commits (replies k) → exported u now replies k c (b :: batches) old (Err msg) old [].
Proof.
  intros Hb Hk. split; [|intros i Hi; cbn in Hi; lia]. exists [], (b :: batches). rewrite filter_nil. split_and!; [done..|].
  intros _. exists b, batches. cbn [length]. by rewrite Nat.add_0_r.
Qed.

Lemma export_go_spec u now replies k c batches s sent :
  let '(res, s', out) := export_go u now replies k c batches s sent in
  ∃ out', out = sent ++ out' ∧ exported u now replies k c batches (d_checkpoint (s_disk s)) res (d_checkpoint (s_disk s')) out'.
Proof.
  revert k s sent. induction batches as [|b batches IH]; intros k s sent; cbn [export_go].
  { exists []. rewrite app_nil_r. split; [done|]. split; [|intros i Hi; cbn in Hi; lia]. exists [], []. by rewrite filter_nil. }
  destruct (beforeCheckpoint (sb_Position b) c) eqn:Eb.
  { specialize (IH k s sent). destruct (export_go _ _ _ k c batches s sent) as [[res s'] out]. destruct IH as (out' & -> & He).
    exists out'. split; [done|]. eapply exported_skip; [| |exact He]; [unfold skipped|cbn]; by rewrite Eb. }
  destruct (foreign u (sb_Batch b)) eqn:Ef.
  { specialize (IH k (saveCheckpoint now (sb_Position b) s) sent). destruct (export_go _ _ _ k c batches _ sent) as [[res s'] out].
    destruct IH as (out' & -> & He). exists out'. split; [done|].
    eapply exported_skip; [| |exact He]; [unfold skipped; by rewrite Ef, orb_true_r|cbn; by rewrite Eb]. }
  assert (skipped u c b = false) as Hskip by (unfold skipped; by rewrite Eb, Ef).
  pose proof (Export_commits (replies k)) as Hk. destruct (cloudExporter_Export (replies k)) as [[]|msg] eqn:Ex.
  - specialize (IH (S k) (saveCheckpoint now (sb_Position b) s) (sent ++ [b])).
    destruct (export_go _ _ _ (S k) c batches _ _) as [[res s'] out]. destruct IH as (out' & -> & He).
    exists (b :: out'). split; [by rewrite <- app_assoc|]. eapply exported_send; [done|by apply Hk| |exact He]. cbn. by rewrite Eb.
  - by apply Export_never_false in Ex.
  - exists []. split; [by rewrite app_nil_r|]. apply exported_stop; [done|]. by intros ?%Hk.
Qed.

Lemma surjective_pairing_3 {A B C} (p : A * B * C) : p = (p.1.1, p.1.2, p.2).
Proof. by destruct p as [[]]. Qed.

Section theorems.
Context `{CodecLaws}.

Lemma export_go_store_ok u now replies k c batches s sent l :
  store_ok s l → store_ok (export_go u now replies k c batches s sent).1.2 l.
Proof.
  revert k s sent. induction batches as [|b batches IH]; intros k s sent Hs; cbn [export_go]; [done|].
  destruct (beforeCheckpoint _ _); [by apply IH|]. destruct (foreign _ _); [by apply IH, store_ok_checkpoint|].
  destruct (cloudExporter_Export (replies k)) as [[]|]; [by apply IH, store_ok_checkpoint|done..].
Qed.

(** C29. The checkpoint never passes a batch that the gateway did not commit:
    on a store of storable batches, an attempt goes through the batches it
    read in order and stops at the first one whose reply does not commit it (an error, no acknowledgement, or
    a status other than accepted and duplicate).  The new checkpoint is at the
    last batch before that one.  Every batch the attempt passed was before the
    old checkpoint, or recorded under another enrolment, or is one of those
    sent, and the i-th batch sent was committed by the i-th reply.  A
    successful attempt has gone through all the batches it read. *)
Theorem export_in_order u now replies s bs :
  reach s bs →
  let '(res, s', sent) := exportAvailable u now replies s in
  ∃ read done rest, ReadBatches (MkReadOptions 1000 (u_fromSequence u)) s = Ok read ∧ read = done ++ rest ∧
    sent = filter (λ b, skipped u (GetCheckpoint s) b = false) done ∧
    (∀ i, (i < length sent)%nat → commits (replies i)) ∧
    d_checkpoint (s_disk s') = checkpoint_after now (GetCheckpoint s) (d_checkpoint (s_disk s)) done ∧
    (res = Ok tt → rest = []) ∧
    (res ≠ Ok tt → ∃ b rest', rest = b :: rest' ∧ skipped u (GetCheckpoint s) b = false ∧ ¬ commits (replies (length sent))).
Proof.
  intros (l & Hs & _)%reach_store_ok. unfold exportAvailable. rewrite (ReadBatches_ok s l) by (done || apply Hs).
  set (read := take _ _). pose proof (export_go_spec u now replies 0 (GetCheckpoint s) read s []) as Hgo.
  destruct (export_go _ _ _ _ _ _ _ _) as [[res s'] sent]. destruct Hgo as (out & -> & [(done & rest & H1 & -> & H3 & H4 & H5) H6]).
  exists read, done, rest. by split_and!.
Qed.

(** Any number of attempts, with what they sent in all. *)
Inductive attempts (u : exportPipeline) : Store → Store → list StoredBatch → Prop :=
| attempts_nil s : attempts u s s []
| attempts_step now replies s res s1 sent1 s2 sent2 :
    exportAvailable u now replies s = (res, s1, sent1) → attempts u s1 s2 sent2 → attempts u s s2 (sent1 ++ sent2).

(** While no segment is removed, only the first thousand stored batches at or
    after the pipeline's first sequence number are uploaded: every attempt
    reads from the same sequence number with a limit of one thousand, so
    whatever the remote side answers and however many attempts are made, a
    batch after the first thousand is not sent. *)
Theorem export_stalls u s s' sent bs :
  reach s bs → attempts u s s' sent →
  ∃ stored, sb_Batch <$> stored = bs ∧
    ∀ b, b ∈ sent → b ∈ take 1000 (filter (λ b, (u_fromSequence u ≤ pos_BatchSequence (sb_Position b))%Z) stored).
Proof.
  intros (l & Hs & Hb)%reach_store_ok Ha. exists (stored_of l). split; [done|]. clear Hb.
  induction Ha as [s|now replies s res s1 sent1 s2 sent2 He _ IH]; [by intros b []%elem_of_nil|].
  unfold exportAvailable in He. rewrite (ReadBatches_ok s l) in He by (done || apply Hs).
  change (Z.to_nat 1000) with 1000%nat in He. set (read := take 1000 _) in *.
  assert (store_ok s1 l) as Hs1.
  { pose proof (export_go_store_ok u now replies 0 (GetCheckpoint s) read s [] l Hs) as Hk. by rewrite He in Hk. }
  pose proof (export_go_spec u now replies 0 (GetCheckpoint s) read s []) as Hgo. rewrite He in Hgo.
  destruct Hgo as (out & H2 & [(done & rest & H1 & -> & _) _]). intros b [Hin|Hin]%elem_of_app; [|by apply IH].
  rewrite H2 in Hin. cbn [app] in Hin. apply list_elem_of_filter in Hin as [_ Hin]. rewrite H1. apply elem_of_app. by left.
Qed.
End theorems.

(** ** A concrete run *)

#[local] Existing Instance run_codec.
#[local] Existing Instance run_codec_laws.

Definition demo_ack (status : AckStatus) : DataAck :=
  MkDataAck "" false "" status "" "" "" 0 0 false 0 false 0 0 "".

(** The first batch is accepted, the second is not. *)
Definition demo_replies (k : nat) : Reply :=
  Ok (Some (demo_ack (match k with O => STATUS_ACCEPTED | _ => STATUS_REJECTED end))).

Definition demo_pipeline : exportPipeline := MkPipeline 0 "" "".

Lemma export_in_order_witness :
  ∃ read done rest, ReadBatches (MkReadOptions 1000 0) run_s2 = Ok read ∧ read = done ++ rest ∧ bid <$> read = ["batch-1"; "batch-2"] ∧
    commits (demo_replies 0) ∧ ¬ commits (demo_replies 1) ∧
    d_checkpoint (s_disk (exportAvailable demo_pipeline 5 demo_replies run_s2).1.2) = Some (MkCheckpoint 1 32 "batch-1" 5).
Proof.
  pose proof (export_in_order demo_pipeline 5 demo_replies run_s2 [batch1; batch2] run_reach2) as Hspec.
  assert (Hids : match ReadBatches (MkReadOptions 1000 0) run_s2 with Ok l => bid <$> l | Err _ => [] end = ["batch-1"; "batch-2"])
    by (vm_compute; reflexivity).
  assert (Hcp : d_checkpoint (s_disk (exportAvailable demo_pipeline 5 demo_replies run_s2).1.2) = Some (MkCheckpoint 1 32 "batch-1" 5))
    by (vm_compute; reflexivity).
  assert (Hsent : (length (exportAvailable demo_pipeline 5 demo_replies run_s2).2, (exportAvailable demo_pipeline 5 demo_replies run_s2).1.1)
    = (1%nat, Err "cloud export rejected: ")) by (vm_compute; reflexivity).
  destruct (exportAvailable demo_pipeline 5 demo_replies run_s2) as [[res s'] sent]. injection Hsent as Hn Hres. cbn [fst snd] in Hn, Hres.
  destruct Hspec as (read & done & rest & Hread & Hsplit & _ & Hok & _ & _ & Herr). exists read, done, rest.
  change (u_fromSequence demo_pipeline) with 0%Z in Hread. rewrite Hread in Hids. rewrite Hn in Hok, Herr.
  destruct Herr as (b & rest' & _ & _ & Hno); [rewrite Hres; discriminate|].
  split; [exact Hread|]. split; [exact Hsplit|]. split; [exact Hids|]. split; [apply Hok; lia|]. split; [exact Hno|exact Hcp].
Defined.

Lemma export_stalls_witness :
  ∃ stored, sb_Batch <$> stored = [batch1; batch2] ∧
    ∀ b, b ∈ (exportAvailable demo_pipeline 5 demo_replies run_s2).2 →
      b ∈ take 1000 (filter (λ b, (0 ≤ pos_BatchSequence (sb_Position b))%Z) stored).
Proof.
  refine (export_stalls demo_pipeline run_s2 (exportAvailable demo_pipeline 5 demo_replies run_s2).1.2
    (exportAvailable demo_pipeline 5 demo_replies run_s2).2 [batch1; batch2] run_reach2 _).
  rewrite <- (app_nil_r (exportAvailable demo_pipeline 5 demo_replies run_s2).2).
  eapply (attempts_step demo_pipeline 5 demo_replies run_s2); [|constructor].
  apply surjective_pairing_3.
Defined.
End ExportPipeline.
