(* ===== verification/Batcher.v ===== *)
(** * The telemetry batcher and sender ([internal/agent/telemetry/batcher.go])

    Frames are collected in a pending batch that is flushed into a bounded
    queue by count, by size, by a timer or at shutdown; a full queue drops
    the batch.  The sender takes batches off the queue and retries each until
    it is committed or rejected for good.  The mutex makes every operation
    atomic, so a history is a sequence of operations.

    The size of a message ([proto.Size]), the batch builder and the clock are
    arguments. *)

From S2P Require Import Prelude GoStrings GoBytes EventModel DataPlane.

Module Batcher.
Import EventModel DataPlane.

Definition defaultBatchSize : Z := 64.
Definition defaultMaxBytes : Z := 256 * 1024.
Definition defaultFlushInterval : Z := 10 ^ 9.
Definition defaultQueueCapacity : Z := 128.

Definition DataPlaneCurrent : string := "sysarmor.dataplane/v1".

Record BatcherStats := MkBatcherStats {
  bs_PendingEvents : Z;
  bs_PendingSignals : Z;
  bs_DroppedBatches : Z;
  bs_DroppedEvents : Z;
  bs_DroppedSignals : Z;
  bs_FlushedBatches : Z;
  bs_FlushedEvents : Z;
  bs_FlushedSignals : Z;
  bs_PendingBytes : Z;
  bs_FlushedByCount : Z;
  bs_FlushedByBytes : Z;
  bs_FlushedByInterval : Z;
  bs_FlushedByShutdown : Z;
  bs_LastFlushReason : string;
  bs_LastError : string;
  bs_Closed : bool
}.

Record Batcher := MkBatcher {
  b_batchSize : Z;
  b_maxBytes : Z;
  b_flushInterval : Z;
  b_capacity : nat;
  b_queue : list DataBatch;
  b_pending : option DataBatch;
  b_bytes : Z;
  b_armed : bool;
  b_closed : bool;
  b_stats : BatcherStats
}.

Definition zero_stats : BatcherStats := MkBatcherStats 0 0 0 0 0 0 0 0 0 0 0 0 0 "" "" false.

Definition NewBatcher (batchSize flushInterval queueCapacity maxBytes : Z) : Batcher :=
  MkBatcher (if (batchSize <=? 0)%Z then defaultBatchSize else batchSize)
    (if (0 <? maxBytes)%Z then maxBytes else defaultMaxBytes)
    (if (flushInterval <=? 0)%Z then defaultFlushInterval else flushInterval)
    (Z.to_nat (if (queueCapacity <=? 0)%Z then defaultQueueCapacity else queueCapacity))
    [] None 0 false false zero_stats.

Definition events_n (batch : DataBatch) : Z := Z.of_nat (length (db_Events batch)).
Definition signals_n (batch : DataBatch) : Z := Z.of_nat (length (db_Signals batch)).

(** ** Statistics *)

Definition count_dropped (batch : DataBatch) (message : string) (s : BatcherStats) : BatcherStats :=
  MkBatcherStats (bs_PendingEvents s) (bs_PendingSignals s) (u64 (bs_DroppedBatches s + 1))
    (u64 (bs_DroppedEvents s + events_n batch)) (u64 (bs_DroppedSignals s + signals_n batch))
    (bs_FlushedBatches s) (bs_FlushedEvents s) (bs_FlushedSignals s) (bs_PendingBytes s)
    (bs_FlushedByCount s) (bs_FlushedByBytes s) (bs_FlushedByInterval s) (bs_FlushedByShutdown s)
    (bs_LastFlushReason s) message (bs_Closed s).

Definition count_flushed (batch : DataBatch) (reason : string) (s : BatcherStats) : BatcherStats :=
  MkBatcherStats (bs_PendingEvents s) (bs_PendingSignals s) (bs_DroppedBatches s)
    (bs_DroppedEvents s) (bs_DroppedSignals s) (u64 (bs_FlushedBatches s + 1))
    (u64 (bs_FlushedEvents s + events_n batch)) (u64 (bs_FlushedSignals s + signals_n batch)) (bs_PendingBytes s)
    (bs_FlushedByCount s) (bs_FlushedByBytes s) (bs_FlushedByInterval s) (bs_FlushedByShutdown s)
    reason "" (bs_Closed s).

Definition set_pending (events signals size : Z) (s : BatcherStats) : BatcherStats :=
  MkBatcherStats events signals (bs_DroppedBatches s)
    (bs_DroppedEvents s) (bs_DroppedSignals s) (bs_FlushedBatches s) (bs_FlushedEvents s) (bs_FlushedSignals s) size
    (bs_FlushedByCount s) (bs_FlushedByBytes s) (bs_FlushedByInterval s) (bs_FlushedByShutdown s)
    (bs_LastFlushReason s) (bs_LastError s) (bs_Closed s).

Definition recordFlushReasonLocked (reason : string) (s : BatcherStats) : BatcherStats :=
  let bump r n := if bool_decide (reason = r) then u64 (n + 1) else n in
  MkBatcherStats (bs_PendingEvents s) (bs_PendingSignals s) (bs_DroppedBatches s)
    (bs_DroppedEvents s) (bs_DroppedSignals s) (bs_FlushedBatches s) (bs_FlushedEvents s) (bs_FlushedSignals s) (bs_PendingBytes s)
    (bump "count" (bs_FlushedByCount s)) (bump "bytes" (bs_FlushedByBytes s))
    (bump "interval" (bs_FlushedByInterval s)) (bump "shutdown" (bs_FlushedByShutdown s))
    (bs_LastFlushReason s) (bs_LastError s) (bs_Closed s).

Definition close_stats (s : BatcherStats) : BatcherStats :=
  MkBatcherStats (bs_PendingEvents s) (bs_PendingSignals s) (bs_DroppedBatches s) (bs_DroppedEvents s) (bs_DroppedSignals s)
    (bs_FlushedBatches s) (bs_FlushedEvents s) (bs_FlushedSignals s) (bs_PendingBytes s) (bs_FlushedByCount s)
    (bs_FlushedByBytes s) (bs_FlushedByInterval s) (bs_FlushedByShutdown s) (bs_LastFlushReason s) (bs_LastError s) true.

(** ** Flushing *)

(** The sequence number of the first frame, or what the header had. *)
Definition first_or {A} (f : A → Z) (l : list A) (old : Z) : Z := match l with [] => old | x :: _ => f x end.
Definition last_or {A} (f : A → Z) (l : list A) (old : Z) : Z := from_option f old (l !! (length l - 1)%nat).

Definition finalizeBatch (now : Z) (batch : DataBatch) : DataBatch :=
  let h := GetHeader batch in
  MkDataBatch (Some (MkBatchHeader
      (if bool_decide (bh_BatchId h = "") then Sprintf_020d now else bh_BatchId h)
      (bh_TenantId h) (bh_AgentId h) (bh_HostId h) (bh_PolicyId h) (bh_PolicyVersion h) (bh_PolicyMode h)
      (first_or ef_Sequence (db_Events batch) (bh_EventSeqStart h)) (last_or ef_Sequence (db_Events batch) (bh_EventSeqEnd h))
      (first_or sf_Sequence (db_Signals batch) (bh_SignalSeqStart h)) (last_or sf_Sequence (db_Signals batch) (bh_SignalSeqEnd h))
      (u32 (events_n batch)) (u32 (signals_n batch))
      (bh_DroppedEventsDelta h) (bh_ParseErrorsDelta h) (bh_CreatedAtUnixNano h) (bh_Labels h)))
    (db_Events batch) (db_Signals batch) DataPlaneCurrent.

Definition stopTimerLocked (b : Batcher) : Batcher :=
  MkBatcher (b_batchSize b) (b_maxBytes b) (b_flushInterval b) (b_capacity b) (b_queue b) (b_pending b) (b_bytes b) false
    (b_closed b) (b_stats b).

Definition flushLocked (now : Z) (reason : string) (b : Batcher) : Batcher :=
  match b_pending b with
  | None => stopTimerLocked b
  | Some pending =>
    if bool_decide (db_Events pending = []) && bool_decide (db_Signals pending = []) then stopTimerLocked b
    else
      let batch := finalizeBatch now pending in
      let full := negb (length (b_queue b) <? b_capacity b)%nat in
      let queue := if full then b_queue b else b_queue b ++ [batch] in
      let stats := if full then count_dropped batch "telemetry batch queue full" (b_stats b)
                   else count_flushed batch reason (b_stats b) in
      MkBatcher (b_batchSize b) (b_maxBytes b) (b_flushInterval b) (b_capacity b) queue None 0 false (b_closed b)
        (set_pending 0 0 0 (recordFlushReasonLocked reason stats))
  end.

Definition Flush := flushLocked.

Definition Reconfigure (now maxItems maxBytes flushInterval : Z) (b : Batcher) : Batcher :=
  let b := flushLocked now "policy" b in
  MkBatcher maxItems maxBytes flushInterval (b_capacity b) (b_queue b) (b_pending b) (b_bytes b) (b_armed b)
    (b_closed b) (b_stats b).

Definition CloseAndFlush (now : Z) (reason : string) (b : Batcher) : Batcher :=
  if b_closed b then b
  else
    let b := flushLocked now reason b in
    MkBatcher (b_batchSize b) (b_maxBytes b) (b_flushInterval b) (b_capacity b) (b_queue b) (b_pending b) (b_bytes b)
      (b_armed b) true (close_stats (b_stats b)).

(** A receive from the channel [Batches()]. *)
Definition receive (b : Batcher) : option (DataBatch * Batcher) :=
  match b_queue b with
  | [] => None
  | batch :: queue => Some (batch, MkBatcher (b_batchSize b) (b_maxBytes b) (b_flushInterval b) (b_capacity b) queue
                                     (b_pending b) (b_bytes b) (b_armed b) (b_closed b) (b_stats b))
  end.

(** ** Adding *)

Section add.
Variable size : DataBatch → Z.
Variable newBatch : Z → DataBatch.

Definition append_frames (pending batch : DataBatch) : DataBatch :=
  MkDataBatch (db_Header pending) (db_Events pending ++ db_Events batch) (db_Signals pending ++ db_Signals batch)
    (db_SchemaVersion pending).

Definition set_stats (s : BatcherStats) (b : Batcher) : Batcher :=
  MkBatcher (b_batchSize b) (b_maxBytes b) (b_flushInterval b) (b_capacity b) (b_queue b) (b_pending b) (b_bytes b) (b_armed b)
    (b_closed b) s.

Definition Add (now : Z) (batch : DataBatch) (b : Batcher) : Batcher :=
  if b_closed b then set_stats (count_dropped batch "telemetry batcher closed" (b_stats b)) b
  else
    let pending := match b_pending b with Some p => p | None => newBatch now end in
    let armed := match b_pending b with Some _ => b_armed b | None => true end in
    let pending := append_frames pending batch in
    let bytes := (b_bytes b + size batch)%Z in
    let b := MkBatcher (b_batchSize b) (b_maxBytes b) (b_flushInterval b) (b_capacity b) (b_queue b) (Some pending) bytes armed
      (b_closed b) (set_pending (events_n pending) (signals_n pending) (u64 bytes) (b_stats b)) in
    if (b_batchSize b <=? events_n pending + signals_n pending)%Z then flushLocked now "count" b
    else if (b_maxBytes b <=? bytes)%Z then flushLocked now "bytes" b
    else b.
End add.

(** [Stats]: the counters with the state of the queue. *)
Definition Stats (b : Batcher) : BatcherStats * Z * Z * Z :=
  let s := b_stats b in
  let s := match b_pending b with
           | Some p => set_pending (events_n p) (signals_n p) (u64 (b_bytes b)) s
           | None => s
           end in
  (s, Z.of_nat (length (b_queue b)), Z.of_nat (b_capacity b), u64 (b_maxBytes b)).

(** ** The sender *)

Record SenderStats := MkSenderStats {
  ss_SentBatches : Z;
  ss_SentEvents : Z;
  ss_SentSignals : Z;
  ss_RejectedBatches : Z;
  ss_RetriedBatches : Z;
  ss_LastError : string;
  ss_Drained : bool
}.

Definition recordSent (batch : DataBatch) (s : SenderStats) : SenderStats :=
  MkSenderStats (u64 (ss_SentBatches s + 1)) (u64 (ss_SentEvents s + events_n batch)) (u64 (ss_SentSignals s + signals_n batch))
    (ss_RejectedBatches s) (ss_RetriedBatches s) "" (ss_Drained s).
Definition recordDrained (s : SenderStats) : SenderStats :=
  MkSenderStats (ss_SentBatches s) (ss_SentEvents s) (ss_SentSignals s) (ss_RejectedBatches s) (ss_RetriedBatches s)
    (ss_LastError s) true.
Definition recordRejected (message : string) (s : SenderStats) : SenderStats :=
  MkSenderStats (ss_SentBatches s) (ss_SentEvents s) (ss_SentSignals s) (u64 (ss_RejectedBatches s + 1)) (ss_RetriedBatches s)
    message (ss_Drained s).
Definition recordRetry (message : string) (s : SenderStats) : SenderStats :=
  MkSenderStats (ss_SentBatches s) (ss_SentEvents s) (ss_SentSignals s) (ss_RejectedBatches s) (u64 (ss_RetriedBatches s + 1))
    message (ss_Drained s).

(** What a call of the appender returns: an error, an acknowledgement, or both. *)
Record SendReply := MkSendReply { sr_err : option string; sr_ack : option DataAck }.

Definition retry_message (r : SendReply) : string :=
  let message := match sr_err r with Some e => e | None => "missing data ack" end in
  match sr_ack r with
  | Some ack => if bool_decide (ack_Message ack = "") then message else ack_Message ack
  | None => message
  end.

(** The pause before the next attempt, in nanoseconds. *)
Definition retry_delay (backoff : Z) (r : SendReply) : Z :=
  match sr_ack r with
  | Some ack => if (0 <? ack_RetryAfterMs ack)%Z then i64 (ack_RetryAfterMs ack * 10 ^ 6) else backoff
  | None => backoff
  end.

Inductive send_outcome := Sent | Rejected | Cancelled.

(** The loop of [sendWithRetry]: the [k]-th attempt gets [replies k], and the
    context is cancelled during the pause after [waits] further attempts. *)
Fixpoint send_loop (waits : nat) (replies : nat → SendReply) (k : nat) (batch : DataBatch) (backoff maxBackoff : Z)
    (s : SenderStats) (delays : list Z) : send_outcome * SenderStats * list Z :=
  let r := replies k in
  if bool_decide (sr_err r = None) && AckCommitted (sr_ack r) then (Sent, recordSent batch s, delays)
  else if AckTerminalRejected (sr_ack r)
  then (Rejected, recordRejected (from_option ack_Message "" (sr_ack r)) s, delays)
  else
    let s := recordRetry (retry_message r) s in
    let delays := delays ++ [retry_delay backoff r] in
    match waits with
    | O => (Cancelled, s, delays)
    | S waits' =>
      let next := i64 (backoff * 2) in
      send_loop waits' replies (S k) batch (if (maxBackoff <? next)%Z then maxBackoff else next) maxBackoff s delays
    end.

Definition sendWithRetry (retryInitial retryMax : Z) (waits : nat) (replies : nat → SendReply) (batch : DataBatch)
    (s : SenderStats) : send_outcome * SenderStats * list Z :=
  let backoff := if (retryInitial <=? 0)%Z then (10 ^ 9)%Z else retryInitial in
  let maxBackoff := if (retryMax <=? 0)%Z then (30 * 10 ^ 9)%Z else retryMax in
  send_loop waits replies 0 batch backoff maxBackoff s [].
End Batcher.
