(* ===== verification/BatcherTheorems.v ===== *)
(** * Theorems about the telemetry batcher and sender

    Events and signals are treated alike: a [Lane] is a kind of frame with
    its counters and the laws the operations satisfy for it, and every
    statement about frames is proved once for any lane. *)

From S2P Require Import Prelude GoStrings GoBytes EventModel DataPlane Batcher.

Module BatcherTheorems.
Import EventModel DataPlane Batcher.

(** ** Lanes *)

Record Lane := MkLane {
  Frame : Type;
  frames : DataBatch → list Frame;
  dropped : BatcherStats → Z;
  flushed : BatcherStats → Z;
  lane_append p q : frames (append_frames p q) = frames p ++ frames q;
  lane_finalize now p : frames (finalizeBatch now p) = frames p;
  lane_count_dropped p msg s : dropped (count_dropped p msg s) = u64 (dropped s + Z.of_nat (length (frames p)));
  lane_dropped_flushed p msg s : flushed (count_dropped p msg s) = flushed s;
  lane_count_flushed p r s : flushed (count_flushed p r s) = u64 (flushed s + Z.of_nat (length (frames p)));
  lane_flushed_dropped p r s : dropped (count_flushed p r s) = dropped s;
  lane_zero : dropped zero_stats = 0%Z ∧ flushed zero_stats = 0%Z;
  lane_close s : dropped (close_stats s) = dropped s ∧ flushed (close_stats s) = flushed s;
  lane_other a b c r s :
    dropped (set_pending a b c s) = dropped s ∧ flushed (set_pending a b c s) = flushed s ∧
    dropped (recordFlushReasonLocked r s) = dropped s ∧ flushed (recordFlushReasonLocked r s) = flushed s
}.

Program Definition event_lane : Lane := {|
  Frame := EventFrame; frames := db_Events; dropped := bs_DroppedEvents; flushed := bs_FlushedEvents |}.
Solve All Obligations with done.

Program Definition signal_lane : Lane := {|
  Frame := SignalFrame; frames := db_Signals; dropped := bs_DroppedSignals; flushed := bs_FlushedSignals |}.
Solve All Obligations with done.

(** ** Histories *)

Section history.
Variable size : DataBatch → Z.
Variable newBatch : Z → DataBatch.

(** A batcher, the batches offered to it, and those taken off its queue. *)
Inductive history : Batcher → list DataBatch → list DataBatch → Prop :=
| h_new batchSize flushInterval queueCapacity maxBytes :
    history (NewBatcher batchSize flushInterval queueCapacity maxBytes) [] []
| h_add now batch b offered received :
    history b offered received → history (Add size newBatch now batch b) (offered ++ [batch]) received
| h_flush now reason b offered received :
    history b offered received → history (Flush now reason b) offered received
| h_reconfigure now items bytes interval b offered received :
    history b offered received → history (Reconfigure now items bytes interval b) offered received
| h_close now reason b offered received :
    history b offered received → history (CloseAndFlush now reason b) offered received
| h_receive b offered received batch b' :
    history b offered received → receive b = Some (batch, b') → history b' offered (received ++ [batch]).

Section lane.
Variable L : Lane.

Definition lane_of (batches : list DataBatch) : list (Frame L) := batches ≫= frames L.
Definition pending_frames (b : Batcher) : list (Frame L) := from_option (frames L) [] (b_pending b).

(** The frames that are queued, taken or pending, in order. *)
Definition kept (b : Batcher) (received : list DataBatch) : list (Frame L) :=
  lane_of (received ++ b_queue b) ++ pending_frames b.

Record lane_inv (b : Batcher) (offered received : list DataBatch) : Prop := {
  li_order : sublist (kept b received) (lane_of offered);
  li_dropped : dropped L (b_stats b) = u64 (Z.of_nat (length (lane_of offered)) - Z.of_nat (length (kept b received)));
  li_flushed : flushed L (b_stats b) = u64 (Z.of_nat (length (lane_of (received ++ b_queue b))))
}.

Lemma lane_of_snoc l x : lane_of (l ++ [x]) = lane_of l ++ frames L x.
Proof. unfold lane_of. rewrite bind_app. cbn. by rewrite app_nil_r. Qed.

(** What [flushLocked] does to the frames: the pending ones move to the
    queue, or are dropped and counted. *)
Lemma lane_inv_flush now reason b offered received :
  lane_inv b offered received → lane_inv (flushLocked now reason b) offered received.
Proof.
  intros [H1 H2 H3]. unfold flushLocked. destruct (b_pending b) as [p|] eqn:Ep.
  2:{ split; [exact H1|exact H2|exact H3]. }
  destruct (_ && _) eqn:Eempty; [split; [exact H1|exact H2|exact H3]|].
  unfold kept, pending_frames in *. rewrite Ep in *. cbn [from_option] in *.
  destruct (length (b_queue b) <? b_capacity b)%nat; cbn [negb b_queue b_pending b_stats from_option].
  all: split; unfold kept, pending_frames; cbn [b_queue b_pending b_stats from_option]; rewrite ?app_nil_r.
  all: repeat match goal with
    | |- context [dropped L (set_pending ?a ?b ?c ?s)] => rewrite (proj1 (lane_other L a b c "" s))
    | |- context [flushed L (set_pending ?a ?b ?c ?s)] => rewrite (proj1 (proj2 (lane_other L a b c "" s)))
    | |- context [dropped L (recordFlushReasonLocked ?r ?s)] => rewrite (proj1 (proj2 (proj2 (lane_other L 0 0 0 r s))))
    | |- context [flushed L (recordFlushReasonLocked ?r ?s)] => rewrite (proj2 (proj2 (proj2 (lane_other L 0 0 0 r s))))
    end.
  - by rewrite app_assoc, lane_of_snoc, lane_finalize.
  - rewrite lane_flushed_dropped, H2. by rewrite app_assoc, lane_of_snoc, lane_finalize.
  - rewrite lane_count_flushed, H3, u64_plus, app_assoc, lane_of_snoc, lane_finalize, length_app. f_equal. lia.
  - etrans; [|exact H1]. by apply sublist_inserts_r.
  - rewrite lane_count_dropped, lane_finalize, H2, u64_plus, length_app. f_equal. lia.
  - by rewrite lane_dropped_flushed.
Qed.

Hypothesis newBatch_empty : ∀ now, frames L (newBatch now) = [].

Lemma lane_inv_add now batch b offered received :
  lane_inv b offered received → lane_inv (Add size newBatch now batch b) (offered ++ [batch]) received.
Proof.
  intros [H1 H2 H3]. unfold Add. destruct (b_closed b) eqn:Ec.
  - split; cbn [b_stats set_stats]; change (kept (set_stats ?s b) received) with (kept b received).
    + rewrite lane_of_snoc. by apply sublist_inserts_r.
    + rewrite lane_count_dropped, H2, u64_plus, lane_of_snoc, length_app. f_equal. lia.
    + by rewrite lane_dropped_flushed.
  - set (p := match b_pending b with Some p => p | None => newBatch now end).
    set (b1 := MkBatcher _ _ _ _ _ (Some (append_frames p batch)) _ _ _ _).
    assert (lane_inv b1 (offered ++ [batch]) received) as Hb1.
    { assert (kept b1 received = kept b received ++ frames L batch) as Hk.
      { unfold kept, pending_frames, b1. cbn [b_queue b_pending from_option]. rewrite lane_append, <- app_assoc. f_equal. f_equal.
        unfold p. destruct (b_pending b); [done|]. apply newBatch_empty. }
      split.
      - rewrite Hk, lane_of_snoc. by apply sublist_app.
      - rewrite Hk, lane_of_snoc, !length_app. unfold b1. cbn [b_stats].
        rewrite (proj1 (lane_other L _ _ _ "" _)), H2. f_equal. lia.
      - unfold b1. cbn [b_stats b_queue]. by rewrite (proj1 (proj2 (lane_other L _ _ _ "" _))). }
    destruct (_ <=? _)%Z; [by apply lane_inv_flush|]. destruct (_ <=? _)%Z; [by apply lane_inv_flush|done].
Qed.

Lemma history_lane_inv b offered received : history b offered received → lane_inv b offered received.
Proof.
  induction 1 as [bs fi qc mb|now batch b offered received _ IH|now reason b offered received _ IH
    |now items bytes interval b offered received _ IH|now reason b offered received _ IH|b offered received batch b' _ IH Hr].
  - destruct (lane_zero L) as [Z1 Z2]. split; cbn; [constructor|by rewrite Z1|by rewrite Z2].
  - by apply lane_inv_add.
  - by apply lane_inv_flush.
  - apply (lane_inv_flush now "policy") in IH as [H1 H2 H3]. split; [exact H1|exact H2|exact H3].
  - unfold CloseAndFlush. destruct (b_closed b); [done|].
    apply (lane_inv_flush now reason) in IH as [H1 H2 H3].
    split; cbn [b_stats b_queue]; [exact H1|by rewrite (proj1 (lane_close L _))|by rewrite (proj2 (lane_close L _))].
  - unfold receive in Hr. destruct (b_queue b) as [|batch0 queue] eqn:Eq; [done|]. injection Hr as <- <-.
    destruct IH as [H1 H2 H3]. unfold kept in *. rewrite Eq in *.
    split; unfold kept; cbn [b_queue b_pending b_stats pending_frames]; rewrite <- app_assoc; done.
Qed.
End lane.

Lemma sublist_full {A} (l1 l2 : list A) : sublist l1 l2 → (length l2 ≤ length l1)%nat → l1 = l2.
Proof.
  induction 1 as [|x l1 l2 _ IH|x l1 l2 Hs _]; cbn; intros Hlen; [done|f_equal; apply IH; lia|].
  apply sublist_length in Hs. lia.
Qed.

(** C33. The batcher loses nothing silently and never reorders: the frames taken
    off the queue, still queued or pending are, in this order, frames that
    were offered; the drop counter is exactly how many are missing; and when
    fewer than 2^64 frames were offered and the counter is zero, they are all
    the offered frames.  It holds for events and for signals. *)
Theorem frames_conserved (L : Lane) b offered received :
  (∀ now, frames L (newBatch now) = []) → history b offered received →
  sublist (kept L b received) (lane_of L offered) ∧
  dropped L (b_stats b) = u64 (Z.of_nat (length (lane_of L offered)) - Z.of_nat (length (kept L b received))) ∧
  flushed L (b_stats b) = u64 (Z.of_nat (length (lane_of L (received ++ b_queue b)))) ∧
  ((Z.of_nat (length (lane_of L offered)) < 2 ^ 64)%Z → dropped L (b_stats b) = 0%Z → kept L b received = lane_of L offered).
Proof.
  intros Hnew [H1 H2 H3]%(history_lane_inv L Hnew). split_and!; [done..|]. intros Hlt Hz.
  apply sublist_full; [done|]. pose proof (sublist_length _ _ H1). rewrite H2, u64_id in Hz; [lia|]. unfold in_u64. lia.
Qed.

(** ** Bounds and finished batches *)

(** A batch as [finalizeBatch] leaves it: not empty, with an id, and a header
    that counts its frames and gives their first and last numbers. *)
Record finished (batch : DataBatch) : Prop := {
  fi_frames : db_Events batch ≠ [] ∨ db_Signals batch ≠ [];
  fi_id : bh_BatchId (GetHeader batch) ≠ "";
  fi_schema : db_SchemaVersion batch = DataPlaneCurrent;
  fi_counts : bh_EventCount (GetHeader batch) = u32 (events_n batch) ∧ bh_SignalCount (GetHeader batch) = u32 (signals_n batch);
  fi_events : ∀ f fs, db_Events batch = f :: fs →
    bh_EventSeqStart (GetHeader batch) = ef_Sequence f ∧ bh_EventSeqEnd (GetHeader batch) = ef_Sequence (List.last fs f)
}.

Lemma last_or_cons {A} (g : A → Z) (x : A) l old : last_or g (x :: l) old = g (List.last l x).
Proof.
  unfold last_or. cbn [length]. replace (S (length l) - 1)%nat with (length l) by lia.
  revert x. induction l as [|y l IH]; intros x; [done|]. cbn [length lookup list_lookup]. rewrite IH.
  f_equal. clear. revert x y. induction l as [|z l IH]; intros x y; [done|].
  change (List.last (z :: l) y = List.last (z :: l) x). by rewrite <- (IH y z), <- (IH x z).
Qed.

Lemma Sprintf_020d_nonempty z : Sprintf_020d z ≠ "".
Proof.
  unfold Sprintf_020d, FormatUint. intros E.
  assert (∀ n m acc, String.length (format_digits n m acc) ≠ 0%nat ∨ acc = "") as Hl.
  { intros n. induction n as [|n IH]; intros m acc; cbn [format_digits]; [destruct acc; auto|].
    left. destruct (m <? 10)%Z; [done|]. by destruct (IH (m / 10)%Z (String (digit (m mod 10)) acc)) as [?|?]. }
  rewrite format_digits_S in E. set (s := if (z <? 10)%Z then _ else _) in E.
  assert (s ≠ "") as Hs.
  { unfold s. destruct (z <? 10)%Z; [done|]. intros E0.
    destruct (Hl 19%nat (z / 10)%Z (String (digit (z mod 10)) "")) as [Hn|?]; [|done]. apply Hn. by rewrite E0. }
  destruct (20 - String.length s)%nat; cbn in E; [done|discriminate].
Qed.

Lemma finished_finalize now p :
  db_Events p ≠ [] ∨ db_Signals p ≠ [] → finished (finalizeBatch now p).
Proof.
  intros Hne. split; [done| |done|done|].
  - cbn. case_bool_decide as E; [apply Sprintf_020d_nonempty|done].
  - intros f fs Hf. cbn in Hf. cbn [finalizeBatch GetHeader db_Header default from_option bh_EventSeqStart bh_EventSeqEnd].
    unfold GetHeader. cbn. rewrite Hf. split; [done|]. apply last_or_cons.
Qed.

Record batcher_ok (b : Batcher) (received : list DataBatch) : Prop := {
  bo_finished : Forall finished (received ++ b_queue b);
  bo_queue : (length (b_queue b) ≤ b_capacity b)%nat
}.

Lemma batcher_ok_flush now reason b received :
  batcher_ok b received → batcher_ok (flushLocked now reason b) received.
Proof.
  intros [H1 H2]. unfold flushLocked. destruct (b_pending b) as [p|]; [|split; [exact H1|exact H2]].
  destruct (bool_decide (db_Events p = []) && bool_decide (db_Signals p = [])) eqn:E; [split; [exact H1|exact H2]|].
  destruct (Nat.ltb_spec (length (b_queue b)) (b_capacity b)) as [Hlt|]; cbn [negb]; split; cbn [b_queue b_capacity]; try done.
  - rewrite app_assoc. apply Forall_app. split; [done|]. constructor; [|constructor]. apply finished_finalize.
    apply andb_false_iff in E as [E|E]; apply bool_decide_eq_false in E; auto.
  - rewrite length_app. cbn. lia.
Qed.

Lemma history_batcher_ok b offered received : history b offered received → batcher_ok b received.
Proof.
  induction 1 as [bs fi qc mb|now batch b offered received _ IH|now reason b offered received _ IH
    |now items bytes interval b offered received _ IH|now reason b offered received _ IH|b offered received batch b' _ IH Hr].
  - split; cbn; [constructor|lia].
  - unfold Add. destruct (b_closed b); [destruct IH as [H1 H2]; split; [exact H1|exact H2]|].
    assert (∀ p bytes armed closed s, batcher_ok (MkBatcher (b_batchSize b) (b_maxBytes b) (b_flushInterval b) (b_capacity b) (b_queue b)
      (Some p) bytes armed closed s) received) as Hb by (intros; destruct IH as [H1 H2]; split; [exact H1|exact H2]).
    destruct (_ <=? _)%Z; [apply batcher_ok_flush, Hb|]. destruct (_ <=? _)%Z; [apply batcher_ok_flush, Hb|apply Hb].
  - by apply batcher_ok_flush.
  - apply (batcher_ok_flush now "policy") in IH as [H1 H2]. split; [exact H1|exact H2].
  - unfold CloseAndFlush. destruct (b_closed b); [done|].
    apply (batcher_ok_flush now reason) in IH as [H1 H2]. split; [exact H1|exact H2].
  - unfold receive in Hr. destruct (b_queue b) as [|batch0 queue] eqn:Eq; [done|]. injection Hr as <- <-.
    destruct IH as [H1 H2]. rewrite Eq in *. split; cbn [b_queue b_capacity]; [by rewrite <- app_assoc|cbn in H2; lia].
Qed.

(** Every batch that reaches the queue is finished (not empty, with an
    id, counts and sequence range in its header) and the queue stays within
    its capacity; after an [Add] on an open batcher that keeps the limits,
    the pending batch is below the limits on frames and bytes. *)
Theorem batches_finished now batch b offered received :
  history b offered received →
  Forall finished (received ++ b_queue b) ∧ (length (b_queue b) ≤ b_capacity b)%nat ∧
  (b_closed b = false →
   match b_pending (Add size newBatch now batch b) with
   | Some p => (events_n p + signals_n p < b_batchSize b)%Z ∧ (b_bytes (Add size newBatch now batch b) < b_maxBytes b)%Z ∨
               (db_Events p = [] ∧ db_Signals p = [])
   | None => True
   end).
Proof.
  intros [H1 H2]%history_batcher_ok. split; [done|]. split; [done|]. intros Hc. unfold Add. rewrite Hc.
  set (p := append_frames _ _). set (b1 := MkBatcher _ _ _ _ _ (Some p) _ _ _ _).
  assert (∀ reason, match b_pending (flushLocked now reason b1) with
    | Some q => q = p ∧ db_Events p = [] ∧ db_Signals p = [] | None => True end) as Hfl.
  { intros reason. unfold flushLocked, b1. cbn [b_pending].
    destruct (bool_decide (db_Events p = [])) eqn:E1, (bool_decide (db_Signals p = [])) eqn:E2; cbn [andb]; try done.
    cbn [b_pending stopTimerLocked]. apply bool_decide_eq_true in E1, E2. done. }
  change (b_batchSize b1) with (b_batchSize b). change (b_maxBytes b1) with (b_maxBytes b).
  destruct (Z.leb_spec (b_batchSize b) (events_n p + signals_n p)) as [|Hlt].
  { specialize (Hfl "count"). destruct (b_pending (flushLocked now "count" b1)); [|done]. destruct Hfl as (-> & ? & ?). by right. }
  destruct (Z.leb_spec (b_maxBytes b) (b_bytes b + size batch)) as [|Hlt2].
  { specialize (Hfl "bytes"). destruct (b_pending (flushLocked now "bytes" b1)); [|done]. destruct Hfl as (-> & ? & ?). by right. }
  cbn [b_pending b1]. left. split; [done|]. unfold b1. cbn [b_bytes]. done.
Qed.
End history.

(** ** The sender *)

Definition accepted (r : SendReply) : bool := bool_decide (sr_err r = None) && AckCommitted (sr_ack r).
Definition final (r : SendReply) : bool := accepted r || AckTerminalRejected (sr_ack r).

(** The first final reply among [replies k], ..., [replies (k + waits)]. *)
Fixpoint first_final (waits : nat) (replies : nat → SendReply) (k : nat) : option nat :=
  if final (replies k) then Some k
  else match waits with O => None | S waits' => first_final waits' replies (S k) end.

Definition outcome_of (replies : nat → SendReply) (k : option nat) : send_outcome :=
  match k with
  | Some k => if accepted (replies k) then Sent else Rejected
  | None => Cancelled
  end.

(** The backoff before the pause after attempt [i]. *)
Definition backoff_at (b0 maxB : Z) (i : nat) : Z := Nat.iter i (λ b, Z.min maxB (b * 2)) b0.

(** The pauses of [n] retries from attempt [k] on. *)
Definition pauses (replies : nat → SendReply) (b0 maxB : Z) (k n : nat) : list Z :=
  (λ i, retry_delay (backoff_at b0 maxB i) (replies (k + i)%nat)) <$> seq 0 n.

Lemma pauses_S replies b0 maxB k n :
  pauses replies b0 maxB k (S n) = retry_delay b0 (replies k) :: pauses replies (Z.min maxB (b0 * 2)) maxB (S k) n.
Proof.
  unfold pauses. cbn [seq fmap list_fmap]. rewrite Nat.add_0_r. f_equal. rewrite <- fmap_S_seq, <- list_fmap_compose.
  apply list_fmap_ext. intros i x _. unfold compose, backoff_at. rewrite Nat.iter_succ_r.
  replace (k + S x)%nat with (S k + x)%nat by lia. done.
Qed.

Definition retries_of (waits k : nat) (first : option nat) : nat :=
  match first with Some j => (j - k)%nat | None => S waits end.

Lemma first_final_ge waits replies k j : first_final waits replies k = Some j → (k ≤ j)%nat.
Proof.
  revert k. induction waits as [|waits IH]; intros k; cbn; destruct (final (replies k)); try done.
  1,2: intros [= <-]; lia. intros Hj%IH. lia.
Qed.

(** A duration whose double is a duration. *)
Definition doubles (d : Z) : Prop := (0 < d < 2 ^ 62)%Z.

Lemma double_backoff backoff maxB :
  doubles backoff → doubles maxB →
  (if (maxB <? i64 (backoff * 2))%Z then maxB else i64 (backoff * 2)) = Z.min maxB (backoff * 2) ∧ doubles (Z.min maxB (backoff * 2)).
Proof.
  unfold doubles. intros Hb Hm. rewrite i64_id by lia. split; [destruct (Z.ltb_spec maxB (backoff * 2)); lia|lia].
Qed.

Lemma send_loop_spec waits replies k batch backoff maxB s delays :
  in_u64 (ss_RetriedBatches s) → doubles backoff → doubles maxB →
  let '(outcome, s', delays') := send_loop waits replies k batch backoff maxB s delays in
  let first := first_final waits replies k in
  let n := retries_of waits k first in
  outcome = outcome_of replies first ∧ delays' = delays ++ pauses replies backoff maxB k n ∧
  ss_RetriedBatches s' = u64 (ss_RetriedBatches s + Z.of_nat n) ∧
  ss_SentBatches s' = match outcome with Sent => u64 (ss_SentBatches s + 1) | _ => ss_SentBatches s end.
Proof.
  intros Hs Hb Hm. revert k backoff s delays Hs Hb. induction waits as [|waits IH]; intros k backoff s delays Hs Hb; cbn [send_loop first_final];
    fold (accepted (replies k)); unfold final; destruct (accepted (replies k)) eqn:Ea; cbn [orb].
  1,3: unfold retries_of; cbn; rewrite Ea, Nat.sub_diag, app_nil_r, Z.add_0_r, u64_id by done; done.
  all: destruct (AckTerminalRejected (sr_ack (replies k))) eqn:Et;
    [unfold retries_of; cbn; rewrite Ea, Nat.sub_diag, app_nil_r, Z.add_0_r, u64_id by done; done|].
  - cbn. unfold pauses. cbn. by rewrite Nat.add_0_r.
  - set (s1 := recordRetry _ s). destruct (double_backoff backoff maxB Hb Hm) as [-> Hb'].
    specialize (IH (S k) (Z.min maxB (backoff * 2)) s1 (delays ++ [retry_delay backoff (replies k)]) (u64_bound _) Hb').
    destruct (send_loop _ _ _ _ _ _ _ _) as [[outcome s'] delays']. destruct IH as (I1 & I2 & I3 & I4).
    assert (retries_of (S waits) k (first_final waits replies (S k)) = S (retries_of waits (S k) (first_final waits replies (S k)))) as Hn.
    { destruct (first_final waits replies (S k)) as [j|] eqn:Ej; cbn; [|done]. apply first_final_ge in Ej. lia. }
    rewrite Hn. split_and!; [done| | |done].
    + by rewrite I2, pauses_S, <- app_assoc.
    + rewrite I3. unfold s1. cbn [ss_RetriedBatches recordRetry]. unfold u64. rewrite Zplus_mod_idemp_l. f_equal. lia.
Qed.

(** C34. The sender tries a batch until a final reply: it counts the batch as
    sent exactly when the first final reply commits it, gives it up when that
    reply is a terminal rejection, and is still retrying when there is none
    before the context ends; when the configured backoffs are below 2^62
    nanoseconds (146 years: above, doubling wraps around in int64,
    [backoff_wraps]), the pauses between the attempts start at the initial
    backoff and double up to the maximum, unless a reply asks for its own. *)
Theorem sender_retries retryInitial retryMax waits replies batch s :
  in_u64 (ss_RetriedBatches s) → (retryInitial < 2 ^ 62)%Z → (retryMax < 2 ^ 62)%Z →
  let '(outcome, s', delays) := sendWithRetry retryInitial retryMax waits replies batch s in
  let first := first_final waits replies 0 in
  let b0 := (if (retryInitial <=? 0)%Z then (10 ^ 9)%Z else retryInitial) in
  let maxB := (if (retryMax <=? 0)%Z then (30 * 10 ^ 9)%Z else retryMax) in
  outcome = outcome_of replies first ∧
  delays = pauses replies b0 maxB 0 (retries_of waits 0 first) ∧
  ss_RetriedBatches s' = u64 (ss_RetriedBatches s + Z.of_nat (retries_of waits 0 first)) ∧
  (ss_SentBatches s' = match outcome with Sent => u64 (ss_SentBatches s + 1) | _ => ss_SentBatches s end).
Proof.
  intros Hs Hi Hm. unfold sendWithRetry.
  pose proof (send_loop_spec waits replies 0 batch (if (retryInitial <=? 0)%Z then (10 ^ 9)%Z else retryInitial)
    (if (retryMax <=? 0)%Z then (30 * 10 ^ 9)%Z else retryMax) s [] Hs) as Hl.
  specialize (Hl ltac:(unfold doubles; destruct (Z.leb_spec retryInitial 0); lia) ltac:(unfold doubles; destruct (Z.leb_spec retryMax 0); lia)).
  destruct (send_loop _ _ _ _ _ _ _ _) as [[outcome s'] delays]. exact Hl.
Qed.

(** ** Concrete runs *)

Definition frame (n : Z) : EventFrame := MkEventFrame n "" None.
Definition batch_of (l : list Z) : DataBatch := MkDataBatch None (frame <$> l) [] "".
Definition empty_batch (now : Z) : DataBatch := MkDataBatch (Some zero_header) [] [] "".
Definition unit_size (_ : DataBatch) : Z := 10.

(** Batches of two frames, a queue for one batch: the second batch is dropped. *)
Definition demo_b1 : Batcher := Add unit_size empty_batch 5 (batch_of [1; 2]%Z) (NewBatcher 2 0 1 0).
Definition demo_b2 : Batcher := Add unit_size empty_batch 6 (batch_of [3]%Z) demo_b1.
Definition demo_b3 : Batcher := Add unit_size empty_batch 7 (batch_of [4]%Z) demo_b2.

Lemma demo_history : history unit_size empty_batch demo_b3 [batch_of [1; 2]%Z; batch_of [3]%Z; batch_of [4]%Z] [].
Proof.
  apply (h_add unit_size empty_batch 7 _ demo_b2 [batch_of [1; 2]%Z; batch_of [3]%Z]).
  apply (h_add unit_size empty_batch 6 _ demo_b1 [batch_of [1; 2]%Z]).
  apply (h_add unit_size empty_batch 5 _ (NewBatcher 2 0 1 0) []). apply h_new.
Qed.

Lemma frames_conserved_witness :
  kept event_lane demo_b3 [] = [frame 1; frame 2] ∧ bs_DroppedEvents (b_stats demo_b3) = 2%Z ∧
  sublist (kept event_lane demo_b3 []) (lane_of event_lane [batch_of [1; 2]%Z; batch_of [3]%Z; batch_of [4]%Z]).
Proof.
  split; [vm_compute; reflexivity|]. split; [vm_compute; reflexivity|].
  refine (proj1 (frames_conserved unit_size empty_batch event_lane demo_b3 _ [] _ demo_history)).
  intros now. reflexivity.
Defined.

Lemma batches_finished_witness :
  length (b_queue demo_b3) = 1%nat ∧ Forall finished ([] ++ b_queue demo_b3).
Proof.
  split; [vm_compute; reflexivity|].
  exact (proj1 (batches_finished unit_size empty_batch 8 (batch_of [5]%Z) demo_b3 _ [] demo_history)).
Defined.

(** Two failures, then an acceptance. *)
Definition demo_replies (k : nat) : SendReply :=
  match k with
  | O | 1%nat => MkSendReply (Some "unavailable") None
  | _ => MkSendReply None (Some (MkDataAck "" false "" STATUS_ACCEPTED "" "" "" 0 0 false 0 false 0 0 ""))
  end.

Lemma sender_retries_witness :
  let '(outcome, s', delays) :=
    sendWithRetry 0 0 5 demo_replies (batch_of [1]%Z) (MkSenderStats 0 0 0 0 0 "" false) in
  outcome = Sent ∧ delays = [10 ^ 9; 2 * 10 ^ 9]%Z ∧ ss_RetriedBatches s' = 2%Z.
Proof.
  pose proof (sender_retries 0 0 5 demo_replies (batch_of [1]%Z) (MkSenderStats 0 0 0 0 0 "" false)) as Hspec.
  destruct (sendWithRetry 0 0 5 demo_replies (batch_of [1]%Z) (MkSenderStats 0 0 0 0 0 "" false)) as [[outcome s'] delays].
  destruct Hspec as (-> & -> & -> & _).
  - unfold in_u64. cbn. lia.
  - lia.
  - lia.
  - vm_compute. split; [reflexivity|]. split; reflexivity.
Defined.

(** Above 2^62 nanoseconds the doubled backoff is negative: no pause at all. *)
Lemma backoff_wraps :
  (sendWithRetry (2 ^ 62) (2 ^ 63 - 1) 5 demo_replies (batch_of [1]%Z) (MkSenderStats 0 0 0 0 0 "" false)).2 = [2 ^ 62; - 2 ^ 63]%Z.
Proof. vm_compute. reflexivity. Qed.
End BatcherTheorems.
