(* ===== verification/Bus.v ===== *)
(** * The local telemetry bus ([internal/agent/telemetry/bus.go])

    Published frames go to a bounded history and to the channels of the
    watchers; a watcher whose channel is full is cut off.  Events and signals
    have separate histories and watchers of the same shape (a [lane]); watcher
    numbers are shared.  The mutex makes every operation atomic.

    A watcher's channel outlives its registration: the receiver drains what
    was buffered before the channel was closed. *)

From S2P Require Import Prelude GoStrings EventModel DataPlane.

Module Bus.
Import EventModel DataPlane.

Definition defaultBusCapacity : Z := 4096.
Definition watcherBuffer : nat := 256.

(** A channel of a watcher; it is open as long as it is registered. *)
Record channel (F : Type) := MkChannel { ch_buffer : list F; ch_open : bool }.
Arguments MkChannel {F} _ _.
Arguments ch_buffer {F} _.
Arguments ch_open {F} _.

Record lane (F : Type) := MkLane {
  ln_frames : list F;
  ln_watchers : gmap Z (channel F);
  ln_published : Z;
  ln_dropped : Z
}.
Arguments MkLane {F} _ _ _ _.
Arguments ln_frames {F} _.
Arguments ln_watchers {F} _.
Arguments ln_published {F} _.
Arguments ln_dropped {F} _.

Record Bus := MkBus {
  bus_capacity : nat;
  bus_events : lane EventFrame;
  bus_signals : lane SignalFrame;
  bus_nextWatcherID : Z
}.

Definition empty_lane {F} : lane F := MkLane [] ∅ 0 0.

Definition NewBus (capacity : Z) : Bus :=
  MkBus (Z.to_nat (if (capacity <=? 0)%Z then defaultBusCapacity else capacity)) empty_lane empty_lane 0.

Section lane.
Context {F : Type}.

(** The send in the loop over the watchers: a full channel is closed. *)
Definition offer (frame : F) (ch : channel F) : channel F :=
  if ch_open ch then
    if (length (ch_buffer ch) <? watcherBuffer)%nat then MkChannel (ch_buffer ch ++ [frame]) true
    else MkChannel (ch_buffer ch) false
  else ch.

Definition publish (capacity : nat) (frame : F) (l : lane F) : lane F :=
  let full := (capacity <=? length (ln_frames l))%nat in
  MkLane (if full then drop 1 (ln_frames l) ++ [frame] else ln_frames l ++ [frame])
    (offer frame <$> ln_watchers l) (u64 (ln_published l + 1))
    (if full then u64 (ln_dropped l + 1) else ln_dropped l).

Definition subscribe (id : Z) (l : lane F) : lane F :=
  MkLane (ln_frames l) (<[id := MkChannel [] true]> (ln_watchers l)) (ln_published l) (ln_dropped l).

(** The end of the watcher's context. *)
Definition unsubscribe (id : Z) (l : lane F) : lane F :=
  MkLane (ln_frames l) (alter (λ ch, MkChannel (ch_buffer ch) false) id (ln_watchers l)) (ln_published l) (ln_dropped l).

(** A receive by the watcher [id]. *)
Definition take_frame (id : Z) (l : lane F) : option (F * lane F) :=
  match ln_watchers l !! id with
  | Some (MkChannel (frame :: buffer) open) =>
    Some (frame, MkLane (ln_frames l) (<[id := MkChannel buffer open]> (ln_watchers l)) (ln_published l) (ln_dropped l))
  | _ => None
  end.

(** The number of registered watchers. *)
Definition subscribers (l : lane F) : Z := Z.of_nat (size (filter (λ '(_, ch), ch_open ch = true) (ln_watchers l))).
End lane.

Definition PublishEvent (frame : EventFrame) (b : Bus) : Bus :=
  MkBus (bus_capacity b) (publish (bus_capacity b) frame (bus_events b)) (bus_signals b) (bus_nextWatcherID b).
Definition PublishSignal (frame : SignalFrame) (b : Bus) : Bus :=
  MkBus (bus_capacity b) (bus_events b) (publish (bus_capacity b) frame (bus_signals b)) (bus_nextWatcherID b).

Definition PublishBatch (batch : DataBatch) (b : Bus) : Bus :=
  foldl (λ b f, PublishSignal f b) (foldl (λ b f, PublishEvent f b) b (db_Events batch)) (db_Signals batch).

Definition SnapshotEvents (b : Bus) : list EventFrame := ln_frames (bus_events b).
Definition SnapshotSignals (b : Bus) : list SignalFrame := ln_frames (bus_signals b).

Definition WatchEvents (b : Bus) : Z * Bus :=
  let id := u64 (bus_nextWatcherID b + 1) in
  (id, MkBus (bus_capacity b) (subscribe id (bus_events b)) (bus_signals b) id).
Definition WatchSignals (b : Bus) : Z * Bus :=
  let id := u64 (bus_nextWatcherID b + 1) in
  (id, MkBus (bus_capacity b) (bus_events b) (subscribe id (bus_signals b)) id).

Record BusStats := MkBusStats {
  st_EventCapacity : Z; st_EventBuffered : Z; st_EventNextSequence : Z; st_EventOldestSequence : Z;
  st_EventNewestSequence : Z; st_EventDropped : Z; st_EventSubscribers : Z;
  st_SignalCapacity : Z; st_SignalBuffered : Z; st_SignalNextSequence : Z; st_SignalOldestSequence : Z;
  st_SignalNewestSequence : Z; st_SignalDropped : Z; st_SignalSubscribers : Z
}.

Definition oldest {F} (seq : F → Z) (l : list F) : Z := from_option seq 0%Z (l !! 0%nat).
Definition newest {F} (seq : F → Z) (l : list F) : Z := from_option seq 0%Z (l !! (length l - 1)%nat).
Definition next_sequence {F} (seq : F → Z) (l : list F) : Z :=
  match l with [] => 0%Z | _ => u64 (newest seq l + 1) end.

Definition Stats (b : Bus) : BusStats :=
  let ev := ln_frames (bus_events b) in
  let sg := ln_frames (bus_signals b) in
  MkBusStats (Z.of_nat (bus_capacity b)) (Z.of_nat (length ev)) (next_sequence ef_Sequence ev) (oldest ef_Sequence ev)
    (newest ef_Sequence ev) (ln_dropped (bus_events b)) (subscribers (bus_events b))
    (Z.of_nat (bus_capacity b)) (Z.of_nat (length sg)) (next_sequence sf_Sequence sg) (oldest sf_Sequence sg)
    (newest sf_Sequence sg) (ln_dropped (bus_signals b)) (subscribers (bus_signals b)).

(** ** Histories of a lane *)

Section history.
Context {F : Type}.
Variable capacity : nat.
Hypothesis capacity_pos : (0 < capacity)%nat.

(** A lane, all frames published on it, and for every watcher how many frames
    had been published when it registered and what it has received. *)
Inductive lane_history : lane F → list F → gmap Z (nat * list F) → Prop :=
| lh_new : lane_history empty_lane [] ∅
| lh_publish frame l published seen :
    lane_history l published seen → lane_history (publish capacity frame l) (published ++ [frame]) seen
| lh_subscribe id l published seen :
    lane_history l published seen → seen !! id = None →
    lane_history (subscribe id l) published (<[id := (length published, [])]> seen)
| lh_unsubscribe id l published seen :
    lane_history l published seen → lane_history (unsubscribe id l) published seen
| lh_take id l published seen start got frame l' :
    lane_history l published seen → seen !! id = Some (start, got) → take_frame id l = Some (frame, l') →
    lane_history l' published (<[id := (start, got ++ [frame])]> seen).

(** What a watcher got and still finds in its channel, against what was
    published since it registered. *)
Definition watcher_ok (published : list F) (ch : channel F) (w : nat * list F) : Prop :=
  (w.1 ≤ length published)%nat ∧
  if ch_open ch then w.2 ++ ch_buffer ch = drop w.1 published
  else ∃ k, w.2 ++ ch_buffer ch = take k (drop w.1 published).

Record lane_ok (l : lane F) (published : list F) (seen : gmap Z (nat * list F)) : Prop := {
  lk_frames : ln_frames l = drop (length published - capacity) published;
  lk_dropped : ln_dropped l = u64 (Z.of_nat (length published - capacity));
  lk_watchers : ∀ id, match ln_watchers l !! id, seen !! id with
                      | Some ch, Some w => watcher_ok published ch w
                      | None, None => True
                      | _, _ => False
                      end
}.

Lemma watcher_ok_offer published frame ch w :
  watcher_ok published ch w → watcher_ok (published ++ [frame]) (offer frame ch) w.
Proof.
  intros [Hs Hw]. unfold offer, watcher_ok. rewrite length_app. split; [lia|]. rewrite drop_app_le by done.
  destruct (ch_open ch) eqn:Eo.
  - destruct (_ <? _)%nat; cbn [ch_open ch_buffer].
    + by rewrite app_assoc, Hw.
    + exists (length (drop w.1 published)). by rewrite take_app_length, Hw.
  - rewrite Eo. destruct Hw as [k Hw]. exists (k `min` length (drop w.1 published))%nat.
    rewrite take_app_le by lia. rewrite Hw, <- take_take. f_equal. symmetry. by apply take_ge.
Qed.

Lemma lane_ok_publish frame l published seen :
  lane_ok l published seen → lane_ok (publish capacity frame l) (published ++ [frame]) seen.
Proof.
  intros [H1 H2 H3]. assert (length (ln_frames l) = length published `min` capacity)%nat as Hlen
    by (rewrite H1, length_drop; lia).
  split; cbn [publish ln_frames ln_dropped ln_watchers].
  - rewrite Hlen, length_app. cbn [length]. destruct (Nat.leb_spec capacity (length published `min` capacity)) as [Hf|Hf].
    + rewrite H1, drop_drop. rewrite drop_app_le by lia. f_equal. f_equal. lia.
    + rewrite H1. replace (length published - capacity)%nat with 0%nat by lia.
      replace (length published + 1 - capacity)%nat with 0%nat by lia. by rewrite !drop_0.
  - rewrite Hlen, length_app. cbn [length]. destruct (Nat.leb_spec capacity (length published `min` capacity)) as [Hf|Hf].
    + rewrite H2. unfold u64. rewrite Zplus_mod_idemp_l. f_equal. lia.
    + rewrite H2. do 2 f_equal. lia.
  - intros id. rewrite lookup_fmap. specialize (H3 id). destruct (ln_watchers l !! id); [|done]. cbn.
    destruct (seen !! id); [|done]. by apply watcher_ok_offer.
Qed.

Lemma lane_history_ok l published seen : lane_history l published seen → lane_ok l published seen.
Proof.
  induction 1 as [|frame l published seen _ IH|id l published seen _ [H1 H2 H3] Hnew|id l published seen _ [H1 H2 H3]
    |id l published seen start got frame l' _ [H1 H2 H3] Hseen Htake].
  - split; [done|done|]. intros id. cbn. by rewrite !lookup_empty.
  - by apply lane_ok_publish.
  - split; [done|done|]. intros id'. cbn. destruct (decide (id' = id)) as [->|Hne].
    + rewrite !lookup_insert_eq. split; [done|]. cbn. by rewrite drop_all.
    + rewrite !lookup_insert_ne by done. apply H3.
  - split; [done|done|]. intros id'. cbn. specialize (H3 id'). destruct (decide (id' = id)) as [->|Hne].
    + rewrite lookup_alter_eq. destruct (ln_watchers l !! id) as [ch|]; [|done]. cbn.
      destruct (seen !! id) as [w|]; [|done]. destruct H3 as [Hs Hw]. split; [done|]. cbn.
      destruct (ch_open ch); [|done]. exists (length (drop w.1 published)). by rewrite Hw, take_ge.
    + by rewrite lookup_alter_ne.
  - unfold take_frame in Htake. pose proof (H3 id) as Hid. rewrite Hseen in Hid.
    destruct (ln_watchers l !! id) as [[[|f buffer] open]|] eqn:Ew; try done. injection Htake as <- <-.
    split; [done|done|]. intros id'. cbn. destruct (decide (id' = id)) as [->|Hne].
    + rewrite !lookup_insert_eq. destruct Hid as [Hs Hw]. split; [done|]. cbn in *. by rewrite <- app_assoc.
    + rewrite !lookup_insert_ne by done. apply H3.
Qed.

(** C35. The bus keeps the last frames and its watchers see no gaps: the history
    of a lane is the last [capacity] frames published, the drop counter is how
    many fell out, a registered watcher has received or buffered exactly the
    frames published since it registered, in order, and one that was cut off
    an initial part of them. *)
Theorem watchers_see_no_gaps l published seen :
  lane_history l published seen →
  ln_frames l = drop (length published - capacity) published ∧
  ln_dropped l = u64 (Z.of_nat (length published - capacity)) ∧
  ∀ id ch start got, ln_watchers l !! id = Some ch → seen !! id = Some (start, got) →
    if ch_open ch then got ++ ch_buffer ch = drop start published
    else ∃ k, got ++ ch_buffer ch = take k (drop start published).
Proof.
  intros [H1 H2 H3]%lane_history_ok. split; [done|]. split; [done|]. intros id ch start got Hch Hseen.
  specialize (H3 id). rewrite Hch, Hseen in H3. by destruct H3.
Qed.
End history.

(** A watcher that registered after the first frame and has taken one. *)
Definition demo_lane : lane nat :=
  publish 2 13 (publish 2 12 (subscribe 1 (publish 2 11 empty_lane)))%nat.

Lemma watchers_see_no_gaps_witness :
  ln_frames demo_lane = [12; 13]%nat ∧
  (∃ ch, ln_watchers demo_lane !! 1%Z = Some ch ∧ ch_open ch = true ∧ [] ++ ch_buffer ch = drop 1 [11; 12; 13]%nat).
Proof.
  assert (Hh : lane_history 2 demo_lane [11; 12; 13]%nat {[1%Z := (1%nat, [])]}).
  { apply (lh_publish 2 13%nat _ [11; 12]%nat). apply (lh_publish 2 12%nat _ [11]%nat).
    apply (lh_subscribe 2 1 _ [11]%nat ∅); [|reflexivity]. apply (lh_publish 2 11%nat _ []). apply lh_new. }
  destruct (watchers_see_no_gaps 2 ltac:(lia) demo_lane [11; 12; 13]%nat _ Hh) as (Hf & _ & Hw).
  split; [exact Hf|]. exists (MkChannel [12; 13]%nat true).
  assert (Hch : ln_watchers demo_lane !! 1%Z = Some (MkChannel [12; 13]%nat true)) by (vm_compute; reflexivity).
  split; [exact Hch|]. split; [reflexivity|].
  exact (Hw 1%Z (MkChannel [12; 13]%nat true) 1%nat [] Hch eq_refl).
Defined.
End Bus.
