(* ===== verification/GoData.v ===== *)
(** * Records, times and sorting

    What the control-plane code uses of Go's structs, [time] and [sort]:
    assignment to a field of a struct as a record update, instants with their
    zero value, and [sort.Slice], whose order of equal elements Go leaves
    open. *)

From S2P Require Import Prelude GoStrings.

(** ** Assignment to a field

    [r <| f := v |>] is the record [r] after [r.f = v].  The eta expansion of
    a record type, an instance of [Settable], is the template from which the
    update of each field is computed. *)

Class Settable (R : Type) := eta_expand : R → R.
Class Field {R E : Type} (proj : R → E) := assign : (E → E) → R → R.

Ltac derive_field proj :=
  lazymatch type of proj with
  | ?R → _ =>
    let inst := constr:(_ : Settable R) in
    let body := eval hnf in inst in
    lazymatch eval pattern proj in body with
    | ?template _ =>
      let upd := eval cbv beta in (λ f, template (λ r, f (proj r))) in exact upd
    end
  end.

Global Hint Extern 1 (Field ?proj) => derive_field proj : typeclass_instances.

Notation "r <| proj := v |>" := (assign (proj := proj) (λ _, v) r)
  (at level 8, left associativity, v at level 99, format "r  <| proj  :=  v |>") : sysarmor_scope.
Notation "r <| proj ::= f |>" := (assign (proj := proj) f r)
  (at level 8, left associativity, f at level 99, format "r  <| proj  ::=  f |>") : sysarmor_scope.

(** [if cond { r.f = v }] *)
Notation "r <| proj := v 'when' b |>" := (assign (proj := proj) (λ x, if b then v else x) r)
  (at level 8, left associativity, v at level 99, b at level 99,
   format "r  <| proj  :=  v  'when'  b |>") : sysarmor_scope.

(** ** Instants

    A [time.Time] is its distance in nanoseconds from the zero time, the
    first instant of the year 1. *)

Definition Time : Type := Z.
Definition zero_time : Time := 0%Z.
Definition IsZero (t : Time) : bool := (t =? 0)%Z.
Definition Before (t u : Time) : bool := (t <? u)%Z.
Definition After (t u : Time) : bool := (u <? t)%Z.

(** From the year 1 to 1970: 719162 days *)
Definition unix_epoch : Z := (719162 * 86400 * 10 ^ 9)%Z.
Definition UnixNano (t : Time) : Z := i64 (t - unix_epoch).

(** [fmt.Sprintf("%d", z)] for an [int64] *)
Definition FormatInt (z : Z) : string :=
  if (z <? 0)%Z then "-" +:+ FormatUint (- z) else FormatUint z.

(** ** [sort.Slice]

    The slice is permuted so that no element is less than an earlier one;
    nothing is promised about equal elements, so the function is a parameter
    and every theorem holds for any that keeps the promise. *)

Definition no_inversion {A} (less : A → A → bool) (l : list A) : Prop :=
  ∀ i j x y, (i < j)%nat → l !! i = Some x → l !! j = Some y → less y x = false.

(** What [sort.Slice] asks of [less]: a strict weak order. *)
Record strict_weak {A} (less : A → A → bool) : Prop := {
  less_asym x y : less x y = true → less y x = false;
  less_cotrans x y z : less x z = true → less x y = true ∨ less y z = true
}.

Class SliceSort := {
  sort_slice {A} (less : A → A → bool) : list A → list A;
  sort_slice_perm {A} (less : A → A → bool) l : sort_slice less l ≡ₚ l;
  sort_slice_sorted {A} (less : A → A → bool) l : strict_weak less → no_inversion less (sort_slice less l)
}.

(** Insertion sort is such a function; Go uses it for short slices. *)
Section insertion_sort.
Context {A : Type} (less : A → A → bool).

Fixpoint insert_before (x : A) (l : list A) : list A :=
  match l with
  | [] => [x]
  | y :: l' => if less y x then y :: insert_before x l' else x :: l
  end.

Definition insertion_sort (l : list A) : list A := foldr insert_before [] l.

Lemma insert_before_perm x l : insert_before x l ≡ₚ x :: l.
Proof.
  induction l as [|y l IH]; [done|]. cbn. case_match; [|done]. rewrite IH. apply Permutation_swap.
Qed.

Lemma insertion_sort_perm l : insertion_sort l ≡ₚ l.
Proof. induction l as [|x l IH]; [done|]. cbn. by rewrite insert_before_perm, IH. Qed.

Lemma no_inversion_cons x l :
  no_inversion less (x :: l) ↔ (∀ y, y ∈ l → less y x = false) ∧ no_inversion less l.
Proof.
  split.
  - intros Hl. split.
    + intros y [i Hi]%list_elem_of_lookup. apply (Hl 0%nat (S i)); [lia|done..].
    + intros i j a b Hij Ha Hb. apply (Hl (S i) (S j)); [lia|done..].
  - intros [Hx Hl] [|i] [|j] a b Hij Ha Hb; [lia| |lia|].
    + cbn in Ha. simplify_eq. apply Hx. by eapply list_elem_of_lookup_2.
    + apply (Hl i j); [lia|done..].
Qed.

Hypothesis Hless : strict_weak less.

(** [y] not less than [x] and [z] not less than [y] give [z] not less than [x]. *)
Lemma not_less_trans x y z : less y x = false → less z y = false → less z x = false.
Proof.
  intros H1 H2. destruct (less z x) eqn:E; [|done].
  destruct (less_cotrans _ Hless z y x E); congruence.
Qed.

Lemma insert_before_sorted x l : no_inversion less l → no_inversion less (insert_before x l).
Proof.
  induction l as [|y l IH]; intros Hl.
  { apply no_inversion_cons. split; [by intros ? ?%elem_of_nil|done]. }
  apply no_inversion_cons in Hl as [Hy Hl]. cbn. destruct (less y x) eqn:E.
  - apply no_inversion_cons. split; [|by apply IH].
    intros z. rewrite insert_before_perm. intros [->|Hz]%elem_of_cons; [|by apply Hy].
    by apply (less_asym _ Hless).
  - apply no_inversion_cons. split; [|by apply no_inversion_cons].
    intros z [->|Hz]%elem_of_cons; [done|]. apply (not_less_trans x y z); [done|by apply Hy].
Qed.

Lemma insertion_sort_sorted l : no_inversion less (insertion_sort l).
Proof.
  induction l as [|x l IH]; [by intros ???? ?; rewrite ?lookup_nil|]. by apply insert_before_sorted.
Qed.
End insertion_sort.

Definition insertion_SliceSort : SliceSort := {|
  sort_slice A less l := insertion_sort less l;
  sort_slice_perm A less l := insertion_sort_perm less l;
  sort_slice_sorted A less l H := insertion_sort_sorted less H l
|}.

(** Comparing by a number is a strict weak order. *)
Lemma strict_weak_key {A} (key : A → Z) : strict_weak (λ x y, (key x <? key y)%Z).
Proof.
  split; intros; rewrite ?Z.ltb_lt, ?Z.ltb_ge in *; [lia|].
  destruct (Z.ltb_spec (key x) (key y)); [by left|right]. lia.
Qed.

Lemma elem_of_sort_slice `{SliceSort} {A} (less : A → A → bool) l x : x ∈ sort_slice less l ↔ x ∈ l.
Proof. by rewrite sort_slice_perm. Qed.

(** ** [sort.Strings]

    Strings are compared byte by byte.  The order is total, so the sorted
    permutation is unique and insertion sort computes it. *)

Fixpoint string_ltb (a b : string) : bool :=
  match a, b with
  | "", "" => false
  | "", _ => true
  | _, "" => false
  | String x a', String y b' =>
    (byte_val x <? byte_val y)%Z || ((byte_val x =? byte_val y)%Z && string_ltb a' b')
  end.

Definition sort_strings (l : list string) : list string := insertion_sort string_ltb l.

Lemma byte_val_inj x y : byte_val x = byte_val y → x = y.
Proof.
  unfold byte_val. intros H. rewrite <- (Ascii.ascii_N_embedding x), <- (Ascii.ascii_N_embedding y).
  f_equal. lia.
Qed.

Lemma string_ltb_irrefl a : string_ltb a a = false.
Proof. induction a as [|x a IH]; [done|]. cbn. rewrite Z.ltb_irrefl, Z.eqb_refl, IH. done. Qed.

Lemma string_ltb_total a b : string_ltb a b = false → string_ltb b a = false → a = b.
Proof.
  revert b. induction a as [|x a IH]; intros [|y b]; cbn; try done.
  destruct (Z.ltb_spec (byte_val x) (byte_val y)), (Z.ltb_spec (byte_val y) (byte_val x)); try done; cbn [orb].
  assert (byte_val x = byte_val y) as Hxy by lia. rewrite Hxy, Z.eqb_refl. cbn [andb].
  intros Ha Hb. f_equal; [by apply byte_val_inj|by apply IH].
Qed.

Lemma string_ltb_weak : strict_weak string_ltb.
Proof.
  split.
  - induction x as [|x a IH]; intros [|y b]; cbn; try done.
    destruct (Z.ltb_spec (byte_val x) (byte_val y)), (Z.ltb_spec (byte_val y) (byte_val x)); try done; try lia; cbn [orb].
    assert (byte_val x = byte_val y) as Hxy by lia. rewrite Hxy, Z.eqb_refl. cbn [andb]. apply IH.
  - induction x as [|x a IH]; intros [|y b] [|z c]; cbn; try done; try tauto.
    destruct (Z.ltb_spec (byte_val x) (byte_val z)), (Z.ltb_spec (byte_val x) (byte_val y)),
      (Z.ltb_spec (byte_val y) (byte_val z)), (Z.eqb_spec (byte_val x) (byte_val y)),
      (Z.eqb_spec (byte_val y) (byte_val z)), (Z.eqb_spec (byte_val x) (byte_val z)); cbn; try tauto; try lia.
    intros Hac. by apply IH.
Qed.

(** Two permutations without inversions are equal. *)
Lemma no_inversion_unique l1 l2 :
  no_inversion string_ltb l1 → no_inversion string_ltb l2 → l1 ≡ₚ l2 → l1 = l2.
Proof.
  revert l2. induction l1 as [|x l1 IH]; intros l2 H1 H2 Hp; [by apply Permutation_nil_l in Hp as ->|].
  destruct l2 as [|y l2]; [by apply Permutation_nil_r in Hp|].
  apply no_inversion_cons in H1 as [Hx H1], H2 as [Hy H2].
  assert (x = y) as ->.
  { assert (x ∈ y :: l2) as Hin by (rewrite <- Hp; left). assert (y ∈ x :: l1) as Hin' by (rewrite Hp; left).
    apply elem_of_cons in Hin as [->|Hin]; [done|]. apply elem_of_cons in Hin' as [->|Hin']; [done|].
    apply string_ltb_total; [by apply Hy|by apply Hx]. }
  f_equal. apply IH; [done..|]. by apply Permutation_cons_inv in Hp.
Qed.

Lemma sort_strings_perm l : sort_strings l ≡ₚ l.
Proof. apply insertion_sort_perm. Qed.

(** The result depends on the elements only, not on their order. *)
Lemma sort_strings_ext l1 l2 : l1 ≡ₚ l2 → sort_strings l1 = sort_strings l2.
Proof.
  intros Hp. apply no_inversion_unique; [apply insertion_sort_sorted, string_ltb_weak..|]. by rewrite !sort_strings_perm.
Qed.

Lemma filter_none {A} (P : A → Prop) `{∀ x, Decision (P x)} l : (∀ x, x ∈ l → ¬ P x) → filter P l = [].
Proof.
  induction l as [|x l IH]; intros Hl; [done|]. rewrite filter_cons, decide_False by (apply Hl; left).
  apply IH. intros y Hy. apply Hl. by right.
Qed.

(** ** Updating a slice in a loop

    [for i, x := range l { if p(x) { l[i] = f(x); return } }; l = append(l, new)]
    is the shape of every insert-or-replace of the store. *)

Section upsert.
Context {A : Type} (p : A → bool).

Fixpoint replace_first (f : A → A) (l : list A) : option (list A) :=
  match l with
  | [] => None
  | x :: l' => if p x then Some (f x :: l') else cons x <$> replace_first f l'
  end.

Definition upsert (f : A → A) (new : A) (l : list A) : list A := default (l ++ [new]) (replace_first f l).

(** [for _, x := range l { if p(x) { return x, true } }] *)
Definition find_first (l : list A) : option A := List.find p l.

Lemma replace_first_spec f l :
  match replace_first f l with
  | Some l' => ∃ l1 x l2, l = l1 ++ x :: l2 ∧ l' = l1 ++ f x :: l2 ∧ p x = true ∧ Forall (λ y, p y = false) l1
  | None => Forall (λ y, p y = false) l
  end.
Proof.
  induction l as [|x l IH]; [constructor|]. cbn. destruct (p x) eqn:E.
  - exists [], x, l. repeat split; [done..|constructor].
  - destruct (replace_first f l) as [l'|]; cbn.
    + destruct IH as (l1 & y & l2 & -> & -> & Hy & Hl). exists (x :: l1), y, l2. repeat split; [done|by constructor].
    + by constructor.
Qed.

Lemma find_first_spec l :
  match find_first l with
  | Some x => ∃ l1 l2, l = l1 ++ x :: l2 ∧ p x = true ∧ Forall (λ y, p y = false) l1
  | None => Forall (λ y, p y = false) l
  end.
Proof.
  induction l as [|x l IH]; [constructor|]. cbn. destruct (p x) eqn:E.
  - exists [], l. repeat split; [done|constructor].
  - unfold find_first in IH. destruct (List.find p l) as [y|].
    + destruct IH as (l1 & l2 & -> & Hy & Hl). exists (x :: l1), l2. repeat split; [done|by constructor].
    + by constructor.
Qed.

(** What holds of the old elements, the replacement and the new one holds of all. *)
Lemma replace_first_Forall (P : A → Prop) f l l' :
  replace_first f l = Some l' → (∀ x, x ∈ l → p x = true → P x → P (f x)) → Forall P l → Forall P l'.
Proof.
  intros E Hf Hl. pose proof (replace_first_spec f l) as Hs. rewrite E in Hs.
  destruct Hs as (l1 & x & l2 & -> & -> & Hx & _). apply Forall_app in Hl as [H1 [H2 H3]%Forall_cons_iff].
  apply Forall_app. split; [done|]. constructor; [|done]. apply Hf; [set_solver|done..].
Qed.

Lemma upsert_Forall (P : A → Prop) f new l :
  (∀ x, x ∈ l → p x = true → P x → P (f x)) → (Forall (λ y, p y = false) l → P new) → Forall P l →
  Forall P (upsert f new l).
Proof.
  intros Hf Hn Hl. unfold upsert. pose proof (replace_first_spec f l) as Hs.
  destruct (replace_first f l) eqn:E; cbn.
  - by eapply replace_first_Forall.
  - apply Forall_app. split; [done|]. constructor; [by apply Hn|constructor].
Qed.

(** Keys stay distinct when a replacement keeps the key and the new element
    has the key looked for. *)
Lemma upsert_NoDup {K} (key : A → K) f new l :
  (∀ x, x ∈ l → p x = true → key (f x) = key x) → (∀ x, p x = false → key x ≠ key new) →
  NoDup (key <$> l) → NoDup (key <$> upsert f new l).
Proof.
  intros Hf Hn Hl. unfold upsert. pose proof (replace_first_spec f l) as Hs.
  destruct (replace_first f l) as [l'|] eqn:E; cbn.
  - destruct Hs as (l1 & x & l2 & -> & -> & Hx & _).
    rewrite fmap_app, fmap_cons, Hf, <- fmap_cons, <- fmap_app by (set_solver || done). done.
  - rewrite fmap_app. apply list.NoDup_app. split; [done|]. split; [|apply NoDup_singleton].
    intros k Hk%list_elem_of_fmap. destruct Hk as (x & -> & Hx). intros Hk%list_elem_of_singleton.
    apply (Hn x); [|done]. by eapply list.Forall_forall in Hs.
Qed.
End upsert.
