(* ===== verification/GoSha.v ===== *)
(** * SHA-256 and hexadecimal ([crypto/sha256], [encoding/hex])

    The digest of FIPS 180-4 on a message of bytes: padding to blocks of 64
    bytes, the message schedule and 64 rounds on eight 32-bit words.  The
    examples at the end are the standard's test messages. *)

From S2P Require Import Prelude GoStrings.

Section sha256.
Local Open Scope Z_scope.

Definition rotr (x n : Z) : Z := Z.lor (Z.shiftr x n) (u32 (Z.shiftl x (32 - n))).
Definition not32 (x : Z) : Z := Z.lxor x (2 ^ 32 - 1).

Definition big_sigma0 (x : Z) : Z := Z.lxor (rotr x 2) (Z.lxor (rotr x 13) (rotr x 22)).
Definition big_sigma1 (x : Z) : Z := Z.lxor (rotr x 6) (Z.lxor (rotr x 11) (rotr x 25)).
Definition small_sigma0 (x : Z) : Z := Z.lxor (rotr x 7) (Z.lxor (rotr x 18) (Z.shiftr x 3)).
Definition small_sigma1 (x : Z) : Z := Z.lxor (rotr x 17) (Z.lxor (rotr x 19) (Z.shiftr x 10)).
Definition choose (x y z : Z) : Z := Z.lxor (Z.land x y) (Z.land (not32 x) z).
Definition majority (x y z : Z) : Z := Z.lxor (Z.land x y) (Z.lxor (Z.land x z) (Z.land y z)).

Definition round_constants : list Z :=
  [1116352408; 1899447441; 3049323471; 3921009573; 961987163; 1508970993; 2453635748; 2870763221;
   3624381080; 310598401; 607225278; 1426881987; 1925078388; 2162078206; 2614888103; 3248222580;
   3835390401; 4022224774; 264347078; 604807628; 770255983; 1249150122; 1555081692; 1996064986;
   2554220882; 2821834349; 2952996808; 3210313671; 3336571891; 3584528711; 113926993; 338241895;
   666307205; 773529912; 1294757372; 1396182291; 1695183700; 1986661051; 2177026350; 2456956037;
   2730485921; 2820302411; 3259730800; 3345764771; 3516065817; 3600352804; 4094571909; 275423344;
   430227734; 506948616; 659060556; 883997877; 958139571; 1322822218; 1537002063; 1747873779;
   1955562222; 2024104815; 2227730452; 2361852424; 2428436474; 2756734187; 3204031479; 3329325298].

Definition initial_hash : list Z :=
  [1779033703; 3144134277; 1013904242; 2773480762; 1359893119; 2600822924; 528734635; 1541459225].

(** [n] bytes of [z], most significant first *)
Fixpoint big_endian (n : nat) (z : Z) : list Z :=
  match n with O => [] | S n' => Z.shiftr z (8 * Z.of_nat n') mod 256 :: big_endian n' z end.

Definition word_of (l : list Z) : Z := foldl (λ acc b, acc * 256 + b) 0 l.

Definition pad (msg : list Z) : list Z :=
  let n := length msg in
  let zeros := ((119 - n mod 64) mod 64)%nat in
  msg ++ [128] ++ replicate zeros 0 ++ big_endian 8 (8 * Z.of_nat n).

(** The list cut into pieces of [k] elements; [fuel] bounds their number. *)
Fixpoint chunks (fuel k : nat) (l : list Z) : list (list Z) :=
  match fuel, l with
  | S fuel', _ :: _ => take k l :: chunks fuel' k (drop k l)
  | _, _ => []
  end.

(** The schedule in reverse: its head is the latest word. *)
Fixpoint extend_schedule (n : nat) (w : list Z) : list Z :=
  match n with
  | O => w
  | S n' =>
    let at_ i := nth (Nat.pred i) w 0 in
    extend_schedule n' (u32 (small_sigma1 (at_ 2%nat) + at_ 7%nat + small_sigma0 (at_ 15%nat) + at_ 16%nat) :: w)
  end.

Definition schedule (block : list Z) : list Z :=
  rev (extend_schedule 48 (rev (word_of <$> chunks 16 4 block))).

Definition sha_round (h : list Z) (kw : Z * Z) : list Z :=
  match h with
  | [a; b; c; d; e; f; g; hh] =>
    let t1 := hh + big_sigma1 e + choose e f g + kw.1 + kw.2 in
    let t2 := big_sigma0 a + majority a b c in
    [u32 (t1 + t2); a; b; c; u32 (d + t1); e; f; g]
  | _ => h
  end.

Definition compress (h block : list Z) : list Z :=
  zip_with (λ x y, u32 (x + y)) h (foldl sha_round h (zip round_constants (schedule block))).

Definition Sum256 (msg : list Z) : list Z :=
  let padded := pad msg in
  foldl compress initial_hash (chunks (length padded) 64 padded) ≫= big_endian 4.

Definition hex_digit (z : Z) : Ascii.ascii := byte_of (if z <? 10 then 48 + z else 87 + z).

Definition EncodeToString (l : list Z) : string :=
  foldr (λ b s, String (hex_digit (b / 16)) (String (hex_digit (b mod 16)) s)) "" l.
End sha256.

Definition string_bytes (s : string) : list Z := byte_val <$> String.list_ascii_of_string s.

Example sha256_abc :
  EncodeToString (Sum256 (string_bytes "abc")) =
  "ba7816bf8f01cfea414140de5dae2223b00361a396177a9cb410ff61f20015ad".
Proof. vm_compute. reflexivity. Qed.

Example sha256_empty :
  EncodeToString (Sum256 []) = "e3b0c44298fc1c149afbf4c8996fb92427ae41e4649b934ca495991b7852b855".
Proof. vm_compute. reflexivity. Qed.

(** A message of two blocks *)
Example sha256_two_blocks :
  EncodeToString (Sum256 (string_bytes "abcdbcdecdefdefgefghfghighijhijkijkljklmklmnlmnomnopnopq")) =
  "248d6a61d20638b8e5c026930c3e6039a33ce45964ff2167f6ecedd419db06c1".
Proof. vm_compute. reflexivity. Qed.
