(* ===== verification/Response.v ===== *)
(** * Response commands ([internal/response/model.go])

    A response command asks an agent to act on a host.  Policies restrict the
    modes and actions, destructive actions need a permission of their own, and
    a command may need the approval of several people in given roles before
    it is sent.  The clock ([now]) is an argument. *)

From S2P Require Import Prelude GoStrings GoData.

Module Response.

Definition DefaultMode : string := "observe".

Record ResponsePolicy := MkResponsePolicy {
  rp_AllowedActions : list string;
  rp_AllowedModes : list string;
  rp_ApprovalRequired : bool;
  rp_ApprovalThreshold : Z;
  rp_ApprovalRoles : list string;
  rp_AllowDestructive : bool
}.

Global Instance ResponsePolicy_eta : Settable ResponsePolicy := λ x,
  MkResponsePolicy (rp_AllowedActions x) (rp_AllowedModes x) (rp_ApprovalRequired x) (rp_ApprovalThreshold x)
    (rp_ApprovalRoles x) (rp_AllowDestructive x).

Record Verdict := MkVerdict {
  vd_Allowed : bool;
  vd_Reason : string
}.

Global Instance Verdict_eta : Settable Verdict := λ x,
  MkVerdict (vd_Allowed x) (vd_Reason x).

Record Scope := MkScope {
  sc_Type : string;
  sc_Selector : string
}.

Global Instance Scope_eta : Settable Scope := λ x,
  MkScope (sc_Type x) (sc_Selector x).

Record Intent := MkIntent {
  int_ResponseIntent : string;
  int_RecommendedAction : string;
  int_Confidence : Z;
  int_Reason : string
}.

Global Instance Intent_eta : Settable Intent := λ x,
  MkIntent (int_ResponseIntent x) (int_RecommendedAction x) (int_Confidence x) (int_Reason x).

Record Approval := MkApproval {
  apv_Actor : string;
  apv_Role : string;
  apv_Approved : bool;
  apv_Reason : string;
  apv_ObservedAt : Time
}.

Global Instance Approval_eta : Settable Approval := λ x,
  MkApproval (apv_Actor x) (apv_Role x) (apv_Approved x) (apv_Reason x) (apv_ObservedAt x).

Record Command := MkCommand {
  cmd_ResponseID : string;
  cmd_TenantID : string;
  cmd_AgentID : string;
  cmd_PolicyID : string;
  cmd_PolicyVersion : Z;
  cmd_SignalID : string;
  cmd_Labels : gmap string string;
  cmd_Scope : Scope;
  cmd_Action : string;
  cmd_Mode : string;
  cmd_Target : string;
  cmd_Reason : string;
  cmd_Status : string;
  cmd_Actor : string;
  cmd_ApprovalRequired : bool;
  cmd_ApprovalStatus : string;
  cmd_ApprovalThreshold : Z;
  cmd_ApprovalRoles : list string;
  cmd_Approvals : list Approval;
  cmd_ApprovedBy : string;
  cmd_ApprovedAt : Time;
  cmd_CreatedAt : Time;
  cmd_UpdatedAt : Time
}.

Global Instance Command_eta : Settable Command := λ x,
  MkCommand (cmd_ResponseID x) (cmd_TenantID x) (cmd_AgentID x) (cmd_PolicyID x) (cmd_PolicyVersion x)
    (cmd_SignalID x) (cmd_Labels x) (cmd_Scope x) (cmd_Action x) (cmd_Mode x) (cmd_Target x)
    (cmd_Reason x) (cmd_Status x) (cmd_Actor x) (cmd_ApprovalRequired x) (cmd_ApprovalStatus x)
    (cmd_ApprovalThreshold x) (cmd_ApprovalRoles x) (cmd_Approvals x) (cmd_ApprovedBy x)
    (cmd_ApprovedAt x) (cmd_CreatedAt x) (cmd_UpdatedAt x).

Record Ack := MkAck {
  rack_ResponseID : string;
  rack_TenantID : string;
  rack_AgentID : string;
  rack_Accepted : bool;
  rack_Unsupported : bool;
  rack_ObserveOnly : bool;
  rack_Executed : bool;
  rack_Message : string;
  rack_ObservedAt : Time
}.

Global Instance Ack_eta : Settable Ack := λ x,
  MkAck (rack_ResponseID x) (rack_TenantID x) (rack_AgentID x) (rack_Accepted x) (rack_Unsupported x)
    (rack_ObserveOnly x) (rack_Executed x) (rack_Message x) (rack_ObservedAt x).

Record AuditRecord := MkAuditRecord {
  aud_Command : Command;
  aud_Ack : option Ack
}.

Global Instance AuditRecord_eta : Settable AuditRecord := λ x,
  MkAuditRecord (aud_Command x) (aud_Ack x).

(** The sensor's side ([internal/sensors/contract/contract.go]) *)

Record EnforcementCmd := MkEnforcementCmd {
  enf_ID : string;
  enf_Action : string;
  enf_Target : string;
  enf_ObserveOnly : bool;
  enf_Reason : string
}.

Global Instance EnforcementCmd_eta : Settable EnforcementCmd := λ x,
  MkEnforcementCmd (enf_ID x) (enf_Action x) (enf_Target x) (enf_ObserveOnly x) (enf_Reason x).

Record EnforcementAck := MkEnforcementAck {
  eack_ID : string;
  eack_Accepted : bool;
  eack_Unsupported : bool;
  eack_ObserveOnly : bool;
  eack_Message : string
}.

Global Instance EnforcementAck_eta : Settable EnforcementAck := λ x,
  MkEnforcementAck (eack_ID x) (eack_Accepted x) (eack_Unsupported x) (eack_ObserveOnly x) (eack_Message x).

Definition blank (s : string) : bool := bool_decide (s = "").

Definition NormalizeCommand (now : Time) (cmd : Command) : Command :=
  let cmd := cmd <| cmd_TenantID := "default" when blank (cmd_TenantID cmd) |>
                 <| cmd_Mode := DefaultMode when blank (cmd_Mode cmd) |>
                 <| cmd_Action := "collect" when blank (cmd_Action cmd) |>
                 <| cmd_Status := "pending" when blank (cmd_Status cmd) |>
                 <| cmd_CreatedAt := now when IsZero (cmd_CreatedAt cmd) |>
                 <| cmd_UpdatedAt := now |> in
  cmd <| cmd_ResponseID := "resp-" +:+ FormatInt (UnixNano now) when blank (cmd_ResponseID cmd) |>.

Definition DefaultPolicy : ResponsePolicy :=
  MkResponsePolicy ["collect"; "noop"] [DefaultMode] false 0 [] false.

Definition containsTrimmed (values : list string) (want : string) : bool :=
  existsb (λ value, bool_decide (TrimSpace value = TrimSpace want)) values.

Definition isDestructiveAction (action : string) : bool :=
  bool_decide (TrimSpace action ∈ ["kill"; "block"; "quarantine"]).

Definition allow : Verdict := MkVerdict true "".
Definition deny (reason : string) : Verdict := MkVerdict false reason.

Definition ValidateCommandWithPolicy (cmd : Command) (policy : ResponsePolicy) : Verdict :=
  let mode := TrimSpace (cmd_Mode cmd) in
  let mode := if blank mode then DefaultMode else mode in
  let modes := if bool_decide (rp_AllowedModes policy = []) then [DefaultMode] else rp_AllowedModes policy in
  if negb (containsTrimmed modes mode) then deny "response mode is not allowed by policy"
  else
    let action := TrimSpace (cmd_Action cmd) in
    let action := if blank action then "collect" else action in
    if isDestructiveAction action && negb (rp_AllowDestructive policy)
    then deny "destructive response action requires explicit policy approval"
    else
      let actions := if bool_decide (rp_AllowedActions policy = []) then ["collect"; "noop"]
                     else rp_AllowedActions policy in
      if negb (containsTrimmed actions action) then deny "response action is not allowed by policy"
      else allow.

Definition ValidateCommand (cmd : Command) : Verdict := ValidateCommandWithPolicy cmd DefaultPolicy.

Definition ApplyPolicyRequirements (cmd : Command) (policy : ResponsePolicy) : Command :=
  if rp_ApprovalRequired policy then
    cmd <| cmd_ApprovalRequired := true |>
        <| cmd_ApprovalThreshold := rp_ApprovalThreshold policy when (0 <? rp_ApprovalThreshold policy)%Z |>
        <| cmd_ApprovalRoles := rp_ApprovalRoles policy when negb (bool_decide (rp_ApprovalRoles policy = [])) |>
  else cmd.

Definition ApprovalThreshold (cmd : Command) : Z :=
  if (cmd_ApprovalThreshold cmd =? 0)%Z then 1%Z else cmd_ApprovalThreshold cmd.

Definition ApprovalRoleAllowed (cmd : Command) (role : string) : bool :=
  if bool_decide (cmd_ApprovalRoles cmd = []) then true
  else bool_decide (TrimSpace role = "admin") || containsTrimmed (cmd_ApprovalRoles cmd) (TrimSpace role).

(** Who an approval counts for: the actor, or the role when the actor is blank. *)
Definition approver (a : Approval) : string :=
  if blank (TrimSpace (apv_Actor a)) then TrimSpace (apv_Role a) else TrimSpace (apv_Actor a).

(** The loop of [ApprovalCount]: the approvers counted so far and their number. *)
Definition count_approval (cmd : Command) (acc : gset string * Z) (a : Approval) : gset string * Z :=
  let '(seen, count) := acc in
  if negb (apv_Approved a) then acc
  else if negb (ApprovalRoleAllowed cmd (apv_Role a)) then acc
  else
    let key := if blank (approver a) then "approval-" +:+ FormatUint (u32 (count + 1)) else approver a in
    if bool_decide (key ∈ seen) then acc else ({[key]} ∪ seen, u32 (count + 1)).

Definition ApprovalCount (cmd : Command) : Z := (foldl (count_approval cmd) (∅, 0%Z) (cmd_Approvals cmd)).2.

Definition trim_scope (s : Scope) : Scope := MkScope (TrimSpace (sc_Type s)) (TrimSpace (sc_Selector s)).

Definition ScopeDecision (command runtime : Scope) (runtimeKnown : bool) : Verdict :=
  let command := trim_scope command in
  let runtime := trim_scope runtime in
  if blank (sc_Type command) && blank (sc_Selector command) then allow
  else if negb runtimeKnown || blank (sc_Type runtime)
  then deny "agent runtime scope is required for scoped response command"
  else if negb (bool_decide (sc_Type command = sc_Type runtime)) ||
          negb (bool_decide (sc_Selector command = sc_Selector runtime))
  then deny "response command scope does not match agent runtime scope"
  else allow.

Definition ToEnforcement (cmd : Command) : EnforcementCmd :=
  MkEnforcementCmd (cmd_ResponseID cmd) (cmd_Action cmd) (cmd_Target cmd)
    (negb (bool_decide (cmd_Mode cmd = "enforce"))) (cmd_Reason cmd).

Definition FromEnforcementAck (now : Time) (cmd : Command) (ack : EnforcementAck) : Ack :=
  MkAck (cmd_ResponseID cmd) (cmd_TenantID cmd) (cmd_AgentID cmd) (eack_Accepted ack) (eack_Unsupported ack)
    (eack_ObserveOnly ack) (eack_Accepted ack && negb (eack_ObserveOnly ack) && negb (eack_Unsupported ack))
    (eack_Message ack) now.

Definition ObserveOnlyAck (cmd : EnforcementCmd) (message : string) : EnforcementAck :=
  MkEnforcementAck (enf_ID cmd) true false true message.

Definition UnsupportedAck (cmd : EnforcementCmd) (message : string) : EnforcementAck :=
  MkEnforcementAck (enf_ID cmd) false true false message.

(** ** What counting approvals means *)

Definition counted (cmd : Command) (l : list Approval) : list Approval :=
  filter (λ a, apv_Approved a = true ∧ ApprovalRoleAllowed cmd (apv_Role a) = true) l.

Definition approvers (cmd : Command) (l : list Approval) : gset string := list_to_set (approver <$> counted cmd l).

Lemma count_approval_spec cmd l seen :
  Forall (λ a, approver a ≠ "") (counted cmd l) →
  (Z.of_nat (size seen) + Z.of_nat (length l) < 2 ^ 32)%Z →
  foldl (count_approval cmd) (seen, Z.of_nat (size seen)) l =
  (approvers cmd l ∪ seen, Z.of_nat (size (approvers cmd l ∪ seen))).
Proof.
  unfold approvers. revert seen. induction l as [|a l IH]; intros seen Hl Hn.
  - cbn. by rewrite (left_id_L ∅ (∪)).
  - cbn [foldl count_approval]. unfold counted in *. rewrite filter_cons in Hl |- *.
    destruct (apv_Approved a) eqn:Ea; cbn [negb];
      [|rewrite decide_False in Hl |- * by naive_solver; apply IH; [done|cbn in Hn; lia]].
    destruct (ApprovalRoleAllowed cmd (apv_Role a)) eqn:Er; cbn [negb];
      [|rewrite decide_False in Hl |- * by naive_solver; apply IH; [done|cbn in Hn; lia]].
    rewrite decide_True in Hl |- * by done. apply Forall_cons_iff in Hl as [Hk Hl].
    unfold blank. rewrite (bool_decide_eq_false_2 (approver a = "")) by done. rewrite fmap_cons, list_to_set_cons.
    cbn in Hn. case_bool_decide as Hin.
    + rewrite IH by (done || lia). f_equal; [|do 2 f_equal]; set_solver.
    + assert (size ({[approver a]} ∪ seen) = S (size seen)) as Hs
        by (rewrite size_union, size_singleton by set_solver; done).
      unfold u32. rewrite Z.mod_small by lia.
      replace (Z.of_nat (size seen) + 1)%Z with (Z.of_nat (size ({[approver a]} ∪ seen))) by lia.
      rewrite IH by (done || lia). f_equal; [|do 2 f_equal]; set_solver.
Qed.

Lemma ApprovalCount_approvers cmd :
  Forall (λ a, approver a ≠ "") (counted cmd (cmd_Approvals cmd)) →
  (Z.of_nat (length (cmd_Approvals cmd)) < 2 ^ 32)%Z →
  ApprovalCount cmd = Z.of_nat (size (approvers cmd (cmd_Approvals cmd))).
Proof.
  intros Hb Hn. unfold ApprovalCount. pose proof (count_approval_spec cmd (cmd_Approvals cmd) ∅ Hb) as H.
  rewrite size_empty in H. change (Z.of_nat 0) with 0%Z in H. rewrite H by lia. cbn. by rewrite (right_id_L ∅ (∪)).
Qed.

(** What an accepted command satisfies *)
Lemma ValidateCommandWithPolicy_allowed cmd policy :
  vd_Allowed (ValidateCommandWithPolicy cmd policy) = true →
  isDestructiveAction (cmd_Action cmd) = true → rp_AllowDestructive policy = true.
Proof.
  unfold ValidateCommandWithPolicy. intros H Hd. case_match; [done|].
  assert (isDestructiveAction (if blank (TrimSpace (cmd_Action cmd)) then "collect" else TrimSpace (cmd_Action cmd)) = true)
    as Hd'.
  { unfold isDestructiveAction in Hd. apply bool_decide_eq_true in Hd.
    repeat (apply elem_of_cons in Hd as [Hd|Hd]; [rewrite Hd; by vm_compute|]). by apply elem_of_nil in Hd. }
  rewrite Hd' in H. by destruct (rp_AllowDestructive policy).
Qed.

End Response.
