(* ===== verification/ControlModel.v ===== *)
(** * Control commands and evidence requests ([internal/controlmodel/model.go])

    What the manager asks of an agent besides responses: to load a policy or
    content, and to send evidence.  The clock ([now]) is an argument. *)

From S2P Require Import Prelude GoStrings GoData.

Module ControlModel.

Definition EvidencePullbackStatusPending : string := "pending".
Definition EvidencePullbackStatusCompleted : string := "completed".
Definition EvidencePullbackStatusFailed : string := "failed".

Definition ControlCommandTypePolicyUpdate : string := "policy_update".
Definition ControlCommandTypeContentUpdate : string := "content_update".

Definition ControlCommandStatusPending : string := "pending".
Definition ControlCommandStatusSent : string := "sent".
Definition ControlCommandStatusApplied : string := "applied".
Definition ControlCommandStatusRejected : string := "rejected".
Definition ControlCommandStatusFailed : string := "failed".
Definition ControlCommandStatusCanceled : string := "canceled".
Definition ControlCommandStatusExpired : string := "expired".

Record ControlCommand := MkControlCommand {
  cc_CommandID : string;
  cc_TenantID : string;
  cc_AgentID : string;
  cc_Type : string;
  cc_Status : string;
  cc_PolicyID : string;
  cc_PolicyVersion : Z;
  cc_ContentRef : string;
  cc_ContentKind : string;
  cc_ContentVersion : string;
  cc_PayloadJSON : string;
  cc_Actor : string;
  cc_Reason : string;
  cc_CreatedAt : Time;
  cc_UpdatedAt : Time;
  cc_SentAt : Time;
  cc_LastSentAt : Time;
  cc_AckedAt : Time;
  cc_CanceledAt : Time;
  cc_ExpiredAt : Time;
  cc_AttemptCount : Z;
  cc_AckStatus : string;
  cc_AckMessage : string;
  cc_AckPolicyID : string;
  cc_AckPolicyVer : Z;
  cc_AckReportJSON : string;
  cc_Error : string
}.

Global Instance ControlCommand_eta : Settable ControlCommand := λ x,
  MkControlCommand (cc_CommandID x) (cc_TenantID x) (cc_AgentID x) (cc_Type x) (cc_Status x) (cc_PolicyID x)
    (cc_PolicyVersion x) (cc_ContentRef x) (cc_ContentKind x) (cc_ContentVersion x)
    (cc_PayloadJSON x) (cc_Actor x) (cc_Reason x) (cc_CreatedAt x) (cc_UpdatedAt x) (cc_SentAt x)
    (cc_LastSentAt x) (cc_AckedAt x) (cc_CanceledAt x) (cc_ExpiredAt x) (cc_AttemptCount x)
    (cc_AckStatus x) (cc_AckMessage x) (cc_AckPolicyID x) (cc_AckPolicyVer x) (cc_AckReportJSON x)
    (cc_Error x).

Record ControlCommandAck := MkControlCommandAck {
  cca_CommandID : string;
  cca_TenantID : string;
  cca_AgentID : string;
  cca_Status : string;
  cca_Message : string;
  cca_PolicyID : string;
  cca_PolicyVersion : Z;
  cca_ReportJSON : string;
  cca_ObservedAt : Time
}.

Global Instance ControlCommandAck_eta : Settable ControlCommandAck := λ x,
  MkControlCommandAck (cca_CommandID x) (cca_TenantID x) (cca_AgentID x) (cca_Status x) (cca_Message x)
    (cca_PolicyID x) (cca_PolicyVersion x) (cca_ReportJSON x) (cca_ObservedAt x).

Record EvidencePullbackRequest := MkEvidencePullbackRequest {
  ep_RequestID : string;
  ep_TenantID : string;
  ep_AgentID : string;
  ep_IncidentID : string;
  ep_Labels : gmap string string;
  ep_Target : string;
  ep_Reason : string;
  ep_Status : string;
  ep_ResultOK : bool;
  ep_Result : string;
  ep_Actor : string;
  ep_CreatedAt : Time;
  ep_UpdatedAt : Time;
  ep_CompletedAt : Time
}.

Global Instance EvidencePullbackRequest_eta : Settable EvidencePullbackRequest := λ x,
  MkEvidencePullbackRequest (ep_RequestID x) (ep_TenantID x) (ep_AgentID x) (ep_IncidentID x) (ep_Labels x) (ep_Target x)
    (ep_Reason x) (ep_Status x) (ep_ResultOK x) (ep_Result x) (ep_Actor x) (ep_CreatedAt x)
    (ep_UpdatedAt x) (ep_CompletedAt x).

Record EvidencePullbackResult := MkEvidencePullbackResult {
  er_RequestID : string;
  er_TenantID : string;
  er_AgentID : string;
  er_OK : bool;
  er_Message : string;
  er_Evidence : string;
  er_ObservedAt : Time
}.

Global Instance EvidencePullbackResult_eta : Settable EvidencePullbackResult := λ x,
  MkEvidencePullbackResult (er_RequestID x) (er_TenantID x) (er_AgentID x) (er_OK x) (er_Message x) (er_Evidence x)
    (er_ObservedAt x).

Definition NormalizeEvidencePullback (now : Time) (req : EvidencePullbackRequest) : EvidencePullbackRequest :=
  req <| ep_TenantID := "default" when bool_decide (ep_TenantID req = "") |>
      <| ep_Status := EvidencePullbackStatusPending when bool_decide (ep_Status req = "") |>
      <| ep_CreatedAt := now when IsZero (ep_CreatedAt req) |>
      <| ep_UpdatedAt := now |>
      <| ep_RequestID := "evpb-" +:+ FormatInt (UnixNano now) when bool_decide (ep_RequestID req = "") |>.

Definition NormalizeControlCommand (now : Time) (cmd : ControlCommand) : ControlCommand :=
  cmd <| cc_Type ::= TrimSpace |>
      <| cc_TenantID := "default" when bool_decide (cc_TenantID cmd = "") |>
      <| cc_Status := ControlCommandStatusPending when bool_decide (cc_Status cmd = "") |>
      <| cc_CreatedAt := now when IsZero (cc_CreatedAt cmd) |>
      <| cc_UpdatedAt := now |>
      <| cc_CommandID := "ctrl-" +:+ FormatInt (UnixNano now) when bool_decide (cc_CommandID cmd = "") |>.

Definition ControlCommandTerminalStatus (status : string) : bool :=
  bool_decide (status ∈ [ControlCommandStatusApplied; ControlCommandStatusRejected; ControlCommandStatusFailed;
                         ControlCommandStatusCanceled; ControlCommandStatusExpired]).

End ControlModel.
