(* ===== verification/PolicyModel.v ===== *)
(** * Policy documents ([internal/policy/model.go])

    The whole policy a tenant publishes: detection, telemetry, collection,
    the rules of the cloud side and the response policy, with its defaults and
    normalisation; the catalogue of rules; assignments of policies to agents
    and scopes; and audit records.  [Policy] holds the detection part. *)

From S2P Require Import Prelude GoStrings GoData EventModel Policy Response.

Module PolicyModel.
Import Policy Response.

Definition DefaultPolicyID : string := "default-edr-policy".
Definition DefaultPolicyVersion : Z := 1.

(** ** Parameters of convergence ([api/proto/policy/v1]) *)

Record ConvergeParams := MkConvergeParams {
  cv_Mode : string;
  cv_TopK : Z;
  cv_MaxPathHops : Z;
  cv_AdditiveRiskThreshold : Z;
  cv_CrossLineage : bool
}.

Global Instance ConvergeParams_eta : Settable ConvergeParams := λ x,
  MkConvergeParams (cv_Mode x) (cv_TopK x) (cv_MaxPathHops x) (cv_AdditiveRiskThreshold x) (cv_CrossLineage x).

Record RarityParams := MkRarityParams {
  rar_CmsWidth : Z;
  rar_CmsDepth : Z;
  rar_BaselineWindowNs : Z
}.

Global Instance RarityParams_eta : Settable RarityParams := λ x,
  MkRarityParams (rar_CmsWidth x) (rar_CmsDepth x) (rar_BaselineWindowNs x).

Record CloudPolicy := MkCloudPolicy {
  cp_EndpointRules : list string;
  cp_CloudRules : list string;
  cp_Converge : option ConvergeParams;
  cp_Rarity : option RarityParams
}.

Global Instance CloudPolicy_eta : Settable CloudPolicy := λ x,
  MkCloudPolicy (cp_EndpointRules x) (cp_CloudRules x) (cp_Converge x) (cp_Rarity x).

(** ** Policies *)

Record RuleContent := MkRuleContent {
  rc_RuleID : string;
  rc_Version : Z;
  rc_Enabled : bool;
  rc_Where : string;
  rc_Severity : string;
  rc_Tags : list string;
  rc_MITRE : list string;
  rc_ResponseIntent : string
}.

Global Instance RuleContent_eta : Settable RuleContent := λ x,
  MkRuleContent (rc_RuleID x) (rc_Version x) (rc_Enabled x) (rc_Where x) (rc_Severity x) (rc_Tags x)
    (rc_MITRE x) (rc_ResponseIntent x).

Record BinarySelector := MkBinarySelector {
  bs_Prefixes : list string
}.

Global Instance BinarySelector_eta : Settable BinarySelector := λ x,
  MkBinarySelector (bs_Prefixes x).

Record ProcessSelector := MkProcessSelector {
  ps_BinaryPrefixes : list string
}.

Global Instance ProcessSelector_eta : Settable ProcessSelector := λ x,
  MkProcessSelector (ps_BinaryPrefixes x).

Record FileSelector := MkFileSelector {
  fs_Prefixes : list string;
  fs_PrefixRefs : list string
}.

Global Instance FileSelector_eta : Settable FileSelector := λ x,
  MkFileSelector (fs_Prefixes x) (fs_PrefixRefs x).

Record SocketSelector := MkSocketSelector {
  ss_Families : list string;
  ss_Addrs : list string;
  ss_AddrRefs : list string;
  ss_Ports : list string;
  ss_PortRefs : list string
}.

Global Instance SocketSelector_eta : Settable SocketSelector := λ x,
  MkSocketSelector (ss_Families x) (ss_Addrs x) (ss_AddrRefs x) (ss_Ports x) (ss_PortRefs x).

Record CollectionBehaviorSelectors := MkCollectionBehaviorSelectors {
  cbs_Binary : BinarySelector;
  cbs_Process : ProcessSelector;
  cbs_File : FileSelector;
  cbs_Socket : SocketSelector
}.

Global Instance CollectionBehaviorSelectors_eta : Settable CollectionBehaviorSelectors := λ x,
  MkCollectionBehaviorSelectors (cbs_Binary x) (cbs_Process x) (cbs_File x) (cbs_Socket x).

Record CollectionBehaviorPolicy := MkCollectionBehaviorPolicy {
  cbp_ID : string;
  cbp_Enabled : option bool;
  cbp_Selectors : CollectionBehaviorSelectors
}.

Global Instance CollectionBehaviorPolicy_eta : Settable CollectionBehaviorPolicy := λ x,
  MkCollectionBehaviorPolicy (cbp_ID x) (cbp_Enabled x) (cbp_Selectors x).

Record CollectionPolicy := MkCollectionPolicy {
  col_PolicyID : string;
  col_Version : Z;
  col_Behaviors : list string;
  col_BehaviorSpecs : list CollectionBehaviorPolicy;
  col_BinaryPrefixes : list string;
  col_FilePrefixes : list string;
  col_SocketFamilies : list string;
  col_SocketAddrs : list string;
  col_SocketPorts : list string;
  col_ScopeType : string;
  col_ScopeSelector : string;
  col_ObserveOnly : bool
}.

Global Instance CollectionPolicy_eta : Settable CollectionPolicy := λ x,
  MkCollectionPolicy (col_PolicyID x) (col_Version x) (col_Behaviors x) (col_BehaviorSpecs x) (col_BinaryPrefixes x)
    (col_FilePrefixes x) (col_SocketFamilies x) (col_SocketAddrs x) (col_SocketPorts x)
    (col_ScopeType x) (col_ScopeSelector x) (col_ObserveOnly x).

Record TelemetryPolicy := MkTelemetryPolicy {
  tp_MaxBatchItems : Z;
  tp_MaxBatchBytes : Z;
  tp_FlushInterval : string
}.

Global Instance TelemetryPolicy_eta : Settable TelemetryPolicy := λ x,
  MkTelemetryPolicy (tp_MaxBatchItems x) (tp_MaxBatchBytes x) (tp_FlushInterval x).

Record PolicyDoc := MkPolicyDoc {
  pol_PolicyID : string;
  pol_Version : Z;
  pol_TenantID : string;
  pol_Scope : ScopeSelector;
  pol_Detection : option DetectionPolicy;
  pol_Telemetry : option TelemetryPolicy;
  pol_Collection : option CollectionPolicy;
  pol_EndpointRules : list string;
  pol_CloudRules : list string;
  pol_Mode : string;
  pol_Converge : option ConvergeParams;
  pol_Rarity : option RarityParams;
  pol_Response : ResponsePolicy;
  pol_Published : bool;
  pol_CreatedAt : Time;
  pol_UpdatedAt : Time
}.

Global Instance PolicyDoc_eta : Settable PolicyDoc := λ x,
  MkPolicyDoc (pol_PolicyID x) (pol_Version x) (pol_TenantID x) (pol_Scope x) (pol_Detection x)
    (pol_Telemetry x) (pol_Collection x) (pol_EndpointRules x) (pol_CloudRules x) (pol_Mode x)
    (pol_Converge x) (pol_Rarity x) (pol_Response x) (pol_Published x) (pol_CreatedAt x)
    (pol_UpdatedAt x).

Record EndpointPolicy := MkEndpointPolicy {
  epol_PolicyID : string;
  epol_Version : Z;
  epol_Collection : CollectionPolicy;
  epol_Detection : DetectionPolicy;
  epol_Telemetry : TelemetryPolicy;
  epol_Response : ResponsePolicy
}.

Global Instance EndpointPolicy_eta : Settable EndpointPolicy := λ x,
  MkEndpointPolicy (epol_PolicyID x) (epol_Version x) (epol_Collection x) (epol_Detection x) (epol_Telemetry x)
    (epol_Response x).

Record Assignment := MkAssignment {
  asg_AssignmentID : string;
  asg_TenantID : string;
  asg_AgentID : string;
  asg_Scope : ScopeSelector;
  asg_PolicyID : string;
  asg_PolicyVersion : Z;
  asg_CreatedAt : Time;
  asg_UpdatedAt : Time
}.

Global Instance Assignment_eta : Settable Assignment := λ x,
  MkAssignment (asg_AssignmentID x) (asg_TenantID x) (asg_AgentID x) (asg_Scope x) (asg_PolicyID x)
    (asg_PolicyVersion x) (asg_CreatedAt x) (asg_UpdatedAt x).

Record PolicyAudit := MkPolicyAudit {
  pa_AuditID : string;
  pa_TenantID : string;
  pa_Action : string;
  pa_PolicyID : string;
  pa_PolicyVersion : Z;
  pa_AssignmentID : string;
  pa_Actor : string;
  pa_Status : string;
  pa_Reason : string;
  pa_CreatedAt : Time
}.

Global Instance PolicyAudit_eta : Settable PolicyAudit := λ x,
  MkPolicyAudit (pa_AuditID x) (pa_TenantID x) (pa_Action x) (pa_PolicyID x) (pa_PolicyVersion x)
    (pa_AssignmentID x) (pa_Actor x) (pa_Status x) (pa_Reason x) (pa_CreatedAt x).

Definition DefaultRules : list RuleContent :=
  [MkRuleContent "web_runtime_spawns_shell" 1 true "endpoint" "high" ["process"; "web"] ["T1059"] "";
   MkRuleContent "download_by_lolbin" 1 true "endpoint" "medium" ["download"] ["T1105"] "";
   MkRuleContent "payload_dropped" 1 true "endpoint" "high" ["file"; "drop"] ["T1105"] "";
   MkRuleContent "reverse_shell_pattern" 1 true "endpoint" "critical" ["c2"] ["T1571"] "collect";
   MkRuleContent "suspicious_exec_connect" 1 true "endpoint" "high" ["exec"; "network"] ["T1574"] "";
   MkRuleContent "payload_lifecycle" 1 true "endpoint" "high" ["chain"; "evidence"] ["T1105"; "T1574"] "";
   MkRuleContent "dropped_payload_executed_and_connects" 1 true "cloud" "critical" ["graph"; "cross-lineage"] ["T1105"; "T1574"] "collect";
   MkRuleContent "web_shell_chain" 1 true "cloud" "critical" ["web"; "c2"] ["T1190"; "T1059"; "T1571"] "collect"].

Definition default_converge : ConvergeParams := MkConvergeParams "rarity_structural" 8 6 0 true.

Definition DefaultPolicy (tenantID : string) : PolicyDoc :=
  {| pol_PolicyID := DefaultPolicyID;
     pol_Version := DefaultPolicyVersion;
     pol_TenantID := if bool_decide (tenantID = "") then "default" else tenantID;
     pol_Scope := MkScopeSelector "" "";
     pol_Detection := Some DefaultDetectionPolicy;
     pol_Telemetry := None;
     pol_Collection := None;
     pol_EndpointRules := [];
     pol_CloudRules := ["dropped_payload_executed_and_connects"; "web_shell_chain"];
     pol_Mode := "observe";
     pol_Converge := Some default_converge;
     pol_Rarity := None;
     pol_Response := Response.DefaultPolicy;
     pol_Published := true;
     pol_CreatedAt := zero_time;
     pol_UpdatedAt := zero_time |}.

Definition Normalize (now : Time) (policy : PolicyDoc) : PolicyDoc :=
  policy <| pol_TenantID := "default" when bool_decide (pol_TenantID policy = "") |>
         <| pol_Version := 1%Z when (pol_Version policy =? 0)%Z |>
         <| pol_Mode := "observe" when bool_decide (pol_Mode policy = "") |>
         <| pol_Detection ::= λ d, Some (NormalizeDetectionPolicy (default DefaultDetectionPolicy d)) |>
         <| pol_Converge ::= λ c, Some (default default_converge c) |>
         <| pol_Response := Response.DefaultPolicy
              when bool_decide (rp_AllowedActions (pol_Response policy) = []) &&
                   bool_decide (rp_AllowedModes (pol_Response policy) = []) |>
         <| pol_CreatedAt := now when IsZero (pol_CreatedAt policy) |>
         <| pol_UpdatedAt := now |>.

Definition default_collection : CollectionPolicy :=
  MkCollectionPolicy "" 0
    ["process.exec"; "process.exit"; "process.fork"; "file.read"; "file.write"; "network.connect"]
    [] [] [] [] [] [] "" "" true.

Definition GetEndpointPolicy (now : Time) (p : PolicyDoc) : EndpointPolicy :=
  let normalized := Normalize now p in
  {| epol_PolicyID := pol_PolicyID normalized;
     epol_Version := pol_Version normalized;
     epol_Collection := default default_collection (pol_Collection normalized);
     epol_Detection := default DefaultDetectionPolicy (pol_Detection normalized);
     epol_Telemetry := default (MkTelemetryPolicy 256 (256 * 2 ^ 10) "1s") (pol_Telemetry normalized);
     epol_Response := pol_Response normalized |}.

Definition GetDetectionPolicy (p : PolicyDoc) : CloudPolicy :=
  MkCloudPolicy (pol_EndpointRules p) (pol_CloudRules p) (pol_Converge p) (pol_Rarity p).

Definition RuleIDs (rules : list RuleContent) (where_ : string) : list string :=
  sort_strings (rc_RuleID <$>
    filter (λ rule, rc_Enabled rule = true ∧ (where_ = "" ∨ rc_Where rule = where_)) rules).

End PolicyModel.
