(* ===== verification/Health.v ===== *)
(** * Health reports of agents ([internal/agent/health/health.go]) *)

From S2P Require Import Prelude GoStrings GoData.

Module Health.

Record ContentRef := MkContentRef {
  hcr_Ref : string;
  hcr_Kind : string;
  hcr_Version : string;
  hcr_Digest : string
}.

Record RuntimeFeatureFlags := MkRuntimeFeatureFlags {
  rff_MatcherStrategy : string
}.

Record DetectionHealth := MkDetectionHealth {
  dh_PolicyID : string;
  dh_PolicyVersion : Z;
  dh_ContentRefs : list ContentRef;
  dh_DefaultManifestVersion : string;
  dh_FeatureFlags : RuntimeFeatureFlags;
  dh_LastApplyStatus : string;
  dh_LastApplyError : string;
  dh_UpdatedAt : Time
}.

Record RuntimeScope := MkRuntimeScope {
  rs_Type : string;
  rs_Selector : string
}.

Record SensorHealth := MkSensorHealth {
  sh_Backend : string;
  sh_Installed : bool;
  sh_Running : bool;
  sh_Version : string;
  sh_PolicyLoaded : bool;
  sh_EventsSeen : Z;
  sh_EventsDropped : Z;
  sh_ParseErrors : Z;
  sh_RestartCount : Z;
  sh_LastEventAt : Time;
  sh_LastExitReason : string;
  sh_LastError : string
}.

Record CollectionBehaviorCapability := MkCollectionBehaviorCapability {
  hcap_Behavior : string;
  hcap_SensorMapping : string;
  hcap_Fields : list string;
  hcap_PushdownSelectors : list string;
  hcap_AgentSideSelectors : list string;
  hcap_UnsupportedSelectors : list string
}.

Record SensorCapability := MkSensorCapability {
  scap_Backend : string;
  scap_Version : string;
  scap_SupportsExec : bool;
  scap_SupportsConnect : bool;
  scap_SupportsFile : bool;
  scap_SupportsEnforce : bool;
  scap_SupportsHealth : bool;
  scap_KernelRelease : string;
  scap_BTFAvailable : bool;
  scap_BPFFSAvailable : bool;
  scap_Collection : list CollectionBehaviorCapability
}.

Record TelemetryBusHealth := MkTelemetryBusHealth {
  tbh_EventCapacity : Z;
  tbh_EventBuffered : Z;
  tbh_EventDropped : Z;
  tbh_EventSubscribers : Z;
  tbh_SignalCapacity : Z;
  tbh_SignalBuffered : Z;
  tbh_SignalDropped : Z;
  tbh_SignalSubscribers : Z
}.

Record TelemetryBatcherHealth := MkTelemetryBatcherHealth {
  tbat_PendingEvents : Z;
  tbat_PendingSignals : Z;
  tbat_QueuedBatches : Z;
  tbat_QueueCapacity : Z;
  tbat_DroppedBatches : Z;
  tbat_DroppedEvents : Z;
  tbat_DroppedSignals : Z;
  tbat_FlushedBatches : Z;
  tbat_FlushedEvents : Z;
  tbat_FlushedSignals : Z;
  tbat_PendingBytes : Z;
  tbat_MaxBytes : Z;
  tbat_FlushedByCount : Z;
  tbat_FlushedByBytes : Z;
  tbat_FlushedByInterval : Z;
  tbat_FlushedByShutdown : Z;
  tbat_LastFlushReason : string;
  tbat_Closed : bool;
  tbat_LastError : string
}.

Record TelemetrySenderHealth := MkTelemetrySenderHealth {
  tsh_SentBatches : Z;
  tsh_SentEvents : Z;
  tsh_SentSignals : Z;
  tsh_RejectedBatches : Z;
  tsh_RetriedBatches : Z;
  tsh_Drained : bool;
  tsh_LastError : string
}.

Record CEPHealth := MkCEPHealth {
  ceph_ActiveGroups : Z;
  ceph_EvictedGroups : Z;
  ceph_ExpiredGroups : Z;
  ceph_DroppedEventRefs : Z;
  ceph_EvalErrors : Z;
  ceph_EmittedSignals : Z;
  ceph_Degraded : bool
}.

Record LocalStreamHealth := MkLocalStreamHealth {
  lsh_EventCapacity : Z;
  lsh_EventBuffered : Z;
  lsh_EventNextSequence : Z;
  lsh_EventOldestSequence : Z;
  lsh_EventNewestSequence : Z;
  lsh_EventEvicted : Z;
  lsh_EventSubscribers : Z;
  lsh_SignalCapacity : Z;
  lsh_SignalBuffered : Z;
  lsh_SignalNextSequence : Z;
  lsh_SignalOldestSequence : Z;
  lsh_SignalNewestSequence : Z;
  lsh_SignalEvicted : Z;
  lsh_SignalSubscribers : Z
}.

Record AgentHealth := MkAgentHealth {
  ah_AgentID : string;
  ah_HostID : string;
  ah_TenantID : string;
  ah_Scope : RuntimeScope;
  ah_Status : string;
  ah_PolicyID : string;
  ah_PolicyVersion : Z;
  ah_PolicyMode : string;
  ah_UptimeSeconds : Z;
  ah_Capability : SensorCapability;
  ah_Sensor : SensorHealth;
  ah_TelemetryBus : TelemetryBusHealth;
  ah_TelemetryBatcher : TelemetryBatcherHealth;
  ah_TelemetrySender : TelemetrySenderHealth;
  ah_Detection : DetectionHealth;
  ah_CEP : CEPHealth;
  ah_Streams : LocalStreamHealth;
  ah_ObservedAt : Time
}.

End Health.
