(* ===== verification/Analytics.v ===== *)
(** * Cloud analytics ([internal/analytics])

    Signals of a batch are grouped by name ([correlate]), combined into cloud
    signals ([ingest]), a decision is taken whether they converge to an
    incident ([converge]), and the incident is built with a rarity score
    ([rarity], [incident]).  One module per package.  Scores are [float32],
    computed in the order of the source, without fused operations. *)

From S2P Require Import Prelude GoStrings GoFloat GoData EventModel Policy Response PolicyModel Graph.

(** ** [internal/analytics/correlate] *)

Module Correlate.
Import EventModel PolicyModel.

Record View := MkView {
  vw_ByName : gmap string (list Signal);
  vw_Labels : gmap string string
}.

Definition EndpointRuleEnabled (policy : option CloudPolicy) (name : string) : bool :=
  match policy with
  | None => true
  | Some p => bool_decide (cp_EndpointRules p = []) || bool_decide (name ∈ cp_EndpointRules p)
  end.

(** The closure [merge]; [None] until labels were seen. *)
Definition merge (common : option (gmap string string)) (labels : gmap string string) : option (gmap string string) :=
  if bool_decide (labels = ∅) then common
  else match common with
  | None => Some labels
  | Some c => Some (filter (λ '(key, value), default "" (labels !! key) = value) c)
  end.

Definition commonLabels (events : list CanonicalEvent) (signals : list Signal) : gmap string string :=
  let common := foldl (λ c ev, merge c (ev_Labels ev)) None events in
  default ∅ (foldl (λ c sig, merge c (sig_Labels sig)) common signals).

Definition add_signal (policy : option CloudPolicy) (byName : gmap string (list Signal)) (sig : Signal)
    : gmap string (list Signal) :=
  if negb (EndpointRuleEnabled policy (sig_Name sig)) then byName
  else <[sig_Name sig := default [] (byName !! sig_Name sig) ++ [sig]]> byName.

Definition Build (events : list CanonicalEvent) (signals : list Signal) (policy : option CloudPolicy) : View :=
  MkView (foldl (add_signal policy) ∅ signals) (commonLabels events signals).

Definition named (v : View) (name : string) : list Signal := default [] (vw_ByName v !! name).

Definition Has (v : View) (name : string) : bool := negb (bool_decide (named v name = [])).
Definition HasTerminal (v : View) (name : string) : bool := existsb sig_Terminal (named v name).

Definition CollectEntities (v : View) (names : list string) : list EntityRef :=
  Graph.Unique (names ≫= λ name, named v name ≫= sig_Entities).

(** The view lists, under each name, the enabled signals of that name in order. *)
Lemma named_Build events signals policy name :
  named (Build events signals policy) name =
  filter (λ sig, sig_Name sig = name ∧ EndpointRuleEnabled policy name = true) signals.
Proof.
  unfold named, Build, vw_ByName. rewrite <- (app_nil_l (filter _ signals)).
  change [] with (default [] ((∅ : gmap string (list Signal)) !! name)) at 2.
  generalize (∅ : gmap string (list Signal)) as m.
  induction signals as [|sig signals IH]; intros m; cbn [foldl]; [by rewrite app_nil_r|].
  rewrite IH, filter_cons. unfold add_signal.
  destruct (decide (sig_Name sig = name)) as [<-|Hne].
  - destruct (EndpointRuleEnabled policy (sig_Name sig)) eqn:E; cbn [negb].
    + rewrite lookup_insert_eq, decide_True by done. cbn. by rewrite <- app_assoc.
    + by rewrite decide_False by naive_solver.
  - rewrite decide_False by naive_solver. case_match; [done|]. by rewrite lookup_insert_ne.
Qed.
End Correlate.

(** ** [internal/analytics/converge] *)

Module Converge.
Import EventModel PolicyModel.

Record ConvergeDecision := MkConvergeDecision {
  cd_Incident : bool;
  cd_Method : string;
  cd_Controls : list string
}.

Definition hasTerminal (signals : list Signal) : bool := existsb sig_Terminal signals.

Definition additiveRisk `{RangeOrder} (byName : gmap string (list Signal)) : Z :=
  foldl (λ total name,
    foldl (λ total sig, u32 (total + sig_BaseRisk sig)) total (default [] (byName !! name)))
    0%Z (range_keys byName).

(** [policy.GetConverge()] of a possibly nil policy, read through the
    nil-safe getters *)
Definition converge_of (policy : option CloudPolicy) : ConvergeParams :=
  default (MkConvergeParams "" 0 0 0 false) (p ← policy; cp_Converge p).

Definition Decide `{RangeOrder} (byName : gmap string (list Signal)) (cloud : list Signal)
    (policy : option CloudPolicy) : ConvergeDecision :=
  if bool_decide (cv_Mode (converge_of policy) = "additive_threshold") then
    let threshold := cv_AdditiveRiskThreshold (converge_of policy) in
    let threshold := if (threshold =? 0)%Z then 100%Z else threshold in
    MkConvergeDecision (threshold <=? additiveRisk byName)%Z "additive_threshold" ["additive_threshold"]
  else if hasTerminal (default [] (byName !! "reverse_shell_pattern"))
  then MkConvergeDecision true "rarity+causal-topk" ["terminal_reverse_shell"]
  else if existsb (λ sig, bool_decide (sig_Name sig = "dropped_payload_executed_and_connects") && sig_CrossLineage sig) cloud
  then MkConvergeDecision true "rarity+causal-topk" ["cross_lineage_payload_connect"]
  else MkConvergeDecision false "rarity+causal-topk" [].

(** The sum does not depend on the order of the names. *)
Fixpoint risks (l : list Signal) : Z :=
  match l with [] => 0%Z | sig :: l' => (sig_BaseRisk sig + risks l')%Z end.

Lemma risks_app l1 l2 : risks (l1 ++ l2) = (risks l1 + risks l2)%Z.
Proof. induction l1 as [|x l1 IH]; cbn; [done|]. rewrite IH. lia. Qed.

Lemma add_risks total l : u32 (foldl (λ t sig, u32 (t + sig_BaseRisk sig)) total l) = u32 (total + risks l).
Proof.
  revert total. induction l as [|x l IH]; intros total; cbn; [by rewrite Z.add_0_r|].
  rewrite IH. unfold u32. rewrite Zplus_mod_idemp_l. f_equal. lia.
Qed.

Definition total_risk (m : gmap string (list Signal)) : Z := map_fold (λ _ l acc, (risks l + acc)%Z) 0%Z m.

Lemma total_risk_insert m name l : m !! name = None → total_risk (<[name := l]> m) = (risks l + total_risk m)%Z.
Proof. intros H. unfold total_risk. rewrite map_fold_insert_L; [done|intros; lia|done]. Qed.

Lemma total_risk_append m name sig :
  total_risk (<[name := default [] (m !! name) ++ [sig]]> m) = (sig_BaseRisk sig + total_risk m)%Z.
Proof.
  destruct (m !! name) as [l|] eqn:E; cbn [default].
  - rewrite <- (insert_delete_id m name l E) at 2. rewrite <- insert_delete_eq.
    rewrite !total_risk_insert by apply lookup_delete_eq. rewrite risks_app. cbn. lia.
  - change (default [] None) with (@nil Signal). rewrite total_risk_insert by done. cbn. lia.
Qed.

Lemma add_named `{RangeOrder} (m : gmap string (list Signal)) keys total :
  u32 (foldl (λ total name, foldl (λ total sig, u32 (total + sig_BaseRisk sig)) total (default [] (m !! name))) total keys)
  = u32 (total + risks (keys ≫= λ name, default [] (m !! name))).
Proof.
  revert total. induction keys as [|k keys IH]; intros total; cbn [foldl]; [by rewrite Z.add_0_r|].
  rewrite IH, bind_cons, risks_app. unfold u32 at 1. rewrite <- Zplus_mod_idemp_l. fold (u32 (foldl (λ t sig, u32 (t + sig_BaseRisk sig)) total (default [] (m !! k)))).
  rewrite add_risks. unfold u32. rewrite Zplus_mod_idemp_l. f_equal. lia.
Qed.

Lemma total_risk_keys m keys :
  keys ≡ₚ elements (dom m) → risks (keys ≫= λ name, default [] (m !! name)) = total_risk m.
Proof.
  revert keys. induction m as [|k l m Hk IH] using map_ind; intros keys Hkeys.
  - rewrite dom_empty_L, elements_empty in Hkeys. by apply Permutation_nil_r in Hkeys as ->.
  - rewrite total_risk_insert, <- (IH (elements (dom m))) by done.
    rewrite dom_insert_L, elements_union_singleton in Hkeys by (by apply not_elem_of_dom).
    assert (∀ l1 l2, l1 ≡ₚ l2 → risks l1 = risks l2) as Hperm.
    { induction 1; cbn; lia. }
    rewrite (Hperm _ _ (bind_Permutation _ _ _ Hkeys)). rewrite bind_cons, risks_app, lookup_insert_eq.
    cbn. do 2 f_equal. apply Forall_bind_ext, list.Forall_forall.
    intros k' Hk'%elem_of_elements. rewrite lookup_insert_ne; [done|]. intros <-. by apply not_elem_of_dom in Hk.
Qed.

Lemma u32_idem z : u32 (u32 z) = u32 z.
Proof. apply Z.mod_mod. lia. Qed.

Lemma additiveRisk_total `{RangeOrder} m : additiveRisk m = u32 (total_risk m).
Proof.
  rewrite <- (total_risk_keys m (range_keys m)) by apply range_order_perm.
  pose proof (add_named m (range_keys m) 0) as Hadd. rewrite Z.add_0_l in Hadd. rewrite <- Hadd. clear Hadd.
  unfold additiveRisk. symmetry. generalize (range_keys m) as keys. intros keys.
  assert (∀ l t, u32 t = t → u32 (foldl (λ total sig, u32 (total + sig_BaseRisk sig)) t l) =
            foldl (λ total sig, u32 (total + sig_BaseRisk sig)) t l) as Hin.
  { induction l as [|x l IH]; intros t Ht; cbn; [done|]. apply IH. apply u32_idem. }
  assert (∀ t, u32 t = t → u32 (foldl (λ total name, foldl (λ total sig, u32 (total + sig_BaseRisk sig)) total
            (default [] (m !! name))) t keys) = foldl (λ total name, foldl (λ total sig, u32 (total + sig_BaseRisk sig)) total
            (default [] (m !! name))) t keys) as Hout; [|by apply Hout].
  induction keys as [|k keys IH]; intros t Ht; cbn; [done|]. apply IH. by apply Hin.
Qed.

(** The sum over the view is the sum over the enabled signals. *)
Lemma total_risk_Build policy signals m :
  total_risk (foldl (Correlate.add_signal policy) m signals) =
  (total_risk m + risks (filter (λ sig, Correlate.EndpointRuleEnabled policy (sig_Name sig) = true) signals))%Z.
Proof.
  revert m. induction signals as [|sig signals IH]; intros m; cbn [foldl]; [cbn; lia|].
  rewrite IH, filter_cons. unfold Correlate.add_signal.
  destruct (Correlate.EndpointRuleEnabled policy (sig_Name sig)) eqn:E; cbn [negb].
  - rewrite decide_True by done. rewrite total_risk_append. cbn. lia.
  - by rewrite decide_False by congruence.
Qed.

End Converge.

(** ** [internal/analytics/rarity] *)

Module Rarity.
Import EventModel.

(** A nil map reads as an empty one. *)
Record Baseline := MkBaseline { bl_WorkloadCounts : gmap string (gmap string Z) }.

Definition signalRarity (sig : Signal) : spec_float :=
  if f32_is_zero (sig_GlobalRarity sig) then f32_of_Z 1 else sig_GlobalRarity sig.

Definition signalKey (sig : Signal) : string :=
  let key := TrimSpace (sig_Name sig) in
  if bool_decide (key = "") then TrimSpace (sig_Id sig) else key.

(** The two nested loops: kinds in order of preference, then entities. *)
Definition first_entity (kind : string) (ents : list EntityRef) : option EntityRef :=
  find_first (λ ent, bool_decide (ent_Kind ent = kind) && negb (bool_decide (ent_Key ent = ""))) ents.

Fixpoint workload_entity (kinds : list string) (ents : list EntityRef) : option string :=
  match kinds with
  | [] => None
  | kind :: kinds' =>
    match first_entity kind ents with
    | Some ent => Some (kind +:+ ":" +:+ ent_Key ent)
    | None => workload_entity kinds' ents
    end
  end.

Definition label (sig : Signal) (key : string) : string := default "" (sig_Labels sig !! key).

Definition workloadKey (sig : Signal) : string :=
  match workload_entity ["pod"; "container"; "host"; "user"] (sig_Entities sig) with
  | Some key => key
  | None =>
    if negb (bool_decide (label sig "workload" = "")) then "workload:" +:+ label sig "workload"
    else if negb (bool_decide (label sig "scenario" = "")) then "scenario:" +:+ label sig "scenario"
    else "global"
  end.

Definition counts_of (b : Baseline) (workload : string) : gmap string Z := default ∅ (bl_WorkloadCounts b !! workload).

Definition Count (b : Baseline) (workload signal : string) : Z :=
  let count := default 0%Z (counts_of b workload !! signal) in
  if (0 <? count)%Z then count else default 0%Z (counts_of b "global" !! signal).

Definition AddCount (workload signal : string) (count : Z) (b : Baseline) : Baseline :=
  let workload := TrimSpace workload in
  let signal := TrimSpace signal in
  let workload := if bool_decide (workload = "") then "global" else workload in
  if bool_decide (signal = "") || (count =? 0)%Z then b
  else
    let counts := counts_of b workload in
    MkBaseline (<[workload := <[signal := u64 (default 0%Z (counts !! signal) + count)]> counts]> (bl_WorkloadCounts b)).

Definition observe_signal (b : Baseline) (sig : Signal) : Baseline :=
  let signal := signalKey sig in
  if bool_decide (signal = "") then b
  else
    let workload := workloadKey sig in
    let b := AddCount workload signal 1 b in
    if negb (bool_decide (workload = "global")) then AddCount "global" signal 1 b else b.

Definition Observe (signals : list Signal) (b : Baseline) : Baseline := foldl observe_signal b signals.

Definition Merge `{RangeOrder} (other b : Baseline) : Baseline :=
  foldl (λ b workload,
    foldl (λ b signal, AddCount workload signal (default 0%Z (counts_of other workload !! signal)) b)
      b (range_keys (counts_of other workload)))
    b (range_keys (bl_WorkloadCounts other)).

(** A copy; the original can change afterwards without affecting it. *)
Definition Snapshot (b : Baseline) : Baseline := b.

(** The interface [Scorer] and its implementations *)
Inductive Scorer := RiskScorer | CountScorer | WorkloadBaselineScorer (Baseline : Baseline).

Definition base_score (sig : Signal) : spec_float := f32_mul (f32_of_Z (sig_BaseRisk sig)) (signalRarity sig).

Definition workloadRarity (b : Baseline) (sig : Signal) : spec_float :=
  let count := Count b (workloadKey sig) (signalKey sig) in
  if (count =? 0)%Z then f32_of_Z 1 else f32_div (f32_of_Z 1) (f32_of_Z (u64 (count + 1))).

Definition count_step (acc : gmap string Z * spec_float) (sig : Signal) : gmap string Z * spec_float :=
  let '(counts, score) := acc in
  let key := if bool_decide (sig_Name sig = "") then sig_Id sig else sig_Name sig in
  let n := u32 (default 0%Z (counts !! key) + 1) in
  (<[key := n]> counts, f32_add score (f32_div (base_score sig) (f32_of_Z n))).

Definition Score (s : Scorer) (signals : list Signal) : spec_float :=
  match s with
  | RiskScorer => foldl (λ score sig, f32_add score (base_score sig)) f32_zero signals
  | CountScorer => (foldl count_step (∅, f32_zero) signals).2
  | WorkloadBaselineScorer b =>
    foldl (λ score sig, f32_add score (f32_mul (base_score sig) (workloadRarity b sig))) f32_zero signals
  end.
End Rarity.

(** ** [internal/analytics/incident] *)

Module Incidents.
Import EventModel PolicyModel Graph Converge Rarity.

Record ConvergeTrace := MkConvergeTrace {
  ct_Method : string;
  ct_SeedIds : list string;
  ct_PathIds : list string;
  ct_Score : spec_float;
  ct_Controls : list string
}.

Global Instance ConvergeTrace_eta : Settable ConvergeTrace := λ x,
  MkConvergeTrace (ct_Method x) (ct_SeedIds x) (ct_PathIds x) (ct_Score x) (ct_Controls x).

Record Incident := MkIncident {
  inc_Id : string;
  inc_Summary : string;
  inc_Severity : Z;
  inc_Mitre : list string;
  inc_LineageIds : list string;
  inc_Terminals : list string;
  inc_Evidence : option EvidenceSubgraph;
  inc_Converge : option ConvergeTrace;
  inc_ContributingSignals : list Signal;
  inc_Labels : gmap string string;
  inc_TenantId : string;
  inc_CorrelationKey : string;
  inc_AnalysisVersion : string;
  inc_FirstObservedAt : string;
  inc_LastObservedAt : string
}.

Global Instance Incident_eta : Settable Incident := λ x,
  MkIncident (inc_Id x) (inc_Summary x) (inc_Severity x) (inc_Mitre x) (inc_LineageIds x) (inc_Terminals x)
    (inc_Evidence x) (inc_Converge x) (inc_ContributingSignals x) (inc_Labels x) (inc_TenantId x)
    (inc_CorrelationKey x) (inc_AnalysisVersion x) (inc_FirstObservedAt x) (inc_LastObservedAt x).

Record Builder := MkBuilder {
  bd_nextID : Z;
  bd_Scorer : option Scorer
}.

Definition NewBuilder : Builder := MkBuilder 0 (Some CountScorer).

Definition contributingSignals (signals : list Signal) : list Signal := signals.

(** Lineages in order of first appearance, blank ones left out *)
Fixpoint lineage_go (seen : gset string) (signals : list Signal) : list string :=
  match signals with
  | [] => []
  | sig :: signals' =>
    if negb (bool_decide (sig_LineageId sig = "")) && negb (bool_decide (sig_LineageId sig ∈ seen))
    then sig_LineageId sig :: lineage_go ({[sig_LineageId sig]} ∪ seen) signals'
    else lineage_go seen signals'
  end.

Definition lineageIDs (signals : list Signal) : list string := lineage_go ∅ signals.

Definition commonLabels (signals : list Signal) : gmap string string :=
  match signals with
  | [] => ∅
  | sig :: signals' =>
    foldl (λ common s, filter (λ '(key, value), default "" (sig_Labels s !! key) = value) common)
      (sig_Labels sig) signals'
  end.

Definition terminalEntities (signals : list Signal) : list string :=
  signals ≫= λ sig,
    if sig_Terminal sig then ent_Key <$> filter (λ ent, ent_Kind ent = "process") (sig_Entities sig) else [].

(** [internal/analytics/evidence] *)
Definition evidence_FromSignals (signals : list Signal) : EvidenceSubgraph :=
  GetEvidenceSubgraph (FromSignals signals).

Definition Build (signals : list Signal) (decision : ConvergeDecision) (b : Builder) : Incident * Builder :=
  let scorer := default CountScorer (bd_Scorer b) in
  let id := u64 (bd_nextID b + 1) in
  let contributing := contributingSignals signals in
  ({| inc_Id := "inc-" +:+ Sprintf_020d id;
      inc_Summary := "SysArmor detected a causal attack chain";
      inc_Severity := 80;
      inc_Mitre := [];
      inc_LineageIds := lineageIDs contributing;
      inc_Terminals := terminalEntities contributing;
      inc_Evidence := Some (evidence_FromSignals contributing);
      inc_Converge := Some (MkConvergeTrace (cd_Method decision) [] [] (Score scorer contributing) (cd_Controls decision));
      inc_ContributingSignals := contributing;
      inc_Labels := commonLabels contributing;
      inc_TenantId := "";
      inc_CorrelationKey := "";
      inc_AnalysisVersion := "";
      inc_FirstObservedAt := "";
      inc_LastObservedAt := "" |},
   MkBuilder id (Some scorer)).
End Incidents.

(** ** [internal/analytics/ingest] *)

Module Ingest.
Import EventModel PolicyModel Correlate Converge Rarity Incidents.

Global Instance Signal_eta : Settable Signal := λ x,
  MkSignal (sig_Id x) (sig_Name x) (sig_Where x) (sig_BaseRisk x) (sig_LocalRarity x) (sig_GlobalRarity x)
    (sig_LineageId x) (sig_Entities x) (sig_EventRefs x) (sig_SignalRefs x) (sig_Terminal x)
    (sig_Evidence x) (sig_CrossLineage x) (sig_ResponseIntent x) (sig_RuleId x) (sig_RuleVersion x)
    (sig_RulesetRef x) (sig_ContextRefs x) (sig_IocRefs x) (sig_Severity x) (sig_Confidence x)
    (sig_Mode x) (sig_Labels x).

Record Engine := MkEngine {
  ie_nextSignalID : Z;
  ie_incidents : Builder
}.

Record Result := MkResult {
  res_CloudSignals : list Signal;
  res_Incidents : list Incident
}.

Definition NewEngine : Engine := MkEngine 0 NewBuilder.

Definition SetRarityBaseline (baseline : Baseline) (e : Engine) : Engine :=
  MkEngine (ie_nextSignalID e) (MkBuilder (bd_nextID (ie_incidents e)) (Some (WorkloadBaselineScorer (Snapshot baseline)))).

Definition cloudRuleEnabled (policy : option CloudPolicy) (name : string) : bool :=
  match policy with
  | None => true
  | Some p => bool_decide (cp_CloudRules p = []) || bool_decide (name ∈ cp_CloudRules p)
  end.

Definition cloudSignal (name : string) (labels : gmap string string) (risk : Z) (entities : list EntityRef)
    (e : Engine) : Signal * Engine :=
  let id := u64 (ie_nextSignalID e + 1) in
  ({| sig_Id := "cloud-sig-" +:+ Sprintf_020d id;
      sig_Name := name;
      sig_Where := SIGNAL_WHERE_CLOUD;
      sig_BaseRisk := risk;
      sig_LocalRarity := f32_one;
      sig_GlobalRarity := f32_one;
      sig_LineageId := "";
      sig_Entities := Graph.Unique entities;
      sig_EventRefs := [];
      sig_SignalRefs := [];
      sig_Terminal := false;
      sig_Evidence := None;
      sig_CrossLineage := false;
      sig_ResponseIntent := None;
      sig_RuleId := "";
      sig_RuleVersion := 0;
      sig_RulesetRef := "";
      sig_ContextRefs := [];
      sig_IocRefs := [];
      sig_Severity := "";
      sig_Confidence := 0;
      sig_Mode := "";
      sig_Labels := labels |},
   MkEngine id (ie_incidents e)).

Definition crossLineageEnabled (policy : option CloudPolicy) : bool :=
  match policy with
  | None => true
  | Some p => match cp_Converge p with None => true | Some c => cv_CrossLineage c end
  end.

(** [dropped_payload_executed_and_connects] *)
Definition payload_rule (policy : option CloudPolicy) (view : View) : StateM Engine (list Signal) :=
  λ e,
  if cloudRuleEnabled policy "dropped_payload_executed_and_connects" && Has view "payload_dropped" &&
     (HasTerminal view "reverse_shell_pattern" ||
      (crossLineageEnabled policy && Has view "suspicious_exec_connect"))
  then
    let '(cs, e) := cloudSignal "dropped_payload_executed_and_connects" (vw_Labels view) 80
      (CollectEntities view ["payload_dropped"; "reverse_shell_pattern"; "suspicious_exec_connect"]) e in
    ([cs <| sig_CrossLineage := Has view "suspicious_exec_connect" && negb (HasTerminal view "reverse_shell_pattern") |>], e)
  else ([], e).

(** [web_shell_chain] *)
Definition web_shell_rule (policy : option CloudPolicy) (view : View) : StateM Engine (list Signal) :=
  λ e,
  if cloudRuleEnabled policy "web_shell_chain" && Has view "web_runtime_spawns_shell" &&
     HasTerminal view "reverse_shell_pattern"
  then
    let '(cs, e) := cloudSignal "web_shell_chain" (vw_Labels view) 85
      (CollectEntities view ["web_runtime_spawns_shell"; "reverse_shell_pattern"]) e in
    ([cs], e)
  else ([], e).

Definition AnalyzeWithPolicy `{RangeOrder} (events : list CanonicalEvent) (signals : list Signal)
    (policy : option CloudPolicy) : StateM Engine Result :=
  λ e,
  let view := Correlate.Build events signals policy in
  let '(payload, e) := payload_rule policy view e in
  let '(web, e) := web_shell_rule policy view e in
  let cloud := payload ++ web in
  let decision := Decide (vw_ByName view) cloud policy in
  if cd_Incident decision then
    let '(inc, b) := Incidents.Build (signals ++ cloud) decision (ie_incidents e) in
    (MkResult cloud [inc], MkEngine (ie_nextSignalID e) b)
  else (MkResult cloud [], e).

Definition Analyze `{RangeOrder} (events : list CanonicalEvent) (signals : list Signal) : StateM Engine Result :=
  AnalyzeWithPolicy events signals None.

(** ** When an incident is due

    The specification reads the signals directly, without the view. *)

Definition present (policy : option CloudPolicy) (signals : list Signal) (name : string) : bool :=
  EndpointRuleEnabled policy name && existsb (λ sig, bool_decide (sig_Name sig = name)) signals.

Definition terminal_present (policy : option CloudPolicy) (signals : list Signal) (name : string) : bool :=
  EndpointRuleEnabled policy name && existsb (λ sig, bool_decide (sig_Name sig = name) && sig_Terminal sig) signals.

Definition payload_due (policy : option CloudPolicy) (signals : list Signal) : bool :=
  cloudRuleEnabled policy "dropped_payload_executed_and_connects" && present policy signals "payload_dropped" &&
  (terminal_present policy signals "reverse_shell_pattern" ||
   (crossLineageEnabled policy && present policy signals "suspicious_exec_connect")).

Definition web_shell_due (policy : option CloudPolicy) (signals : list Signal) : bool :=
  cloudRuleEnabled policy "web_shell_chain" && present policy signals "web_runtime_spawns_shell" &&
  terminal_present policy signals "reverse_shell_pattern".

Definition enabled_signals (policy : option CloudPolicy) (signals : list Signal) : list Signal :=
  filter (λ sig, EndpointRuleEnabled policy (sig_Name sig) = true) signals.

Definition incident_due (policy : option CloudPolicy) (signals : list Signal) : bool :=
  let c := converge_of policy in
  if bool_decide (cv_Mode c = "additive_threshold") then
    ((if cv_AdditiveRiskThreshold c =? 0 then 100 else cv_AdditiveRiskThreshold c)
       <=? u32 (risks (enabled_signals policy signals)))%Z
  else terminal_present policy signals "reverse_shell_pattern" ||
       (payload_due policy signals && present policy signals "suspicious_exec_connect").

Lemma Has_present events signals policy name :
  Has (Correlate.Build events signals policy) name = present policy signals name.
Proof.
  unfold Has, present. rewrite named_Build. destruct (EndpointRuleEnabled policy name); cbn [andb].
  - induction signals as [|sig signals IH]; [done|]. rewrite filter_cons. cbn [existsb].
    destruct (decide (sig_Name sig = name)) as [Hn|Hn].
    + rewrite decide_True by done. by rewrite (bool_decide_eq_true_2 (sig_Name sig = name)).
    + rewrite decide_False by naive_solver. by rewrite (bool_decide_eq_false_2 (sig_Name sig = name)).
  - by rewrite filter_none by naive_solver.
Qed.

Lemma HasTerminal_present events signals policy name :
  HasTerminal (Correlate.Build events signals policy) name = terminal_present policy signals name.
Proof.
  unfold HasTerminal, terminal_present. rewrite named_Build. destruct (EndpointRuleEnabled policy name); cbn [andb].
  - induction signals as [|sig signals IH]; [done|]. rewrite filter_cons. cbn [existsb].
    destruct (decide (sig_Name sig = name)) as [Hn|Hn].
    + rewrite decide_True by done. rewrite (bool_decide_eq_true_2 (sig_Name sig = name)) by done.
      cbn [existsb]. by rewrite IH.
    + rewrite decide_False by naive_solver. by rewrite (bool_decide_eq_false_2 (sig_Name sig = name)).
  - by rewrite filter_none by naive_solver.
Qed.

Lemma Decide_due `{RangeOrder} events signals policy cloud :
  existsb (λ sig, bool_decide (sig_Name sig = "dropped_payload_executed_and_connects") && sig_CrossLineage sig) cloud
    = payload_due policy signals && present policy signals "suspicious_exec_connect" &&
      negb (terminal_present policy signals "reverse_shell_pattern") →
  cd_Incident (Decide (vw_ByName (Correlate.Build events signals policy)) cloud policy) = incident_due policy signals.
Proof.
  intros Hc. unfold Decide, incident_due. case_bool_decide.
  - cbn [cd_Incident]. rewrite additiveRisk_total. cbn [Correlate.Build vw_ByName]. by rewrite total_risk_Build.
  - change (hasTerminal (default [] (vw_ByName (Correlate.Build events signals policy) !! "reverse_shell_pattern")))
      with (HasTerminal (Correlate.Build events signals policy) "reverse_shell_pattern").
    rewrite HasTerminal_present, Hc. destruct (terminal_present _ _ _); [done|].
    by destruct (payload_due policy signals), (present policy signals "suspicious_exec_connect").
Qed.

(** What one cloud rule adds *)
Definition raised (due : bool) (name : string) (cross : bool) (e : Engine) (out : list Signal * Engine) : Prop :=
  if due then
    ∃ cs, out = ([cs], MkEngine (u64 (ie_nextSignalID e + 1)) (ie_incidents e)) ∧ sig_Name cs = name ∧
      sig_Id cs = "cloud-sig-" +:+ Sprintf_020d (u64 (ie_nextSignalID e + 1)) ∧ sig_CrossLineage cs = cross
  else out = ([], e).

Lemma payload_rule_raised events signals policy e :
  raised (payload_due policy signals) "dropped_payload_executed_and_connects"
    (present policy signals "suspicious_exec_connect" && negb (terminal_present policy signals "reverse_shell_pattern"))
    e (payload_rule policy (Correlate.Build events signals policy) e).
Proof.
  unfold payload_rule, raised. rewrite !Has_present, HasTerminal_present. fold (payload_due policy signals).
  destruct (payload_due policy signals); [|done]. eexists. split; [reflexivity|done].
Qed.

Lemma web_shell_rule_raised events signals policy e :
  raised (web_shell_due policy signals) "web_shell_chain" false e
    (web_shell_rule policy (Correlate.Build events signals policy) e).
Proof.
  unfold web_shell_rule, raised. rewrite Has_present, HasTerminal_present. fold (web_shell_due policy signals).
  destruct (web_shell_due policy signals); [|done]. eexists. split; [reflexivity|done].
Qed.

(** Both rules together, with what the decision reads of their signals *)
Lemma cloud_rules events signals policy e :
  ∃ ps ws e1 e2, payload_rule policy (Correlate.Build events signals policy) e = (ps, e1) ∧
    web_shell_rule policy (Correlate.Build events signals policy) e1 = (ws, e2) ∧
    ie_incidents e2 = ie_incidents e ∧
    sig_Name <$> ps ++ ws =
      (if payload_due policy signals then ["dropped_payload_executed_and_connects"] else []) ++
      (if web_shell_due policy signals then ["web_shell_chain"] else []) ∧
    sig_Id <$> ps ++ ws =
      (λ k, "cloud-sig-" +:+ Sprintf_020d (u64 (ie_nextSignalID e + Z.of_nat k))) <$> seq 1 (length (ps ++ ws)) ∧
    existsb (λ sig, bool_decide (sig_Name sig = "dropped_payload_executed_and_connects") && sig_CrossLineage sig) (ps ++ ws)
      = payload_due policy signals && present policy signals "suspicious_exec_connect" &&
        negb (terminal_present policy signals "reverse_shell_pattern").
Proof.
  pose proof (payload_rule_raised events signals policy e) as Hp. unfold raised in Hp.
  destruct (payload_rule _ _ e) as [ps e1] eqn:Ep.
  pose proof (web_shell_rule_raised events signals policy e1) as Hw. unfold raised in Hw.
  destruct (web_shell_rule _ _ e1) as [ws e2] eqn:Ew. exists ps, ws, e1, e2. split; [done|]. split; [done|].
  destruct (payload_due policy signals), (web_shell_due policy signals).
  - destruct Hp as (c1 & [= -> ->] & Hn1 & Hi1 & Hc1), Hw as (c2 & [= -> ->] & Hn2 & Hi2 & Hc2).
    cbn in *. rewrite Hn1, Hi1, Hn2, Hi2, Hc1, u64_plus, <- Z.add_assoc. repeat split.
    rewrite !bool_decide_eq_true_2 by done. cbn. by rewrite orb_false_r.
  - destruct Hp as (c1 & [= -> ->] & Hn1 & Hi1 & Hc1). simplify_eq. cbn in *. rewrite Hn1, Hi1, Hc1.
    repeat split. rewrite !bool_decide_eq_true_2 by done. cbn. by rewrite orb_false_r.
  - destruct Hw as (c2 & [= -> ->] & Hn2 & Hi2 & Hc2). simplify_eq. cbn in *. by rewrite Hn2, Hi2.
  - by simplify_eq.
Qed.

(** C30. The analysis of a batch is exactly what its rules say: the cloud
    signals raised are those whose conditions the enabled signals satisfy,
    with fresh consecutive ids; an incident is raised exactly when the policy's
    mode asks for one (the enabled signals' risks reach the threshold; or a
    terminal reverse shell; or a dropped payload that connects across
    lineages), at most one, and it names all the signals of the batch and all
    cloud signals. *)
Theorem analyze_spec `{RangeOrder} events signals policy e :
  let '(r, e') := AnalyzeWithPolicy events signals policy e in
  sig_Name <$> res_CloudSignals r =
    (if payload_due policy signals then ["dropped_payload_executed_and_connects"] else []) ++
    (if web_shell_due policy signals then ["web_shell_chain"] else []) ∧
  sig_Id <$> res_CloudSignals r =
    (λ k, "cloud-sig-" +:+ Sprintf_020d (u64 (ie_nextSignalID e + Z.of_nat k))) <$> seq 1 (length (res_CloudSignals r)) ∧
  (res_Incidents r = [] ↔ incident_due policy signals = false) ∧
  (length (res_Incidents r) ≤ 1)%nat ∧
  ∀ inc, inc ∈ res_Incidents r →
    inc_ContributingSignals inc = signals ++ res_CloudSignals r ∧
    inc_Id inc = "inc-" +:+ Sprintf_020d (u64 (bd_nextID (ie_incidents e) + 1)).
Proof.
  unfold AnalyzeWithPolicy.
  destruct (cloud_rules events signals policy e) as (ps & ws & e1 & e2 & -> & -> & Hinc & Hnames & Hids & Hcross).
  pose proof (Decide_due events signals policy (ps ++ ws) Hcross) as Hdue.
  destruct (cd_Incident _) eqn:Ed; cbn [Incidents.Build res_CloudSignals res_Incidents].
  - rewrite <- Hdue. split; [done|]. split; [done|]. split; [done|]. split; [cbn; lia|].
    intros inc ->%list_elem_of_singleton. cbn. by rewrite Hinc.
  - rewrite <- Hdue. split; [done|]. split; [done|]. split; [done|]. split; [cbn; lia|]. by intros inc ?%elem_of_nil.
Qed.
End Ingest.
