(* ===== verification/StoreData.v ===== *)
(** * State of the control-plane store ([internal/store/store.go], [agent.go])

    The manager's store as one record, with the records it holds.  The mutex
    makes every method one atomic step: a method is a function of the store.

    A durable backend is attached to the store.  Where a method reads the
    backend first, its answer is an argument, [None] when there is no backend
    or it failed.  [Postgres] models the backend: what it answers, and what
    [Save] and the copies that methods write through (whose errors the code
    ignores) leave in it.  The file [Save] writes without a backend is not
    modelled. *)

From S2P Require Import Prelude GoStrings GoFloat GoData GoSha EventModel Policy Response ControlModel PolicyModel Health Analytics.

Module StoreData.
Import EventModel Policy Response ControlModel PolicyModel Health Rarity Incidents.

Record AgentIdentity := MkAgentIdentity {
  ai_AgentID : string;
  ai_HostID : string;
  ai_Version : string;
  ai_TenantID : string;
  ai_AuthType : string;
  ai_CertIdentity : string
}.

Global Instance AgentIdentity_eta : Settable AgentIdentity := λ x,
  MkAgentIdentity (ai_AgentID x) (ai_HostID x) (ai_Version x) (ai_TenantID x) (ai_AuthType x) (ai_CertIdentity x).

Record StoreMetrics := MkStoreMetrics {
  sm_DataBatchesAppended : Z;
  sm_EventsIngested : Z;
  sm_EndpointSignalsIngested : Z;
  sm_CloudSignalsEmitted : Z;
  sm_SignalsEmitted : Z;
  sm_IncidentsCreated : Z;
  sm_DroppedEvents : Z;
  sm_DuplicateEvents : Z;
  sm_LastConvergenceLatencyMs : Z;
  sm_MaxConvergenceLatencyMs : Z;
  sm_TotalConvergenceLatencyMs : Z;
  sm_AverageConvergenceLatency : spec_float
}.

Global Instance StoreMetrics_eta : Settable StoreMetrics := λ x,
  MkStoreMetrics (sm_DataBatchesAppended x) (sm_EventsIngested x) (sm_EndpointSignalsIngested x)
    (sm_CloudSignalsEmitted x) (sm_SignalsEmitted x) (sm_IncidentsCreated x) (sm_DroppedEvents x)
    (sm_DuplicateEvents x) (sm_LastConvergenceLatencyMs x) (sm_MaxConvergenceLatencyMs x)
    (sm_TotalConvergenceLatencyMs x) (sm_AverageConvergenceLatency x).

Record AgentSession := MkAgentSession {
  as_SessionID : string;
  as_TenantID : string;
  as_AgentID : string;
  as_StartedAt : Time;
  as_LastSeenAt : Time;
  as_LastDataSeenAt : Time;
  as_LastControlSeenAt : Time;
  as_ClosedAt : Time;
  as_LastAckCursor : string;
  as_DataTransport : string;
  as_ControlTransport : string;
  as_Status : string
}.

Global Instance AgentSession_eta : Settable AgentSession := λ x,
  MkAgentSession (as_SessionID x) (as_TenantID x) (as_AgentID x) (as_StartedAt x) (as_LastSeenAt x)
    (as_LastDataSeenAt x) (as_LastControlSeenAt x) (as_ClosedAt x) (as_LastAckCursor x)
    (as_DataTransport x) (as_ControlTransport x) (as_Status x).

Record Enrollment := MkEnrollment {
  en_EnrollmentID : string;
  en_TenantID : string;
  en_AgentID : string;
  en_HostID : string;
  en_TokenHash : string;
  en_TokenPreview : string;
  en_BootstrapTokenHash : string;
  en_BootstrapTokenPreview : string;
  en_BootstrapFetchedAt : Time;
  en_GatewayAddr : string;
  en_GatewaySNI : string;
  en_Profile : string;
  en_Channel : string;
  en_ArtifactID : string;
  en_ArtifactSHA256 : string;
  en_ArtifactURL : string;
  en_Labels : gmap string string;
  en_Status : string;
  en_CreatedAt : Time;
  en_ExpiresAt : Time;
  en_CreatedBy : string;
  en_UsedAt : Time;
  en_IssuedKeySHA256 : string;
  en_IssuedCertificatePEM : string;
  en_IssuedCAPEM : string;
  en_IssuedSerialNumber : string;
  en_IssuedNotAfter : Time;
  en_IssuedAt : Time
}.

Global Instance Enrollment_eta : Settable Enrollment := λ x,
  MkEnrollment (en_EnrollmentID x) (en_TenantID x) (en_AgentID x) (en_HostID x) (en_TokenHash x)
    (en_TokenPreview x) (en_BootstrapTokenHash x) (en_BootstrapTokenPreview x)
    (en_BootstrapFetchedAt x) (en_GatewayAddr x) (en_GatewaySNI x) (en_Profile x) (en_Channel x)
    (en_ArtifactID x) (en_ArtifactSHA256 x) (en_ArtifactURL x) (en_Labels x) (en_Status x)
    (en_CreatedAt x) (en_ExpiresAt x) (en_CreatedBy x) (en_UsedAt x) (en_IssuedKeySHA256 x)
    (en_IssuedCertificatePEM x) (en_IssuedCAPEM x) (en_IssuedSerialNumber x) (en_IssuedNotAfter x)
    (en_IssuedAt x).

Record ArtifactChannel := MkArtifactChannel {
  ch_TenantID : string;
  ch_Channel : string;
  ch_ArtifactID : string;
  ch_CreatedAt : Time;
  ch_UpdatedAt : Time;
  ch_CreatedBy : string
}.

Global Instance ArtifactChannel_eta : Settable ArtifactChannel := λ x,
  MkArtifactChannel (ch_TenantID x) (ch_Channel x) (ch_ArtifactID x) (ch_CreatedAt x) (ch_UpdatedAt x)
    (ch_CreatedBy x).

Record Artifact := MkArtifact {
  ar_ArtifactID : string;
  ar_TenantID : string;
  ar_Name : string;
  ar_Kind : string;
  ar_Version : string;
  ar_OS : string;
  ar_Arch : string;
  ar_SHA256 : string;
  ar_SizeBytes : Z;
  ar_Status : string;
  ar_StoragePath : string;
  ar_CreatedAt : Time;
  ar_UpdatedAt : Time;
  ar_CreatedBy : string;
  ar_Metadata : gmap string string
}.

Global Instance Artifact_eta : Settable Artifact := λ x,
  MkArtifact (ar_ArtifactID x) (ar_TenantID x) (ar_Name x) (ar_Kind x) (ar_Version x) (ar_OS x) (ar_Arch x)
    (ar_SHA256 x) (ar_SizeBytes x) (ar_Status x) (ar_StoragePath x) (ar_CreatedAt x)
    (ar_UpdatedAt x) (ar_CreatedBy x) (ar_Metadata x).

Record AgentCertificate := MkAgentCertificate {
  ce_TenantID : string;
  ce_AgentID : string;
  ce_EnrollmentID : string;
  ce_SerialNumber : string;
  ce_Subject : string;
  ce_NotBefore : Time;
  ce_NotAfter : Time;
  ce_CreatedAt : Time;
  ce_RevokedAt : Time;
  ce_CertificatePEM : string
}.

Global Instance AgentCertificate_eta : Settable AgentCertificate := λ x,
  MkAgentCertificate (ce_TenantID x) (ce_AgentID x) (ce_EnrollmentID x) (ce_SerialNumber x) (ce_Subject x)
    (ce_NotBefore x) (ce_NotAfter x) (ce_CreatedAt x) (ce_RevokedAt x) (ce_CertificatePEM x).

Record Store := MkStore {
  st_Agents : list AgentIdentity;
  st_Events : list CanonicalEvent;
  st_Signals : list Signal;
  st_Incidents : list Incident;
  st_Health : gmap string AgentHealth;
  st_Rules : list RuleContent;
  st_Policies : list PolicyDoc;
  st_Assignments : list Assignment;
  st_PolicyAudits : list PolicyAudit;
  st_Responses : list Command;
  st_ResponseAcks : list Ack;
  st_Pullbacks : list EvidencePullbackRequest;
  st_ControlCommands : list ControlCommand;
  st_AgentSessions : list AgentSession;
  st_Enrollments : list Enrollment;
  st_Artifacts : list Artifact;
  st_Channels : list ArtifactChannel;
  st_Certificates : list AgentCertificate;
  st_Metrics : StoreMetrics;
  st_RarityBaseline : Baseline
}.

Global Instance Store_eta : Settable Store := λ x,
  MkStore (st_Agents x) (st_Events x) (st_Signals x) (st_Incidents x) (st_Health x) (st_Rules x)
    (st_Policies x) (st_Assignments x) (st_PolicyAudits x) (st_Responses x) (st_ResponseAcks x)
    (st_Pullbacks x) (st_ControlCommands x) (st_AgentSessions x) (st_Enrollments x) (st_Artifacts x)
    (st_Channels x) (st_Certificates x) (st_Metrics x) (st_RarityBaseline x).

Definition zero_metrics : StoreMetrics := MkStoreMetrics 0 0 0 0 0 0 0 0 0 0 0 (S754_zero false).

(** [Open("")] *)
Definition Open : Store :=
  MkStore [] [] [] [] ∅ [] [] [] [] [] [] [] [] [] [] [] [] [] zero_metrics (MkBaseline ∅).

(** ** Keys *)

Definition nul : string := String Ascii.zero "".

Definition stableKey (parts : list string) : string :=
  EncodeToString (take 16 (Sum256 (string_bytes (Join parts nul)))).

Definition agentHealthKey (tenantID agentID : string) : string := tenantID +:+ "/" +:+ agentID.
Definition agentSessionID (tenantID agentID : string) : string := stableKey [tenantID; agentID].

(** [x == want], or [want] is blank and matches everything *)
Definition matches (want x : string) : bool := bool_decide (want = "") || bool_decide (x = want).

(** The first match is replaced in place. *)
Definition update_first {A} (p : A → bool) (f : A → A) (l : list A) : list A := default l (replace_first p f l).

Definition or_default (tenantID : string) : string := if bool_decide (tenantID = "") then "default" else tenantID.

(** ** Lookups and updates of a list by a predicate *)

Section update_first.
Context {A : Type} (p : A → bool).

Lemma update_first_Forall (P : A → Prop) f l :
  (∀ x, x ∈ l → p x = true → P x → P (f x)) → Forall P l → Forall P (update_first p f l).
Proof.
  intros Hf Hl. unfold update_first. destruct (replace_first p f l) eqn:E; [|done].
  by eapply replace_first_Forall.
Qed.

Lemma update_first_found (P : A → Prop) f l x :
  find_first p l = Some x → P (f x) → Forall P l → Forall P (update_first p f l).
Proof.
  unfold find_first, update_first. induction l as [|y l IH]; [done|]. cbn. destruct (p y) eqn:E.
  - intros [= ->] Hf [_ Hl]%Forall_cons_iff. by constructor.
  - intros Hx Hf [Hy Hl]%Forall_cons_iff. specialize (IH Hx Hf Hl).
    destruct (replace_first p f l); cbn in *; by constructor.
Qed.

Lemma update_first_fmap {K} (key : A → K) f l :
  (∀ x, x ∈ l → p x = true → key (f x) = key x) → key <$> update_first p f l = key <$> l.
Proof.
  intros Hf. unfold update_first. pose proof (replace_first_spec p f l) as Hs.
  destruct (replace_first p f l); [|done]. destruct Hs as (l1 & x & l2 & -> & -> & Hx & _).
  cbn. rewrite !fmap_app, !fmap_cons, Hf; [done|set_solver|done].
Qed.

Lemma find_first_update f l x :
  find_first p l = Some x → p (f x) = true → find_first p (update_first p f l) = Some (f x).
Proof.
  unfold find_first, update_first. induction l as [|y l IH]; [done|]. cbn. destruct (p y) eqn:E.
  - intros [= ->] Hf. cbn. by rewrite Hf.
  - intros Hx Hf. specialize (IH Hx Hf). destruct (replace_first p f l); cbn in *; rewrite E; done.
Qed.

Lemma find_first_elem l x : find_first p l = Some x → x ∈ l ∧ p x = true.
Proof. intros [Hin Hp]%List.find_some. split; [by apply list_elem_of_In|done]. Qed.

Lemma find_first_none l : find_first p l = None ↔ ∀ x, x ∈ l → p x = false.
Proof.
  split.
  - intros Hn x Hx. apply (List.find_none _ _ Hn). by apply list_elem_of_In.
  - intros Hl. destruct (find_first p l) as [x|] eqn:E; [|done].
    apply find_first_elem in E as [Hin Hp]. by rewrite Hl in Hp.
Qed.
End update_first.

Lemma find_first_app {A} (p : A → bool) l1 l2 x : find_first p l1 = Some x → find_first p (l1 ++ l2) = Some x.
Proof. unfold find_first. induction l1 as [|y l1 IH]; [done|]. cbn. by destruct (p y). Qed.

Lemma find_first_split {A} (p : A → bool) l1 y l2 :
  Forall (λ z, p z = false) l1 → p y = true → find_first p (l1 ++ y :: l2) = Some y.
Proof.
  intros Hl1 Hy. unfold find_first. induction l1 as [|z l1 IH]; cbn; [by rewrite Hy|].
  apply Forall_cons_iff in Hl1 as [-> Hl1]. by apply IH.
Qed.

Lemma upsert_found {A} (p : A → bool) f new l x :
  find_first p l = Some x → upsert p f new l = update_first p f l.
Proof.
  unfold find_first, upsert, update_first. intros Hx. pose proof (replace_first_spec p f l) as Hs.
  destruct (replace_first p f l); [done|]. apply List.find_some in Hx as [Hin Hp].
  apply list_elem_of_In in Hin. eapply list.Forall_forall in Hs; [|done]. congruence.
Qed.

Lemma upsert_absent {A} (p : A → bool) f new l : find_first p l = None → upsert p f new l = l ++ [new].
Proof.
  unfold upsert. intros Hn. pose proof (replace_first_spec p f l) as Hs.
  destruct (replace_first p f l); [|done]. destruct Hs as (l1 & x & l2 & -> & -> & Hx & _).
  rewrite find_first_none in Hn. rewrite Hn in Hx; [done|set_solver].
Qed.

Lemma update_first_none {A} (p : A → bool) f l : find_first p l = None → update_first p f l = l.
Proof.
  intros Hn. unfold update_first. pose proof (replace_first_spec p f l) as Hr.
  destruct (replace_first p f l); [|done]. destruct Hr as (l1 & x & l2 & -> & _ & Hx & _).
  rewrite find_first_none in Hn. rewrite Hn in Hx; [done|set_solver].
Qed.

Lemma upsert_elem {A} (p : A → bool) f new l :
  from_option f new (find_first p l) ∈ upsert p f new l ∧
  ∀ x, x ∈ upsert p f new l → x = from_option f new (find_first p l) ∨ x ∈ l.
Proof.
  destruct (find_first p l) as [x|] eqn:Ef; cbn.
  - rewrite (upsert_found _ _ _ _ _ Ef). unfold update_first.
    pose proof (replace_first_spec p f l) as Hs. destruct (replace_first p f l) as [l'|].
    + destruct Hs as (l1 & y & l2 & -> & -> & Hy & Hl1). assert (y = x) as ->.
      { clear -Ef Hy Hl1. unfold find_first in Ef. induction l1 as [|z l1 IH]; cbn in Ef; [rewrite Hy in Ef; congruence|].
        apply Forall_cons_iff in Hl1 as [Hz Hl1]. rewrite Hz in Ef. by apply IH. }
      cbn. split; [set_solver|]. intros z Hz. set_solver.
    + apply find_first_elem in Ef as [Hin Hp]. eapply list.Forall_forall in Hs; [|done]. congruence.
  - rewrite (upsert_absent _ _ _ _ Ef). split; set_solver.
Qed.

(** The first match for [q] is untouched by an update of another element to
    something [q] does not match. *)
Lemma find_first_update_other {A} (p q : A → bool) f l e x :
  find_first q l = Some e → find_first p l = Some x → x ≠ e → q (f x) = false →
  find_first q (update_first p f l) = Some e.
Proof.
  unfold find_first, update_first. intros Hq Hp Hne Hf. induction l as [|y l IH]; [done|]. cbn in *.
  destruct (p y) eqn:Epy.
  - injection Hp as ->. destruct (q x); [congruence|]. cbn. by rewrite Hf.
  - destruct (q y) eqn:Eqy.
    + destruct (replace_first p f l); cbn; by rewrite Eqy.
    + specialize (IH Hq Hp). destruct (replace_first p f l); cbn in *; by rewrite Eqy.
Qed.

Lemma elem_of_update_first {A} (p : A → bool) f l x : find_first p l = Some x → f x ∈ update_first p f l.
Proof.
  intros Hx. unfold update_first. pose proof (replace_first_spec p f l) as Hs. destruct (replace_first p f l) as [l'|]; cbn.
  - destruct Hs as (l1 & y & l2 & -> & -> & Hy & Hl1). rewrite (find_first_split p l1 y l2 Hl1 Hy) in Hx.
    injection Hx as ->. set_solver.
  - apply find_first_elem in Hx as [Hin Hp]. eapply list.Forall_forall in Hs; [|exact Hin]. congruence.
Qed.

Lemma NoDup_fmap_unique {A K} (g : A → K) l x y : NoDup (g <$> l) → x ∈ l → y ∈ l → g x = g y → x = y.
Proof.
  induction l as [|z l IH]; [by intros _ ?%elem_of_nil|]. rewrite fmap_cons, list.NoDup_cons. intros [Hz Hl].
  intros [->|Hx]%elem_of_cons [->|Hy]%elem_of_cons Hg; [done| | |by apply IH];
    destruct Hz; rewrite Hg || rewrite <- Hg; by apply list_elem_of_fmap_2.
Qed.

End StoreData.
