(* ===== verification/StoreAgents.v ===== *)
(** * Agents, sessions and health in the store ([internal/store/store.go], [agent.go])

    Registration of agents and the binding of an agent to the certificate it
    authenticates with, the sessions of the data and control channels, health
    reports and the ingest counters.  The clock is the argument [now], read
    when the caller gives no time. *)

From S2P Require Import Prelude GoStrings GoFloat GoBytes GoData EventModel DataPlane Health StoreData.

Module StoreAgents.
Import EventModel DataPlane Health StoreData.

(** ** Identities *)

Definition Normalized (a : AgentIdentity) : AgentIdentity :=
  let a := MkAgentIdentity (TrimSpace (ai_AgentID a)) (TrimSpace (ai_HostID a)) (TrimSpace (ai_Version a))
             (TrimSpace (ai_TenantID a)) (TrimSpace (ai_AuthType a)) (TrimSpace (ai_CertIdentity a)) in
  a <| ai_TenantID := "default" when bool_decide (ai_TenantID a = "") |>.

Definition Valid (a : AgentIdentity) : bool := negb (bool_decide (TrimSpace (ai_AgentID a) = "")).

Definition AgentIdentityFromDataBatch (batch : DataBatch) : AgentIdentity :=
  let header := GetHeader batch in
  Normalized (MkAgentIdentity (bh_AgentId header) (bh_HostId header)
    (default "" (bh_Labels header !! "agent_version")) (bh_TenantId header) "" "").

Definition same_agent (a existing : AgentIdentity) : bool :=
  bool_decide (ai_TenantID existing = ai_TenantID a) && bool_decide (ai_AgentID existing = ai_AgentID a).

(** Blank fields of [agent] are taken from the registered identity. *)
Definition keep_fields (agent existing : AgentIdentity) : AgentIdentity :=
  agent <| ai_HostID := ai_HostID existing when bool_decide (ai_HostID agent = "") |>
        <| ai_Version := ai_Version existing when bool_decide (ai_Version agent = "") |>.

Definition keep_binding (agent existing : AgentIdentity) : AgentIdentity :=
  agent <| ai_AuthType := ai_AuthType existing when bool_decide (ai_AuthType agent = "") |>
        <| ai_CertIdentity := ai_CertIdentity existing when bool_decide (ai_CertIdentity agent = "") |>.

Definition AddAgent (agent : AgentIdentity) (s : Store) : Store :=
  let agent := Normalized agent in
  if negb (Valid agent) then s
  else s <| st_Agents ::= upsert (same_agent agent) (λ existing, keep_binding (keep_fields agent existing) existing) agent |>.

(** [s] unchanged on an error *)
Definition BindAgentIdentity (agent : AgentIdentity) (s : Store) : result unit * Store :=
  let agent := Normalized agent in
  if negb (Valid agent) then (Err "agent_id is required", s)
  else if bool_decide (ai_AuthType agent = "") || bool_decide (ai_CertIdentity agent = "")
  then (Err "auth_type and cert_identity are required", s)
  else match find_first (same_agent agent) (st_Agents s) with
  | Some existing =>
    if negb (bool_decide (ai_CertIdentity existing = "")) &&
       negb (bool_decide (ai_CertIdentity existing = ai_CertIdentity agent))
    then (Err ("agent identity binding mismatch: registered=" +:+ ai_CertIdentity existing +:+ " presented=" +:+ ai_CertIdentity agent), s)
    else if negb (bool_decide (ai_AuthType existing = "")) &&
            negb (bool_decide (ai_AuthType existing = ai_AuthType agent))
    then (Err ("agent auth binding mismatch: registered=" +:+ ai_AuthType existing +:+ " presented=" +:+ ai_AuthType agent), s)
    else (Ok tt, s <| st_Agents ::= update_first (same_agent agent) (keep_fields agent) |>)
  | None => (Ok tt, s <| st_Agents ::= λ l, l ++ [agent] |>)
  end.

Definition ListAgents (backend : option (list AgentIdentity)) (s : Store) : list AgentIdentity :=
  default (st_Agents s) backend.

(** ** Health *)

Definition UpsertAgentHealth (health : AgentHealth) (s : Store) : Store :=
  if bool_decide (ah_AgentID health = "") then s
  else s <| st_Health ::= <[agentHealthKey (ah_TenantID health) (ah_AgentID health) := health]> |>.

Definition health_values `{RangeOrder} (s : Store) : list AgentHealth :=
  omap (λ key, st_Health s !! key) (range_keys (st_Health s)).

Definition health_less (x y : AgentHealth) : bool :=
  if bool_decide (ah_TenantID x = ah_TenantID y) then string_ltb (ah_AgentID x) (ah_AgentID y)
  else string_ltb (ah_TenantID x) (ah_TenantID y).

Definition ListAgentHealth `{RangeOrder, SliceSort} (backend : option (list AgentHealth)) (s : Store) : list AgentHealth :=
  default (sort_slice health_less (health_values s)) backend.

(** The loop over the map: found so far, [None] inside for an ambiguity that
    ends the loop. *)
Fixpoint unique_health (agentID : string) (found : option AgentHealth) (l : list AgentHealth) : option AgentHealth :=
  match l with
  | [] => found
  | health :: l' =>
    if negb (bool_decide (ah_AgentID health = agentID)) then unique_health agentID found l'
    else match found with
    | Some f => if bool_decide (ah_TenantID f = ah_TenantID health) then unique_health agentID (Some health) l' else None
    | None => unique_health agentID (Some health) l'
    end
  end.

Definition GetAgentHealth `{RangeOrder} (backend : option (option AgentHealth)) (tenantID agentID : string) (s : Store)
    : option AgentHealth :=
  match backend with
  | Some answer => answer
  | None =>
    if bool_decide (agentID = "") then None
    else if negb (bool_decide (tenantID = "")) then st_Health s !! agentHealthKey tenantID agentID
    else unique_health agentID None (health_values s)
  end.

(** ** Sessions *)

Definition zero_session : AgentSession :=
  MkAgentSession "" "" "" zero_time zero_time zero_time zero_time zero_time "" "" "" "".

Definition or_now (now t : Time) : Time := if IsZero t then now else t.

Definition is_session (sessionID : string) (session : AgentSession) : bool :=
  bool_decide (as_SessionID session = sessionID).

Definition data_seen (batchID transport : string) (observedAt : Time) (session : AgentSession) : AgentSession :=
  session <| as_LastSeenAt := observedAt |>
          <| as_LastDataSeenAt := observedAt |>
          <| as_LastAckCursor := batchID when negb (bool_decide (batchID = "")) |>
          <| as_DataTransport := transport when negb (bool_decide (transport = "")) |>
          <| as_Status := "active" |>
          <| as_ClosedAt := zero_time |>.

Definition session_result (sessionID : string) (s : Store) : AgentSession :=
  default zero_session (find_first (is_session sessionID) (st_AgentSessions s)).

Definition RecordDataBatchAppend (now : Time) (agent : AgentIdentity) (batchID transport : string) (observedAt : Time)
    (s : Store) : AgentSession * Store :=
  let agent := Normalized agent in
  if negb (Valid agent) then (zero_session, s)
  else
    let observedAt := or_now now observedAt in
    let sessionID := agentSessionID (ai_TenantID agent) (ai_AgentID agent) in
    let new := MkAgentSession sessionID (ai_TenantID agent) (ai_AgentID agent) observedAt observedAt observedAt
                 zero_time zero_time batchID transport "" "active" in
    let s := s <| st_AgentSessions ::= upsert (is_session sessionID) (data_seen batchID transport observedAt) new |> in
    (session_result sessionID s, s).

Definition control_seen (transport cursor status : string) (observedAt : Time) (closeSession : bool)
    (session : AgentSession) : AgentSession :=
  let session :=
    session <| as_LastSeenAt := observedAt |>
            <| as_ControlTransport := transport when negb (bool_decide (transport = "")) |>
            <| as_LastControlSeenAt := observedAt when negb (bool_decide (transport = "")) |>
            <| as_LastAckCursor := cursor when negb (bool_decide (cursor = "")) |>
            <| as_Status := status when negb (bool_decide (status = "")) |> in
  if closeSession then session <| as_ClosedAt := observedAt |>
  else session <| as_ClosedAt := zero_time when bool_decide (status = "open") |>.

Definition updateAgentSession (now : Time) (tenantID agentID transport cursor status : string) (observedAt : Time)
    (closeSession : bool) (s : Store) : AgentSession * Store :=
  let tenantID := TrimSpace tenantID in
  let agentID := TrimSpace agentID in
  if bool_decide (agentID = "") then (zero_session, s)
  else
    let tenantID := or_default tenantID in
    let observedAt := or_now now observedAt in
    let sessionID := agentSessionID tenantID agentID in
    let new := MkAgentSession sessionID tenantID agentID observedAt observedAt zero_time
                 (if bool_decide (transport = "") then zero_time else observedAt)
                 (if closeSession then observedAt else zero_time) cursor "" transport
                 (if bool_decide (status = "") then "active" else status) in
    let s := s <| st_AgentSessions ::=
                    upsert (is_session sessionID) (control_seen transport cursor status observedAt closeSession) new |> in
    (session_result sessionID s, s).

Definition RecordControlSessionOpen (now : Time) (tenantID agentID transport : string) (observedAt : Time) :=
  updateAgentSession now tenantID agentID transport "" "open" observedAt false.
Definition RecordAgentSessionSeen (now : Time) (tenantID agentID : string) (observedAt : Time) :=
  updateAgentSession now tenantID agentID "" "" "" observedAt false.
Definition CloseAgentSession (now : Time) (tenantID agentID : string) (observedAt : Time) :=
  updateAgentSession now tenantID agentID "" "" "closed" observedAt true.

Definition session_less (x y : AgentSession) : bool :=
  if bool_decide (as_TenantID x = as_TenantID y) then string_ltb (as_AgentID x) (as_AgentID y)
  else string_ltb (as_TenantID x) (as_TenantID y).

Definition ListAgentSessions `{SliceSort} (backend : option (list AgentSession)) (tenantID agentID : string) (s : Store)
    : list AgentSession :=
  default (sort_slice session_less
    (filter (λ x, matches tenantID (as_TenantID x) && matches agentID (as_AgentID x) = true) (st_AgentSessions s))) backend.

(** ** Counters *)

Definition RecordDataBatchIngest (events endpointSignals cloudSignals incidents latency : Z) (s : Store) : Store :=
  let latencyMs := u64 (Z.quot latency (10 ^ 6)) in
  let m := st_Metrics s in
  let m := m <| sm_DataBatchesAppended ::= λ n, u64 (n + 1) |>
             <| sm_EventsIngested ::= λ n, u64 (n + events) |>
             <| sm_EndpointSignalsIngested ::= λ n, u64 (n + endpointSignals) |>
             <| sm_CloudSignalsEmitted ::= λ n, u64 (n + cloudSignals) |>
             <| sm_SignalsEmitted ::= λ n, u64 (n + (endpointSignals + cloudSignals)) |>
             <| sm_IncidentsCreated ::= λ n, u64 (n + incidents) |>
             <| sm_LastConvergenceLatencyMs := latencyMs |>
             <| sm_TotalConvergenceLatencyMs ::= λ n, u64 (n + latencyMs) |>
             <| sm_MaxConvergenceLatencyMs ::= λ n, if (n <? latencyMs)%Z then latencyMs else n |> in
  s <| st_Metrics := m <| sm_AverageConvergenceLatency :=
         f64_div (f64_of_Z (sm_TotalConvergenceLatencyMs m)) (f64_of_Z (sm_DataBatchesAppended m)) |> |>.

Definition MetricsSnapshot (backend : option StoreMetrics) (s : Store) : StoreMetrics := default (st_Metrics s) backend.
Definition ResetMetrics (s : Store) : Store := s <| st_Metrics := zero_metrics |>.

(** ** The binding of an agent to its certificate *)

Definition agent_key (a : AgentIdentity) : string * string := (ai_TenantID a, ai_AgentID a).

Global Arguments agent_key : simpl never.

Definition registered (s : Store) (key : string * string) : option AgentIdentity :=
  find_first (λ x, bool_decide (agent_key x = key)) (st_Agents s).

Lemma same_agent_key a x : same_agent a x = bool_decide (agent_key x = agent_key a).
Proof.
  unfold same_agent, agent_key. repeat case_bool_decide; cbn [andb]; congruence.
Qed.

Lemma find_first_ext {A} (p q : A → bool) l : (∀ x, p x = q x) → find_first p l = find_first q l.
Proof. intros Hpq. induction l as [|x l IH]; [done|]. cbn. rewrite Hpq. destruct (q x); [done|apply IH]. Qed.

Lemma registered_same a s : find_first (same_agent a) (st_Agents s) = registered s (agent_key a).
Proof. apply find_first_ext. apply same_agent_key. Qed.

(** Looking up a key after an insert-or-replace that keeps keys *)
Lemma registered_upsert agent f l key :
  (∀ x, agent_key (f x) = agent_key agent) →
  find_first (λ x, bool_decide (agent_key x = key)) (upsert (same_agent agent) f agent l) =
  if bool_decide (agent_key agent = key)
  then Some (from_option f agent (find_first (λ x, bool_decide (agent_key x = key)) l))
  else find_first (λ x, bool_decide (agent_key x = key)) l.
Proof.
  intros Hf. unfold upsert, find_first. induction l as [|x l IH].
  - cbn [replace_first from_option app List.find]. unfold id. cbn. case_bool_decide; done.
  - cbn [replace_first List.find]. rewrite same_agent_key. destruct (decide (agent_key x = agent_key agent)) as [Hx|Hx].
    + rewrite (bool_decide_eq_true_2 (agent_key x = agent_key agent)), Hx by done. cbn. rewrite Hf. case_bool_decide; done.
    + rewrite (bool_decide_eq_false_2 (agent_key x = agent_key agent)) by done.
      destruct (replace_first (same_agent agent) f l) as [l'|]; cbn in *; rewrite IH;
        case_bool_decide as Hk1; case_bool_decide as Hk2; congruence || done.
Qed.
(** A successful binding is an insert-or-replace. *)
Lemma neither_false (P Q : Prop) `{Decision P, Decision Q} :
  negb (bool_decide P) && negb (bool_decide Q) = false → P ∨ Q.
Proof. repeat case_bool_decide; cbn; tauto || done. Qed.

Lemma BindAgentIdentity_spec agent s :
  let a := Normalized agent in
  match BindAgentIdentity agent s with
  | (Ok _, s') => s' = s <| st_Agents ::= upsert (same_agent a) (keep_fields a) a |> ∧
      ∀ x, registered s (agent_key a) = Some x →
        (ai_CertIdentity x = "" ∨ ai_CertIdentity x = ai_CertIdentity a) ∧
        (ai_AuthType x = "" ∨ ai_AuthType x = ai_AuthType a)
  | (Err _, s') => s' = s
  end.
Proof.
  cbn zeta. unfold BindAgentIdentity. destruct (negb _); [done|]. destruct (_ || _); [done|].
  destruct (find_first (same_agent (Normalized agent)) (st_Agents s)) as [x|] eqn:Ex.
  - destruct (negb (bool_decide (ai_CertIdentity x = "")) && _) eqn:E1; [done|].
    destruct (negb (bool_decide (ai_AuthType x = "")) && _) eqn:E2; [done|]. split.
    + unfold assign. f_equal. by rewrite (upsert_found _ _ _ _ _ Ex).
    + intros y. rewrite <- registered_same, Ex. intros [= <-].
      split; by apply (neither_false _ _).
  - split; [|by rewrite <- registered_same, Ex]. unfold assign. f_equal. by rewrite (upsert_absent _ _ _ _ Ex).
Qed.

(** What happens to the register of agents: the channels report agents without
    credentials, the transport binds authenticated ones, and nothing else
    touches the register. *)
Inductive agent_step : Store → Store → Prop :=
| step_add agent s :
    TrimSpace (ai_CertIdentity agent) = "" → TrimSpace (ai_AuthType agent) = "" → agent_step s (AddAgent agent s)
| step_bind agent s : agent_step s (BindAgentIdentity agent s).2
| step_other s s' : st_Agents s' = st_Agents s → agent_step s s'.

Definition bound (key : string * string) (cert auth : string) (s : Store) : Prop :=
  ∃ x, registered s key = Some x ∧ ai_CertIdentity x = cert ∧ (auth ≠ "" → ai_AuthType x = auth).

Lemma agent_step_bound key cert auth s s' :
  cert ≠ "" → agent_step s s' → bound key cert auth s → bound key cert auth s'.
Proof.
  intros Hc Hstep (x & Hx & Hcert & Hauth). destruct Hstep as [agent s Hac Haa|agent s|s s' Heq].
  - unfold bound, AddAgent. case_match; [by exists x|]. unfold registered. cbn [st_Agents assign].
    rewrite registered_upsert by done. fold (registered s key). rewrite Hx. case_bool_decide as Hk; [|by exists x].
    eexists. split; [reflexivity|]. cbn. rewrite Hac, Haa. by rewrite !bool_decide_eq_true_2.
  - pose proof (BindAgentIdentity_spec agent s) as Hb. cbn zeta in Hb.
    destruct (BindAgentIdentity agent s) as [[u|msg] s']; cbn [snd]; [|subst s'; by exists x].
    destruct Hb as [-> Hb]. unfold bound, registered. cbn [st_Agents assign]. rewrite registered_upsert by done.
    fold (registered s key). rewrite Hx. case_bool_decide as Hk; [|by exists x].
    destruct (Hb x) as [H1 H2]; [by rewrite Hk|]. eexists. split; [reflexivity|].
    unfold keep_fields. cbn in *. split; [naive_solver|]. intros Ha. specialize (Hauth Ha). naive_solver.
  - exists x. unfold registered. by rewrite Heq.
Qed.

(** The binding of an agent to its certificate is permanent: once an agent is
    registered with a certificate identity, whatever is reported or presented
    afterwards leaves the identity and the kind of authentication as they
    are, and presenting another certificate for the agent is refused without
    any change to the store. *)
Theorem binding_permanent s s' key x :
  registered s key = Some x → ai_CertIdentity x ≠ "" → rtc agent_step s s' →
  (∃ x', registered s' key = Some x' ∧ ai_CertIdentity x' = ai_CertIdentity x ∧
     (ai_AuthType x ≠ "" → ai_AuthType x' = ai_AuthType x)) ∧
  ∀ agent, agent_key (Normalized agent) = key → TrimSpace (ai_CertIdentity agent) ≠ ai_CertIdentity x →
    ∃ msg, BindAgentIdentity agent s' = (Err msg, s').
Proof.
  intros Hx Hc Hsteps.
  assert (bound key (ai_CertIdentity x) (ai_AuthType x) s') as Hb.
  { assert (bound key (ai_CertIdentity x) (ai_AuthType x) s) as H0 by (by exists x).
    clear Hx. induction Hsteps as [s|s1 s2 s3 Hstep _ IH]; [done|]. by eapply IH, agent_step_bound. }
  split; [exact Hb|]. intros agent Hk Hne. destruct Hb as (y & Hy & Hyc & _).
  pose proof (BindAgentIdentity_spec agent s') as Hs. cbn zeta in Hs.
  destruct (BindAgentIdentity agent s') as [[u|msg] s2]; [|exists msg; congruence].
  destruct Hs as [_ Hs]. rewrite Hk in Hs. destruct (Hs y Hy) as [[H1|H1] _]; cbn in H1; congruence.
Qed.

Definition demo_agent (cert : string) : AgentIdentity := MkAgentIdentity "agent-1" "host-1" "" "" "mtls" cert.
Definition demo_bound : Store := (BindAgentIdentity (demo_agent "cn=agent-1") Open).2.

Lemma binding_permanent_witness :
  registered demo_bound ("default", "agent-1") = Some (MkAgentIdentity "agent-1" "host-1" "" "default" "mtls" "cn=agent-1") ∧
  ∃ msg, BindAgentIdentity (demo_agent "cn=intruder") (AddAgent (MkAgentIdentity "agent-1" "" "2.0" "" "" "") demo_bound) =
    (Err msg, AddAgent (MkAgentIdentity "agent-1" "" "2.0" "" "" "") demo_bound).
Proof.
  assert (registered demo_bound ("default", "agent-1") =
          Some (MkAgentIdentity "agent-1" "host-1" "" "default" "mtls" "cn=agent-1")) as Hr by (vm_compute; reflexivity).
  split; [exact Hr|]. eapply (binding_permanent _ _ _ _ Hr).
  - discriminate.
  - apply rtc_once. apply step_add; vm_compute; reflexivity.
  - vm_compute. reflexivity.
  - vm_compute. discriminate.
Defined.

End StoreAgents.
