(* ===== verification/StorePolicies.v ===== *)
(** * Rules, policies and assignments in the store ([internal/store/store.go])

    Policies are kept by tenant, id and version; a published version can be
    assigned to an agent, to a scope or to a whole tenant, and the effective
    policy of an agent is the one of the most specific assignment
    (theorem [effective_policy_spec] of [StoreTheorems]). *)

From S2P Require Import Prelude GoStrings GoData Policy Response PolicyModel StoreData.

Module StorePolicies.
Import Policy Response PolicyModel StoreData.

(** ** Rules *)

Definition EnsureDefaultPolicy (now : Time) (tenantID : string) (s : Store) : Store :=
  let s := s <| st_Rules := DefaultRules when bool_decide (st_Rules s = []) |> in
  if existsb (λ p, bool_decide (pol_TenantID p = tenantID) && bool_decide (pol_PolicyID p = DefaultPolicyID) &&
                   (pol_Version p =? DefaultPolicyVersion)%Z) (st_Policies s)
  then s else s <| st_Policies ::= λ l, l ++ [Normalize now (DefaultPolicy tenantID)] |>.

Definition same_rule (rule existing : RuleContent) : bool :=
  bool_decide (rc_RuleID existing = rc_RuleID rule) && (rc_Version existing =? rc_Version rule)%Z.

Definition UpsertRule (rule : RuleContent) (s : Store) : Store :=
  if bool_decide (rc_RuleID rule = "") then s
  else
    let rule := rule <| rc_Version := 1%Z when (rc_Version rule =? 0)%Z |> in
    s <| st_Rules ::= upsert (same_rule rule) (λ _, rule) rule |>.

Definition rule_less (x y : RuleContent) : bool :=
  if bool_decide (rc_Where x = rc_Where y) then
    if bool_decide (rc_RuleID x = rc_RuleID y) then (rc_Version x <? rc_Version y)%Z
    else string_ltb (rc_RuleID x) (rc_RuleID y)
  else string_ltb (rc_Where x) (rc_Where y).

Definition ListRules `{SliceSort} (where_ : string) (s : Store) : list RuleContent :=
  sort_slice rule_less (filter (λ r, matches where_ (rc_Where r) = true) (st_Rules s)).

(** ** Policies *)

Definition same_policy (policy existing : PolicyDoc) : bool :=
  bool_decide (pol_TenantID existing = pol_TenantID policy) &&
  bool_decide (pol_PolicyID existing = pol_PolicyID policy) && (pol_Version existing =? pol_Version policy)%Z.

Definition zero_policy : PolicyDoc :=
  MkPolicyDoc "" 0 "" (MkScopeSelector "" "") None None None [] [] "" None None
    (MkResponsePolicy [] [] false 0 [] false) false zero_time zero_time.

Definition UpsertPolicy (now : Time) (policy : PolicyDoc) (s : Store) : PolicyDoc * Store :=
  if bool_decide (pol_PolicyID policy = "") then (zero_policy, s)
  else
    let policy := Normalize now policy in
    let stored existing :=
      policy <| pol_CreatedAt := pol_CreatedAt existing when negb (IsZero (pol_CreatedAt existing)) |> in
    (from_option stored policy (find_first (same_policy policy) (st_Policies s)),
     s <| st_Policies ::= upsert (same_policy policy) stored policy |>).

Definition policy_less (x y : PolicyDoc) : bool :=
  if bool_decide (pol_TenantID x = pol_TenantID y) then
    if bool_decide (pol_PolicyID x = pol_PolicyID y) then (pol_Version x <? pol_Version y)%Z
    else string_ltb (pol_PolicyID x) (pol_PolicyID y)
  else string_ltb (pol_TenantID x) (pol_TenantID y).

Definition ListPolicies `{SliceSort} (backend : option (list PolicyDoc)) (tenantID : string) (s : Store) : list PolicyDoc :=
  default (sort_slice policy_less (filter (λ p, matches tenantID (pol_TenantID p) = true) (st_Policies s))) backend.

(** The loop of [GetPolicy] and [publishedPolicy]: the first policy of the
    version asked for, or the first of the highest version. *)
Fixpoint pick_policy (want : PolicyDoc → bool) (version : Z) (latest : option PolicyDoc) (l : list PolicyDoc)
    : option PolicyDoc :=
  match l with
  | [] => latest
  | p :: l' =>
    if negb (want p) then pick_policy want version latest l'
    else if negb (version =? 0)%Z && negb (pol_Version p =? version)%Z then pick_policy want version latest l'
    else if negb (version =? 0)%Z then Some p
    else if (match latest with None => true | Some q => pol_Version q <? pol_Version p end)%Z
    then pick_policy want version (Some p) l'
    else pick_policy want version latest l'
  end.

Definition wanted (tenantID policyID : string) (p : PolicyDoc) : bool :=
  matches tenantID (pol_TenantID p) && bool_decide (pol_PolicyID p = policyID).

(** [backend] is the backend's policy when it found one. *)
Definition GetPolicy (backend : option PolicyDoc) (tenantID policyID : string) (version : Z) (s : Store) : option PolicyDoc :=
  match backend with
  | Some policy => Some policy
  | None => pick_policy (wanted tenantID policyID) version None (st_Policies s)
  end.

Definition publishedPolicy (tenantID policyID : string) (version : Z) (s : Store) : option PolicyDoc :=
  pick_policy (λ p, wanted tenantID policyID p && pol_Published p) version None (st_Policies s).

Definition PublishPolicy (now : Time) (tenantID policyID : string) (version : Z) (published : bool) (s : Store)
    : option PolicyDoc * Store :=
  let tenantID := or_default tenantID in
  if bool_decide (policyID = "") then (None, s)
  else
    let p := λ x, bool_decide (pol_TenantID x = tenantID) && bool_decide (pol_PolicyID x = policyID) &&
                  ((version =? 0)%Z || (pol_Version x =? version)%Z) in
    let publish x := x <| pol_Published := published |> <| pol_UpdatedAt := now |> in
    (publish <$> find_first p (st_Policies s), s <| st_Policies ::= update_first p publish |>).

(** ** Audit records *)

Definition RecordPolicyAudit (now : Time) (record : PolicyAudit) (s : Store) : PolicyAudit * Store :=
  let record :=
    record <| pa_TenantID ::= or_default |>
           <| pa_Status := "ok" when bool_decide (pa_Status record = "") |>
           <| pa_CreatedAt := now when IsZero (pa_CreatedAt record) |>
           <| pa_AuditID := "policy-audit-" +:+ FormatInt (UnixNano now) when bool_decide (pa_AuditID record = "") |> in
  (record, s <| st_PolicyAudits ::= λ l, l ++ [record] |>).

Definition ListPolicyAudits `{SliceSort} (backend : option (list PolicyAudit)) (tenantID policyID : string) (s : Store)
    : list PolicyAudit :=
  default (sort_slice (λ x y, Before (pa_CreatedAt x) (pa_CreatedAt y))
    (filter (λ r, matches tenantID (pa_TenantID r) && matches policyID (pa_PolicyID r) = true) (st_PolicyAudits s))) backend.

(** ** Assignments *)

Definition assignmentKey (a : Assignment) : string :=
  stableKey [asg_TenantID a; asg_AgentID a; sel_Type (asg_Scope a); sel_Selector (asg_Scope a); asg_PolicyID a].

Definition sameAssignmentTarget (a b : Assignment) : bool :=
  bool_decide (asg_TenantID a = asg_TenantID b) && bool_decide (asg_AgentID a = asg_AgentID b) &&
  bool_decide (sel_Type (asg_Scope a) = sel_Type (asg_Scope b)) &&
  bool_decide (sel_Selector (asg_Scope a) = sel_Selector (asg_Scope b)).

Definition AssignmentRank (a : Assignment) (agentID scopeType scopeSelector : string) : Z :=
  if negb (bool_decide (asg_AgentID a = "")) then
    if bool_decide (agentID = "") || negb (bool_decide (asg_AgentID a = agentID)) then (-1)%Z else 30%Z
  else if negb (bool_decide (sel_Type (asg_Scope a) = "")) then
    if negb (bool_decide (sel_Type (asg_Scope a) = scopeType)) then (-1)%Z
    else if negb (bool_decide (sel_Selector (asg_Scope a) = "")) &&
            negb (bool_decide (sel_Selector (asg_Scope a) = scopeSelector)) then (-1)%Z
    else if negb (bool_decide (sel_Selector (asg_Scope a) = "")) then 20%Z else 10%Z
  else 0%Z.

(** What the loop of [AssignPolicy] replaces *)
Definition replaces (a existing : Assignment) : bool :=
  bool_decide (asg_AssignmentID existing = asg_AssignmentID a) || sameAssignmentTarget existing a.

(** The assignment before it is stored, with the version and id filled in *)
Definition resolve_assignment (now : Time) (a : Assignment) (policy : PolicyDoc) : Assignment :=
  let a := a <| asg_PolicyVersion := pol_Version policy |> in
  let a := a <| asg_AssignmentID := assignmentKey a when bool_decide (asg_AssignmentID a = "") |> in
  a <| asg_CreatedAt := now when IsZero (asg_CreatedAt a) |> <| asg_UpdatedAt := now |>.

Definition AssignPolicy (now : Time) (assignment : Assignment) (s : Store) : option Assignment * Store :=
  if bool_decide (asg_PolicyID assignment = "") then (None, s)
  else
    let a := assignment <| asg_TenantID ::= or_default |> in
    match publishedPolicy (asg_TenantID a) (asg_PolicyID a) (asg_PolicyVersion a) s with
    | None => (None, s)
    | Some policy =>
      let a := resolve_assignment now a policy in
      let stored existing := a <| asg_CreatedAt := asg_CreatedAt existing |> in
      (Some (from_option stored a (find_first (replaces a) (st_Assignments s))),
       s <| st_Assignments ::= upsert (replaces a) stored a |>)
    end.

Definition assignment_less (x y : Assignment) : bool :=
  if bool_decide (asg_TenantID x = asg_TenantID y) then string_ltb (asg_AssignmentID x) (asg_AssignmentID y)
  else string_ltb (asg_TenantID x) (asg_TenantID y).

Definition ListAssignments `{SliceSort} (backend : option (list Assignment)) (tenantID agentID : string) (s : Store)
    : list Assignment :=
  default (sort_slice assignment_less
    (filter (λ a, matches tenantID (asg_TenantID a) && matches agentID (asg_AgentID a) = true) (st_Assignments s))) backend.

(** The loop of [EffectivePolicy]: the best assignment so far and its rank *)
Definition best_step (tenantID agentID scopeType scopeSelector : string) (acc : option Assignment * Z) (a : Assignment)
    : option Assignment * Z :=
  if negb (matches tenantID (asg_TenantID a)) then acc
  else
    let rank := AssignmentRank a agentID scopeType scopeSelector in
    if (acc.2 <? rank)%Z then (Some a, rank) else acc.

Definition best_assignment (tenantID agentID scopeType scopeSelector : string) (l : list Assignment) : option Assignment :=
  (foldl (best_step tenantID agentID scopeType scopeSelector) (None, (-1)%Z) l).1.

Definition EffectivePolicy (backend : option PolicyDoc) (tenantID agentID scopeType scopeSelector : string) (s : Store)
    : option PolicyDoc :=
  match backend with
  | Some policy => Some policy
  | None =>
    match best_assignment tenantID agentID scopeType scopeSelector (st_Assignments s) with
    | Some best => publishedPolicy (asg_TenantID best) (asg_PolicyID best) (asg_PolicyVersion best) s
    | None =>
      let tenantID := or_default tenantID in
      match publishedPolicy tenantID DefaultPolicyID 0 s with
      | Some policy => Some policy
      | None => Some (DefaultPolicy tenantID)
      end
    end
  end.

(** ** The policy found *)

Definition candidate (want : PolicyDoc → bool) (version : Z) (p : PolicyDoc) : Prop :=
  want p = true ∧ (version = 0%Z ∨ pol_Version p = version).

Lemma pick_policy_sound want version latest l p :
  pick_policy want version latest l = Some p →
  (latest = Some p ∨ (p ∈ l ∧ candidate want version p)) ∧
  (version = 0%Z → ∀ q, latest = Some q ∨ (q ∈ l ∧ candidate want version q) → (pol_Version q ≤ pol_Version p)%Z).
Proof.
  unfold candidate. revert latest. induction l as [|x l IH]; intros latest; cbn.
  { intros ->. split; [by left|]. intros _ q [[= ->]|[Hq _]]; [lia|by apply elem_of_nil in Hq]. }
  destruct (want x) eqn:Ew; cbn [negb].
  2: { intros [H1 H2]%IH. split; [set_solver|]. intros Hv q [Hq|[[->|Hq]%elem_of_cons Hc]];
         [by apply H2; [|left]|by destruct Hc; congruence|by apply H2; [|right]]. }
  destruct (Z.eqb_spec version 0) as [Hv|Hv]; cbn [negb andb].
  - destruct (match latest with None => true | Some q => (pol_Version q <? pol_Version x)%Z end) eqn:El.
    + intros [H1 H2]%IH. split.
      * destruct H1 as [[= ->]|H1]; [right; set_solver|set_solver].
      * intros _ q [Hq|[[->|Hq]%elem_of_cons Hc]]; [|by apply H2; [|left]|by apply H2; [|right]].
        specialize (H2 Hv x (or_introl eq_refl)). rewrite Hq in El. apply Z.ltb_lt in El. lia.
    + intros [H1 H2]%IH. split; [set_solver|].
      intros _ q [Hq|[[->|Hq]%elem_of_cons Hc]]; [by apply H2; [|left]| |by apply H2; [|right]].
      destruct latest as [r|]; [|done]. specialize (H2 Hv r (or_introl eq_refl)). apply Z.ltb_ge in El. lia.
  - destruct (Z.eqb_spec (pol_Version x) version) as [Hx|Hx]; cbn [negb].
    + intros [= <-]. split; [right; set_solver|done].
    + intros [H1 _]%IH. split; [set_solver|done].
Qed.

Lemma pick_policy_none want version l :
  pick_policy want version None l = None → ∀ p, p ∈ l → ¬ candidate want version p.
Proof.
  unfold candidate. enough (∀ latest, pick_policy want version latest l = None →
    latest = None ∧ ∀ p, p ∈ l → ¬ candidate want version p) as H by (intros E; by apply (H None)).
  unfold candidate. induction l as [|x l IH]; intros latest; cbn; [intros ->; split; [done|by intros ? ?%elem_of_nil]|].
  destruct (want x) eqn:Ew; cbn [negb].
  2: { intros [-> H]%IH. split; [done|]. intros p [->|Hp]%elem_of_cons; [by intros [? _]; congruence|by apply H]. }
  destruct (Z.eqb_spec version 0) as [Hv|Hv]; cbn [negb andb].
  - destruct (match latest with None => true | Some q => (pol_Version q <? pol_Version x)%Z end) eqn:El.
    + intros [H _]%IH. done.
    + intros [-> _]%IH. done.
  - destruct (Z.eqb_spec (pol_Version x) version) as [Hx|Hx]; cbn [negb]; [done|].
    intros [-> H]%IH. split; [done|]. intros p [->|Hp]%elem_of_cons; [naive_solver|by apply H].
Qed.
(** ** The assignment chosen *)

Section best.
Context (tenantID agentID scopeType scopeSelector : string).

Definition rank (a : Assignment) : Z := AssignmentRank a agentID scopeType scopeSelector.
Definition applies (a : Assignment) : Prop := matches tenantID (asg_TenantID a) = true ∧ (0 ≤ rank a)%Z.

Lemma rank_cases a : rank a = (-1)%Z ∨ (0 ≤ rank a)%Z.
Proof. unfold rank, AssignmentRank. repeat case_match; lia. Qed.

Lemma best_fold l acc :
  let '(best, r) := foldl (best_step tenantID agentID scopeType scopeSelector) acc l in
  (acc.2 ≤ r)%Z ∧ (∀ a, a ∈ l → matches tenantID (asg_TenantID a) = true → (rank a ≤ r)%Z) ∧
  ((best, r) = acc ∨
   ∃ l1 a l2, l = l1 ++ a :: l2 ∧ best = Some a ∧ rank a = r ∧ matches tenantID (asg_TenantID a) = true ∧ (acc.2 < r)%Z ∧
     ∀ b, b ∈ l1 → matches tenantID (asg_TenantID b) = true → (rank b < r)%Z).
Proof.
  revert acc. induction l as [|x l IH]; intros acc; cbn [foldl].
  { destruct acc as [best r]. cbn. split; [lia|]. split; [by intros ? ?%elem_of_nil|by left]. }
  specialize (IH (best_step tenantID agentID scopeType scopeSelector acc x)).
  destruct (foldl _ _ l) as [best r]. destruct IH as (Hle & Hmax & Hbest). unfold best_step in *.
  fold (rank x) in *. destruct (matches tenantID (asg_TenantID x)) eqn:Em; cbn [negb] in *.
  - destruct (Z.ltb_spec acc.2 (rank x)) as [Hlt|Hge]; cbn [snd] in *.
    + split; [lia|]. split; [by intros a [->|Ha]%elem_of_cons ?; [|apply Hmax]|]. right.
      destruct Hbest as [[= -> ->]|(l1 & a & l2 & -> & -> & Hr & Ha & Hlt' & Hb)].
      * exists [], x, l. repeat split; [done|lia|by intros ? ?%elem_of_nil].
      * exists (x :: l1), a, l2. repeat split; [done|done|lia|].
        intros b [->|Hb']%elem_of_cons ?; [lia|by apply Hb].
    + split; [lia|]. split; [by intros a [->|Ha]%elem_of_cons ?; [lia|apply Hmax]|].
      destruct Hbest as [Hacc|(l1 & a & l2 & -> & -> & Hr & Ha & Hlt' & Hb)]; [by left|right].
      exists (x :: l1), a, l2. repeat split; [done|done|lia|].
      intros b [->|Hb']%elem_of_cons ?; [lia|by apply Hb].
  - split; [lia|]. split; [intros a [->|Ha]%elem_of_cons ?; [congruence|by apply Hmax]|].
    destruct Hbest as [Hacc|(l1 & a & l2 & -> & -> & Hr & Ha & Hlt' & Hb)]; [by left|right].
    exists (x :: l1), a, l2. repeat split; [done|done|lia|].
    intros b [->|Hb']%elem_of_cons ?; [congruence|by apply Hb].
Qed.

(** The first of the most specific assignments that apply *)
Lemma best_assignment_spec l :
  match best_assignment tenantID agentID scopeType scopeSelector l with
  | Some a => ∃ l1 l2, l = l1 ++ a :: l2 ∧ applies a ∧ (∀ b, b ∈ l → applies b → (rank b ≤ rank a)%Z) ∧
      (∀ b, b ∈ l1 → applies b → (rank b < rank a)%Z)
  | None => ∀ b, b ∈ l → ¬ applies b
  end.
Proof.
  unfold best_assignment. pose proof (best_fold l (None, (-1)%Z)) as H.
  destruct (foldl _ _ l) as [best r]. cbn [fst snd] in *. destruct H as (Hle & Hmax & [[= -> ->]|H]).
  - intros b Hb [Hm Hr]. specialize (Hmax b Hb Hm). lia.
  - destruct H as (l1 & a & l2 & -> & -> & Hr & Ha & Hlt & Hb). exists l1, l2.
    split; [done|]. split; [by split; [|lia]|]. split; [intros b Hin [Hm _]; rewrite Hr; by apply Hmax|].
    intros b Hin [Hm _]. rewrite Hr. by apply Hb.
Qed.
End best.

(** ** A new assignment takes effect *)

(** The agent's own assignments outrank all others. *)
Lemma rank_agent a agentID scopeType scopeSelector :
  agentID ≠ "" → rank agentID scopeType scopeSelector a = 30%Z ↔ asg_AgentID a = agentID.
Proof.
  intros Hne. unfold rank, AssignmentRank. repeat case_bool_decide; cbn; split; intros; lia || congruence || done.
Qed.

Lemma rank_le_30 a agentID scopeType scopeSelector : (rank agentID scopeType scopeSelector a ≤ 30)%Z.
Proof. unfold rank, AssignmentRank. repeat case_match; lia. Qed.

Lemma or_default_ne t : or_default t ≠ "".
Proof. unfold or_default. by case_bool_decide. Qed.

Lemma matches_eq want x : want ≠ "" → matches want x = true → x = want.
Proof. unfold matches. intros Hw. repeat case_bool_decide; done. Qed.

(** The leftmost element of two decompositions *)
Lemma leftmost {A} (l1 l2 k1 k2 : list A) x y :
  l1 ++ x :: l2 = k1 ++ y :: k2 → x ∉ k1 → y = x ∨ y ∈ l1.
Proof.
  intros E Hx. apply app_eq_inv in E as [(k & -> & E)|(k & -> & E)]; destruct k as [|z k]; cbn in E; simplify_eq.
  - by left.
  - right. set_solver.
  - by left.
  - exfalso. apply Hx. set_solver.
Qed.

Lemma best_assignment_agent tenantID agentID scopeType scopeSelector l1 a l2 :
  agentID ≠ "" → asg_AgentID a = agentID → asg_TenantID a = tenantID →
  (∀ b, b ∈ l1 → asg_AgentID b = agentID → matches tenantID (asg_TenantID b) = true → False) →
  best_assignment tenantID agentID scopeType scopeSelector (l1 ++ a :: l2) = Some a.
Proof.
  intros Hne Ha Ht Hl1.
  assert (applies tenantID agentID scopeType scopeSelector a) as Happ.
  { split; [unfold matches; rewrite Ht, (bool_decide_eq_true_2 (tenantID = tenantID)) by done; apply orb_true_r|].
    apply (rank_agent a agentID scopeType scopeSelector) in Ha; [lia|done]. }
  pose proof (best_assignment_spec tenantID agentID scopeType scopeSelector (l1 ++ a :: l2)) as H.
  destruct (best_assignment _ _ _ _ _) as [b|]; [|exfalso; apply (H a); [set_solver|done]].
  destruct H as (k1 & k2 & Hk & [Hbm Hb] & Hmax & Hfirst).
  assert (rank agentID scopeType scopeSelector b = 30%Z) as Hb30.
  { pose proof (rank_le_30 b agentID scopeType scopeSelector). specialize (Hmax a ltac:(set_solver) Happ).
    apply (rank_agent a agentID scopeType scopeSelector) in Ha; [lia|done]. }
  destruct (leftmost _ _ _ _ _ _ Hk) as [->|Hin]; [|done|].
  - intros Hin. specialize (Hfirst a Hin Happ).
    apply (rank_agent a agentID scopeType scopeSelector) in Ha; [lia|done].
  - exfalso. apply (Hl1 b Hin); [|done]. by apply rank_agent in Hb30.
Qed.

(** Assigning a policy to an agent takes effect: when the assignment is
    accepted and the agent has no other assignment for a different scope, the
    effective policy of the agent is from then on the published policy with
    the id asked for and the version reported back. *)
Theorem assignment_takes_effect now a s a' s' scopeType scopeSelector :
  AssignPolicy now a s = (Some a', s') → asg_AgentID a ≠ "" →
  (∀ p, p ∈ st_Policies s → pol_Version p ≠ 0%Z) →
  (∀ b, b ∈ st_Assignments s → asg_TenantID b = asg_TenantID a' → asg_AgentID b = asg_AgentID a →
     sameAssignmentTarget b a' = true) →
  ∃ p, EffectivePolicy None (asg_TenantID a') (asg_AgentID a) scopeType scopeSelector s' = Some p ∧
    p ∈ st_Policies s ∧ pol_Published p = true ∧ pol_PolicyID p = asg_PolicyID a ∧
    pol_Version p = asg_PolicyVersion a'.
Proof.
  unfold AssignPolicy. case_match; [done|]. set (a0 := a <| asg_TenantID ::= or_default |>).
  destruct (publishedPolicy (asg_TenantID a0) _ _ s) as [pol|] eqn:Epol; [|done].
  set (r := resolve_assignment now a0 pol). set (stored := λ existing, r <| asg_CreatedAt := asg_CreatedAt existing |>).
  intros [= Ha' <-] Hagent Hver Hother.
  assert (asg_TenantID a' = asg_TenantID a0 ∧ asg_AgentID a' = asg_AgentID a ∧ asg_PolicyVersion a' = pol_Version pol ∧
    ∀ b, sameAssignmentTarget b a' = sameAssignmentTarget b r) as (Ht & Hag & Hv & Hsame).
  { rewrite <- Ha'. by destruct (find_first _ _). }
  assert (∃ l1 y l2, upsert (replaces r) stored r (st_Assignments s) = l1 ++ y :: l2 ∧
    (y = r ∨ ∃ x, y = stored x) ∧ Forall (λ b, replaces r b = false ∧ b ∈ st_Assignments s) l1) as (l1 & y & l2 & Hup & Hy & Hl1).
  { unfold upsert. pose proof (replace_first_spec (replaces r) stored (st_Assignments s)) as Hs.
    destruct (replace_first _ _ _); cbn.
    - destruct Hs as (l1 & x & l2 & -> & -> & _ & Hl1). exists l1, (stored x), l2. split; [done|]. split; [eauto|].
      apply list.Forall_forall. intros b Hb. split; [by eapply list.Forall_forall in Hl1|set_solver].
    - exists (st_Assignments s), r, []. split; [done|]. split; [by left|].
      apply list.Forall_forall. intros b Hb. split; [by eapply list.Forall_forall in Hs|done]. }
  assert (asg_TenantID y = asg_TenantID a0 ∧ asg_AgentID y = asg_AgentID a ∧ asg_PolicyID y = asg_PolicyID a ∧
    asg_PolicyVersion y = pol_Version pol) as (Hyt & Hya & Hyp & Hyv) by (destruct Hy as [->|[x ->]]; done).
  unfold EffectivePolicy. cbn [st_Assignments assign]. unfold assign at 1. cbn [st_Assignments]. rewrite Hup.
  assert (asg_TenantID a0 ≠ "") as Ht0.
  { change (asg_TenantID a0) with (or_default (asg_TenantID a)). apply or_default_ne. }
  rewrite (best_assignment_agent (asg_TenantID a') (asg_AgentID a) scopeType scopeSelector l1 y l2 Hagent Hya) by
    (congruence || (intros b Hb Hba Hbt; eapply list.Forall_forall in Hl1 as [Hr Hin]; [|done];
      unfold replaces in Hr; apply orb_false_iff in Hr as [_ Hr]; rewrite <- Hsame, Hother in Hr; [done|done| |done];
      apply matches_eq in Hbt; congruence)).
  rewrite Hyt, Hyp, Hyv. apply pick_policy_sound in Epol as [[?|[Hpin [Hw _]]] _]; [done|].
  unfold publishedPolicy. cbn [st_Policies].
  destruct (pick_policy _ (pol_Version pol) None (st_Policies s)) as [p|] eqn:Ep.
  - exists p. split; [done|]. apply pick_policy_sound in Ep as [[?|[Hp [Hw' Hv']]] _]; [done|].
    unfold wanted in Hw'. rewrite !andb_true_iff, bool_decide_eq_true in Hw'. destruct Hw' as [[_ Hid] Hpub].
    destruct Hv' as [Hv'|Hv']; [by destruct (Hver pol)|]. repeat split; [done..|congruence].
  - exfalso. by apply (pick_policy_none _ _ _ Ep pol Hpin); split; [|right].
Qed.

Definition demo_store : Store := EnsureDefaultPolicy 1%Z "default" Open.
Definition demo_assignment : Assignment :=
  MkAssignment "assignment-1" "" "agent-1" (MkScopeSelector "" "") DefaultPolicyID 0 0%Z 0%Z.
Definition demo_accepted : Assignment :=
  MkAssignment "assignment-1" "default" "agent-1" (MkScopeSelector "" "") DefaultPolicyID 1 2%Z 2%Z.

Lemma assignment_takes_effect_witness :
  let s' := (AssignPolicy 2%Z demo_assignment demo_store).2 in
  AssignPolicy 2%Z demo_assignment demo_store = (Some demo_accepted, s') ∧
  ∃ p, EffectivePolicy None "default" "agent-1" "" "" s' = Some p ∧
    p ∈ st_Policies demo_store ∧ pol_Published p = true ∧ pol_PolicyID p = DefaultPolicyID ∧ pol_Version p = 1%Z.
Proof.
  assert (AssignPolicy 2%Z demo_assignment demo_store = (Some demo_accepted, (AssignPolicy 2%Z demo_assignment demo_store).2)) as Ha
    by (vm_compute; reflexivity).
  split; [exact Ha|]. apply (assignment_takes_effect _ _ _ _ _ "" "" Ha).
  - discriminate.
  - intros p Hp. apply list_elem_of_singleton in Hp as ->. discriminate.
  - intros b Hb. by apply elem_of_nil in Hb.
Defined.

End StorePolicies.
