(* ===== verification/StoreTelemetry.v ===== *)
(** * Events, signals and incidents in the store ([internal/store/store.go])

    Telemetry is kept in lists, without duplicates: an event by its id, a
    signal and an incident by a key computed from their content.  Incidents
    collect evidence and can be merged. *)

From S2P Require Import Prelude GoStrings GoData GoSha EventModel Graph Analytics StoreData.

Module StoreTelemetry.
Import EventModel Graph Rarity Incidents StoreData.

Definition LabelSelector : Type := gmap string string.

Definition labelSelectorMatches (labels : gmap string string) (selector : LabelSelector) : bool :=
  forallb (λ '(key, want), bool_decide (key = "") || bool_decide (default "" (labels !! key) = want)) (map_to_list selector).

Definition LabelsMatch := labelSelectorMatches.

(** ** Keys *)

Definition layerName (where_ : SignalWhere) : string :=
  match where_ with
  | SIGNAL_WHERE_ENDPOINT => "endpoint"
  | SIGNAL_WHERE_CLOUD => "cloud"
  | SIGNAL_WHERE_UNSPECIFIED => ""
  end.

Definition sortedEntities (ents : list EntityRef) : list string :=
  sort_strings ((λ ent, Join [ent_Kind ent; ent_Key ent; ent_Role ent] nul) <$> ents).

(** The keys are sorted, so the order of the map does not matter. *)
Definition labelKey (labels : gmap string string) : string :=
  Join ((λ key, key +:+ "=" +:+ default "" (labels !! key)) <$> sort_strings (elements (dom labels))) nul.

Definition boolString (v : bool) : string := if v then "true" else "false".

Definition signalKey (sig : Signal) : string :=
  stableKey ([labelKey (sig_Labels sig); layerName (sig_Where sig); sig_Name sig; sig_LineageId sig;
              boolString (sig_Terminal sig)] ++
             sort_strings (sig_EventRefs sig) ++ sort_strings (sig_SignalRefs sig) ++ sortedEntities (sig_Entities sig)).

Definition SignalProjectionKey := signalKey.

Definition converge_method (inc : Incident) : string := from_option ct_Method "" (inc_Converge inc).

Definition incidentKey (inc : Incident) : string :=
  stableKey ([labelKey (inc_Labels inc); inc_Summary inc; converge_method inc] ++
             sort_strings (inc_LineageIds inc) ++ sort_strings (inc_Terminals inc) ++
             (signalKey <$> inc_ContributingSignals inc)).

Definition IncidentProjectionKey := incidentKey.

(** ** Evidence *)

Definition graphNodeKey (node : GraphNode) : string :=
  if negb (bool_decide (gn_Id node = "")) then gn_Id node else Join [gn_Kind node; gn_Label node] nul.

Definition graphEdgeKey (edge : GraphEdge) : string :=
  if negb (bool_decide (ge_Id edge = "")) then ge_Id edge else Join [ge_From edge; ge_To edge; ge_Kind edge] nul.

(** The closures [appendNode] and [appendEdge] over a list: the first element of
    each key is kept, elements with a blank key are left out. *)
Fixpoint append_new {A} (key : A → string) (seen : gset string) (l : list A) : list A :=
  match l with
  | [] => []
  | x :: l' =>
    if bool_decide (key x = "") || bool_decide (key x ∈ seen) then append_new key seen l'
    else x :: append_new key ({[key x]} ∪ seen) l'
  end.

Definition nodes_of (e : option EvidenceSubgraph) : list GraphNode := from_option es_Nodes [] e.
Definition edges_of (e : option EvidenceSubgraph) : list GraphEdge := from_option es_Edges [] e.

Definition mergeEvidence (base extra : option EvidenceSubgraph) : option EvidenceSubgraph :=
  match base, extra with
  | None, None => None
  | _, _ => Some (MkEvidenceSubgraph (append_new graphNodeKey ∅ (nodes_of base ++ nodes_of extra))
                                     (append_new graphEdgeKey ∅ (edges_of base ++ edges_of extra)))
  end.

(** [mergeStrings] keeps [base] as it is, [mergeSignals] likewise. *)
Definition mergeStrings (base extra : list string) : list string :=
  base ++ append_new id (list_to_set base) extra.

Definition mergeSignals (base extra : list Signal) : list Signal :=
  base ++ append_new signalKey (list_to_set (filter (λ key, key ≠ "") (signalKey <$> base))) extra.

(** ** Adding *)

Definition AddEvent (ev : CanonicalEvent) (s : Store) : bool * Store :=
  let p := λ existing, negb (bool_decide (ev_Id ev = "")) && bool_decide (ev_Id existing = ev_Id ev) in
  (bool_decide (find_first p (st_Events s) = None), s <| st_Events ::= upsert p (λ _, ev) ev |>).

Definition AddSignal (sig : Signal) (s : Store) : bool * Store :=
  let key := signalKey sig in
  let p := λ existing, negb (bool_decide (key = "")) && bool_decide (signalKey existing = key) in
  (bool_decide (find_first p (st_Signals s) = None), s <| st_Signals ::= upsert p (λ _, sig) sig |>).

Definition AddIncident (inc : Incident) (s : Store) : bool * Store :=
  let key := incidentKey inc in
  let p := λ existing, negb (bool_decide (key = "")) && bool_decide (incidentKey existing = key) in
  let merged existing := inc <| inc_Evidence := mergeEvidence (inc_Evidence inc) (inc_Evidence existing) |> in
  (bool_decide (find_first p (st_Incidents s) = None), s <| st_Incidents ::= upsert p merged inc |>).

Definition ReplaceDerivedForLabels (labels : LabelSelector) (cloudSignals : list Signal) (incidents : list Incident)
    (s : Store) : Store :=
  s <| st_Signals ::= λ l,
         filter (λ sig, labelSelectorMatches (sig_Labels sig) labels &&
                        bool_decide (layerName (sig_Where sig) = "cloud") = false) l ++ cloudSignals |>
    <| st_Incidents ::= λ l, filter (λ inc, labelSelectorMatches (inc_Labels inc) labels = false) l ++ incidents |>.

(** ** Reading *)

Definition ListEvents (labels : LabelSelector) (behavior : string) (s : Store) : list CanonicalEvent :=
  filter (λ ev, labelSelectorMatches (ev_Labels ev) labels && matches behavior (ev_Behavior ev) = true) (st_Events s).

Definition ListSignals (labels : LabelSelector) (layer : string) (terminalOnly : bool) (s : Store) : list Signal :=
  filter (λ sig, labelSelectorMatches (sig_Labels sig) labels && negb (terminalOnly && negb (sig_Terminal sig)) &&
                 matches layer (layerName (sig_Where sig)) = true) (st_Signals s).

Definition GetSignal (sid : string) (s : Store) : option Signal :=
  if bool_decide (sid = "") then None else find_first (λ sig, bool_decide (sig_Id sig = sid)) (st_Signals s).

Definition ListIncidents (labels : LabelSelector) (s : Store) : list Incident :=
  filter (λ inc, labelSelectorMatches (inc_Labels inc) labels = true) (st_Incidents s).

Definition is_incident (iid : string) (labels : LabelSelector) (inc : Incident) : bool :=
  matches iid (inc_Id inc) && labelSelectorMatches (inc_Labels inc) labels.

Definition GetIncident (iid : string) (labels : LabelSelector) (s : Store) : option Incident :=
  find_first (is_incident iid labels) (st_Incidents s).

Definition AttachIncidentEvidence (iid : string) (labels : LabelSelector) (evidence : option EvidenceSubgraph) (s : Store)
    : option Incident * Store :=
  if bool_decide (iid = "") && bool_decide (labels = ∅) || bool_decide (evidence = None) then (None, s)
  else
    let attach inc := inc <| inc_Evidence := mergeEvidence (inc_Evidence inc) evidence |> in
    (attach <$> find_first (is_incident iid labels) (st_Incidents s),
     s <| st_Incidents ::= update_first (is_incident iid labels) attach |>).

(** ** Merging *)

(** The index of the last incident with the id, as the loop leaves it *)
Fixpoint last_index (iid : string) (l : list Incident) : option nat :=
  match l with
  | [] => None
  | inc :: l' =>
    match last_index iid l' with
    | Some i => Some (S i)
    | None => if bool_decide (inc_Id inc = iid) then Some 0%nat else None
    end
  end.

Definition merge_incident (target source : Incident) : Incident :=
  target <| inc_Severity := inc_Severity source when (inc_Severity target <? inc_Severity source)%Z |>
         <| inc_Mitre ::= λ m, mergeStrings m (inc_Mitre source) |>
         <| inc_LineageIds ::= λ m, mergeStrings m (inc_LineageIds source) |>
         <| inc_Terminals ::= λ m, mergeStrings m (inc_Terminals source) |>
         <| inc_Evidence ::= λ e, mergeEvidence e (inc_Evidence source) |>
         <| inc_ContributingSignals ::= λ m, mergeSignals m (inc_ContributingSignals source) |>.

Definition MergeIncidents (targetID sourceID : string) (s : Store) : option Incident * Store :=
  if bool_decide (targetID = "") || bool_decide (sourceID = "") || bool_decide (targetID = sourceID) then (None, s)
  else
    match last_index targetID (st_Incidents s), last_index sourceID (st_Incidents s) with
    | Some i, Some j =>
      match st_Incidents s !! i, st_Incidents s !! j with
      | Some target, Some source =>
        let merged := merge_incident target source in
        (Some merged, s <| st_Incidents ::= λ l, delete j (<[i := merged]> l) |>)
      | _, _ => (None, s)
      end
    | _, _ => (None, s)
    end.

(** ** Deletion *)

Definition DeleteByLabels (labels : LabelSelector) (s : Store) : Store :=
  if bool_decide (labels = ∅) then
    s <| st_Agents := [] |> <| st_Events := [] |> <| st_Signals := [] |> <| st_Incidents := [] |>
      <| st_Health := ∅ |> <| st_AgentSessions := [] |> <| st_Metrics := zero_metrics |>
  else
    s <| st_Events ::= filter (λ ev, labelSelectorMatches (ev_Labels ev) labels = false) |>
      <| st_Signals ::= filter (λ sig, labelSelectorMatches (sig_Labels sig) labels = false) |>
      <| st_Incidents ::= filter (λ inc, labelSelectorMatches (inc_Labels inc) labels = false) |>.

(** ** Rarity *)

Definition RarityBaselineSnapshot (s : Store) : Baseline := Snapshot (st_RarityBaseline s).

Definition ObserveRaritySignals (signals : list Signal) (s : Store) : Baseline * Store :=
  let s := s <| st_RarityBaseline ::= Observe signals |> in (Snapshot (st_RarityBaseline s), s).

(** ** What a merge keeps *)

Lemma append_new_spec {A} (key : A → string) seen l :
  NoDup (key <$> append_new key seen l) ∧
  ∀ k, k ∈ key <$> append_new key seen l ↔ k ≠ "" ∧ k ∉ seen ∧ k ∈ key <$> l.
Proof.
  revert seen. induction l as [|x l IH]; intros seen; cbn.
  { split; [constructor|]. intros k. rewrite !elem_of_nil. tauto. }
  destruct (decide (key x = "")) as [Hb|Hb], (decide (key x ∈ seen)) as [Hs|Hs];
    repeat rewrite (bool_decide_eq_true_2 (key x = "")) by done;
    repeat rewrite (bool_decide_eq_true_2 (key x ∈ seen)) by done;
    repeat rewrite (bool_decide_eq_false_2 (key x = "")) by done;
    repeat rewrite (bool_decide_eq_false_2 (key x ∈ seen)) by done; cbn [orb].
  1-3: destruct (IH seen) as [Hn Hk]; split; [done|]; intros k; rewrite Hk, elem_of_cons; set_solver.
  destruct (IH ({[key x]} ∪ seen)) as [Hn Hk]. split.
  - cbn. constructor; [|done]. rewrite Hk. set_solver.
  - intros k. cbn. rewrite !elem_of_cons, Hk. destruct (decide (k = key x)) as [->|Hne]; set_solver.
Qed.

Definition node_keys (e : option EvidenceSubgraph) : gset string := list_to_set (filter (λ k, k ≠ "") (graphNodeKey <$> nodes_of e)).
Definition edge_keys (e : option EvidenceSubgraph) : gset string := list_to_set (filter (λ k, k ≠ "") (graphEdgeKey <$> edges_of e)).

Lemma elem_of_keys {A} (key : A → string) l k :
  k ∈ (list_to_set (filter (λ k, k ≠ "") (key <$> l)) : gset string) ↔ k ≠ "" ∧ k ∈ key <$> l.
Proof. by rewrite elem_of_list_to_set, list_elem_of_filter. Qed.

(** Merged evidence has the nodes and edges of both sides, each once. *)
Lemma mergeEvidence_spec base extra :
  node_keys (mergeEvidence base extra) = node_keys base ∪ node_keys extra ∧
  edge_keys (mergeEvidence base extra) = edge_keys base ∪ edge_keys extra ∧
  NoDup (graphNodeKey <$> nodes_of (mergeEvidence base extra)) ∧ NoDup (graphEdgeKey <$> edges_of (mergeEvidence base extra)).
Proof.
  destruct (decide (base = None ∧ extra = None)) as [[-> ->]|Hne].
  { cbn. split; [done|]. split; [done|]. split; constructor. }
  assert (mergeEvidence base extra = Some (MkEvidenceSubgraph (append_new graphNodeKey ∅ (nodes_of base ++ nodes_of extra))
    (append_new graphEdgeKey ∅ (edges_of base ++ edges_of extra)))) as -> by (destruct base, extra; naive_solver).
  destruct (append_new_spec graphNodeKey ∅ (nodes_of base ++ nodes_of extra)) as [Hn Hnk].
  destruct (append_new_spec graphEdgeKey ∅ (edges_of base ++ edges_of extra)) as [He Hek].
  cbn [nodes_of edges_of from_option es_Nodes es_Edges] in *.
  split; [|split; [|done]]; apply set_eq; intros k; unfold node_keys, edge_keys;
    rewrite elem_of_union, !elem_of_keys; cbn [nodes_of edges_of from_option es_Nodes es_Edges];
    rewrite ?Hnk, ?Hek, fmap_app, elem_of_app; set_solver.
Qed.
(** Nodes and edges together *)
Definition items (e : option EvidenceSubgraph) : gset (string + string) :=
  set_map inl (node_keys e) ∪ set_map inr (edge_keys e).

Global Arguments items : simpl never.
Global Arguments mergeEvidence : simpl never.

Lemma items_merge base extra : items (mergeEvidence base extra) = items base ∪ items extra.
Proof. unfold items. destruct (mergeEvidence_spec base extra) as (-> & -> & _). set_solver. Qed.

Definition all_items (l : list Incident) : gset (string + string) := ⋃ ((λ inc, items (inc_Evidence inc)) <$> l).

Global Arguments all_items : simpl never.

Lemma elem_of_all_items l k : k ∈ all_items l ↔ ∃ inc, inc ∈ l ∧ k ∈ items (inc_Evidence inc).
Proof.
  unfold all_items. rewrite elem_of_union_list. split.
  - intros (X & HX & Hk). apply list_elem_of_fmap in HX as (inc & -> & Hin). eauto.
  - intros (inc & Hin & Hk). exists (items (inc_Evidence inc)). split; [|done].
    apply list_elem_of_fmap. by exists inc.
Qed.

Lemma all_items_app l1 l2 : all_items (l1 ++ l2) = all_items l1 ∪ all_items l2.
Proof. unfold all_items. by rewrite fmap_app, union_list_app_L. Qed.

Lemma all_items_cons inc l : all_items (inc :: l) = items (inc_Evidence inc) ∪ all_items l.
Proof. done. Qed.

Lemma elem_of_list_delete {A} (j : nat) (l : list A) x : x ∈ delete j l ↔ ∃ n, n ≠ j ∧ l !! n = Some x.
Proof.
  rewrite delete_take_drop, elem_of_app, elem_of_take, !list_elem_of_lookup. split.
  - intros [(n & Hn & Hlt)|(n & Hn)].
    + exists n. split; [lia|done].
    + rewrite lookup_drop in Hn. exists (S j + n)%nat. split; [lia|done].
  - intros (n & Hne & Hn). destruct (decide (n < j)%nat) as [Hlt|Hge]; [left; eauto|right].
    exists (n - S j)%nat. rewrite lookup_drop. by replace (S j + (n - S j))%nat with n by lia.
Qed.

Lemma last_index_lookup iid l i : last_index iid l = Some i → ∃ inc, l !! i = Some inc ∧ inc_Id inc = iid.
Proof.
  revert i. induction l as [|x l IH]; intros i; cbn; [done|]. destruct (last_index iid l) as [n|].
  - intros [= <-]. by apply IH.
  - case_bool_decide; [|done]. intros [= <-]. by exists x.
Qed.

Lemma AddIncident_items inc s :
  all_items (st_Incidents (AddIncident inc s).2) = all_items (st_Incidents s) ∪ items (inc_Evidence inc).
Proof.
  unfold AddIncident, assign, upsert. cbn [snd st_Incidents].
  match goal with |- context [replace_first ?p ?f ?l] =>
    pose proof (replace_first_spec p f l) as Hs; destruct (replace_first p f l) end; cbn.
  - destruct Hs as (l1 & x & l2 & Hl & -> & _ & _). rewrite Hl, !all_items_app, !all_items_cons.
    cbn. rewrite items_merge. clear. set_solver.
  - rewrite all_items_app, all_items_cons. change (all_items []) with (∅ : gset (string + string)).
    by rewrite (right_id_L ∅ (∪)).
Qed.

Lemma AttachIncidentEvidence_items iid labels evidence s :
  let '(res, s') := AttachIncidentEvidence iid labels evidence s in
  all_items (st_Incidents s') = all_items (st_Incidents s) ∪ (if res then items evidence else ∅).
Proof.
  unfold AttachIncidentEvidence. destruct (_ || _); [by rewrite (right_id_L ∅ (∪))|]. unfold assign, update_first. cbn [st_Incidents].
  match goal with |- context [replace_first ?p ?f ?l] =>
    pose proof (replace_first_spec p f l) as Hs; destruct (replace_first p f l) end;
    destruct (find_first (is_incident iid labels) (st_Incidents s)) eqn:Ef; cbn.
  - destruct Hs as (l1 & x & l2 & -> & -> & _ & _). rewrite !all_items_app, !all_items_cons.
    cbn. rewrite items_merge. clear. set_solver.
  - destruct Hs as (l1 & x & l2 & Hl & _ & Hx & _). rewrite find_first_none in Ef. rewrite Ef in Hx; [done|].
    rewrite Hl. set_solver.
  - apply find_first_elem in Ef as [Hin Hp]. eapply list.Forall_forall in Hs; [|done]. congruence.
  - by rewrite (right_id_L ∅ (∪)).
Qed.

Lemma MergeIncidents_items targetID sourceID s :
  let '(res, s') := MergeIncidents targetID sourceID s in
  all_items (st_Incidents s') = all_items (st_Incidents s) ∧
  length (st_Incidents s) = (length (st_Incidents s') + (if res then 1 else 0))%nat.
Proof.
  unfold MergeIncidents. destruct (_ || _ || _) eqn:Eg; [split; [done|lia]|].
  destruct (last_index targetID (st_Incidents s)) as [i|] eqn:Ei; [|split; [done|lia]].
  destruct (last_index sourceID (st_Incidents s)) as [j|] eqn:Ej; [|split; [done|lia]].
  destruct (last_index_lookup _ _ _ Ei) as (target & Ht & Htid), (last_index_lookup _ _ _ Ej) as (source & Hs & Hsid).
  assert (i ≠ j) as Hij by (intros ->; rewrite !orb_false_iff, !bool_decide_eq_false in Eg; naive_solver).
  assert (items (inc_Evidence (merge_incident target source)) = items (inc_Evidence target) ∪ items (inc_Evidence source))
    as Hm by apply items_merge.
  rewrite Ht, Hs. unfold assign. cbn [st_Incidents]. split.
  - apply set_eq. intros k. rewrite !elem_of_all_items. split.
    + intros (inc & (n & Hn & Hl)%elem_of_list_delete & Hk). destruct (decide (n = i)) as [->|Hni].
      * rewrite list_lookup_insert_eq in Hl by (by eapply lookup_lt_Some). simplify_eq. rewrite Hm in Hk.
        apply elem_of_union in Hk as [Hk|Hk]; [exists target|exists source]; split; try done; by eapply list_elem_of_lookup_2.
      * rewrite list_lookup_insert_ne in Hl by done. exists inc. split; [by eapply list_elem_of_lookup_2|done].
    + intros (inc & (n & Hl)%list_elem_of_lookup & Hk). destruct (decide (n = i ∨ n = j)) as [Hnij|Hnij].
      * exists (merge_incident target source). split.
        -- apply elem_of_list_delete. exists i. split; [done|]. by rewrite list_lookup_insert_eq by (by eapply lookup_lt_Some).
        -- rewrite Hm. destruct Hnij as [-> | ->]; simplify_eq; set_solver.
      * exists inc. split; [|done]. apply elem_of_list_delete. exists n. split; [tauto|].
        rewrite list_lookup_insert_ne; [done|naive_solver].
  - rewrite length_delete by (rewrite list_lookup_insert_ne by done; by eauto). rewrite length_insert.
    assert (j < length (st_Incidents s))%nat by (by eapply lookup_lt_Some). lia.
Qed.

(** C37. No evidence is lost: storing an incident, also over an earlier one with the
    same key, attaching evidence and merging two incidents keep every node
    and edge the store's incidents held, add exactly the new ones, and a merge
    leaves one incident less. *)
Theorem evidence_conserved s :
  (∀ inc, all_items (st_Incidents (AddIncident inc s).2) = all_items (st_Incidents s) ∪ items (inc_Evidence inc)) ∧
  (∀ iid labels evidence,
     let '(res, s') := AttachIncidentEvidence iid labels evidence s in
     all_items (st_Incidents s') = all_items (st_Incidents s) ∪ (if res then items evidence else ∅)) ∧
  (∀ targetID sourceID,
     let '(res, s') := MergeIncidents targetID sourceID s in
     all_items (st_Incidents s') = all_items (st_Incidents s) ∧
     length (st_Incidents s) = (length (st_Incidents s') + (if res then 1 else 0))%nat).
Proof.
  split; [|split]; intros.
  - apply AddIncident_items.
  - apply AttachIncidentEvidence_items.
  - apply MergeIncidents_items.
Qed.

End StoreTelemetry.
