(* ===== verification/StoreResponses.v ===== *)
(** * Response commands in the store and the API ([internal/store/store.go], [internal/manager/api/http_responses.go])

    A response command is created through the API, which checks it against
    the scope of the agent and the response policy in force; when approval is
    required it waits until enough people have approved it; only then is it
    handed to the agent; the agent acknowledges it.

    [now] is the clock; [health], [effective] and [effective2] are what the
    durable backend answered, as in [StoreData]. *)

From S2P Require Import Prelude GoStrings GoData EventModel Policy Response PolicyModel Health StoreData StoreAgents StorePolicies StoreTelemetry.

Module StoreResponses.
Import EventModel Policy Response PolicyModel Health StoreData StoreAgents StorePolicies StoreTelemetry.

Definition is_response (responseID : string) (cmd : Command) : bool := bool_decide (cmd_ResponseID cmd = responseID).

Definition CreateResponse (now : Time) (cmd : Command) (s : Store) : Command * Store :=
  let cmd := NormalizeCommand now cmd in
  let stored existing := cmd <| cmd_CreatedAt := cmd_CreatedAt existing |> in
  (from_option stored cmd (find_first (is_response (cmd_ResponseID cmd)) (st_Responses s)),
   s <| st_Responses ::= upsert (is_response (cmd_ResponseID cmd)) stored cmd |>).

Definition listed (tenantID agentID : string) (cmd : Command) : bool :=
  matches tenantID (cmd_TenantID cmd) && matches agentID (cmd_AgentID cmd).

(** The last acknowledgement of each response *)
Definition acks_by_id (acks : list Ack) : gmap string Ack := foldl (λ m ack, <[rack_ResponseID ack := ack]> m) ∅ acks.

Definition ListResponses `{SliceSort} (backend : option (list AuditRecord)) (tenantID agentID : string) (s : Store)
    : list AuditRecord :=
  match backend with
  | Some records => records
  | None =>
    sort_slice (λ x y, Before (cmd_CreatedAt (aud_Command x)) (cmd_CreatedAt (aud_Command y)))
      ((λ cmd, MkAuditRecord cmd (acks_by_id (st_ResponseAcks s) !! cmd_ResponseID cmd)) <$>
        filter (λ cmd, listed tenantID agentID cmd = true) (st_Responses s))
  end.

Definition acked (s : Store) (cmd : Command) : bool :=
  existsb (λ ack, bool_decide (rack_ResponseID ack = cmd_ResponseID cmd)) (st_ResponseAcks s).

Definition PendingResponses `{SliceSort} (tenantID agentID : string) (s : Store) : list Command :=
  sort_slice (λ x y, Before (cmd_CreatedAt x) (cmd_CreatedAt y))
    (filter (λ cmd, listed tenantID agentID cmd && bool_decide (cmd_Status cmd = "pending") && negb (acked s cmd) = true)
      (st_Responses s)).

Definition may_approve (role : string) (cmd : Command) : bool :=
  cmd_ApprovalRequired cmd && bool_decide (cmd_Status cmd = "pending_approval") &&
  (bool_decide (cmd_ApprovalStatus cmd = "required") || bool_decide (cmd_ApprovalStatus cmd = "partial")) &&
  ApprovalRoleAllowed cmd role.

(** The command after one more decision *)
Definition decide_approval (now : Time) (approved : bool) (actor role reason : string) (cmd : Command) : Command :=
  let cmd := cmd <| cmd_Approvals ::= λ l, l ++ [MkApproval actor role approved reason now] |> in
  let cmd :=
    if approved && (ApprovalThreshold cmd <=? ApprovalCount cmd)%Z then
      cmd <| cmd_Status := "pending" |> <| cmd_ApprovalStatus := "approved" |>
          <| cmd_ApprovedBy := actor |> <| cmd_ApprovedAt := now |>
    else if approved then cmd <| cmd_ApprovalStatus := "partial" |>
    else cmd <| cmd_Status := "denied" |> <| cmd_ApprovalStatus := "rejected" |>
             <| cmd_ApprovedBy := actor |> <| cmd_ApprovedAt := now |> in
  let cmd := cmd <| cmd_UpdatedAt := now |> in
  if bool_decide (reason = "") then cmd
  else cmd <| cmd_Reason ::= λ r, if bool_decide (r = "") then reason else r +:+ "; approval: " +:+ reason |>.

Definition ApproveResponse (now : Time) (tenantID agentID responseID : string) (approved : bool)
    (actor role reason : string) (s : Store) : option Command * Store :=
  if bool_decide (responseID = "") then (None, s)
  else
    let p := λ cmd, is_response responseID cmd && listed (or_default tenantID) agentID cmd in
    match find_first p (st_Responses s) with
    | None => (None, s)
    | Some cmd =>
      if negb (may_approve role cmd) then (None, s)
      else (Some (decide_approval now approved actor role reason cmd),
            s <| st_Responses ::= update_first p (decide_approval now approved actor role reason) |>)
    end.

Definition AckResponse (now : Time) (ack : Ack) (s : Store) : option Command * Store :=
  if bool_decide (rack_ResponseID ack = "") then (None, s)
  else
    let ack := ack <| rack_ObservedAt := now when IsZero (rack_ObservedAt ack) |> in
    let p := is_response (rack_ResponseID ack) in
    let mark cmd := cmd <| cmd_Status := "acked" |> <| cmd_UpdatedAt := rack_ObservedAt ack |> in
    match find_first p (st_Responses s) with
    | None => (None, s)
    | Some cmd =>
      (Some (mark cmd),
       s <| st_Responses ::= update_first p mark |>
         <| st_ResponseAcks ::= upsert (λ a, bool_decide (rack_ResponseID a = rack_ResponseID ack)) (λ _, ack) ack |>)
    end.

(** ** The API *)

Inductive reply := BadRequest (msg : string) | NotFound (msg : string) | Forbidden (cmd : Command) | Created (cmd : Command).

Definition denyResponse (now now2 : Time) (cmd : Command) (decision : Verdict) (s : Store) : reply * Store :=
  let cmd := NormalizeCommand now cmd in
  let cmd := cmd <| cmd_Status := "denied" |>
                 <| cmd_Reason ::= λ r, if bool_decide (r = "") then vd_Reason decision
                                        else r +:+ "; denied: " +:+ vd_Reason decision |> in
  let '(cmd, s) := CreateResponse now2 cmd s in (Forbidden cmd, s).

Definition scope_of_health (h : AgentHealth) : Scope := MkScope (rs_Type (ah_Scope h)) (rs_Selector (ah_Scope h)).

(** The command with the scope filled in, or the verdict against it *)
Definition check_scope (health : option AgentHealth) (cmd : Command) : Command * Verdict :=
  match health with
  | Some h =>
    let cmd := cmd <| cmd_Scope := scope_of_health h
                        when bool_decide (sc_Type (cmd_Scope cmd) = "") && bool_decide (sc_Selector (cmd_Scope cmd) = "") |> in
    (cmd, ScopeDecision (cmd_Scope cmd) (scope_of_health h) true)
  | None =>
    (cmd, if negb (bool_decide (sc_Type (cmd_Scope cmd) = "")) || negb (bool_decide (sc_Selector (cmd_Scope cmd) = ""))
          then deny "agent runtime scope is required for scoped response command" else allow)
  end.

(** The response policy of the effective policy, if there is one *)
Definition response_policy (policy : option PolicyDoc) : ResponsePolicy :=
  match policy with
  | None => Response.DefaultPolicy
  | Some p =>
    if bool_decide (rp_AllowedActions (pol_Response p) = []) && bool_decide (rp_AllowedModes (pol_Response p) = [])
    then Response.DefaultPolicy else pol_Response p
  end.

Definition set_policy (policy : option PolicyDoc) (cmd : Command) : Command :=
  match policy with
  | None => cmd
  | Some p => if bool_decide (cmd_PolicyID cmd = "")
              then cmd <| cmd_PolicyID := pol_PolicyID p |> <| cmd_PolicyVersion := pol_Version p |> else cmd
  end.

Definition effective_for (backend : option PolicyDoc) (cmd : Command) (s : Store) : option PolicyDoc :=
  EffectivePolicy backend (cmd_TenantID cmd) (cmd_AgentID cmd) (sc_Type (cmd_Scope cmd)) (sc_Selector (cmd_Scope cmd)) s.

Definition createResponse `{RangeOrder} (now now2 : Time) (health : option (option AgentHealth))
    (effective effective2 : option PolicyDoc) (cmd : Command) (s : Store) : reply * Store :=
  if bool_decide (cmd_AgentID cmd = "") then (BadRequest "agent_id is required", s)
  else
    let cmd := cmd <| cmd_TenantID ::= or_default |> in
    let '(cmd, decision) := check_scope (GetAgentHealth health (cmd_TenantID cmd) (cmd_AgentID cmd) s) cmd in
    if negb (vd_Allowed decision) then denyResponse now now2 cmd decision s
    else
      let policy := effective_for effective cmd s in
      let responsePolicy := response_policy policy in
      let cmd := set_policy policy cmd in
      let cmd := if bool_decide (cmd_PolicyID cmd = "")
                 then set_policy (Some (default zero_policy (effective_for effective2 cmd s))) cmd else cmd in
      let cmd := ApplyPolicyRequirements cmd responsePolicy in
      let decision := ValidateCommandWithPolicy cmd responsePolicy in
      if negb (vd_Allowed decision) then denyResponse now now2 cmd decision s
      else
        let cmd := if cmd_ApprovalRequired cmd
                   then (NormalizeCommand now cmd) <| cmd_Status := "pending_approval" |> <| cmd_ApprovalStatus := "required" |>
                   else cmd in
        let '(cmd, s) := CreateResponse now2 cmd s in (Created cmd, s).

(** [POST /responses/approvals] *)
Definition responseApprovals (now : Time) (tenantID agentID responseID : string) (approved : bool)
    (actor role reason : string) (s : Store) : reply * Store :=
  if bool_decide (responseID = "") then (BadRequest "response_id is required", s)
  else match ApproveResponse now tenantID agentID responseID approved actor role reason s with
  | (None, s) => (NotFound "response command not found", s)
  | (Some cmd, s) => (Created cmd, s)
  end.

(** [POST /responses/acks] *)
Definition responseAcks (now : Time) (ack : Ack) (s : Store) : reply * Store :=
  if bool_decide (rack_AgentID ack = "") then (BadRequest "agent_id is required", s)
  else match AckResponse now ack s with
  | (None, s) => (NotFound "response command not found", s)
  | (Some cmd, s) => (Created cmd, s)
  end.

Definition signalResponseTarget (sig : Signal) : string :=
  match find_first (λ e, bool_decide (ent_Kind e = "process") && negb (bool_decide (ent_Key e = ""))) (sig_Entities sig) with
  | Some e => ent_Key e
  | None => from_option ent_Key "" (find_first (λ e, negb (bool_decide (ent_Key e = ""))) (sig_Entities sig))
  end.

(** What the request of [responseDecisions] carries *)
Record responseDecisionRequest := MkResponseDecisionRequest {
  dr_SignalID : string;
  dr_TenantID : string;
  dr_AgentID : string;
  dr_Scope : Scope;
  dr_Target : string
}.

Definition decision_command (req : responseDecisionRequest) (sig : Signal) (intent : ResponseIntentMsg) (actor : string) : Command :=
  let action := if bool_decide (ri_RecommendedAction intent = "") then ri_ResponseIntent intent else ri_RecommendedAction intent in
  let target := if bool_decide (dr_Target req = "") then signalResponseTarget sig else dr_Target req in
  let reason := "signal=" +:+ sig_Id sig +:+ " name=" +:+ sig_Name sig +:+ " response_intent=" +:+ ri_ResponseIntent intent +:+
                " confidence=" +:+ FormatUint (ri_Confidence intent) in
  let reason := if bool_decide (ri_Reason intent = "") then reason else reason +:+ " reason=" +:+ ri_Reason intent in
  {| cmd_ResponseID := "resp-" +:+ sig_Id sig;
     cmd_TenantID := dr_TenantID req;
     cmd_AgentID := dr_AgentID req;
     cmd_PolicyID := "";
     cmd_PolicyVersion := 0;
     cmd_SignalID := sig_Id sig;
     cmd_Labels := sig_Labels sig;
     cmd_Scope := dr_Scope req;
     cmd_Action := action;
     cmd_Mode := DefaultMode;
     cmd_Target := target;
     cmd_Reason := reason;
     cmd_Status := "";
     cmd_Actor := actor;
     cmd_ApprovalRequired := false;
     cmd_ApprovalStatus := "";
     cmd_ApprovalThreshold := 0;
     cmd_ApprovalRoles := [];
     cmd_Approvals := [];
     cmd_ApprovedBy := "";
     cmd_ApprovedAt := zero_time;
     cmd_CreatedAt := zero_time;
     cmd_UpdatedAt := zero_time |}.

Definition responseDecisions `{RangeOrder} (now now2 : Time) (health : option (option AgentHealth))
    (effective effective2 : option PolicyDoc) (req : responseDecisionRequest) (actor : string) (s : Store) : reply * Store :=
  if bool_decide (dr_SignalID req = "") then (BadRequest "signal_id is required", s)
  else if bool_decide (dr_AgentID req = "") then (BadRequest "agent_id is required", s)
  else match GetSignal (dr_SignalID req) s with
  | None => (NotFound "signal not found", s)
  | Some sig =>
    match sig_ResponseIntent sig with
    | None => (BadRequest "signal response intent not found", s)
    | Some intent =>
      if bool_decide (ri_ResponseIntent intent = "") then (BadRequest "signal response intent not found", s)
      else createResponse now now2 health effective effective2 (decision_command req sig intent actor) s
    end
  end.
End StoreResponses.
