(* ===== verification/ResponseGate.v ===== *)
(** * What stands between a response command and the agent

    Histories of the response commands: creation through the API, decisions of
    approvers and acknowledgements, in any order and on any number of
    commands.  The gate: what an agent is given was allowed by the policy in
    force and, where approval is required, approved by enough people. *)

From S2P Require Import Prelude GoStrings GoData EventModel Policy Response PolicyModel Health StoreData StoreAgents StorePolicies StoreResponses.

Module ResponseGate.
Import EventModel Policy Response PolicyModel Health StoreData StoreAgents StorePolicies StoreResponses.

(** ** Creation *)

Lemma CreateResponse_Forall (P : Command → Prop) now cmd s :
  (∀ t, P ((NormalizeCommand now cmd) <| cmd_CreatedAt := t |>)) → Forall P (st_Responses s) →
  P (CreateResponse now cmd s).1 ∧ Forall P (st_Responses (CreateResponse now cmd s).2).
Proof.
  intros HP Hs. unfold CreateResponse. cbn [fst snd].
  assert (P (NormalizeCommand now cmd)) as H0 by exact (HP (cmd_CreatedAt (NormalizeCommand now cmd))).
  split.
  - destruct (find_first _ _); cbn; [apply HP|done].
  - unfold assign at 1. cbn [st_Responses]. apply upsert_Forall; [|done..]. intros x _ _ _. apply HP.
Qed.

(** Filling in defaults does not change the verdict. *)
Lemma Validate_mode_action cmd cmd' policy :
  cmd_Mode cmd' = (if blank (cmd_Mode cmd) then DefaultMode else cmd_Mode cmd) →
  cmd_Action cmd' = (if blank (cmd_Action cmd) then "collect" else cmd_Action cmd) →
  ValidateCommandWithPolicy cmd' policy = ValidateCommandWithPolicy cmd policy.
Proof.
  unfold ValidateCommandWithPolicy, blank. intros -> ->.
  destruct (decide (cmd_Mode cmd = "")) as [Hm|Hm], (decide (cmd_Action cmd = "")) as [Ha|Ha];
    rewrite ?(bool_decide_eq_true_2 _ Hm), ?(bool_decide_eq_false_2 _ Hm),
      ?(bool_decide_eq_true_2 _ Ha), ?(bool_decide_eq_false_2 _ Ha), ?Hm, ?Ha; reflexivity.
Qed.

(** ** Histories *)

Section history.
Context `{RangeOrder}.

(** [h] lists the decisions that were accepted, with the response they were
    about.  A command arrives without approvals of its own. *)
Inductive reach : Store → list (string * Approval) → Prop :=
| reach_init : reach Open []
| reach_create now now2 health eff eff2 cmd s h :
    reach s h → cmd_Approvals cmd = [] → reach (createResponse now now2 health eff eff2 cmd s).2 h
| reach_approve now tenantID agentID responseID approved actor role reason s h res s' :
    reach s h → ApproveResponse now tenantID agentID responseID approved actor role reason s = (res, s') →
    reach s' (if res then h ++ [(responseID, MkApproval actor role approved reason now)] else h)
| reach_ack now ack s h : reach s h → reach (AckResponse now ack s).2 h
| reach_other s s' h : reach s h → st_Responses s' = st_Responses s → reach s' h.

Record sound (h : list (string * Approval)) (cmd : Command) : Prop := {
  sound_recorded : Forall (λ ap, (cmd_ResponseID cmd, ap) ∈ h) (cmd_Approvals cmd);
  sound_unanimous : cmd_ApprovalRequired cmd = true → cmd_Status cmd ∈ ["pending_approval"; "pending"] →
    Forall (λ ap, apv_Approved ap = true) (cmd_Approvals cmd);
  sound_enough : cmd_ApprovalRequired cmd = true → cmd_Status cmd = "pending" →
    (ApprovalThreshold cmd ≤ ApprovalCount cmd)%Z
}.

Lemma sound_mono h h' cmd : (∀ x, x ∈ h → x ∈ h') → sound h cmd → sound h' cmd.
Proof. intros Hh [H1 H2 H3]. split; [|done..]. eapply list.Forall_impl; [exact H1|]. auto. Qed.

(** A command without approvals that is not both waiting and unapproved is sound. *)
Lemma sound_new h cmd :
  cmd_Approvals cmd = [] → (cmd_ApprovalRequired cmd = true → cmd_Status cmd ≠ "pending") → sound h cmd.
Proof. intros Ha Hs. split; rewrite ?Ha; [constructor|constructor|]. intros Hr Hp. by destruct (Hs Hr). Qed.

Lemma denyResponse_sound now now2 cmd decision s h :
  cmd_Approvals cmd = [] → Forall (sound h) (st_Responses s) →
  Forall (sound h) (st_Responses (denyResponse now now2 cmd decision s).2).
Proof.
  intros Ha Hs. unfold denyResponse.
  pose proof (CreateResponse_Forall (sound h) now2
    ((NormalizeCommand now cmd) <| cmd_Status := "denied" |>
       <| cmd_Reason ::= λ r, if bool_decide (r = "") then vd_Reason decision else r +:+ "; denied: " +:+ vd_Reason decision |>) s) as Hc.
  destruct (CreateResponse now2 _ s) as [c s']. apply Hc; [|done]. intros t. by apply sound_new.
Qed.

Lemma set_policy_Approvals policy cmd : cmd_Approvals (set_policy policy cmd) = cmd_Approvals cmd.
Proof. unfold set_policy. by repeat case_match. Qed.

Lemma ApplyPolicyRequirements_Approvals cmd policy :
  cmd_Approvals (ApplyPolicyRequirements cmd policy) = cmd_Approvals cmd.
Proof. unfold ApplyPolicyRequirements. by case_match. Qed.

Lemma check_scope_Approvals health cmd : cmd_Approvals (check_scope health cmd).1 = cmd_Approvals cmd.
Proof. unfold check_scope. by case_match. Qed.

Lemma createResponse_sound now now2 health eff eff2 cmd s h :
  cmd_Approvals cmd = [] → Forall (sound h) (st_Responses s) →
  Forall (sound h) (st_Responses (createResponse now now2 health eff eff2 cmd s).2).
Proof.
  intros Ha Hs. unfold createResponse. destruct (bool_decide _); [done|].
  match goal with |- context [check_scope ?x ?c] => pose proof (check_scope_Approvals x c) as Hsc; destruct (check_scope x c) as [c1 d] end.
  cbn [fst] in Hsc. destruct (negb (vd_Allowed d)); [apply denyResponse_sound; [by rewrite Hsc|done]|].
  match goal with |- context [ApplyPolicyRequirements ?c ?p] => set (c2 := ApplyPolicyRequirements c p) end.
  assert (cmd_Approvals c2 = []) as Hc2.
  { unfold c2. rewrite ApplyPolicyRequirements_Approvals. case_match; by rewrite ?set_policy_Approvals, Hsc. }
  destruct (negb (vd_Allowed _)); [by apply denyResponse_sound|].
  match goal with |- context [CreateResponse now2 ?c s] => pose proof (CreateResponse_Forall (sound h) now2 c s) as Hc; destruct (CreateResponse now2 c s) as [c' s'] end.
  apply Hc; [|done]. intros t. destruct (cmd_ApprovalRequired c2) eqn:Er; apply sound_new; cbn; try done. congruence.
Qed.

Lemma decide_approval_fields now approved actor role reason cmd :
  let cmd' := decide_approval now approved actor role reason cmd in
  let approvals := cmd_Approvals cmd ++ [MkApproval actor role approved reason now] in
  cmd_ResponseID cmd' = cmd_ResponseID cmd ∧ cmd_Approvals cmd' = approvals ∧
  cmd_ApprovalRequired cmd' = cmd_ApprovalRequired cmd ∧
  ApprovalCount cmd' = ApprovalCount (cmd <| cmd_Approvals := approvals |>) ∧ ApprovalThreshold cmd' = ApprovalThreshold cmd ∧
  (cmd_Status cmd' = if approved then
     if (ApprovalThreshold cmd <=? ApprovalCount (cmd <| cmd_Approvals := approvals |>))%Z then "pending" else cmd_Status cmd
   else "denied").
Proof.
  cbn zeta. unfold decide_approval.
  change (ApprovalThreshold (cmd <| cmd_Approvals ::= λ l, l ++ [MkApproval actor role approved reason now] |>)) with (ApprovalThreshold cmd).
  change (cmd <| cmd_Approvals ::= λ l, l ++ [MkApproval actor role approved reason now] |>)
    with (cmd <| cmd_Approvals := cmd_Approvals cmd ++ [MkApproval actor role approved reason now] |>).
  destruct approved; cbn [andb]; [destruct (_ <=? _)%Z|]; destruct (bool_decide (reason = "")); repeat split.
Qed.

Lemma decide_approval_sound h now approved actor role reason cmd :
  may_approve role cmd = true → sound h cmd →
  sound (h ++ [(cmd_ResponseID cmd, MkApproval actor role approved reason now)]) (decide_approval now approved actor role reason cmd).
Proof.
  unfold may_approve. rewrite !andb_true_iff, bool_decide_eq_true. intros [[[Hr Hst] _] _] [H1 H2 _].
  destruct (decide_approval_fields now approved actor role reason cmd) as (Hid & Hap & Hreq & Hcnt & Hthr & Hstat).
  split; rewrite ?Hid, ?Hap, ?Hreq, ?Hcnt, ?Hthr, ?Hstat.
  - apply Forall_app. split; [eapply list.Forall_impl; [exact H1|]; cbn; intros; set_solver|].
    constructor; [set_solver|constructor].
  - intros _. destruct approved; [intros _|intros Hin; by repeat (apply elem_of_cons in Hin as [?|Hin]; [done|]); apply elem_of_nil in Hin].
    apply Forall_app. split; [apply H2; [done|]; rewrite Hst; set_solver|]. by constructor; [|constructor].
  - intros _. destruct approved; [|done]. destruct (Z.leb_spec (ApprovalThreshold cmd)
      (ApprovalCount (cmd <| cmd_Approvals := cmd_Approvals cmd ++ [MkApproval actor role true reason now] |>))) as [Hle|Hgt]; [done|].
    by rewrite Hst.
Qed.

Lemma ApproveResponse_sound now tenantID agentID responseID approved actor role reason s h res s' :
  ApproveResponse now tenantID agentID responseID approved actor role reason s = (res, s') →
  Forall (sound h) (st_Responses s) →
  Forall (sound (if res then h ++ [(responseID, MkApproval actor role approved reason now)] else h)) (st_Responses s').
Proof.
  unfold ApproveResponse. destruct (bool_decide _); [by intros [= <- <-]|].
  destruct (find_first _ (st_Responses s)) as [cmd|] eqn:Ef; [|by intros [= <- <-]].
  destruct (may_approve role cmd) eqn:Em; cbn [negb]; [|by intros [= <- <-]]. intros [= <- <-] Hs. cbn.
  pose proof (find_first_elem _ _ _ Ef) as [Hin Hp]. apply andb_true_iff in Hp as [Hp%bool_decide_eq_true _].
  eapply update_first_found; [exact Ef| |].
  - rewrite <- Hp. apply decide_approval_sound; [done|]. by eapply list.Forall_forall in Hs.
  - eapply list.Forall_impl; [exact Hs|]. intros c. apply sound_mono. set_solver.
Qed.

Lemma reach_sound s h : reach s h → Forall (sound h) (st_Responses s).
Proof.
  induction 1 as [|now now2 health eff eff2 cmd s h _ IH Ha|now t a r approved actor role reason s h res s' _ IH Happ
                 |now ack s h _ IH|s s' h _ IH Heq].
  - constructor.
  - by apply createResponse_sound.
  - by eapply ApproveResponse_sound.
  - unfold AckResponse. destruct (bool_decide _); [done|]. destruct (find_first _ _); [|done]. cbn.
    apply update_first_Forall; [|done]. intros x _ _ [H1 _ _]. split; [done|..]; cbn; intros _ Hs;
      repeat (apply elem_of_cons in Hs as [?|Hs]; [done|]); by try apply elem_of_nil in Hs.
  - by rewrite Heq.
Qed.

Context `{SliceSort}.

(** C3. The approval gate: in every history in which commands arrive without
    approvals of their own, a command handed to an agent that requires
    approval carries only approvals that were really given for it, none of
    them a refusal, and enough of them: the number that counts reaches the
    threshold, and it is the number of different approvers whose role is
    allowed. *)
Theorem approval_gate s h tenantID agentID cmd :
  reach s h → cmd ∈ PendingResponses tenantID agentID s → cmd_ApprovalRequired cmd = true →
  Forall (λ ap, (cmd_ResponseID cmd, ap) ∈ h ∧ apv_Approved ap = true) (cmd_Approvals cmd) ∧
  (ApprovalThreshold cmd ≤ ApprovalCount cmd)%Z ∧
  (Forall (λ ap, approver ap ≠ "") (counted cmd (cmd_Approvals cmd)) →
   (Z.of_nat (length (cmd_Approvals cmd)) < 2 ^ 32)%Z →
   (ApprovalThreshold cmd ≤ Z.of_nat (size (approvers cmd (cmd_Approvals cmd))))%Z).
Proof.
  intros Hr%reach_sound Hin Hreq. unfold PendingResponses in Hin.
  apply elem_of_sort_slice, list_elem_of_filter in Hin as [Hf Hin].
  rewrite !andb_true_iff, bool_decide_eq_true in Hf. destruct Hf as [[_ Hst] _].
  eapply list.Forall_forall in Hr as [H1 H2 H3]; [|exact Hin]. specialize (H3 Hreq Hst).
  split; [|split; [done|]].
  - specialize (H2 Hreq). rewrite Hst in H2. specialize (H2 ltac:(set_solver)). by apply Forall_and.
  - intros Hb Hl. by rewrite <- ApprovalCount_approvers.
Qed.
End history.

(** ** One creation *)

(** What is stored is the normalised command, and nothing else is new. *)
Lemma CreateResponse_stored now cmd s c s' :
  CreateResponse now cmd s = (c, s') →
  (∃ t, c = (NormalizeCommand now cmd) <| cmd_CreatedAt := t |>) ∧ c ∈ st_Responses s' ∧
  ∀ x, x ∈ st_Responses s' → x = c ∨ x ∈ st_Responses s.
Proof.
  unfold CreateResponse. intros [= <- <-]. split; [|apply upsert_elem].
  destruct (find_first _ _) as [x|]; cbn; [by exists (cmd_CreatedAt x)|].
  by exists (cmd_CreatedAt (NormalizeCommand now cmd)).
Qed.

Definition stored_only (c : Command) (s s' : Store) : Prop :=
  c ∈ st_Responses s' ∧ ∀ x, x ∈ st_Responses s' → x = c ∨ x ∈ st_Responses s.

Lemma denyResponse_spec now now2 cmd decision s :
  ∃ c s', denyResponse now now2 cmd decision s = (Forbidden c, s') ∧ cmd_Status c = "denied" ∧ stored_only c s s'.
Proof.
  unfold denyResponse. match goal with |- context [CreateResponse now2 ?x s] =>
    destruct (CreateResponse now2 x s) as [c s'] eqn:E end.
  apply CreateResponse_stored in E as [[t ->] Hst]. eexists _, s'. split; [reflexivity|]. by split.
Qed.

(** What the checks leave alone *)
Definition same_target (c cmd : Command) : Prop :=
  cmd_TenantID c = cmd_TenantID cmd ∧ cmd_AgentID c = cmd_AgentID cmd ∧ cmd_Scope c = cmd_Scope cmd ∧
  cmd_Mode c = cmd_Mode cmd ∧ cmd_Action c = cmd_Action cmd.

Lemma set_policy_target policy cmd : same_target (set_policy policy cmd) cmd.
Proof. unfold set_policy, same_target. by repeat case_match. Qed.

Lemma ApplyPolicyRequirements_spec cmd policy :
  same_target (ApplyPolicyRequirements cmd policy) cmd ∧
  (rp_ApprovalRequired policy = true → cmd_ApprovalRequired (ApplyPolicyRequirements cmd policy) = true ∧
     ((0 < rp_ApprovalThreshold policy)%Z → ApprovalThreshold (ApplyPolicyRequirements cmd policy) = rp_ApprovalThreshold policy) ∧
     (rp_ApprovalRoles policy ≠ [] → cmd_ApprovalRoles (ApplyPolicyRequirements cmd policy) = rp_ApprovalRoles policy)).
Proof.
  unfold ApplyPolicyRequirements, same_target. destruct (rp_ApprovalRequired policy); [|done]. split; [done|].
  intros _. split; [done|]. split.
  - intros Ht. unfold ApprovalThreshold. cbn. rewrite (proj2 (Z.ltb_lt _ _) Ht).
    destruct (Z.eqb_spec (rp_ApprovalThreshold policy) 0); [lia|done].
  - intros Hr. cbn. by rewrite bool_decide_eq_false_2.
Qed.

(** What the policy in force asks of a command that was accepted *)
Record accepted `{RangeOrder} (health : option (option AgentHealth)) (eff : option PolicyDoc) (s : Store) (c : Command)
    (policy : ResponsePolicy) : Prop := {
  acc_policy : policy = response_policy (effective_for eff c s);
  acc_allowed : vd_Allowed (ValidateCommandWithPolicy c policy) = true;
  acc_destructive : isDestructiveAction (cmd_Action c) = true → rp_AllowDestructive policy = true;
  acc_approval : rp_ApprovalRequired policy = true →
    cmd_ApprovalRequired c = true ∧ cmd_Status c = "pending_approval" ∧
    ((0 < rp_ApprovalThreshold policy)%Z → ApprovalThreshold c = rp_ApprovalThreshold policy) ∧
    (rp_ApprovalRoles policy ≠ [] → cmd_ApprovalRoles c = rp_ApprovalRoles policy);
  acc_scope : match GetAgentHealth health (cmd_TenantID c) (cmd_AgentID c) s with
    | Some h => vd_Allowed (ScopeDecision (cmd_Scope c) (scope_of_health h) true) = true
    | None => cmd_Scope c = MkScope "" ""
    end
}.

(** What filling in the defaults does to a command with a tenant *)
Record filled (c cmd : Command) : Prop := {
  fl_tenant : cmd_TenantID c = cmd_TenantID cmd;
  fl_agent : cmd_AgentID c = cmd_AgentID cmd;
  fl_scope : cmd_Scope c = cmd_Scope cmd;
  fl_verdict policy : ValidateCommandWithPolicy c policy = ValidateCommandWithPolicy cmd policy;
  fl_required : cmd_ApprovalRequired c = cmd_ApprovalRequired cmd;
  fl_threshold : ApprovalThreshold c = ApprovalThreshold cmd;
  fl_roles : cmd_ApprovalRoles c = cmd_ApprovalRoles cmd
}.

Lemma filled_trans a b c : filled a b → filled b c → filled a c.
Proof. intros [] []. split; intros; etrans; eauto. Qed.

Lemma filled_Normalize now cmd : cmd_TenantID cmd ≠ "" → filled (NormalizeCommand now cmd) cmd.
Proof.
  intros Ht. split; try done.
  - unfold NormalizeCommand, blank. cbn. by rewrite bool_decide_eq_false_2.
  - intros policy. by apply Validate_mode_action.
Qed.

Lemma filled_created t c cmd : filled c cmd → filled (c <| cmd_CreatedAt := t |>) cmd.
Proof. by intros []. Qed.

Lemma filled_waiting st ap c cmd : filled c cmd → filled (c <| cmd_Status := st |> <| cmd_ApprovalStatus := ap |>) cmd.
Proof. by intros []. Qed.

Lemma same_target_trans a b c : same_target a b → same_target b c → same_target a c.
Proof. intros (?&?&?&?&?) (?&?&?&?&?). repeat split; congruence. Qed.

Lemma effective_for_target eff c cmd s :
  cmd_TenantID c = cmd_TenantID cmd → cmd_AgentID c = cmd_AgentID cmd → cmd_Scope c = cmd_Scope cmd →
  effective_for eff c s = effective_for eff cmd s.
Proof. unfold effective_for. by intros -> -> ->. Qed.

(** A scope that passes the check is one the agent runs in. *)
Lemma check_scope_spec health cmd c d :
  check_scope health cmd = (c, d) → vd_Allowed d = true →
  cmd_TenantID c = cmd_TenantID cmd ∧ cmd_AgentID c = cmd_AgentID cmd ∧
  match health with
  | Some h => vd_Allowed (ScopeDecision (cmd_Scope c) (scope_of_health h) true) = true
  | None => cmd_Scope c = MkScope "" ""
  end.
Proof.
  unfold check_scope. destruct health as [h|]; intros [= <- <-] Hd; [done|].
  split; [done|]. split; [done|]. destruct (cmd_Scope cmd) as [ty sel]. cbn in *.
  destruct (decide (ty = "")) as [->|Hty]; [|by rewrite bool_decide_eq_false_2 in Hd].
  destruct (decide (sel = "")) as [->|Hsel]; [done|]. by rewrite (bool_decide_eq_false_2 (sel = "")) in Hd.
Qed.

(** The stored command, from the command the checks let through *)
Lemma accepted_filled `{RangeOrder} health eff s cmd c policy :
  filled c cmd → policy = response_policy (effective_for eff cmd s) →
  vd_Allowed (ValidateCommandWithPolicy cmd policy) = true →
  (rp_ApprovalRequired policy = true → cmd_ApprovalRequired cmd = true ∧
     ((0 < rp_ApprovalThreshold policy)%Z → ApprovalThreshold cmd = rp_ApprovalThreshold policy) ∧
     (rp_ApprovalRoles policy ≠ [] → cmd_ApprovalRoles cmd = rp_ApprovalRoles policy)) →
  (cmd_ApprovalRequired cmd = true → cmd_Status c = "pending_approval") →
  match GetAgentHealth health (cmd_TenantID cmd) (cmd_AgentID cmd) s with
  | Some h => vd_Allowed (ScopeDecision (cmd_Scope cmd) (scope_of_health h) true) = true
  | None => cmd_Scope cmd = MkScope "" ""
  end → accepted health eff s c policy.
Proof.
  intros [Ht Ha Hsc Hv Hr Hth Hro] Hp Hval Hreq Hst Hs.
  assert (vd_Allowed (ValidateCommandWithPolicy c policy) = true) as Hval' by by rewrite Hv.
  split; [|done|by apply ValidateCommandWithPolicy_allowed| |].
  - by rewrite Hp, (effective_for_target eff c cmd).
  - rewrite Hth, Hro, Hr. intros H1. destruct (Hreq H1) as (H2 & H3 & H4). eauto.
  - by rewrite Ht, Ha, Hsc.
Qed.

(** Enforcement at creation: a command the API accepts is the only thing
    stored, it is allowed by the response policy in force for its tenant,
    agent and scope, a destructive action has the policy's permission, where
    the policy requires approval the command waits for it with the policy's
    threshold and roles, and its scope is the scope its agent reported (a
    command for an agent that reported none has no scope).  A command the
    API forbids is stored as denied; a rejected request changes nothing. *)
Theorem create_response_enforced `{RangeOrder} now now2 health eff eff2 cmd s r s' :
  createResponse now now2 health eff eff2 cmd s = (r, s') →
  match r with
  | Created c => (∃ policy, accepted health eff s c policy) ∧ stored_only c s s'
  | Forbidden c => cmd_Status c = "denied" ∧ stored_only c s s'
  | BadRequest _ => s' = s
  | NotFound _ => False
  end.
Proof.
  unfold createResponse. destruct (bool_decide _); [by intros [= <- <-]|].
  destruct (check_scope _ _) as [c1 d] eqn:Esc.
  assert (∀ c d, denyResponse now now2 c d s = (r, s') →
    match r with Forbidden c => cmd_Status c = "denied" ∧ stored_only c s s' | _ => False end) as Hdeny.
  { intros c d' Hd. destruct (denyResponse_spec now now2 c d' s) as (c' & s2 & Hd' & Hden).
    rewrite Hd' in Hd. by injection Hd as <- <-. }
  destruct (vd_Allowed d) eqn:Ed; cbn [negb]; [|intros Hd; apply Hdeny in Hd; by destruct r].
  destruct (check_scope_spec _ _ _ _ Esc Ed) as (Ht1 & Ha1 & Hs1). rewrite <- Ht1 in Hs1.
  change (cmd_AgentID (cmd <| cmd_TenantID ::= or_default |>)) with (cmd_AgentID cmd) in Ha1.
  set (policy := response_policy _). set (c2 := if bool_decide (cmd_PolicyID (set_policy _ _) = "") then _ else _).
  set (c3 := ApplyPolicyRequirements c2 policy).
  assert (same_target c3 c1) as (Ht3 & Ha3 & Hsc3 & _).
  { apply same_target_trans with c2; [apply ApplyPolicyRequirements_spec|]. unfold c2.
    destruct (bool_decide _); [eapply same_target_trans; [apply set_policy_target|]|]; apply set_policy_target. }
  destruct (vd_Allowed (ValidateCommandWithPolicy c3 policy)) eqn:Ev; cbn [negb]; [|intros Hd; apply Hdeny in Hd; by destruct r].
  destruct (CreateResponse now2 _ s) as [c s2] eqn:Ec. intros [= <- <-].
  assert (cmd_TenantID c3 ≠ "") as Hne by (rewrite Ht3, Ht1; apply or_default_ne).
  apply CreateResponse_stored in Ec as [[t ->] Hst]. split; [|done]. exists policy.
  apply accepted_filled with c3; [| | done | apply ApplyPolicyRequirements_spec | | ].
  - apply filled_created. destruct (cmd_ApprovalRequired c3); [|by apply filled_Normalize].
    assert (filled (NormalizeCommand now c3) c3) as Hf by by apply filled_Normalize.
    eapply filled_trans; [|apply filled_waiting, Hf]. apply filled_Normalize. cbn [cmd_TenantID].
    apply (filled_waiting "" "") in Hf. destruct Hf as [Hf _ _ _ _ _ _]. intros Heq. apply Hne. rewrite <- Hf. exact Heq.
  - unfold policy. f_equal. by rewrite (effective_for_target eff c3 c1).
  - by intros ->.
  - by rewrite Ht3, Ha3, Hsc3, Ha1.
Qed.

(** ** A run

    A policy that asks two responders to approve a kill. *)

Definition demo_policy : PolicyDoc :=
  zero_policy <| pol_PolicyID := "strict" |> <| pol_Version := 3%Z |>
    <| pol_Response := MkResponsePolicy ["kill"] ["enforce"] true 2 ["responder"] true |>.

Definition demo_command (approvals : list Approval) : Command :=
  {| cmd_ResponseID := "resp-1"; cmd_TenantID := ""; cmd_AgentID := "agent-1"; cmd_PolicyID := ""; cmd_PolicyVersion := 0;
     cmd_SignalID := ""; cmd_Labels := ∅; cmd_Scope := MkScope "" ""; cmd_Action := "kill"; cmd_Mode := "enforce";
     cmd_Target := "pid:7"; cmd_Reason := ""; cmd_Status := ""; cmd_Actor := "alice"; cmd_ApprovalRequired := false;
     cmd_ApprovalStatus := ""; cmd_ApprovalThreshold := 0; cmd_ApprovalRoles := []; cmd_Approvals := approvals;
     cmd_ApprovedBy := ""; cmd_ApprovedAt := zero_time; cmd_CreatedAt := zero_time; cmd_UpdatedAt := zero_time |}.

Definition demo_create (approvals : list Approval) : reply * Store :=
  @createResponse elements_order 10%Z 11%Z None (Some demo_policy) None (demo_command approvals) Open.

Definition demo_approve (now : Time) (actor : string) (s : Store) : option Command * Store :=
  ApproveResponse now "" "" "resp-1" true actor "responder" "" s.

Definition demo_approved : Store := (demo_approve 13%Z "carol" (demo_approve 12%Z "bob" (demo_create []).2).2).2.

Definition demo_stored : Command :=
  (demo_command []) <| cmd_TenantID := "default" |> <| cmd_PolicyID := "strict" |> <| cmd_PolicyVersion := 3%Z |>
    <| cmd_Status := "pending_approval" |> <| cmd_ApprovalRequired := true |> <| cmd_ApprovalStatus := "required" |>
    <| cmd_ApprovalThreshold := 2%Z |> <| cmd_ApprovalRoles := ["responder"] |>
    <| cmd_CreatedAt := 10%Z |> <| cmd_UpdatedAt := 11%Z |>.

Definition demo_sent : Command :=
  demo_stored <| cmd_Status := "pending" |> <| cmd_ApprovalStatus := "approved" |>
    <| cmd_Approvals := [MkApproval "bob" "responder" true "" 12%Z; MkApproval "carol" "responder" true "" 13%Z] |>
    <| cmd_ApprovedBy := "carol" |> <| cmd_ApprovedAt := 13%Z |> <| cmd_UpdatedAt := 13%Z |>.

Definition demo_decisions : list (string * Approval) :=
  [("resp-1", MkApproval "bob" "responder" true "" 12%Z); ("resp-1", MkApproval "carol" "responder" true "" 13%Z)].

Lemma demo_reach : reach (H := elements_order) demo_approved demo_decisions.
Proof.
  pose proof (reach_create (H := elements_order) 10%Z 11%Z None (Some demo_policy) None (demo_command []) Open [] (reach_init) eq_refl) as H1.
  eapply (reach_approve (H := elements_order) 12%Z "" "" "resp-1" true "bob" "responder" "") in H1; [|apply surjective_pairing].
  eapply (reach_approve (H := elements_order) 13%Z "" "" "resp-1" true "carol" "responder" "") in H1; [|apply surjective_pairing].
  vm_compute in H1. vm_compute. exact H1.
Qed.

Lemma approval_gate_witness :
  demo_sent ∈ PendingResponses (H := insertion_SliceSort) "" "agent-1" demo_approved ∧
  Forall (λ ap, ("resp-1", ap) ∈ demo_decisions ∧ apv_Approved ap = true) (cmd_Approvals demo_sent) ∧
  (2 ≤ ApprovalCount demo_sent)%Z.
Proof.
  assert (demo_sent ∈ PendingResponses (H := insertion_SliceSort) "" "agent-1" demo_approved) as Hin
    by (apply list_elem_of_In; vm_compute; left; reflexivity).
  split; [exact Hin|].
  destruct (approval_gate (H := elements_order) (H0 := insertion_SliceSort)
    demo_approved demo_decisions "" "agent-1" demo_sent demo_reach Hin eq_refl) as (Hall & Hle & _).
  split; [exact Hall|exact Hle].
Defined.

Lemma create_response_enforced_witness :
  demo_create [] = (Created demo_stored, (demo_create []).2) ∧
  ∃ policy, accepted (H := elements_order) None (Some demo_policy) Open demo_stored policy.
Proof.
  assert (demo_create [] = (Created demo_stored, (demo_create []).2)) as Hc by (vm_compute; reflexivity).
  split; [exact Hc|].
  exact (proj1 (create_response_enforced (H := elements_order) 10%Z 11%Z None (Some demo_policy) None (demo_command [])
    Open (Created demo_stored) _ Hc)).
Defined.

(** Approvals that arrive with the command count: with one approval of its
    own, two people's threshold is met by one decision. *)
Lemma own_approvals_count :
  let s := (demo_approve 12%Z "alice" (demo_create [MkApproval "nobody" "responder" true "" 1%Z]).2).2 in
  cmd_Status <$> PendingResponses (H := insertion_SliceSort) "" "agent-1" s = ["pending"].
Proof. vm_compute. reflexivity. Qed.
End ResponseGate.
