(* ===== verification/StoreCommands.v ===== *)
(** * Control commands and evidence requests in the store ([internal/store/store.go])

    A control command asks an agent to load a policy or content.  It is
    created, sent (again and again until it is acknowledged), and ends
    applied, rejected, failed, canceled or expired; an operator can retry it.
    An evidence request is created and completed once the agent answers.

    [now] is the clock.  [backend] is what the durable backend listed, as in
    [StoreData]; a command the memory does not hold is looked up there.  The
    abstract machine of a command is at the end; [CommandTheorems] relates the
    memory and the database to it. *)

From S2P Require Import Prelude GoStrings GoData ControlModel StoreData.

Module StoreCommands.
Import ControlModel StoreData.

(** ** Evidence requests *)

Definition is_request (requestID : string) (req : EvidencePullbackRequest) : bool :=
  bool_decide (ep_RequestID req = requestID).

Definition request_listed (tenantID agentID : string) (req : EvidencePullbackRequest) : bool :=
  matches tenantID (ep_TenantID req) && matches agentID (ep_AgentID req).

Definition CreateEvidencePullback (now : Time) (req : EvidencePullbackRequest) (s : Store)
    : EvidencePullbackRequest * Store :=
  let req := NormalizeEvidencePullback now req in
  let stored existing := req <| ep_CreatedAt := ep_CreatedAt existing |> in
  (from_option stored req (find_first (is_request (ep_RequestID req)) (st_Pullbacks s)),
   s <| st_Pullbacks ::= upsert (is_request (ep_RequestID req)) stored req |>).

Definition ListEvidencePullbacks `{SliceSort} (tenantID agentID : string) (s : Store) : list EvidencePullbackRequest :=
  sort_slice (λ x y, Before (ep_CreatedAt x) (ep_CreatedAt y))
    (filter (λ req, request_listed tenantID agentID req = true) (st_Pullbacks s)).

Definition GetEvidencePullback (requestID tenantID agentID : string) (s : Store) : option EvidencePullbackRequest :=
  if bool_decide (requestID = "") then None
  else find_first (λ req, is_request requestID req && request_listed tenantID agentID req) (st_Pullbacks s).

Definition PendingEvidencePullbacks `{SliceSort} (tenantID agentID : string) (s : Store) : list EvidencePullbackRequest :=
  filter (λ req, ep_Status req = EvidencePullbackStatusPending) (ListEvidencePullbacks tenantID agentID s).

Definition complete (result : EvidencePullbackResult) (req : EvidencePullbackRequest) : EvidencePullbackRequest :=
  req <| ep_ResultOK := er_OK result |> <| ep_Result := er_Message result |>
      <| ep_UpdatedAt := er_ObservedAt result |> <| ep_CompletedAt := er_ObservedAt result |>
      <| ep_Status := if er_OK result then EvidencePullbackStatusCompleted else EvidencePullbackStatusFailed |>.

Definition CompleteEvidencePullback (now : Time) (result : EvidencePullbackResult) (s : Store)
    : option EvidencePullbackRequest * Store :=
  if bool_decide (er_RequestID result = "") then (None, s)
  else
    let result := result <| er_ObservedAt := now when IsZero (er_ObservedAt result) |> in
    let p req := is_request (er_RequestID result) req && request_listed (er_TenantID result) (er_AgentID result) req in
    match find_first p (st_Pullbacks s) with
    | None => (None, s)
    | Some req => (Some (complete result req), s <| st_Pullbacks ::= update_first p (complete result) |>)
    end.

(** ** Control commands *)

Definition is_command (commandID : string) (cmd : ControlCommand) : bool := bool_decide (cc_CommandID cmd = commandID).

Definition command_listed (tenantID agentID : string) (cmd : ControlCommand) : bool :=
  matches tenantID (cc_TenantID cmd) && matches agentID (cc_AgentID cmd).

Definition CreateControlCommand (now : Time) (cmd : ControlCommand) (s : Store) : ControlCommand * Store :=
  let cmd := NormalizeControlCommand now cmd in
  let stored existing :=
    cmd <| cc_CreatedAt := cc_CreatedAt existing |>
        <| cc_SentAt := cc_SentAt existing when IsZero (cc_SentAt cmd) |>
        <| cc_AckedAt := cc_AckedAt existing when IsZero (cc_AckedAt cmd) |> in
  (from_option stored cmd (find_first (is_command (cc_CommandID cmd)) (st_ControlCommands s)),
   s <| st_ControlCommands ::= upsert (is_command (cc_CommandID cmd)) stored cmd |>).

Definition ListControlCommands `{SliceSort} (backend : option (list ControlCommand)) (tenantID agentID commandType : string)
    (s : Store) : list ControlCommand :=
  match backend with
  | Some commands => commands
  | None =>
    sort_slice (λ x y, Before (cc_CreatedAt x) (cc_CreatedAt y))
      (filter (λ cmd, command_listed tenantID agentID cmd && matches commandType (cc_Type cmd) = true) (st_ControlCommands s))
  end.

Definition PendingControlCommands `{SliceSort} (backend : option (list ControlCommand)) (tenantID agentID : string)
    (s : Store) : list ControlCommand :=
  filter (λ cmd, ControlCommandTerminalStatus (cc_Status cmd) = false) (ListControlCommands backend tenantID agentID "" s).

Definition upsertControlCommandSnapshot (commands : list ControlCommand) (cmd : ControlCommand) : list ControlCommand :=
  upsert (λ existing, bool_decide (cc_CommandID existing = cc_CommandID cmd) && bool_decide (cc_TenantID existing = cc_TenantID cmd))
    (λ _, cmd) cmd commands.

(** The command in memory, else the one the listing finds *)
Definition updateControlCommand `{SliceSort} (backend : option (list ControlCommand)) (commandID tenantID agentID : string)
    (update : ControlCommand → ControlCommand) (s : Store) : option ControlCommand * Store :=
  let p cmd := is_command commandID cmd && command_listed tenantID agentID cmd in
  match find_first p (st_ControlCommands s) with
  | Some cmd => (Some (update cmd), s <| st_ControlCommands ::= update_first p update |>)
  | None =>
    match find_first (is_command commandID) (ListControlCommands backend tenantID agentID "" s) with
    | Some cmd => (Some (update cmd), s <| st_ControlCommands ::= λ l, upsertControlCommandSnapshot l (update cmd) |>)
    | None => (None, s)
    end
  end.

Definition mark_sent (sentAt : Time) (cmd : ControlCommand) : ControlCommand :=
  cmd <| cc_Status := ControlCommandStatusSent when negb (ControlCommandTerminalStatus (cc_Status cmd)) |>
      <| cc_SentAt := sentAt |> <| cc_LastSentAt := sentAt |>
      <| cc_AttemptCount ::= λ n, u32 (n + 1) |> <| cc_UpdatedAt := sentAt |>.

Definition MarkControlCommandSent `{SliceSort} (backend : option (list ControlCommand)) (now : Time)
    (commandID tenantID agentID : string) (sentAt : Time) (s : Store) : option ControlCommand * Store :=
  if bool_decide (commandID = "") then (None, s)
  else
    let sentAt := if IsZero sentAt then now else sentAt in
    updateControlCommand backend commandID tenantID agentID (mark_sent sentAt) s.

Definition cancel (now : Time) (actor reason : string) (cmd : ControlCommand) : ControlCommand :=
  if ControlCommandTerminalStatus (cc_Status cmd) then cmd
  else cmd <| cc_Status := ControlCommandStatusCanceled |> <| cc_CanceledAt := now |> <| cc_UpdatedAt := now |>
           <| cc_Actor := actor when negb (bool_decide (actor = "")) |>
           <| cc_Error := reason when negb (bool_decide (reason = "")) |>.

Definition CancelControlCommand `{SliceSort} (backend : option (list ControlCommand)) (now : Time)
    (commandID tenantID agentID actor reason : string) (s : Store) : option ControlCommand * Store :=
  if bool_decide (commandID = "") then (None, s)
  else updateControlCommand backend commandID tenantID agentID (cancel now actor reason) s.

Definition retry (now : Time) (actor reason : string) (cmd : ControlCommand) : ControlCommand :=
  if bool_decide (cc_Status cmd = ControlCommandStatusApplied) then cmd
  else cmd <| cc_Status := ControlCommandStatusPending |> <| cc_UpdatedAt := now |>
           <| cc_AckedAt := zero_time |> <| cc_CanceledAt := zero_time |> <| cc_ExpiredAt := zero_time |>
           <| cc_AckStatus := "" |> <| cc_AckMessage := "" |> <| cc_AckPolicyID := "" |>
           <| cc_AckPolicyVer := 0%Z |> <| cc_AckReportJSON := "" |> <| cc_Error := "" |>
           <| cc_Actor := actor when negb (bool_decide (actor = "")) |>
           <| cc_Reason := reason when negb (bool_decide (reason = "")) |>.

Definition RetryControlCommand `{SliceSort} (backend : option (list ControlCommand)) (now : Time)
    (commandID tenantID agentID actor reason : string) (s : Store) : option ControlCommand * Store :=
  if bool_decide (commandID = "") then (None, s)
  else updateControlCommand backend commandID tenantID agentID (retry now actor reason) s.

Definition expire (now : Time) (reason : string) (cmd : ControlCommand) : ControlCommand :=
  if ControlCommandTerminalStatus (cc_Status cmd) then cmd
  else cmd <| cc_Status := ControlCommandStatusExpired |> <| cc_ExpiredAt := now |> <| cc_UpdatedAt := now |>
           <| cc_Error := reason when negb (bool_decide (reason = "")) |>.

Definition ExpireControlCommand `{SliceSort} (backend : option (list ControlCommand)) (now : Time)
    (commandID tenantID agentID reason : string) (s : Store) : option ControlCommand * Store :=
  if bool_decide (commandID = "") then (None, s)
  else updateControlCommand backend commandID tenantID agentID (expire now reason) s.

Definition applyControlCommandAck (ack : ControlCommandAck) (cmd : ControlCommand) : ControlCommand :=
  let status := if bool_decide (cca_Status ack = "") then ControlCommandStatusApplied else cca_Status ack in
  let cmd :=
    if bool_decide (status ∈ [ControlCommandStatusApplied; "accepted"; "validated"; "degraded"])
    then cmd <| cc_Status := ControlCommandStatusApplied |>
    else if bool_decide (status = ControlCommandStatusRejected)
    then cmd <| cc_Status := ControlCommandStatusRejected |> <| cc_Error := cca_Message ack |>
    else if bool_decide (status = ControlCommandStatusFailed)
    then cmd <| cc_Status := ControlCommandStatusFailed |> <| cc_Error := cca_Message ack |>
    else cmd <| cc_Status := status |> in
  cmd <| cc_AckStatus := cca_Status ack |> <| cc_AckMessage := cca_Message ack |>
      <| cc_AckPolicyID := cca_PolicyID ack |> <| cc_AckPolicyVer := cca_PolicyVersion ack |>
      <| cc_AckReportJSON := cca_ReportJSON ack |> <| cc_AckedAt := cca_ObservedAt ack |>
      <| cc_UpdatedAt := cca_ObservedAt ack |>.

Definition AckControlCommand `{SliceSort} (backend : option (list ControlCommand)) (now : Time) (ack : ControlCommandAck)
    (s : Store) : option ControlCommand * Store :=
  if bool_decide (cca_CommandID ack = "") then (None, s)
  else
    let ack := ack <| cca_ObservedAt := now when IsZero (cca_ObservedAt ack) |> in
    updateControlCommand backend (cca_CommandID ack) (cca_TenantID ack) (cca_AgentID ack) (applyControlCommandAck ack) s.

(** ** The life of a command

    What matters of a command to its agent and to operators: whom it is for,
    its status, and how often it was sent. *)

Record command_view := MkCommandView {
  cv_TenantID : string;
  cv_AgentID : string;
  cv_Status : string;
  cv_AttemptCount : Z
}.

Definition view (cmd : ControlCommand) : command_view :=
  MkCommandView (cc_TenantID cmd) (cc_AgentID cmd) (cc_Status cmd) (cc_AttemptCount cmd).

(** Calls on the store *)
Inductive command_op :=
| OpCreate (now : Time) (cmd : ControlCommand)
| OpSent (now : Time) (commandID tenantID agentID : string) (sentAt : Time)
| OpCancel (now : Time) (commandID tenantID agentID actor reason : string)
| OpRetry (now : Time) (commandID tenantID agentID actor reason : string)
| OpExpire (now : Time) (commandID tenantID agentID reason : string)
| OpAck (now : Time) (ack : ControlCommandAck).

(** [backend] is what the durable backend lists for a tenant and an agent. *)
Definition perform `{SliceSort} (backend : string → string → option (list ControlCommand)) (s : Store) (op : command_op) : Store :=
  match op with
  | OpCreate now cmd => (CreateControlCommand now cmd s).2
  | OpSent now commandID tenantID agentID sentAt =>
      (MarkControlCommandSent (backend tenantID agentID) now commandID tenantID agentID sentAt s).2
  | OpCancel now commandID tenantID agentID actor reason =>
      (CancelControlCommand (backend tenantID agentID) now commandID tenantID agentID actor reason s).2
  | OpRetry now commandID tenantID agentID actor reason =>
      (RetryControlCommand (backend tenantID agentID) now commandID tenantID agentID actor reason s).2
  | OpExpire now commandID tenantID agentID reason =>
      (ExpireControlCommand (backend tenantID agentID) now commandID tenantID agentID reason s).2
  | OpAck now ack => (AckControlCommand (backend (cca_TenantID ack) (cca_AgentID ack)) now ack s).2
  end.

(** The abstract machine of one command: the status an operation leads to *)
Definition ack_status (status : string) : string :=
  if bool_decide (status ∈ [""; "applied"; "accepted"; "validated"; "degraded"]) then "applied" else status.

Definition terminal (status : string) : bool :=
  bool_decide (status ∈ ["applied"; "rejected"; "failed"; "canceled"; "expired"]).

Definition next_status (op : command_op) (status : string) : string :=
  match op with
  | OpCreate _ _ => status
  | OpSent _ _ _ _ _ => if terminal status then status else "sent"
  | OpCancel _ _ _ _ _ _ => if terminal status then status else "canceled"
  | OpRetry _ _ _ _ _ _ => if bool_decide (status = "applied") then status else "pending"
  | OpExpire _ _ _ _ _ => if terminal status then status else "expired"
  | OpAck _ ack => ack_status (cca_Status ack)
  end.

(** Whom an operation addresses: command, tenant and agent *)
Definition address (op : command_op) : string * string * string :=
  match op with
  | OpCreate _ _ => ("", "", "")
  | OpSent _ c t a _ | OpCancel _ c t a _ _ | OpRetry _ c t a _ _ | OpExpire _ c t a _ => (c, t, a)
  | OpAck _ ack => (cca_CommandID ack, cca_TenantID ack, cca_AgentID ack)
  end.

Definition advance (op : command_op) (v : command_view) : command_view :=
  MkCommandView (cv_TenantID v) (cv_AgentID v) (next_status op (cv_Status v))
    (match op with OpSent _ _ _ _ _ => u32 (cv_AttemptCount v + 1) | _ => cv_AttemptCount v end).

Definition addressed (commandID : string) (op : command_op) (v : command_view) : bool :=
  let '(c, t, a) := address op in
  negb (bool_decide (c = "")) && (bool_decide (commandID = c) && (matches t (cv_TenantID v) && matches a (cv_AgentID v))).

(** ** Commands by id *)

Definition command_of (commandID : string) (s : Store) : option ControlCommand :=
  find_first (is_command commandID) (st_ControlCommands s).

Definition distinct (s : Store) : Prop := NoDup (cc_CommandID <$> st_ControlCommands s).

(** With distinct keys, an update reaches the element of its key and no other. *)
Lemma find_update_first (p : ControlCommand → bool) f c id l :
  (∀ x, p x = true → cc_CommandID x = c) → (∀ x, cc_CommandID (f x) = cc_CommandID x) → NoDup (cc_CommandID <$> l) →
  find_first (is_command id) (update_first p f l) = (λ x, if p x then f x else x) <$> find_first (is_command id) l.
Proof.
  intros Hp Hf. unfold update_first, find_first, is_command. induction l as [|x l IH]; [done|].
  rewrite fmap_cons, list.NoDup_cons. intros [Hx Hl]. cbn. destruct (p x) eqn:Ep; cbn.
  - rewrite Hf. destruct (decide (cc_CommandID x = id)) as [He|He].
    + rewrite bool_decide_eq_true_2 by done. cbn. by rewrite Ep.
    + rewrite bool_decide_eq_false_2 by done. destruct (List.find _ l) as [y|] eqn:Ey; [|done]. cbn.
      destruct (p y) eqn:Epy; [|done]. destruct Hx. rewrite (Hp x Ep), <- (Hp y Epy).
      apply List.find_some in Ey as [Hy _]. by apply list_elem_of_fmap_2, list_elem_of_In.
  - specialize (IH Hl). destruct (replace_first p f l) as [l'|]; cbn in *;
      (destruct (bool_decide (cc_CommandID x = id)) eqn:He; [cbn; by rewrite Ep|done]).
Qed.

Lemma find_upsert_command c f new id l :
  (∀ x, cc_CommandID (f x) = c) → cc_CommandID new = c →
  find_first (is_command id) (upsert (is_command c) f new l) =
  if bool_decide (c = id) then Some (from_option f new (find_first (is_command c) l)) else find_first (is_command id) l.
Proof.
  intros Hf Hnew. unfold upsert, find_first, is_command. induction l as [|x l IH]; cbn.
  { rewrite Hnew. by destruct (bool_decide (c = id)). }
  destruct (decide (cc_CommandID x = c)) as [Hx|Hx].
  - rewrite (bool_decide_eq_true_2 (cc_CommandID x = c)) by done. cbn. rewrite Hf, Hx. by destruct (bool_decide (c = id)).
  - rewrite (bool_decide_eq_false_2 (cc_CommandID x = c)) by done.
    destruct (replace_first _ f l) as [l'|]; cbn in *;
      (destruct (decide (cc_CommandID x = id)) as [Hi|Hi];
        [rewrite (bool_decide_eq_true_2 (cc_CommandID x = id)) by done; rewrite bool_decide_eq_false_2 by congruence; done
        |rewrite (bool_decide_eq_false_2 (cc_CommandID x = id)) by done; exact IH]).
Qed.

Lemma find_first_distinct x l :
  NoDup (cc_CommandID <$> l) → x ∈ l → find_first (is_command (cc_CommandID x)) l = Some x.
Proof.
  unfold find_first, is_command. induction l as [|y l IH]; [by intros _ ?%elem_of_nil|].
  rewrite fmap_cons, list.NoDup_cons. intros [Hy Hl] [->|Hx]%elem_of_cons; cbn.
  - by rewrite bool_decide_eq_true_2.
  - rewrite bool_decide_eq_false_2; [by apply IH|]. intros He. apply Hy. rewrite He. by apply list_elem_of_fmap_2.
Qed.

Lemma applyAck_status k x : cc_Status (applyControlCommandAck k x) = ack_status (cca_Status k).
Proof.
  unfold applyControlCommandAck, ack_status. destruct (decide (cca_Status k = "")) as [->|Hne]; [done|].
  rewrite (bool_decide_eq_false_2 (cca_Status k = "")) by done. cbn zeta.
  set (st := cca_Status k) in *.
  assert (bool_decide (st ∈ [""; "applied"; "accepted"; "validated"; "degraded"]) =
          bool_decide (st ∈ [ControlCommandStatusApplied; "accepted"; "validated"; "degraded"])) as ->.
  { apply bool_decide_ext. rewrite (elem_of_cons _ st ""). unfold ControlCommandStatusApplied. tauto. }
  destruct (bool_decide (st ∈ _)); [done|].
  destruct (decide (st = ControlCommandStatusRejected)) as [->|H1]; [done|]. rewrite (bool_decide_eq_false_2 (st = _)) by done.
  destruct (decide (st = ControlCommandStatusFailed)) as [->|H2]; [done|]. by rewrite (bool_decide_eq_false_2 (st = _)).
Qed.

(** Each operation of the code acts on views as the machine's. *)
Lemma sent_view now c t a sentAt u x : view (mark_sent u x) = advance (OpSent now c t a sentAt) (view x).
Proof. unfold view, advance, mark_sent. cbn. change (terminal (cc_Status x)) with (ControlCommandTerminalStatus (cc_Status x)). by destruct (ControlCommandTerminalStatus _). Qed.

Lemma cancel_view now c t a actor reason x : view (cancel now actor reason x) = advance (OpCancel now c t a actor reason) (view x).
Proof.
  unfold view, advance, cancel. cbn. change (terminal (cc_Status x)) with (ControlCommandTerminalStatus (cc_Status x)).
  by destruct (ControlCommandTerminalStatus _).
Qed.

Lemma retry_view now c t a actor reason x : view (retry now actor reason x) = advance (OpRetry now c t a actor reason) (view x).
Proof. unfold view, advance, retry. cbn. by destruct (bool_decide (cc_Status x = _)). Qed.

Lemma expire_view now c t a reason x : view (expire now reason x) = advance (OpExpire now c t a reason) (view x).
Proof.
  unfold view, advance, expire. cbn. change (terminal (cc_Status x)) with (ControlCommandTerminalStatus (cc_Status x)).
  by destruct (ControlCommandTerminalStatus _).
Qed.

Lemma applyAck_view now k k' x : cca_Status k' = cca_Status k → view (applyControlCommandAck k' x) = advance (OpAck now k) (view x).
Proof.
  intros Hk. unfold view at 1. rewrite applyAck_status, Hk. unfold advance, view, applyControlCommandAck. cbn.
  f_equal; by repeat (case_match; [done|]).
Qed.
End StoreCommands.
