(* ===== verification/StoreEnrollment.v ===== *)
(** * Enrollment of agents ([internal/store/store.go], [enrollment_bootstrap.go], [enrollment_issue.go], [internal/manager/api])

    An operator creates an enrollment, which has a bootstrap ticket and a
    token, kept as hashes.  The ticket is redeemed once, for a fresh token;
    the token buys one certificate, for one key.  Artifacts, the channels
    that name them and the certificates that were issued are kept beside.

    [now] is the clock.  The answers of a durable backend are arguments:
    [None] when there is no backend.  Certificates are signed by Go's
    [crypto/x509]; what [signAgentCSR] returned is an argument. *)

From S2P Require Import Prelude GoStrings GoBytes GoData GoSha StoreData.

Module StoreEnrollment.
Import StoreData.

Definition zero_enrollment : Enrollment :=
  MkEnrollment "" "" "" "" "" "" "" "" zero_time "" "" "" "" "" "" "" ∅ "" zero_time zero_time "" zero_time
    "" "" "" "" zero_time zero_time.

Definition same_enrollment (e existing : Enrollment) : bool :=
  bool_decide (en_TenantID existing = en_TenantID e) && bool_decide (en_EnrollmentID existing = en_EnrollmentID e).

Definition has_token (tokenHash : string) (e : Enrollment) : bool := bool_decide (en_TokenHash e = tokenHash).
Definition has_ticket (ticketHash : string) (e : Enrollment) : bool := bool_decide (en_BootstrapTokenHash e = ticketHash).

Definition expired (now : Time) (e : Enrollment) : bool := negb (IsZero (en_ExpiresAt e)) && After now (en_ExpiresAt e).

Definition normalizeEnrollment (e : Enrollment) : Enrollment :=
  e <| en_EnrollmentID ::= TrimSpace |>
    <| en_TenantID ::= λ t, or_default (TrimSpace t) |>
    <| en_AgentID ::= TrimSpace |> <| en_HostID ::= TrimSpace |>
    <| en_TokenHash ::= TrimSpace |> <| en_TokenPreview ::= TrimSpace |>
    <| en_GatewayAddr ::= TrimSpace |> <| en_GatewaySNI ::= TrimSpace |>
    <| en_Profile ::= TrimSpace |> <| en_Channel ::= TrimSpace |>
    <| en_ArtifactID ::= TrimSpace |> <| en_ArtifactSHA256 ::= TrimSpace |> <| en_ArtifactURL ::= TrimSpace |>
    <| en_Status ::= TrimSpace |> <| en_CreatedBy ::= TrimSpace |>.

Definition CreateEnrollment (now : Time) (enrollment : Enrollment) (s : Store) : Enrollment * Store :=
  let enrollment := normalizeEnrollment enrollment in
  if bool_decide (en_EnrollmentID enrollment = "") || bool_decide (en_TokenHash enrollment = "") then (zero_enrollment, s)
  else
    let enrollment := enrollment <| en_CreatedAt := now when IsZero (en_CreatedAt enrollment) |>
                                 <| en_Status := "active" when bool_decide (en_Status enrollment = "") |> in
    (enrollment, s <| st_Enrollments ::= upsert (same_enrollment enrollment) (λ _, enrollment) enrollment |>).

(** By tenant, then by creation *)
Definition tenant_order {A} (tenant : A → string) (created : A → Time) (x y : A) : bool :=
  if bool_decide (tenant x = tenant y) then Before (created x) (created y) else string_ltb (tenant x) (tenant y).

Definition ListEnrollments `{SliceSort} (backend : option (list Enrollment)) (tenantID status : string) (s : Store) : list Enrollment :=
  match backend with
  | Some enrollments => enrollments
  | None =>
    sort_slice (tenant_order en_TenantID en_CreatedAt)
      (filter (λ e, matches tenantID (en_TenantID e) && matches status (en_Status e) = true) (st_Enrollments s))
  end.

Definition GetEnrollmentByTokenHash (backend : option (option Enrollment)) (tokenHash : string) (s : Store) : option Enrollment :=
  let tokenHash := TrimSpace tokenHash in
  if bool_decide (tokenHash = "") then None
  else match backend with
  | Some found => found
  | None => find_first (has_token tokenHash) (st_Enrollments s)
  end.

Definition replaceEnrollmentInMemory (enrollment : Enrollment) (s : Store) : Store :=
  s <| st_Enrollments ::= upsert (same_enrollment enrollment) (λ _, enrollment) enrollment |>.

Definition use_enrollment (usedAt : Time) (e : Enrollment) : Enrollment :=
  e <| en_Status := "used" |> <| en_UsedAt := usedAt |>.

Definition mark_used_in_memory (tokenHash : string) (usedAt : Time) (s : Store) : option Enrollment * Store :=
  match find_first (has_token tokenHash) (st_Enrollments s) with
  | None => (None, s)
  | Some e =>
    if negb (bool_decide (en_Status e = "active")) then (None, s)
    else (Some (use_enrollment usedAt e), s <| st_Enrollments ::= update_first (has_token tokenHash) (use_enrollment usedAt) |>)
  end.

(** [backend] is what the backend found; [written], whether it took the update. *)
Definition MarkEnrollmentUsed (backend : option (option Enrollment)) (written : bool) (now : Time) (tokenHash : string)
    (usedAt : Time) (s : Store) : option Enrollment * Store :=
  let tokenHash := TrimSpace tokenHash in
  if bool_decide (tokenHash = "") then (None, s)
  else
    let usedAt := if IsZero usedAt then now else usedAt in
    match backend with
    | Some (Some e) =>
      if bool_decide (en_Status e = "active") && written then
        (Some (use_enrollment usedAt e), replaceEnrollmentInMemory (use_enrollment usedAt e) s)
      else mark_used_in_memory tokenHash usedAt s
    | _ => mark_used_in_memory tokenHash usedAt s
    end.

(** ** The bootstrap ticket *)

Definition GetEnrollmentByBootstrapTokenHash (backend : option (result (option Enrollment))) (tokenHash : string) (s : Store)
    : option Enrollment :=
  let tokenHash := TrimSpace tokenHash in
  if bool_decide (tokenHash = "") then None
  else match backend with
  | Some (Ok found) => found
  | Some (Err _) => None
  | None => find_first (has_ticket tokenHash) (st_Enrollments s)
  end.

Definition redeem (enrollmentHash enrollmentPreview : string) (fetchedAt : Time) (e : Enrollment) : Enrollment :=
  e <| en_TokenHash := enrollmentHash |> <| en_TokenPreview := enrollmentPreview |> <| en_BootstrapFetchedAt := fetchedAt |>.

Definition redeemable (fetchedAt : Time) (e : Enrollment) : bool :=
  bool_decide (en_Status e = "active") && IsZero (en_BootstrapFetchedAt e) && negb (expired fetchedAt e).

Definition ConsumeEnrollmentBootstrap (backend : option (result (option Enrollment))) (now : Time)
    (bootstrapHash enrollmentHash enrollmentPreview : string) (fetchedAt : Time) (s : Store) : result (option Enrollment) * Store :=
  match backend with
  | Some (Ok (Some got)) => (Ok (Some got), replaceEnrollmentInMemory got s)
  | Some r => (r, s)
  | None =>
    let fetchedAt := if IsZero fetchedAt then now else fetchedAt in
    match find_first (has_ticket bootstrapHash) (st_Enrollments s) with
    | None => (Ok None, s)
    | Some e =>
      if negb (redeemable fetchedAt e) then (Ok None, s)
      else (Ok (Some (redeem enrollmentHash enrollmentPreview fetchedAt e)),
            s <| st_Enrollments ::= update_first (has_ticket bootstrapHash) (redeem enrollmentHash enrollmentPreview fetchedAt) |>)
    end
  end.

(** ** The certificate *)

Inductive EnrollmentIssueResult := EnrollmentIssued | EnrollmentIssueReplay | EnrollmentIssueConflict | EnrollmentIssueMissing.

Definition normalizeAgentCertificate (cert : AgentCertificate) : AgentCertificate :=
  cert <| ce_TenantID ::= λ t, or_default (TrimSpace t) |> <| ce_AgentID ::= TrimSpace |>
       <| ce_EnrollmentID ::= TrimSpace |> <| ce_SerialNumber ::= TrimSpace |> <| ce_Subject ::= TrimSpace |>.

Definition same_certificate (cert current : AgentCertificate) : bool :=
  bool_decide (ce_TenantID current = ce_TenantID cert) && bool_decide (ce_SerialNumber current = ce_SerialNumber cert).

Definition upsertCertificateLocked (cert : AgentCertificate) (s : Store) : Store :=
  let cert := normalizeAgentCertificate cert in
  s <| st_Certificates ::= upsert (same_certificate cert) (λ _, cert) cert |>.

Definition zero_certificate : AgentCertificate :=
  MkAgentCertificate "" "" "" "" "" zero_time zero_time zero_time zero_time "".

Definition RecordAgentCertificate (now : Time) (cert : AgentCertificate) (s : Store) : AgentCertificate * Store :=
  let cert := normalizeAgentCertificate cert in
  if bool_decide (ce_TenantID cert = "") || bool_decide (ce_AgentID cert = "") || bool_decide (ce_SerialNumber cert = "")
  then (zero_certificate, s)
  else
    let cert := cert <| ce_CreatedAt := now when IsZero (ce_CreatedAt cert) |> in
    (cert, s <| st_Certificates ::= upsert (same_certificate cert) (λ _, cert) cert |>).

Definition issue (tokenHash keyHash : string) (proposed : Enrollment) : Enrollment :=
  proposed <| en_TokenHash := tokenHash |> <| en_Status := "issued" |> <| en_IssuedKeySHA256 := keyHash |>.

Definition commitEnrollmentIssueInMemory (now : Time) (tokenHash keyHash : string) (proposed : Enrollment)
    (cert : AgentCertificate) (s : Store) : Enrollment * EnrollmentIssueResult * Store :=
  match find_first (has_token tokenHash) (st_Enrollments s) with
  | None => (zero_enrollment, EnrollmentIssueMissing, s)
  | Some current =>
    if bool_decide (en_Status current = "issued") then
      if bool_decide (en_IssuedKeySHA256 current = keyHash) then (current, EnrollmentIssueReplay, s)
      else (zero_enrollment, EnrollmentIssueConflict, s)
    else if negb (bool_decide (en_Status current = "active")) || expired now current
    then (zero_enrollment, EnrollmentIssueConflict, s)
    else
      let issued := issue (en_TokenHash current) keyHash proposed in
      (issued, EnrollmentIssued,
       upsertCertificateLocked cert (s <| st_Enrollments ::= update_first (has_token tokenHash) (λ _, issued) |>))
  end.

Definition CommitEnrollmentIssue (backend : option (result (Enrollment * EnrollmentIssueResult))) (now : Time)
    (tokenHash keyHash : string) (proposed : Enrollment) (cert : AgentCertificate) (s : Store)
    : result (Enrollment * EnrollmentIssueResult) * Store :=
  let tokenHash := TrimSpace tokenHash in
  let keyHash := TrimSpace keyHash in
  if bool_decide (tokenHash = "") || bool_decide (keyHash = "") then (Ok (zero_enrollment, EnrollmentIssueMissing), s)
  else match backend with
  | Some (Err msg) => (Err msg, s)
  | Some (Ok (got, EnrollmentIssued)) => (Ok (got, EnrollmentIssued), replaceEnrollmentInMemory got s)
  | Some (Ok (got, res)) => (Ok (got, res), s)
  | None =>
    let '(got, res, s) := commitEnrollmentIssueInMemory now tokenHash keyHash proposed cert s in (Ok (got, res), s)
  end.

(** ** Artifacts and channels *)

Definition zero_artifact : Artifact := MkArtifact "" "" "" "" "" "" "" "" 0 "" "" zero_time zero_time "" ∅.

Definition normalizeArtifact (a : Artifact) : Artifact :=
  a <| ar_ArtifactID ::= TrimSpace |> <| ar_TenantID ::= λ t, or_default (TrimSpace t) |>
    <| ar_Name ::= TrimSpace |> <| ar_Kind ::= TrimSpace |> <| ar_Version ::= TrimSpace |>
    <| ar_OS ::= TrimSpace |> <| ar_Arch ::= TrimSpace |> <| ar_SHA256 ::= TrimSpace |>
    <| ar_Status ::= TrimSpace |> <| ar_StoragePath ::= TrimSpace |> <| ar_CreatedBy ::= TrimSpace |>.

Definition same_artifact (a existing : Artifact) : bool :=
  bool_decide (ar_TenantID existing = ar_TenantID a) && bool_decide (ar_ArtifactID existing = ar_ArtifactID a).

(** [CreatedAt] of the record replaced, else the clock, where none is given *)
Definition created_at (given existing now : Time) : Time :=
  let t := if IsZero given then existing else given in if IsZero t then now else t.

Definition UpsertArtifact (now : Time) (artifact : Artifact) (s : Store) : Artifact * Store :=
  let a := normalizeArtifact artifact in
  if bool_decide (ar_ArtifactID a = "") || bool_decide (ar_Name a = "") || bool_decide (ar_Kind a = "") ||
     bool_decide (ar_Version a = "") || bool_decide (ar_SHA256 a = "") then (zero_artifact, s)
  else
    let a := a <| ar_UpdatedAt := now when IsZero (ar_UpdatedAt a) |>
               <| ar_Status := "draft" when bool_decide (ar_Status a = "") |> in
    let stored existing := a <| ar_CreatedAt := created_at (ar_CreatedAt a) (ar_CreatedAt existing) now |> in
    let new := a <| ar_CreatedAt := now when IsZero (ar_CreatedAt a) |> in
    (from_option stored new (find_first (same_artifact a) (st_Artifacts s)),
     s <| st_Artifacts ::= upsert (same_artifact a) stored new |>).

Definition ListArtifacts `{SliceSort} (backend : option (list Artifact)) (tenantID kind status : string) (s : Store) : list Artifact :=
  match backend with
  | Some artifacts => artifacts
  | None =>
    sort_slice (tenant_order ar_TenantID ar_CreatedAt)
      (filter (λ a, matches tenantID (ar_TenantID a) && matches kind (ar_Kind a) && matches status (ar_Status a) = true) (st_Artifacts s))
  end.

Definition GetArtifact (backend : option (option Artifact)) (tenantID artifactID : string) (s : Store) : option Artifact :=
  let tenantID := TrimSpace tenantID in
  let artifactID := TrimSpace artifactID in
  if bool_decide (artifactID = "") then None
  else
    let tenantID := or_default tenantID in
    match backend with
    | Some found => found
    | None => find_first (λ a, bool_decide (ar_TenantID a = tenantID) && bool_decide (ar_ArtifactID a = artifactID)) (st_Artifacts s)
    end.

Definition zero_channel : ArtifactChannel := MkArtifactChannel "" "" "" zero_time zero_time "".

Definition normalizeChannel (c : ArtifactChannel) : ArtifactChannel :=
  c <| ch_TenantID ::= λ t, or_default (TrimSpace t) |> <| ch_Channel ::= TrimSpace |>
    <| ch_ArtifactID ::= TrimSpace |> <| ch_CreatedBy ::= TrimSpace |>.

Definition same_channel (c existing : ArtifactChannel) : bool :=
  bool_decide (ch_TenantID existing = ch_TenantID c) && bool_decide (ch_Channel existing = ch_Channel c).

Definition UpsertChannel (now : Time) (channel : ArtifactChannel) (s : Store) : ArtifactChannel * Store :=
  let c := normalizeChannel channel in
  if bool_decide (ch_Channel c = "") || bool_decide (ch_ArtifactID c = "") then (zero_channel, s)
  else
    let c := c <| ch_UpdatedAt := now when IsZero (ch_UpdatedAt c) |> in
    let stored existing := c <| ch_CreatedAt := created_at (ch_CreatedAt c) (ch_CreatedAt existing) now |> in
    let new := c <| ch_CreatedAt := now when IsZero (ch_CreatedAt c) |> in
    (from_option stored new (find_first (same_channel c) (st_Channels s)),
     s <| st_Channels ::= upsert (same_channel c) stored new |>).

Definition ListChannels `{SliceSort} (backend : option (list ArtifactChannel)) (tenantID : string) (s : Store) : list ArtifactChannel :=
  match backend with
  | Some channels => channels
  | None =>
    sort_slice (λ x y, if bool_decide (ch_TenantID x = ch_TenantID y) then string_ltb (ch_Channel x) (ch_Channel y)
                       else string_ltb (ch_TenantID x) (ch_TenantID y))
      (filter (λ c, matches tenantID (ch_TenantID c) = true) (st_Channels s))
  end.

Definition GetChannel (backend : option (option ArtifactChannel)) (tenantID channelName : string) (s : Store) : option ArtifactChannel :=
  let tenantID := or_default (TrimSpace tenantID) in
  let channelName := TrimSpace channelName in
  if bool_decide (channelName = "") then None
  else match backend with
  | Some found => found
  | None => find_first (λ c, bool_decide (ch_TenantID c = tenantID) && bool_decide (ch_Channel c = channelName)) (st_Channels s)
  end.
End StoreEnrollment.
