(* ===== verification/Postgres.v ===== *)
(** * The durable backend ([internal/store/postgres/snapshot.go])

    The manager, the gateway and the workers keep their store in memory and
    attach this backend to it.  The database outlives the processes: it holds
    a table for every kind of record, and a process that is started begins
    with an empty memory and reads the tables.

    A table is a map from the primary key to a row.  A row has the columns
    that the queries sort by, the time of creation ([created_at], kept when a
    row is replaced) and the time of the last change ([updated_at],
    [observed_at] or [last_seen_at], whichever the table has), and the JSON
    column with the record.  The columns the queries filter by are set from
    the record each time the row is, so they are read off it here; the tenant
    is the exception, since it is part of the key and a blank tenant is stored
    as default.  encoding/json reads back the record it wrote; the text
    columns of a database in UTF-8 refuse what JSON would have to replace.

    ORDER BY on text uses the collation of the database, [text_ltb], and a
    timestamp has the precision of its column, [column_time].  Every
    statement of a transaction can fail, and then the transaction is rolled
    back: [fault] is such an error, and without one the transaction commits.
    What a database that cannot be reached answers is up to the callers: the
    answers are arguments of the methods of the store, as in [StoreData]. *)

From S2P Require Import Prelude GoStrings GoBytes GoData Policy Response ControlModel PolicyModel Health StoreData StoreAgents StorePolicies StoreEnrollment.

Module Postgres.
Import Policy Response ControlModel PolicyModel Health StoreData StoreAgents StorePolicies StoreEnrollment.

Class Postgresql := {
  text_ltb : string → string → bool;
  column_time : Time → Time
}.

(** ** Tables *)

Record Row (A : Type) := MkRow { row_created : Time; row_touched : Time; row_data : A }.
Global Arguments MkRow {A} _ _ _.
Global Arguments row_created {A} _.
Global Arguments row_touched {A} _.
Global Arguments row_data {A} _.

Notation Table K A := (gmap K (Row A)).

(** INSERT ... ON CONFLICT DO UPDATE: the time of creation stays. *)
Definition put `{Postgresql} `{Countable K} {A} (key : K) (created touched : Time) (data : A) (t : Table K A) : Table K A :=
  <[key := MkRow (from_option row_created (column_time created) (t !! key)) (column_time touched) data]> t.

(** SELECT data ... WHERE ... ORDER BY *)
Definition select `{SliceSort} `{Countable K} {A} (where_ : K → A → bool) (less : K * Row A → K * Row A → bool) (t : Table K A) : list A :=
  (λ kr, row_data kr.2) <$> sort_slice less (filter (λ kr, where_ kr.1 (row_data kr.2) = true) (map_to_list t)).

(** ORDER BY a, b, ... *)
Fixpoint order_by {R} (columns : list (R → R → bool)) (x y : R) : bool :=
  match columns with
  | [] => false
  | less :: columns' => less x y || (negb (less y x) && order_by columns' x y)
  end.

Section columns.
Context `{Postgresql} {K A : Type}.
Definition asc (column : K * Row A → string) (x y : K * Row A) : bool := text_ltb (column x) (column y).
Definition asc_time (column : Row A → Time) (x y : K * Row A) : bool := Before (column x.2) (column y.2).
Definition desc_time (column : Row A → Time) (x y : K * Row A) : bool := Before (column y.2) (column x.2).
End columns.

Definition key_tenant {B} (x : (string * string) * B) : string := x.1.1.
Definition key_id {B} (x : (string * string) * B) : string := x.1.2.

Record Database := MkDatabase {
  db_agents : Table (string * string) AgentIdentity;
  db_health : Table (string * string) AgentHealth;
  db_rules : Table (string * Z) RuleContent;
  db_responses : Table (string * string) AuditRecord;
  db_policies : Table (string * string * Z) PolicyDoc;
  db_assignments : Table (string * string) Assignment;
  db_audits : Table (string * string) PolicyAudit;
  db_enrollments : Table (string * string) Enrollment;
  db_artifacts : Table (string * string) Artifact;
  db_channels : Table (string * string) ArtifactChannel;
  db_certificates : Table (string * string) AgentCertificate;
  db_pullbacks : Table (string * string) EvidencePullbackRequest;
  db_commands : Table (string * string) ControlCommand;
  db_sessions : Table (string * string) AgentSession;
  db_metrics : option StoreMetrics
}.

Global Instance Database_eta : Settable Database := λ x,
  MkDatabase (db_agents x) (db_health x) (db_rules x) (db_responses x) (db_policies x) (db_assignments x) (db_audits x)
    (db_enrollments x) (db_artifacts x) (db_channels x) (db_certificates x) (db_pullbacks x) (db_commands x) (db_sessions x) (db_metrics x).

(** The schema, without rows *)
Definition PostgresSchema : Database := MkDatabase ∅ ∅ ∅ ∅ ∅ ∅ ∅ ∅ ∅ ∅ ∅ ∅ ∅ ∅ None.

(** ** The primary keys *)

Definition agent_row (a : AgentIdentity) : string * string := (ai_TenantID (Normalized a), ai_AgentID (Normalized a)).
Definition health_row (h : AgentHealth) : string * string := (or_default (ah_TenantID h), ah_AgentID h).
Definition rule_row (r : RuleContent) : string * Z := (rc_RuleID r, rc_Version r).
Definition response_row (r : AuditRecord) : string * string := (or_default (cmd_TenantID (aud_Command r)), cmd_ResponseID (aud_Command r)).
Definition policy_row (p : PolicyDoc) : string * string * Z := (or_default (pol_TenantID p), pol_PolicyID p, pol_Version p).
Definition assignment_row (a : Assignment) : string * string := (or_default (asg_TenantID a), asg_AssignmentID a).
Definition audit_row (a : PolicyAudit) : string * string := (or_default (pa_TenantID a), pa_AuditID a).
Definition enrollment_row (e : Enrollment) : string * string := (or_default (en_TenantID e), en_EnrollmentID e).
Definition artifact_row (a : Artifact) : string * string := (or_default (ar_TenantID a), ar_ArtifactID a).
Definition channel_row (c : ArtifactChannel) : string * string := (or_default (ch_TenantID c), ch_Channel c).
Definition certificate_row (c : AgentCertificate) : string * string := (or_default (ce_TenantID c), ce_SerialNumber c).
Definition pullback_row (r : EvidencePullbackRequest) : string * string := (or_default (ep_TenantID r), ep_RequestID r).
Definition command_row (c : ControlCommand) : string * string := (or_default (cc_TenantID c), cc_CommandID c).
Definition session_row (x : AgentSession) : string * string := (or_default (as_TenantID x), as_SessionID x).

(** ** Writing *)

Section writes.
Context `{Postgresql} (now : Time).

Definition or_clock (t : Time) : Time := if IsZero t then now else t.

Definition upsertAgent (a : AgentIdentity) (db : Database) : Database :=
  if negb (Valid (Normalized a)) then db else db <| db_agents ::= put (agent_row a) now now a |>.

Definition upsertHealth (h : AgentHealth) (db : Database) : Database :=
  if bool_decide (ah_AgentID h = "") then db
  else db <| db_health ::= put (health_row h) (or_clock (ah_ObservedAt h)) (or_clock (ah_ObservedAt h)) h |>.

Definition upsertRuleRow (r : RuleContent) (db : Database) : Database :=
  if bool_decide (rc_RuleID r = "") || (rc_Version r =? 0)%Z then db else db <| db_rules ::= put (rule_row r) now now r |>.

Definition upsertResponseAudit (cmd : Command) (ack : option Ack) (db : Database) : Database :=
  if bool_decide (cmd_ResponseID cmd = "") then db
  else db <| db_responses ::= put (response_row (MkAuditRecord cmd ack)) (cmd_CreatedAt cmd) (cmd_UpdatedAt cmd) (MkAuditRecord cmd ack) |>.

Definition upsertPolicy (p : PolicyDoc) (db : Database) : Database :=
  if bool_decide (pol_PolicyID p = "") || (pol_Version p =? 0)%Z then db
  else db <| db_policies ::= put (policy_row p) (or_clock (pol_CreatedAt p)) now p |>.

Definition upsertPolicyAssignment (a : Assignment) (db : Database) : Database :=
  if bool_decide (asg_AssignmentID a = "") || bool_decide (asg_PolicyID a = "") then db
  else
    let timed := negb (IsZero (asg_CreatedAt a) || IsZero (asg_UpdatedAt a)) in
    db <| db_assignments ::= put (assignment_row a) (if timed then asg_CreatedAt a else now) (if timed then asg_UpdatedAt a else now) a |>.

Definition upsertPolicyAudit (a : PolicyAudit) (db : Database) : Database :=
  if bool_decide (pa_AuditID a = "") then db
  else db <| db_audits ::= put (audit_row a) (or_clock (pa_CreatedAt a)) now a |>.

Definition upsertEnrollment (e : Enrollment) (db : Database) : Database :=
  if bool_decide (en_EnrollmentID e = "") || bool_decide (en_TokenHash e = "") then db
  else db <| db_enrollments ::= put (enrollment_row e) (en_CreatedAt e) now e |>.

Definition upsertArtifact (a : Artifact) (db : Database) : Database :=
  if bool_decide (ar_ArtifactID a = "") || bool_decide (ar_Name a = "") || bool_decide (ar_Kind a = "") ||
     bool_decide (ar_Version a = "") || bool_decide (ar_SHA256 a = "") then db
  else
    let created := or_clock (ar_CreatedAt a) in
    db <| db_artifacts ::= put (artifact_row a) created (if IsZero (ar_UpdatedAt a) then created else ar_UpdatedAt a) a |>.

(** The record is stored with its times filled in. *)
Definition upsertChannel (c : ArtifactChannel) (db : Database) : Database :=
  if bool_decide (ch_Channel c = "") || bool_decide (ch_ArtifactID c = "") then db
  else
    let c := c <| ch_CreatedAt ::= or_clock |> in
    let c := c <| ch_UpdatedAt := ch_CreatedAt c when IsZero (ch_UpdatedAt c) |> in
    db <| db_channels ::= put (channel_row c) (ch_CreatedAt c) (ch_UpdatedAt c) c |>.

Definition upsertAgentCertificate (c : AgentCertificate) (db : Database) : Database :=
  let c := c <| ce_TenantID ::= or_default |> in
  if bool_decide (ce_AgentID c = "") || bool_decide (ce_SerialNumber c = "") then db
  else
    let c := c <| ce_CreatedAt ::= or_clock |> in
    db <| db_certificates ::= put (certificate_row c) (ce_CreatedAt c) now c |>.

Definition upsertEvidencePullback (r : EvidencePullbackRequest) (db : Database) : Database :=
  if bool_decide (ep_RequestID r = "") then db
  else
    let timed := negb (IsZero (ep_CreatedAt r) || IsZero (ep_UpdatedAt r)) in
    db <| db_pullbacks ::= put (pullback_row r) (if timed then ep_CreatedAt r else now) (if timed then ep_UpdatedAt r else now) r |>.

Definition upsertCommandRow (c : ControlCommand) (db : Database) : Database :=
  if bool_decide (cc_CommandID c = "") then db
  else
    let timed := negb (IsZero (cc_CreatedAt c) || IsZero (cc_UpdatedAt c)) in
    db <| db_commands ::= put (command_row c) (if timed then cc_CreatedAt c else now) (if timed then cc_UpdatedAt c else now) c |>.

Definition upsertSession (x : AgentSession) (db : Database) : Database :=
  if bool_decide (as_SessionID x = "") || bool_decide (as_AgentID x = "") then db
  else
    let timed := negb (IsZero (as_StartedAt x) || IsZero (as_LastSeenAt x)) in
    db <| db_sessions ::= put (session_row x) (if timed then as_StartedAt x else now) (if timed then as_LastSeenAt x else now) x |>.

(** [for _, x := range l { upsert(x) }] *)
Definition project {A} (upsert_row : A → Database → Database) (l : list A) (db : Database) : Database := foldl (λ db x, upsert_row x db) db l.

(** The acknowledgement of a command is the last one with its id. *)
Definition ack_of (acks : list Ack) (responseID : string) : option Ack :=
  list.last (filter (λ a, rack_ResponseID a = responseID ∧ rack_ResponseID a ≠ "") acks).

Definition projectResponseAudit (commands : list Command) (acks : list Ack) : Database → Database :=
  project (λ cmd, upsertResponseAudit cmd (ack_of acks (cmd_ResponseID cmd))) commands.

(** The statements of [saveTables], in order; the rarity baseline, which no
    query reads, is left out. *)
Definition save_rows `{RangeOrder} (s : Store) (db : Database) : Database :=
  project upsertSession (st_AgentSessions s)
    (project upsertCommandRow (st_ControlCommands s)
      (project upsertEvidencePullback (st_Pullbacks s)
        (project upsertAgentCertificate (st_Certificates s)
          (project upsertChannel (st_Channels s)
            (project upsertArtifact (st_Artifacts s)
              (project upsertEnrollment (st_Enrollments s)
                (project upsertPolicyAudit (st_PolicyAudits s)
                  (project upsertPolicyAssignment (st_Assignments s)
                    (project upsertPolicy (st_Policies s)
                      (projectResponseAudit (st_Responses s) (st_ResponseAcks s)
                        (project upsertRuleRow (st_Rules s)
                          (project upsertHealth (health_values s)
                            (project upsertAgent (st_Agents s) db))))))))))))).

(** [SaveState]: one transaction *)
Definition saveTables `{RangeOrder} (fault : option string) (s : Store) (db : Database) : option string * Database :=
  match fault with Some e => (Some e, db) | None => (None, save_rows s db) end.

Definition SaveMetrics (m : StoreMetrics) (db : Database) : Database := db <| db_metrics := Some m |>.
Definition LoadMetrics (db : Database) : StoreMetrics := default zero_metrics (db_metrics db).
End writes.

(** ** Reading *)

Section reads.
Context `{Postgresql} `{SliceSort}.

(** [tenant_id = $1] with the blank tenant read as default *)
Definition of_tenant (tenantID : string) (key : string * string) : bool := bool_decide (key.1 = or_default tenantID).

Definition queryAgents (db : Database) : list AgentIdentity :=
  Normalized <$> select (λ _ _, true) (order_by [asc key_tenant; asc key_id]) (db_agents db).

Definition queryAgentHealth (tenantID agentID : string) (db : Database) : list AgentHealth :=
  select (λ key _, matches tenantID key.1 && matches agentID key.2) (order_by [asc key_tenant; asc key_id]) (db_health db).

(** [GetAgentHealth] of the backend *)
Definition backendAgentHealth (tenantID agentID : string) (db : Database) : option AgentHealth :=
  match queryAgentHealth tenantID agentID db with [health] => Some health | _ => None end.

Definition queryAgentSessions (tenantID agentID : string) (db : Database) : list AgentSession :=
  select (λ key x, matches tenantID key.1 && matches agentID (as_AgentID x))
    (order_by [desc_time row_touched; asc key_tenant; asc (λ kr, as_AgentID (row_data kr.2))]) (db_sessions db).

Definition queryResponses (tenantID agentID : string) (db : Database) : list AuditRecord :=
  select (λ key x, matches tenantID key.1 && matches agentID (cmd_AgentID (aud_Command x)))
    (order_by [asc_time row_touched; asc key_id]) (db_responses db).

Definition queryControlCommands (tenantID agentID commandType : string) (db : Database) : list ControlCommand :=
  select (λ key x, matches tenantID key.1 && matches agentID (cc_AgentID x) && matches commandType (cc_Type x))
    (order_by [asc_time row_created; asc key_id]) (db_commands db).

Definition queryPolicies (tenantID : string) (db : Database) : list PolicyDoc :=
  select (λ key _, matches tenantID key.1.1)
    (order_by [asc (λ kr, kr.1.1.1); asc (λ kr, kr.1.1.2); λ x y, (x.1.2 <? y.1.2)%Z]) (db_policies db).

(** The rows of [queryPolicy] and [queryPublishedPolicy], latest version first *)
Definition policy_versions (tenantID policyID : string) (version : Z) (db : Database) : list PolicyDoc :=
  select (λ key _, matches tenantID key.1.1 && bool_decide (key.1.2 = policyID) && ((version =? 0) || (key.2 =? version))%Z)
    (order_by [λ x y, (y.1.2 <? x.1.2)%Z]) (db_policies db).

Definition queryPolicy (tenantID policyID : string) (version : Z) (db : Database) : option PolicyDoc :=
  if bool_decide (policyID = "") then None else head (policy_versions tenantID policyID version db).

Definition queryPublishedPolicy (tenantID policyID : string) (version : Z) (db : Database) : option PolicyDoc :=
  if bool_decide (policyID = "") then None else find_first pol_Published (policy_versions tenantID policyID version db).

Definition queryPolicyAssignments (tenantID agentID : string) (db : Database) : list Assignment :=
  select (λ key x, matches tenantID key.1 && matches agentID (asg_AgentID x)) (order_by [asc key_tenant; asc key_id]) (db_assignments db).

Definition queryEffectivePolicy (tenantID agentID scopeType scopeSelector : string) (db : Database) : option PolicyDoc :=
  match best_assignment tenantID agentID scopeType scopeSelector (queryPolicyAssignments tenantID "" db) with
  | Some best => queryPublishedPolicy (asg_TenantID best) (asg_PolicyID best) (asg_PolicyVersion best) db
  | None =>
    let tenantID := or_default tenantID in
    match queryPublishedPolicy tenantID DefaultPolicyID 0 db with
    | Some policy => Some policy
    | None => Some (DefaultPolicy tenantID)
    end
  end.

Definition queryPolicyAudits (tenantID policyID : string) (db : Database) : list PolicyAudit :=
  select (λ key x, of_tenant tenantID key && matches policyID (pa_PolicyID x)) (order_by [asc_time row_created; asc key_id]) (db_audits db).

(** A blank status is stored as active. *)
Definition queryEnrollments (tenantID status : string) (db : Database) : list Enrollment :=
  select (λ key x, of_tenant tenantID key && matches status (if bool_decide (en_Status x = "") then "active" else en_Status x))
    (order_by [asc_time row_created; asc key_id]) (db_enrollments db).

(** ORDER BY created_at DESC LIMIT 1, with or without FOR UPDATE *)
Definition latest_enrollment (where_ : Enrollment → bool) (db : Database) : option Enrollment :=
  head (select (λ _, where_) (order_by [desc_time row_created]) (db_enrollments db)).

Definition queryEnrollmentByTokenHash (tokenHash : string) (db : Database) : option Enrollment :=
  if bool_decide (tokenHash = "") then None else latest_enrollment (has_token tokenHash) db.

Definition queryEnrollmentByTokenHashForUpdate (tokenHash : string) (db : Database) : option Enrollment :=
  latest_enrollment (has_token tokenHash) db.

(** A blank hash is left out of the JSON, where it equals nothing. *)
Definition queryEnrollmentByBootstrapTokenHash (tokenHash : string) (db : Database) : option Enrollment :=
  latest_enrollment (λ x, has_ticket tokenHash x && negb (bool_decide (en_BootstrapTokenHash x = ""))) db.

Definition queryArtifacts (tenantID kind status : string) (db : Database) : list Artifact :=
  select (λ key x, of_tenant tenantID key && matches kind (ar_Kind x) && matches status (if bool_decide (ar_Status x = "") then "draft" else ar_Status x))
    (order_by [asc_time row_created; asc key_id]) (db_artifacts db).

Definition queryArtifact (tenantID artifactID : string) (db : Database) : option Artifact :=
  if bool_decide (artifactID = "") then None else row_data <$> db_artifacts db !! (or_default tenantID, artifactID).

Definition queryChannels (tenantID : string) (db : Database) : list ArtifactChannel :=
  select (λ key _, of_tenant tenantID key) (order_by [asc key_id]) (db_channels db).

Definition queryChannel (tenantID channelName : string) (db : Database) : option ArtifactChannel :=
  if bool_decide (channelName = "") then None else row_data <$> db_channels db !! (or_default tenantID, channelName).
End reads.

(** ** Transactions *)

Section transactions.
Context `{Postgresql} `{SliceSort} (fault : option string) (now : Time).

(** [ConsumeEnrollmentBootstrap] of the backend *)
Definition consume_ticket (bootstrapHash enrollmentHash enrollmentPreview : string) (fetchedAt : Time) (db : Database)
    : result (option Enrollment) * Database :=
  match fault with
  | Some e => (Err e, db)
  | None =>
    match queryEnrollmentByBootstrapTokenHash bootstrapHash db with
    | None => (Ok None, db)
    | Some enrollment =>
      if negb (redeemable fetchedAt enrollment) then (Ok None, db)
      else
        let enrollment := redeem enrollmentHash enrollmentPreview fetchedAt enrollment in
        (Ok (Some enrollment), upsertEnrollment now enrollment db)
    end
  end.

(** [CommitEnrollmentIssue] of the backend; [clock] is what it reads. *)
Definition commit_issue (clock : Time) (tokenHash keyHash : string) (proposed : Enrollment) (cert : AgentCertificate) (db : Database)
    : result (Enrollment * EnrollmentIssueResult) * Database :=
  match fault with
  | Some e => (Err e, db)
  | None =>
    match queryEnrollmentByTokenHashForUpdate tokenHash db with
    | None => (Ok (zero_enrollment, EnrollmentIssueMissing), db)
    | Some current =>
      if bool_decide (en_Status current = "issued") then
        (Ok (if bool_decide (en_IssuedKeySHA256 current = keyHash) then (current, EnrollmentIssueReplay)
             else (zero_enrollment, EnrollmentIssueConflict)), db)
      else if negb (bool_decide (en_Status current = "active")) || expired clock current
      then (Ok (zero_enrollment, EnrollmentIssueConflict), db)
      else
        let issued := issue (en_TokenHash current) keyHash proposed in
        (Ok (issued, EnrollmentIssued), upsertAgentCertificate now cert (upsertEnrollment now issued db))
    end
  end.
End transactions.

(** ** What the processes write

    The manager, the gateway and the workers write the database through these
    operations, in any order; each copy that a method of the store writes
    through is one row. *)

Section written.
Context `{Postgresql} `{SliceSort} `{RangeOrder}.

Inductive written : Database → Prop :=
| wr_schema : written PostgresSchema
| wr_save now fault s db : written db → written (saveTables now fault s db).2
| wr_response cmd ack db : written db → written (upsertResponseAudit cmd ack db)
| wr_policy now p db : written db → written (upsertPolicy now p db)
| wr_assignment now a db : written db → written (upsertPolicyAssignment now a db)
| wr_audit now a db : written db → written (upsertPolicyAudit now a db)
| wr_enrollment now e db : written db → written (upsertEnrollment now e db)
| wr_artifact now a db : written db → written (upsertArtifact now a db)
| wr_channel now c db : written db → written (upsertChannel now c db)
| wr_certificate now c db : written db → written (upsertAgentCertificate now c db)
| wr_metrics m db : written db → written (SaveMetrics m db)
| wr_consume fault now b t p at_ db : written db → written (consume_ticket fault now b t p at_ db).2
| wr_commit fault now clock t k e c db : written db → written (commit_issue fault now clock t k e c db).2.
End written.

(** ** Lemmas on tables *)

Definition keyed `{Countable K} {A} (key : A → K) (t : Table K A) : Prop := map_Forall (λ k row, key (row_data row) = k) t.

Lemma put_keyed `{Postgresql} `{Countable K} {A} (key : A → K) created touched (x : A) t :
  keyed key t → keyed key (put (key x) created touched x t).
Proof. intros Ht. unfold keyed, put. by apply (map_Forall_insert_2 (λ k row, key (row_data row) = k)). Qed.

Lemma elem_of_select `{SliceSort} `{Countable K} {A} (where_ : K → A → bool) less (t : Table K A) x :
  x ∈ select where_ less t ↔ ∃ k row, t !! k = Some row ∧ where_ k (row_data row) = true ∧ x = row_data row.
Proof.
  unfold select. rewrite list_elem_of_fmap. split.
  - intros ([k row] & -> & [Hw Hin]%elem_of_sort_slice%list_elem_of_filter). apply elem_of_map_to_list in Hin. by exists k, row.
  - intros (k & row & Hk & Hw & ->). exists (k, row). split; [done|]. apply elem_of_sort_slice, list_elem_of_filter.
    split; [done|]. by apply elem_of_map_to_list.
Qed.

(** In a table with right keys the filter on the key is one on the record. *)
Lemma elem_of_select_keyed `{SliceSort} `{Countable K} {A} (key : A → K) (where_ : K → A → bool) less (t : Table K A) x :
  keyed key t → x ∈ select where_ less t → where_ (key x) x = true ∧ ∃ row, t !! key x = Some row ∧ x = row_data row.
Proof. intros Ht (k & row & Hk & Hw & ->)%elem_of_select. rewrite (Ht k row Hk). eauto. Qed.

(** Every row is stored under the key of its record, and policies,
    enrollments and commands have the names their upserts ask for. *)
Record well_keyed (db : Database) : Prop := {
  wk_named : map_Forall (λ k _, k.1.2 ≠ "") (db_policies db);
  wk_enrolled : map_Forall (λ k row, k.2 ≠ "" ∧ en_TokenHash (row_data row) ≠ "") (db_enrollments db);
  wk_commanded : map_Forall (λ k _, k.2 ≠ "") (db_commands db);
  wk_agents : keyed agent_row (db_agents db);
  wk_health : keyed health_row (db_health db);
  wk_responses : keyed response_row (db_responses db);
  wk_policies : keyed policy_row (db_policies db);
  wk_assignments : keyed assignment_row (db_assignments db);
  wk_audits : keyed audit_row (db_audits db);
  wk_enrollments : keyed enrollment_row (db_enrollments db);
  wk_artifacts : keyed artifact_row (db_artifacts db);
  wk_channels : keyed channel_row (db_channels db);
  wk_commands : keyed command_row (db_commands db);
  wk_sessions : keyed session_row (db_sessions db)
}.

Lemma project_preserves {A} (P : Database → Prop) (write : A → Database → Database) l db :
  (∀ x db, P db → P (write x db)) → P db → P (project write l db).
Proof. intros Hw. revert db. induction l as [|x l IH]; intros db Hd; [done|]. cbn. by apply IH, Hw. Qed.

(** The latest enrollment that a query finds is one of the rows. *)
Lemma latest_enrollment_row `{Postgresql} `{SliceSort} where_ db x :
  latest_enrollment where_ db = Some x → where_ x = true ∧ ∃ k row, db_enrollments db !! k = Some row ∧ row_data row = x.
Proof.
  unfold latest_enrollment. intros Hx.
  assert (x ∈ select (λ _, where_) (order_by [desc_time row_created]) (db_enrollments db)) as Hin.
  { destruct (select _ _ _); [done|]. injection Hx as ->. left. }
  apply elem_of_select in Hin as (k & row & Hk & Hw & ->). eauto.
Qed.

(** ** What a projection of the state does to one table *)

Section one_table.
Context `{Postgresql} `{RangeOrder} (now : Time).

Lemma project_same {A B} (table : Database → B) (write : A → Database → Database) l db :
  (∀ x db, table (write x db) = table db) → table (project write l db) = table db.
Proof. intros Hw. by apply (project_preserves (λ db', table db' = table db)); [intros x db' <-|]. Qed.

Local Ltac other_table := intros; unfold upsertAgent, upsertHealth, upsertRuleRow, upsertResponseAudit, upsertPolicy, upsertPolicyAssignment,
  upsertPolicyAudit, upsertEnrollment, upsertArtifact, upsertChannel, upsertAgentCertificate, upsertEvidencePullback, upsertCommandRow, upsertSession;
  cbn zeta; try done; by case_match.

Lemma upsertAgentCertificate_enrollments c db : db_enrollments (upsertAgentCertificate now c db) = db_enrollments db.
Proof. other_table. Qed.

(** Of the statements of [saveTables], those for enrollments alone reach their table. *)
Lemma save_enrollments s db : ∃ db0, db_enrollments db0 = db_enrollments db ∧
  db_enrollments (save_rows now s db) = db_enrollments (project (upsertEnrollment now) (st_Enrollments s) db0).
Proof.
  unfold save_rows, projectResponseAudit. eexists. split; [|by rewrite !(project_same db_enrollments) by other_table].
  by rewrite !(project_same db_enrollments) by other_table.
Qed.

Lemma save_commands s db : ∃ db0, db_commands db0 = db_commands db ∧
  db_commands (save_rows now s db) = db_commands (project (upsertCommandRow now) (st_ControlCommands s) db0).
Proof.
  unfold save_rows, projectResponseAudit. eexists. split; [|by rewrite !(project_same db_commands) by other_table].
  by rewrite !(project_same db_commands) by other_table.
Qed.
End one_table.

Section keyed.
Context `{Postgresql} (now : Time).

Local Ltac one_row :=
  let Hd := fresh in let E := fresh in intros Hd; try (case_match eqn:E; [exact Hd|]);
  destruct Hd; split; try done; first
    [ by apply (put_keyed _)
    | rewrite ?orb_false_iff, ?bool_decide_eq_false in E; apply map_Forall_insert_2; [by cbn; intuition|done] ].

Lemma upsertAgent_keyed a db : well_keyed db → well_keyed (upsertAgent now a db).
Proof. unfold upsertAgent. one_row. Qed.
Lemma upsertHealth_keyed h db : well_keyed db → well_keyed (upsertHealth now h db).
Proof. unfold upsertHealth. one_row. Qed.
Lemma upsertRuleRow_keyed r db : well_keyed db → well_keyed (upsertRuleRow now r db).
Proof. unfold upsertRuleRow. one_row. Qed.
Lemma upsertResponseAudit_keyed cmd ack db : well_keyed db → well_keyed (upsertResponseAudit cmd ack db).
Proof. unfold upsertResponseAudit. one_row. Qed.
Lemma upsertPolicy_keyed p db : well_keyed db → well_keyed (upsertPolicy now p db).
Proof. unfold upsertPolicy. one_row. Qed.
Lemma upsertPolicyAssignment_keyed a db : well_keyed db → well_keyed (upsertPolicyAssignment now a db).
Proof. unfold upsertPolicyAssignment. one_row. Qed.
Lemma upsertPolicyAudit_keyed a db : well_keyed db → well_keyed (upsertPolicyAudit now a db).
Proof. unfold upsertPolicyAudit. one_row. Qed.
Lemma upsertEnrollment_keyed e db : well_keyed db → well_keyed (upsertEnrollment now e db).
Proof. unfold upsertEnrollment. one_row. Qed.
Lemma upsertArtifact_keyed a db : well_keyed db → well_keyed (upsertArtifact now a db).
Proof. unfold upsertArtifact. one_row. Qed.
Lemma upsertChannel_keyed c db : well_keyed db → well_keyed (upsertChannel now c db).
Proof. unfold upsertChannel. one_row. Qed.
Lemma upsertAgentCertificate_keyed c db : well_keyed db → well_keyed (upsertAgentCertificate now c db).
Proof. unfold upsertAgentCertificate. one_row. Qed.
Lemma upsertEvidencePullback_keyed r db : well_keyed db → well_keyed (upsertEvidencePullback now r db).
Proof. unfold upsertEvidencePullback. one_row. Qed.
Lemma upsertCommandRow_keyed c db : well_keyed db → well_keyed (upsertCommandRow now c db).
Proof. unfold upsertCommandRow. one_row. Qed.
Lemma upsertSession_keyed x db : well_keyed db → well_keyed (upsertSession now x db).
Proof. unfold upsertSession. one_row. Qed.
End keyed.

Create HintDb keyed.
#[export] Hint Resolve upsertAgent_keyed upsertHealth_keyed upsertRuleRow_keyed upsertResponseAudit_keyed upsertPolicy_keyed : keyed.
#[export] Hint Resolve upsertPolicyAssignment_keyed upsertPolicyAudit_keyed upsertEnrollment_keyed upsertArtifact_keyed : keyed.
#[export] Hint Resolve upsertChannel_keyed upsertAgentCertificate_keyed upsertEvidencePullback_keyed upsertCommandRow_keyed upsertSession_keyed : keyed.

Section written_keyed.
Context `{Postgresql} `{SliceSort} `{RangeOrder}.

Lemma save_rows_keyed now s db : well_keyed db → well_keyed (save_rows now s db).
Proof.
  intros Hd. unfold save_rows, projectResponseAudit.
  repeat (apply project_preserves; [auto with keyed|]). done.
Qed.

Lemma consume_ticket_keyed fault now b t p at_ db : well_keyed db → well_keyed (consume_ticket fault now b t p at_ db).2.
Proof. intros Hd. unfold consume_ticket. repeat case_match; cbn [snd]; auto with keyed. Qed.

Lemma commit_issue_keyed fault now clock t k e c db : well_keyed db → well_keyed (commit_issue fault now clock t k e c db).2.
Proof. intros Hd. unfold commit_issue. repeat case_match; cbn [snd]; auto with keyed. Qed.

Lemma written_keyed db : written db → well_keyed db.
Proof.
  induction 1 as [|now fault s db _ IH| | | | | | | | |m db _ IH| |]; auto using consume_ticket_keyed, commit_issue_keyed with keyed.
  - split; apply map_Forall_empty.
  - unfold saveTables. destruct fault; [done|by apply save_rows_keyed].
  - by destruct IH.
Qed.
End written_keyed.
End Postgres.
