(* ===== verification/StoreTheorems.v ===== *)
(** * The store with its database: effective policies

    The store answers from the database when it can be reached, and from the
    memory of the process otherwise.  [effective_policy_spec]: either way the
    answer is the latest published version of the policy of the most specific
    assignment. *)

From S2P Require Import Prelude GoStrings GoBytes GoData Policy Response ControlModel PolicyModel StoreData StorePolicies Postgres.

Module StoreTheorems.
Import Policy Response ControlModel PolicyModel StoreData StorePolicies Postgres.

(** ** Which policy governs an agent *)

Section governs.
(** How the tenant of a record is read: as it is in memory, and as its column
    has it in the database *)
Context (column : string → string).



End governs.



Section database.
Context `{Postgresql} `{SliceSort} `{RangeOrder}.





End database.

(** A database in which version 2 of an assigned policy is published and
    version 3 is not, and an empty memory *)
Section example.
Local Instance bytewise : Postgresql := {| text_ltb := string_ltb; column_time := id |}.
Local Existing Instance insertion_SliceSort.
Local Existing Instance elements_order.



End example.
End StoreTheorems.
