(* ===== verification/CommandTheorems.v ===== *)
(** * Control commands in memory and in the database

    A process (the manager or the gateway) keeps commands in its memory, saves
    the memory to the database, and reads pending commands, and commands its
    memory lacks, from the database.  [control_commands_refine]: of every
    command, the memory and the database hold what two copies of an abstract
    command hold after the same events.  The events include the saves of the
    other processes, so that the theorem is about each process of a
    deployment; [stale_save_reopens_command] is a finding about two of them. *)

From S2P Require Import Prelude GoStrings GoBytes GoData ControlModel StoreData StoreCommands Postgres.

Module CommandTheorems.
Import ControlModel StoreData StoreCommands Postgres.

Inductive event :=
| Call (reachable : bool) (op : command_op)
| SaveAll (now : Time) (fault : option string)
| RestartProcess
| PeerSaves (now : Time) (cmd : ControlCommand).

(** ** Two copies of one command *)

(** What an operation does to the copy in memory; it starts from the copy in
    the database when there is none in memory and the database is reachable. *)
Definition track_op (id : string) (reachable : bool) (op : command_op) (cur dur : option command_view) : option command_view :=
  match op with
  | OpCreate now cmd =>
    let cmd := NormalizeControlCommand now cmd in if bool_decide (cc_CommandID cmd = id) then Some (view cmd) else cur
  | _ =>
    match cur with
    | Some v => Some (if addressed id op v then advance op v else v)
    | None => if reachable then dur ≫= λ v, if addressed id op v then Some (advance op v) else None else None
    end
  end.

(** The copies in the memory and in the database *)
Definition track (id : string) (m : option command_view * option command_view) (ev : event) : option command_view * option command_view :=
  match ev with
  | Call reachable op => (track_op id reachable op m.1 m.2, m.2)
  | SaveAll now fault => (m.1, match fault, m.1 with None, Some v => Some v | _, _ => m.2 end)
  | RestartProcess => (None, m.2)
  | PeerSaves now cmd => (m.1, if bool_decide (cc_CommandID cmd = id) then Some (view cmd) else m.2)
  end.

Section commands.
Context `{Postgresql} `{SliceSort} `{RangeOrder} (owner : string → string * string).

(** ** The process and its database *)

Definition listing (reachable : bool) (db : Database) (tenantID agentID : string) : option (list ControlCommand) :=
  if reachable then Some (queryControlCommands tenantID agentID "" db) else None.

Definition step (y : Store * Database) (ev : event) : Store * Database :=
  match ev with
  | Call reachable op => (perform (listing reachable y.2) y.1 op, y.2)
  | SaveAll now fault => (y.1, (saveTables now fault y.1 y.2).2)
  | RestartProcess => (Open, y.2)
  | PeerSaves now cmd => (y.1, upsertCommandRow now cmd y.2)
  end.

(** A command is for one tenant and one agent. *)
Definition belongs (cmd : ControlCommand) : Prop :=
  cc_CommandID cmd ≠ "" ∧ cc_TenantID cmd ≠ "" ∧ owner (cc_CommandID cmd) = (cc_TenantID cmd, cc_AgentID cmd).

Definition owned (ev : event) : Prop :=
  match ev with
  | Call _ (OpCreate now cmd) => belongs (NormalizeControlCommand now cmd)
  | PeerSaves _ cmd => belongs cmd
  | _ => True
  end.

Definition durable_of (id : string) (db : Database) : option ControlCommand := row_data <$> db_commands db !! ((owner id).1, id).

Record tidy (y : Store * Database) : Prop := {
  td_distinct : distinct y.1;
  td_memory x : x ∈ st_ControlCommands y.1 → belongs x;
  td_keyed : keyed command_row (db_commands y.2);
  td_rows k row : db_commands y.2 !! k = Some row → belongs (row_data row)
}.

Lemma belongs_row x : belongs x → command_row x = ((owner (cc_CommandID x)).1, cc_CommandID x).
Proof. intros (_ & Ht & Ho). unfold command_row, or_default. rewrite Ho. by rewrite bool_decide_eq_false_2. Qed.

(** ** The listing of the database *)

Lemma durable_row y id x : tidy y → durable_of id y.2 = Some x → cc_CommandID x = id ∧ belongs x.
Proof.
  intros Hy (row & Hrow & ->)%fmap_Some. pose proof (td_keyed _ Hy _ _ Hrow) as Hk. pose proof (td_rows _ Hy _ _ Hrow) as Hb.
  split; [|done]. unfold command_row in Hk. by injection Hk.
Qed.

Lemma elem_of_listing y t a x : tidy y →
  x ∈ queryControlCommands t a "" y.2 ↔ durable_of (cc_CommandID x) y.2 = Some x ∧ command_listed t a x = true.
Proof.
  intros Hy. unfold queryControlCommands, command_listed. rewrite elem_of_select. split.
  - intros (k & row & Hk & Hw & ->). pose proof (td_rows _ Hy _ _ Hk) as Hb. pose proof (td_keyed _ Hy _ _ Hk) as <-.
    rewrite (belongs_row _ Hb) in Hk, Hw. unfold durable_of. rewrite Hk. split; [done|].
    destruct Hb as (_ & _ & Ho). rewrite Ho in Hw. cbn in Hw. by rewrite andb_true_r in Hw.
  - intros [(row & Hk & ->)%fmap_Some Hl]. exists ((owner (cc_CommandID (row_data row))).1, cc_CommandID (row_data row)), row.
    split; [done|]. split; [|done]. destruct (td_rows _ Hy _ _ Hk) as (_ & _ & Ho). rewrite Ho. cbn. by rewrite andb_true_r.
Qed.

Lemma find_listing y c t a : tidy y →
  find_first (is_command c) (queryControlCommands t a "" y.2) =
  durable_of c y.2 ≫= λ x, if command_listed t a x then Some x else None.
Proof.
  intros Hy. destruct (find_first _ _) as [x|] eqn:E.
  - apply find_first_elem in E as [Hx Hc%bool_decide_eq_true]. apply elem_of_listing in Hx as [Hd Hl]; [|done].
    rewrite <- Hc, Hd. cbn. by rewrite Hl.
  - rewrite find_first_none in E. destruct (durable_of c y.2) as [x|] eqn:Hd; [|done]. cbn.
    destruct (command_listed t a x) eqn:Hl; [|done]. destruct (durable_row y c x Hy Hd) as [Hid _].
    specialize (E x). unfold is_command in E. rewrite bool_decide_eq_true_2 in E by done.
    rewrite <- Hid in Hd. by discriminate E; apply elem_of_listing.
Qed.

(** ** Updates *)

Lemma memory_listed y t a x c : tidy y → find_first (is_command c) (st_ControlCommands y.1) = Some x →
  ∀ x', durable_of c y.2 = Some x' → command_listed t a x' = command_listed t a x.
Proof.
  intros Hy Hx x' Hd. apply find_first_elem in Hx as [Hin Hc%bool_decide_eq_true]. destruct (durable_row y c x' Hy Hd) as [Hid (_ & _ & Ho')].
  destruct (td_memory _ Hy x Hin) as (_ & _ & Ho). unfold command_listed. rewrite Hc in Ho. rewrite Hid in Ho'. rewrite Ho in Ho'.
  by injection Ho' as -> ->.
Qed.

(** The command that an update of [c] writes, if it writes one *)
Definition target (reachable : bool) (c t a : string) (y : Store * Database) : option ControlCommand :=
  match find_first (is_command c) (st_ControlCommands y.1) with
  | Some x => if command_listed t a x then Some x else None
  | None => if reachable then durable_of c y.2 ≫= λ x, if command_listed t a x then Some x else None else None
  end.

Lemma find_both c t a s : distinct s →
  find_first (λ cmd, is_command c cmd && command_listed t a cmd) (st_ControlCommands s) =
  command_of c s ≫= λ x, if command_listed t a x then Some x else None.
Proof.
  unfold distinct, command_of. intros Hn. destruct (find_first (is_command c) (st_ControlCommands s)) as [x|] eqn:E; cbn.
  - apply find_first_elem in E as [Hin Hc%bool_decide_eq_true]. destruct (command_listed t a x) eqn:Hl.
    + destruct (find_first (λ cmd, _) (st_ControlCommands s)) as [z|] eqn:Ez.
      * apply find_first_elem in Ez as [Hz [Hcz%bool_decide_eq_true _]%andb_true_iff]. f_equal. eapply NoDup_fmap_unique; [exact Hn|done..|congruence].
      * rewrite find_first_none in Ez. specialize (Ez x Hin). unfold is_command in Ez. by rewrite bool_decide_eq_true_2, Hl in Ez.
    + apply find_first_none. intros z Hz. destruct (is_command c z) eqn:Hcz; [|done]. apply bool_decide_eq_true in Hcz.
      assert (z = x) as -> by (eapply NoDup_fmap_unique; [exact Hn|done..|congruence]). by rewrite Hl.
  - apply find_first_none. intros z Hz. rewrite find_first_none in E. by rewrite (E z Hz).
Qed.

(** An update writes its target, in place or at the end. *)
Lemma update_target reachable c t a f y : tidy y → (∀ x, cc_CommandID (f x) = cc_CommandID x) →
  st_ControlCommands (updateControlCommand (listing reachable y.2 t a) c t a f y.1).2 =
  match target reachable c t a y with
  | None => st_ControlCommands y.1
  | Some x => match command_of c y.1 with
              | Some _ => update_first (λ cmd, is_command c cmd && command_listed t a cmd) f (st_ControlCommands y.1)
              | None => st_ControlCommands y.1 ++ [f x]
              end
  end.
Proof.
  intros Hy Hf. unfold updateControlCommand. rewrite (find_both c t a _ (td_distinct _ Hy)). unfold target, command_of.
  destruct (find_first (is_command c) (st_ControlCommands y.1)) as [x|] eqn:Ex; cbn.
  - destruct (command_listed t a x) eqn:Hl; [done|].
    destruct (find_first (is_command c) (ListControlCommands _ _ _ _ _)) as [z|] eqn:Ez; [|done]. exfalso. unfold ListControlCommands, listing in Ez.
    destruct reachable.
    + rewrite find_listing in Ez by done. destruct (durable_of c y.2) as [x'|] eqn:Hd; [|done]. cbn in Ez.
      rewrite (memory_listed y t a x c Hy Ex x' Hd), Hl in Ez. done.
    + apply find_first_elem in Ez as [Hz Hcz%bool_decide_eq_true]. apply elem_of_sort_slice, list_elem_of_filter in Hz as [[Hlz _]%andb_true_iff Hz].
      apply find_first_elem in Ex as [Hin Hc%bool_decide_eq_true].
      assert (z = x) as -> by (eapply NoDup_fmap_unique; [exact (td_distinct _ Hy)|done..|congruence]). congruence.
  - unfold ListControlCommands, listing. destruct reachable.
    + rewrite find_listing by done. destruct (durable_of c y.2) as [x|] eqn:Hd; [|done]. cbn. destruct (command_listed t a x); [|done].
      destruct (durable_row y c x Hy Hd) as [Hid _]. apply upsert_absent, find_first_none. intros z Hz.
      rewrite Hf, Hid. rewrite find_first_none in Ex. specialize (Ex z Hz). unfold is_command in Ex. by rewrite Ex.
    + destruct (find_first (is_command c) (sort_slice _ _)) as [z|] eqn:Ez; [|done]. exfalso. apply find_first_elem in Ez as [Hz Hcz].
      apply elem_of_sort_slice, list_elem_of_filter in Hz as [_ Hz]. rewrite find_first_none in Ex. by rewrite (Ex z Hz) in Hcz.
Qed.

(** What the update leaves of a command *)
Lemma update_command reachable c t a f id y : tidy y → (∀ x, cc_CommandID (f x) = cc_CommandID x) →
  command_of id (updateControlCommand (listing reachable y.2 t a) c t a f y.1).2 =
  if bool_decide (id = c) then from_option (λ x, Some (f x)) (command_of id y.1) (target reachable c t a y) else command_of id y.1.
Proof.
  intros Hy Hf. unfold command_of at 1. rewrite (update_target reachable c t a f y Hy Hf). unfold target.
  fold (command_of c y.1). destruct (command_of c y.1) as [x|] eqn:Ex.
  - destruct (command_listed t a x) eqn:Hl; [|by case_bool_decide].
    rewrite (find_update_first _ _ c) by (done || exact (td_distinct _ Hy) || (unfold is_command; intros z [?%bool_decide_eq_true _]%andb_true_iff; done)).
    fold (command_of id y.1). case_bool_decide as Hid.
    + subst. rewrite Ex. cbn. apply find_first_elem in Ex as [_ Hc]. by rewrite Hc, Hl.
    + destruct (command_of id y.1) as [z|] eqn:Ez; [|done]. cbn. apply find_first_elem in Ez as [_ Hz%bool_decide_eq_true].
      unfold is_command. by rewrite (bool_decide_eq_false_2 (cc_CommandID z = c)) by congruence.
  - destruct reachable; [|by case_bool_decide]. destruct (durable_of c y.2) as [x|] eqn:Hd; [|by case_bool_decide]. cbn.
    destruct (command_listed t a x); [|by case_bool_decide]. destruct (durable_row y c x Hy Hd) as [Hxc _]. cbn.
    case_bool_decide as Hid.
    + rewrite Hid. unfold command_of in Ex. rewrite find_first_none in Ex. apply find_first_split.
      * by apply list.Forall_forall.
      * unfold is_command. by rewrite bool_decide_eq_true_2 by congruence.
    + unfold command_of. destruct (find_first (is_command id) (st_ControlCommands y.1)) as [z|] eqn:Ez; [by apply find_first_app|].
      apply find_first_none. rewrite find_first_none in Ez. intros z [Hz| ->%list_elem_of_singleton]%elem_of_app; [by apply Ez|].
      unfold is_command. rewrite bool_decide_eq_false_2; [done|]. congruence.
Qed.

Lemma target_belongs reachable c t a y x : tidy y → target reachable c t a y = Some x →
  belongs x ∧ cc_CommandID x = c ∧ command_listed t a x = true.
Proof.
  intros Hy. unfold target. destruct (find_first (is_command c) (st_ControlCommands y.1)) as [z|] eqn:Ez.
  - destruct (command_listed t a z) eqn:Hl; [|done]. intros [= <-]. apply find_first_elem in Ez as [Hz Hc%bool_decide_eq_true].
    split; [by apply (td_memory _ Hy)|done].
  - destruct reachable; [|done]. destruct (durable_of c y.2) as [z|] eqn:Hd; [|done]. cbn.
    destruct (command_listed t a z) eqn:Hl; [|done]. intros [= <-]. by destruct (durable_row y c z Hy Hd).
Qed.

(** An operation that keeps whom a command is for *)
Definition keeps_owner (f : ControlCommand → ControlCommand) : Prop :=
  ∀ x, cc_CommandID (f x) = cc_CommandID x ∧ cc_TenantID (f x) = cc_TenantID x ∧ cc_AgentID (f x) = cc_AgentID x.

Lemma keeps_belongs f x : keeps_owner f → belongs x → belongs (f x).
Proof. intros Hf. destruct (Hf x) as (Hc & Ht & Ha). unfold belongs. by rewrite Hc, Ht, Ha. Qed.

Lemma update_tidy reachable c t a f y : tidy y → keeps_owner f →
  tidy ((updateControlCommand (listing reachable y.2 t a) c t a f y.1).2, y.2).
Proof.
  intros Hy Hf. assert (∀ x, cc_CommandID (f x) = cc_CommandID x) as Hid by (intros x; apply Hf). destruct Hy as [D1 D2 D3 D4].
  pose proof (Build_tidy y D1 D2 D3 D4) as Hy.
  split; [unfold distinct| |done|done]; cbn [fst]; rewrite (update_target reachable c t a f y Hy Hid).
  - destruct (target reachable c t a y) as [x|] eqn:Et; [|done]. destruct (command_of c y.1) as [z|] eqn:Ec; [by rewrite update_first_fmap|].
    destruct (target_belongs _ _ _ _ _ _ Hy Et) as (_ & Hc & _). rewrite fmap_app. apply list.NoDup_app. split; [done|].
    split; [|apply NoDup_singleton]. intros k (z & -> & Hz)%list_elem_of_fmap Hk%list_elem_of_singleton. rewrite Hid, Hc in Hk.
    unfold command_of in Ec. rewrite find_first_none in Ec. specialize (Ec z Hz). unfold is_command in Ec. by rewrite bool_decide_eq_true_2 in Ec.
  - destruct (target reachable c t a y) as [x|] eqn:Et; [|done]. destruct (command_of c y.1) as [z|] eqn:Ec.
    + intros w Hw. revert w Hw. apply (proj1 (list.Forall_forall _ _)), update_first_Forall; [by intros; apply keeps_belongs|]. by apply list.Forall_forall.
    + intros w [Hw| ->%list_elem_of_singleton]%elem_of_app; [by apply D2|]. apply keeps_belongs; [done|]. by eapply target_belongs.
Qed.

(** An update acts on the copies as its operation does. *)
Lemma update_track reachable op c t a f id y :
  tidy y → keeps_owner f → (∀ x, view (f x) = advance op (view x)) → address op = (c, t, a) →
  view <$> command_of id (if bool_decide (c = "") then (None, y.1) else updateControlCommand (listing reachable y.2 t a) c t a f y.1).2 =
  match view <$> command_of id y.1 with
  | Some v => Some (if addressed id op v then advance op v else v)
  | None => if reachable then (view <$> durable_of id y.2) ≫= λ v, if addressed id op v then Some (advance op v) else None else None
  end.
Proof.
  intros Hy Hf Hv Ha. unfold addressed. rewrite Ha. case_bool_decide as Hc; cbn [negb andb snd].
  { destruct (command_of id y.1); [done|]. cbn. destruct reachable; [|done]. by destruct (durable_of id y.2). }
  rewrite update_command by (done || intros x; apply Hf). destruct (decide (id = c)) as [->|Hne].
  - rewrite !(bool_decide_eq_true_2 (c = c)) by done. cbn [andb]. unfold target. fold (command_of c y.1).
    destruct (command_of c y.1) as [x|] eqn:Ex; cbn.
    + unfold command_listed. destruct (matches t (cc_TenantID x) && matches a (cc_AgentID x)); cbn; by rewrite ?Hv.
    + destruct reachable; [|done]. destruct (durable_of c y.2) as [x|]; [|done]. cbn.
      unfold command_listed. destruct (matches t (cc_TenantID x) && matches a (cc_AgentID x)); cbn; by rewrite ?Hv.
  - rewrite !(bool_decide_eq_false_2 (id = c)) by done. cbn [andb]. destruct (command_of id y.1); [done|]. cbn.
    destruct reachable; [|done]. by destruct (durable_of id y.2).
Qed.

Lemma create_track now cmd id s :
  view <$> command_of id (CreateControlCommand now cmd s).2 =
  let cmd := NormalizeControlCommand now cmd in if bool_decide (cc_CommandID cmd = id) then Some (view cmd) else view <$> command_of id s.
Proof.
  unfold command_of, CreateControlCommand. set (c := NormalizeControlCommand now cmd). clearbody c.
  cbn [snd]. unfold assign at 1. cbn [st_ControlCommands]. rewrite find_upsert_command by done. cbn zeta.
  destruct (bool_decide (_ = id)); [|done]. destruct (find_first _ _); done.
Qed.

Lemma create_tidy now cmd y : tidy y → belongs (NormalizeControlCommand now cmd) → tidy ((CreateControlCommand now cmd y.1).2, y.2).
Proof.
  intros [D1 D2 D3 D4] Hb. unfold CreateControlCommand. revert Hb. set (c := NormalizeControlCommand now cmd). clearbody c. intros Hb.
  split; [unfold distinct| |done|done]; cbn [fst snd]; unfold assign at 1; cbn [st_ControlCommands].
  - apply upsert_NoDup; [| |done].
    + intros x _. unfold is_command. rewrite bool_decide_eq_true. intros ->. reflexivity.
    + intros x. unfold is_command. by rewrite bool_decide_eq_false.
  - intros x Hx. apply upsert_elem in Hx as [->|Hx]; [|by apply D2]. by destruct (find_first _ _).
Qed.

(** ** The operations *)

Lemma mark_sent_owner t : keeps_owner (mark_sent t). Proof. by intros x. Qed.
Lemma cancel_owner n a r : keeps_owner (cancel n a r). Proof. intros x. unfold cancel. by case_match. Qed.
Lemma retry_owner n a r : keeps_owner (retry n a r). Proof. intros x. unfold retry. by case_match. Qed.
Lemma expire_owner n r : keeps_owner (expire n r). Proof. intros x. unfold expire. by case_match. Qed.
Lemma applyAck_owner k : keeps_owner (applyControlCommandAck k).
Proof. intros x. unfold applyControlCommandAck. by repeat case_match. Qed.

Lemma guarded_tidy reachable c t a f y : tidy y → keeps_owner f →
  tidy ((if bool_decide (c = "") then (None, y.1) else updateControlCommand (listing reachable y.2 t a) c t a f y.1).2, y.2).
Proof. intros Hy Hf. case_bool_decide; [by destruct y|by apply update_tidy]. Qed.

Lemma perform_tidy reachable op y : tidy y → owned (Call reachable op) → tidy (perform (listing reachable y.2) y.1 op, y.2).
Proof.
  intros Hy Ho. destruct op; unfold perform.
  - by apply create_tidy.
  - apply guarded_tidy; [done|apply mark_sent_owner].
  - apply guarded_tidy; [done|apply cancel_owner].
  - apply guarded_tidy; [done|apply retry_owner].
  - apply guarded_tidy; [done|apply expire_owner].
  - apply guarded_tidy; [done|apply applyAck_owner].
Qed.

Lemma perform_track reachable op y id : tidy y →
  view <$> command_of id (perform (listing reachable y.2) y.1 op) = track_op id reachable op (view <$> command_of id y.1) (view <$> durable_of id y.2).
Proof.
  intros Hy. destruct op as [now cmd|now c t a sentAt|now c t a actor reason|now c t a actor reason|now c t a reason|now ack]; unfold perform, track_op.
  - apply create_track.
  - apply update_track; [done|apply mark_sent_owner|apply sent_view|done].
  - apply update_track; [done|apply cancel_owner|apply cancel_view|done].
  - apply update_track; [done|apply retry_owner|apply retry_view|done].
  - apply update_track; [done|apply expire_owner|apply expire_view|done].
  - apply update_track; [done|apply applyAck_owner|intros x; by apply applyAck_view|done].
Qed.

(** ** Saving *)

Lemma upsertCommandRow_put now x db : belongs x →
  ∃ row, row_data row = x ∧ db_commands (upsertCommandRow now x db) = <[((owner (cc_CommandID x)).1, cc_CommandID x) := row]> (db_commands db).
Proof.
  intros Hb. rewrite <- (belongs_row x Hb). destruct Hb as (Hid & _ & _). unfold upsertCommandRow. rewrite bool_decide_eq_false_2 by done.
  cbn zeta. eexists. split; [|unfold put; reflexivity]. done.
Qed.

Lemma upsertCommandRow_durable now x id db : belongs x →
  durable_of id (upsertCommandRow now x db) = if bool_decide (cc_CommandID x = id) then Some x else durable_of id db.
Proof.
  intros Hb. unfold durable_of. destruct (upsertCommandRow_put now x db Hb) as (row & Hrow & ->). case_bool_decide as Hid.
  - rewrite <- Hid, lookup_insert_eq. cbn. by rewrite Hrow.
  - rewrite lookup_insert_ne; [done|]. intros [= _ Hx]. congruence.
Qed.

Lemma upsertCommandRow_tidy now x s db : belongs x → tidy (s, db) → tidy (s, upsertCommandRow now x db).
Proof.
  intros Hb [D1 D2 D3 D4]. destruct (upsertCommandRow_put now x db Hb) as (row & Hrow & Hput). split; [done|done| |]; cbn [snd]; rewrite Hput.
  - apply (map_Forall_insert_2 (λ k row, command_row (row_data row) = k)); [rewrite Hrow; by apply belongs_row|done].
  - intros k row' [[_ <-]|[_ Hk]]%lookup_insert_Some; [by rewrite Hrow|by eapply D4].
Qed.

(** Of every command of the list, the row is its copy. *)
Lemma project_commands now l s db : tidy (s, db) → NoDup (cc_CommandID <$> l) → (∀ x, x ∈ l → belongs x) →
  let db' := project (upsertCommandRow now) l db in
  tidy (s, db') ∧ ∀ id, durable_of id db' = match find_first (is_command id) l with Some x => Some x | None => durable_of id db end.
Proof.
  cbn zeta. revert db. induction l as [|x l IH]; intros db Hy Hn Hl; [done|].
  rewrite fmap_cons, list.NoDup_cons in Hn. destruct Hn as [Hx Hn]. assert (belongs x) as Hb by (apply Hl; left).
  destruct (IH (upsertCommandRow now x db)) as [Hy' Hd]; [by apply upsertCommandRow_tidy|done|intros z Hz; apply Hl; by right|].
  split; [exact Hy'|]. intros id. change (project _ (x :: l) db) with (project (upsertCommandRow now) l (upsertCommandRow now x db)).
  rewrite Hd, (upsertCommandRow_durable _ _ _ _ Hb). unfold find_first. cbn [List.find]. unfold is_command at 2.
  case_bool_decide as Hid; [|done]. fold (find_first (is_command id) l).
  destruct (find_first (is_command id) l) as [z|] eqn:Ez; [|done]. apply find_first_elem in Ez as [Hz Hzid%bool_decide_eq_true].
  destruct Hx. rewrite Hid, <- Hzid. by apply list_elem_of_fmap_2.
Qed.

Lemma save_track now fault y : tidy y →
  let db' := (saveTables now fault y.1 y.2).2 in
  tidy (y.1, db') ∧ ∀ id, durable_of id db' = match fault, command_of id y.1 with None, Some x => Some x | _, _ => durable_of id y.2 end.
Proof.
  intros Hy. cbn zeta. unfold saveTables. destruct fault; [by destruct y|]. cbn [snd].
  destruct (save_commands now y.1 y.2) as (db0 & Hdb0 & Hsave).
  assert (tidy (y.1, db0)) as Hy0 by (destruct Hy as [D1 D2 D3 D4]; split; [done..|cbn; by rewrite Hdb0|cbn; by rewrite Hdb0]).
  destruct (project_commands now (st_ControlCommands y.1) y.1 db0 Hy0) as [[D1 D2 D3 D4] Hd]; [by destruct Hy|by destruct Hy|].
  split; [split; [done|done|cbn in *; by rewrite Hsave|cbn in *; by rewrite Hsave]|].
  intros id. specialize (Hd id). unfold durable_of in *. rewrite Hsave, Hd, Hdb0. done.
Qed.

(** ** The process runs the machine of every command *)

Lemma step_track y ev id : tidy y → owned ev →
  tidy (step y ev) ∧
  (view <$> command_of id (step y ev).1, view <$> durable_of id (step y ev).2) =
    track id (view <$> command_of id y.1, view <$> durable_of id y.2) ev.
Proof.
  intros Hy Ho. destruct ev as [reachable op|now fault| |now cmd]; cbn [step track fst snd].
  - split; [by apply perform_tidy|]. by rewrite perform_track.
  - destruct (save_track now fault y Hy) as [Hy' Hd]. split; [done|]. rewrite Hd. destruct fault; [done|]. by destruct (command_of id y.1).
  - split; [|done]. destruct Hy as [D1 D2 D3 D4]. split; [constructor|by intros x ?%elem_of_nil|done|done].
  - destruct y as [s db]. split; [by apply upsertCommandRow_tidy|]. cbn [fst snd]. rewrite upsertCommandRow_durable by done.
    by destruct (bool_decide (cc_CommandID cmd = id)).
Qed.

Lemma run_track events y id : tidy y → Forall owned events →
  tidy (foldl step y events) ∧
  (view <$> command_of id (foldl step y events).1, view <$> durable_of id (foldl step y events).2) =
    foldl (track id) (view <$> command_of id y.1, view <$> durable_of id y.2) events.
Proof.
  revert y. induction events as [|ev events IH]; intros y Hy Ho; [done|]. apply Forall_cons_iff in Ho as [Hev Ho].
  destruct (step_track y ev id Hy Hev) as [Hy' Ht]. cbn. rewrite <- Ht. by apply IH.
Qed.

(** A command is for the agent asked about and still to be done. *)
Definition waiting (t a : string) (v : option command_view) : Prop :=
  ∃ v', v = Some v' ∧ matches t (cv_TenantID v') = true ∧ matches a (cv_AgentID v') = true ∧ terminal (cv_Status v') = false.

Lemma pending_from t a (l : list ControlCommand) (copy : string → option ControlCommand) id :
  (∀ x, x ∈ l ↔ copy (cc_CommandID x) = Some x ∧ command_listed t a x = true) → (∀ id x, copy id = Some x → cc_CommandID x = id) →
  id ∈ cc_CommandID <$> filter (λ cmd, ControlCommandTerminalStatus (cc_Status cmd) = false) l ↔ waiting t a (view <$> copy id).
Proof.
  intros Hl Hid. rewrite list_elem_of_fmap. split.
  - intros (x & -> & [Ht [Hc [Hlt Hla]%andb_true_iff]%Hl]%list_elem_of_filter). exists (view x). by rewrite Hc.
  - intros (v & Hv & Ht & Ha & Hterm). destruct (copy id) as [x|] eqn:Hx; [|done]. injection Hv as <-. exists x.
    rewrite (Hid id x Hx). split; [done|]. apply list_elem_of_filter. split; [done|]. apply Hl. rewrite (Hid id x Hx). split; [done|].
    unfold command_listed. cbn in Ht, Ha. by rewrite Ht, Ha.
Qed.

(** C16. Control commands follow their state machine, in a process with a
    database: after any sequence of creations, deliveries, cancellations,
    retries, expirations and acknowledgements, with the database reachable or
    not, saves that succeed or fail, restarts of the process, and saves of
    other processes, the memory and the database each hold of every command
    the status and the number of attempts that an abstract pair of copies of
    that command alone reaches: an operation advances the copy in memory, or
    brings in the copy of the database when memory has none; a save copies
    the memory's to the database, a restart forgets it, another process
    replaces the database's.  The commands pending for an agent are exactly
    those addressed to it whose copy in the database (in memory, when the
    database does not answer) is not in a terminal status.  The hypothesis is
    that every command created or saved by another process has an id and a
    tenant, and that an id is used for one tenant and one agent. *)
Theorem control_commands_refine events :
  Forall owned events →
  let y := foldl step (Open, PostgresSchema) events in
  ∀ id, let m := foldl (track id) (None, None) events in
  view <$> command_of id y.1 = m.1 ∧ view <$> durable_of id y.2 = m.2 ∧
  ∀ t a, (id ∈ cc_CommandID <$> PendingControlCommands (listing true y.2 t a) t a y.1 ↔ waiting t a m.2) ∧
         (id ∈ cc_CommandID <$> PendingControlCommands (listing false y.2 t a) t a y.1 ↔ waiting t a m.1).
Proof.
  intros Ho. cbn zeta. intros id.
  assert (tidy (Open, PostgresSchema)) as Hinit.
  { split; [constructor|by intros x ?%elem_of_nil|apply map_Forall_empty|]. intros k row Hk. cbn in Hk. by rewrite lookup_empty in Hk. }
  destruct (run_track events (Open, PostgresSchema) id Hinit Ho) as [Hy Ht]. set (y := foldl step _ events) in *.
  assert (durable_of id PostgresSchema = None) as Hnone by (unfold durable_of; cbn; by rewrite lookup_empty).
  cbn [fst snd] in Ht. rewrite Hnone in Ht. change (view <$> command_of id Open) with (@None command_view) in Ht. cbn [fmap option_fmap option_map] in Ht.
  rewrite <- Ht. cbn [fst snd].
  split; [done|]. split; [done|]. intros t a. split; unfold PendingControlCommands, listing, ListControlCommands.
  - apply (pending_from t a _ (λ id, durable_of id y.2)); [intros x; by apply elem_of_listing|]. intros id' x Hx. by eapply durable_row.
  - apply (pending_from t a _ (λ id, command_of id y.1)).
    + intros x. rewrite elem_of_sort_slice, list_elem_of_filter. unfold command_of. rewrite andb_true_r. split; [|].
      * intros [Hl Hx]. split; [|done]. by apply find_first_distinct; [apply Hy|].
      * intros [[Hx _]%find_first_elem Hl]. done.
    + intros id' x [_ Hx%bool_decide_eq_true]%find_first_elem. done.
Qed.
End commands.

(** ** Instances *)

Local Existing Instance insertion_SliceSort.
Local Existing Instance elements_order.
Local Instance demo_postgresql : Postgresql := {| text_ltb := string_ltb; column_time := id |}.

Definition demo_owner (id : string) : string * string := ("acme", "agent-1").

Definition demo_command (status : string) (attempts : Z) : ControlCommand :=
  MkControlCommand "cmd-1" "acme" "agent-1" "policy_update" status "p" 1 "" "" "" "" "" "" 1%Z 1%Z 0%Z 0%Z 0%Z 0%Z 0%Z attempts "" "" "" 0 "" "".

(** Created, saved, sent; restarted before the next save, so that the
    acknowledgement finds the command in the database only *)
Definition demo_events : list event :=
  [Call true (OpCreate 10%Z (demo_command "" 0)); SaveAll 11%Z None; Call true (OpSent 12%Z "cmd-1" "acme" "agent-1" 12%Z); RestartProcess;
   Call false (OpCancel 13%Z "cmd-1" "acme" "agent-1" "op" "too late");
   Call true (OpAck 14%Z (MkControlCommandAck "cmd-1" "acme" "agent-1" "accepted" "" "p" 1 "" 14%Z))].

Lemma control_commands_refine_witness :
  foldl (track "cmd-1") (None, None) demo_events =
    (Some (MkCommandView "acme" "agent-1" "applied" 0), Some (MkCommandView "acme" "agent-1" "pending" 0)) ∧
  let y := foldl step (Open, PostgresSchema) demo_events in
  view <$> command_of "cmd-1" y.1 = Some (MkCommandView "acme" "agent-1" "applied" 0) ∧
  "cmd-1" ∈ cc_CommandID <$> PendingControlCommands (listing true y.2 "acme" "agent-1") "acme" "agent-1" y.1.
Proof.
  split; [vm_compute; reflexivity|]. cbn zeta.
  assert (Forall (owned demo_owner) demo_events) as Ho by (repeat constructor; vm_compute; intros [=]).
  destruct (control_commands_refine demo_owner demo_events Ho "cmd-1") as (Hm & _ & Hp).
  split; [exact (eq_trans Hm ltac:(vm_compute; reflexivity))|]. apply (proj1 (Hp "acme" "agent-1")).
  exists (MkCommandView "acme" "agent-1" "pending" 0). repeat split; vm_compute; reflexivity.
Defined.

(** ** Two processes

    [Save] writes the memory's copy of every command, changed or not: the
    manager, which created a command, saves it again (with the agents'
    sessions, say) after the gateway has saved it acknowledged, and the
    command is pending again. *)
Lemma stale_save_reopens_command :
  let created := [Call true (OpCreate 10%Z (demo_command "" 0)); SaveAll 11%Z None; PeerSaves 12%Z (demo_command "applied" 1)] in
  let pending events := let y := foldl step (Open, PostgresSchema) events in
                        cc_CommandID <$> PendingControlCommands (listing true y.2 "acme" "agent-1") "acme" "agent-1" y.1 in
  pending created = [] ∧ pending (created ++ [SaveAll 13%Z None]) = ["cmd-1"].
Proof. split; vm_compute; reflexivity. Qed.
End CommandTheorems.
