(* ===== verification/GoText.v ===== *)
(** * More of Go's text library: fields, lexical paths, quoting

    [strings.Fields], [filepath.Clean] and [filepath.Dir] on a system whose
    separator is a slash, and [strconv.Quote] (the format [%q]).  Which runes
    beyond ASCII are printable is a table of Unicode; it is the parameter of
    the class [Unicode]. *)

From S2P Require Import Prelude GoStrings GoSha.

Open Scope string_scope.
Open Scope list_scope.

(** ** Fields *)

(** The words of a list of runes; [word] is the one being read. *)
Fixpoint fields_go (word : string) (l : list (Z * string)) : list string :=
  match l with
  | [] => if (word =? "")%string then [] else [word]
  | (r, chunk) :: l' =>
    if is_space r then (if (word =? "")%string then [] else [word]) ++ fields_go "" l'
    else fields_go (word +:+ chunk) l'
  end.

(** [strings.Fields] *)
Definition Fields (s : string) : list string := fields_go "" (runes s).

(** [strings.TrimPrefix] *)
Definition TrimPrefix (s p : string) : string :=
  if HasPrefix s p then String.substring (String.length p) (String.length s - String.length p) s else s.

(** [strings.Split] with a one-byte separator *)
Fixpoint split_byte (sep : Ascii.ascii) (s : string) : list string :=
  match s with
  | EmptyString => [""]
  | String c s' =>
    if Ascii.eqb c sep then "" :: split_byte sep s'
    else match split_byte sep s' with w :: ws => String c w :: ws | [] => [String c ""] end
  end.

(** [strings.Index] of a byte *)
Fixpoint index_of_byte (s : string) (c : Ascii.ascii) : option nat :=
  match s with
  | EmptyString => None
  | String c' s' => if Ascii.eqb c' c then Some O else S <$> index_of_byte s' c
  end.

(** ** Paths *)

(** One element of a path: [out] is what has been kept, the latest first. *)
Definition clean_step (rooted : bool) (out : list string) (element : string) : list string :=
  if (element =? "")%string || (element =? ".")%string then out
  else if (element =? "..")%string then
    match out with
    | last :: out' => if (last =? "..")%string then ".." :: out else out'
    | [] => if rooted then [] else [".."]
    end
  else element :: out.

(** [filepath.Clean] *)
Definition Clean (path : string) : string :=
  let rooted := HasPrefix path "/" in
  let body := Join (rev (foldl (clean_step rooted) [] (split_byte "/"%char path))) "/" in
  if rooted then "/" +:+ body else if (body =? "")%string then "." else body.

Example clean_dots : Clean "/usr/./bin/../sbin//sh/" = "/usr/sbin/sh".
Proof. vm_compute. reflexivity. Qed.
Example clean_root : Clean "/../.." = "/".
Proof. vm_compute. reflexivity. Qed.
Example clean_up : Clean "a/../../b" = "../b".
Proof. vm_compute. reflexivity. Qed.

(** [filepath.Dir]: the elements but the last, cleaned *)
Fixpoint drop_name (l : list Ascii.ascii) : list Ascii.ascii :=
  match l with
  | c :: l' => if Ascii.eqb c "/"%char then l else drop_name l'
  | [] => []
  end.

Definition Dir (path : string) : string :=
  Clean (String.string_of_list_ascii (reverse (drop_name (reverse (String.list_ascii_of_string path))))).

Example dir_bin : Dir "/opt/tetragon/bin/tetra" = "/opt/tetragon/bin".
Proof. vm_compute. reflexivity. Qed.
Example dir_name : Dir "policy.yaml" = ".".
Proof. vm_compute. reflexivity. Qed.

(** [filepath.Join]: blank elements are left out *)
Definition JoinPath (elements : list string) : string :=
  match filter (λ e, e ≠ "") elements with
  | [] => ""
  | l => Clean (Join l "/")
  end.

(** ** Quoting *)

Class Unicode := { print_rune : Z → bool }.

(** [n] hexadecimal digits *)
Fixpoint hex_digits (n : nat) (z : Z) : string :=
  match n with
  | O => ""
  | S n' => String (hex_digit ((z / 16 ^ Z.of_nat n') mod 16)%Z) (hex_digits n' z)
  end.

Section quote.
Context `{Unicode}.

(** [strconv.IsPrint] *)
Definition is_print (r : Z) : bool :=
  if (r <? 128)%Z then (32 <=? r)%Z && (r <=? 126)%Z else print_rune r.

Definition backslash : Ascii.ascii := byte_of 92.
Definition double_quote : Ascii.ascii := byte_of 34.

Definition escape_name (r : Z) : option Ascii.ascii :=
  match r with
  | 7 => Some "a" | 8 => Some "b" | 12 => Some "f" | 10 => Some "n" | 13 => Some "r" | 9 => Some "t" | 11 => Some "v"
  | _ => None
  end%Z%char.

Definition quote_rune (rc : Z * string) : string :=
  let '(r, chunk) := rc in
  if (r =? 65533)%Z && (String.length chunk =? 1)%nat then
    match chunk with
    | String c _ => String backslash (String "x"%char (hex_digits 2 (byte_val c)))
    | EmptyString => ""
    end
  else if (r =? 34)%Z || (r =? 92)%Z then String backslash chunk
  else if is_print r then chunk
  else match escape_name r with
  | Some c => String backslash (String c "")
  | None =>
    if (r <? 32)%Z || (r =? 127)%Z then String backslash (String "x"%char (hex_digits 2 r))
    else if (r <? 65536)%Z then String backslash (String "u"%char (hex_digits 4 r))
    else String backslash (String "U"%char (hex_digits 8 r))
  end.

(** [strconv.Quote] *)
Definition Quote (s : string) : string :=
  String double_quote (concat_str (quote_rune <$> runes s) +:+ String double_quote "").
End quote.

Global Arguments Quote : simpl never.
Global Arguments Clean : simpl never.
Global Arguments Fields : simpl never.

(** ** Digests are never empty *)

Lemma sha_rounds_length l h : length h = 8%nat → length (foldl sha_round h l) = 8%nat.
Proof.
  revert h. induction l as [|kw l IH]; intros h Hh; [done|]. cbn. apply IH.
  do 9 (destruct h as [|? h]; [done|]). cbn in Hh. lia.
Qed.

Lemma compress_length h block : length h = 8%nat → length (compress h block) = 8%nat.
Proof. intros Hh. unfold compress. rewrite length_zip_with, sha_rounds_length, Hh by done. done. Qed.

Lemma Sum256_length msg : length (Sum256 msg) = 32%nat.
Proof.
  unfold Sum256. generalize (chunks (length (pad msg)) 64 (pad msg)). intros blocks.
  assert (length (foldl compress initial_hash blocks) = 8%nat) as Hlen.
  { assert (length initial_hash = 8%nat) as Hi by done. revert Hi. generalize initial_hash.
    induction blocks as [|b blocks IH]; intros h Hh; [done|]. cbn. apply IH. by apply compress_length. }
  revert Hlen. generalize (foldl compress initial_hash blocks). intros h Hh.
  do 9 (destruct h as [|? h]; [done|]). cbn in Hh. lia.
Qed.

Lemma digest_nonempty n msg : (0 < n)%nat → EncodeToString (take n (Sum256 msg)) ≠ "".
Proof.
  intros Hn. pose proof (Sum256_length msg) as Hlen. destruct (Sum256 msg) as [|b l]; [done|].
  by destruct n; [lia|].
Qed.

(** ** Trimming twice is trimming once *)

(** Decoding does not look beyond the bytes of the rune, so what follows may
    be cut off. *)
Lemma decode_rune_cut c0 s t u r chunk rest :
  decode_rune c0 (s +:+ t) = (r, chunk, rest) → String c0 s = chunk +:+ u → decode_rune c0 s = (r, chunk, u).
Proof.
  unfold decode_rune. intros Hfull Hs.
  destruct s as [|c1 [|c2 [|c3 s]]]; rewrite ?string_app_nil_l, ?string_app_cons in Hfull; cbn zeta in *;
  repeat match type of Hfull with
  | context [if ?b then _ else _] => destruct b
  | context [match ?x with EmptyString => _ | String _ _ => _ end] => destruct x
  end; injection Hfull as <- <- <-; rewrite ?string_app_cons, ?string_app_nil_l in Hs; try discriminate Hs; by simplify_eq.
Qed.

Lemma runes_concat s : concat_str (runes s).*2 = s.
Proof.
  induction s as [|c0 s1 r chunk rest Hd IH] using runes_ind; [done|].
  rewrite (runes_cons _ _ _ _ _ Hd). apply decode_rune_spec in Hd as [-> _]. cbn. by f_equal.
Qed.

Lemma concat_str_app l1 l2 : concat_str (l1 ++ l2) = concat_str l1 +:+ concat_str l2.
Proof. induction l1 as [|s l1 IH]; [done|]. cbn. fold (concat_str (l1 ++ l2)). by rewrite IH, string_app_assoc. Qed.

Lemma runes_uncons s r chunk l :
  runes s = (r, chunk) :: l → ∃ c0 s1 rest, s = String c0 s1 ∧ decode_rune c0 s1 = (r, chunk, rest) ∧ runes rest = l.
Proof.
  destruct s as [|c0 s1]; [done|]. destruct (decode_rune c0 s1) as [[r' chunk'] rest] eqn:Hd.
  rewrite (runes_cons _ _ _ _ _ Hd). intros [= <- <- <-]. by exists c0, s1, rest.
Qed.

Lemma runes_suffix l1 l2 s : runes s = l1 ++ l2 → runes (concat_str l2.*2) = l2.
Proof.
  revert s. induction l1 as [|[r chunk] l1 IH]; intros s Hs.
  - cbn in Hs. by rewrite <- Hs, runes_concat.
  - change (runes s = (r, chunk) :: (l1 ++ l2)) in Hs. apply runes_uncons in Hs as (c0 & s1 & rest & _ & _ & Hrest). by eapply IH.
Qed.

Lemma runes_prefix l1 l2 s : runes s = l1 ++ l2 → runes (concat_str l1.*2) = l1.
Proof.
  revert s. induction l1 as [|[r chunk] l1 IH]; intros s Hs; [done|].
  change (runes s = (r, chunk) :: (l1 ++ l2)) in Hs. apply runes_uncons in Hs as (c0 & s1 & rest & -> & Hd & Hrest).
  pose proof (decode_rune_spec _ _ _ _ _ Hd) as (Hsplit & Hne & _). specialize (IH rest Hrest).
  assert (concat_str ((r, chunk) :: l1).*2 = chunk +:+ concat_str l1.*2) as -> by done.
  destruct chunk as [|c chunk]; [done|]. rewrite string_app_cons in *. injection Hsplit as -> Hsplit.
  rewrite (runes_cons _ _ r (String c chunk) (concat_str l1.*2)); [by rewrite IH|].
  apply (decode_rune_cut _ (chunk +:+ concat_str l1.*2) (concat_str l2.*2) _ _ _ rest); [|by rewrite string_app_cons].
  rewrite <- string_app_assoc, <- concat_str_app, <- fmap_app, <- Hrest, runes_concat, <- Hsplit. exact Hd.
Qed.

Lemma runes_TrimSpace s : runes (TrimSpace s) = reverse (drop_spaces (reverse (drop_spaces (runes s)))).
Proof.
  unfold TrimSpace. destruct (drop_spaces_suffix (runes s)) as [k Hk]. apply runes_suffix in Hk.
  destruct (drop_spaces_suffix (reverse (drop_spaces (runes s)))) as [k' Hk'].
  apply (f_equal reverse) in Hk'. rewrite reverse_involutive, reverse_app in Hk'. rewrite Hk' in Hk at 2. by eapply runes_prefix.
Qed.

Lemma drop_spaces_id l : (∀ rc l', l = rc :: l' → is_space rc.1 = false) → drop_spaces l = l.
Proof. destruct l as [|[r c] l]; [done|]. intros Hl. cbn. specialize (Hl _ _ eq_refl). cbn in Hl. by rewrite Hl. Qed.

Lemma TrimSpace_idem s : TrimSpace (TrimSpace s) = TrimSpace s.
Proof.
  unfold TrimSpace at 1. rewrite runes_TrimSpace. set (d := drop_spaces (runes s)).
  set (m := drop_spaces (reverse d)). rewrite (drop_spaces_id (reverse m)).
  - rewrite reverse_involutive, (drop_spaces_id m); [done|]. intros rc l' Hm. by eapply drop_spaces_head.
  - intros rc l' Hm. destruct (drop_spaces_suffix (reverse d)) as [k Hk]. fold m in Hk. apply (f_equal reverse) in Hk.
    rewrite reverse_involutive, reverse_app, Hm in Hk. by eapply (drop_spaces_head (runes s)).
Qed.

(** ** Lower-casing twice is lower-casing once *)

Definition upper_runes : list Z := lower_table ≫= λ '(lo, hi, _, _), seqZ lo (hi - lo + 1).

Lemma lower_in_upper t r : lower_in t r = r ∨ r ∈ (t ≫= λ '(lo, hi, _, _), seqZ lo (hi - lo + 1)%Z).
Proof.
  induction t as [|[[[lo hi] stride] delta] t IH]; [by left|]. cbn [lower_in].
  destruct ((lo <=? r)%Z && (r <=? hi)%Z && ((r - lo) mod stride =? 0)%Z) eqn:E.
  - right. cbn. apply elem_of_app. left. apply elem_of_seqZ. lia.
  - destruct IH as [IH|IH]; [by left|]. right. cbn. apply elem_of_app. by right.
Qed.

Lemma lower_table_fixed : forallb (λ r, (lower_rune (lower_rune r) =? lower_rune r)%Z) upper_runes = true.
Proof. vm_compute. reflexivity. Qed.

Lemma lower_rune_idem r : lower_rune (lower_rune r) = lower_rune r.
Proof.
  destruct (Z.ltb_spec r 65) as [Hlt|Hge].
  - assert (lower_rune r = r) as Hr by (unfold lower_rune; by destruct (Z.ltb_spec r 65); [|lia]). by rewrite !Hr.
  - destruct (lower_in_upper lower_table r) as [Hr|Hr].
    + assert (lower_rune r = r) as Hr' by (unfold lower_rune; destruct (Z.ltb_spec r 65); [lia|done]). by rewrite !Hr'.
    + pose proof lower_table_fixed as Hf. rewrite forallb_forall in Hf. apply list_elem_of_In in Hr.
      apply Z.eqb_eq. by apply (Hf r).
Qed.

Lemma runes_lowered s : runes (ToLower s) = (λ r, (r, encode_rune r)) <$> (lower_rune <$> (runes s).*1).
Proof.
  unfold ToLower.
  replace ((λ '(r, _), encode_rune (lower_rune r)) <$> runes s) with (encode_rune <$> (lower_rune <$> (runes s).*1)).
  2: { rewrite <- !list_fmap_compose. apply list_fmap_ext. by intros ? [r c] ?. }
  apply runes_encode_list. rewrite !list.Forall_fmap. pose proof (runes_valid s) as Hv.
  eapply list.Forall_impl; [exact Hv|]. intros [r c] [Hr _]. cbn. by apply lower_rune_ok.
Qed.

Lemma elem_of_trimmed x l : x ∈ reverse (drop_spaces (reverse (drop_spaces l))) → x ∈ l.
Proof.
  intros Hx. destruct (drop_spaces_suffix l) as [k Hk]. destruct (drop_spaces_suffix (reverse (drop_spaces l))) as [k' Hk'].
  rewrite elem_of_reverse in Hx. rewrite Hk. apply elem_of_app. right. apply elem_of_reverse. rewrite Hk'. set_solver.
Qed.

Lemma ToLower_trimmed s : ToLower (TrimSpace (ToLower s)) = TrimSpace (ToLower s).
Proof.
  rewrite <- (runes_concat (TrimSpace (ToLower s))) at 2. unfold ToLower at 1. f_equal. apply list_fmap_ext.
  intros i [r c] Hi%list_elem_of_lookup_2. rewrite runes_TrimSpace in Hi. apply elem_of_trimmed in Hi.
  rewrite runes_lowered in Hi. apply list_elem_of_fmap in Hi as (r' & [= -> ->] & (x & -> & _)%list_elem_of_fmap). cbn.
  by rewrite lower_rune_idem.
Qed.

Lemma trim_lower_idem s : TrimSpace (ToLower (TrimSpace (ToLower s))) = TrimSpace (ToLower s).
Proof. by rewrite ToLower_trimmed, TrimSpace_idem. Qed.
