(* ===== verification/Normalize.v ===== *)
(** * Normalisation of sensor events ([internal/endpoint/normalize], [internal/endpoint/context])

    A sensor reports raw events; the normaliser numbers them, gives every
    process a stable identifier and attaches it to the lineage of its parent,
    which it finds in a table of the processes it has seen.  The theorems
    relate the table to the history of events: a parent is looked up as by
    searching the history backwards, and a lineage is named after the first
    ancestor that had no known parent. *)

From S2P Require Import Prelude GoStrings GoData GoSha GoText EventModel.

Module Normalize.
Import EventModel.

(** ** sensor.proto *)

Record RawProcess := MkRawProcess {
  rp_Pid : Z;
  rp_Ppid : Z;
  rp_Binary : string;
  rp_Argv : list string;
  rp_Uid : Z;
  rp_StartTimeNs : Z;
  rp_Cgroup : string;
  rp_SensorExecId : string;
  rp_SensorParentExecId : string;
  rp_ArgvBoundariesTrusted : bool
}.

Record RawObject := MkRawObject {
  ro_Path : string;
  ro_Dst : string;
  ro_TargetPid : Z
}.

Record SensorEvent := MkSensorEvent {
  se_MonoNs : Z;
  se_Proc : option RawProcess;
  se_Object : option RawObject;
  se_ContainerId : string;
  se_RawRef : string;
  se_Behavior : string
}.

Global Instance SensorEvent_eta : Settable SensorEvent := λ x,
  MkSensorEvent (se_MonoNs x) (se_Proc x) (se_Object x) (se_ContainerId x) (se_RawRef x) (se_Behavior x).

Definition zero_raw_process : RawProcess := MkRawProcess 0 0 "" [] 0 0 "" "" "" false.
Definition GetProc (ev : SensorEvent) : RawProcess := default zero_raw_process (se_Proc ev).
Definition GetRawObject (ev : SensorEvent) : RawObject := default (MkRawObject "" "" 0) (se_Object ev).

(** ** The table of processes *)

Record Process := MkProcess {
  p_StableID : string;
  p_SensorExecID : string;
  p_PID : Z;
  p_PPID : Z;
  p_Binary : string;
  p_LineageID : string
}.

Record Table := MkTable {
  byPID : gmap Z Process;
  byStable : gmap string Process;
  bySensor : gmap string Process
}.

Definition NewTable : Table := MkTable ∅ ∅ ∅.

Definition Upsert (proc : Process) (t : Table) : Table :=
  MkTable (<[p_PID proc := proc]> (byPID t)) (<[p_StableID proc := proc]> (byStable t))
    (if bool_decide (p_SensorExecID proc = "") then bySensor t else <[p_SensorExecID proc := proc]> (bySensor t)).

Definition ByPID (pid : Z) (t : Table) : option Process := byPID t !! pid.
Definition ByStableID (stableID : string) (t : Table) : option Process := byStable t !! stableID.
Definition BySensorExecID (execID : string) (t : Table) : option Process := bySensor t !! execID.

(** ** The normaliser *)

Record Identity := MkIdentity {
  id_AgentID : string;
  id_HostID : string;
  id_TenantID : string
}.

Record Options := MkOptions {
  o_TenantID : string;
  o_ScopeType : string;
  o_ScopeSelector : string;
  o_Labels : gmap string string;
  o_InitialSequence : Z
}.

Record Normalizer := MkNormalizer {
  n_identity : Identity;
  n_scopeType : string;
  n_scopeSelector : string;
  n_labels : gmap string string;
  n_table : Table;
  n_seq : Z
}.

Global Instance Normalizer_eta : Settable Normalizer := λ x,
  MkNormalizer (n_identity x) (n_scopeType x) (n_scopeSelector x) (n_labels x) (n_table x) (n_seq x).

(** Of two keys that differ in surrounding blanks only, the later one wins. *)
Definition cloneLabels `{RangeOrder} (labels : gmap string string) : gmap string string :=
  foldl (λ out key, if bool_decide (TrimSpace key = "") then out
                    else <[TrimSpace key := default "" (labels !! key)]> out) ∅ (range_keys labels).

Definition SetIdentity (agentID hostID tenantID : string) (n : Normalizer) : Normalizer :=
  n <| n_identity := MkIdentity agentID hostID tenantID |>.

Definition NewWithOptions `{RangeOrder} (agentID hostID : string) (table : option Table) (opts : Options) : Normalizer :=
  let scopeType := if bool_decide (o_ScopeType opts = "") then "host" else o_ScopeType opts in
  SetIdentity agentID hostID (o_TenantID opts)
    (MkNormalizer (MkIdentity "" "" "") scopeType (o_ScopeSelector opts) (cloneLabels (o_Labels opts))
       (default NewTable table) (o_InitialSequence opts)).

Definition New `{RangeOrder} (agentID hostID : string) (table : option Table) : Normalizer :=
  NewWithOptions agentID hostID table (MkOptions "" "" "" ∅ 0).

Definition StableID (hostID : string) (pid startNS : Z) : string :=
  EncodeToString (take 12 (Sum256 (string_bytes (hostID +:+ ":" +:+ FormatUint pid +:+ ":" +:+ FormatUint startNS)))).

Definition StableIDFromSensor (hostID execID : string) : string :=
  EncodeToString (take 12 (Sum256 (string_bytes (hostID +:+ ":" +:+ execID)))).

Definition EventID (agentID : string) (seq : Z) : string := agentID +:+ "-" +:+ Sprintf_020d seq.

Definition eventBehavior (ev : SensorEvent) : string :=
  if bool_decide (TrimSpace (se_Behavior ev) = "") then "" else NormalizeBehavior (TrimSpace (se_Behavior ev)).

Definition objectRef (ev : SensorEvent) : ObjectRef :=
  let behavior := eventBehavior ev in
  if bool_decide (behavior = "network.connect") then MkObjectRef "socket" "" (ro_Dst (GetRawObject ev)) ""
  else if bool_decide (behavior ∈ ["file.open"; "file.read"; "file.write"; "file.chmod"])
  then MkObjectRef "file" (ro_Path (GetRawObject ev)) "" ""
  else MkObjectRef "process" "" "" "".

Definition cleanBinary (binary : string) : string :=
  if bool_decide (binary = "") then "" else if Contains binary "/" then Clean binary else binary.

Definition parentProcess (ev : SensorEvent) (t : Table) : option Process :=
  let execID := rp_SensorParentExecId (GetProc ev) in
  match (if bool_decide (execID = "") then None else BySensorExecID execID t) with
  | Some parent => Some parent
  | None => ByPID (rp_Ppid (GetProc ev)) t
  end.

(** The identifier of the process of an event *)
Definition stable_id (hostID : string) (ev : SensorEvent) : string :=
  let proc := GetProc ev in
  if bool_decide (rp_SensorExecId proc = "") then StableID hostID (rp_Pid proc) (rp_StartTimeNs proc)
  else StableIDFromSensor hostID (rp_SensorExecId proc).

Definition NormalizeEvent `{RangeOrder} (ev : SensorEvent) : StateM Normalizer CanonicalEvent := λ n,
  let identity := n_identity n in
  let seq := u64 (n_seq n + 1) in
  let raw := GetProc ev in
  let stableID := stable_id (id_HostID identity) ev in
  let parent := parentProcess ev (n_table n) in
  let parentStableID := from_option p_StableID "" parent in
  let lineageID :=
    match parent with
    | Some p => if bool_decide (p_LineageID p = "") then stableID else p_LineageID p
    | None => stableID
    end in
  let proc := MkProcess stableID (rp_SensorExecId raw) (rp_Pid raw) (rp_Ppid raw) (rp_Binary raw) lineageID in
  ({| ev_Id := EventID (id_AgentID identity) seq;
      ev_Seq := seq;
      ev_AgentId := id_AgentID identity;
      ev_HostId := id_HostID identity;
      ev_MonoNs := se_MonoNs ev;
      ev_SubjectProc := Some (MkProcessRef stableID (rp_Pid raw) (cleanBinary (rp_Binary raw)) (rp_Argv raw) (rp_Uid raw)
                                (rp_StartTimeNs raw) (rp_ArgvBoundariesTrusted raw));
      ev_Object := Some (objectRef ev);
      ev_ParentStableId := parentStableID;
      ev_LineageId := lineageID;
      ev_RawRef := se_RawRef ev;
      ev_TenantId := id_TenantID identity;
      ev_Scope := Some (MkRuntimeScope (n_scopeType n) (n_scopeSelector n));
      ev_ContainerId := se_ContainerId ev;
      ev_Cgroup := rp_Cgroup raw;
      ev_Namespace := "";
      ev_Pod := "";
      ev_OccurredAtNs := se_MonoNs ev;
      ev_Behavior := eventBehavior ev;
      ev_Labels := cloneLabels (n_labels n) |},
   n <| n_seq := seq |> <| n_table ::= Upsert proc |>).

(** ** Runs of the normaliser

    [observed n h]: the normaliser reached [n] and has produced the events of
    [h], the latest first; the identity may change in between, as it does
    after enrollment. *)

Section history.
Context `{RangeOrder}.

Definition entry : Type := SensorEvent * CanonicalEvent.

Inductive observed (first : Z) : Normalizer → list entry → Prop :=
  | started agentID hostID opts :
      o_InitialSequence opts = first → observed first (NewWithOptions agentID hostID None opts) []
  | renamed agentID hostID tenantID n h :
      observed first n h → observed first (SetIdentity agentID hostID tenantID n) h
  | received n h ev ce n' :
      observed first n h → NormalizeEvent ev n = (ce, n') → observed first n' ((ev, ce) :: h).

Definition subject (ce : CanonicalEvent) : string := proc_StableId (GetSubjectProc ce).
Definition has_pid (pid : Z) (e : entry) : bool := bool_decide (rp_Pid (GetProc e.1) = pid).
Definition has_exec (execID : string) (e : entry) : bool := bool_decide (rp_SensorExecId (GetProc e.1) = execID).

(** The parent of an event, by searching the history: the latest event of
    the process with the sensor's identifier of the parent, else the latest
    event of the process with the parent's number. *)
Definition known_parent (h : list entry) (ev : SensorEvent) : option CanonicalEvent :=
  let execID := rp_SensorParentExecId (GetProc ev) in
  snd <$> match (if bool_decide (execID = "") then None else find_first (has_exec execID) h) with
  | Some e => Some e
  | None => find_first (has_pid (rp_Ppid (GetProc ev))) h
  end.

(** The row of the table an event leaves *)
Definition row (e : entry) : Process :=
  MkProcess (subject e.2) (rp_SensorExecId (GetProc e.1)) (rp_Pid (GetProc e.1)) (rp_Ppid (GetProc e.1))
    (rp_Binary (GetProc e.1)) (ev_LineageId e.2).

Definition table_ok (t : Table) (h : list entry) : Prop :=
  (∀ pid, byPID t !! pid = row <$> find_first (has_pid pid) h) ∧
  (∀ execID, execID ≠ "" → bySensor t !! execID = row <$> find_first (has_exec execID) h).

Lemma find_first_cons {A} (p : A → bool) x l : find_first p (x :: l) = if p x then Some x else find_first p l.
Proof. done. Qed.

Lemma processes_ok_upsert t h e : table_ok t h → table_ok (Upsert (row e) t) (e :: h).
Proof.
  intros [Hp Hs]. split.
  - intros pid. rewrite find_first_cons. unfold has_pid at 1. cbn. destruct (decide (rp_Pid (GetProc e.1) = pid)) as [->|Hne].
    + by rewrite bool_decide_eq_true_2, lookup_insert_eq.
    + by rewrite bool_decide_eq_false_2, lookup_insert_ne, Hp.
  - intros execID Hx. rewrite find_first_cons. unfold has_exec at 1. cbn.
    destruct (decide (rp_SensorExecId (GetProc e.1) = execID)) as [->|Hne].
    + by rewrite (bool_decide_eq_true_2 (execID = execID)), bool_decide_eq_false_2, lookup_insert_eq.
    + rewrite (bool_decide_eq_false_2 (_ = execID)) by done. case_bool_decide; [by apply Hs|].
      by rewrite lookup_insert_ne, Hs.
Qed.

Lemma parent_spec t h ev : table_ok t h → from_option p_StableID "" (parentProcess ev t) = from_option subject "" (known_parent h ev) ∧
  p_LineageID <$> parentProcess ev t = ev_LineageId <$> known_parent h ev.
Proof.
  intros [Hp Hs]. unfold parentProcess, known_parent, BySensorExecID, ByPID. rewrite Hp.
  assert ((if bool_decide (rp_SensorParentExecId (GetProc ev) = "") then None else bySensor t !! rp_SensorParentExecId (GetProc ev)) =
    row <$> (if bool_decide (rp_SensorParentExecId (GetProc ev) = "") then None else find_first (has_exec (rp_SensorParentExecId (GetProc ev))) h)) as ->
    by (case_bool_decide; [done|by apply Hs]).
  destruct (if bool_decide _ then None else _) as [e|]; [done|]. by destruct (find_first _ h).
Qed.

Lemma stable_id_nonempty hostID ev : stable_id hostID ev ≠ "".
Proof. unfold stable_id, StableID, StableIDFromSensor. case_bool_decide; apply digest_nonempty; lia. Qed.

Definition rooted (h : list entry) (ce : CanonicalEvent) : Prop :=
  ∃ root, root ∈ h.*2 ∧ ev_ParentStableId root = "" ∧ ev_LineageId ce = subject root.

Definition entry_ok (h : list entry) (e : entry) : Prop :=
  ev_ParentStableId e.2 = from_option subject "" (known_parent h e.1) ∧
  ev_LineageId e.2 = from_option ev_LineageId (subject e.2) (known_parent h e.1) ∧
  subject e.2 ≠ "" ∧ ev_LineageId e.2 ≠ "" ∧ rooted (e :: h) e.2.

Fixpoint history_ok (h : list entry) : Prop :=
  match h with [] => True | e :: h' => entry_ok h' e ∧ history_ok h' end.

Lemma known_parent_in h ev ce : known_parent h ev = Some ce → ∃ s, (s, ce) ∈ h.
Proof.
  unfold known_parent. intros Hk.
  assert (∀ p : entry → bool, snd <$> find_first p h = Some ce → ∃ s, (s, ce) ∈ h) as Hfind.
  { intros p (e & He & ->)%fmap_Some. destruct e as [s c]. exists s. apply list_elem_of_In. by apply List.find_some in He as [? _]. }
  destruct (if bool_decide _ then None else _) as [e|] eqn:Ee; [|by eapply Hfind].
  case_bool_decide; [done|]. eapply Hfind. by rewrite Ee.
Qed.

Lemma rooted_cons e h ce : rooted h ce → rooted (e :: h) ce.
Proof. intros (root & Hin & Hr). exists root. split; [cbn; set_solver|done]. Qed.

Lemma history_ok_elem h s ce : history_ok h → (s, ce) ∈ h → ev_LineageId ce ≠ "" ∧ rooted h ce.
Proof.
  induction h as [|e h IH]; [by intros _ ?%elem_of_nil|].
  intros [(_ & _ & _ & Hl & Hr) Hh] [<-|Hin]%elem_of_cons; [done|].
  destruct (IH Hh Hin). split; [done|by apply rooted_cons].
Qed.

(** What one event does *)
Lemma received_ok n h ev ce n' :
  table_ok (n_table n) h → history_ok h → NormalizeEvent ev n = (ce, n') →
  table_ok (n_table n') ((ev, ce) :: h) ∧ entry_ok h (ev, ce).
Proof.
  intros Ht Hh [= <- <-]. destruct (parent_spec (n_table n) h ev Ht) as [Hstable Hlineage].
  pose proof (stable_id_nonempty (id_HostID (n_identity n)) ev) as Hne. split.
  { match goal with |- table_ok _ (?e :: _) => exact (processes_ok_upsert (n_table n) h e Ht) end. }
  unfold entry_ok. cbn [fst snd ev_ParentStableId ev_LineageId]. rewrite Hstable.
  set (st := stable_id _ ev) in *. unfold subject at 2 3 4. cbn [GetSubjectProc ev_SubjectProc default proc_StableId].
  destruct (known_parent h ev) as [pe|] eqn:Ek; cbn in Hlineage |- *.
  - apply fmap_Some in Hlineage as (p & -> & Hp). destruct (known_parent_in _ _ _ Ek) as [s Hin].
    destruct (history_ok_elem _ _ _ Hh Hin) as [Hl Hr]. rewrite <- Hp, bool_decide_eq_false_2 by done.
    split_and!; [done..|]. destruct Hr as (root & Hroot & Hr). exists root. split; [cbn; set_solver|]. done.
  - destruct (parentProcess ev (n_table n)); [done|]. split_and!; [done..|].
    by eexists; split; [by apply elem_of_cons; left|].
Qed.

Lemma observed_ok first n h : observed first n h → table_ok (n_table n) h ∧ history_ok h.
Proof.
  induction 1 as [agentID hostID opts Hf|agentID hostID tenantID n h _ IH|n h ev ce n' _ [Ht Hh] Hev].
  - split; [|done]. split; [done|done].
  - exact IH.
  - destruct (received_ok _ _ _ _ _ Ht Hh Hev) as [Ht' He]. by split.
Qed.

Lemma observed_seq first n h : observed first n h → (0 ≤ first)%Z → (first + Z.of_nat (length h) < 2 ^ 64)%Z →
  n_seq n = (first + Z.of_nat (length h))%Z.
Proof.
  intros Ho Hfirst. induction Ho as [agentID hostID opts Hf|agentID hostID tenantID n h _ IH|n h ev ce n' _ IH Hev]; intros Hb.
  - cbn. lia.
  - by apply IH.
  - cbn [length] in *. injection Hev as _ <-. unfold assign. cbn [n_seq]. rewrite IH by lia.
    rewrite u64_id; [lia|unfold in_u64; lia].
Qed.

(** The identifier of an event ends in its number. *)
Lemma string_app_same_tail a b x y : String.length x = String.length y → a +:+ x = b +:+ y → x = y.
Proof.
  revert b. induction a as [|c a IH]; intros [|c' b] Hlen Heq; rewrite ?string_app_nil_l, ?string_app_cons in Heq.
  - done.
  - apply (f_equal String.length) in Heq. cbn in Heq. rewrite string_length_app in Heq. lia.
  - apply (f_equal String.length) in Heq. cbn in Heq. rewrite string_length_app in Heq. lia.
  - injection Heq as _ Heq. by apply (IH b).
Qed.

Lemma format_digits_length fuel z acc : (String.length (format_digits fuel z acc) ≤ fuel + String.length acc)%nat.
Proof.
  revert z acc. induction fuel as [|fuel IH]; intros z acc; cbn [format_digits]; [done|].
  destruct (z <? 10)%Z; [cbn; lia|]. etrans; [apply IH|]. cbn. lia.
Qed.

Lemma pad_zeros_length n s : String.length (pad_zeros n s) = (n + String.length s)%nat.
Proof. induction n as [|n IH]; cbn; lia. Qed.

Lemma Sprintf_020d_length z : String.length (Sprintf_020d z) = 20%nat.
Proof.
  unfold Sprintf_020d. rewrite pad_zeros_length. pose proof (format_digits_length 20 z "") as Hl.
  unfold FormatUint. cbn [String.length] in Hl. lia.
Qed.

Lemma EventID_inj a b x y : in_u64 x → in_u64 y → EventID a x = EventID b y → x = y.
Proof.
  intros Hx Hy Heq. unfold EventID in Heq. rewrite !string_app_assoc in Heq.
  apply string_app_same_tail in Heq; [|by rewrite !Sprintf_020d_length]. by apply Sprintf_020d_inj.
Qed.

(** C38. The table of processes is as good as the whole history of events.
    Whatever sensor events have been normalised, the parent that the
    normaliser records for the next one is the process of the latest earlier
    event with the sensor's identifier of the parent, or, when there is none,
    of the latest earlier event with the parent's process number, and it is
    recorded as unknown exactly when there is neither; the lineage of the
    event is that parent's lineage as last seen, and a lineage of its own
    otherwise.  So a lineage always bears the name of a process that was seen
    in it and that had no known parent when it was. *)
Theorem lineage_spec first n h ev ce n' :
  observed first n h → NormalizeEvent ev n = (ce, n') →
  ev_ParentStableId ce = from_option subject "" (known_parent h ev) ∧
  (ev_ParentStableId ce = "" ↔ known_parent h ev = None) ∧
  ev_LineageId ce = from_option ev_LineageId (subject ce) (known_parent h ev) ∧
  ∃ root, root ∈ ce :: h.*2 ∧ ev_ParentStableId root = "" ∧ ev_LineageId ce = subject root.
Proof.
  intros Ho Hev. destruct (observed_ok _ _ _ Ho) as [Ht Hh].
  destruct (received_ok _ _ _ _ _ Ht Hh Hev) as [_ (Hparent & Hlineage & _ & _ & Hroot)]. split_and!; [done| |done|done].
  cbn in Hparent. rewrite Hparent. destruct (known_parent h ev) as [pe|] eqn:Ek; [|done]. split; [|done]. cbn. intros He.
  destruct (known_parent_in _ _ _ Ek) as [s Hin]. exfalso. clear -Hh Hin He.
  induction h as [|e h IH]; [by apply elem_of_nil in Hin|]. destruct Hh as [(_ & _ & Hs & _) Hh].
  apply elem_of_cons in Hin as [<-|Hin]; [done|by apply IH].
Qed.

(** Events are numbered one after the other from the sequence the
    normaliser was started with, and while the 64-bit counter does not wrap
    no two of them have the same identifier, even when the agent is renamed
    in between. *)
Theorem event_ids_unique first n h :
  observed first n h → (0 ≤ first)%Z → (first + Z.of_nat (length h) < 2 ^ 64)%Z →
  reverse (ev_Seq <$> h.*2) = seqZ (first + 1) (Z.of_nat (length h)) ∧ NoDup (ev_Id <$> h.*2).
Proof.
  intros Ho Hfirst.
  enough ((first + Z.of_nat (length h) < 2 ^ 64)%Z → reverse (ev_Seq <$> h.*2) = seqZ (first + 1) (Z.of_nat (length h)) ∧
    NoDup (ev_Id <$> h.*2) ∧ ∀ ce, ce ∈ h.*2 → (first < ev_Seq ce ≤ first + Z.of_nat (length h))%Z ∧ ∃ a, ev_Id ce = EventID a (ev_Seq ce))
    as He by (intros Hb; by destruct (He Hb) as (? & ? & _)).
  induction Ho as [agentID hostID opts Hf|agentID hostID tenantID n h _ IH|n h ev ce n' Ho IH Hev]; intros Hb; [..|].
  - split_and!; [done|constructor|]. by intros ce ?%elem_of_nil.
  - by apply IH.
  - cbn [length] in Hb. destruct IH as (Hseq & Hid & Hall); [lia|]. pose proof (observed_seq _ _ _ Ho Hfirst ltac:(lia)) as Hn.
    assert (ev_Seq ce = first + 1 + Z.of_nat (length h) ∧ ev_Id ce = EventID (id_AgentID (n_identity n)) (ev_Seq ce))%Z as [Hs Hi].
    { injection Hev as <- _. cbn [ev_Seq ev_Id]. rewrite Hn, u64_id; [split; [lia|done]|unfold in_u64; lia]. }
    clear Hev. split_and!.
    + rewrite !fmap_cons, reverse_cons, Hseq. cbn [length snd]. rewrite Hs, Nat2Z.inj_succ, <- Z.add_1_r, seqZ_app by lia. done.
    + rewrite !fmap_cons. apply list.NoDup_cons. split; [|done]. cbn [snd]. intros (ce' & Heq & Hin)%list_elem_of_fmap.
      destruct (Hall _ Hin) as [Hr [a Ha]]. rewrite Ha, Hi in Heq. apply EventID_inj in Heq; unfold in_u64; lia.
    + cbn [length]. intros ce' [->|Hin]%elem_of_cons; [split; [cbn [snd]; lia|cbn [snd]; by eexists]|].
      destruct (Hall _ Hin). split; [lia|done].
Qed.

End history.

(** ** A shell and its child *)

Local Existing Instance elements_order.

Definition demo_raw (pid ppid : Z) (exec parent : string) : SensorEvent :=
  MkSensorEvent 7 (Some (MkRawProcess pid ppid "/bin/sh" ["/bin/sh"] 0 5 "" exec parent true)) None "" "raw" "process.exec".

Definition demo_shell : SensorEvent := demo_raw 10 1 "x10" "".
Definition demo_child : SensorEvent := demo_raw 11 10 "x11" "x10".
Definition demo_start : Normalizer := NewWithOptions "agent" "host" None (MkOptions "tenant" "" "" ∅ 41).
Definition demo_one : CanonicalEvent * Normalizer := NormalizeEvent demo_shell demo_start.
Definition demo_two : CanonicalEvent * Normalizer := NormalizeEvent demo_child demo_one.2.

Lemma demo_observed : observed 41 demo_one.2 [(demo_shell, demo_one.1)].
Proof. eapply received; [apply (started 41 "agent" "host" (MkOptions "tenant" "" "" ∅ 41)); reflexivity|]. apply surjective_pairing. Qed.

Lemma demo_second : NormalizeEvent demo_child demo_one.2 = (demo_two.1, demo_two.2).
Proof. apply surjective_pairing. Qed.

Lemma demo_parent : known_parent [(demo_shell, demo_one.1)] demo_child = Some demo_one.1.
Proof. reflexivity. Qed.

Lemma lineage_spec_witness :
  ev_ParentStableId demo_two.1 = from_option subject "" (Some demo_one.1) ∧
  ev_LineageId demo_two.1 = from_option ev_LineageId (subject demo_two.1) (Some demo_one.1).
Proof.
  rewrite <- demo_parent.
  pose proof (lineage_spec 41 demo_one.2 [(demo_shell, demo_one.1)] demo_child demo_two.1 demo_two.2 demo_observed demo_second) as Hs.
  exact (conj (proj1 Hs) (proj1 (proj2 (proj2 Hs)))).
Defined.

Lemma event_ids_unique_witness :
  reverse (ev_Seq <$> [demo_two.1; demo_one.1]) = [42; 43]%Z ∧ NoDup [ev_Id demo_two.1; ev_Id demo_one.1].
Proof.
  apply (event_ids_unique 41 demo_two.2 [(demo_child, demo_two.1); (demo_shell, demo_one.1)]).
  - eapply received; [exact demo_observed|]. apply surjective_pairing.
  - lia.
  - reflexivity.
Defined.

End Normalize.
