(* ===== verification/TetragonAdapter.v ===== *)
(** * The Tetragon sensor: events ([internal/sensors/linux/tetragon])

    Rows of Tetragon, read as JSON lines ([adapter.go]) or over gRPC
    ([grpc_events.go]), become sensor events.  The decoders of JSON and protobuf and RFC 3339
    times are the parameters of [SensorText]; the messages of Tetragon's
    protocol are records of the fields the code reads. *)

From S2P Require Import Prelude GoStrings GoData GoSha GoText EventModel Policy Normalize.

Module TetragonAdapter.
Import EventModel Policy Normalize.

(** ** Rows *)

Record tetragonProcess := MkTetragonProcess {
  tp_PID : Z;
  tp_UID : Z;
  tp_ExecID : string;
  tp_Binary : string;
  tp_Arguments : string;
  tp_Flags : string;
  tp_StartTime : string;
  tp_ParentExecID : string;
  tp_Docker : string
}.

Record processEvent := MkProcessEvent {
  pe_Process : tetragonProcess;
  pe_Parent : tetragonProcess
}.

Record fileArg := MkFileArg { fa_Path : string; fa_Permission : string }.
Record sockaddrArg := MkSockaddrArg { sa_Addr : string; sa_Port : Z }.

Record kprobeArg := MkKprobeArg {
  ka_File : option fileArg;
  ka_Sockaddr : option sockaddrArg;
  ka_Int : option Z
}.

Record kprobeEvent := MkKprobeEvent {
  kp_Process : tetragonProcess;
  kp_Parent : tetragonProcess;
  kp_Function : string;
  kp_Args : list kprobeArg;
  kp_PolicyName : string;
  kp_ReturnValue : kprobeArg
}.

Record envelope := MkEnvelope {
  env_NodeName : string;
  env_Time : string;
  env_ProcessExec : option processEvent;
  env_ProcessExit : option processEvent;
  env_ProcessKprob : option kprobeEvent
}.

Record healthEnvelope := MkHealthEnvelope {
  he_DroppedEvents : Z;
  he_Health : option Z   (** [health.dropped_events] *)
}.

(** ** The messages of Tetragon's protocol *)

Record pb_Process := MkPbProcess {
  pb_Pid : option Z;
  pb_Uid : option Z;
  pb_ExecId : string;
  pb_Binary : string;
  pb_Arguments : string;
  pb_Flags : string;
  pb_StartTime : option Time;
  pb_ParentExecId : string;
  pb_Docker : string
}.

(** A file or a path, with its permission *)
Record pb_file := MkPbFile { pf_Path : string; pf_Permission : string }.
Record pb_sock := MkPbSock { ps_Daddr : string; ps_Saddr : string; ps_Dport : Z; ps_Sport : Z }.

(** The argument of a probe: one of several *)
Inductive pb_KprobeArgument :=
| FileArg (f : pb_file)
| PathArg (f : pb_file)
| SockaddrArg (addr : string) (port : Z)
| SockArg (s : pb_sock)
| IntArg (value : Z)
| UintArg (value : Z)
| OtherArg.

Record pb_ProcessKprobe := MkPbProcessKprobe {
  pk_Process : option pb_Process;
  pk_Parent : option pb_Process;
  pk_FunctionName : string;
  pk_Args : list (option pb_KprobeArgument);
  pk_PolicyName : string;
  pk_Return : option pb_KprobeArgument
}.

Inductive pb_event :=
| PbExec (process parent : option pb_Process)
| PbExit (process parent : option pb_Process)
| PbKprobe (kp : pb_ProcessKprobe)
| PbOther.

Record GetEventsResponse := MkGetEventsResponse {
  resp_NodeName : string;
  resp_Time : option Time;
  resp_Event : pb_event
}.

Class SensorText := {
  decode_envelope : string → option envelope;
  decode_health : string → option healthEnvelope;
  parse_time : string → option Time;
  format_time : Time → string;
  marshal_response : GetEventsResponse → option string
}.

Section adapter.
Context `{SensorText}.

(** ** Sensor events *)

Definition argv (binary arguments : string) : list string :=
  (if bool_decide (binary = "") then [] else [binary]) ++ Fields arguments.

(** Quotes and backslashes *)
Definition shell_marks : string := String double_quote (String "'"%char (String backslash "")).

Definition argvBoundariesTrusted (arguments : string) : bool :=
  if negb (bool_decide (Join (Fields arguments) " " = arguments)) then false
  else negb (ContainsAny arguments shell_marks).

Definition monotonicishNS (primary fallback : string) : Z :=
  match parse_time primary with
  | Some ts => u64 (UnixNano ts)
  | None => match parse_time fallback with Some ts => u64 (UnixNano ts) | None => 0%Z end
  end.

Fixpoint output_path (fields : list string) : string :=
  match fields with
  | field :: ((next :: _) as fields') => if bool_decide (field = "-o") then next else output_path fields'
  | _ => ""
  end.

Definition inferredWritePath (proc : tetragonProcess) : string := output_path (Fields (tp_Arguments proc)).

Definition inferredChmodPath (proc : tetragonProcess) : string :=
  if negb (HasSuffix (tp_Binary proc) "/chmod") && negb (bool_decide (tp_Binary proc = "chmod")) then ""
  else default "" (list.last (Fields (tp_Arguments proc))).

Definition startsNewPayloadLineage (proc : tetragonProcess) : bool :=
  HasPrefix (tp_Binary proc) "/var/lib/app/plugins/helper".

Definition sensorEvent (env : envelope) (proc parent : tetragonProcess) (behavior : string) (obj : option RawObject) : SensorEvent :=
  let fresh := startsNewPayloadLineage proc in
  {| se_MonoNs := monotonicishNS (env_Time env) (tp_StartTime proc);
     se_Behavior := NormalizeBehavior behavior;
     se_Proc := Some {|
       rp_Pid := tp_PID proc;
       rp_Ppid := if fresh then 0%Z else tp_PID parent;
       rp_Binary := tp_Binary proc;
       rp_Argv := argv (tp_Binary proc) (tp_Arguments proc);
       rp_ArgvBoundariesTrusted := argvBoundariesTrusted (tp_Arguments proc);
       rp_Uid := tp_UID proc;
       rp_StartTimeNs := monotonicishNS (tp_StartTime proc) (env_Time env);
       rp_Cgroup := tp_Docker proc;
       rp_SensorExecId := tp_ExecID proc;
       rp_SensorParentExecId := if fresh then "" else tp_ParentExecID proc |};
     se_Object := Some (default (MkRawObject "" "" 0) obj);
     se_ContainerId := tp_Docker proc;
     se_RawRef := "" |}.

Definition path_object (path : string) : RawObject := MkRawObject path "" 0.

Definition execEvents (env : envelope) (pe : processEvent) : list SensorEvent :=
  let make := sensorEvent env (pe_Process pe) (pe_Parent pe) in
  let written := inferredWritePath (pe_Process pe) in
  let changed := inferredChmodPath (pe_Process pe) in
  [make BehaviorProcessExec None] ++
  (if Contains (tp_Flags (pe_Process pe)) "clone" then [make BehaviorProcessFork None] else []) ++
  (if bool_decide (written = "") then [] else [make BehaviorFileWrite (Some (path_object written))]) ++
  (if bool_decide (changed = "") then [] else [make BehaviorFileChmod (Some (path_object changed))]).

Definition kprobePermission (args : list kprobeArg) : Z := default 0%Z (head (omap ka_Int args)).

(** The first argument that is a file with a path *)
Definition file_path (arg : kprobeArg) : option string :=
  match ka_File arg with Some f => if bool_decide (fa_Path f = "") then None else Some (fa_Path f) | None => None end.
Definition first_path (args : list kprobeArg) : option string := head (omap file_path args).

(** The first argument that is an address with a port *)
Definition socket_address (arg : kprobeArg) : option string :=
  match ka_Sockaddr arg with
  | Some s => if bool_decide (sa_Addr s = "") || (sa_Port s =? 0)%Z then None else Some (sa_Addr s +:+ ":" +:+ FormatUint (sa_Port s))
  | None => None
  end.
Definition first_address (args : list kprobeArg) : option string := head (omap socket_address args).

Definition file_behavior (permission : Z) : string :=
  if (permission =? 2)%Z then BehaviorFileWrite else if (permission =? 4)%Z then BehaviorFileRead else BehaviorFileOpen.

Definition kprobeEventToSensor (env : envelope) (kp : kprobeEvent) : option SensorEvent :=
  let make := sensorEvent env (kp_Process kp) (kp_Parent kp) in
  let function := kp_Function kp in
  if bool_decide (function = "security_bprm_creds_from_file")
  then Some (make BehaviorProcessExec (Some (path_object (default "" (first_path (kp_Args kp))))))
  else if bool_decide (function = "do_exit") then Some (make BehaviorProcessExit None)
  else if bool_decide (function = "security_socket_connect")
  then (λ dst, make BehaviorNetworkConnect (Some (MkRawObject "" dst 0))) <$> first_address (kp_Args kp)
  else if bool_decide (function = "security_file_permission")
  then (λ path, make (file_behavior (kprobePermission (kp_Args kp))) (Some (path_object path))) <$> first_path (kp_Args kp)
  else None.

(** The events of a row, or [None] when it is not one of Tetragon's *)
Definition events_of_row (env : envelope) : option (list SensorEvent) :=
  match env_ProcessExec env with
  | Some pe => Some (execEvents env pe)
  | None =>
    match env_ProcessKprob env with
    | Some kp => Some (option_list (kprobeEventToSensor env kp))
    | None =>
      match env_ProcessExit env with
      | Some pe => Some [sensorEvent env (pe_Process pe) (pe_Parent pe) BehaviorProcessExit None]
      | None => None
      end
    end
  end.

Definition ParseLine (data : string) : option (list SensorEvent) := decode_envelope data ≫= events_of_row.

(** The count of events Tetragon dropped, and whether the row is a report of it *)
Definition ParseDroppedEvents (data : string) : Z * bool :=
  match decode_health data with
  | None => (0%Z, false)
  | Some env =>
    if (0 <? he_DroppedEvents env)%Z then (he_DroppedEvents env, true)
    else match he_Health env with
    | Some dropped => if (0 <? dropped)%Z then (dropped, true) else (0%Z, true)
    | None => (0%Z, false)
    end
  end.

Definition rawRefForLine (line : string) : string := "tetragon:" +:+ EncodeToString (take 8 (Sum256 (string_bytes line))).

(** ** gRPC *)

Definition timestampString (ts : option Time) : string := from_option format_time "" ts.
Definition wrapperUint32 (value : option Z) : Z := default 0%Z value.

Definition zero_process : tetragonProcess := MkTetragonProcess 0 0 "" "" "" "" "" "" "".

Definition tetragonProcessFromProto (proc : option pb_Process) : tetragonProcess :=
  match proc with
  | None => zero_process
  | Some proc =>
    MkTetragonProcess (wrapperUint32 (pb_Pid proc)) (wrapperUint32 (pb_Uid proc)) (pb_ExecId proc) (pb_Binary proc)
      (pb_Arguments proc) (pb_Flags proc) (timestampString (pb_StartTime proc)) (pb_ParentExecId proc) (pb_Docker proc)
  end.

Fixpoint firstNonZero (values : list Z) : Z :=
  match values with [] => 0%Z | v :: values' => if (v =? 0)%Z then firstNonZero values' else v end.

Definition no_arg : kprobeArg := MkKprobeArg None None None.

(** [int32(value)] of a [uint32] *)
Definition i32 (z : Z) : Z := ((z + 2 ^ 31) mod 2 ^ 32 - 2 ^ 31)%Z.

Definition kprobeArgFromProto (arg : option pb_KprobeArgument) : kprobeArg :=
  match arg with
  | Some (FileArg f) | Some (PathArg f) => MkKprobeArg (Some (MkFileArg (pf_Path f) (pf_Permission f))) None None
  | Some (SockaddrArg addr port) => MkKprobeArg None (Some (MkSockaddrArg addr port)) None
  | Some (SockArg s) =>
    MkKprobeArg None (Some (MkSockaddrArg (firstNonEmpty [ps_Daddr s; ps_Saddr s]) (firstNonZero [ps_Dport s; ps_Sport s]))) None
  | Some (IntArg value) => if (value =? 0)%Z then no_arg else MkKprobeArg None None (Some value)
  | Some (UintArg value) => if (value =? 0)%Z then no_arg else MkKprobeArg None None (Some (i32 value))
  | Some OtherArg | None => no_arg
  end.

Definition kprobeArgsFromProto (args : list (option pb_KprobeArgument)) : list kprobeArg := kprobeArgFromProto <$> args.

Definition processKprobeFromProto (kp : pb_ProcessKprobe) : kprobeEvent :=
  MkKprobeEvent (tetragonProcessFromProto (pk_Process kp)) (tetragonProcessFromProto (pk_Parent kp)) (pk_FunctionName kp)
    (kprobeArgsFromProto (pk_Args kp)) (pk_PolicyName kp) (kprobeArgFromProto (pk_Return kp)).

Definition eventsFromGRPCResponse (resp : option GetEventsResponse) : option (list SensorEvent) :=
  match resp with
  | None => None
  | Some resp =>
    let env := MkEnvelope (resp_NodeName resp) (timestampString (resp_Time resp)) None None None in
    match resp_Event resp with
    | PbExec process parent =>
      Some (execEvents env (MkProcessEvent (tetragonProcessFromProto process) (tetragonProcessFromProto parent)))
    | PbExit process parent =>
      Some [sensorEvent env (tetragonProcessFromProto process) (tetragonProcessFromProto parent) "process.exit" None]
    | PbKprobe kp => Some (option_list (kprobeEventToSensor env (processKprobeFromProto kp)))
    | PbOther => None
    end
  end.

Definition rawRefForProto (resp : GetEventsResponse) : string :=
  match marshal_response resp with
  | None => ""
  | Some data => "tetragon-grpc:" +:+ EncodeToString (take 8 (Sum256 (string_bytes data)))
  end.
End adapter.
End TetragonAdapter.
