(* ===== verification/Collection.v ===== *)
(** * Collection policies ([internal/agent/policy], [internal/sensors/contract])

    What an endpoint is asked to collect: the policy document with references
    to content, its normalisation, the expansion of the references within
    budgets, and the intent the sensor gets.  The JSON decoder is the
    parameter of [PolicyText]: it gives the fields of the document, and the
    raw texts that the code decodes in a second step.  The endpoint policy
    that is in force is kept in the local store. *)

From S2P Require Import Prelude GoStrings GoBytes GoData GoSha GoText EventModel Policy Response PolicyModel DataPlane Segment LocalStore.

Module Collection.
Import EventModel Policy Response PolicyModel.

(** ** Scopes *)

Definition NormalizeScope (scopeType scopeSelector : string) : result (string * string) :=
  let scopeType := TrimSpace scopeType in
  let scopeSelector := TrimSpace scopeSelector in
  let scopeType := if bool_decide (scopeType = "") then "host" else scopeType in
  if bool_decide (scopeType = "host") then
    if bool_decide (scopeSelector = "") then Ok (scopeType, scopeSelector)
    else Err "scope selector must be empty when scope type is host"
  else if bool_decide (scopeType ∈ ["container"; "cgroup"; "namespace"; "pod"]) then
    if bool_decide (scopeSelector = "") then Err ("scope selector is required when scope type is " +:+ scopeType)
    else Ok (scopeType, scopeSelector)
  else Err "scope type must be one of host, container, cgroup, namespace, pod".

Definition ValidateScope (scopeType scopeSelector : string) : option string :=
  match NormalizeScope scopeType scopeSelector with Ok _ => None | Err msg => Some msg end.

Global Instance CollectionIntent_eta : Settable CollectionIntent := λ x,
  MkCollectionIntent (ci_Behaviors x) (ci_BinaryPrefixes x) (ci_FilePrefixes x) (ci_SocketFamilies x) (ci_SocketAddrs x)
    (ci_SocketPorts x) (ci_BehaviorFilters x) (ci_NamespaceSelectors x) (ci_ScopeType x) (ci_ScopeSelector x)
    (ci_ObserveOnly x) (ci_Capabilities x).

Definition normalize_intent_scope (i : CollectionIntent) : result CollectionIntent :=
  scope ← NormalizeScope (ci_ScopeType i) (ci_ScopeSelector i);
  mret (i <| ci_ScopeType := scope.1 |> <| ci_ScopeSelector := scope.2 |>).

(** ** Lists of names *)

(** The loop of the normalisers: [clean] each value, drop the empty ones and
    those seen before. *)
Fixpoint distinct_values (clean : string → string) (seen : gset string) (values : list string) : list string :=
  match values with
  | [] => []
  | value :: values' =>
    let value := clean value in
    if bool_decide (value = "") || bool_decide (value ∈ seen) then distinct_values clean seen values'
    else value :: distinct_values clean ({[value]} ∪ seen) values'
  end.

Definition normalizeStringList (values : list string) : list string := distinct_values TrimSpace ∅ values.
Definition normalizeBehaviorList (values : list string) : list string := distinct_values NormalizeBehavior ∅ values.

Definition normalize_selectors (s : CollectionBehaviorSelectors) : CollectionBehaviorSelectors :=
  MkCollectionBehaviorSelectors
    (MkBinarySelector (normalizeStringList (bs_Prefixes (cbs_Binary s))))
    (MkProcessSelector (normalizeStringList (ps_BinaryPrefixes (cbs_Process s))))
    (MkFileSelector (normalizeStringList (fs_Prefixes (cbs_File s))) (normalizeStringList (fs_PrefixRefs (cbs_File s))))
    (MkSocketSelector (normalizeStringList (ss_Families (cbs_Socket s))) (normalizeStringList (ss_Addrs (cbs_Socket s)))
       (normalizeStringList (ss_AddrRefs (cbs_Socket s))) (normalizeStringList (ss_Ports (cbs_Socket s)))
       (normalizeStringList (ss_PortRefs (cbs_Socket s)))).

Definition normalizeBehaviorSpecs (values : list CollectionBehaviorPolicy) : list CollectionBehaviorPolicy :=
  omap (λ value,
    let id := NormalizeBehavior (cbp_ID value) in
    if bool_decide (id = "") then None
    else Some (MkCollectionBehaviorPolicy id (cbp_Enabled value) (normalize_selectors (cbp_Selectors value)))) values.

Definition NormalizeCollectionPolicy (policy : CollectionPolicy) : CollectionPolicy :=
  let id := TrimSpace (col_PolicyID policy) in
  MkCollectionPolicy
    (if bool_decide (id = "") then "local-collection-policy" else id)
    (if (col_Version policy =? 0)%Z then 1%Z else col_Version policy)
    (normalizeBehaviorList (col_Behaviors policy))
    (normalizeBehaviorSpecs (col_BehaviorSpecs policy))
    (normalizeStringList (col_BinaryPrefixes policy))
    (normalizeStringList (col_FilePrefixes policy))
    (normalizeStringList (col_SocketFamilies policy))
    (normalizeStringList (col_SocketAddrs policy))
    (normalizeStringList (col_SocketPorts policy))
    (TrimSpace (col_ScopeType policy))
    (TrimSpace (col_ScopeSelector policy))
    (col_ObserveOnly policy).

(** ** References to content *)

Record CollectionValueSet := MkCollectionValueSet {
  cvs_Ref : string;
  cvs_Version : string;
  cvs_Digest : string;
  cvs_ValueType : string;
  cvs_Values : list string
}.

Record CollectionContentSnapshot := MkCollectionContentSnapshot {
  ccs_ContextSets : gmap string CollectionValueSet;
  ccs_IOCPacks : gmap string CollectionValueSet
}.

Record CollectionResolvedRef := MkCollectionResolvedRef {
  crr_Behavior : string;
  crr_Selector : string;
  crr_Ref : string;
  crr_Version : string;
  crr_Digest : string;
  crr_ValueType : string;
  crr_Count : Z;
  crr_Values : list string
}.

(** [CollectionExpansionReport] *)
Definition CollectionExpansionReport : Type := list CollectionResolvedRef.

Definition collectionMaxFilePrefixes : Z := 128.
Definition collectionMaxSocketAddrs : Z := 512.
Definition collectionMaxSocketPorts : Z := 128.

Definition lookupCollectionValueSet (snapshot : CollectionContentSnapshot) (ref : string) : option CollectionValueSet :=
  let ref := TrimSpace ref in
  if HasPrefix ref "ctx:" then ccs_ContextSets snapshot !! ref
  else if HasPrefix ref "ioc:" then ccs_IOCPacks snapshot !! ref
  else match ccs_ContextSets snapshot !! ref with
  | Some set => Some set
  | None => ccs_IOCPacks snapshot !! ref
  end.

Definition valueTypeAllowed (valueType : string) (allowed : list string) : bool := bool_decide (TrimSpace valueType ∈ allowed).

Section texts.
Context `{Unicode}.

Definition resolved_ref (behavior selector : string) (set : CollectionValueSet) : CollectionResolvedRef :=
  MkCollectionResolvedRef behavior selector (cvs_Ref set) (cvs_Version set) (cvs_Digest set) (cvs_ValueType set)
    (Z.of_nat (length (cvs_Values set))) (cvs_Values set).

Definition over_budget (prefix : string) (n budget : Z) : string :=
  prefix +:+ ": " +:+ FormatInt n +:+ " > " +:+ FormatInt budget.

(** The loop of [expandSelectorRefs] over references that are normalised *)
Fixpoint expand_refs (snapshot : CollectionContentSnapshot) (behavior selector : string) (valueTypes : list string) (budget : Z)
    (values : list string) (resolved : list CollectionResolvedRef) (refs : list string)
    : result (list string * list CollectionResolvedRef) :=
  match refs with
  | [] => Ok (values, resolved)
  | ref :: refs' =>
    let where_ := "collection selector " +:+ selector +:+ " for " +:+ behavior in
    match lookupCollectionValueSet snapshot ref with
    | None => Err (where_ +:+ " references missing content " +:+ Quote ref)
    | Some set =>
      if negb (valueTypeAllowed (cvs_ValueType set) valueTypes)
      then Err (where_ +:+ " references " +:+ ref +:+ " with value_type " +:+ Quote (cvs_ValueType set) +:+ ", want one of " +:+ Join valueTypes ",")
      else
        let next := normalizeStringList (values ++ cvs_Values set) in
        if (budget <? Z.of_nat (length next))%Z
        then Err (over_budget (where_ +:+ " exceeds budget after " +:+ ref) (Z.of_nat (length next)) budget)
        else expand_refs snapshot behavior selector valueTypes budget next (resolved ++ [resolved_ref behavior selector set]) refs'
    end
  end.

Definition expandSelectorRefs (snapshot : CollectionContentSnapshot) (behavior selector : string) (refs valueTypes : list string)
    (budget : Z) : result (list string * list CollectionResolvedRef) :=
  expand_refs snapshot behavior selector valueTypes budget [] [] (normalizeStringList refs).

Definition check_budget (behavior selector : string) (values : list string) (budget : Z) : result unit :=
  if (budget <? Z.of_nat (length values))%Z
  then Err (over_budget ("collection selector " +:+ selector +:+ " for " +:+ behavior +:+ " exceeds budget")
              (Z.of_nat (length values)) budget)
  else Ok tt.

(** One pass of the loop of [ExpandCollectionPolicyRefs]: the specification
    with its values, and what was resolved *)
Definition expand_spec (snapshot : CollectionContentSnapshot) (spec : CollectionBehaviorPolicy)
    : result (CollectionBehaviorPolicy * list CollectionResolvedRef) :=
  let behavior := NormalizeBehavior (cbp_ID spec) in
  let sel := cbp_Selectors spec in
  files ← expandSelectorRefs snapshot behavior "file.path.prefix" (fs_PrefixRefs (cbs_File sel)) ["path_prefix"] collectionMaxFilePrefixes;
  let prefixes := normalizeStringList (fs_Prefixes (cbs_File sel) ++ files.1) in
  sockets ← expandSelectorRefs snapshot behavior "socket.addr" (ss_AddrRefs (cbs_Socket sel)) ["ip"; "addr"; "ip_addr"] collectionMaxSocketAddrs;
  let addrs := normalizeStringList (ss_Addrs (cbs_Socket sel) ++ sockets.1) in
  portals ← expandSelectorRefs snapshot behavior "socket.port" (ss_PortRefs (cbs_Socket sel)) ["port"] collectionMaxSocketPorts;
  let ports := normalizeStringList (ss_Ports (cbs_Socket sel) ++ portals.1) in
  _ ← check_budget behavior "file.path.prefix" prefixes collectionMaxFilePrefixes;
  _ ← check_budget behavior "socket.addr" addrs collectionMaxSocketAddrs;
  _ ← check_budget behavior "socket.port" ports collectionMaxSocketPorts;
  mret (MkCollectionBehaviorPolicy (cbp_ID spec) (cbp_Enabled spec)
          (MkCollectionBehaviorSelectors (cbs_Binary sel) (cbs_Process sel)
             (MkFileSelector prefixes (fs_PrefixRefs (cbs_File sel)))
             (MkSocketSelector (ss_Families (cbs_Socket sel)) addrs (ss_AddrRefs (cbs_Socket sel)) ports (ss_PortRefs (cbs_Socket sel)))),
        files.2 ++ sockets.2 ++ portals.2).

Fixpoint expand_specs (snapshot : CollectionContentSnapshot) (specs : list CollectionBehaviorPolicy)
    : result (list CollectionBehaviorPolicy * list CollectionResolvedRef) :=
  match specs with
  | [] => mret ([], [])
  | spec :: specs' =>
    one ← expand_spec snapshot spec;
    rest ← expand_specs snapshot specs';
    mret (one.1 :: rest.1, one.2 ++ rest.2)
  end.

Definition ExpandCollectionPolicyRefs (policy : CollectionPolicy) (snapshot : CollectionContentSnapshot)
    : result (CollectionPolicy * CollectionExpansionReport) :=
  let policy := NormalizeCollectionPolicy policy in
  expanded ← expand_specs snapshot (col_BehaviorSpecs policy);
  mret (NormalizeCollectionPolicy (policy <| col_BehaviorSpecs := expanded.1 |>), expanded.2).

(** ** Intents *)

Definition behaviorFilter (spec : CollectionBehaviorPolicy) : CollectionBehaviorFilter :=
  let selectors := cbp_Selectors spec in
  MkCollectionBehaviorFilter (NormalizeBehavior (cbp_ID spec))
    (normalizeStringList (bs_Prefixes (cbs_Binary selectors) ++ ps_BinaryPrefixes (cbs_Process selectors)))
    (normalizeStringList (fs_Prefixes (cbs_File selectors)))
    (normalizeStringList (ss_Families (cbs_Socket selectors)))
    (normalizeStringList (ss_Addrs (cbs_Socket selectors)))
    (normalizeStringList (ss_Ports (cbs_Socket selectors))).

Definition flat_filter (policy : CollectionPolicy) (behavior : string) : CollectionBehaviorFilter :=
  if bool_decide (behavior ∈ [BehaviorProcessExec; BehaviorProcessFork])
  then MkCollectionBehaviorFilter behavior (col_BinaryPrefixes policy) [] [] [] []
  else if bool_decide (behavior = BehaviorNetworkConnect)
  then MkCollectionBehaviorFilter behavior (col_BinaryPrefixes policy) [] (col_SocketFamilies policy) (col_SocketAddrs policy) (col_SocketPorts policy)
  else if bool_decide (behavior ∈ [BehaviorFileOpen; BehaviorFileRead; BehaviorFileWrite; BehaviorFileChmod])
  then MkCollectionBehaviorFilter behavior (col_BinaryPrefixes policy) (col_FilePrefixes policy) [] [] []
  else MkCollectionBehaviorFilter behavior [] [] [] [] [].

Definition behaviorFiltersFromFlatFields (behaviors : list string) (policy : CollectionPolicy) : list CollectionBehaviorFilter :=
  flat_filter policy <$> behaviors.

(** [addBehavior]: the behaviours so far, in the order in which they came *)
Definition addBehavior (behaviors : list string) (behavior : string) : result (list string) :=
  let normalized := NormalizeBehavior behavior in
  if bool_decide (normalized = "") then Ok behaviors
  else if negb (KnownBehavior normalized) then Err ("unsupported collection behavior " +:+ Quote behavior)
  else if bool_decide (normalized ∈ behaviors) then Ok behaviors
  else Ok (behaviors ++ [normalized]).

Fixpoint add_behaviors (behaviors : list string) (l : list string) : result (list string) :=
  match l with
  | [] => Ok behaviors
  | b :: l' => behaviors ← addBehavior behaviors b; add_behaviors behaviors l'
  end.

Definition spec_enabled (spec : CollectionBehaviorPolicy) : bool := default true (cbp_Enabled spec).

Definition CollectionPolicyIntent (policy : CollectionPolicy) : result CollectionIntent :=
  let policy := NormalizeCollectionPolicy policy in
  let specs := filter (λ spec, spec_enabled spec = true) (col_BehaviorSpecs policy) in
  behaviors ← add_behaviors [] (col_Behaviors policy ++ (cbp_ID <$> specs));
  if bool_decide (behaviors = []) then Err "collection policy has no supported behaviors"
  else
    let filters := if bool_decide (specs = []) then behaviorFiltersFromFlatFields behaviors policy else behaviorFilter <$> specs in
    normalize_intent_scope
      {| ci_Behaviors := behaviors;
         ci_BinaryPrefixes := col_BinaryPrefixes policy;
         ci_FilePrefixes := col_FilePrefixes policy;
         ci_SocketFamilies := col_SocketFamilies policy;
         ci_SocketAddrs := col_SocketAddrs policy;
         ci_SocketPorts := col_SocketPorts policy;
         ci_BehaviorFilters := filters;
         ci_NamespaceSelectors := [];
         ci_ScopeType := col_ScopeType policy;
         ci_ScopeSelector := col_ScopeSelector policy;
         ci_ObserveOnly := col_ObserveOnly policy;
         ci_Capabilities := [] |}.

Definition WithScope (intent : CollectionIntent) (scopeType scopeSelector : string) : CollectionIntent :=
  intent <| ci_ScopeType := TrimSpace scopeType |> <| ci_ScopeSelector := TrimSpace scopeSelector |>.
End texts.

(** ** Documents *)

(** The fields of a collection policy, with the raw text of [behaviors] *)
Record collection_wire := MkCollectionWire {
  cw_PolicyID : string;
  cw_Version : Z;
  cw_Behaviors : string;
  cw_BinaryPrefixes : list string;
  cw_FilePrefixes : list string;
  cw_SocketFamilies : list string;
  cw_SocketAddrs : list string;
  cw_SocketPorts : list string;
  cw_ScopeType : string;
  cw_ScopeSelector : string;
  cw_ObserveOnly : bool
}.

(** The fields of an endpoint policy, with the raw text of [collection] *)
Record endpoint_envelope := MkEndpointEnvelope {
  ee_PolicyID : string;
  ee_Version : Z;
  ee_Collection : string;
  ee_Detection : option DetectionPolicy;
  ee_Telemetry : option TelemetryPolicy;
  ee_Response : option ResponsePolicy
}.

(** [decode_field]: the raw text of the member [collection], if any *)
Class PolicyText := {
  decode_field : string → result string;
  decode_wire : string → result collection_wire;
  decode_strings : string → option (list string);
  decode_specs : string → result (list CollectionBehaviorPolicy);
  decode_endpoint : string → result endpoint_envelope;
  encode_endpoint : EndpointPolicy → result string;
  policy_unicode :: Unicode
}.

Definition with_context {A} (context : string) (r : result A) : result A :=
  match r with Ok x => Ok x | Err msg => Err (context +:+ msg) end.

Section documents.
Context `{PolicyText}.

Definition decodeCollectionPolicy (data : string) : result CollectionPolicy :=
  wire ← with_context "decode collection policy: " (decode_wire data);
  let policy behaviors specs :=
    MkCollectionPolicy (cw_PolicyID wire) (cw_Version wire) behaviors specs (cw_BinaryPrefixes wire) (cw_FilePrefixes wire)
      (cw_SocketFamilies wire) (cw_SocketAddrs wire) (cw_SocketPorts wire) (cw_ScopeType wire) (cw_ScopeSelector wire)
      (cw_ObserveOnly wire) in
  if bool_decide (cw_Behaviors wire = "") then mret (policy [] [])
  else match decode_strings (cw_Behaviors wire) with
  | Some behaviorIDs => mret (policy behaviorIDs [])
  | None =>
    specs ← with_context "decode collection behaviors: " (decode_specs (cw_Behaviors wire));
    mret (policy [] specs)
  end.

Definition ParseCollectionPolicyJSON (data : string) (defaultObserveOnly : bool) : result CollectionPolicy :=
  inner ← with_context "decode collection policy: " (decode_field data);
  policy ← decodeCollectionPolicy (if bool_decide (inner = "") then data else inner);
  mret (NormalizeCollectionPolicy (policy <| col_ObserveOnly := defaultObserveOnly when negb (col_ObserveOnly policy) |>)).

Definition ParseCollectionIntent (data : string) (observeOnly : bool) : result CollectionIntent :=
  if HasPrefix (TrimSpace data) "{" then
    policy ← ParseCollectionPolicyJSON data observeOnly;
    CollectionPolicyIntent policy
  else Err "collection policy must be json with behaviors".

(** [read]: the text of the file or the error of reading it *)
Definition LoadCollectionIntent (read : string → result string) (path : string) (observeOnly : bool) : result CollectionIntent :=
  data ← read path;
  with_context (path +:+ ": ") (ParseCollectionIntent data observeOnly).

Definition ParseEndpointPolicy (document : string) : result EndpointPolicy :=
  envelope ← with_context "decode endpoint policy: " (decode_endpoint document);
  if bool_decide (TrimSpace (ee_PolicyID envelope) = "") || (ee_Version envelope =? 0)%Z
  then Err "endpoint policy id and positive version are required"
  else
    match ee_Detection envelope, ee_Telemetry envelope, ee_Response envelope with
    | Some detection, Some telemetry, Some response =>
      if bool_decide (ee_Collection envelope = "")
      then Err "endpoint policy requires collection, detection, telemetry, and response sections"
      else
        collection ← ParseCollectionPolicyJSON (ee_Collection envelope) true;
        let response :=
          if bool_decide (rp_AllowedActions response = []) && bool_decide (rp_AllowedModes response = [])
          then Response.DefaultPolicy else response in
        mret (MkEndpointPolicy (ee_PolicyID envelope) (ee_Version envelope) collection (NormalizeDetectionPolicy detection)
                telemetry response)
    | _, _, _ => Err "endpoint policy requires collection, detection, telemetry, and response sections"
    end.

(** ** The policy in force, in the local store *)

Definition endpointPolicyKind : string := "endpoint".

Definition SaveEffectiveEndpointPolicy (now : Z) (policy : EndpointPolicy) (s : LocalStore.Store) : result unit * LocalStore.Store :=
  match encode_endpoint policy with
  | Err msg => (Err msg, s)
  | Ok canonical =>
    match ParseEndpointPolicy canonical with
    | Err msg => (Err msg, s)
    | Ok _ =>
      LocalStore.PutPolicy now
        (LocalStore.MkPolicyRecord endpointPolicyKind (epol_Version policy) (bytes_of canonical)
           (EncodeToString (Sum256 (string_bytes canonical))) 0) s
    end
  end.

Definition LoadEffectiveEndpointPolicy (read : string → result string) (now : Z) (path : string) (s : LocalStore.Store)
    : result EndpointPolicy * LocalStore.Store :=
  match LocalStore.GetPolicy endpointPolicyKind s with
  | Some record => (ParseEndpointPolicy (String.string_of_list_ascii (LocalStore.pr_Document record)), s)
  | None =>
    match with_context "read bootstrap policy: " (read path) with
    | Err msg => (Err msg, s)
    | Ok document =>
      match ParseEndpointPolicy document with
      | Err msg => (Err msg, s)
      | Ok policy =>
        let '(saved, s') := SaveEffectiveEndpointPolicy now policy s in
        match saved with
        | Err msg => (Err ("persist bootstrap policy: " +:+ msg), s')
        | Ok _ => (Ok policy, s')
        end
      end
    end
  end.
End documents.

End Collection.
