(* ===== verification/CollectionTheorems.v ===== *)
(** * Collection policies: what is accepted and what it becomes

    The normalisers keep each value once and in order, and leave a normal
    list as it is; an expansion succeeds exactly when every reference can be
    resolved and the results fit; an intent is well formed; a policy that has
    been saved is the one that is loaded. *)

From S2P Require Import Prelude GoStrings GoBytes GoData GoSha GoText EventModel Policy Response PolicyModel DataPlane Segment LocalStore Collection.

Module CollectionTheorems.
Import EventModel Policy Response PolicyModel Collection.

(** ** Lists of names *)

Section distinct.
Context (clean : string → string).

Lemma elem_of_distinct seen l v :
  v ∈ distinct_values clean seen l ↔ v ≠ "" ∧ v ∉ seen ∧ ∃ x, x ∈ l ∧ clean x = v.
Proof.
  revert seen. induction l as [|x l IH]; intros seen; cbn.
  { split; [by intros ?%elem_of_nil|]. by intros (_ & _ & x & ?%elem_of_nil & _). }
  destruct (decide (clean x = "")) as [He|He]; [|destruct (decide (clean x ∈ seen)) as [Hs|Hs]].
  - rewrite bool_decide_eq_true_2 by done. cbn. rewrite IH. set_solver.
  - rewrite bool_decide_eq_false_2, bool_decide_eq_true_2 by done. cbn. rewrite IH. set_solver.
  - rewrite !bool_decide_eq_false_2 by done. cbn. rewrite elem_of_cons, IH. split.
    + intros [->|(Hv & Hn & y & Hy & <-)]; [split_and!; [done|done|exists x; set_solver]|]. set_solver.
    + intros (Hv & Hn & y & [->|Hy]%elem_of_cons & <-); [by left|].
      destruct (decide (clean y = clean x)) as [->|Hne]; [by left|]. right. set_solver.
Qed.

Lemma NoDup_distinct seen l : NoDup (distinct_values clean seen l).
Proof.
  revert seen. induction l as [|x l IH]; intros seen; cbn; [constructor|].
  destruct (bool_decide _ || bool_decide _); [apply IH|]. apply list.NoDup_cons. split; [|apply IH].
  rewrite elem_of_distinct. set_solver.
Qed.

Lemma distinct_app seen a b :
  distinct_values clean seen (a ++ b) =
  distinct_values clean seen a ++ distinct_values clean (list_to_set (distinct_values clean seen a) ∪ seen) b.
Proof.
  revert seen. induction a as [|x a IH]; intros seen; cbn; [by rewrite (left_id_L ∅ _)|].
  destruct (bool_decide _ || bool_decide _); [apply IH|]. cbn. rewrite IH. do 3 f_equal. set_solver.
Qed.

(** A list that is clean stays as it is. *)
Lemma distinct_fixed seen l :
  NoDup l → (∀ x, x ∈ l → clean x = x ∧ x ≠ "" ∧ x ∉ seen) → distinct_values clean seen l = l.
Proof.
  revert seen. induction l as [|x l IH]; intros seen Hnd Hall; [done|]. apply list.NoDup_cons in Hnd as [Hx Hnd]. cbn.
  destruct (Hall x) as (-> & He & Hs); [set_solver|]. rewrite !bool_decide_eq_false_2 by done. cbn. f_equal.
  apply IH; [done|]. intros y Hy. destruct (Hall y) as (? & ? & ?); [set_solver|]. set_solver.
Qed.

Hypothesis clean_idem : ∀ x, clean (clean x) = clean x.

Lemma distinct_idem l : distinct_values clean ∅ (distinct_values clean ∅ l) = distinct_values clean ∅ l.
Proof.
  apply distinct_fixed; [apply NoDup_distinct|]. intros v (He & _ & x & _ & <-)%elem_of_distinct.
  split_and!; [apply clean_idem|done|set_solver].
Qed.

Lemma distinct_app_l a b :
  distinct_values clean ∅ (distinct_values clean ∅ a ++ b) = distinct_values clean ∅ (a ++ b).
Proof. by rewrite !distinct_app, distinct_idem. Qed.
End distinct.

Lemma normalizeStringList_idem l : normalizeStringList (normalizeStringList l) = normalizeStringList l.
Proof. apply distinct_idem, TrimSpace_idem. Qed.

Lemma NormalizeBehavior_idem b : NormalizeBehavior (NormalizeBehavior b) = NormalizeBehavior b.
Proof. apply trim_lower_idem. Qed.

Lemma normalizeStringList_app_l a b : normalizeStringList (normalizeStringList a ++ b) = normalizeStringList (a ++ b).
Proof. apply distinct_app_l, TrimSpace_idem. Qed.

Lemma normalizeStringList_app a b : ∃ more, normalizeStringList (a ++ b) = normalizeStringList a ++ more.
Proof. unfold normalizeStringList. rewrite distinct_app. eauto. Qed.

Lemma normalizeStringList_app_r a b : normalizeStringList (a ++ normalizeStringList b) = normalizeStringList (a ++ b).
Proof.
  unfold normalizeStringList. rewrite !distinct_app. f_equal. generalize (distinct_values TrimSpace ∅ a). intros l.
  assert (∀ seen seen' : gset string, seen' ⊆ seen →
    distinct_values TrimSpace seen (distinct_values TrimSpace seen' b) = distinct_values TrimSpace seen b) as Hd; [|apply Hd; set_solver].
  induction b as [|x b IH]; intros seen seen' Hsub; cbn; [done|].
  destruct (decide (TrimSpace x = "")) as [He|He]; [rewrite (bool_decide_eq_true_2 _ He); by apply IH|].
  rewrite (bool_decide_eq_false_2 _ He). cbn. destruct (decide (TrimSpace x ∈ seen')) as [Hs|Hs].
  - rewrite (bool_decide_eq_true_2 _ Hs), (bool_decide_eq_true_2 (TrimSpace x ∈ seen)) by set_solver. by apply IH.
  - rewrite (bool_decide_eq_false_2 _ Hs). cbn. rewrite TrimSpace_idem, (bool_decide_eq_false_2 _ He). cbn.
    destruct (decide (TrimSpace x ∈ seen)) as [Hs'|Hs'].
    + rewrite !(bool_decide_eq_true_2 _ Hs'). apply IH. set_solver.
    + rewrite !(bool_decide_eq_false_2 _ Hs'). f_equal. apply IH. set_solver.
Qed.

Lemma elem_of_normalizeStringList l v : v ∈ normalizeStringList l ↔ v ≠ "" ∧ ∃ x, x ∈ l ∧ TrimSpace x = v.
Proof. unfold normalizeStringList. rewrite elem_of_distinct. set_solver. Qed.

Lemma normalizeStringList_mono l l' :
  (∀ x, x ∈ l → x ∈ l') → (length (normalizeStringList l) ≤ length (normalizeStringList l'))%nat.
Proof.
  intros Hsub. apply submseteq_length, NoDup_submseteq; [apply NoDup_distinct|].
  intros v (He & x & Hx & Ht)%elem_of_normalizeStringList. apply elem_of_normalizeStringList. eauto.
Qed.

(** ** References *)

(** The sets that the references name, when all of them exist and have a
    type that the selector takes *)
Definition resolve (snapshot : CollectionContentSnapshot) (types refs : list string) : option (list CollectionValueSet) :=
  mapM (λ ref, match lookupCollectionValueSet snapshot ref with
               | Some set => if valueTypeAllowed (cvs_ValueType set) types then Some set else None
               | None => None
               end) refs.

Lemma resolve_cons snapshot types ref refs :
  resolve snapshot types (ref :: refs) =
  match lookupCollectionValueSet snapshot ref with
  | Some set => if valueTypeAllowed (cvs_ValueType set) types then cons set <$> resolve snapshot types refs else None
  | None => None
  end.
Proof.
  unfold resolve. cbn. destruct (lookupCollectionValueSet snapshot ref) as [set|]; [|done].
  destruct (valueTypeAllowed _ _); [|done]. cbn. by destruct (mapM _ refs).
Qed.

Definition values_of (sets : list CollectionValueSet) : list string := sets ≫= cvs_Values.

Definition within (budget : Z) (l : list string) : Prop := (Z.of_nat (length (normalizeStringList l)) ≤ budget)%Z.

Section expansion.
Context `{Unicode} (snapshot : CollectionContentSnapshot).

Lemma expand_refs_spec behavior selector types budget values resolved refs :
  normalizeStringList values = values →
  match expand_refs snapshot behavior selector types budget values resolved refs with
  | Ok (all, report) => ∃ sets, resolve snapshot types refs = Some sets ∧ all = normalizeStringList (values ++ values_of sets) ∧
      report = resolved ++ (resolved_ref behavior selector <$> sets)
  | Err _ => ∀ sets, resolve snapshot types refs = Some sets → ¬ within budget (values ++ values_of sets)
  end.
Proof.
  revert values resolved. induction refs as [|ref refs IH]; intros values resolved Hnorm; cbn [expand_refs].
  { exists []. split_and!; [done|by rewrite app_nil_r, Hnorm|by rewrite app_nil_r]. }
  rewrite resolve_cons. destruct (lookupCollectionValueSet snapshot ref) as [set|]; [|done].
  destruct (valueTypeAllowed (cvs_ValueType set) types); cbn [negb]; [|done].
  destruct (Z.ltb_spec budget (Z.of_nat (length (normalizeStringList (values ++ cvs_Values set))))) as [Hlt|Hle].
  - intros sets (more & _ & ->)%fmap_Some Hw. unfold within in Hw.
    assert (length (normalizeStringList (values ++ cvs_Values set)) ≤ length (normalizeStringList (values ++ values_of (set :: more))))%nat
      by (apply normalizeStringList_mono; unfold values_of; cbn; set_solver). lia.
  - specialize (IH (normalizeStringList (values ++ cvs_Values set)) (resolved ++ [resolved_ref behavior selector set])).
    rewrite normalizeStringList_idem in IH. specialize (IH eq_refl). unfold within in *.
    assert (∀ more, normalizeStringList (normalizeStringList (values ++ cvs_Values set) ++ values_of more) =
      normalizeStringList (values ++ values_of (set :: more))) as Hcat.
    { intros more. by rewrite normalizeStringList_app_l, <- (assoc_L (++)). }
    destruct (expand_refs _ _ _ _ _ _ _ refs) as [[all report]|msg].
    + destruct IH as (more & Hmore & -> & ->). exists (set :: more). rewrite Hcat, <- (assoc_L (++)).
      split_and!; [|done..]. by rewrite Hmore.
    + intros sets (more & Hmore & ->)%fmap_Some. rewrite <- Hcat. by apply IH.
Qed.

(** One selector: its own values [own], its references, its budget *)
Definition selector_fits (types : list string) (budget : Z) (own refs : list string) : Prop :=
  ∃ sets, resolve snapshot types refs = Some sets ∧ within budget (own ++ values_of sets).

Lemma expandSelectorRefs_spec behavior selector types budget own refs :
  normalizeStringList refs = refs →
  match expandSelectorRefs snapshot behavior selector refs types budget with
  | Ok (values, report) => ∃ sets, resolve snapshot types refs = Some sets ∧ report = resolved_ref behavior selector <$> sets ∧
      normalizeStringList (own ++ values) = normalizeStringList (own ++ values_of sets)
  | Err _ => ¬ selector_fits types budget own refs
  end.
Proof.
  intros Hrefs. unfold expandSelectorRefs. rewrite Hrefs. pose proof (expand_refs_spec behavior selector types budget [] [] refs eq_refl) as Hspec.
  destruct (expand_refs _ _ _ _ _ _ _ refs) as [[values report]|msg].
  - destruct Hspec as (sets & Hsets & -> & ->). exists sets. split_and!; [done..|]. apply normalizeStringList_app_r.
  - intros (sets & Hsets & Hw). apply (Hspec _ Hsets). unfold within in *.
    etrans; [|exact Hw]. apply inj_le, normalizeStringList_mono. set_solver.
Qed.

Lemma check_budget_spec behavior selector values budget :
  match check_budget behavior selector values budget with
  | Ok _ => (Z.of_nat (length values) ≤ budget)%Z
  | Err _ => ¬ (Z.of_nat (length values) ≤ budget)%Z
  end.
Proof. unfold check_budget. destruct (Z.ltb_spec budget (Z.of_nat (length values))); cbn; lia. Qed.

(** A specification whose references are resolved and fit *)
Definition spec_fits (spec : CollectionBehaviorPolicy) : Prop :=
  let file := cbs_File (cbp_Selectors spec) in
  let socket := cbs_Socket (cbp_Selectors spec) in
  selector_fits ["path_prefix"] collectionMaxFilePrefixes (fs_Prefixes file) (fs_PrefixRefs file) ∧
  selector_fits ["ip"; "addr"; "ip_addr"] collectionMaxSocketAddrs (ss_Addrs socket) (ss_AddrRefs socket) ∧
  selector_fits ["port"] collectionMaxSocketPorts (ss_Ports socket) (ss_PortRefs socket).

(** [spec'] is [spec] with the values of its references; [report] lists them. *)
Definition expands (spec spec' : CollectionBehaviorPolicy) (report : list CollectionResolvedRef) : Prop :=
  let file := cbs_File (cbp_Selectors spec) in
  let socket := cbs_Socket (cbp_Selectors spec) in
  ∃ files addrs ports,
    resolve snapshot ["path_prefix"] (fs_PrefixRefs file) = Some files ∧
    resolve snapshot ["ip"; "addr"; "ip_addr"] (ss_AddrRefs socket) = Some addrs ∧
    resolve snapshot ["port"] (ss_PortRefs socket) = Some ports ∧
    spec' = MkCollectionBehaviorPolicy (cbp_ID spec) (cbp_Enabled spec)
      (MkCollectionBehaviorSelectors (cbs_Binary (cbp_Selectors spec)) (cbs_Process (cbp_Selectors spec))
         (MkFileSelector (normalizeStringList (fs_Prefixes file ++ values_of files)) (fs_PrefixRefs file))
         (MkSocketSelector (ss_Families socket) (normalizeStringList (ss_Addrs socket ++ values_of addrs)) (ss_AddrRefs socket)
            (normalizeStringList (ss_Ports socket ++ values_of ports)) (ss_PortRefs socket))) ∧
    report = (resolved_ref (NormalizeBehavior (cbp_ID spec)) "file.path.prefix" <$> files) ++
             (resolved_ref (NormalizeBehavior (cbp_ID spec)) "socket.addr" <$> addrs) ++
             (resolved_ref (NormalizeBehavior (cbp_ID spec)) "socket.port" <$> ports).

Definition normal_spec (spec : CollectionBehaviorPolicy) : Prop :=
  NormalizeBehavior (cbp_ID spec) = cbp_ID spec ∧ cbp_ID spec ≠ "" ∧ normalize_selectors (cbp_Selectors spec) = cbp_Selectors spec.

Lemma expand_spec_spec spec :
  normal_spec spec →
  match expand_spec snapshot spec with
  | Ok (spec', report) => spec_fits spec ∧ expands spec spec' report
  | Err _ => ¬ spec_fits spec
  end.
Proof.
  intros (_ & _ & Hsel). destruct spec as [id enabled [binary process [fp fr] [sf sa sar sp spr]]].
  cbn [cbp_Selectors] in Hsel. unfold normalize_selectors in Hsel. cbn in Hsel.
  injection Hsel as _ _ _ Hfr _ _ Har _ Hpr. unfold expand_spec, spec_fits, expands. cbn [cbp_Selectors cbs_File cbs_Socket fs_Prefixes fs_PrefixRefs ss_Addrs ss_AddrRefs ss_Ports ss_PortRefs cbp_ID cbp_Enabled cbs_Binary cbs_Process ss_Families].
  set (b := NormalizeBehavior id).
  pose proof (expandSelectorRefs_spec b "file.path.prefix" ["path_prefix"] collectionMaxFilePrefixes fp fr Hfr) as H1.
  destruct (expandSelectorRefs _ b "file.path.prefix" _ _ _) as [[v1 r1]|m1]; cbn; [|tauto].
  pose proof (expandSelectorRefs_spec b "socket.addr" ["ip"; "addr"; "ip_addr"] collectionMaxSocketAddrs sa sar Har) as H2.
  destruct (expandSelectorRefs _ b "socket.addr" _ _ _) as [[v2 r2]|m2]; cbn; [|tauto].
  pose proof (expandSelectorRefs_spec b "socket.port" ["port"] collectionMaxSocketPorts sp spr Hpr) as H3.
  destruct (expandSelectorRefs _ b "socket.port" _ _ _) as [[v3 r3]|m3]; cbn; [|tauto].
  destruct H1 as (s1 & E1 & -> & ->), H2 as (s2 & E2 & -> & ->), H3 as (s3 & E3 & -> & ->).
  unfold selector_fits, within. rewrite E1, E2, E3.
  repeat match goal with
  | |- context [check_budget ?b ?s ?v ?n] =>
    pose proof (check_budget_spec b s v n); destruct (check_budget b s v n); cbn; [|by intros ((? & [= <-] & ?) & (? & [= <-] & ?) & ? & [= <-] & ?)]
  end.
  split; [by eauto 10|]. by exists s1, s2, s3.
Qed.

Lemma normalize_selectors_idem s : normalize_selectors (normalize_selectors s) = normalize_selectors s.
Proof. unfold normalize_selectors. cbn. by rewrite !normalizeStringList_idem. Qed.

Lemma specs_normal specs : Forall normal_spec (normalizeBehaviorSpecs specs).
Proof.
  apply list.Forall_forall. intros spec Hin. apply list_elem_of_omap in Hin as (raw & _ & Hraw). cbn in Hraw.
  case_bool_decide as Hid; [done|]. injection Hraw as <-.
  split_and!; [apply NormalizeBehavior_idem|done|apply normalize_selectors_idem].
Qed.

Lemma specs_fixed specs : Forall normal_spec specs → normalizeBehaviorSpecs specs = specs.
Proof.
  induction 1 as [|[id enabled sel] specs (Hid & Hne & Hsel) _ IH]; [done|]. cbn in *. rewrite Hid, bool_decide_eq_false_2, Hsel by done.
  f_equal. exact IH.
Qed.

Lemma NormalizeCollectionPolicy_fixed policy specs :
  Forall normal_spec specs →
  NormalizeCollectionPolicy ((NormalizeCollectionPolicy policy) <| col_BehaviorSpecs := specs |>) =
  (NormalizeCollectionPolicy policy) <| col_BehaviorSpecs := specs |>.
Proof.
  intros Hs. unfold assign, NormalizeCollectionPolicy. cbn -[normalizeStringList normalizeBehaviorList normalizeBehaviorSpecs].
  rewrite !normalizeStringList_idem, !TrimSpace_idem, (specs_fixed specs Hs).
  unfold normalizeBehaviorList. rewrite (distinct_idem NormalizeBehavior NormalizeBehavior_idem). f_equal.
  - destruct (decide (TrimSpace (col_PolicyID policy) = "")) as [He|He].
    + by rewrite !(bool_decide_eq_true_2 _ He).
    + by rewrite !(bool_decide_eq_false_2 _ He), TrimSpace_idem, (bool_decide_eq_false_2 _ He).
  - destruct (col_Version policy =? 0)%Z eqn:Ev; [done|]. by rewrite Ev.
Qed.

Lemma expands_normal spec spec' report : normal_spec spec → expands spec spec' report → normal_spec spec'.
Proof.
  intros (Hid & Hne & Hsel) (files & addrs & ports & _ & _ & _ & -> & _). split_and!; [done..|].
  destruct spec as [id enabled [binary process [fp fr] [sf sa sar sp spr]]]. cbn in *.
  unfold normalize_selectors in *. cbn in *. injection Hsel as Hb Hp _ Hfr Hsf _ Har _ Hpr.
  rewrite !normalizeStringList_idem, Hfr, Hsf, Har, Hpr. destruct binary, process. cbn in *. by simplify_eq; rewrite ?Hb, ?Hp.
Qed.

Lemma expand_specs_spec specs :
  Forall normal_spec specs →
  match expand_specs snapshot specs with
  | Ok (specs', report) => Forall (spec_fits) specs ∧ Forall normal_spec specs' ∧
      ∃ reports, Forall3 expands specs specs' reports ∧ report = mjoin reports
  | Err _ => ¬ Forall spec_fits specs
  end.
Proof.
  induction 1 as [|spec specs Hn Hns IH]; cbn [expand_specs].
  { split_and!; [done..|]. exists []. by split; [constructor|]. }
  pose proof (expand_spec_spec spec Hn) as H1. destruct (expand_spec snapshot spec) as [[spec' report]|msg]; cbn.
  2: { by intros [? _]%Forall_cons_iff. }
  destruct H1 as [Hf He]. destruct (expand_specs snapshot specs) as [[specs' more]|msg]; cbn.
  2: { by intros [_ ?]%Forall_cons_iff. }
  destruct IH as (Hfs & Hn' & reports & H3 & ->). split_and!; [by constructor| |].
  - constructor; [by eapply expands_normal|done].
  - exists (report :: reports). by split; [constructor|].
Qed.
End expansion.

(** The references of a collection policy are expanded exactly when they
    can be: when every reference of every behaviour names content of a type
    its selector takes, and the selector's own values together with the
    referenced ones are, each counted once, within its budget of 128 file
    prefixes, 512 addresses and 128 ports.  Then the result is the normalised
    policy in which each selector has its own values followed by those of its
    references, trimmed and without repetition, and the report lists the
    content that was used in the order of the behaviours; otherwise the
    policy is refused. *)
Theorem expansion_exact `{Unicode} (policy : CollectionPolicy) (snapshot : CollectionContentSnapshot) :
  let specs := col_BehaviorSpecs (NormalizeCollectionPolicy policy) in
  match ExpandCollectionPolicyRefs policy snapshot with
  | Ok (policy', report) =>
    Forall (spec_fits snapshot) specs ∧
    ∃ specs' reports, Forall3 (expands snapshot) specs specs' reports ∧ report = mjoin reports ∧
      policy' = (NormalizeCollectionPolicy policy) <| col_BehaviorSpecs := specs' |>
  | Err _ => ¬ Forall (spec_fits snapshot) specs
  end.
Proof.
  cbn zeta. unfold ExpandCollectionPolicyRefs. pose proof (specs_normal (col_BehaviorSpecs policy)) as Hn.
  pose proof (expand_specs_spec snapshot _ Hn) as Hspec. cbn [NormalizeCollectionPolicy col_BehaviorSpecs].
  destruct (expand_specs snapshot _) as [[specs' report]|msg]; cbn; [|done].
  destruct Hspec as (Hf & Hn' & reports & H3 & ->). split; [done|]. exists specs', reports. split_and!; [done..|].
  by apply NormalizeCollectionPolicy_fixed.
Qed.

(** ** Intents *)

Definition scope_accepted (scopeType scopeSelector : string) : Prop :=
  (TrimSpace scopeType ∈ [""; "host"] ∧ TrimSpace scopeSelector = "") ∨
  (TrimSpace scopeType ∈ ["container"; "cgroup"; "namespace"; "pod"] ∧ TrimSpace scopeSelector ≠ "").

Lemma NormalizeScope_spec scopeType scopeSelector :
  match NormalizeScope scopeType scopeSelector with
  | Ok (ty, sel) => scope_accepted scopeType scopeSelector ∧ sel = TrimSpace scopeSelector ∧
      ty = (if bool_decide (TrimSpace scopeType = "") then "host" else TrimSpace scopeType)
  | Err _ => ¬ scope_accepted scopeType scopeSelector
  end.
Proof.
  unfold NormalizeScope, scope_accepted. generalize (TrimSpace scopeType), (TrimSpace scopeSelector). intros ty sel.
  destruct (decide (ty = "")) as [->|Hne].
  { rewrite !(bool_decide_eq_true_2 ("" = "")), (bool_decide_eq_true_2 ("host" = "host")) by done.
    case_bool_decide as Hsel; [split_and!; [left; split; [set_solver|done]|done..]|]. intros [[_ ?]|[? _]]; [done|set_solver]. }
  rewrite !(bool_decide_eq_false_2 (ty = "")) by done. destruct (decide (ty = "host")) as [->|Hhost].
  { rewrite (bool_decide_eq_true_2 ("host" = "host")) by done.
    case_bool_decide as Hsel; [split_and!; [left; split; [set_solver|done]|done..]|]. intros [[_ ?]|[? _]]; [done|set_solver]. }
  rewrite (bool_decide_eq_false_2 (ty = "host")) by done. case_bool_decide as Hty; [|intros [[? _]|[? _]]; [set_solver|done]].
  case_bool_decide as Hsel; [intros [[? _]|[_ ?]]; [set_solver|done]|]. split_and!; [by right|done..].
Qed.

Lemma add_behaviors_spec `{Unicode} behaviors l :
  NoDup behaviors → (∀ b, b ∈ l → NormalizeBehavior b = b ∧ b ≠ "") →
  match add_behaviors behaviors l with
  | Ok all => (∀ b, b ∈ l → b ∈ AllBehaviors) ∧ NoDup all ∧ ∀ b, b ∈ all ↔ b ∈ behaviors ∨ b ∈ l
  | Err _ => ¬ ∀ b, b ∈ l → b ∈ AllBehaviors
  end.
Proof.
  revert behaviors. induction l as [|b l IH]; intros behaviors Hnd Hl; cbn [add_behaviors]; [set_solver|].
  destruct (Hl b) as [Hb Hne]; [set_solver|]. unfold addBehavior. rewrite Hb, (bool_decide_eq_false_2 (b = "")) by done.
  unfold KnownBehavior. rewrite Hb. destruct (decide (b ∈ AllBehaviors)) as [Hk|Hk].
  2: { rewrite (bool_decide_eq_false_2 _ Hk). cbn. intros Hall. apply Hk, Hall. set_solver. }
  rewrite (bool_decide_eq_true_2 _ Hk). cbn [negb].
  assert (∀ behaviors', NoDup behaviors' → (∀ x, x ∈ behaviors' ↔ x ∈ behaviors ∨ x = b) →
    match add_behaviors behaviors' l with
    | Ok all => (∀ x, x ∈ b :: l → x ∈ AllBehaviors) ∧ NoDup all ∧ ∀ x, x ∈ all ↔ x ∈ behaviors ∨ x ∈ b :: l
    | Err _ => ¬ ∀ x, x ∈ b :: l → x ∈ AllBehaviors
    end) as Hstep.
  { intros behaviors' Hnd' Hin. assert (∀ x, x ∈ l → NormalizeBehavior x = x ∧ x ≠ "") as Hl' by (intros x Hx; apply Hl; by right).
    specialize (IH behaviors' Hnd' Hl'). destruct (add_behaviors behaviors' l) as [all|msg].
    - destruct IH as (Hall & Hnd'' & Hmem). split_and!; [intros x [->|Hx]%elem_of_cons; [done|by apply Hall]|done|].
      intros x. rewrite Hmem, Hin, elem_of_cons. tauto.
    - intros Hall. apply IH. intros x Hx. apply Hall. by right. }
  case_bool_decide as Hin; cbn; apply Hstep.
  - done.
  - intros x. split; [by left|]. by intros [?| ->].
  - apply list.NoDup_app. split_and!; [done| |apply NoDup_singleton]. by intros x Hx ->%list_elem_of_singleton.
  - intros x. by rewrite elem_of_app, list_elem_of_singleton.
Qed.

(** The behaviours a normalised policy asks for *)
Definition wanted (policy : CollectionPolicy) : list string :=
  let policy := NormalizeCollectionPolicy policy in
  col_Behaviors policy ++ (cbp_ID <$> filter (λ spec, spec_enabled spec = true) (col_BehaviorSpecs policy)).

Lemma wanted_normal policy b : b ∈ wanted policy → NormalizeBehavior b = b ∧ b ≠ "".
Proof.
  unfold wanted. cbn. intros [Hb|Hb]%elem_of_app.
  - apply elem_of_distinct in Hb as (Hne & _ & x & _ & <-). split; [apply NormalizeBehavior_idem|done].
  - apply list_elem_of_fmap in Hb as (spec & -> & [_ Hs]%list_elem_of_filter).
    pose proof (specs_normal (col_BehaviorSpecs policy)) as Hn. eapply list.Forall_forall in Hn; [|exact Hs].
    by destruct Hn as (? & ? & _).
Qed.

Definition acceptable (policy : CollectionPolicy) : Prop :=
  (∀ b, b ∈ wanted policy → b ∈ AllBehaviors) ∧ wanted policy ≠ [] ∧ scope_accepted (col_ScopeType policy) (col_ScopeSelector policy).

Lemma normalize_intent_scope_spec intent :
  match normalize_intent_scope intent with
  | Ok intent' => scope_accepted (ci_ScopeType intent) (ci_ScopeSelector intent) ∧
      scope_accepted (ci_ScopeType intent') (ci_ScopeSelector intent') ∧ ci_ScopeType intent' ≠ "" ∧
      ci_Behaviors intent' = ci_Behaviors intent ∧ ci_BehaviorFilters intent' = ci_BehaviorFilters intent
  | Err _ => ¬ scope_accepted (ci_ScopeType intent) (ci_ScopeSelector intent)
  end.
Proof.
  unfold normalize_intent_scope. pose proof (NormalizeScope_spec (ci_ScopeType intent) (ci_ScopeSelector intent)) as Hs.
  destruct (NormalizeScope _ _) as [[ty sel]|msg]; cbn; [|done]. destruct Hs as (Ha & -> & ->). split_and!; [done| |by case_bool_decide|done..].
  unfold scope_accepted in *. rewrite TrimSpace_idem. destruct (decide (TrimSpace (ci_ScopeType intent) = "")) as [He|He].
  - rewrite (bool_decide_eq_true_2 _ He). destruct Ha as [[_ Hsel]|[Hty _]]; [left; split; [vm_compute; set_solver|done]|].
    rewrite He in Hty. set_solver.
  - by rewrite (bool_decide_eq_false_2 _ He), TrimSpace_idem.
Qed.

(** A collection policy is turned into an intent exactly when each
    behaviour that it lists or has enabled is one that the system knows,
    there is at least one, and its scope is either the host with no selector
    or a container, cgroup, namespace or pod with one.  The intent then names
    each of these behaviours once and no other, in lower case, every filter
    in it is for one of them, and its scope is again an accepted one that is
    written out. *)
Theorem intent_exact `{Unicode} (policy : CollectionPolicy) :
  match CollectionPolicyIntent policy with
  | Ok intent =>
    acceptable policy ∧ NoDup (ci_Behaviors intent) ∧ (∀ b, b ∈ ci_Behaviors intent ↔ b ∈ wanted policy) ∧
    (∀ f, f ∈ ci_BehaviorFilters intent → cbf_Behavior f ∈ ci_Behaviors intent) ∧
    scope_accepted (ci_ScopeType intent) (ci_ScopeSelector intent) ∧ ci_ScopeType intent ≠ ""
  | Err _ => ¬ acceptable policy
  end.
Proof.
  unfold acceptable. pose proof (wanted_normal policy) as Hw. unfold CollectionPolicyIntent.
  pose proof (add_behaviors_spec [] (wanted policy) NoDup_nil_2 Hw) as Hadd. fold (wanted policy).
  destruct (add_behaviors [] (wanted policy)) as [behaviors|msg]; cbn -[wanted normalize_intent_scope]; [|tauto].
  destruct Hadd as (Hknown & Hnd & Hin). destruct (decide (behaviors = [])) as [->|Hne].
  { rewrite bool_decide_eq_true_2 by done. intros (_ & Hn & _). apply Hn. destruct (wanted policy) as [|b l]; [done|].
    specialize (Hin b). set_solver. }
  rewrite (bool_decide_eq_false_2 _ Hne).
  match goal with |- context [normalize_intent_scope ?i] => set (intent := i) end.
  pose proof (normalize_intent_scope_spec intent) as Hs. destruct (normalize_intent_scope intent) as [intent'|msg].
  - destruct Hs as (Ha & Ha' & Hty & -> & ->). unfold intent in *. cbn [ci_Behaviors ci_BehaviorFilters ci_ScopeType ci_ScopeSelector] in *.
    unfold scope_accepted in Ha. rewrite !TrimSpace_idem in Ha. split_and!; [done| |done|done|intros b; rewrite Hin; split; [by intros [?%elem_of_nil|?]|by right]| |done|done].
    + intros Hn. rewrite Hn in Hin. destruct behaviors as [|b l]; [done|].
      destruct (proj1 (Hin b)) as [?%elem_of_nil|?%elem_of_nil]; [by left|done..].
    + case_bool_decide.
      * intros f (b & -> & Hb)%list_elem_of_fmap. unfold flat_filter. by repeat case_bool_decide.
      * intros f (spec & -> & Hspec)%list_elem_of_fmap. cbn. apply Hin. right. unfold wanted. apply elem_of_app. right.
        destruct (Hw (cbp_ID spec)) as [-> _]; [unfold wanted; apply elem_of_app; right|]; apply list_elem_of_fmap; by exists spec.
  - intros (_ & _ & Ha). apply Hs. unfold intent, scope_accepted in *. cbn. by rewrite !TrimSpace_idem.
Qed.

(** ** The policy in force *)

(** The endpoint policy that was saved is the one that is in force after
    a restart: when saving has succeeded, the next load reads the stored
    document whatever the bootstrap file says, succeeds, and gives the policy
    that this document denotes, the same that was checked before it was
    written; the store is not changed by the load. *)
Theorem saved_policy_loads `{PolicyText} (now later : Z) (policy : EndpointPolicy) (s s' : LocalStore.Store) read path :
  SaveEffectiveEndpointPolicy now policy s = (Ok tt, s') →
  ∃ document effective, encode_endpoint policy = Ok document ∧ ParseEndpointPolicy document = Ok effective ∧
    LoadEffectiveEndpointPolicy read later path s' = (Ok effective, s').
Proof.
  unfold SaveEffectiveEndpointPolicy. destruct (encode_endpoint policy) as [document|]; [|done].
  destruct (ParseEndpointPolicy document) as [effective|] eqn:Ep; [|done]. unfold LocalStore.PutPolicy. cbn -[EncodeToString].
  destruct (_ || _ || _); intros [= Hs]. exists document, effective. split_and!; [done..|].
  unfold LoadEffectiveEndpointPolicy, LocalStore.GetPolicy. rewrite <- Hs. cbn -[ParseEndpointPolicy].
  rewrite lookup_insert_eq. cbn. unfold bytes_of. by rewrite String.string_of_list_ascii_of_string, Ep.
Qed.

(** ** A document and a store *)

Definition demo_envelope : endpoint_envelope :=
  MkEndpointEnvelope "p1" 3 "{}" (Some DefaultDetectionPolicy) (Some (MkTelemetryPolicy 1 1 "1s")) (Some Response.DefaultPolicy).

Definition demo_text : PolicyText :=
  {| decode_field _ := Ok "";
     decode_wire _ := Ok (MkCollectionWire "c" 1 "[]" [] [] [] [] [] "" "" false);
     decode_strings _ := Some ["Process.Exec "];
     decode_specs _ := Ok [];
     decode_endpoint _ := Ok demo_envelope;
     encode_endpoint _ := Ok "{}";
     policy_unicode := {| print_rune _ := true |} |}.

Definition demo_endpoint : EndpointPolicy :=
  MkEndpointPolicy "p1" 3 default_collection DefaultDetectionPolicy (MkTelemetryPolicy 1 1 "1s") Response.DefaultPolicy.

Definition demo_local : LocalStore.Store :=
  LocalStore.MkStore LocalStore.empty_disk (LocalStore.MkOptions 0 0 0 0) None ∅ (LocalStore.MkCursor 0 0).

Definition demo_saved : result unit * LocalStore.Store := SaveEffectiveEndpointPolicy (H := demo_text) 5 demo_endpoint demo_local.

Lemma demo_saved_ok : demo_saved = (Ok tt, demo_saved.2).
Proof. vm_compute. reflexivity. Qed.

Lemma saved_policy_loads_witness :
  ∃ effective, LoadEffectiveEndpointPolicy (H := demo_text) (λ _, Err "gone") 6 "policy.json" demo_saved.2 = (Ok effective, demo_saved.2).
Proof.
  destruct (saved_policy_loads (H := demo_text) 5 6 demo_endpoint demo_local demo_saved.2 (λ _, Err "gone") "policy.json" demo_saved_ok)
    as (document & effective & _ & _ & Hload).
  exists effective. exact Hload.
Defined.
End CollectionTheorems.
