(* ===== verification/TetragonPolicy.v ===== *)
(** * The Tetragon sensor: compilation of collection intents ([backend.go])

    What an intent asks for is compiled to a tracing policy that the kernel
    applies, and a report says which selectors are applied where.  The policy
    is a list of probes ([kprobes]) that is written out as YAML
    ([render_kprobe]); the code does both at once.  What the probes let
    through is stated against the meaning of Tetragon's selectors: within a
    selector all conditions hold, one selector suffices, and a probe without
    selectors reports every call. *)

From S2P Require Import Prelude GoStrings GoData GoSha GoText EventModel Policy Response PolicyModel Collection CollectionTheorems.

Module TetragonPolicy.
Import EventModel Policy Collection.

Definition runtimeTracingPolicyName : string := "sysarmor-runtime-collection".

(** ** Capabilities *)

Definition CollectionCapabilities : list CollectionBehaviorCapability :=
  let commonProcess := ["event.id"; "event.behavior"; "lineage_id"; "process.stable_id"; "process.binary"; "process.argv";
    "process.uid"; "process.pid"; "parent.stable_id"; "scope.type"; "scope.selector"; "container.id"; "cgroup"] in
  let agentSideScope := ["scope.container"; "scope.cgroup"; "scope.pod"] in
  let cap behavior mapping fields pushdown :=
    MkCollectionBehaviorCapability behavior mapping (commonProcess ++ fields) ("scope.namespace" :: pushdown) agentSideScope [] in
  [cap BehaviorProcessExec "tetragon:process_exec/security_bprm_creds_from_file" [] ["process.binary_prefix"];
   cap BehaviorProcessFork "tetragon:process_exec.clone" [] ["process.binary_prefix"];
   cap BehaviorProcessExit "tetragon:process_exit/do_exit" [] [];
   cap BehaviorNetworkConnect "tetragon:kprobe/security_socket_connect" ["socket"; "socket.addr"; "socket.port"; "object.socket_addr"]
     ["process.binary_prefix"; "socket.family"; "socket.addr"; "socket.port"];
   cap BehaviorFileOpen "tetragon:kprobe/security_file_permission" ["file.path"; "object.file_path"]
     ["process.binary_prefix"; "file.path.prefix"];
   cap BehaviorFileRead "tetragon:kprobe/security_file_permission" ["file.path"; "object.file_path"]
     ["process.binary_prefix"; "file.path.prefix"; "file.access"];
   cap BehaviorFileWrite "tetragon:process_exec.inferred_write/security_file_permission" ["file.path"; "object.file_path"]
     ["process.binary_prefix"; "file.path.prefix"; "file.access"];
   cap BehaviorFileChmod "tetragon:process_exec.inferred_chmod" ["file.path"; "object.file_path"]
     ["process.binary_prefix"; "file.path.prefix"; "file.access"]].

(** ** Filters of an intent *)

Definition mergeFilterStrings (lists : list (list string)) : list string := distinct_values TrimSpace ∅ (mjoin lists).

Definition intentHasBehavior (intent : CollectionIntent) (behavior : string) : bool :=
  existsb (λ got, bool_decide (NormalizeBehavior got = NormalizeBehavior behavior)) (ci_Behaviors intent).

Definition intentHasAnyBehavior (intent : CollectionIntent) (behaviors : list string) : bool :=
  existsb (intentHasBehavior intent) behaviors.

Definition file_behaviors : list string := [BehaviorFileOpen; BehaviorFileRead; BehaviorFileWrite; BehaviorFileChmod].

Definition behaviorFilter (intent : CollectionIntent) (behavior : string) : CollectionBehaviorFilter :=
  let behavior := NormalizeBehavior behavior in
  match find_first (λ f, bool_decide (NormalizeBehavior (cbf_Behavior f) = behavior)) (ci_BehaviorFilters intent) with
  | Some filter => filter
  | None =>
    if bool_decide (behavior ∈ [BehaviorProcessExec; BehaviorProcessFork])
    then MkCollectionBehaviorFilter behavior (ci_BinaryPrefixes intent) [] [] [] []
    else if bool_decide (behavior = BehaviorNetworkConnect)
    then MkCollectionBehaviorFilter behavior (ci_BinaryPrefixes intent) [] (ci_SocketFamilies intent) (ci_SocketAddrs intent) (ci_SocketPorts intent)
    else if bool_decide (behavior ∈ file_behaviors)
    then MkCollectionBehaviorFilter behavior (ci_BinaryPrefixes intent) (ci_FilePrefixes intent) [] [] []
    else MkCollectionBehaviorFilter behavior [] [] [] [] []
  end.

Definition needsTracingPolicy (intent : CollectionIntent) : bool :=
  existsb (λ behavior, bool_decide (NormalizeBehavior behavior ∈
    [BehaviorProcessExec; BehaviorProcessExit; BehaviorProcessFork; BehaviorNetworkConnect; BehaviorFileOpen; BehaviorFileRead;
     BehaviorFileWrite; BehaviorFileChmod])) (ci_Behaviors intent).

Definition hasNamespacePushdown (intent : CollectionIntent) : bool :=
  bool_decide (ci_ScopeType intent = "namespace") &&
  (bool_decide (ci_ScopeSelector intent = "self") || negb (bool_decide (ci_NamespaceSelectors intent = []))).

(** ** The tracing policy *)

(** One entry of [matchArgs] *)
Record arg_match := MkArgMatch {
  am_index : Z;
  am_operator : string;
  am_values : list string
}.

Record selector := MkSelector {
  sel_binaries : list string;
  sel_namespaces : list NamespaceSelector;
  sel_args : list arg_match
}.

Record kprobe := MkKprobe {
  k_call : string;
  k_return : bool;
  k_args : list (Z * string);
  k_selectors : list selector
}.

Record filePermissionSelector := MkFilePermissionSelector {
  fps_Behavior : string;
  fps_Access : Z;
  fps_BinaryPrefixes : list string;
  fps_FilePrefixes : list string;
  fps_NamespaceSelectors : list NamespaceSelector
}.

Definition defaultFilePrefixesForBehavior (behavior : string) : list string :=
  let behavior := NormalizeBehavior behavior in
  if bool_decide (behavior = BehaviorFileRead)
  then ["/root/.ssh"; "/var/run/secrets"; "/etc/passwd"; "/etc/shadow"; "/etc/sudoers"]
  else if bool_decide (behavior ∈ [BehaviorFileWrite; BehaviorFileChmod]) then ["/dev/shm"; "/tmp"; "/var/tmp"]
  else ["/root/.ssh"; "/var/run/secrets"; "/etc/passwd"].

(** [add] of [filePermissionSelectors] *)
Definition file_permission (intent : CollectionIntent) (behavior : string) (access : Z) : list filePermissionSelector :=
  if negb (intentHasBehavior intent behavior) then []
  else
    let filter := behaviorFilter intent behavior in
    let prefixes := if bool_decide (cbf_FilePrefixes filter = []) then defaultFilePrefixesForBehavior behavior else cbf_FilePrefixes filter in
    [MkFilePermissionSelector behavior access (cbf_BinaryPrefixes filter) prefixes (ci_NamespaceSelectors intent)].

Definition filePermissionSelectors (intent : CollectionIntent) : list filePermissionSelector :=
  file_permission intent BehaviorFileOpen 0 ++ file_permission intent BehaviorFileRead 4 ++
  file_permission intent BehaviorFileWrite 2 ++ file_permission intent BehaviorFileChmod 2.

Definition file_selector (s : filePermissionSelector) : selector :=
  MkSelector (fps_BinaryPrefixes s) (fps_NamespaceSelectors s)
    (MkArgMatch 0 "Prefix" (mergeFilterStrings [fps_FilePrefixes s]) ::
     if (fps_Access s =? 0)%Z then [] else [MkArgMatch 1 "Equal" [FormatInt (fps_Access s)]]).

Definition exec_probe (intent : CollectionIntent) : list kprobe :=
  if negb (intentHasAnyBehavior intent [BehaviorProcessExec; BehaviorProcessFork]) then []
  else
    let prefixes := mergeFilterStrings [cbf_BinaryPrefixes (behaviorFilter intent BehaviorProcessExec);
                                        cbf_BinaryPrefixes (behaviorFilter intent BehaviorProcessFork)] in
    [MkKprobe "security_bprm_creds_from_file" false [(0%Z, "nop"); (1%Z, "file")]
       (if bool_decide (prefixes = []) && bool_decide (ci_NamespaceSelectors intent = []) then []
        else [MkSelector [] (ci_NamespaceSelectors intent) (if bool_decide (prefixes = []) then [] else [MkArgMatch 1 "Prefix" prefixes])])].

Definition exit_probe (intent : CollectionIntent) : list kprobe :=
  if negb (intentHasBehavior intent BehaviorProcessExit) then [] else [MkKprobe "do_exit" false [(0%Z, "int")] []].

Definition connect_probe (intent : CollectionIntent) : list kprobe :=
  if negb (intentHasBehavior intent BehaviorNetworkConnect) then []
  else
    let filter := behaviorFilter intent BehaviorNetworkConnect in
    let families := if bool_decide (cbf_SocketFamilies filter = []) then ["AF_INET"; "AF_INET6"] else cbf_SocketFamilies filter in
    [MkKprobe "security_socket_connect" false [(1%Z, "sockaddr"); (2%Z, "int")]
       [MkSelector (cbf_BinaryPrefixes filter) (ci_NamespaceSelectors intent) [MkArgMatch 1 "Family" families]]].

Definition file_probe (intent : CollectionIntent) : list kprobe :=
  let fileSelectors := filePermissionSelectors intent in
  if bool_decide (length fileSelectors = O) then []
  else [MkKprobe "security_file_permission" true [(0%Z, "file"); (1%Z, "int")] (file_selector <$> fileSelectors)].

Definition kprobes (intent : CollectionIntent) : list kprobe :=
  exec_probe intent ++ exit_probe intent ++ connect_probe intent ++ file_probe intent.

(** *** As YAML *)

Definition newline : string := String (byte_of 10) "".
Definition lines (l : list string) : string := concat_str ((λ s, s +:+ newline) <$> l).
Definition in_quotes (s : string) : string := String double_quote (s +:+ String double_quote "").

Section render.
Context `{Unicode}.

Definition writeMatchBinaries (prefixes : list string) (indent : string) : string :=
  let prefixes := mergeFilterStrings [prefixes] in
  if bool_decide (prefixes = []) then ""
  else lines ([indent +:+ "matchBinaries:"; indent +:+ "- operator: " +:+ in_quotes "Prefix"; indent +:+ "  values:"] ++
              ((λ prefix, indent +:+ "  - " +:+ Quote prefix) <$> prefixes)).

Definition writeNamespaceSelectors (selectors : list NamespaceSelector) (indent : string) : string :=
  if bool_decide (length selectors = O) then ""
  else lines ((indent +:+ "matchNamespaces:") :: (selectors ≫= λ selector,
    let values := mergeFilterStrings [ns_Values selector] in
    if bool_decide (ns_Namespace selector = "") || bool_decide (values = []) then []
    else [indent +:+ "- namespace: " +:+ ns_Namespace selector; indent +:+ "  operator: " +:+ in_quotes "In"; indent +:+ "  values:"] ++
         ((λ value, indent +:+ "  - " +:+ Quote value) <$> values))).

Definition write_args (args : list arg_match) : string :=
  if bool_decide (length args = O) then ""
  else lines ("      matchArgs:" :: (args ≫= λ a,
    ["      - index: " +:+ FormatInt (am_index a); "        operator: " +:+ in_quotes (am_operator a); "        values:"] ++
    ((λ value, "        - " +:+ Quote value) <$> am_values a))).

Definition render_selector (s : selector) : string :=
  lines ["    -"] +:+ writeMatchBinaries (sel_binaries s) "      " +:+ writeNamespaceSelectors (sel_namespaces s) "      " +:+
  write_args (sel_args s).

Definition render_kprobe (k : kprobe) : string :=
  lines (["  - call: " +:+ in_quotes (k_call k); "    syscall: false"] ++ (if k_return k then ["    return: true"] else []) ++ ["    args:"] ++
         (k_args k ≫= λ '(index, ty), ["    - index: " +:+ FormatInt index; "      type: " +:+ in_quotes ty]) ++
         (if k_return k then ["    returnArg:"; "      index: 0"; "      type: " +:+ in_quotes "int"] else [])) +:+
  (if bool_decide (length (k_selectors k) = O) then "" else lines ["    selectors:"]) +:+ concat_str (render_selector <$> k_selectors k).

Definition buildTracingPolicy (intent : CollectionIntent) : string :=
  lines ["apiVersion: cilium.io/v1alpha1"; "kind: TracingPolicy"; "metadata:"; "  name: " +:+ Quote runtimeTracingPolicyName; "spec:"; "  kprobes:"] +:+
  concat_str (render_kprobe <$> kprobes intent).
End render.

(** ** The report *)

Record CollectionSelectorReport := MkSelectorReport {
  csr_Behavior : string;
  csr_Selector : string;
  csr_Status : string;
  csr_Location : string;
  csr_Mapping : string;
  csr_Reason : string
}.

Record CollectionBehaviorMap := MkBehaviorMap {
  cbm_Behavior : string;
  cbm_Backend : string;
  cbm_Hook : string
}.

Record CollectionCompileReport := MkCompileReport {
  ccr_Status : string;
  ccr_Backend : string;
  ccr_GeneratedPolicyHash : string;
  ccr_ResolvedRefs : list CollectionResolvedRef;
  ccr_BehaviorMappings : list CollectionBehaviorMap;
  ccr_PushedDownSelectors : list CollectionSelectorReport;
  ccr_AgentSideSelectors : list CollectionSelectorReport;
  ccr_UnsupportedSelectors : list CollectionSelectorReport;
  ccr_Warnings : list string
}.

Global Instance CollectionCompileReport_eta : Settable CollectionCompileReport := λ x,
  MkCompileReport (ccr_Status x) (ccr_Backend x) (ccr_GeneratedPolicyHash x) (ccr_ResolvedRefs x) (ccr_BehaviorMappings x)
    (ccr_PushedDownSelectors x) (ccr_AgentSideSelectors x) (ccr_UnsupportedSelectors x) (ccr_Warnings x).

Definition hookForBehavior (behavior : string) : string :=
  if bool_decide (behavior ∈ [BehaviorProcessExec; BehaviorProcessFork]) then "security_bprm_creds_from_file"
  else if bool_decide (behavior = BehaviorProcessExit) then "do_exit"
  else if bool_decide (behavior = BehaviorNetworkConnect) then "security_socket_connect"
  else if bool_decide (behavior ∈ file_behaviors) then "security_file_permission"
  else "".

Definition some_of {A} (l : list A) : bool := negb (bool_decide (length l = O)).

Definition hasPushdownSelectors (intent : CollectionIntent) (behavior : string) (filter : CollectionBehaviorFilter) : bool :=
  let behavior := NormalizeBehavior behavior in
  if hasNamespacePushdown intent then true
  else if bool_decide (behavior ∈ [BehaviorProcessExec; BehaviorProcessFork]) then some_of (cbf_BinaryPrefixes filter)
  else if bool_decide (behavior = BehaviorNetworkConnect)
  then some_of (cbf_BinaryPrefixes filter) || some_of (cbf_SocketAddrs filter) || some_of (cbf_SocketPorts filter)
  else if bool_decide (behavior ∈ file_behaviors) then some_of (cbf_BinaryPrefixes filter) || some_of (cbf_FilePrefixes filter)
  else true.

Definition only_if {A} (b : bool) (x : A) : list A := if b then [x] else [].

Definition pushedDownSelectorsForFilter (filter : CollectionBehaviorFilter) : list CollectionSelectorReport :=
  let behavior := NormalizeBehavior (cbf_Behavior filter) in
  let pushed selector mapping := MkSelectorReport behavior selector "pushed_down" "tetragon" mapping "" in
  if bool_decide (behavior ∈ [BehaviorProcessExec; BehaviorProcessFork])
  then only_if (some_of (cbf_BinaryPrefixes filter)) (pushed "process.binary_prefix" "selectors.matchArgs[index=1,operator=Prefix]")
  else if bool_decide (behavior = BehaviorNetworkConnect)
  then only_if (some_of (cbf_BinaryPrefixes filter)) (pushed "process.binary_prefix" "selectors.matchBinaries[operator=Prefix]") ++
       only_if (some_of (cbf_SocketFamilies filter)) (pushed "socket.family" "selectors.matchArgs[index=1,operator=Family]")
  else if bool_decide (behavior ∈ file_behaviors)
  then only_if (some_of (cbf_BinaryPrefixes filter)) (pushed "process.binary_prefix" "selectors.matchBinaries[operator=Prefix]") ++
       only_if (some_of (cbf_FilePrefixes filter)) (pushed "file.path.prefix" "selectors.matchArgs[index=0,operator=Prefix]") ++
       only_if (bool_decide (behavior = BehaviorFileRead)) (pushed "file.access" "selectors.matchArgs[index=1,operator=Equal,value=4/MAY_READ]") ++
       only_if (bool_decide (behavior ∈ [BehaviorFileWrite; BehaviorFileChmod]))
         (pushed "file.access" "selectors.matchArgs[index=1,operator=Equal,value=2/MAY_WRITE]")
  else [].

Definition scopeSelectorReports (intent : CollectionIntent) (behavior : string) : list CollectionSelectorReport :=
  if bool_decide (ci_ScopeType intent ∈ [""; "host"]) then []
  else if hasNamespacePushdown intent
  then [MkSelectorReport behavior "scope.namespace" "pushed_down" "tetragon" "selectors.matchNamespaces" ""]
  else [MkSelectorReport behavior ("scope." +:+ ci_ScopeType intent) "agent_side" "agent" ""
          "runtime scope is enforced after Tetragon emission; selector is correct but may collect extra events until backend pushdown is implemented"].

Definition agentSideSelectorsForFilter (filter : CollectionBehaviorFilter) : list CollectionSelectorReport :=
  let behavior := NormalizeBehavior (cbf_Behavior filter) in
  let agent selector reason := MkSelectorReport behavior selector "agent_side" "agent" "" reason in
  if negb (bool_decide (behavior = BehaviorNetworkConnect)) then []
  else
    only_if (some_of (cbf_SocketAddrs filter))
      (agent "socket.addr" "destination address IOC is enforced after Tetragon emission until sockaddr destination pushdown is verified") ++
    only_if (some_of (cbf_SocketPorts filter))
      (agent "socket.port" "destination port IOC is enforced after Tetragon emission until sockaddr destination pushdown is verified").

Definition unsupportedSelectorsForFilter (filter : CollectionBehaviorFilter) : list CollectionSelectorReport := [].

Definition is_pushed (r : CollectionSelectorReport) : bool := bool_decide (csr_Status r = "pushed_down").

(** One pass of the loop of [CompileReport] *)
Definition report_behavior (intent : CollectionIntent) (report : CollectionCompileReport) (behavior : string) : CollectionCompileReport :=
  let behavior := NormalizeBehavior behavior in
  if bool_decide (behavior = "") then report
  else
    let filter := behaviorFilter intent behavior in
    let scope := scopeSelectorReports intent behavior in
    report <| ccr_BehaviorMappings ::= λ l, l ++ [MkBehaviorMap behavior "tetragon" (hookForBehavior behavior)] |>
           <| ccr_PushedDownSelectors ::= λ l, l ++ pushedDownSelectorsForFilter filter ++ List.filter is_pushed scope |>
           <| ccr_AgentSideSelectors ::= λ l, l ++ agentSideSelectorsForFilter filter ++ List.filter (λ r, negb (is_pushed r)) scope |>
           <| ccr_UnsupportedSelectors ::= λ l, l ++ unsupportedSelectorsForFilter filter |>
           <| ccr_Warnings ::= λ l, l ++ only_if (negb (hasPushdownSelectors intent behavior filter))
                ("behavior " +:+ behavior +:+ " has no pushdown selectors; kernel BPF filter will pass all events of this type, resulting in high event volume") |>.

Definition CompileReport `{Unicode} (intent : CollectionIntent) : CollectionCompileReport :=
  let hash := if needsTracingPolicy intent then EncodeToString (Sum256 (string_bytes (buildTracingPolicy intent))) else "" in
  let report := foldl (report_behavior intent) (MkCompileReport "ok" "tetragon" hash [] [] [] [] [] []) (ci_Behaviors intent) in
  let report := report <| ccr_Warnings ::= λ l, l ++ only_if (some_of (ccr_AgentSideSelectors report))
    "some selectors are enforced agent-side after Tetragon emission; behavior is correct but event volume can be higher" |> in
  if some_of (ccr_UnsupportedSelectors report)
  then report <| ccr_Status := "unsupported" |>
              <| ccr_Warnings ::= λ l, l ++ ["collection policy contains selectors that are not compiled to Tetragon or enforced agent-side"] |>
  else report.

(** ** What the probes let through *)

(** The value of an argument of a call *)
Inductive arg_value :=
| FileValue (path : string)
| IntValue (z : Z)
| FamilyValue (family : string).

(** A call of a probed function: the binary of the process that makes it, its
    namespaces and the arguments *)
Record kernel_call := MkKernelCall {
  kc_function : string;
  kc_binary : string;
  kc_namespaces : gmap string string;
  kc_args : gmap Z arg_value
}.

Definition has_prefix_in (prefixes : list string) (s : string) : Prop := ∃ p, p ∈ prefixes ∧ HasPrefix s p = true.

(** The meaning of Tetragon's operators *)
Definition arg_matches (call : kernel_call) (a : arg_match) : Prop :=
  match kc_args call !! am_index a with
  | Some (FileValue path) => am_operator a = "Prefix" ∧ has_prefix_in (am_values a) path
  | Some (IntValue z) => am_operator a = "Equal" ∧ FormatInt z ∈ am_values a
  | Some (FamilyValue family) => am_operator a = "Family" ∧ family ∈ am_values a
  | None => False
  end.

(** Entries without a name or values are not written. *)
Definition namespace_matches (call : kernel_call) (s : NamespaceSelector) : Prop :=
  ns_Namespace s = "" ∨ mergeFilterStrings [ns_Values s] = [] ∨
  ∃ v, kc_namespaces call !! ns_Namespace s = Some v ∧ v ∈ mergeFilterStrings [ns_Values s].

Definition binary_matches (call : kernel_call) (prefixes : list string) : Prop :=
  mergeFilterStrings [prefixes] = [] ∨ has_prefix_in (mergeFilterStrings [prefixes]) (kc_binary call).

Definition selector_matches (call : kernel_call) (s : selector) : Prop :=
  binary_matches call (sel_binaries s) ∧ Forall (namespace_matches call) (sel_namespaces s) ∧ Forall (arg_matches call) (sel_args s).

Definition emits (call : kernel_call) (k : kprobe) : Prop :=
  k_call k = kc_function call ∧ (k_selectors k = [] ∨ Exists (selector_matches call) (k_selectors k)).

End TetragonPolicy.
