(* ===== verification/TetragonTheorems.v ===== *)
(** * The Tetragon sensor: what is reported

    Every event the adapter makes has a known behaviour and, once normalised,
    the object that goes with it; and a call of the kernel that the intent
    asks for passes the tracing policy that is compiled from the intent. *)

From S2P Require Import Prelude GoStrings GoData GoSha GoText EventModel Policy Response PolicyModel Normalize TetragonAdapter Collection CollectionTheorems TetragonPolicy.

Module TetragonTheorems.
Import EventModel Policy Normalize TetragonAdapter TetragonPolicy.

(** ** Behaviours are constants that normalise to themselves *)

Lemma known_normal b : b ∈ AllBehaviors → NormalizeBehavior b = b.
Proof.
  intros Hb. assert (forallb (λ b, bool_decide (NormalizeBehavior b = b)) AllBehaviors = true) as Hall by (vm_compute; reflexivity).
  rewrite forallb_forall in Hall. apply list_elem_of_In in Hb. by apply Hall, bool_decide_eq_true in Hb.
Qed.

Lemma known_trimmed b : b ∈ AllBehaviors → TrimSpace b = b ∧ b ≠ "".
Proof.
  intros Hb. assert (forallb (λ b, bool_decide (TrimSpace b = b ∧ b ≠ "")) AllBehaviors = true) as Hall by (vm_compute; reflexivity).
  rewrite forallb_forall in Hall. apply list_elem_of_In in Hb. by apply Hall, bool_decide_eq_true in Hb.
Qed.

Ltac known := unfold AllBehaviors; rewrite ?elem_of_cons; tauto.

(** ** The shape of events *)

(** The object a raw event of a behaviour comes with *)
Definition raw_shape (ev : SensorEvent) : Prop :=
  se_Behavior ev ∈ AllBehaviors ∧ is_Some (se_Proc ev) ∧
  (se_Behavior ev = BehaviorNetworkConnect → ro_Dst (GetRawObject ev) ≠ "") ∧
  (se_Behavior ev ∈ file_behaviors → ro_Path (GetRawObject ev) ≠ "").

(** The object a canonical event of a behaviour comes with *)
Definition well_typed (ce : CanonicalEvent) : Prop :=
  (∃ p, ev_SubjectProc ce = Some p ∧ proc_StableId p ≠ "") ∧
  ((ev_Behavior ce = BehaviorNetworkConnect ∧ ∃ addr, ev_Object ce = Some (MkObjectRef "socket" "" addr "") ∧ addr ≠ "") ∨
   (ev_Behavior ce ∈ file_behaviors ∧ ∃ path, ev_Object ce = Some (MkObjectRef "file" path "" "") ∧ path ≠ "") ∨
   (ev_Behavior ce ∈ [BehaviorProcessExec; BehaviorProcessFork; BehaviorProcessExit] ∧ ev_Object ce = Some (MkObjectRef "process" "" "" ""))).

Section events.
Context `{SensorText}.

Lemma sensorEvent_shape env proc parent behavior obj :
  behavior ∈ AllBehaviors →
  (behavior = BehaviorNetworkConnect → ∃ o, obj = Some o ∧ ro_Dst o ≠ "") →
  (behavior ∈ file_behaviors → ∃ o, obj = Some o ∧ ro_Path o ≠ "") →
  raw_shape (sensorEvent env proc parent behavior obj).
Proof.
  intros Hk Hn Hf. unfold raw_shape, sensorEvent, GetRawObject. cbn. rewrite (known_normal _ Hk).
  split_and!; [done|done| |].
  - intros Hb. by destruct (Hn Hb) as (o & -> & ?).
  - intros Hb. by destruct (Hf Hb) as (o & -> & ?).
Qed.

(** The event of a process needs no object. *)
Lemma process_shape env proc parent behavior obj :
  behavior ∈ [BehaviorProcessExec; BehaviorProcessFork; BehaviorProcessExit] → raw_shape (sensorEvent env proc parent behavior obj).
Proof.
  intros Hb. apply sensorEvent_shape.
  - unfold AllBehaviors. set_solver.
  - intros ->. unfold BehaviorNetworkConnect in Hb. set_solver.
  - unfold file_behaviors. intros Hf. repeat (apply elem_of_cons in Hf as [->|Hf]; [set_solver|]). by apply elem_of_nil in Hf.
Qed.

Lemma file_shape env proc parent behavior path :
  behavior ∈ file_behaviors → path ≠ "" → raw_shape (sensorEvent env proc parent behavior (Some (path_object path))).
Proof.
  intros Hb Hp. apply sensorEvent_shape; [unfold AllBehaviors, file_behaviors in *; set_solver| |by eauto].
  intros ->. unfold file_behaviors in Hb. set_solver.
Qed.

Lemma execEvents_shape env pe ev : ev ∈ execEvents env pe → raw_shape ev.
Proof.
  unfold execEvents. rewrite !elem_of_app. intros [Hin|[Hin|[Hin|Hin]]].
  - apply list_elem_of_singleton in Hin as ->. apply process_shape. set_solver.
  - case_match; [|by apply elem_of_nil in Hin]. apply list_elem_of_singleton in Hin as ->. apply process_shape. set_solver.
  - case_bool_decide; [by apply elem_of_nil in Hin|]. apply list_elem_of_singleton in Hin as ->. apply file_shape; [unfold file_behaviors; set_solver|done].
  - case_bool_decide; [by apply elem_of_nil in Hin|]. apply list_elem_of_singleton in Hin as ->. apply file_shape; [unfold file_behaviors; set_solver|done].
Qed.

Lemma first_path_nonempty args path : first_path args = Some path → path ≠ "".
Proof.
  unfold first_path. intros Hp. apply head_Some_elem_of, list_elem_of_omap in Hp as (arg & _ & Harg).
  unfold file_path in Harg. destruct (ka_File arg); [|done]. by case_bool_decide; simplify_eq.
Qed.

Lemma first_address_nonempty args dst : first_address args = Some dst → dst ≠ "".
Proof.
  unfold first_address. intros Hp. apply head_Some_elem_of, list_elem_of_omap in Hp as (arg & _ & Harg).
  unfold socket_address in Harg. destruct (ka_Sockaddr arg) as [s|]; [|done].
  destruct (bool_decide _ || _) eqn:Eb; [done|]. injection Harg as <-. apply orb_false_iff in Eb as [Ha%bool_decide_eq_false _].
  by destruct (sa_Addr s).
Qed.

(** The behaviours a probe can report *)
Definition probed : list string :=
  [BehaviorProcessExec; BehaviorProcessExit; BehaviorNetworkConnect; BehaviorFileOpen; BehaviorFileRead; BehaviorFileWrite].

Lemma file_behavior_cases p : file_behavior p ∈ [BehaviorFileOpen; BehaviorFileRead; BehaviorFileWrite].
Proof. unfold file_behavior. repeat case_match; set_solver. Qed.

Lemma kprobe_shape env kp ev : kprobeEventToSensor env kp = Some ev → raw_shape ev ∧ se_Behavior ev ∈ probed.
Proof.
  unfold kprobeEventToSensor. intros Hev.
  case_bool_decide; [|case_bool_decide; [|case_bool_decide; [|case_bool_decide; [|done]]]].
  - injection Hev as <-. split; [apply process_shape; set_solver|]. cbn. rewrite known_normal by known. unfold probed. set_solver.
  - injection Hev as <-. split; [apply process_shape; set_solver|]. cbn. rewrite known_normal by known. unfold probed. set_solver.
  - apply fmap_Some in Hev as (dst & Hdst%first_address_nonempty & ->). split.
    + apply sensorEvent_shape; [known|by eauto|]. unfold file_behaviors, BehaviorNetworkConnect. set_solver.
    + cbn. rewrite known_normal by known. unfold probed. set_solver.
  - apply fmap_Some in Hev as (path & Hpath%first_path_nonempty & ->). pose proof (file_behavior_cases (kprobePermission (kp_Args kp))) as Hc. split.
    + apply file_shape; [unfold file_behaviors; set_solver|done].
    + cbn. rewrite known_normal by (unfold AllBehaviors; set_solver). unfold probed. set_solver.
Qed.

Lemma events_of_row_shape env events ev : events_of_row env = Some events → ev ∈ events → raw_shape ev.
Proof.
  unfold events_of_row. destruct (env_ProcessExec env) as [pe|]; [intros [= <-]; apply execEvents_shape|].
  destruct (env_ProcessKprob env) as [kp|].
  - intros [= <-]. destruct (kprobeEventToSensor env kp) as [e|] eqn:Ek; cbn; [|by intros ?%elem_of_nil].
    intros ->%list_elem_of_singleton. by eapply kprobe_shape.
  - destruct (env_ProcessExit env) as [pe|]; [|done]. intros [= <-] ->%list_elem_of_singleton. apply process_shape. set_solver.
Qed.

Lemma grpc_shape resp events ev : eventsFromGRPCResponse resp = Some events → ev ∈ events → raw_shape ev.
Proof.
  unfold eventsFromGRPCResponse. destruct resp as [resp|]; [|done]. destruct (resp_Event resp) as [process parent|process parent|kp|]; [..|done].
  - intros [= <-]. apply execEvents_shape.
  - intros [= <-] ->%list_elem_of_singleton. apply process_shape. set_solver.
  - intros [= <-]. destruct (kprobeEventToSensor _ _) as [e|] eqn:Ek; cbn; [|by intros ?%elem_of_nil].
    intros ->%list_elem_of_singleton. by eapply kprobe_shape.
Qed.

Lemma normalized_shape `{RangeOrder} ev n : raw_shape ev → well_typed (NormalizeEvent ev n).1.
Proof.
  intros (Hk & _ & Hn & Hf). destruct (known_trimmed _ Hk) as [Ht Hne].
  assert (eventBehavior ev = se_Behavior ev) as Hb
    by (unfold eventBehavior; rewrite Ht, bool_decide_eq_false_2 by done; by apply known_normal).
  split; [eexists; split; [reflexivity|apply stable_id_nonempty]|].
  cbn [NormalizeEvent fst ev_Behavior ev_Object]. unfold objectRef. rewrite Hb. generalize dependent (se_Behavior ev). intros b Hk Hn Hf _ _ _.
  destruct (decide (b = BehaviorNetworkConnect)) as [->|Hnet].
  { left. split; [done|]. rewrite (bool_decide_eq_true_2 (BehaviorNetworkConnect = "network.connect")) by done. eexists. split; [done|by apply Hn]. }
  right. rewrite (bool_decide_eq_false_2 (b = "network.connect")) by done.
  destruct (decide (b ∈ file_behaviors)) as [Hfile|Hfile].
  - left. split; [done|]. rewrite (bool_decide_eq_true_2 (b ∈ _)) by exact Hfile. eexists. split; [done|by apply Hf].
  - right. rewrite (bool_decide_eq_false_2 (b ∈ _)) by exact Hfile. split; [|done].
    unfold AllBehaviors, file_behaviors in *. set_solver.
Qed.

(** C39. Whatever Tetragon sends, as a line of JSON or as a gRPC message, the
    canonical events made from it are well typed: the behaviour is one of the
    eight that rules can refer to, there is a subject process with an
    identifier, and the object is what the behaviour acts on, a socket with
    an address for connections, a file with a path for file accesses and
    nothing but the process itself otherwise. *)
Theorem events_well_typed `{RangeOrder} (line : string) (resp : option GetEventsResponse) (events : list SensorEvent) (ev : SensorEvent) (n : Normalizer) :
  ParseLine line = Some events ∨ eventsFromGRPCResponse resp = Some events → ev ∈ events →
  ev_Behavior (NormalizeEvent ev n).1 ∈ AllBehaviors ∧ well_typed (NormalizeEvent ev n).1.
Proof.
  intros Hsrc Hin. assert (raw_shape ev) as Hs.
  { destruct Hsrc as [Hp|Hg]; [|by eapply grpc_shape]. apply bind_Some in Hp as (env & _ & Henv). by eapply events_of_row_shape. }
  pose proof (normalized_shape ev n Hs) as Ht. split; [|done].
  destruct Ht as [_ [[-> _]|[[Hb _]|[Hb _]]]]; unfold AllBehaviors, file_behaviors in *; set_solver.
Qed.
End events.

(** ** No wanted call is filtered out *)

(** The filter of the behaviour asks for the call: the binary prefixes speak
    of the executed file for executions and of the calling process
    otherwise.  A filter without prefixes, or without families, restricts
    nothing. *)
Definition filter_accepts (intent : CollectionIntent) (behavior : string) (call : kernel_call) : Prop :=
  let f := behaviorFilter intent behavior in
  if bool_decide (behavior = BehaviorProcessExec) then
    mergeFilterStrings [cbf_BinaryPrefixes f] = [] ∨
    ∃ path, kc_args call !! 1%Z = Some (FileValue path) ∧ has_prefix_in (mergeFilterStrings [cbf_BinaryPrefixes f]) path
  else if bool_decide (behavior = BehaviorNetworkConnect) then
    binary_matches call (cbf_BinaryPrefixes f) ∧
    ∃ family, kc_args call !! 1%Z = Some (FamilyValue family) ∧ (cbf_SocketFamilies f = [] ∨ family ∈ cbf_SocketFamilies f)
  else if bool_decide (behavior ∈ file_behaviors) then
    binary_matches call (cbf_BinaryPrefixes f) ∧
    ∃ path, kc_args call !! 0%Z = Some (FileValue path) ∧
      (mergeFilterStrings [cbf_FilePrefixes f] = [] ∨ has_prefix_in (mergeFilterStrings [cbf_FilePrefixes f]) path)
  else True.

(** The filter of a file behaviour names prefixes, that of connections names
    families. *)
Definition names_scope (intent : CollectionIntent) (behavior : string) : Prop :=
  let f := behaviorFilter intent behavior in
  (behavior ∈ file_behaviors → mergeFilterStrings [cbf_FilePrefixes f] ≠ []) ∧ (behavior = BehaviorNetworkConnect → cbf_SocketFamilies f ≠ []).

(** The row is Tetragon's report of the call. *)
Definition reports (call : kernel_call) (kp : kprobeEvent) : Prop :=
  kp_Function kp = kc_function call ∧
  (kc_function call = "security_file_permission" → kc_args call !! 1%Z = Some (IntValue (kprobePermission (kp_Args kp)))).

Lemma elem_of_merge lists v : v ∈ mergeFilterStrings lists ↔ v ≠ "" ∧ ∃ x, x ∈ mjoin lists ∧ TrimSpace x = v.
Proof. unfold mergeFilterStrings. rewrite CollectionTheorems.elem_of_distinct. set_solver. Qed.

Lemma merge_pair_nil a b : mergeFilterStrings [a] = [] → mergeFilterStrings [b] = [] → mergeFilterStrings [a; b] = [].
Proof.
  intros Ha Hb. apply list_eq_nil_iff || apply elem_of_nil_inv. intros v (Hv & x & Hx & Ht)%elem_of_merge.
  cbn in Hx. rewrite app_nil_r in Hx. apply elem_of_app in Hx as [Hx|Hx].
  - apply (not_elem_of_nil v). rewrite <- Ha. apply elem_of_merge. split; [done|]. exists x. cbn. by rewrite app_nil_r.
  - apply (not_elem_of_nil v). rewrite <- Hb. apply elem_of_merge. split; [done|]. exists x. cbn. by rewrite app_nil_r.
Qed.

Lemma merge_pair_l a b v : v ∈ mergeFilterStrings [a] → v ∈ mergeFilterStrings [a; b].
Proof. rewrite !elem_of_merge. intros (Hv & x & Hx & Ht). split; [done|]. exists x. split; [|done]. cbn in *. set_solver. Qed.

Lemma file_not_other b : b ∈ file_behaviors → b ≠ BehaviorProcessExec ∧ b ≠ BehaviorNetworkConnect.
Proof. unfold file_behaviors. rewrite !elem_of_cons. by intros [->|[->|[->|[->|?%elem_of_nil]]]]. Qed.

Lemma file_emits intent call behavior access :
  kc_function call = "security_file_permission" → (behavior, access) ∈ [(BehaviorFileOpen, 0); (BehaviorFileRead, 4); (BehaviorFileWrite, 2)]%Z →
  intentHasBehavior intent behavior = true → filter_accepts intent behavior call → names_scope intent behavior →
  Forall (namespace_matches call) (ci_NamespaceSelectors intent) →
  (access = 0%Z ∨ kc_args call !! 1%Z = Some (IntValue access)) → Exists (emits call) (file_probe intent).
Proof.
  intros Hfun Hb Hhas Hacc [Hnames _] Hns Hint. assert (behavior ∈ file_behaviors) as Hf.
  { clear -Hb. unfold file_behaviors. rewrite !elem_of_cons in *. destruct Hb as [[= -> ->]|[[= -> ->]|[[= -> ->]|?%elem_of_nil]]]; tauto. }
  destruct (file_not_other _ Hf) as [Hne1 Hne2]. unfold filter_accepts in Hacc.
  rewrite (bool_decide_eq_false_2 _ Hne1), (bool_decide_eq_false_2 _ Hne2), (bool_decide_eq_true_2 _ Hf) in Hacc.
  specialize (Hnames Hf). destruct Hacc as [Hbin (path & Hpath & [?|Hprefix])]; [done|].
  assert (cbf_FilePrefixes (behaviorFilter intent behavior) ≠ []) as Hnil by (intros E; by rewrite E in Hnames).
  set (sel := file_permission intent behavior access).
  assert (∃ s, sel = [s] ∧ selector_matches call (file_selector s)) as (s & Hs & Hmatch).
  { unfold sel, file_permission. rewrite Hhas. cbn [negb]. eexists. split; [reflexivity|].
    split_and!; [exact Hbin|exact Hns|]. cbn. rewrite (bool_decide_eq_false_2 _ Hnil). constructor.
    - unfold arg_matches. cbn. by rewrite Hpath.
    - destruct (Z.eqb_spec access 0) as [_|Hne]; [constructor|]. constructor; [|constructor]. destruct Hint as [->|Hint]; [done|].
      unfold arg_matches. cbn. rewrite Hint. split; [done|set_solver]. }
  assert (s ∈ filePermissionSelectors intent) as Hin.
  { unfold filePermissionSelectors. rewrite !elem_of_app. assert (s ∈ sel) as Hsel by (rewrite Hs; set_solver). unfold sel in Hsel.
    rewrite !elem_of_cons in Hb. destruct Hb as [[= -> ->]|[[= -> ->]|[[= -> ->]|?%elem_of_nil]]]; tauto. }
  unfold file_probe. rewrite bool_decide_eq_false_2 by (intros Hl%nil_length_inv; rewrite Hl in Hin; by apply elem_of_nil in Hin). constructor. split; [done|]. right.
  apply list.Exists_exists. exists (file_selector s). split; [|done]. cbn [k_selectors]. apply list_elem_of_fmap. by exists s.
Qed.

Lemma exec_emits intent call :
  kc_function call = "security_bprm_creds_from_file" → intentHasBehavior intent BehaviorProcessExec = true →
  filter_accepts intent BehaviorProcessExec call → Forall (namespace_matches call) (ci_NamespaceSelectors intent) →
  (mergeFilterStrings [cbf_BinaryPrefixes (behaviorFilter intent BehaviorProcessExec)] ≠ [] ∨
   mergeFilterStrings [cbf_BinaryPrefixes (behaviorFilter intent BehaviorProcessFork)] = []) →
  Exists (emits call) (exec_probe intent).
Proof.
  intros Hfun Hhas Hacc Hns Hfork. unfold filter_accepts in Hacc. rewrite bool_decide_eq_true_2 in Hacc by done.
  unfold exec_probe. cbn [intentHasAnyBehavior existsb]. rewrite Hhas. cbn [orb negb].
  set (a := cbf_BinaryPrefixes (behaviorFilter intent BehaviorProcessExec)) in *.
  set (b := cbf_BinaryPrefixes (behaviorFilter intent BehaviorProcessFork)) in *. constructor. split; [done|].
  cbn [k_selectors]. destruct (bool_decide (mergeFilterStrings [a; b] = []) && _); [by left|right]. constructor.
  split_and!; [by left|exact Hns|]. cbn [sel_args]. case_bool_decide as Hne; [constructor|]. constructor; [|constructor].
  destruct Hacc as [Hnil|(path & Hpath & p & Hp & Hpre)].
  - destruct Hfork as [?|Hb]; [done|]. by destruct Hne; apply merge_pair_nil.
  - unfold arg_matches. cbn. rewrite Hpath. split; [done|]. exists p. split; [by apply merge_pair_l|done].
Qed.

Lemma connect_emits intent call :
  kc_function call = "security_socket_connect" → intentHasBehavior intent BehaviorNetworkConnect = true →
  filter_accepts intent BehaviorNetworkConnect call → names_scope intent BehaviorNetworkConnect →
  Forall (namespace_matches call) (ci_NamespaceSelectors intent) → Exists (emits call) (connect_probe intent).
Proof.
  intros Hfun Hhas Hacc [_ Hnames] Hns. specialize (Hnames eq_refl). unfold filter_accepts in Hacc.
  rewrite (bool_decide_eq_false_2 (BehaviorNetworkConnect = BehaviorProcessExec)), bool_decide_eq_true_2 in Hacc by done.
  destruct Hacc as [Hbin (family & Hfam & [?|Hin])]; [done|]. unfold connect_probe. rewrite Hhas. cbn [negb]. constructor. split; [done|]. right.
  constructor. split_and!; [exact Hbin|exact Hns|]. constructor; [|constructor]. unfold arg_matches. cbn. rewrite Hfam.
  by rewrite (bool_decide_eq_false_2 _ Hnames).
Qed.

(** C24. The tracing policy that an intent is compiled to loses no event that
    the intent asks for: a call of a probed function, in the namespaces the
    intent is limited to, that is reported with a behaviour of the intent and
    that the filter of this behaviour accepts, passes the selectors of a
    probe of the policy.  The filter of a file behaviour must name file
    prefixes, and that of connections socket families: without them the
    compiler falls back on its own lists, and calls outside these are lost
    ([unnamed_scope_dropped]).  For executions the filter of executions must
    name binaries or that of forks not, since the two share one probe. *)
Theorem collection_complete `{SensorText} (env : envelope) (kp : kprobeEvent) (ev : SensorEvent) (intent : CollectionIntent) (call : kernel_call) :
  kprobeEventToSensor env kp = Some ev → reports call kp →
  intentHasBehavior intent (se_Behavior ev) = true → filter_accepts intent (se_Behavior ev) call → names_scope intent (se_Behavior ev) →
  Forall (namespace_matches call) (ci_NamespaceSelectors intent) →
  (se_Behavior ev = BehaviorProcessExec →
     mergeFilterStrings [cbf_BinaryPrefixes (behaviorFilter intent BehaviorProcessExec)] ≠ [] ∨
     mergeFilterStrings [cbf_BinaryPrefixes (behaviorFilter intent BehaviorProcessFork)] = []) →
  Exists (emits call) (kprobes intent).
Proof.
  intros Hev [Hfun Hperm] Hhas Hacc Hsc Hns Hexec. unfold kprobes. rewrite !Exists_app. unfold kprobeEventToSensor in Hev. rewrite Hfun in Hev.
  case_bool_decide as H1; [|case_bool_decide as H2; [|case_bool_decide as H3; [|case_bool_decide as H4; [|done]]]].
  - injection Hev as <-. cbn in Hhas, Hacc, Hexec. rewrite known_normal in Hhas, Hacc, Hexec by known. left. by apply exec_emits; [..|apply Hexec].
  - injection Hev as <-. cbn in Hhas. rewrite known_normal in Hhas by known. right. left. unfold exit_probe. rewrite Hhas. constructor. split; [done|by left].
  - apply fmap_Some in Hev as (dst & _ & ->). cbn in Hhas, Hacc, Hsc. rewrite known_normal in Hhas, Hacc, Hsc by known. right. right. left. by apply connect_emits.
  - apply fmap_Some in Hev as (path & _ & ->). cbn in Hhas, Hacc, Hsc.
    rewrite known_normal in Hhas, Hacc, Hsc by (unfold file_behavior; repeat case_match; known). do 3 right. specialize (Hperm H4).
    unfold file_behavior in *. destruct (Z.eqb_spec (kprobePermission (kp_Args kp)) 2) as [E2|N2]; [|destruct (Z.eqb_spec (kprobePermission (kp_Args kp)) 4) as [E4|N4]].
    + eapply (file_emits _ _ BehaviorFileWrite 2); [done|set_solver|done..|]. right. by rewrite <- E2.
    + eapply (file_emits _ _ BehaviorFileRead 4); [done|set_solver|done..|]. right. by rewrite <- E4.
    + eapply (file_emits _ _ BehaviorFileOpen 0); [done|set_solver|done..|]. by left.
Qed.

(** Of a call that is executed, what the policy of a fork asks for is asked
    of it too: an intent that wants all executions and the forks of one
    binary is compiled to a policy that reports no other execution. *)
Definition starving_intent : CollectionIntent :=
  MkCollectionIntent [BehaviorProcessExec; BehaviorProcessFork] [] [] [] [] []
    [MkCollectionBehaviorFilter BehaviorProcessExec [] [] [] [] [];
     MkCollectionBehaviorFilter BehaviorProcessFork ["/usr/sbin/nginx"] [] [] [] []] [] "host" "" true [].

Definition exec_call (path : string) : kernel_call :=
  MkKernelCall "security_bprm_creds_from_file" "/bin/bash" ∅ {[1%Z := FileValue path]}.

Lemma starving_probes : kprobes starving_intent =
  [MkKprobe "security_bprm_creds_from_file" false [(0%Z, "nop"); (1%Z, "file")]
     [MkSelector [] [] [MkArgMatch 1 "Prefix" ["/usr/sbin/nginx"]]]].
Proof. vm_compute. reflexivity. Qed.

Lemma executions_starved :
  filter_accepts starving_intent BehaviorProcessExec (exec_call "/tmp/dropper") ∧
  ¬ Exists (emits (exec_call "/tmp/dropper")) (kprobes starving_intent).
Proof.
  split; [left; vm_compute; reflexivity|]. rewrite starving_probes. intros [[_ [?|Hsel]]|Hn]%Exists_cons; [done| |by apply Exists_nil in Hn].
  apply Exists_cons in Hsel as [(_ & _ & Ha)|Hn]; [|by apply Exists_nil in Hn]. apply Forall_cons_iff in Ha as [[_ (p & Hp & Hpre)] _].
  apply list_elem_of_singleton in Hp as ->. by vm_compute in Hpre.
Qed.

(** The default transport asks Tetragon for probe events only, and none of
    them is a fork or a change of mode. *)
Lemma no_fork_no_chmod `{SensorText} env kp ev :
  kprobeEventToSensor env kp = Some ev → se_Behavior ev ∉ [BehaviorProcessFork; BehaviorFileChmod].
Proof. intros [_ Hp]%kprobe_shape. unfold probed in Hp. rewrite !elem_of_cons in *. intros Hb. destruct_or!; try (by apply elem_of_nil in Hb); try (by apply elem_of_nil in Hp); rewrite Hp in Hb; discriminate Hb. Qed.

(** ** A read of the password file *)

Definition demo_process : tetragonProcess := MkTetragonProcess 10 0 "x10" "/bin/cat" "/etc/passwd" "execve" "" "x1" "".

Definition demo_kprobe : kprobeEvent :=
  MkKprobeEvent demo_process zero_process "security_file_permission"
    [MkKprobeArg (Some (MkFileArg "/etc/passwd" "")) None None; MkKprobeArg None None (Some 4%Z)] "" no_arg.

Definition demo_row : envelope := MkEnvelope "node" "" None None (Some demo_kprobe).

Definition demo_sensor : SensorText :=
  {| decode_envelope _ := Some demo_row; decode_health _ := None; parse_time _ := None; format_time _ := ""; marshal_response _ := None |}.

Definition demo_read : SensorEvent :=
  sensorEvent (H := demo_sensor) demo_row demo_process zero_process BehaviorFileRead (Some (path_object "/etc/passwd")).

Definition read_filter (prefixes : list string) : CollectionIntent :=
  MkCollectionIntent ["file.read"] [] [] [] [] [] [MkCollectionBehaviorFilter "file.read" [] prefixes [] [] []] [] "host" "" true [].
Definition read_intent : CollectionIntent := read_filter ["/etc"].

Definition read_call : kernel_call :=
  MkKernelCall "security_file_permission" "/bin/cat" ∅ {[0%Z := FileValue "/etc/passwd"; 1%Z := IntValue 4]}.

Lemma demo_reads : kprobeEventToSensor (H := demo_sensor) demo_row demo_kprobe = Some demo_read.
Proof. reflexivity. Qed.

Lemma demo_behavior : se_Behavior demo_read = BehaviorFileRead.
Proof. apply known_normal. known. Qed.

Lemma demo_accepts : filter_accepts read_intent BehaviorFileRead read_call.
Proof. split; [by left|]. exists "/etc/passwd". split; [reflexivity|]. right. exists "/etc". split; [|reflexivity]. vm_compute. set_solver. Qed.

Lemma demo_names : names_scope read_intent BehaviorFileRead.
Proof. split; intros E; [|exfalso; clear -E; discriminate E]. clear. vm_compute. discriminate. Qed.

(** Without prefixes the compiled policy has those of the compiler: the report
    on the intent warns that all reads are passed, and the read of a file
    elsewhere is not. *)
Definition home_call : kernel_call :=
  MkKernelCall "security_file_permission" "/bin/cat" ∅ {[0%Z := FileValue "/home/alice/notes"; 1%Z := IntValue 4]}.

Lemma unnamed_probes : kprobes (read_filter []) =
  [MkKprobe "security_file_permission" true [(0%Z, "file"); (1%Z, "int")]
     [MkSelector [] [] [MkArgMatch 0 "Prefix" ["/root/.ssh"; "/var/run/secrets"; "/etc/passwd"; "/etc/shadow"; "/etc/sudoers"]; MkArgMatch 1 "Equal" ["4"]]]].
Proof. vm_compute. reflexivity. Qed.

Lemma unnamed_scope_dropped :
  filter_accepts (read_filter []) BehaviorFileRead home_call ∧ ¬ Exists (emits home_call) (kprobes (read_filter [])).
Proof.
  split. { split; [by left|]. eexists. split; [reflexivity|]. left. vm_compute. reflexivity. }
  rewrite unnamed_probes. intros [[_ [?|Hsel]]|Hn]%Exists_cons; [done| |by apply Exists_nil in Hn].
  apply Exists_cons in Hsel as [(_ & _ & Ha)|Hn]; [|by apply Exists_nil in Hn]. apply Forall_cons_iff in Ha as [[_ (p & Hp & Hpre)] _].
  by repeat (apply elem_of_cons in Hp as [->|Hp]; [by vm_compute in Hpre|]); apply elem_of_nil in Hp.
Qed.

Lemma events_well_typed_witness :
  well_typed (NormalizeEvent (H := elements_order) demo_read (New (H := elements_order) "agent" "host" None)).1.
Proof.
  apply (events_well_typed (H := demo_sensor) (H0 := elements_order) "row" None [demo_read] demo_read).
  - left. reflexivity.
  - by apply list_elem_of_singleton.
Defined.

Lemma collection_complete_witness : Exists (emits read_call) (kprobes read_intent).
Proof.
  apply (collection_complete (H := demo_sensor) demo_row demo_kprobe demo_read read_intent read_call demo_reads).
  - split; reflexivity.
  - rewrite demo_behavior. vm_compute. reflexivity.
  - rewrite demo_behavior. apply demo_accepts.
  - rewrite demo_behavior. apply demo_names.
  - constructor.
  - rewrite demo_behavior. discriminate.
Defined.
End TetragonTheorems.
