(* ===== verification/TetragonBackend.v ===== *)
(** * The Tetragon sensor: the backend ([backend.go], [scope_identity.go])

    The backend keeps the intent it was given, brings the tracing policy of
    the kernel in line with it by calling the tool [tetra], and passes on the
    events that are in the intent and in scope.  The tool is the parameter
    [tetra] (class [Tetra]): a function of the files it may read, its
    arguments and the state of the kernel; what the code relies on is the
    class [TetraLaws].  The rest of the operating system is the class [Host];
    a retry waits a second and gives up after thirty, so that thirty-two rounds
    are enough ([rounds_enough]). *)

From S2P Require Import Prelude GoStrings GoBytes GoData GoSha GoText EventModel Policy Response PolicyModel Normalize TetragonAdapter Collection CollectionTheorems TetragonPolicy TetragonTheorems.

Module TetragonBackend.
Import EventModel Policy Normalize TetragonAdapter Collection TetragonPolicy.

(** ** State *)

Record BundleConfig := MkBundleConfig {
  bc_BundleDir : string;
  bc_InstallDir : string;
  bc_TetraPath : string;
  bc_TetragonPath : string
}.

Record Backend := MkBackend {
  b_PolicyPath : string;
  b_EventSource : string;
  b_EventTransport : string;
  b_ServerAddress : string;
  b_Version : string;
  b_Bundle : BundleConfig;
  b_CgroupRate : string;
  b_PprofAddress : string;
  b_GopsAddress : string;
  b_ProcessCacheSize : Z;
  b_DataCacheSize : Z;
  b_EventQueueSize : Z;
  b_RBQueueSize : string;
  b_ScopeType : string;
  b_ScopeSelector : string;
  b_namespaceSelfContainerID : string;
  b_intent : CollectionIntent;
  b_policyLoaded : bool;
  b_running : bool;
  b_installed : bool;
  b_eventsSeen : Z;
  b_eventsDropped : Z;
  b_parseErrors : Z;
  b_lastEventAt : Time;
  b_lastError : string;
  b_runtimePolicyApplied : bool
}.

Global Instance Backend_eta : Settable Backend := λ x,
  MkBackend (b_PolicyPath x) (b_EventSource x) (b_EventTransport x) (b_ServerAddress x) (b_Version x) (b_Bundle x)
    (b_CgroupRate x) (b_PprofAddress x) (b_GopsAddress x) (b_ProcessCacheSize x) (b_DataCacheSize x) (b_EventQueueSize x)
    (b_RBQueueSize x) (b_ScopeType x) (b_ScopeSelector x) (b_namespaceSelfContainerID x) (b_intent x) (b_policyLoaded x)
    (b_running x) (b_installed x) (b_eventsSeen x) (b_eventsDropped x) (b_parseErrors x) (b_lastEventAt x) (b_lastError x)
    (b_runtimePolicyApplied x).

Definition NewBackendWithBundle (policyPath eventSource version : string) (bundle : BundleConfig) : Backend :=
  MkBackend policyPath eventSource "" "" (if bool_decide (version = "") then "unknown" else version) bundle "" "" "" 0 0 0 "" "" "" ""
    zero_CollectionIntent false false false 0 0 0 zero_time "" false.

Definition NewBackend (policyPath eventSource version : string) : Backend :=
  NewBackendWithBundle policyPath eventSource version (MkBundleConfig "" "" "" "").

(** ** Scopes *)

Definition is_hex (c : Ascii.ascii) : bool :=
  let b := byte_val c in
  ((48 <=? b) && (b <=? 57) || (65 <=? b) && (b <=? 70) || (97 <=? b) && (b <=? 102))%Z.

Definition is_lower_hex (c : Ascii.ascii) : bool :=
  let b := byte_val c in ((48 <=? b) && (b <=? 57) || (97 <=? b) && (b <=? 102))%Z.

Fixpoint take_while (p : Ascii.ascii → bool) (limit : nat) (l : list Ascii.ascii) : list Ascii.ascii :=
  match limit, l with
  | S limit', c :: l' => if p c then c :: take_while p limit' l' else []
  | _, _ => []
  end.

(** The matches of [[0-9a-fA-F]{32,64}], from left to right *)
Fixpoint container_ids (fuel : nat) (l : list Ascii.ascii) : list (list Ascii.ascii) :=
  match fuel, l with
  | S fuel', _ :: rest =>
    let m := take_while is_hex 64 l in
    if (32 <=? length m)%nat then m :: container_ids fuel' (drop (length m) l) else container_ids fuel' rest
  | _, _ => []
  end.

Definition containerIDFromCgroup (data : string) : string :=
  let l := String.list_ascii_of_string data in
  let longest := foldl (λ longest candidate, if (length longest <? length candidate)%nat then candidate else longest) [] (container_ids (length l) l) in
  ToLower (String.string_of_list_ascii longest).

(** [^[0-9a-f]+$] *)
Definition valid_container_id (s : string) : bool :=
  negb (bool_decide (s = "")) && forallb is_lower_hex (String.list_ascii_of_string s).

Definition containerIDsMatch (eventID selector : string) : bool :=
  let eventID := ToLower (TrimSpace eventID) in
  let selector := ToLower (TrimSpace selector) in
  if bool_decide (eventID = "") || bool_decide (selector = "") then false
  else if HasPrefix eventID selector then true
  else (12 <=? String.length eventID)%nat && valid_container_id eventID && valid_container_id selector && HasPrefix selector eventID.

Definition matchesScope (b : Backend) (event : SensorEvent) : bool :=
  let scopeType := TrimSpace (b_ScopeType b) in
  let scopeSelector := TrimSpace (b_ScopeSelector b) in
  let by_cgroup := HasPrefix (rp_Cgroup (GetProc event)) scopeSelector in
  if bool_decide (scopeType ∈ [""; "host"]) then true
  else if bool_decide (scopeType = "container") then containerIDsMatch (se_ContainerId event) scopeSelector
  else if bool_decide (scopeType = "cgroup") then by_cgroup
  else if bool_decide (scopeType = "namespace") then
    if bool_decide (scopeSelector = "self") && negb (bool_decide (ci_NamespaceSelectors (b_intent b) = [])) then
      if bool_decide (b_namespaceSelfContainerID b = "") then bool_decide (se_ContainerId event = "")
      else containerIDsMatch (se_ContainerId event) (b_namespaceSelfContainerID b)
    else by_cgroup
  else if bool_decide (scopeType = "pod") then HasPrefix (se_ContainerId event) scopeSelector
  else false.

Definition matchesIntentBehavior (b : Backend) (behavior : string) : bool :=
  if bool_decide (ci_Behaviors (b_intent b) = []) then true else intentHasBehavior (b_intent b) behavior.

(** ** Events *)

Record EventEnvelope := MkEventEnvelope {
  ee_SensorEvent : SensorEvent;
  ee_RawRef : string;
  ee_ReceivedAt : Time
}.

Definition incEvent (at_ : Time) (b : Backend) : Backend :=
  b <| b_eventsSeen ::= λ n, u64 (n + 1) |> <| b_lastEventAt := at_ |>.

Definition incParseError (msg : string) (b : Backend) : Backend :=
  b <| b_parseErrors ::= λ n, u64 (n + 1) |> <| b_lastError := msg |>.

Definition incDroppedEvents (count : Z) (b : Backend) : Backend :=
  if (count =? 0)%Z then b
  else
    let dropped := u64 (b_eventsDropped b + count) in
    b <| b_eventsDropped := dropped |> <| b_lastError := "tetragon dropped events: " +:+ FormatUint dropped |>.

Definition setError (err : option string) (b : Backend) : Backend :=
  match err with Some msg => b <| b_lastError := msg |> | None => b end.

Definition setRunning (running : bool) (b : Backend) : Backend := b <| b_running := running |>.

(** The events of one row that are passed on; the receiver takes them all.
    [now] is the clock at the time of each. *)
Definition pass_event (rawRef : string) (now : SensorEvent → Time) (acc : list EventEnvelope * Backend) (event : SensorEvent)
    : list EventEnvelope * Backend :=
  let '(out, b) := acc in
  if negb (matchesIntentBehavior b (se_Behavior event)) then acc
  else if negb (matchesScope b event) then acc
  else
    let event' := event <| se_RawRef := rawRef when bool_decide (se_RawRef event = "") |> in
    (out ++ [MkEventEnvelope event' (se_RawRef event') (now event)], incEvent (now event) b).

Definition pass_events (rawRef : string) (now : SensorEvent → Time) (events : list SensorEvent) (b : Backend) : list EventEnvelope * Backend :=
  foldl (pass_event rawRef now) ([], b) events.

Section loop.
Context `{SensorText}.

(** One turn of the loop over lines *)
Definition receive_line (now : SensorEvent → Time) (line : string) (b : Backend) : list EventEnvelope * Backend :=
  if bool_decide (line = "") then ([], b)
  else
    let '(dropped, ok) := ParseDroppedEvents line in
    if ok : bool then ([], incDroppedEvents dropped b)
    else match ParseLine line with
    | None => ([], incParseError "unrecognized tetragon event" b)
    | Some events => pass_events (rawRefForLine line) now events b
    end.

(** One turn of the loop over gRPC messages *)
Definition receive_message (now : SensorEvent → Time) (resp : GetEventsResponse) (b : Backend) : list EventEnvelope * Backend :=
  match eventsFromGRPCResponse (Some resp) with
  | None => ([], incParseError "unrecognized tetragon grpc event" b)
  | Some events => pass_events (rawRefForProto resp) now events b
  end.

Fixpoint receive_lines (now : nat → SensorEvent → Time) (lines : list string) (b : Backend) : list EventEnvelope * Backend :=
  match lines with
  | [] => ([], b)
  | line :: lines' =>
    let '(out, b) := receive_line (now (length lines')) line b in
    let '(more, b) := receive_lines now lines' b in
    (out ++ more, b)
  end.
End loop.

(** ** Arguments of the processes *)

Definition defaultTetragonServerAddress : string := "unix:///var/run/tetragon/tetragon.sock".

Definition useGRPCEventSource (b : Backend) : bool :=
  if negb (bool_decide (b_EventSource b = "")) then false
  else bool_decide (TrimSpace (b_EventTransport b) ∈ [""; "grpc"]).

Definition requiresManagedSensorReady (b : Backend) : bool :=
  negb (bool_decide (bc_BundleDir (b_Bundle b) = "")) && negb (bool_decide (bc_InstallDir (b_Bundle b) = "")) &&
  negb (bool_decide (bc_TetragonPath (b_Bundle b) = "")).

Definition tetraEventTypesForIntent (intent : CollectionIntent) : list string :=
  if existsb (λ behavior, bool_decide (NormalizeBehavior behavior ∈ AllBehaviors)) (ci_Behaviors intent) then ["PROCESS_KPROBE"] else [].

Definition tetraGetEventsArgs (intent : CollectionIntent) : list string :=
  let eventTypes := tetraEventTypesForIntent intent in
  ["getevents"; "-o"; "json"; "--policy-names"; runtimeTracingPolicyName] ++
  (if bool_decide (eventTypes = []) then [] else ["--event-types"; Join eventTypes ","]).

Definition bundleRuntimeDir (binaryPath : string) : string :=
  if bool_decide (TrimSpace binaryPath = "") then ""
  else let dir := Dir binaryPath in if bool_decide (Base dir = "bin") then Dir dir else dir.

(** [exists_ path]: [os.Stat] finds the path *)
Definition bundleTetragonLibDir (exists_ : string → bool) (tetragonPath : string) : string :=
  if bool_decide (TrimSpace tetragonPath = "") then ""
  else
    let root := Dir (Dir tetragonPath) in
    default "" (find_first exists_ [JoinPath [root; "lib"; "tetragon"; "bpf"]; JoinPath [root; "usr"; "local"; "lib"; "tetragon"; "bpf"]]).

Definition defaultTetragonArgs (exists_ : string → bool) : list string :=
  ["--log-level"; "warn"; "--metrics-server"; ""; "--health-server-address"; ""; "--enable-tracing-policy-crd=false";
   "--enable-process-cred=false"; "--enable-process-ns=false"; "--enable-process-environment-variables=false";
   "--enable-ancestors"; ""; "--enable-k8s-api=false"; "--enable-pod-annotations=false"] ++
  (if exists_ "/sys/kernel/btf/vmlinux" then ["--btf"; "/sys/kernel/btf/vmlinux"] else []).

Definition text_arg (name value : string) : list string :=
  if bool_decide (TrimSpace value = "") then [] else [name; TrimSpace value].
Definition size_arg (name : string) (value : Z) : list string := if (0 <? value)%Z then [name; FormatInt value] else [].

Definition tetragonArgs (exists_ : string → bool) (b : Backend) (tetragonPath : string) : list string :=
  let libPath := bundleTetragonLibDir exists_ tetragonPath in
  defaultTetragonArgs exists_ ++ (if bool_decide (libPath = "") then [] else ["--bpf-lib"; libPath]) ++
  (if useGRPCEventSource b then ["--server-address"; firstNonEmpty [b_ServerAddress b; defaultTetragonServerAddress]] else []) ++
  text_arg "--cgroup-rate" (b_CgroupRate b) ++ text_arg "--pprof-address" (b_PprofAddress b) ++ text_arg "--gops-address" (b_GopsAddress b) ++
  size_arg "--process-cache-size" (b_ProcessCacheSize b) ++ size_arg "--data-cache-size" (b_DataCacheSize b) ++
  size_arg "--event-queue-size" (b_EventQueueSize b) ++ text_arg "--rb-queue-size" (b_RBQueueSize b).

(** ** The tracing policy of the kernel *)

(** [os_write]: the error of writing a file, if any; [os_now n] and
    [os_cancelled n]: the clock and the context at the [n]-th call *)
Class Host := {
  os_readlink : string → result string;
  os_read : string → result string;
  os_exists : string → result unit;
  os_write : string → option string;
  os_temp : string;
  os_now : nat → Time;
  os_cancelled : nat → option string
}.

(** The output and the error of a run of the tool, and the kernel after it *)
Class Tetra (K : Type) := { tetra : gmap string string → list string → K → string * option string * K }.

(** What the code takes for granted of the tool: [loaded k] is the text of
    the policy with the backend's name that is loaded in [k]. *)
Class TetraLaws {K} `{Tetra K} (loaded : K → option string) := {
  add_ok files path k out k' :
    tetra files ["tracingpolicy"; "add"; path] k = (out, None, k') → loaded k' = files !! path;
  add_failed files path k out e k' :
    tetra files ["tracingpolicy"; "add"; path] k = (out, Some e, k') → loaded k' = loaded k;
  add_exists files path k out e k' :
    tetra files ["tracingpolicy"; "add"; path] k = (out, Some e, k') →
    Contains (ToLower (TrimSpace out)) "already exists" = true → loaded k ≠ None;
  delete_ok files k out k' :
    tetra files ["tracingpolicy"; "delete"; runtimeTracingPolicyName] k = (out, None, k') → loaded k' = None;
  delete_failed files k out e k' :
    tetra files ["tracingpolicy"; "delete"; runtimeTracingPolicyName] k = (out, Some e, k') → loaded k' = loaded k;
  delete_missing files k out e k' :
    tetra files ["tracingpolicy"; "delete"; runtimeTracingPolicyName] k = (out, Some e, k') →
    (Contains (ToLower (TrimSpace out)) "not found" || Contains (ToLower (TrimSpace out)) "notfound" ||
     Contains (ToLower (TrimSpace out)) "not exist") = true → loaded k = None;
  list_keeps files k out e k' :
    tetra files ["tracingpolicy"; "list"] k = (out, e, k') → loaded k' = loaded k
}.

Fixpoint digits_value (acc : Z) (s : string) : option Z :=
  match s with
  | EmptyString => Some acc
  | String c s' =>
    let d := (byte_val c - 48)%Z in
    if (0 <=? d)%Z && (d <=? 9)%Z then digits_value (acc * 10 + d)%Z s' else None
  end.

(** [strconv.ParseUint(s, 10, 64)] succeeds *)
Definition is_uint64 (s : string) : bool :=
  if bool_decide (s = "") then false
  else match digits_value 0 s with Some v => (v <? 2 ^ 64)%Z | None => false end.

Definition namespaceInode (link : string) : option string :=
  match index_of_byte link "["%char, index_of_byte link "]"%char with
  | Some start, Some stop =>
    if (stop <=? start + 1)%nat then None
    else
      let inode := String.substring (start + 1) (stop - (start + 1)) link in
      if is_uint64 inode then Some inode else None
  | _, _ => None
  end.

Section policy.
Context `{Unicode} `{Host} {K : Type} `{Tetra K}.

Definition self_namespace (name ty : string) : result NamespaceSelector :=
  match os_readlink (JoinPath ["/proc/self/ns"; name]) with
  | Err msg => Err ("resolve namespace scope " +:+ name +:+ ": " +:+ msg)
  | Ok link =>
    match namespaceInode link with
    | None => Err ("resolve namespace scope " +:+ name +:+ ": unexpected link " +:+ Quote link)
    | Some inode => Ok (MkNamespaceSelector ty [inode])
    end
  end.

Definition selfNamespaceSelectors : result (list NamespaceSelector) :=
  pid ← self_namespace "pid" "Pid";
  mnt ← self_namespace "mnt" "Mnt";
  mret [pid; mnt].

Definition resolveNamespaceScope (intent : CollectionIntent) : result CollectionIntent :=
  if negb (bool_decide (ci_ScopeType intent = "namespace")) || negb (bool_decide (ci_ScopeSelector intent = "self")) ||
     negb (bool_decide (ci_NamespaceSelectors intent = []))
  then Ok intent
  else
    selectors ← selfNamespaceSelectors;
    mret (intent <| ci_NamespaceSelectors := selectors |>).

Definition validateSupportedScope (intent : CollectionIntent) : result unit :=
  if bool_decide (ci_ScopeType intent ∈ [""; "host"; "container"; "cgroup"; "namespace"; "pod"]) then Ok tt
  else Err ("tetragon backend scope " +:+ Quote (ci_ScopeType intent) +:+ " is not supported").

Definition runningInContainer : bool :=
  existsb (λ marker, match os_exists marker with Ok _ => true | Err _ => false end) ["/.dockerenv"; "/run/.containerenv"].

Definition resolveNamespaceSelfContainerID (intent : CollectionIntent) : result string :=
  if negb (bool_decide (ci_ScopeType intent = "namespace")) || negb (bool_decide (ci_ScopeSelector intent = "self")) then Ok ""
  else match os_read "/proc/self/cgroup" with
  | Err msg => Err ("resolve namespace/self cgroup: " +:+ msg)
  | Ok data =>
    let id := containerIDFromCgroup data in
    if negb (bool_decide (id = "")) then Ok id
    else if runningInContainer then Err "resolve namespace/self container id: start the container with --cgroupns=host"
    else Ok ""
  end.

(** The checks [Apply] makes of an intent: the intent it goes on with and the
    identifier of the container *)
Definition check_intent (policyPath : string) (intent : CollectionIntent) : result (CollectionIntent * string) :=
  if bool_decide (policyPath = "") then Err "tetragon policy path is required"
  else
    normalized ← normalize_intent_scope intent;
    normalized ← resolveNamespaceScope normalized;
    _ ← validateSupportedScope normalized;
    selfContainerID ← resolveNamespaceSelfContainerID normalized;
    mret (normalized, selfContainerID).

(** *** The world *)

Record world := MkWorld {
  w_backend : Backend;
  w_files : gmap string string;
  w_kernel : K;
  w_calls : nat
}.

Instance world_eta : Settable world := λ x, MkWorld (w_backend x) (w_files x) (w_kernel x) (w_calls x).

Definition call {A} (f : nat → A) : StateM world A := λ w, (f (w_calls w), w <| w_calls ::= S |>).
Definition on_backend (f : Backend → Backend) : StateM world unit := modify (λ w, w <| w_backend ::= f |>).

(** [exec.CommandContext(..).CombinedOutput()] *)
Definition run_tetra (args : list string) : StateM world (string * option string) := λ w,
  let '(out, err, k) := tetra (w_files w) args (w_kernel w) in ((out, err), w <| w_kernel := k |>).

(** [fmt.Errorf("..: %w")], with the output when there is any *)
Definition tool_error (context e out : string) : string :=
  if bool_decide (out = "") then context +:+ ": " +:+ e else context +:+ ": " +:+ e +:+ ": " +:+ out.

Definition writeTracingPolicy (intent : CollectionIntent) (name : string) : StateM world (result string) := λ w,
  let dir := Dir (b_PolicyPath (w_backend w)) in
  let dir := if bool_decide (dir ∈ ["."; ""]) then os_temp else dir in
  let path := JoinPath [dir; name] in
  match os_write path with
  | Some msg => (Err ("write tetragon tracing policy: " +:+ msg), w)
  | None => (Ok path, w <| w_files ::= <[path := buildTracingPolicy intent]> |>)
  end.

Definition renderTracingPolicy (intent : CollectionIntent) : StateM world (result string) :=
  writeTracingPolicy intent "sysarmor-runtime-tracingpolicy.yaml".

Definition policy_missing (out : string) : bool :=
  Contains (ToLower out) "not found" || Contains (ToLower out) "notfound" || Contains (ToLower out) "not exist".

Definition deleteTracingPolicy : StateM world (option string) :=
  r ← run_tetra ["tracingpolicy"; "delete"; runtimeTracingPolicyName];
  match r.2 with
  | None => mret None
  | Some e =>
    if policy_missing (TrimSpace r.1) then mret None
    else mret (Some (tool_error ("delete tetragon tracing policy " +:+ runtimeTracingPolicyName) e (TrimSpace r.1)))
  end.

Definition verifyTracingPolicy (name : string) : StateM world (option string) :=
  r ← run_tetra ["tracingpolicy"; "list"];
  match r.2 with
  | Some e => mret (Some (tool_error ("verify tetragon tracing policy " +:+ name) e (TrimSpace r.1)))
  | None =>
    if Contains (TrimSpace r.1) name then mret None
    else mret (Some ("verify tetragon tracing policy " +:+ name +:+ ": not listed"))
  end.

Fixpoint apply_rounds (ctx : nat → option string) (rounds : nat) (deadline : Time) (path : string) : StateM world (option string) :=
  r ← run_tetra ["tracingpolicy"; "add"; path];
  match r.2 with
  | None => verifyTracingPolicy runtimeTracingPolicyName
  | Some e =>
    if Contains (ToLower (TrimSpace r.1)) "already exists" then verifyTracingPolicy runtimeTracingPolicyName
    else
      let lastErr := tool_error "apply tetragon tracing policy" e (TrimSpace r.1) in
      now ← call os_now;
      if After now deadline then mret (Some lastErr)
      else
        cancelled ← call ctx;
        match cancelled, rounds with
        | Some msg, _ => mret (Some msg)
        | None, O => mret (Some lastErr)
        | None, S rounds' => apply_rounds ctx rounds' deadline path
        end
  end.

Definition thirty_seconds : Z := (30 * 10 ^ 9)%Z.

Definition applyTracingPolicy (ctx : nat → option string) (path : string) : StateM world (option string) :=
  now ← call os_now;
  apply_rounds ctx 31 (now + thirty_seconds)%Z path.

(** [context.Background()] *)
Definition Background : nat → option string := λ _, None.

Definition liveApplyTracingPolicy (oldIntent newIntent : CollectionIntent) (oldRuntimePolicyApplied : bool) : StateM world (option string) :=
  let oldNeeds := oldRuntimePolicyApplied && needsTracingPolicy oldIntent in
  let newNeeds := needsTracingPolicy newIntent in
  if negb oldNeeds && negb newNeeds then mret None
  else
    old ← (if oldNeeds then writeTracingPolicy oldIntent "sysarmor-runtime-tracingpolicy-rollback.yaml" else mret (Ok ""));
    match old with
    | Err msg => mret (Some msg)
    | Ok oldPath =>
      deleted ← (if oldNeeds then deleteTracingPolicy else mret None);
      match deleted with
      | Some msg => mret (Some msg)
      | None =>
        if negb newNeeds then mret None
        else
          rendered ← renderTracingPolicy newIntent;
          match rendered with
          | Err msg => mret (Some msg)
          | Ok newPath =>
            failed ← applyTracingPolicy os_cancelled newPath;
            match failed with
            | Some msg => (if oldNeeds && negb (bool_decide (oldPath = "")) then applyTracingPolicy Background oldPath else mret None) ;; mret (Some msg)
            | None => mret None
            end
          end
      end
    end.

(** [b.setError(err); return err] *)
Definition fail (msg : string) : StateM world (option string) := on_backend (setError (Some msg)) ;; mret (Some msg).

Definition managed (b : Backend) : bool :=
  negb (bool_decide (bc_TetraPath (b_Bundle b) = "")) && bool_decide (b_EventSource b = "").

Definition Apply (intent : CollectionIntent) : StateM world (option string) :=
  b ← gets w_backend;
  match check_intent (b_PolicyPath b) intent with
  | Err msg => fail msg
  | Ok (normalized, selfContainerID) =>
    match os_exists (b_PolicyPath b) with
    | Err msg => on_backend (setError (Some msg)) ;; mret (Some ("verify tetragon policy: " +:+ msg))
    | Ok _ =>
      on_backend (λ b, b <| b_namespaceSelfContainerID := selfContainerID |>) ;;
      if b_policyLoaded b && managed b then
        failed ← liveApplyTracingPolicy (b_intent b) normalized (b_runtimePolicyApplied b);
        match failed with
        | Some msg => fail msg
        | None =>
          on_backend (λ b, b <| b_intent := normalized |> <| b_policyLoaded := true |>
                             <| b_runtimePolicyApplied := needsTracingPolicy normalized |> <| b_lastError := "" |>) ;;
          mret None
        end
      else
        on_backend (λ b, b <| b_intent := normalized |> <| b_policyLoaded := false |> <| b_runtimePolicyApplied := false |>
                           <| b_lastError := "" |>) ;;
        mret None
    end
  end.

Definition ensureIntent (intent : CollectionIntent) : StateM world (option string) :=
  let explicitScope := negb (bool_decide (TrimSpace (ci_ScopeType intent) = "")) || negb (bool_decide (TrimSpace (ci_ScopeSelector intent) = "")) in
  match (normalized ← normalize_intent_scope intent; normalized ← resolveNamespaceScope normalized;
         _ ← validateSupportedScope normalized; mret normalized) with
  | Err msg => mret (Some msg)
  | Ok normalized =>
    on_backend (λ b, b <| b_ScopeType := ci_ScopeType normalized when explicitScope |>
                       <| b_ScopeSelector := ci_ScopeSelector normalized when explicitScope |>) ;;
    b ← gets w_backend;
    let hasIntent := some_of (ci_Behaviors (b_intent b)) || ci_ObserveOnly (b_intent b) || some_of (ci_FilePrefixes (b_intent b)) ||
                     some_of (ci_SocketFamilies (b_intent b)) in
    if b_policyLoaded b || hasIntent then mret None else Apply normalized
  end.

Definition applyPreparedPolicy : StateM world (option string) :=
  b ← gets w_backend;
  if b_policyLoaded b then mret None
  else
    let needs := managed b && needsTracingPolicy (b_intent b) in
    failed ← (if needs then
        rendered ← renderTracingPolicy (b_intent b);
        match rendered with Err msg => mret (Some msg) | Ok path => applyTracingPolicy os_cancelled path end
      else mret None);
    match failed with
    | Some msg => mret (Some msg)
    | None =>
      on_backend (λ b, b <| b_policyLoaded := true |> <| b_runtimePolicyApplied := true when needs |> <| b_lastError := "" |>) ;;
      mret None
    end.

Definition cleanupRuntimePolicy : StateM world unit :=
  b ← gets w_backend;
  on_backend (λ b, b <| b_runtimePolicyApplied := false |>) ;;
  if negb (b_runtimePolicyApplied b) || bool_decide (bc_TetraPath (b_Bundle b) = "") then mret tt
  else
    failed ← deleteTracingPolicy;
    on_backend (setError failed).

(** ** The policy in force *)

Section in_force.
Context (loaded : K → option string) `{!TetraLaws loaded}.

Lemma bind_pair {A B} (c : StateM world A) (k : A → StateM world B) w : (c ≫= k) w = k (c w).1 (c w).2.
Proof. unfold mbind, StateM_bind. by destruct (c w). Qed.

(** What does not touch the backend *)
Definition quiet {A} (c : StateM world A) : Prop := ∀ w, w_backend (c w).2 = w_backend w.

Lemma quiet_ret {A} (x : A) : quiet (mret x).
Proof. by intros w. Qed.
Lemma quiet_bind {A B} (c : StateM world A) (k : A → StateM world B) : quiet c → (∀ x, quiet (k x)) → quiet (c ≫= k).
Proof. intros Hc Hk w. rewrite bind_pair, Hk. apply Hc. Qed.
Lemma quiet_call {A} (f : nat → A) : quiet (call f).
Proof. by intros w. Qed.
Lemma quiet_gets {A} (f : world → A) : quiet (gets f).
Proof. by intros w. Qed.
Lemma quiet_tetra args : quiet (run_tetra args).
Proof. intros w. unfold run_tetra. by destruct (tetra _ _ _) as [[out err] k]. Qed.
Lemma quiet_write intent name : quiet (writeTracingPolicy intent name).
Proof. intros w. unfold writeTracingPolicy. by destruct (os_write _). Qed.
Lemma quiet_if {A} (b : bool) (c d : StateM world A) : quiet c → quiet d → quiet (if b then c else d).
Proof. by destruct b. Qed.

Create HintDb quiet.
Hint Resolve quiet_ret quiet_bind quiet_call quiet_gets quiet_tetra quiet_write quiet_if : quiet.

Lemma quiet_delete : quiet deleteTracingPolicy.
Proof. apply quiet_bind; [auto with quiet|]. intros [out [e|]]; cbn; auto with quiet. Qed.
Lemma quiet_verify name : quiet (verifyTracingPolicy name).
Proof. apply quiet_bind; [auto with quiet|]. intros [out [e|]]; cbn; auto with quiet. Qed.
Hint Resolve quiet_delete quiet_verify : quiet.

Lemma quiet_rounds ctx rounds deadline path : quiet (apply_rounds ctx rounds deadline path).
Proof.
  induction rounds as [|rounds IH]; cbn [apply_rounds]; (apply quiet_bind; [auto with quiet|]; intros [out [e|]]; cbn; [|auto with quiet]);
    (apply quiet_if; [auto with quiet|]); (apply quiet_bind; [auto with quiet|]; intros now);
    (apply quiet_if; [auto with quiet|]); (apply quiet_bind; [auto with quiet|]; intros [msg|]); auto with quiet.
Qed.
Hint Resolve quiet_rounds : quiet.

Lemma quiet_apply ctx path : quiet (applyTracingPolicy ctx path).
Proof. unfold applyTracingPolicy. auto with quiet. Qed.
Hint Resolve quiet_apply : quiet.

Lemma quiet_live old new applied : quiet (liveApplyTracingPolicy old new applied).
Proof.
  unfold liveApplyTracingPolicy, renderTracingPolicy. apply quiet_if; [auto with quiet|]. apply quiet_bind; [auto with quiet|].
  intros [oldPath|msg]; [|auto with quiet]. apply quiet_bind; [auto with quiet|]. intros [msg|]; [auto with quiet|].
  apply quiet_if; [auto with quiet|]. apply quiet_bind; [auto with quiet|]. intros [newPath|msg]; [|auto with quiet].
  apply quiet_bind; [auto with quiet|]. intros [msg|]; auto with quiet.
Qed.

(** *** What is loaded after each step *)

Notation in_kernel w := (loaded (w_kernel w)).

Lemma write_spec intent name w r w' :
  writeTracingPolicy intent name w = (r, w') → in_kernel w' = in_kernel w ∧
  ∀ path, r = Ok path → w_files w' !! path = Some (buildTracingPolicy intent).
Proof.
  unfold writeTracingPolicy. destruct (os_write _) as [msg|]; intros [= <- <-]; split; try done.
  intros path [= <-]. cbn. apply lookup_insert_eq.
Qed.

Lemma delete_spec w w' : deleteTracingPolicy w = (None, w') → in_kernel w' = None.
Proof.
  unfold deleteTracingPolicy. rewrite bind_pair. unfold run_tetra.
  destruct (tetra _ _ _) as [[out err] k] eqn:Et. cbn. destruct err as [e|].
  - destruct (policy_missing (TrimSpace out)) eqn:Em; intros [= <-]. cbn. rewrite (delete_failed _ _ _ _ _ Et).
    by eapply delete_missing.
  - intros [= <-]. cbn. by eapply delete_ok.
Qed.

Lemma verify_spec name w r w' : verifyTracingPolicy name w = (r, w') → in_kernel w' = in_kernel w.
Proof.
  unfold verifyTracingPolicy. rewrite bind_pair. unfold run_tetra.
  destruct (tetra _ _ _) as [[out err] k] eqn:Et. apply list_keeps in Et. cbn.
  destruct err; [by intros [= _ <-]|]. by case_match; intros [= _ <-].
Qed.

Lemma rounds_spec ctx rounds deadline path text w w' :
  in_kernel w = None → w_files w !! path = Some text → apply_rounds ctx rounds deadline path w = (None, w') → in_kernel w' = Some text.
Proof.
  revert w. induction rounds as [|rounds IH]; intros w Hnone Hfile; cbn [apply_rounds]; rewrite bind_pair; unfold run_tetra;
    destruct (tetra _ _ _) as [[out err] k] eqn:Et; cbn [fst snd].
  all: destruct err as [e|];
    [|intros Hrun%verify_spec; rewrite Hrun; cbn; by rewrite (add_ok _ _ _ _ _ Et)].
  all: destruct (Contains _ "already exists") eqn:Ex;
    [by destruct (add_exists _ _ _ _ _ _ Et Ex)|]; apply add_failed in Et.
  all: rewrite bind_pair; cbn; destruct (After _ deadline); [done|]; cbn; rewrite bind_pair; cbn; destruct (ctx _); [done|].
  - done.
  - apply IH; [by cbn; rewrite Et|done].
Qed.

Lemma apply_spec ctx path text w w' :
  in_kernel w = None → w_files w !! path = Some text → applyTracingPolicy ctx path w = (None, w') → in_kernel w' = Some text.
Proof. intros Hnone Hfile. unfold applyTracingPolicy. rewrite bind_pair. by apply rounds_spec. Qed.

Lemma render_apply_spec intent w w' :
  in_kernel w = None →
  (rendered ← renderTracingPolicy intent;
   match rendered with Err msg => mret (Some msg) | Ok path => applyTracingPolicy os_cancelled path end) w = (None, w') →
  in_kernel w' = Some (buildTracingPolicy intent).
Proof.
  intros Hnone. rewrite bind_pair. destruct (renderTracingPolicy intent w) as [r w1] eqn:Er.
  apply write_spec in Er as [Hk Hf]. cbn. destruct r as [path|msg]; [|done].
  apply apply_spec; [by rewrite Hk|by apply Hf].
Qed.

(** The rounds suffice: a second passes between two of them. *)
Lemma rounds_enough ctx rounds more deadline path w :
  (∀ n, os_now n + 10 ^ 9 ≤ os_now (2 + n))%Z → (deadline - os_now (w_calls w) < Z.of_nat rounds * 10 ^ 9)%Z →
  apply_rounds ctx (rounds + more) deadline path w = apply_rounds ctx rounds deadline path w.
Proof.
  intros Hclock. revert w. induction rounds as [|rounds IH]; intros w Hd; cbn [apply_rounds Nat.add].
  - destruct more; [done|]. cbn [apply_rounds]. rewrite !bind_pair. unfold run_tetra. destruct (tetra _ _ _) as [[out [e|]] k]; [|done].
    cbn [fst snd]. destruct (Contains _ "already exists"); [done|]. rewrite !bind_pair. cbn.
    by replace (After (os_now (w_calls w)) deadline) with true by (unfold After; lia).
  - rewrite !bind_pair. unfold run_tetra. destruct (tetra _ _ _) as [[out [e|]] k]; [|done].
    cbn [fst snd]. destruct (Contains _ "already exists"); [done|]. rewrite !bind_pair. cbn [fst snd call].
    destruct (After _ deadline); [done|]. rewrite !bind_pair. cbn [fst snd call]. destruct (ctx _); [done|]. apply IH. cbn.
    specialize (Hclock (w_calls w)). cbn in Hclock. lia.
Qed.

Lemma apply_enough ctx more path w :
  (∀ n, os_now n ≤ os_now (S n))%Z → (∀ n, os_now n + 10 ^ 9 ≤ os_now (2 + n))%Z →
  applyTracingPolicy ctx path w = (now ← call os_now; apply_rounds ctx (31 + more) (now + thirty_seconds)%Z path) w.
Proof.
  intros Hmono Hclock. unfold applyTracingPolicy. rewrite !bind_pair, rounds_enough; [done..|]. cbn.
  specialize (Hmono (w_calls w)). unfold thirty_seconds. lia.
Qed.

(** The text that should be loaded for an intent *)
Definition text_for (needed : bool) (intent : CollectionIntent) : option string :=
  if needed then Some (buildTracingPolicy intent) else None.

Lemma install_spec new (rollback : StateM world (option string)) w w' :
  in_kernel w = None →
  (rendered ← renderTracingPolicy new;
   match rendered with
   | Err msg => mret (Some msg)
   | Ok newPath =>
     failed ← applyTracingPolicy os_cancelled newPath;
     match failed with Some msg => rollback ;; mret (Some msg) | None => mret None end
   end) w = (None, w') → in_kernel w' = Some (buildTracingPolicy new).
Proof.
  intros Hnone. rewrite bind_pair. destruct (renderTracingPolicy new w) as [r w3] eqn:Er. apply write_spec in Er as [Hk3 Hf]. cbn [fst snd].
  destruct r as [newPath|msg]; [|done]. rewrite bind_pair. destruct (applyTracingPolicy os_cancelled newPath w3) as [[msg|] w4] eqn:Ea; cbn [fst snd].
  - by rewrite bind_pair.
  - intros [= <-]. eapply apply_spec; [|by apply Hf|exact Ea]. by rewrite Hk3.
Qed.

Lemma live_spec old new applied w w' :
  (applied = true → needsTracingPolicy old = true) → in_kernel w = text_for applied old →
  liveApplyTracingPolicy old new applied w = (None, w') → in_kernel w' = text_for (needsTracingPolicy new) new.
Proof.
  intros Hneeds Hk. unfold liveApplyTracingPolicy. assert (applied && needsTracingPolicy old = applied) as ->
    by (destruct applied; [by rewrite Hneeds|done]).
  destruct applied; cbn [negb andb].
  - rewrite bind_pair. destruct (writeTracingPolicy old _ w) as [r w1] eqn:Ew. apply write_spec in Ew as [Hk1 _]. cbn [fst snd].
    destruct r as [oldPath|msg]; [|done]. rewrite bind_pair. destruct (deleteTracingPolicy w1) as [[msg|] w2] eqn:Ed; [done|].
    apply delete_spec in Ed. cbn [fst snd]. destruct (needsTracingPolicy new); cbn [negb text_for]; [|by intros [= <-]].
    by apply install_spec.
  - destruct (needsTracingPolicy new); cbn [negb text_for]; [|by intros [= <-]].
    rewrite bind_pair. cbn [fst snd mret StateM_ret]. rewrite bind_pair. by apply install_spec.
Qed.

(** The kernel has what the backend thinks it has. *)
Definition in_sync (w : world) : Prop :=
  let b := w_backend w in
  (b_runtimePolicyApplied b = true → b_policyLoaded b = true ∧ managed b = true ∧ needsTracingPolicy (b_intent b) = true) ∧
  (b_policyLoaded b = true → managed b = true → b_runtimePolicyApplied b = needsTracingPolicy (b_intent b)) ∧
  in_kernel w = text_for (b_runtimePolicyApplied b) (b_intent b).

Lemma Apply_in_sync intent w w' : in_sync w → Apply intent w = (None, w') → in_sync w'.
Proof.
  intros (Happ & Hload & Hk). unfold Apply. rewrite bind_pair. cbn [gets fst snd].
  destruct (check_intent _ intent) as [[new selfID]|msg]; [|done]. destruct (os_exists _) as [[]|msg]; [|done].
  rewrite bind_pair. cbn [on_backend modify fst snd]. destruct (b_policyLoaded (w_backend w) && managed (w_backend w)) eqn:El.
  - apply andb_true_iff in El as [El Em]. rewrite bind_pair. set (w1 := w <| w_backend ::= _ |>).
    destruct (liveApplyTracingPolicy _ new _ w1) as [failed w2] eqn:Elive. cbn [fst snd]. destruct failed as [msg|]; [done|].
    pose proof (quiet_live (b_intent (w_backend w)) new (b_runtimePolicyApplied (w_backend w)) w1) as Hq. rewrite Elive in Hq. cbn in Hq.
    apply live_spec in Elive; [|intros Ha; by apply Happ|exact Hk]. rewrite bind_pair. intros [= <-]. unfold in_sync. cbn.
    rewrite Hq. unfold managed in *. cbn. split_and!; [|done|done]. intros Hn. by split_and!.
  - rewrite bind_pair. intros [= <-]. unfold in_sync. cbn. split_and!; [done..|].
    destruct (b_runtimePolicyApplied (w_backend w)); [|done]. destruct Happ as (El' & Em & _); [done|]. by rewrite El', Em in El.
Qed.

Lemma Apply_failed intent w e w' :
  Apply intent w = (Some e, w') → in_kernel w' = in_kernel w → in_sync w → in_sync w'.
Proof.
  unfold Apply. rewrite bind_pair. cbn [gets fst snd]. destruct (check_intent _ intent) as [[new selfID]|msg].
  2: { intros [= <- <-]. done. }
  destruct (os_exists _) as [[]|msg]. 2: { intros [= <- <-]. done. }
  rewrite bind_pair. cbn [on_backend modify fst snd]. destruct (b_policyLoaded (w_backend w) && managed (w_backend w)); [|done].
  rewrite bind_pair. set (w1 := w <| w_backend ::= _ |>).
  pose proof (quiet_live (b_intent (w_backend w)) new (b_runtimePolicyApplied (w_backend w)) w1) as Hq.
  destruct (liveApplyTracingPolicy _ new _ w1) as [failed w2]. cbn [fst snd] in *. destruct failed as [msg|]; [|done].
  unfold fail. rewrite bind_pair. intros [= <- <-]. unfold in_sync. cbn. rewrite Hq. intros Hk. by rewrite Hk.
Qed.

Lemma prepare_in_sync w w' : in_sync w → applyPreparedPolicy w = (None, w') → in_sync w' ∧ b_policyLoaded (w_backend w') = true.
Proof.
  intros (Happ & Hload & Hk). unfold applyPreparedPolicy. rewrite bind_pair. cbn [gets fst snd].
  destruct (b_policyLoaded (w_backend w)) eqn:El; [intros [= <-]; unfold in_sync; by rewrite El|].
  assert (b_runtimePolicyApplied (w_backend w) = false) as Ha
    by (destruct (b_runtimePolicyApplied (w_backend w)); [by destruct Happ|done]). rewrite Ha in Hk.
  rewrite bind_pair. destruct (managed (w_backend w) && needsTracingPolicy (b_intent (w_backend w))) eqn:En.
  - match goal with |- context [match (?c w).1 with _ => _ end] => destruct (c w) as [failed w1] eqn:Er; assert (quiet c) as Hq end.
    { unfold renderTracingPolicy. apply quiet_bind; [apply quiet_write|]. intros [path|msg]; [apply quiet_apply|apply quiet_ret]. }
    specialize (Hq w). rewrite Er in Hq. cbn [fst snd] in *. destruct failed as [msg|]; [done|].
    apply render_apply_spec in Er; [|done]. rewrite bind_pair. intros [= <-]. unfold in_sync. cbn. rewrite Hq.
    apply andb_true_iff in En as [Em En]. unfold managed in *. cbn. by rewrite Em, En.
  - cbn [fst snd mret StateM_ret]. rewrite bind_pair. intros [= <-]. unfold in_sync. cbn. unfold managed in *. cbn.
    rewrite Ha. split; [|done]. split_and!; [done| |done]. intros _ Hm. by rewrite Hm in En.
Qed.

(** The worlds that are reached from one where nothing is loaded, by
    applying intents and preparing subscriptions; an intent may be refused,
    or fail before the kernel was touched. *)
Inductive reached : world → Prop :=
  | fresh w : b_policyLoaded (w_backend w) = false → b_runtimePolicyApplied (w_backend w) = false → in_kernel w = None → reached w
  | applied intent w w' : reached w → Apply intent w = (None, w') → reached w'
  | not_applied intent w e w' : reached w → Apply intent w = (Some e, w') → in_kernel w' = in_kernel w → reached w'
  | prepared w w' : reached w → applyPreparedPolicy w = (None, w') → reached w'.

Lemma reached_in_sync w : reached w → in_sync w.
Proof.
  induction 1 as [w Hl Ha Hk|intent w w' _ IH Hrun|intent w e w' _ IH Hrun Hk|w w' _ IH Hrun].
  - unfold in_sync. by rewrite Hl, Ha.
  - by eapply Apply_in_sync.
  - by eapply Apply_failed.
  - by eapply prepare_in_sync.
Qed.
End in_force.
End policy.

(** ** A machine *)

(** A tool that keeps one policy *)
Definition demo_tool (files : gmap string string) (args : list string) (k : option string) : string * option string * option string :=
  if bool_decide (args = ["tracingpolicy"; "list"]) then (if k is Some _ then runtimeTracingPolicyName else "", None, k)
  else if bool_decide (args = ["tracingpolicy"; "delete"; runtimeTracingPolicyName]) then
    match k with Some _ => ("", None, None) | None => ("policy not found", Some "exit status 1", None) end
  else match k, files !! default "" (args !! 2%nat) with
  | Some _, _ => ("policy already exists", Some "exit status 1", k)
  | None, Some text => ("", None, Some text)
  | None, None => ("no such file", Some "exit status 1", None)
  end.

Definition demo_tetra : Tetra (option string) := {| tetra := demo_tool |}.

Lemma demo_add files path k :
  demo_tool files ["tracingpolicy"; "add"; path] k =
  match k, files !! path with
  | Some _, _ => ("policy already exists", Some "exit status 1", k)
  | None, Some text => ("", None, Some text)
  | None, None => ("no such file", Some "exit status 1", None)
  end.
Proof.
  unfold demo_tool. rewrite (bool_decide_eq_false_2 (_ = ["tracingpolicy"; "list"])), (bool_decide_eq_false_2 (_ = [_; "delete"; _])) by done.
  done.
Qed.

Lemma demo_delete files k :
  demo_tool files ["tracingpolicy"; "delete"; runtimeTracingPolicyName] k =
  match k with Some _ => ("", None, None) | None => ("policy not found", Some "exit status 1", None) end.
Proof. by destruct k. Qed.

Lemma demo_tetra_laws : TetraLaws (H := demo_tetra) id.
Proof.
  split; cbn [tetra demo_tetra id].
  - intros files path k out k'. rewrite demo_add. destruct k, (files !! path); by intros [= <- <-].
  - intros files path k out e k'. rewrite demo_add. destruct k, (files !! path); by intros [= <- <- <-].
  - intros files path k out e k'. rewrite demo_add. destruct k; [done|]. destruct (files !! path); by intros [= <- <- <-].
  - intros files k out k'. rewrite demo_delete. destruct k; by intros [= <- <-].
  - intros files k out e k'. rewrite demo_delete. destruct k; by intros [= <- <- <-].
  - intros files k out e k'. rewrite demo_delete. destruct k; by intros [= <- <- <-].
  - intros files k out e k'. by destruct k; intros [= <- <- <-].
Qed.

Local Instance demo_unicode : Unicode := {| print_rune := λ _, false |}.
Definition demo_host : Host := {|
  os_readlink := λ _, Err "no such file"; os_read := λ _, Err "no such file"; os_exists := λ _, Ok tt; os_write := λ _, None;
  os_temp := "/tmp"; os_now := λ n, Z.of_nat n; os_cancelled := λ _, None |}.

Definition demo_backend : Backend := NewBackendWithBundle "/etc/sysarmor/policy.yaml" "" "" (MkBundleConfig "/opt/b" "/opt/i" "/opt/b/tetra" "/opt/b/tetragon").
Definition demo_start (kernel : option string) : world := MkWorld demo_backend ∅ kernel 0%nat.
Definition other_intent : CollectionIntent := zero_CollectionIntent <| ci_Behaviors := [BehaviorProcessExit] |>.

Definition demo_apply (intent : CollectionIntent) : StateM world (option string) := Apply (H := demo_unicode) (H0 := demo_host) (H1 := demo_tetra) intent.
Definition demo_prepare : StateM world (option string) := applyPreparedPolicy (H := demo_unicode) (H0 := demo_host) (H1 := demo_tetra).

Definition demo_first : world := (demo_apply TetragonTheorems.read_intent (demo_start None)).2.
Definition demo_running : world := (demo_prepare demo_first).2.
Definition demo_changed : world := (demo_apply other_intent demo_running).2.

(** C23. The tracing policy in force is the one of the intent.  Starting where
    no policy is loaded, after any sequence of intents that were applied,
    while running or not, refused, or not applied because a step failed
    before the kernel was changed, and of subscriptions that were prepared:
    when the backend reports its policy as loaded and manages Tetragon
    itself, the kernel has exactly the text compiled from the intent last
    accepted, and none when that intent needs none. *)
Theorem policy_in_force `{Unicode} `{Host} {K : Type} `{Tetra K} (loaded : K → option string) `{!TetraLaws loaded} (w : world (K := K)) :
  reached loaded w → b_policyLoaded (w_backend w) = true → managed (w_backend w) = true →
  loaded (w_kernel w) =
    if needsTracingPolicy (b_intent (w_backend w)) then Some (buildTracingPolicy (b_intent (w_backend w))) else None.
Proof.
  intros Hr Hl Hm. destruct (reached_in_sync loaded w Hr) as (_ & Hload & Hk). by rewrite Hk, (Hload Hl Hm).
Qed.

Lemma policy_in_force_witness :
  w_kernel demo_changed = Some (buildTracingPolicy other_intent) ∧ w_kernel demo_running = Some (buildTracingPolicy TetragonTheorems.read_intent).
Proof.
  split.
  - apply (policy_in_force (H := demo_unicode) (H0 := demo_host) (H1 := demo_tetra) id (TetraLaws0 := demo_tetra_laws) demo_changed); [|reflexivity..].
    apply (applied _ other_intent demo_running); [|vm_compute; reflexivity]. apply (prepared _ demo_first); [|vm_compute; reflexivity].
    apply (applied _ TetragonTheorems.read_intent (demo_start None)); [|vm_compute; reflexivity]. by apply fresh.
  - vm_compute. reflexivity.
Defined.

(** "Already exists" counts as success: a policy that another run left in
    the kernel stays in force, and the backend reports its own as loaded. *)
Lemma stale_policy_kept :
  let w := (demo_prepare (demo_apply TetragonTheorems.read_intent (demo_start (Some "stale"))).2).2 in
  w_kernel w = Some "stale" ∧ b_policyLoaded (w_backend w) = true ∧ b_lastError (w_backend w) = "".
Proof. vm_compute. done. Qed.

End TetragonBackend.
