(* ===== verification/OpenSearch.v ===== *)
(** * The OpenSearch client ([internal/platform/opensearch])

    Documents are written in bulk; the answer says of every document whether
    it was stored, and failures are classified as transient or permanent.
    The HTTP client is an argument ([post], [get]: the reply to a request);
    decoding of replies and the check that a body is JSON are the parameters
    of [JsonText]. *)

From S2P Require Import Prelude GoStrings GoBytes GoData.

Module OpenSearch.

(** ** Documents and errors *)

Definition EventsReadAlias : string := "sysarmor-events-read".
Definition EventsWriteAlias : string := "sysarmor-events-write".
Definition SignalsReadAlias : string := "sysarmor-signals-read".
Definition SignalsWriteAlias : string := "sysarmor-signals-write".
Definition IncidentsReadAlias : string := "sysarmor-incidents-read".
Definition IncidentsWriteAlias : string := "sysarmor-incidents-write".
Definition EvidenceReadAlias : string := "sysarmor-evidence-read".
Definition EvidenceWriteAlias : string := "sysarmor-evidence-write".

Record Document := MkDocument {
  doc_Index : string;
  doc_ID : string;
  doc_Body : string
}.

Inductive ErrorClass := ErrorTransient | ErrorPermanent.

Record ProjectionError := MkProjectionError {
  pe_Class : ErrorClass;
  pe_Status : Z;
  pe_Index : string;
  pe_ID : string;
  pe_Cause : string
}.

(** An error of Go: a [*ProjectionError], or any other with its text *)
Inductive error := Projection (e : ProjectionError) | Plain (msg : string).

Definition ErrDisabled : error := Plain "opensearch indexing is disabled".

Definition ErrorClassOf (err : error) : ErrorClass :=
  match err with Projection e => pe_Class e | Plain _ => ErrorTransient end.

Definition classifyStatus (status : Z) : ErrorClass :=
  if (status =? 408)%Z || (status =? 429)%Z || (500 <=? status)%Z then ErrorTransient else ErrorPermanent.

(** ** JSON

    What a request carries is a value of [json]; the order of the members of
    an object has no meaning. *)

Inductive json :=
| JString (s : string)
| JInt (n : Z)
| JBool (b : bool)
| JList (l : list json)
| JObject (members : list (string * json)).

Record bulk_item := MkBulkItem {
  bi_Status : Z;
  bi_Error : option (string * string)   (** type and reason *)
}.

Class JsonText := {
  json_valid : string → bool;
  decode_items : string → result (list (list (string * bulk_item)));   (** [items], each a map of operations *)
  decode_hits : string → result (list string);   (** [hits.hits[]._source] *)
  encode_json : json → result string
}.

(** [HttpInvalid]: [http.NewRequest] makes no request of this URL *)
Inductive http_reply :=
| HttpInvalid (msg : string)
| HttpError (msg : string)
| HttpReply (code : Z) (status body : string).   (** [status] is the status line, as ["200 OK"] *)

Definition ok_status (status : Z) : bool := (200 <=? status)%Z && (status <? 300)%Z.

(** ** Bulk writes *)

Record HTTPIndexer := MkHTTPIndexer {
  hx_base : string;
  hx_username : string;
  hx_password : string
}.

(** [strings.TrimRight(s, "/")] *)
Fixpoint trim_slashes (s : string) : string :=
  match s with
  | EmptyString => ""
  | String c s' =>
    let r := trim_slashes s' in
    if bool_decide (r = "") && bool_decide (c = "/"%char) then "" else String c r
  end.

Definition NewHTTPIndexerWithAuth (baseURL username password : string) : option HTTPIndexer :=
  let base := trim_slashes (TrimSpace baseURL) in
  if bool_decide (base = "") then None else Some (MkHTTPIndexer base (TrimSpace username) password).

Definition NewHTTPIndexer (baseURL : string) : option HTTPIndexer := NewHTTPIndexerWithAuth baseURL "" "".

(** The credentials a request carries *)
Definition setAuth (i : HTTPIndexer) : option (string * string) :=
  if negb (bool_decide (hx_username i = "")) || negb (bool_decide (hx_password i = ""))
  then Some (hx_username i, hx_password i) else None.

(** The HTTP client: the reply to a request with these credentials, to this
    URL, with this body *)
Definition client (body : Type) : Type := option (string * string) → string → body → http_reply.

Section client.
Context `{JsonText}.

Definition Index (put : client string) (i : option HTTPIndexer) (doc : Document) : option error :=
  match i with
  | None => Some ErrDisabled
  | Some i =>
    if bool_decide (hx_base i = "") then Some ErrDisabled
    else if bool_decide (doc_Index doc = "") || bool_decide (doc_ID doc = "")
    then Some (Plain "opensearch index and id are required")
    else match put (setAuth i) (hx_base i +:+ "/" +:+ doc_Index doc +:+ "/_doc/" +:+ doc_ID doc) (doc_Body doc) with
    | HttpInvalid msg | HttpError msg => Some (Plain msg)
    | HttpReply code status _ => if negb (ok_status code) then Some (Plain ("opensearch index status " +:+ status)) else None
    end
  end.

Definition transient (cause : string) : ProjectionError := MkProjectionError ErrorTransient 0 "" "" cause.

(** The two variables of the loop: the first transient failure, and the
    first failure that was not taken as that *)
Definition note_failure (acc : option ProjectionError * option ProjectionError) (failure : ProjectionError)
    : option ProjectionError * option ProjectionError :=
  let '(transient, permanent) := acc in
  match pe_Class failure, transient with
  | ErrorTransient, None => (Some failure, permanent)
  | _, _ => (transient, match permanent with None => Some failure | Some p => Some p end)
  end.

Definition item_failure (doc : Document) (item : bulk_item) : ProjectionError :=
  MkProjectionError (classifyStatus (bi_Status item)) (bi_Status item) (doc_Index doc) (doc_ID doc)
    (match bi_Error item with Some (ty, reason) => ty +:+ ": " +:+ reason | None => "bulk item failed" end).

Fixpoint scan_items (index : nat) (acc : option ProjectionError * option ProjectionError)
    (items : list (list (string * bulk_item))) (docs : list Document)
    : ProjectionError + option ProjectionError * option ProjectionError :=
  match items, docs with
  | operations :: items', doc :: docs' =>
    match operations with
    | [(_, item)] =>
      scan_items (S index) (if ok_status (bi_Status item) then acc else note_failure acc (item_failure doc item)) items' docs'
    | _ => inl (transient ("bulk item " +:+ FormatUint (Z.of_nat index) +:+ " has " +:+
                           FormatUint (Z.of_nat (length operations)) +:+ " operations"))
    end
  | _, _ => inr acc
  end.

Definition decodeBulkResponse (body : string) (docs : list Document) : option ProjectionError :=
  match decode_items body with
  | Err msg => Some (transient ("decode bulk response: " +:+ msg))
  | Ok items =>
    if negb (length items =? length docs)%nat
    then Some (transient ("bulk item count " +:+ FormatUint (Z.of_nat (length items)) +:+ ", want " +:+
                          FormatUint (Z.of_nat (length docs))))
    else match scan_items 0 (None, None) items docs with
    | inl e => Some e
    | inr (Some e, _) => Some e
    | inr (None, permanent) => permanent
    end
  end.

Definition valid_document (doc : Document) : bool :=
  negb (bool_decide (doc_Index doc = "")) && negb (bool_decide (doc_ID doc = "")) && json_valid (doc_Body doc).

(** The lines of the request: what to do, then the document *)
Definition bulk_lines (docs : list Document) : list (json * string) :=
  (λ doc, (JObject [("index", JObject [("_index", JString (doc_Index doc)); ("_id", JString (doc_ID doc))])], doc_Body doc)) <$> docs.

Definition BulkIndex (post : client (list (json * string))) (i : option HTTPIndexer) (docs : list Document)
    : option error :=
  match i with
  | None => Some ErrDisabled
  | Some i =>
    if bool_decide (hx_base i = "") then Some ErrDisabled
    else if bool_decide (docs = []) then None
    else match find_first (λ doc, negb (valid_document doc)) docs with
    | Some doc =>
      Some (Projection (MkProjectionError ErrorPermanent 0 (doc_Index doc) (doc_ID doc) "valid index, id, and JSON body are required"))
    | None =>
      match post (setAuth i) (hx_base i +:+ "/_bulk") (bulk_lines docs) with
      | HttpInvalid msg => Some (Projection (MkProjectionError ErrorPermanent 0 "" "" msg))
      | HttpError msg => Some (Projection (transient msg))
      | HttpReply code status body =>
        if negb (ok_status code)
        then Some (Projection (MkProjectionError (classifyStatus code) code "" "" ("bulk status " +:+ status)))
        else Projection <$> decodeBulkResponse body docs
      end
    end
  end.

(** ** Search *)

Record SearchRequest := MkSearchRequest {
  sr_Index : string;
  sr_Size : Z;
  sr_Offset : Z;
  sr_Query : string;
  sr_Labels : gmap string string;
  sr_Exact : gmap string string;
  sr_Bool : gmap string bool;
  sr_TimeField : string;
  sr_TimeFrom : string;
  sr_TimeTo : string;
  sr_SortField : string;
  sr_SortDesc : bool
}.

Definition termFilter (field value : string) : json := JObject [("term", JObject [(field, JString value)])].

Definition timeRangeFilter (search : SearchRequest) : option json :=
  let field := TrimSpace (sr_TimeField search) in
  let from := TrimSpace (sr_TimeFrom search) in
  let to := TrimSpace (sr_TimeTo search) in
  if bool_decide (field = "") || (bool_decide (from = "") && bool_decide (to = "")) then None
  else Some (JObject [("range", JObject [(field, JObject
    ((if bool_decide (from = "") then [] else [("gte", JString from)]) ++
     (if bool_decide (to = "") then [] else [("lte", JString to)])))])]).

(** The filters of one map of the request; blank fields are left out. *)
Definition filters_of `{RangeOrder} {A} (m : gmap string A) (filter : string → A → json) : list json :=
  range_keys m ≫= λ key,
    match m !! key with
    | Some value => if bool_decide (TrimSpace key = "") then [] else [filter (TrimSpace key) value]
    | None => []
    end.

Definition searchQuery `{RangeOrder} (search : SearchRequest) : json :=
  let filters :=
    filters_of (sr_Labels search) (λ key value, termFilter ("labels." +:+ key +:+ ".keyword") value) ++
    filters_of (sr_Exact search) termFilter ++
    filters_of (sr_Bool search) (λ field value, JObject [("term", JObject [(field, JBool value)])]) ++
    option_list (timeRangeFilter search) in
  let query := TrimSpace (sr_Query search) in
  if bool_decide (filters = []) && bool_decide (query = "") then JObject [("match_all", JObject [])]
  else JObject [("bool", JObject
    ((if bool_decide (filters = []) then [] else [("filter", JList filters)]) ++
     (if bool_decide (query = "") then []
      else [("must", JList [JObject [("simple_query_string",
              JObject [("query", JString query); ("default_operator", JString "and")])]])])))].

Definition search_body `{RangeOrder} (search : SearchRequest) : json :=
  let size := if (sr_Size search <=? 0)%Z then 100%Z else sr_Size search in
  let sortField := TrimSpace (sr_SortField search) in
  JObject ([("size", JInt size); ("from", JInt (Z.max (sr_Offset search) 0)); ("query", searchQuery search)] ++
    if bool_decide (sortField = "") then []
    else [("sort", JList [JObject [(sortField, JObject [("order", JString (if sr_SortDesc search then "desc" else "asc"));
                                                        ("unmapped_type", JString "keyword")])]])]).

Definition Search `{RangeOrder} (get : client string) (i : option HTTPIndexer) (search : SearchRequest)
    : result (list string) :=
  match i with
  | None => Err "opensearch indexing is disabled"
  | Some i =>
    let index := TrimSpace (sr_Index search) in
    if bool_decide (hx_base i = "") then Err "opensearch indexing is disabled"
    else if bool_decide (index = "") then Err "opensearch index is required"
    else match encode_json (search_body search) with
    | Err msg => Err msg
    | Ok body =>
      match get (setAuth i) (hx_base i +:+ "/" +:+ index +:+ "/_search") body with
      | HttpInvalid msg | HttpError msg => Err msg
      | HttpReply code status raw =>
        if (code =? 404)%Z then Ok []
        else if negb (ok_status code) then Err ("opensearch search status " +:+ status)
        else match decode_hits raw with
        | Err msg => Err msg
        | Ok hits => Ok (filter (λ source, source ≠ "") hits)
        end
      end
    end
  end.

(** ** What the answer to a bulk write means *)

(** The documents that were not stored, when every item has one operation *)
Fixpoint failures (items : list (list (string * bulk_item))) (docs : list Document) : list ProjectionError :=
  match items, docs with
  | [(_, item)] :: items', doc :: docs' =>
    (if ok_status (bi_Status item) then [] else [item_failure doc item]) ++ failures items' docs'
  | _, _ => []
  end.

Definition single (operations : list (string * bulk_item)) : Prop := length operations = 1%nat.

Lemma scan_items_spec items docs index acc :
  length items = length docs →
  match scan_items index acc items docs with
  | inl e => pe_Class e = ErrorTransient ∧ ¬ Forall single items
  | inr acc' => Forall single items ∧ acc' = foldl note_failure acc (failures items docs)
  end.
Proof.
  revert docs index acc. induction items as [|ops items IH]; intros [|doc docs] index acc Hlen; try done. cbn.
  destruct ops as [|[op item] [|o ops]].
  - split; [done|]. intros Hs. by apply Forall_cons_iff in Hs as [Hs _].
  - injection Hlen as Hlen. specialize (IH docs (S index) (if ok_status (bi_Status item) then acc else note_failure acc (item_failure doc item)) Hlen).
    destruct (scan_items _ _ items docs) as [e|acc'].
    + destruct IH as [He Hn]. split; [done|]. intros Hs. by apply Forall_cons_iff in Hs as [_ Hs].
    + destruct IH as [Hs ->]. split; [by constructor|]. by destruct (ok_status (bi_Status item)).
  - split; [done|]. intros Hs. by apply Forall_cons_iff in Hs as [Hs _].
Qed.

Definition is_transient (e : ProjectionError) : bool := match pe_Class e with ErrorTransient => true | ErrorPermanent => false end.

Lemma note_failures_kept fs t p : foldl note_failure (Some t, p) fs = (Some t, (foldl note_failure (Some t, p) fs).2).
Proof.
  revert p. induction fs as [|f fs IH]; intros p; [done|]. cbn [foldl].
  assert (∃ p', note_failure (Some t, p) f = (Some t, p')) as [p' ->]
    by (unfold note_failure; destruct (pe_Class f); by eexists).
  apply IH.
Qed.

(** The first transient failure; else the first failure *)
Lemma note_failures_spec fs p :
  let '(t, p') := foldl note_failure (None, p) fs in
  t = find_first is_transient fs ∧
  (t = None → p' = match p with Some q => Some q | None => head fs end ∧ Forall (λ f, pe_Class f = ErrorPermanent) fs).
Proof.
  revert p. induction fs as [|f fs IH]; intros p; [by destruct p|]. cbn [foldl].
  unfold find_first in *. cbn [List.find]. destruct (pe_Class f) eqn:Ef.
  - assert (note_failure (None, p) f = (Some f, p)) as -> by (unfold note_failure; by rewrite Ef).
    assert (is_transient f = true) as -> by (unfold is_transient; by rewrite Ef). by rewrite note_failures_kept.
  - assert (note_failure (None, p) f = (None, match p with None => Some f | Some q => Some q end)) as ->
      by (unfold note_failure; by rewrite Ef).
    assert (is_transient f = false) as -> by (unfold is_transient; by rewrite Ef).
    specialize (IH (match p with None => Some f | Some q => Some q end)).
    destruct (foldl note_failure _ fs) as [t p']. destruct IH as [-> IH]. split; [done|]. intros Ht.
    destruct (IH Ht) as [-> Hall]. split; [by destruct p|by constructor].
Qed.

Definition stored_ok (ops : list (string * bulk_item)) : Prop := ∃ op item, ops = [(op, item)] ∧ ok_status (bi_Status item) = true.

Lemma failures_nil items docs :
  length items = length docs → Forall single items → failures items docs = [] ↔ Forall stored_ok items.
Proof.
  revert docs. induction items as [|ops items IH]; intros [|doc docs] Hlen Hs; try done.
  apply Forall_cons_iff in Hs as [Hs1 Hs]. injection Hlen as Hlen.
  destruct ops as [|[op item] [|o ops]]; try done. cbn. rewrite Forall_cons_iff, <- (IH docs Hlen Hs).
  destruct (ok_status (bi_Status item)) eqn:E; cbn.
  - split; [|by intros [_ H1]]. intros Hf. split; [by exists op, item|done].
  - split; [done|]. intros [(op' & item' & Heq & Hok) _]. injection Heq as <- <-. congruence.
Qed.

(** Every document of the request was stored. *)
Definition all_stored (post : client (list (json * string))) (i : HTTPIndexer) (docs : list Document) : Prop :=
  Forall (λ doc, valid_document doc = true) docs ∧
  ∃ code status body items, post (setAuth i) (hx_base i +:+ "/_bulk") (bulk_lines docs) = HttpReply code status body ∧
    ok_status code = true ∧ decode_items body = Ok items ∧ length items = length docs ∧ Forall stored_ok items.

(** The request can never succeed as it is: a document or the address of the
    server is malformed, or the server refused the request, or it refused some
    documents and failed to store no other. *)
Definition refused (post : client (list (json * string))) (i : HTTPIndexer) (docs : list Document) : Prop :=
  (∃ doc, doc ∈ docs ∧ valid_document doc = false) ∨
  (Forall (λ doc, valid_document doc = true) docs ∧
   ∃ msg, post (setAuth i) (hx_base i +:+ "/_bulk") (bulk_lines docs) = HttpInvalid msg) ∨
  (Forall (λ doc, valid_document doc = true) docs ∧
   ∃ code status body, post (setAuth i) (hx_base i +:+ "/_bulk") (bulk_lines docs) = HttpReply code status body ∧
     ((ok_status code = false ∧ classifyStatus code = ErrorPermanent) ∨
      (ok_status code = true ∧ ∃ items, decode_items body = Ok items ∧ length items = length docs ∧ Forall single items ∧
         failures items docs ≠ [] ∧ Forall (λ f, pe_Class f = ErrorPermanent) (failures items docs)))).

Lemma decodeBulkResponse_spec body docs :
  match decodeBulkResponse body docs with
  | None => ∃ items, decode_items body = Ok items ∧ length items = length docs ∧ Forall stored_ok items
  | Some e => (pe_Class e = ErrorPermanent ↔ ∃ items, decode_items body = Ok items ∧ length items = length docs ∧ Forall single items ∧
        failures items docs ≠ [] ∧ Forall (λ f, pe_Class f = ErrorPermanent) (failures items docs)) ∧
      ¬ ∃ items, decode_items body = Ok items ∧ length items = length docs ∧ Forall stored_ok items
  end.
Proof.
  unfold decodeBulkResponse. destruct (decode_items body) as [items|msg].
  2: { split; [split; [done|]; by intros (? & ? & _)|]. by intros (? & ? & _). }
  destruct (Nat.eqb_spec (length items) (length docs)) as [Hlen|Hlen]; cbn [negb].
  2: { split; [split; [done|]|]; intros (? & [= <-] & ? & _); done. }
  pose proof (scan_items_spec items docs 0 (None, None) Hlen) as Hscan.
  destruct (scan_items 0 (None, None) items docs) as [e|acc].
  { destruct Hscan as [He Hns]. split; [split; [congruence|]|]; intros (items' & [= <-] & _ & Hs); [by destruct Hs|].
    destruct Hns. eapply list.Forall_impl; [exact Hs|]. by intros ops (op & item & -> & _). }
  destruct Hscan as [Hs ->]. pose proof (note_failures_spec (failures items docs) None) as Hn.
  destruct (foldl note_failure (None, None) (failures items docs)) as [t p]. destruct Hn as [Ht Hp].
  pose proof (failures_nil items docs Hlen Hs) as Hnil. destruct t as [e|].
  - symmetry in Ht. apply List.find_some in Ht as [Hin He]. unfold is_transient in He. apply list_elem_of_In in Hin.
    destruct (pe_Class e) eqn:Ec; [|done]. split; [split; [done|]|].
    + intros (items' & [= <-] & _ & _ & _ & Hall). eapply list.Forall_forall in Hall; [|exact Hin]. congruence.
    + intros (items' & [= <-] & _ & Hst). apply Hnil in Hst. rewrite Hst in Hin. by apply elem_of_nil in Hin.
  - destruct (Hp eq_refl) as [-> Hall]. destruct (failures items docs) as [|f fs] eqn:Ef; cbn.
    + exists items. split; [done|]. split; [done|]. by apply Hnil.
    + split; [split; [|by apply Forall_cons_iff in Hall as [-> _]]|].
      * intros _. exists items. by rewrite Ef.
      * intros (items' & [= <-] & _ & Hst). by apply Hnil in Hst.
Qed.

(** The verdict on a bulk write: it succeeds exactly when every document
    was well formed and the server answered for each of them, in one
    operation, that it is stored; it fails for good exactly when a document
    or the URL is malformed, the server refused the request, or it refused some
    documents and no other failed in a way worth retrying.  Everything else,
    lost connections and answers that do not make sense included, is reported
    as transient. *)
Theorem BulkIndex_spec (post : client (list (json * string))) (i : HTTPIndexer) (docs : list Document) :
  hx_base i ≠ "" → docs ≠ [] →
  (BulkIndex post (Some i) docs = None ↔ all_stored post i docs) ∧
  ((∃ err, BulkIndex post (Some i) docs = Some err ∧ ErrorClassOf err = ErrorPermanent) ↔ refused post i docs).
Proof.
  intros Hbase Hdocs. unfold BulkIndex. rewrite (bool_decide_eq_false_2 (hx_base i = "")), (bool_decide_eq_false_2 (docs = [])) by done.
  destruct (find_first _ docs) as [doc|] eqn:Ed.
  { apply List.find_some in Ed as [Hin%list_elem_of_In Hv%negb_true_iff]. split; split.
    - done.
    - intros [Hall _]. eapply list.Forall_forall in Hall; [|exact Hin]. congruence.
    - intros _. left. by exists doc.
    - intros _. by eexists. }
  assert (Forall (λ doc, valid_document doc = true) docs) as Hall.
  { apply list.Forall_forall. intros doc Hin. apply list_elem_of_In in Hin. pose proof (List.find_none _ _ Ed _ Hin) as Hv.
    by apply negb_false_iff in Hv. }
  assert (∀ doc, doc ∈ docs → valid_document doc ≠ false) as Hnone.
  { intros doc Hin. eapply list.Forall_forall in Hall; [|exact Hin]. congruence. }
  unfold all_stored, refused. destruct (post _ _ _) as [msg|msg|code status body] eqn:Ep.
  { split; split; [done|by intros (_ & ? & ? & ? & ? & ? & _)|intros _; right; left; by eauto|].
    intros _. by eexists. }
  { split; split; [done|by intros (_ & ? & ? & ? & ? & ? & _)|by intros (err & [= <-] & ?)|].
    intros [(doc & Hin & Hv)|[(_ & ? & ?)|(_ & ? & ? & ? & ? & _)]]; [by destruct (Hnone doc)|done..]. }
  destruct (ok_status code) eqn:Ecode; cbn [negb].
  2: { split; split; [done|by intros (_ & ? & ? & ? & ? & [= <- <- <-] & ? & _); congruence| |].
    - intros (err & [= <-] & Hc). do 2 right. split; [done|]. exists code, status, body. split; [done|]. by left.
    - intros [(doc & Hin & Hv)|[(_ & ? & ?)|(_ & ? & ? & ? & [= <- <- <-] & [[_ Hc]|[? _]])]]; [by destruct (Hnone doc)|done|by eexists|congruence]. }
  pose proof (decodeBulkResponse_spec body docs) as Hd. destruct (decodeBulkResponse body docs) as [e|]; cbn [fmap option_fmap option_map].
  - destruct Hd as [Hc Hns]. split; split; [done| | |].
    + intros (_ & ? & ? & ? & items & [= <- <- <-] & _ & H1). by destruct Hns; exists items.
    + intros (err & [= <-] & Hp). apply Hc in Hp as (items & Hp). do 2 right. split; [done|]. exists code, status, body. split; [done|].
      right. split; [done|]. by exists items.
    + intros [(doc & Hin & Hv)|[(_ & ? & ?)|(_ & ? & ? & ? & [= <- <- <-] & [[? _]|[_ (items & Hi)]])]]; [by destruct (Hnone doc)|done|congruence|].
      eexists. split; [reflexivity|]. apply Hc. by exists items.
  - destruct Hd as (items & Hi & Hlen & Hst). split; split; [|done|by intros (err & ? & _)|].
    + intros _. split; [done|]. by exists code, status, body, items.
    + intros [(doc & Hin & Hv)|[(_ & ? & ?)|(_ & ? & ? & ? & [= <- <- <-] & [[? _]|[_ (items' & Hi' & _ & Hs & Hf & _)]])]];
        [by destruct (Hnone doc)|done|congruence|]. rewrite Hi in Hi'. injection Hi' as <-. destruct Hf.
      apply failures_nil; [done|done|done].
Qed.
End client.

(** ** A request: two documents, one refused, one to be retried *)

Definition demo_json (items : list (list (string * bulk_item))) : JsonText :=
  {| json_valid _ := true; decode_items _ := Ok items; decode_hits _ := Ok []; encode_json _ := Ok "" |}.

Definition demo_docs : list Document := [MkDocument EventsWriteAlias "e1" "{}"; MkDocument EventsWriteAlias "e2" "{}"].
Definition demo_indexer : HTTPIndexer := MkHTTPIndexer "http://search" "" "".
Definition demo_post (_ : option (string * string)) (_ : string) (_ : list (json * string)) : http_reply := HttpReply 200 "200 OK" "".
Definition demo_item (status : Z) : list (string * bulk_item) := [("index", MkBulkItem status None)].

Lemma BulkIndex_spec_witness :
  (BulkIndex (H := demo_json [demo_item 201; demo_item 201]) demo_post (Some demo_indexer) demo_docs = None ∧
   all_stored (H := demo_json [demo_item 201; demo_item 201]) demo_post demo_indexer demo_docs) ∧
  refused (H := demo_json [demo_item 201; demo_item 400]) demo_post demo_indexer demo_docs.
Proof.
  split.
  - assert (BulkIndex (H := demo_json [demo_item 201; demo_item 201]) demo_post (Some demo_indexer) demo_docs = None) as Hn
      by (vm_compute; reflexivity).
    split; [exact Hn|]. apply (BulkIndex_spec (H := demo_json [demo_item 201; demo_item 201]) demo_post demo_indexer demo_docs);
      [discriminate|discriminate|exact Hn].
  - apply (BulkIndex_spec (H := demo_json [demo_item 201; demo_item 400]) demo_post demo_indexer demo_docs);
      [discriminate|discriminate|]. vm_compute. eexists. split; reflexivity.
Defined.
End OpenSearch.
