(* ===== verification/IngestWorker.v ===== *)
(** * The ingest worker ([internal/workers/ingest])

    The worker fetches data batches from a queue, merges each with the recent
    history of the scopes it touches, analyses them, and writes the events,
    signals and incidents to the index; only then is the batch committed.  A
    batch that can never be processed goes to the dead-letter queue.

    The answers of the world are functions of the number of the call
    ([Env]): the clock, the index, the history, the durable backend, the
    queue.  [protojson], [encoding/json] and RFC 3339 times are the
    parameters of [Texts]. *)

From S2P Require Import Prelude GoStrings GoBytes GoData GoSha GoText EventModel Policy Response PolicyModel Health Graph Analytics DataPlane Batcher StoreData StoreAgents StorePolicies StoreTelemetry OpenSearch.

Module IngestWorker.
Import EventModel PolicyModel Health Graph Rarity Incidents DataPlane StoreData StoreAgents StorePolicies StoreTelemetry OpenSearch.

(** ** Messages of the queue ([internal/platform/kafka]) *)

Record Message := MkMessage {
  msg_Topic : string;
  msg_Partition : Z;
  msg_Offset : Z;
  msg_Key : string;
  msg_Value : string
}.

Record deadLetterEnvelope := MkDeadLetterEnvelope {
  dl_SourceTopic : string;
  dl_SourcePartition : Z;
  dl_SourceOffset : Z;
  dl_SourceKey : string;
  dl_FailureClass : string;
  dl_FailureMessage : string;
  dl_FailureCode : string;
  dl_DocumentIndex : string;
  dl_DocumentID : string;
  dl_ObservedAt : Time;
  dl_Payload : string
}.

(** ** Texts *)

Class Texts := {
  marshal_envelope : deadLetterEnvelope → result string;
  marshal_event : CanonicalEvent → result string;
  marshal_signal : Signal → result string;
  marshal_incident : Incident → result string;
  marshal_evidence : EvidenceSubgraph → result string;
  unmarshal_event : string → result CanonicalEvent;
  unmarshal_signal : string → result Signal;
  unmarshal_batch : string → result DataBatch;
  json_value : Type;
  json_string : string → json_value;
  unmarshal_object : string → option (gmap string json_value);
  marshal_object : gmap string json_value → string;
  format_time : Time → string;
  parse_time : string → option Time;
  texts_unicode :: Unicode
}.

Definition unix (ns : Z) : Time := (unix_epoch + ns)%Z.

(** A result or an error *)
Inductive outcome (A : Type) := Done (x : A) | Failed (err : error).
Arguments Done {A} _.
Arguments Failed {A} _.

Definition of_result {A} (context : string) (r : result A) : outcome A :=
  match r with Ok x => Done x | Err msg => Failed (Plain (context +:+ msg)) end.

(** ** Scopes and history *)

Record touchedScope := MkTouchedScope {
  ts_labels : LabelSelector;
  ts_agent : AgentIdentity
}.

Definition select_label (labels : gmap string string) (selector : LabelSelector) (key : string) : LabelSelector :=
  let value := TrimSpace (default "" (labels !! key)) in
  if bool_decide (value = "") then selector else <[key := value]> selector.

Definition analysisSelector (labels : gmap string string) : LabelSelector :=
  foldl (select_label labels) ∅ ["case_type"; "scenario"; "workload"].

Definition labelSelectorKey (labels : LabelSelector) : string :=
  Join ((λ key, key +:+ "=" +:+ default "" (labels !! key)) <$> sort_strings (elements (dom labels))) ",".

Definition rememberTouchedScope (labels : gmap string string) (agent : AgentIdentity) (scopes : gmap string touchedScope)
    : gmap string touchedScope :=
  let selector := analysisSelector labels in
  if bool_decide (selector = ∅) then scopes
  else <[labelSelectorKey selector := MkTouchedScope selector agent]> scopes.

(** Labels of a message that may be nil *)
Definition event_labels (ev : option CanonicalEvent) : gmap string string := from_option ev_Labels ∅ ev.
Definition signal_labels (sig : option Signal) : gmap string string := from_option sig_Labels ∅ sig.

(** [strings.Trim(s, ":") == ""] *)
Fixpoint only_colons (s : string) : bool :=
  match s with EmptyString => true | String c s' => bool_decide (c = ":"%char) && only_colons s' end.

Definition EndpointSignalDocumentID (tenantID agentID signalID : string) : string :=
  if bool_decide (TrimSpace signalID = "") then ""
  else "endpoint-signal:" +:+ EncodeToString (take 16 (Sum256 (string_bytes (tenantID +:+ nul +:+ agentID +:+ nul +:+ signalID)))).

Definition SignalDocumentID (sig : option Signal) : string :=
  match sig with
  | None => ""
  | Some sig =>
    if bool_decide (sig_Where sig = SIGNAL_WHERE_CLOUD) then SignalProjectionKey sig
    else if negb (bool_decide (sig_Id sig = "")) then sig_Id sig
    else
      let id := Join (TrimSpace <$> [labelSelectorKey (analysisSelector (sig_Labels sig)); sig_Name sig; sig_LineageId sig]) ":" in
      if only_colons id then "" else id
  end.

Definition IncidentDocumentID (inc : Incident) : string :=
  let label key := default "" (inc_Labels inc !! key) in
  let identity := Join [inc_TenantId inc; inc_CorrelationKey inc; inc_AnalysisVersion inc] ":" in
  let identity := if only_colons identity then Join [label "tenant_id"; label "correlation_key"; label "analysis_version"] ":"
                  else identity in
  if negb (only_colons identity) then "incident:" +:+ EncodeToString (take 16 (Sum256 (string_bytes identity)))
  else inc_Id inc.

(** The last message of each identifier, in the order of the map *)
Definition merge_by {A} (key : A → string) (l : list A) : gmap string A :=
  foldl (λ m x, if bool_decide (key x = "") then m else <[key x := x]> m) ∅ l.

Definition values `{RangeOrder} {A} (m : gmap string A) : list A := omap (λ k, m !! k) (range_keys m).

Definition mergeEvents `{RangeOrder} (history current : list (option CanonicalEvent)) : list CanonicalEvent :=
  values (merge_by ev_Id (omap id (history ++ current))).

Definition mergeSignals `{RangeOrder} (history current : list (option Signal)) : list Signal :=
  values (merge_by (λ sig, SignalDocumentID (Some sig)) (omap id (history ++ current))).

Definition matchingEvents (events : list (option CanonicalEvent)) (labels : LabelSelector) : list (option CanonicalEvent) :=
  filter (λ ev, LabelsMatch (event_labels ev) labels = true) events.

Definition is_endpoint (sig : option Signal) : bool :=
  match sig with Some sig => bool_decide (sig_Where sig = SIGNAL_WHERE_ENDPOINT) | None => false end.

Definition matchingSignals (signals : list (option Signal)) (labels : LabelSelector) : list (option Signal) :=
  filter (λ sig, is_endpoint sig && LabelsMatch (signal_labels sig) labels = true) signals.

(** ** Times *)

Definition observe_range (acc : Z * Z) (ev : CanonicalEvent) : Z * Z :=
  let '(first, last) := acc in
  let observed := ev_OccurredAtNs ev in
  if (observed =? 0)%Z then acc
  else (if (first =? 0)%Z || (observed <? first)%Z then observed else first,
        if (last <? observed)%Z then observed else last).

Definition incidentObservedRange `{Texts} (events : list CanonicalEvent) : string * string :=
  let '(first, last) := foldl observe_range (0%Z, 0%Z) events in
  if (first =? 0)%Z then ("", "") else (format_time (unix (i64 first)), format_time (unix (i64 last))).

Definition batchUpperTime (batch : DataBatch) (fallback : Time) : Time :=
  let created := bh_CreatedAtUnixNano (GetHeader batch) in
  if (0 <? created)%Z then unix created
  else
    let latest := foldl (λ l frame, Z.max l (from_option ev_OccurredAtNs 0%Z (ef_Event frame))) 0%Z (db_Events batch) in
    if (0 <? latest)%Z then unix (i64 latest) else fallback.

Definition frameTime `{Texts} (raw : string) (fallback : Time) : Time := default fallback (parse_time raw).

(** ** Documents *)

Definition decorateDocument `{Texts} (tenantID : string) (observed : Time) (doc : Document) : Document :=
  match unmarshal_object (doc_Body doc) with
  | None => doc
  | Some body =>
    let body := <["@timestamp" := json_string (format_time observed)]> (<["tenant_id" := json_string tenantID]> (delete "tenantId" body)) in
    MkDocument (doc_Index doc) (doc_ID doc) (marshal_object body)
  end.

Definition blank_document : Document := MkDocument "" "" "".

(** [raw, err := protojson.Marshal(nil)] is [{}]; a nil message has no identifier and gives no document. *)
Definition signalDocumentWithID `{Texts} (sig : option Signal) (id : string) : outcome Document :=
  if bool_decide (id = "") then Done blank_document
  else match sig with
  | None => Done blank_document
  | Some sig =>
    match marshal_signal sig with
    | Err msg => Failed (Plain ("marshal signal " +:+ Quote id +:+ ": " +:+ msg))
    | Ok raw => Done (MkDocument SignalsWriteAlias id raw)
    end
  end.

Definition signalDocument `{Texts} (sig : option Signal) : outcome Document := signalDocumentWithID sig (SignalDocumentID sig).

Definition batchSignalDocument `{Texts} (tenantID agentID : string) (sig : option Signal) : outcome Document :=
  if is_endpoint sig then signalDocumentWithID sig (EndpointSignalDocumentID tenantID agentID (from_option sig_Id "" sig))
  else signalDocument sig.

Definition incidentDocuments `{Texts} (inc : Incident) : outcome (list Document) :=
  if bool_decide (inc_Id inc = "") then Done []
  else match marshal_incident inc with
  | Err msg => Failed (Plain ("marshal incident " +:+ Quote (inc_Id inc) +:+ ": " +:+ msg))
  | Ok raw =>
    let id := IncidentDocumentID inc in
    match inc_Evidence inc with
    | None => Done [MkDocument IncidentsWriteAlias id raw]
    | Some evidence =>
      match marshal_evidence evidence with
      | Err msg => Failed (Plain ("marshal incident evidence " +:+ Quote id +:+ ": " +:+ msg))
      | Ok evidenceRaw => Done [MkDocument EvidenceWriteAlias (id +:+ ":evidence") evidenceRaw; MkDocument IncidentsWriteAlias id raw]
      end
    end
  end.

(** The first error ends the loop. *)
Fixpoint collect_docs {A} (f : A → outcome (list Document)) (l : list A) : outcome (list Document) :=
  match l with
  | [] => Done []
  | x :: l' =>
    match f x with
    | Failed e => Failed e
    | Done docs => match collect_docs f l' with Failed e => Failed e | Done rest => Done (docs ++ rest) end
    end
  end.

Definition event_document `{Texts} (tenantID : string) (fallback : Time) (frame : EventFrame) : outcome (list Document) :=
  match ef_Event frame with
  | None => Done []
  | Some ev =>
    if bool_decide (ev_Id ev = "") then Done []
    else match marshal_event ev with
    | Err msg => Failed (Plain ("marshal event " +:+ Quote (ev_Id ev) +:+ ": " +:+ msg))
    | Ok raw => Done [decorateDocument tenantID (frameTime (ef_ObservedAt frame) fallback) (MkDocument EventsWriteAlias (ev_Id ev) raw)]
    end
  end.

Definition signal_document `{Texts} (tenantID agentID : string) (fallback : Time) (frame : SignalFrame) : outcome (list Document) :=
  match batchSignalDocument tenantID agentID (sf_Signal frame) with
  | Failed e => Failed e
  | Done doc =>
    if bool_decide (doc_ID doc = "") then Done []
    else Done [decorateDocument tenantID (frameTime (sf_ObservedAt frame) fallback) doc]
  end.

Definition batchDocuments `{Texts} (batch : DataBatch) (fallback : Time) : outcome (list Document) :=
  let tenantID := bh_TenantId (GetHeader batch) in
  let agentID := bh_AgentId (GetHeader batch) in
  match collect_docs (event_document tenantID fallback) (db_Events batch) with
  | Failed e => Failed e
  | Done events =>
    match collect_docs (signal_document tenantID agentID fallback) (db_Signals batch) with
    | Failed e => Failed e
    | Done signals => Done (events ++ signals)
    end
  end.

(** ** The world *)

Record Env := {
  env_now : nat → Time;
  env_bulk : nat → list Document → option error;
  env_save : nat → option string;
  env_saveMetrics : nat → option string;
  env_search : nat → SearchRequest → result (list string);
  env_effective : nat → option PolicyDoc;
  env_health : nat → option (option AgentHealth);
  env_append : nat → Message → option string;
  env_commit : nat → Message → option string;
  env_cancelled : nat → option string;
  env_fetchError : string
}.

(** The state of the worker, with what it has done to the world: the writes
    the index acknowledged, the dead letters that were taken, the messages
    committed *)
Record World := MkWorld {
  wd_store : Store;
  wd_engine : Ingest.Engine;
  wd_calls : nat;
  wd_indexed : list (list Document);
  wd_dead : list Message;
  wd_committed : list Message
}.

Global Instance World_eta : Settable World := λ x,
  MkWorld (wd_store x) (wd_engine x) (wd_calls x) (wd_indexed x) (wd_dead x) (wd_committed x).

Definition call {A} (f : nat → A) : StateM World A := λ w, (f (wd_calls w), w <| wd_calls ::= S |>).
Definition on_store (f : Store → Store) : StateM World unit := modify (λ w, w <| wd_store ::= f |>).

(** [if err != nil { return err }] *)
Definition try {A B} (c : StateM World (outcome A)) (k : A → StateM World (outcome B)) : StateM World (outcome B) :=
  λ w, let '(r, w) := c w in match r with Done x => k x w | Failed e => (Failed e, w) end.
Notation "x ←? c ; k" := (try c (λ x, k)) (at level 100, c at next level, right associativity) : sysarmor_scope.

(** ** The processor *)

Inductive HistoryReader := storeHistory | OpenSearchHistory (searcher : bool).

Record Processor := MkProcessor {
  p_history : HistoryReader;
  p_local : bool
}.

Definition NewProcessor : Processor := MkProcessor storeHistory true.
Definition NewProcessorWithHistory (history : HistoryReader) : Processor := MkProcessor history false.

Record Result := MkResult {
  r_AcceptedEvents : Z;
  r_AcceptedSignals : Z;
  r_CloudSignals : Z;
  r_Incidents : Z
}.

(** [batch.Header.CreatedAtUnixNano = latest] *)
Definition set_created (latest : Z) (batch : DataBatch) : DataBatch :=
  let h := GetHeader batch in
  MkDataBatch
    (Some (MkBatchHeader (bh_BatchId h) (bh_TenantId h) (bh_AgentId h) (bh_HostId h) (bh_PolicyId h) (bh_PolicyVersion h)
             (bh_PolicyMode h) (bh_EventSeqStart h) (bh_EventSeqEnd h) (bh_SignalSeqStart h) (bh_SignalSeqEnd h) (bh_EventCount h)
             (bh_SignalCount h) (bh_DroppedEventsDelta h) (bh_ParseErrorsDelta h) latest (bh_Labels h)))
    (db_Events batch) (db_Signals batch) (db_SchemaVersion batch).

Section worker.
Context `{RangeOrder} `{Texts} (env : Env).

Fixpoint decode_all {A} (decode : string → result A) (context : string) (raw : list string) : outcome (list A) :=
  match raw with
  | [] => Done []
  | document :: raw' =>
    match decode document with
    | Err msg => Failed (Plain (context +:+ msg))
    | Ok x => match decode_all decode context raw' with Failed e => Failed e | Done l => Done (x :: l) end
    end
  end.

Definition decodeEvents := decode_all unmarshal_event "decode event history: ".
Definition decodeSignals := decode_all unmarshal_signal "decode signal history: ".

Definition history_request (index tenantID : string) (exact : gmap string string) (labels : LabelSelector) (from to : Time)
    : SearchRequest :=
  MkSearchRequest index 10000 0 "" labels (<["tenant_id" := tenantID]> exact) ∅ "@timestamp" (format_time from) (format_time to) "" false.

Definition Read (reader : HistoryReader) (tenantID : string) (labels : LabelSelector) (from to : Time)
    : StateM World (outcome (list (option CanonicalEvent) * list (option Signal))) :=
  match reader with
  | storeHistory => s ← gets wd_store; mret (Done (Some <$> ListEvents labels "" s, Some <$> ListSignals labels "endpoint" false s))
  | OpenSearchHistory false => mret (Done ([], []))
  | OpenSearchHistory true =>
    eventDocs ← call (λ n, env_search env n (history_request EventsReadAlias tenantID ∅ labels from to));
    eventDocs ←? mret (of_result "read event history: " eventDocs);
    signalDocs ← call (λ n, env_search env n (history_request SignalsReadAlias tenantID {["where" := "SIGNAL_WHERE_ENDPOINT"]} labels from to));
    signalDocs ←? mret (of_result "read signal history: " signalDocs);
    events ←? mret (decodeEvents eventDocs);
    signals ←? mret (decodeSignals signalDocs);
    mret (Done (Some <$> events, Some <$> signals))
  end.

Definition effectiveDetectionPolicyForAgent (agent : AgentIdentity) : StateM World CloudPolicy :=
  let agent := Normalized agent in
  if negb (Valid agent) then
    backend ← call (env_effective env);
    s ← gets wd_store;
    mret (GetDetectionPolicy (default zero_policy (EffectivePolicy backend "default" "" "" "" s)))
  else
    health ← call (env_health env);
    s ← gets wd_store;
    let '(ty, selector) :=
      match GetAgentHealth health (ai_TenantID agent) (ai_AgentID agent) s with
      | Some h => (rs_Type (ah_Scope h), rs_Selector (ah_Scope h))
      | None => ("", "")
      end in
    backend ← call (env_effective env);
    mret (GetDetectionPolicy (default zero_policy (EffectivePolicy backend (ai_TenantID agent) (ai_AgentID agent) ty selector s))).

Definition analyze (events : list CanonicalEvent) (signals : list Signal) (policy : CloudPolicy) : StateM World Ingest.Result :=
  λ w, let '(r, e) := Ingest.AnalyzeWithPolicy events signals (Some policy) (wd_engine w) in (r, w <| wd_engine := e |>).

Definition finish_incident (scope : touchedScope) (events : list CanonicalEvent) (inc : Incident) : Incident :=
  let '(first, last) := incidentObservedRange events in
  inc <| inc_TenantId := ai_TenantID (Normalized (ts_agent scope)) |>
      <| inc_CorrelationKey := labelSelectorKey (ts_labels scope) |>
      <| inc_AnalysisVersion := "incident.v1" |>
      <| inc_FirstObservedAt := first |>
      <| inc_LastObservedAt := last |>.

Definition fifteen_minutes : Z := (15 * 60 * 10 ^ 9)%Z.

(** One scope: the number of cloud signals and of incidents, and their documents *)
Definition recompute_scope (p : Processor) (currentEvents : list (option CanonicalEvent)) (currentSignals : list (option Signal))
    (upper : Time) (scope : touchedScope) : StateM World (outcome (Z * Z * list Document)) :=
  let tenantID := ai_TenantID (Normalized (ts_agent scope)) in
  history ←? Read (p_history p) tenantID (ts_labels scope) (upper - fifteen_minutes)%Z upper;
  let events := mergeEvents history.1 (matchingEvents currentEvents (ts_labels scope)) in
  let endpointSignals := mergeSignals history.2 (matchingSignals currentSignals (ts_labels scope)) in
  policy ← effectiveDetectionPolicyForAgent (ts_agent scope);
  analysis ← analyze events endpointSignals policy;
  let cloud := Ingest.res_CloudSignals analysis in
  let incidents := finish_incident scope events <$> Ingest.res_Incidents analysis in
  (if p_local p then on_store (ReplaceDerivedForLabels (ts_labels scope) cloud incidents) else mret tt) ;;
  signalDocs ←? mret (collect_docs (λ sig, match signalDocument (Some sig) with Failed e => Failed e | Done doc => Done [doc] end) cloud);
  incidentDocs ←? mret (collect_docs incidentDocuments incidents);
  mret (Done (Z.of_nat (length cloud), Z.of_nat (length incidents), decorateDocument tenantID upper <$> signalDocs ++ incidentDocs)).

Fixpoint recompute_scopes (p : Processor) (currentEvents : list (option CanonicalEvent)) (currentSignals : list (option Signal))
    (upper : Time) (scopes : list touchedScope) : StateM World (outcome (Z * Z * list Document)) :=
  match scopes with
  | [] => mret (Done (0%Z, 0%Z, []))
  | scope :: scopes' =>
    one ←? recompute_scope p currentEvents currentSignals upper scope;
    rest ←? recompute_scopes p currentEvents currentSignals upper scopes';
    mret (Done ((one.1.1 + rest.1.1)%Z, (one.1.2 + rest.1.2)%Z, one.2 ++ rest.2))
  end.

Definition recomputeTouchedScopes (p : Processor) (touchedScopes : gmap string touchedScope)
    (currentEvents : list (option CanonicalEvent)) (currentSignals : list (option Signal)) (upper : Time)
    : StateM World (outcome (Z * Z * list Document)) :=
  recompute_scopes p currentEvents currentSignals upper (values touchedScopes).

(** The projector: what it acknowledged is in the index. *)
Definition bulk_index (docs : list Document) : StateM World (outcome unit) :=
  reply ← call (λ n, env_bulk env n docs);
  match reply with
  | Some e => mret (Failed e)
  | None => modify (λ w, w <| wd_indexed ::= λ l, l ++ [docs] |>) ;; mret (Done tt)
  end.

Definition check_saved (reply : option string) : outcome unit :=
  match reply with Some msg => Failed (Plain msg) | None => Done tt end.

Definition add_events (events : list (option CanonicalEvent)) (s : Store) : Store :=
  foldl (λ s ev, (AddEvent ev s).2) s (omap id events).
Definition add_signals (signals : list (option Signal)) (s : Store) : Store :=
  foldl (λ s sig, (AddSignal sig s).2) s (omap id signals).

Definition touched_by (agent : AgentIdentity) (events : list (option CanonicalEvent)) (signals : list (option Signal))
    : gmap string touchedScope :=
  let scopes := foldl (λ m ev, rememberTouchedScope (event_labels ev) agent m) ∅ events in
  foldl (λ m sig, rememberTouchedScope (signal_labels sig) agent m) scopes signals.

Definition Process (p : Processor) (batch : option DataBatch) : StateM World (outcome Result) :=
  match batch with
  | None => mret (Failed (Plain "data batch header identity is required"))
  | Some batch =>
    if bool_decide (db_Header batch = None) then mret (Failed (Plain "data batch header identity is required"))
    else
      let agent := AgentIdentityFromDataBatch batch in
      let currentEvents := ef_Event <$> db_Events batch in
      let currentSignals := sf_Signal <$> db_Signals batch in
      on_store (AddAgent agent) ;;
      (if p_local p then on_store (λ s, add_signals currentSignals (add_events currentEvents s)) else mret tt) ;;
      start ← call (env_now env);
      (if p_local p then modify (λ w, w <| wd_engine ::= Ingest.SetRarityBaseline (RarityBaselineSnapshot (wd_store w)) |>) else mret tt) ;;
      let upper := batchUpperTime batch start in
      derived ←? recomputeTouchedScopes p (touched_by agent currentEvents currentSignals) currentEvents currentSignals upper;
      docs ←? mret (batchDocuments batch upper);
      _ ←? bulk_index (docs ++ derived.2);
      stop ← call (env_now env);
      let events_n := Z.of_nat (length currentEvents) in
      let signals_n := Z.of_nat (length currentSignals) in
      on_store (RecordDataBatchIngest events_n signals_n derived.1.1 derived.1.2 (stop - start)%Z) ;;
      (if p_local p then on_store (λ s, (ObserveRaritySignals (omap id currentSignals) s).2) else mret tt) ;;
      saved ← call (env_save env);
      _ ←? mret (check_saved saved);
      saved ← call (env_saveMetrics env);
      _ ←? mret (check_saved saved);
      mret (Done (MkResult events_n signals_n derived.1.1 derived.1.2))
  end.

(** ** The worker *)

(** [schema.ValidateDataPlane] *)
Definition ValidateDataPlane (version : string) : outcome unit :=
  if bool_decide (version = Batcher.DataPlaneCurrent) then Done tt
  else Failed (Plain ("unsupported data plane schema version " +:+ Quote version)).

Definition validateBatchIdentity (batch : DataBatch) : outcome unit :=
  if bool_decide (db_Header batch = None) then Failed (Plain "data batch header is required")
  else
    let h := GetHeader batch in
    if bool_decide (bh_BatchId h = "") || bool_decide (bh_TenantId h = "") || bool_decide (bh_AgentId h = "")
    then Failed (Plain "batch_id, tenant_id, and agent_id are required") else Done tt.

Definition maxUnixNano (current : Z) (observedAt : string) (occurredAt : Z) : Z :=
  let current :=
    match parse_time observedAt with
    | Some parsed => if (current <? UnixNano parsed)%Z then UnixNano parsed else current
    | None => current
    end in
  if (0 <? occurredAt)%Z && (current <? i64 occurredAt)%Z then i64 occurredAt else current.

Definition stabilizeBatchTime (batch : DataBatch) (fallback : Time) : DataBatch :=
  let latest := bh_CreatedAtUnixNano (GetHeader batch) in
  let latest := foldl (λ l frame, maxUnixNano l (ef_ObservedAt frame) (from_option ev_OccurredAtNs 0%Z (ef_Event frame)))
                  latest (db_Events batch) in
  let latest := foldl (λ l frame, maxUnixNano l (sf_ObservedAt frame) 0) latest (db_Signals batch) in
  let latest := if (latest <=? 0)%Z then UnixNano fallback else latest in
  set_created latest batch.

(** The method [Error] of a projection error, and the text of other errors *)
Definition error_text (err : error) : string :=
  match err with
  | Plain msg => msg
  | Projection e =>
    "opensearch projection class=" +:+ (match pe_Class e with ErrorTransient => "transient" | ErrorPermanent => "permanent" end) +:+
    " status=" +:+ FormatInt (pe_Status e) +:+ " index=" +:+ pe_Index e +:+ " id=" +:+ pe_ID e +:+ ": " +:+ pe_Cause e
  end.

Record Worker := MkWorker {
  wk_processor : Processor;
  wk_dlq : bool
}.

Definition NewWorker (processor : Processor) : Worker := MkWorker processor false.
Definition NewWorkerWithDLQ (processor : Processor) : Worker := MkWorker processor true.

Definition commit (msg : Message) (context : string) : StateM World (option string) :=
  reply ← call (λ n, env_commit env n msg);
  match reply with
  | Some e => mret (Some (context +:+ Quote (msg_Key msg) +:+ ": " +:+ e))
  | None => modify (λ w, w <| wd_committed ::= λ l, l ++ [msg] |>) ;; mret None
  end.

Definition envelope_of (msg : Message) (class : string) (cause : error) (now : Time) : deadLetterEnvelope :=
  let '(code, index, id) :=
    match cause with
    | Projection e => ("opensearch_" +:+ FormatInt (pe_Status e), pe_Index e, pe_ID e)
    | Plain _ => (class, "", "")
    end in
  MkDeadLetterEnvelope (msg_Topic msg) (msg_Partition msg) (msg_Offset msg) (msg_Key msg) class (error_text cause) code index id
    now (msg_Value msg).

Definition append_dead (letter : Message) : StateM World (option string) :=
  reply ← call (λ n, env_append env n letter);
  match reply with
  | Some e => mret (Some e)
  | None => modify (λ w, w <| wd_dead ::= λ l, l ++ [letter] |>) ;; mret None
  end.

(** [None] when the message is out of the way *)
Definition reject (wk : Worker) (msg : Message) (class : string) (cause : error) : StateM World (option string) :=
  if negb (wk_dlq wk) then mret (Some ("decode raw data batch key=" +:+ Quote (msg_Key msg) +:+ ": " +:+ error_text cause))
  else
    now ← call (env_now env);
    match marshal_envelope (envelope_of msg class cause now) with
    | Err e => mret (Some ("encode dead letter key=" +:+ Quote (msg_Key msg) +:+ ": " +:+ e))
    | Ok body =>
      failed ← append_dead (MkMessage (msg_Topic msg +:+ ".dlq") 0 0 (msg_Key msg) body);
      match failed with
      | Some e => mret (Some ("publish dead letter key=" +:+ Quote (msg_Key msg) +:+ ": " +:+ e))
      | None => commit msg "commit rejected data batch key="
      end
    end.

(** The loop over the attempts that are left after this one *)
Fixpoint attempts (wk : Worker) (batch : DataBatch) (left : nat) : StateM World (option error) :=
  r ← Process (wk_processor wk) (Some batch);
  match r with
  | Done _ => mret None
  | Failed err =>
    match ErrorClassOf err, left with
    | ErrorPermanent, _ => mret (Some err)
    | ErrorTransient, O => mret (Some err)
    | ErrorTransient, S left' =>
      done ← call (env_cancelled env);
      match done with
      | Some msg => mret (Some (Plain msg))
      | None => attempts wk batch left'
      end
    end
  end.

Definition processWithRetry (wk : Worker) (batch : DataBatch) : StateM World (option error) := attempts wk batch 2.

(** One turn of the loop of [Run]: [None] to go on, else the error [Run] returns *)
Definition handle (wk : Worker) (msg : Message) : StateM World (option string) :=
  match unmarshal_batch (msg_Value msg) with
  | Err e => reject wk msg "invalid_data_batch" (Plain e)
  | Ok batch =>
    match ValidateDataPlane (db_SchemaVersion batch) with
    | Failed e => reject wk msg "unsupported_schema_version" e
    | Done _ =>
      match validateBatchIdentity batch with
      | Failed e => reject wk msg "invalid_data_batch" e
      | Done _ =>
        now ← call (env_now env);
        failed ← processWithRetry wk (stabilizeBatchTime batch now);
        match failed with
        | None => commit msg "commit raw data batch key="
        | Some err =>
          match ErrorClassOf err with
          | ErrorPermanent => reject wk msg "permanent_projection" err
          | ErrorTransient => mret (Some ("process raw data batch key=" +:+ Quote (msg_Key msg) +:+ ": " +:+ error_text err))
          end
        end
      end
    end
  end.

(** [Run] on the messages the queue holds: the error it returns, and the
    messages that are still in the queue *)
Fixpoint Run (wk : Worker) (inbox : list Message) : StateM World (string * list Message) :=
  match inbox with
  | [] => mret (env_fetchError env, [])
  | msg :: inbox' =>
    failed ← handle wk msg;
    match failed with
    | Some e => mret (e, msg :: inbox')
    | None => Run wk inbox'
    end
  end.

(** ** What the worker leaves behind *)

(** Nothing but the index changes, and the index only grows. *)
Definition grows (w w' : World) : Prop :=
  wd_dead w' = wd_dead w ∧ wd_committed w' = wd_committed w ∧ wd_indexed w `prefix_of` wd_indexed w'.

Definition only_indexes {A} (c : StateM World A) : Prop := ∀ w, grows w (c w).2.

Lemma grows_refl w : grows w w.
Proof. done. Qed.

Lemma grows_trans a b c : grows a b → grows b c → grows a c.
Proof. intros (H1 & H2 & H3) (H4 & H5 & H6). split_and!; [congruence..|by etrans]. Qed.

Lemma only_indexes_ret {A} (x : A) : only_indexes (mret x).
Proof. by intros w. Qed.

Lemma only_indexes_bind {A B} (c : StateM World A) (k : A → StateM World B) :
  only_indexes c → (∀ x, only_indexes (k x)) → only_indexes (c ≫= k).
Proof.
  intros Hc Hk w. unfold mbind, StateM_bind. specialize (Hc w). destruct (c w) as [x w1].
  eapply grows_trans; [exact Hc|apply Hk].
Qed.

Lemma only_indexes_try {A B} (c : StateM World (outcome A)) (k : A → StateM World (outcome B)) :
  only_indexes c → (∀ x, only_indexes (k x)) → only_indexes (try c k).
Proof.
  intros Hc Hk w. unfold try. specialize (Hc w). destruct (c w) as [[x|e] w1]; [|exact Hc].
  eapply grows_trans; [exact Hc|apply Hk].
Qed.

Lemma only_indexes_call {A} (f : nat → A) : only_indexes (call f).
Proof. by intros w. Qed.
Lemma only_indexes_gets {A} (f : World → A) : only_indexes (gets f).
Proof. by intros w. Qed.
Lemma only_indexes_store f : only_indexes (on_store f).
Proof. by intros w. Qed.
Lemma only_indexes_engine f : only_indexes (modify (λ w, w <| wd_engine ::= f w |>)).
Proof. by intros w. Qed.
Lemma only_indexes_analyze events signals policy : only_indexes (analyze events signals policy).
Proof. intros w. unfold analyze. by destruct (Ingest.AnalyzeWithPolicy _ _ _ _). Qed.

Lemma only_indexes_bulk docs : only_indexes (bulk_index docs).
Proof.
  unfold bulk_index. apply only_indexes_bind; [apply only_indexes_call|]. intros [e|]; [apply only_indexes_ret|].
  intros w. split_and!; [done..|]. by exists [docs].
Qed.

Create HintDb indexes.
Hint Resolve only_indexes_ret only_indexes_bind only_indexes_try only_indexes_call only_indexes_gets only_indexes_store
  only_indexes_engine only_indexes_analyze only_indexes_bulk : indexes.

Lemma only_indexes_Read reader tenantID labels from to : only_indexes (Read reader tenantID labels from to).
Proof. destruct reader as [|[]]; cbn; auto 20 with indexes. Qed.
Hint Resolve only_indexes_Read : indexes.

Lemma only_indexes_policy agent : only_indexes (effectiveDetectionPolicyForAgent agent).
Proof.
  unfold effectiveDetectionPolicyForAgent. destruct (negb _); [auto with indexes|].
  apply only_indexes_bind; [auto with indexes|]. intros health. apply only_indexes_bind; [auto with indexes|]. intros s.
  destruct (GetAgentHealth _ _ _ _); auto with indexes.
Qed.
Hint Resolve only_indexes_policy : indexes.

Lemma only_indexes_scope p ce cs upper scope : only_indexes (recompute_scope p ce cs upper scope).
Proof. unfold recompute_scope. destruct (p_local p); auto 20 with indexes. Qed.
Hint Resolve only_indexes_scope : indexes.

Lemma only_indexes_scopes p ce cs upper scopes : only_indexes (recompute_scopes p ce cs upper scopes).
Proof. induction scopes; cbn; auto 20 with indexes. Qed.
Hint Resolve only_indexes_scopes : indexes.

Lemma only_indexes_Process p batch : only_indexes (Process p batch).
Proof.
  unfold Process. destruct batch as [batch|]; [|auto with indexes]. destruct (bool_decide _); [auto with indexes|].
  unfold recomputeTouchedScopes. destruct (p_local p); auto 30 with indexes.
Qed.

(** A batch that was processed is in the index. *)
Definition indexed (batch : DataBatch) (w : World) : Prop :=
  ∃ start docs derived, batchDocuments batch (batchUpperTime batch start) = Done docs ∧ docs ++ derived ∈ wd_indexed w.

(** What holds of the world once a computation has succeeded *)
Definition leads {A} (Q : World → Prop) (c : StateM World (outcome A)) : Prop :=
  ∀ w y w', c w = (Done y, w') → Q w'.

Lemma leads_bind {A B} Q (c : StateM World A) (k : A → StateM World (outcome B)) :
  (∀ x, leads Q (k x)) → leads Q (c ≫= k).
Proof. intros Hk w y w'. unfold mbind, StateM_bind. destruct (c w) as [x w1]. apply Hk. Qed.

Lemma leads_try {A B} Q (c : StateM World (outcome A)) (k : A → StateM World (outcome B)) :
  (∀ x, leads Q (k x)) → leads Q (try c k).
Proof. intros Hk w y w'. unfold try. destruct (c w) as [[x|e] w1]; [apply Hk|done]. Qed.

Lemma leads_try_ret {A B} Q (o : outcome A) (k : A → StateM World (outcome B)) :
  (∀ x, o = Done x → leads Q (k x)) → leads Q (try (mret o) k).
Proof. intros Hk w y w'. unfold try. cbn. destruct o as [x|e]; [by apply Hk|done]. Qed.

Lemma leads_try_first {A B} (Q : World → Prop) (c : StateM World (outcome A)) (k : A → StateM World (outcome B)) :
  (∀ w w', Q w → grows w w' → Q w') → leads Q c → (∀ x, only_indexes (k x)) → leads Q (try c k).
Proof.
  intros Hmono Hc Hk w y w'. unfold try. destruct (c w) as [[x|e] w1] eqn:E; [|done]. intros Hrun.
  eapply Hmono; [by eapply Hc|]. specialize (Hk x w1). by rewrite Hrun in Hk.
Qed.

Lemma elem_of_grows {A} (x : A) l l' : x ∈ l → l `prefix_of` l' → x ∈ l'.
Proof. intros Hx [k ->]. set_solver. Qed.

Lemma indexed_grows batch w w' : indexed batch w → grows w w' → indexed batch w'.
Proof. intros (start & docs & derived & Hd & Hin) (_ & _ & Hp). exists start, docs, derived. split; [done|]. by eapply elem_of_grows. Qed.

Lemma bulk_indexed docs w y w' : bulk_index docs w = (Done y, w') → docs ∈ wd_indexed w'.
Proof.
  unfold bulk_index, call, mbind, StateM_bind. destruct (env_bulk _ _ _) as [e|]; cbn; [done|].
  intros [= _ <-]. cbn. set_solver.
Qed.

Lemma Process_indexed p batch : leads (indexed batch) (Process p (Some batch)).
Proof.
  unfold Process. destruct (bool_decide _); [by intros w y w' [=]|].
  apply leads_bind; intros _. apply leads_bind; intros _. apply leads_bind; intros start. apply leads_bind; intros _.
  apply leads_try; intros derived. apply leads_try_ret; intros docs Hdocs. apply leads_try_first.
  - apply indexed_grows.
  - intros w y w' Hrun. exists start, docs, derived.2. split; [done|]. by eapply bulk_indexed.
  - intros _. destruct (p_local p); auto 20 with indexes.
Qed.

(** ** Where a refusal of the index comes from *)

(** The projection errors a computation can end with *)
Definition blames {A} (P : ProjectionError → Prop) (c : StateM World (outcome A)) : Prop :=
  ∀ w e w', c w = (Failed (Projection e), w') → P e.

Definition plain {A} (o : outcome A) : Prop := ∀ e, o ≠ Failed (Projection e).

Lemma blames_bind {A B} P (c : StateM World A) (k : A → StateM World (outcome B)) :
  (∀ x, blames P (k x)) → blames P (c ≫= k).
Proof. intros Hk w e w'. unfold mbind, StateM_bind. destruct (c w) as [x w1]. apply Hk. Qed.

Lemma blames_try {A B} P (c : StateM World (outcome A)) (k : A → StateM World (outcome B)) :
  blames P c → (∀ x, blames P (k x)) → blames P (try c k).
Proof.
  intros Hc Hk w e w'. unfold try. destruct (c w) as [[x|err] w1] eqn:E; [apply Hk|].
  intros [= -> ->]. by eapply Hc.
Qed.

Lemma blames_ret {A} P (o : outcome A) : plain o → blames P (mret o).
Proof. intros Ho w e w' [= Heq _]. by destruct (Ho e). Qed.

Lemma blames_try_ret {A B} P (o : outcome A) (k : A → StateM World (outcome B)) :
  plain o → (∀ x, o = Done x → blames P (k x)) → blames P (try (mret o) k).
Proof. intros Ho Hk w e w'. unfold try. cbn. destruct o as [x|err]; [by apply Hk|]. intros [= -> _]. by destruct (Ho e). Qed.

Lemma plain_done {A} (x : A) : plain (Done x).
Proof. by intros e. Qed.
Lemma plain_failed {A} msg : plain (Failed (Plain msg) : outcome A).
Proof. by intros e. Qed.
Lemma plain_of_result {A} context (r : result A) : plain (of_result context r).
Proof. by destruct r. Qed.
Lemma plain_check_saved reply : plain (check_saved reply).
Proof. by destruct reply. Qed.

Lemma plain_match {A B} (o : outcome A) (k : A → outcome B) :
  plain o → (∀ x, plain (k x)) → plain (match o with Failed e => Failed e | Done x => k x end).
Proof. intros Ho Hk. destruct o as [x|err]; [apply Hk|]. intros e [= ->]. by destruct (Ho e). Qed.

Lemma plain_decode_all {A} (decode : string → result A) context raw : plain (decode_all decode context raw).
Proof. induction raw as [|d raw IH]; cbn; [done|]. destruct (decode d); [|done]. by apply plain_match. Qed.

Lemma plain_collect_docs {A} (f : A → outcome (list Document)) l : (∀ x, plain (f x)) → plain (collect_docs f l).
Proof.
  intros Hf. induction l as [|x l IH]; cbn; [done|]. apply plain_match; [apply Hf|]. intros docs. by apply plain_match.
Qed.

Lemma plain_signal sig id : plain (signalDocumentWithID sig id).
Proof. unfold signalDocumentWithID. repeat case_match; done. Qed.

Lemma plain_incident inc : plain (incidentDocuments inc).
Proof. unfold incidentDocuments. repeat case_match; done. Qed.

Lemma plain_cloud sig : plain (match signalDocument (Some sig) with Failed e => Failed e | Done doc => Done [doc] end).
Proof. apply plain_match; [apply plain_signal|done]. Qed.

Lemma plain_event tenantID fallback frame : plain (event_document tenantID fallback frame).
Proof. unfold event_document. repeat case_match; done. Qed.

Lemma plain_signal_frame tenantID agentID fallback frame : plain (signal_document tenantID agentID fallback frame).
Proof.
  apply plain_match; [|intros doc; by case_match].
  unfold batchSignalDocument, signalDocument. case_match; apply plain_signal.
Qed.

Lemma plain_batch batch fallback : plain (batchDocuments batch fallback).
Proof.
  apply plain_match; [apply plain_collect_docs, plain_event|]. intros events.
  apply plain_match; [apply plain_collect_docs, plain_signal_frame|done].
Qed.

Create HintDb blames.
Hint Resolve blames_bind blames_try blames_ret blames_try_ret plain_done plain_failed plain_of_result plain_check_saved
  plain_decode_all plain_collect_docs plain_incident plain_cloud plain_batch : blames.

Lemma blames_Read P reader tenantID labels from to : blames P (Read reader tenantID labels from to).
Proof. unfold Read, decodeEvents, decodeSignals. destruct reader as [|[]]; auto 20 with blames. Qed.
Hint Resolve blames_Read : blames.

Lemma blames_scope P p ce cs upper scope : blames P (recompute_scope p ce cs upper scope).
Proof. unfold recompute_scope. auto 20 with blames. Qed.
Hint Resolve blames_scope : blames.

Lemma blames_scopes P p ce cs upper scopes : blames P (recompute_scopes p ce cs upper scopes).
Proof. induction scopes; cbn; auto 20 with blames. Qed.
Hint Resolve blames_scopes : blames.

(** The index answered a bulk request with all documents of the batch with this error. *)
Definition refused_with (batch : DataBatch) (e : ProjectionError) : Prop :=
  ∃ start docs derived n, batchDocuments batch (batchUpperTime batch start) = Done docs ∧
    env_bulk env n (docs ++ derived) = Some (Projection e).

Lemma bulk_blames docs w e w' : bulk_index docs w = (Failed (Projection e), w') → env_bulk env (wd_calls w) docs = Some (Projection e).
Proof. unfold bulk_index, call, mbind, StateM_bind. destruct (env_bulk _ _ _) as [err|]; cbn; [by intros [= -> _]|done]. Qed.

Lemma Process_blames p batch : blames (refused_with batch) (Process p (Some batch)).
Proof.
  unfold Process, recomputeTouchedScopes. destruct (bool_decide _); [by intros w e w' [=]|].
  apply blames_bind; intros _. apply blames_bind; intros _. apply blames_bind; intros start. apply blames_bind; intros _.
  apply blames_try; [auto with blames|intros derived]. apply blames_try_ret; [auto with blames|intros docs Hdocs].
  apply blames_try; [|auto 20 with blames].
  intros w e w' Hrun%bulk_blames. by exists start, docs, derived.2, (wd_calls w).
Qed.

(** ** Every message is delivered or dead-lettered before it is committed *)

Lemma attempts_spec wk batch left w r w' :
  attempts wk batch left w = (r, w') →
  grows w w' ∧ (r = None → indexed batch w') ∧ ∀ e, r = Some (Projection e) → refused_with batch e.
Proof.
  revert w. induction left as [|left IH]; intros w; cbn [attempts]; unfold mbind at 1, StateM_bind;
    pose proof (only_indexes_Process (wk_processor wk) (Some batch) w) as Hg;
    destruct (Process (wk_processor wk) (Some batch) w) as [[y|err] w1] eqn:E; cbn in Hg |- *.
  all: try (intros [= <- <-]; split_and!; [done| |done]; intros _; by eapply Process_indexed).
  all: assert (∀ e, Some err = Some (Projection e) → refused_with batch e) as Hb
    by (intros e [= ->]; by eapply Process_blames).
  - destruct (ErrorClassOf err); by intros [= <- <-].
  - destruct (ErrorClassOf err); [|by intros [= <- <-]].
    unfold call, mbind, StateM_bind. destruct (env_cancelled env _) as [msg|]; cbn; [by intros [= <- <-]|].
    intros Hrun. destruct (IH _ Hrun) as (Hg' & Hi & Hb'). split_and!; [|done..]. by eapply grows_trans.
Qed.

(** The reasons for which a message may be put aside *)
Inductive rejectable (msg : Message) : string → error → Prop :=
  | undecodable e : unmarshal_batch (msg_Value msg) = Err e → rejectable msg "invalid_data_batch" (Plain e)
  | unknown_schema batch e :
      unmarshal_batch (msg_Value msg) = Ok batch → ValidateDataPlane (db_SchemaVersion batch) = Failed e →
      rejectable msg "unsupported_schema_version" e
  | anonymous batch e :
      unmarshal_batch (msg_Value msg) = Ok batch → validateBatchIdentity batch = Failed e →
      rejectable msg "invalid_data_batch" e
  | refused_for_good batch now e :
      unmarshal_batch (msg_Value msg) = Ok batch → refused_with (stabilizeBatchTime batch now) e →
      pe_Class e = ErrorPermanent → rejectable msg "permanent_projection" (Projection e).

Definition delivered (msg : Message) (w : World) : Prop :=
  ∃ batch now, unmarshal_batch (msg_Value msg) = Ok batch ∧ indexed (stabilizeBatchTime batch now) w.

Definition dead_lettered (msg : Message) (w : World) : Prop :=
  ∃ class cause now body,
    rejectable msg class cause ∧ marshal_envelope (envelope_of msg class cause now) = Ok body ∧
    MkMessage (msg_Topic msg +:+ ".dlq") 0 0 (msg_Key msg) body ∈ wd_dead w.

Definition settled (msg : Message) (w : World) : Prop := delivered msg w ∨ dead_lettered msg w.

(** The index and the dead letters only grow. *)
Definition evolves (w w' : World) : Prop :=
  wd_dead w `prefix_of` wd_dead w' ∧ wd_indexed w `prefix_of` wd_indexed w'.

Definition commits (done : list Message) (w w' : World) : Prop :=
  evolves w w' ∧ wd_committed w' = wd_committed w ++ done ∧ ∀ msg, msg ∈ done → settled msg w'.

Lemma evolves_trans a b c : evolves a b → evolves b c → evolves a c.
Proof. intros [] []. split; by etrans. Qed.

Lemma grows_evolves w w' : grows w w' → evolves w w'.
Proof. intros (Hd & _ & Hi). split; [by rewrite Hd|done]. Qed.

Lemma settled_evolves msg w w' : settled msg w → evolves w w' → settled msg w'.
Proof.
  intros [(batch & now & Hb & start & docs & derived & Hd & Hin)|(class & cause & now & body & Hr & Hm & Hin)] [Hdead Hidx].
  - left. exists batch, now. split; [done|]. exists start, docs, derived. split; [done|]. by eapply elem_of_grows.
  - right. exists class, cause, now, body. split_and!; [done..|]. by eapply elem_of_grows.
Qed.

Lemma commits_nil w w' : evolves w w' → wd_committed w' = wd_committed w → commits [] w w'.
Proof. intros He Hc. split_and!; [done|by rewrite app_nil_r|]. by intros msg ?%elem_of_nil. Qed.

Lemma commits_app l l' a b c : commits l a b → commits l' b c → commits (l ++ l') a c.
Proof.
  intros (He & Hc & Hs) (He' & Hc' & Hs'). split_and!; [by eapply evolves_trans| |].
  - by rewrite Hc', Hc, (assoc_L (++)).
  - intros msg [Hin|Hin]%elem_of_app; [|by apply Hs']. eapply settled_evolves; [by apply Hs|done].
Qed.

(** What one turn commits: its message or, with an error, nothing *)
Definition turn (r : option string) (msg : Message) : list Message := if r is None then [msg] else [].

Lemma commit_spec msg context w r w' :
  commit msg context w = (r, w') → settled msg w → commits (turn r msg) w w'.
Proof.
  unfold commit, call, mbind, StateM_bind. destruct (env_commit _ _ _) as [e|]; cbn; intros [= <- <-] Hs.
  - by apply commits_nil.
  - split_and!; [done..|]. intros ? ->%list_elem_of_singleton. by eapply settled_evolves.
Qed.

Lemma reject_spec wk msg class cause w r w' :
  reject wk msg class cause w = (r, w') → rejectable msg class cause → commits (turn r msg) w w'.
Proof.
  unfold reject. destruct (negb _); [intros [= <- <-] _; by apply commits_nil|].
  unfold call, mbind, StateM_bind. intros Hrun Hr. set (now := env_now env (wd_calls w)) in *.
  destruct (marshal_envelope _) as [body|e] eqn:Em; [|injection Hrun as <- <-; by apply commits_nil].
  unfold append_dead, call, mbind, StateM_bind in Hrun. destruct (env_append _ _ _) as [e|]; cbn in Hrun.
  - injection Hrun as <- <-. by apply commits_nil.
  - eapply (commits_app []); [|eapply commit_spec; [exact Hrun|]].
    + apply commits_nil; [split; [by eexists [_]|done]|done].
    + right. exists class, cause, now, body. split_and!; [done..|]. cbn. set_solver.
Qed.

Lemma handle_spec wk msg w r w' : handle wk msg w = (r, w') → commits (turn r msg) w w'.
Proof.
  unfold handle. destruct (unmarshal_batch _) as [batch|e] eqn:Eu;
    [|intros Hrun; eapply reject_spec; [exact Hrun|by constructor]].
  destruct (ValidateDataPlane _) as [?|e] eqn:Ev;
    [|intros Hrun; eapply reject_spec; [exact Hrun|by eapply unknown_schema]].
  destruct (validateBatchIdentity _) as [?|e] eqn:Ei;
    [|intros Hrun; eapply reject_spec; [exact Hrun|by eapply anonymous]].
  unfold call, mbind, StateM_bind. set (now := env_now _ _).
  destruct (processWithRetry wk _ _) as [failed w1] eqn:Ep. apply attempts_spec in Ep as (Hg & Hi & Hb).
  intros Hrun. apply (commits_app [] _ _ w1).
  { apply commits_nil; [by apply grows_evolves|]. by destruct Hg as (_ & -> & _). }
  destruct failed as [err|].
  - destruct (ErrorClassOf err) eqn:Ec; [injection Hrun as <- <-; by apply commits_nil|].
    destruct err as [e|]; [|done]. eapply reject_spec; [exact Hrun|]. by eapply refused_for_good; [|apply Hb|].
  - eapply commit_spec; [exact Hrun|]. left. exists batch, now. split; [done|]. by apply Hi.
Qed.

(** C9. The ingest worker loses no message. Whatever the index, the queue, the
    dead-letter queue, the clock and the cancellation answer, when [Run]
    returns the messages of the queue split into those it has taken, in order,
    and those that are left: exactly the former have been committed, once each
    and in the order of the queue, and each of them is settled before [Run]
    goes on: either all documents of its batch were acknowledged by the index
    in one bulk request, or it was rejectable for good (not decodable, of an
    unknown schema version, without an identity, or refused for good by the
    index when its documents were offered) and the envelope with its original bytes has been accepted by the
    dead-letter queue. A message that failed for a passing reason, or that
    could be neither indexed nor put aside, is still first in the queue. *)
Theorem nothing_lost wk inbox w : ∃ e done rest w',
  Run wk inbox w = ((e, rest), w') ∧ inbox = done ++ rest ∧ wd_committed w' = wd_committed w ++ done ∧
  ∀ msg, msg ∈ done → settled msg w'.
Proof.
  enough (∃ e done rest w', Run wk inbox w = ((e, rest), w') ∧ inbox = done ++ rest ∧ commits done w w')
    as (e & done & rest & w' & HR & Hin & _ & Hc & Hs) by eauto 10.
  revert w. induction inbox as [|msg inbox IH]; intros w; cbn [Run].
  { exists (env_fetchError env), [], [], w. split_and!; [done..|]. by apply commits_nil. }
  unfold mbind at 1, StateM_bind at 1. destruct (handle wk msg w) as [[e|] w1] eqn:Eh; apply handle_spec in Eh.
  - by exists e, [], (msg :: inbox), w1.
  - destruct (IH w1) as (e & done & rest & w' & HR & -> & Hc). exists e, (msg :: done), rest, w'.
    split_and!; [done..|]. by apply (commits_app [msg] _ _ w1).
Qed.
End worker.
End IngestWorker.
