(* ===== verification/Gateway.v ===== *)
(** * The gateway: identities and the data plane ([internal/gateway], [internal/tlsconfig])

    Agents upload batches over a stream.  The gateway checks the token and
    the certificate of the caller, puts the batch on the queue of the ingest
    worker, notes its id as the agent's cursor, and acknowledges it; in local
    mode it also processes the batch itself.  A batch whose id is the cursor
    of its agent is acknowledged as a duplicate.

    The world answers call by call, as for the ingest worker ([Env]); the
    sessions a durable backend lists are [sessions].  The answers of the
    queue and of [Save] are plain errors, of code [Unknown]. *)

From S2P Require Import Prelude GoStrings GoBytes GoData GoSha GoText EventModel DataPlane Response PolicyModel Health StoreData StoreAgents OpenSearch IngestWorker.

Module Gateway.
Import EventModel DataPlane Health StoreData StoreAgents OpenSearch IngestWorker.

(** ** The identity of a caller ([mtls.go], [identity.go]) *)

(** What the code reads of a URI: its path, the first value of each query
    parameter, and its text *)
Record URI := MkURI {
  uri_Path : string;
  uri_Query : gmap string string;
  uri_String : string
}.

Record Certificate := MkCertificate {
  crt_URIs : list URI;
  crt_CommonName : string
}.

Record PeerIdentity := MkPeerIdentity {
  pi_TenantID : string;
  pi_AgentID : string;
  pi_Principal : string
}.

Definition zero_peer : PeerIdentity := MkPeerIdentity "" "" "".

(** The [j] loop: the agent named after [tenant] *)
Fixpoint agent_after (tenant principal : string) (parts : list string) : option PeerIdentity :=
  match parts with
  | name :: ((value :: _) as rest) =>
    if bool_decide (name = "agent") && negb (bool_decide (tenant = "")) && negb (bool_decide (value = ""))
    then Some (MkPeerIdentity tenant value principal)
    else agent_after tenant principal rest
  | _ => None
  end.

(** The [i] loop *)
Fixpoint tenant_in (principal : string) (parts : list string) : option PeerIdentity :=
  match parts with
  | name :: ((value :: rest) as tail) =>
    if bool_decide (name = "tenant") then
      match agent_after value principal rest with Some id => Some id | None => tenant_in principal tail end
    else tenant_in principal tail
  | _ => None
  end.

(** [strings.Trim(s, "/")] *)
Definition trim_path (s : string) : string :=
  String.string_of_list_ascii (rev (strip_slashes (rev (strip_slashes (String.list_ascii_of_string s))))).

Definition identityFromURI (uri : URI) : option PeerIdentity :=
  match tenant_in (uri_String uri) (split_byte "/"%char (trim_path (uri_Path uri))) with
  | Some id => Some id
  | None =>
    let get key := default "" (uri_Query uri !! key) in
    if negb (bool_decide (get "tenant_id" = "")) && negb (bool_decide (get "agent_id" = ""))
    then Some (MkPeerIdentity (get "tenant_id") (get "agent_id") (uri_String uri))
    else None
  end.

Definition name_part (id : PeerIdentity) (part : string) : PeerIdentity :=
  let part := TrimSpace part in
  let '(key, value, ok) := (let r := Cut part "="%char in if r.2 : bool then r else Cut part ":"%char) in
  if negb ok then id
  else
    let key := TrimSpace key in
    if bool_decide (key ∈ ["tenant"; "tenant_id"]) then MkPeerIdentity (TrimSpace value) (pi_AgentID id) (pi_Principal id)
    else if bool_decide (key ∈ ["agent"; "agent_id"]) then MkPeerIdentity (pi_TenantID id) (TrimSpace value) (pi_Principal id)
    else id.

Definition identityFromCommonName (cn : string) : option PeerIdentity :=
  let cn := TrimSpace cn in
  let named :=
    let id := foldl name_part zero_peer (split_byte ","%char cn) in
    if negb (bool_decide (pi_TenantID id = "")) && negb (bool_decide (pi_AgentID id = ""))
    then Some (MkPeerIdentity (pi_TenantID id) (pi_AgentID id) ("cn:" +:+ cn))
    else None in
  if bool_decide (cn = "") then None
  else
    let '(tenant, agent, ok) := Cut cn "/"%char in
    if ok && negb (bool_decide (tenant = "")) && negb (bool_decide (agent = ""))
    then Some (MkPeerIdentity tenant agent ("cn:" +:+ cn)) else named.

(** What the context of a call carries: the certificates of a TLS peer, and
    the two metadata entries ([None]: no metadata at all) *)
Record Caller := MkCaller {
  ca_Certificates : list Certificate;
  ca_Metadata : option (list string * list string)
}.

Fixpoint first_some {A B} (f : A → option B) (l : list A) : option B :=
  match l with [] => None | x :: l' => match f x with Some y => Some y | None => first_some f l' end end.

Definition PeerAgentIdentity (ctx : Caller) : option PeerIdentity :=
  match ca_Certificates ctx with
  | [] => None
  | cert :: _ =>
    match first_some identityFromURI (crt_URIs cert) with
    | Some id => Some id
    | None => identityFromCommonName (crt_CommonName cert)
    end
  end.

Definition authorized (token : string) (ctx : Caller) : bool :=
  if bool_decide (token = "") then true
  else match ca_Metadata ctx with
  | None => false
  | Some (tokens, authorization) => bool_decide (token ∈ tokens) || bool_decide ("Bearer " +:+ token ∈ authorization)
  end.

Definition check_peer (what : string) (ctx : Caller) (tenantID agentID : string) : result (option PeerIdentity) :=
  match PeerAgentIdentity ctx with
  | None => Ok None
  | Some peer =>
    let tenantID := or_default tenantID in
    if negb (bool_decide (pi_TenantID peer = tenantID)) || negb (bool_decide (pi_AgentID peer = agentID))
    then Err ("mTLS identity mismatch: cert=" +:+ pi_TenantID peer +:+ "/" +:+ pi_AgentID peer +:+ " " +:+ what +:+ "=" +:+ tenantID +:+ "/" +:+ agentID)
    else Ok (Some peer)
  end.

Definition header_of (batch : option DataBatch) : BatchHeader := from_option GetHeader zero_header batch.

Definition validatePeerDataIdentity (ctx : Caller) (header : BatchHeader) : result (option PeerIdentity) :=
  check_peer "batch" ctx (bh_TenantId header) (bh_AgentId header).

Definition agentIdentityFromPeer (peer : PeerIdentity) (hostID version : string) : AgentIdentity :=
  MkAgentIdentity (pi_AgentID peer) hostID version (pi_TenantID peer) "mtls" (pi_Principal peer).

(** ** The runtime ([runtime.go], [backend.go], [metrics.go]) *)

Record DataAppendResult := MkDataAppendResult {
  dr_AcceptedEvents : Z;
  dr_AcceptedSignals : Z;
  dr_CloudSignals : Z;
  dr_Incidents : Z;
  dr_Duplicate : bool
}.

Definition zero_result : DataAppendResult := MkDataAppendResult 0 0 0 0 false.

Record Metrics := MkMetrics {
  mt_acceptedBatches : Z;
  mt_duplicateBatches : Z;
  mt_rejectedBatches : Z;
  mt_handoffErrors : Z;
  mt_acceptedEvents : Z;
  mt_acceptedSignals : Z
}.

Instance Metrics_eta : Settable Metrics := λ x,
  MkMetrics (mt_acceptedBatches x) (mt_duplicateBatches x) (mt_rejectedBatches x) (mt_handoffErrors x) (mt_acceptedEvents x)
    (mt_acceptedSignals x).

(** The fields of [Runtime] that do not change *)
Record Runtime := MkRuntime {
  rt_localProcessor : option Processor;
  rt_agentToken : string;
  rt_owner : string
}.

Definition NewRuntime (localProcessor : option Processor) (agentToken owner : string) : Runtime :=
  MkRuntime localProcessor agentToken (if bool_decide (owner = "") then "sysarmor-gateway" else owner).

(** A session in the hot state *)
Record HotSession := MkHotSession {
  hs_Owner : string;
  hs_Session : AgentSession
}.

(** The state of the gateway, with what it did to the world: the messages the
    queue took and the sessions sent to the hot state *)
Record State := MkState {
  gw_world : World;
  gw_queue : list Message;
  gw_hot : list HotSession;
  gw_metrics : Metrics
}.

Instance State_eta : Settable State := λ x, MkState (gw_world x) (gw_queue x) (gw_hot x) (gw_metrics x).

Definition gw_store (g : State) : Store := wd_store (gw_world g).

(** [marshal_batch] is [protojson.Marshal]. *)
Class BatchText := { marshal_batch : DataBatch → result string }.

Inductive upload_error := ErrInvalidUpload (msg : string) | OtherError (msg : string).

Definition upload_error_text (e : upload_error) : string :=
  match e with ErrInvalidUpload msg => "invalid upload: " +:+ msg | OtherError msg => msg end.

Definition inside {A} (c : StateM World A) : StateM State A := λ g,
  let '(x, w) := c (gw_world g) in (x, g <| gw_world := w |>).

Definition count (f : Metrics → Metrics) : StateM State unit := modify (λ g, g <| gw_metrics ::= f |>).

Definition batchScopeLabels (batch : DataBatch) : list (gmap string string) :=
  bh_Labels (GetHeader batch) :: ((λ frame, event_labels (ef_Event frame)) <$> db_Events batch) ++
  ((λ frame, signal_labels (sf_Signal frame)) <$> db_Signals batch).

Definition scope_key (labels : gmap string string) : option string :=
  first_some (λ key, let value := TrimSpace (default "" (labels !! key)) in
                     if bool_decide (value = "") then None else Some (key +:+ "=" +:+ value)) ["case_type"; "scenario"; "workload"].

Definition batchCorrelationKey (batch : DataBatch) : string :=
  default (bh_AgentId (GetHeader batch)) (first_some scope_key (batchScopeLabels batch)).

Definition missing_fields (header : BatchHeader) : list string :=
  (if bool_decide (bh_AgentId header = "") then ["agent_id"] else []) ++
  (if bool_decide (bh_HostId header = "") then ["host_id"] else []) ++
  (if bool_decide (bh_TenantId header = "") then ["tenant_id"] else []).

Definition validateUploadIdentity (batch : option DataBatch) : option upload_error :=
  match batch ≫= db_Header with
  | None => Some (ErrInvalidUpload "batch header identity is required")
  | Some header =>
    let missing := missing_fields header in
    if bool_decide (missing = []) then None else Some (ErrInvalidUpload ("agent identity missing " +:+ Join missing ", "))
  end.

Section data.
Context `{RangeOrder} `{Texts} `{BatchText} `{SliceSort} (env : Env) (sessions : nat → string → string → option (list AgentSession)) (rt : Runtime).

Definition listAgentSessions (tenantID agentID : string) : StateM State (list AgentSession) :=
  backend ← inside (call (λ n, sessions n tenantID agentID));
  s ← gets gw_store;
  mret (ListAgentSessions backend tenantID agentID s).

Definition isDuplicateBatch (tenantID agentID batchID : string) : StateM State bool :=
  if bool_decide (batchID = "") then mret false
  else
    l ← listAgentSessions tenantID agentID;
    mret (existsb (λ session, bool_decide (as_LastAckCursor session = batchID)) l).

Definition TouchHotSession (session : AgentSession) : StateM State unit :=
  if bool_decide (as_AgentID session = "") then mret tt
  else modify (λ g, g <| gw_hot ::= λ l, l ++ [MkHotSession (rt_owner rt) session] |>).

Definition topic : string := "sysarmor.agent.databatch.raw".

Definition appendRawBatch (batch : DataBatch) : StateM State (option string) :=
  match marshal_batch batch with
  | Err e => mret (Some ("encode raw data batch: " +:+ e))
  | Ok raw =>
    let msg := MkMessage topic 0 0 (Join [bh_TenantId (GetHeader batch); batchCorrelationKey batch] ":") raw in
    failed ← inside (call (λ n, env_append env n msg));
    match failed with
    | Some e => mret (Some e)
    | None => modify (λ g, g <| gw_queue ::= λ l, l ++ [msg] |>) ;; mret None
    end
  end.

Definition processLocal (batch : DataBatch) : StateM State (result DataAppendResult) :=
  match rt_localProcessor rt with
  | None => mret (Ok zero_result)
  | Some p =>
    r ← inside (Process env p (Some batch));
    match r with
    | Failed e => mret (Err (error_text e))
    | Done r => mret (Ok (MkDataAppendResult (r_AcceptedEvents r) (r_AcceptedSignals r) (r_CloudSignals r) (r_Incidents r) false))
    end
  end.

(** [session := r.store.RecordDataBatchAppend(..); r.TouchHotSession(session)] *)
Definition record_append (batch : DataBatch) (transport : string) : StateM State unit :=
  now ← inside (call (env_now env));
  session ← inside (λ w, let '(session, s) := RecordDataBatchAppend now (AgentIdentityFromDataBatch batch) (bh_BatchId (GetHeader batch)) transport now (wd_store w)
                         in (session, w <| wd_store := s |>));
  TouchHotSession session.

Definition AppendDataBatchWithTransport (batch : option DataBatch) (transport : string) : StateM State (upload_error + DataAppendResult) :=
  match validateUploadIdentity batch, batch with
  | Some e, _ => count (λ m, m <| mt_rejectedBatches ::= λ n, u64 (n + 1) |>) ;; mret (inl e)
  | None, None => mret (inl (ErrInvalidUpload ""))
  | None, Some batch =>
    let header := GetHeader batch in
    duplicate ← isDuplicateBatch (bh_TenantId header) (bh_AgentId header) (bh_BatchId header);
    if duplicate : bool then
      record_append batch transport ;;
      count (λ m, m <| mt_duplicateBatches ::= λ n, u64 (n + 1) |>) ;;
      saved ← inside (call (env_save env));
      match saved with
      | Some e => mret (inl (OtherError e))
      | None => mret (inr (MkDataAppendResult 0 0 0 0 true))
      end
    else
      failed ← appendRawBatch batch;
      match failed with
      | Some e => count (λ m, m <| mt_handoffErrors ::= λ n, u64 (n + 1) |>) ;; mret (inl (OtherError e))
      | None =>
        record_append batch transport ;;
        saved ← inside (call (env_save env));
        match saved with
        | Some e => mret (inl (OtherError e))
        | None =>
          r ← processLocal batch;
          match r with
          | Err e => count (λ m, m <| mt_rejectedBatches ::= λ n, u64 (n + 1) |>) ;; mret (inl (OtherError e))
          | Ok result =>
            count (λ m, m <| mt_acceptedBatches ::= λ n, u64 (n + 1) |>
                          <| mt_acceptedEvents ::= λ n, u64 (n + dr_AcceptedEvents result) |>
                          <| mt_acceptedSignals ::= λ n, u64 (n + dr_AcceptedSignals result) |>) ;;
            mret (inr result)
          end
        end
      end
  end.

(** ** The data server ([grpc.go]) *)

Inductive Code :=
  | OK | Canceled | Unknown | InvalidArgument | DeadlineExceeded | NotFound | AlreadyExists | PermissionDenied | ResourceExhausted
  | FailedPrecondition | Aborted | OutOfRange | Unimplemented | Internal | Unavailable | DataLoss | Unauthenticated.

Definition dataAckRetryable (code : Code) : bool :=
  match code with Unavailable | ResourceExhausted | DeadlineExceeded | Aborted | Internal | Unknown => true | _ => false end.

Definition stringReasonCode (status : AckStatus) : string :=
  match status with
  | STATUS_ACCEPTED => "accepted"
  | STATUS_DUPLICATE => "duplicate"
  | STATUS_RETRYABLE => "retryable"
  | STATUS_REJECTED => "rejected"
  | STATUS_UNSPECIFIED => "unspecified"
  end.

Definition dataAck (batch : option DataBatch) (status : AckStatus) (reason message : string) (retryable : bool) (retryAfterMs : Z)
    (result : DataAppendResult) : StateM State DataAck :=
  now ← inside (call (env_now env));
  let batchID := bh_BatchId (header_of batch) in
  let accepted := match status with STATUS_ACCEPTED | STATUS_DUPLICATE => true | _ => false end in
  mret (MkDataAck batchID accepted message status reason batchID (format_time now) (u64 (dr_AcceptedEvents result))
    (u64 (dr_AcceptedSignals result)) retryable retryAfterMs false 0 0 "dataplane.v1").

(** The code of the errors of the runtime ([status.Code(err)]) *)
Definition error_ack (batch : option DataBatch) (e : upload_error) : StateM State DataAck :=
  match e with
  | ErrInvalidUpload _ => dataAck batch STATUS_REJECTED "invalid_data_batch" (upload_error_text e) false 0 zero_result
  | OtherError msg =>
    let retryable := dataAckRetryable Unknown in
    if retryable then dataAck batch STATUS_RETRYABLE "retryable_server_error" msg retryable 1000 zero_result
    else dataAck batch STATUS_REJECTED "server_error" msg retryable 0 zero_result
  end.

(** The status of a call that failed, or the acknowledgement *)
Definition handleBatch (ctx : Caller) (batch : option DataBatch) (transport : string) : StateM State (Code * string + DataAck) :=
  if negb (authorized (rt_agentToken rt) ctx) then mret (inl (Unauthenticated, "unauthorized"))
  else match validatePeerDataIdentity ctx (header_of batch) with
  | Err e => mret (inl (PermissionDenied, e))
  | Ok peer =>
    bound ← match peer with
    | None => mret (Ok tt)
    | Some peer =>
      let header := header_of batch in
      let agent := agentIdentityFromPeer peer (bh_HostId header) (default "" (bh_Labels header !! "agent_version")) in
      inside (λ w, let '(r, s) := BindAgentIdentity agent (wd_store w) in (r, w <| wd_store := s |>))
    end;
    match bound with
    | Err e => mret (inl (PermissionDenied, e))
    | Ok _ =>
      r ← AppendDataBatchWithTransport batch transport;
      ack ← match r with
      | inl e => error_ack batch e
      | inr result =>
        let status := if dr_Duplicate result then STATUS_DUPLICATE else STATUS_ACCEPTED in
        dataAck batch status (stringReasonCode status) (if dr_Duplicate result then "duplicate" else "accepted") false 0 result
      end;
      mret (inr ack)
    end
  end.

(** [StreamBatches] on the batches the agent sends; every acknowledgement is
    taken to arrive *)
Fixpoint StreamBatches (ctx : Caller) (inbox : list DataBatch) : StateM State (list DataAck * option (Code * string)) :=
  match inbox with
  | [] => mret ([], None)
  | batch :: inbox' =>
    r ← handleBatch ctx (Some batch) "grpc_stream";
    match r with
    | inl e => mret ([], Some e)
    | inr ack =>
      rest ← StreamBatches ctx inbox';
      mret (ack :: rest.1, rest.2)
    end
  end.
End data.
End Gateway.
