(* ===== verification/GatewayTheorems.v ===== *)
(** * The gateway: what an acknowledgement means

    An acknowledged batch is on the queue, or the queue has a batch of the
    same agent with the same id; nothing is done for a caller that is not
    authorised or that presents another agent's certificate. *)

From S2P Require Import Prelude GoStrings GoBytes GoData GoSha GoText EventModel DataPlane Response PolicyModel Health StoreData StoreAgents StoreTelemetry Analytics OpenSearch IngestWorker Gateway.

Module GatewayTheorems.
Import EventModel DataPlane Health StoreData StoreAgents StoreTelemetry OpenSearch IngestWorker Gateway.

(** ** The sessions of the store *)

Definition sessions_of (w : World) : list AgentSession := st_AgentSessions (wd_store w).

(** The computation leaves the sessions alone. *)
Definition keeps {A} (c : StateM World A) : Prop := ∀ w, sessions_of (c w).2 = sessions_of w.

Lemma keeps_ret {A} (x : A) : keeps (mret x).
Proof. by intros w. Qed.
Lemma keeps_bind {A B} (c : StateM World A) (k : A → StateM World B) : keeps c → (∀ x, keeps (k x)) → keeps (c ≫= k).
Proof. intros Hc Hk w. unfold mbind, StateM_bind. specialize (Hc w). destruct (c w) as [x w1]. rewrite Hk. exact Hc. Qed.
Lemma keeps_try {A B} (c : StateM World (outcome A)) (k : A → StateM World (outcome B)) :
  keeps c → (∀ x, keeps (k x)) → keeps (try c k).
Proof. intros Hc Hk w. unfold try. specialize (Hc w). destruct (c w) as [[x|e] w1]; [|exact Hc]. rewrite Hk. exact Hc. Qed.
Lemma keeps_call {A} (f : nat → A) : keeps (call f).
Proof. by intros w. Qed.
Lemma keeps_gets {A} (f : World → A) : keeps (gets f).
Proof. by intros w. Qed.
Lemma keeps_store f : (∀ s, st_AgentSessions (f s) = st_AgentSessions s) → keeps (on_store f).
Proof. intros Hf w. apply Hf. Qed.
Lemma keeps_engine f : keeps (modify (λ w, w <| wd_engine ::= f w |>)).
Proof. by intros w. Qed.
Lemma keeps_analyze `{RangeOrder} events signals policy : keeps (analyze events signals policy).
Proof. intros w. unfold analyze. by destruct (Ingest.AnalyzeWithPolicy _ _ _ _). Qed.
Lemma keeps_bulk env docs : keeps (bulk_index env docs).
Proof. apply keeps_bind; [apply keeps_call|]. intros [e|]; [apply keeps_ret|]. by intros w. Qed.

Lemma keeps_add_agent agent : keeps (on_store (AddAgent agent)).
Proof. apply keeps_store. intros s. unfold AddAgent. by destruct (negb _). Qed.
Lemma keeps_add_events events signals : keeps (on_store (λ s, add_signals signals (add_events events s))).
Proof.
  apply keeps_store. intros s. unfold add_signals, add_events. set (s0 := foldl _ s _).
  assert (st_AgentSessions s0 = st_AgentSessions s) as <-.
  { unfold s0. generalize (omap id events). intros l. clear. revert s. induction l as [|ev l IH]; intros s; [done|]. cbn. by rewrite IH. }
  generalize (omap id signals). intros l. generalize s0. clear. induction l as [|sig l IH]; intros s; [done|]. cbn. by rewrite IH.
Qed.
Lemma keeps_derived labels cloud incidents : keeps (on_store (ReplaceDerivedForLabels labels cloud incidents)).
Proof. by apply keeps_store. Qed.
Lemma keeps_counters a b c d e : keeps (on_store (RecordDataBatchIngest a b c d e)).
Proof. by apply keeps_store. Qed.
Lemma keeps_rarity signals : keeps (on_store (λ s, (ObserveRaritySignals signals s).2)).
Proof. by apply keeps_store. Qed.

Create HintDb sessions.
#[export] Hint Resolve keeps_ret keeps_bind keeps_try keeps_call keeps_gets keeps_engine keeps_analyze keeps_bulk keeps_add_agent
  keeps_add_events keeps_derived keeps_counters keeps_rarity : sessions.

Section process.
Context `{RangeOrder} `{Texts} (env : Env).

Lemma keeps_Read reader tenantID labels from to : keeps (Read env reader tenantID labels from to).
Proof. destruct reader as [|[]]; cbn; auto 20 with sessions. Qed.
Hint Resolve keeps_Read : sessions.

Lemma keeps_policy agent : keeps (effectiveDetectionPolicyForAgent env agent).
Proof.
  unfold effectiveDetectionPolicyForAgent. destruct (negb _); [auto with sessions|].
  apply keeps_bind; [auto with sessions|]. intros health. apply keeps_bind; [auto with sessions|]. intros s.
  destruct (GetAgentHealth _ _ _ _); auto with sessions.
Qed.
Hint Resolve keeps_policy : sessions.

Lemma keeps_scope p ce cs upper scope : keeps (recompute_scope env p ce cs upper scope).
Proof. unfold recompute_scope. destruct (p_local p); auto 20 with sessions. Qed.
Hint Resolve keeps_scope : sessions.

Lemma keeps_scopes p ce cs upper scopes : keeps (recompute_scopes env p ce cs upper scopes).
Proof. induction scopes; cbn; auto 20 with sessions. Qed.
Hint Resolve keeps_scopes : sessions.

Lemma keeps_Process p batch : keeps (Process env p batch).
Proof.
  unfold Process. destruct batch as [batch|]; [|auto with sessions]. destruct (bool_decide _); [auto with sessions|].
  unfold recomputeTouchedScopes. destruct (p_local p); auto 30 with sessions.
Qed.
End process.
(** ** Acknowledged batches *)

(** The session of an agent *)
Definition session_key (tenantID agentID : string) : string := agentSessionID (or_default (TrimSpace tenantID)) (TrimSpace agentID).

Local Arguments session_key : simpl never.
Local Arguments agentSessionID : simpl never.
Local Arguments ListAgentSessions : simpl never.

(** What identifies an upload: the session of its agent and the id of the batch *)
Definition upload_key (batch : DataBatch) : string * string :=
  let header := GetHeader batch in (session_key (bh_TenantId header) (bh_AgentId header), bh_BatchId header).

Lemma or_default_trim t : or_default (TrimSpace (or_default (TrimSpace t))) = or_default (TrimSpace t).
Proof. unfold or_default at 2 3. case_bool_decide as Ht; [done|]. unfold or_default. by rewrite TrimSpace_idem, bool_decide_eq_false_2. Qed.

Lemma session_key_norm t a : session_key (or_default (TrimSpace t)) (TrimSpace a) = session_key t a.
Proof. unfold session_key. by rewrite or_default_trim, TrimSpace_idem. Qed.

Lemma Normalized_ids agent :
  ai_TenantID (Normalized agent) = or_default (TrimSpace (ai_TenantID agent)) ∧ ai_AgentID (Normalized agent) = TrimSpace (ai_AgentID agent).
Proof. done. Qed.

Lemma run_bind {S A B} (c : StateM S A) (k : A → StateM S B) s : (c ≫= k) s = k (c s).1 (c s).2.
Proof. unfold mbind, StateM_bind. by destruct (c s). Qed.

Section acknowledged.
Context `{RangeOrder} `{Texts} `{BatchText} `{SliceSort} (env : Env) (sessions : nat → string → string → option (list AgentSession)) (rt : Runtime).
Context (earlier : list (string * string)).

(** The queue took the batch. *)
Definition queued (g : State) (batch : DataBatch) : Prop :=
  ∃ key raw, marshal_batch batch = Ok raw ∧ MkMessage topic 0 0 key raw ∈ gw_queue g.

(** A batch with this key was queued, or was already known. *)
Definition on_record (g : State) (key : string * string) : Prop := key ∈ earlier ∨ ∃ batch, queued g batch ∧ upload_key batch = key.

Definition session_ok (g : State) (session : AgentSession) : Prop :=
  as_SessionID session = session_key (as_TenantID session) (as_AgentID session) ∧
  (as_LastAckCursor session ≠ "" → on_record g (as_SessionID session, as_LastAckCursor session)).

(** Every cursor of a session stands for a batch on record. *)
Definition backed (g : State) : Prop := Forall (session_ok g) (sessions_of (gw_world g)).

(** The queue only grows, the sessions stay. *)
Definition idle (g g' : State) : Prop := gw_queue g `prefix_of` gw_queue g' ∧ sessions_of (gw_world g') = sessions_of (gw_world g).

Lemma idle_refl g : idle g g.
Proof. done. Qed.
Lemma idle_trans a b c : idle a b → idle b c → idle a c.
Proof. intros [H3 H4] [H5 H6]. split; [by etrans|congruence]. Qed.

Lemma queued_mono g g' batch : gw_queue g `prefix_of` gw_queue g' → queued g batch → queued g' batch.
Proof. intros Hp (key & raw & Hm & Hq). exists key, raw. split; [done|]. by eapply elem_of_grows. Qed.
Lemma on_record_mono g g' key : gw_queue g `prefix_of` gw_queue g' → on_record g key → on_record g' key.
Proof. intros Hp [He|(batch & Hq & Hk)]; [by left|right; exists batch; eauto using queued_mono]. Qed.
Lemma session_ok_mono g g' session : gw_queue g `prefix_of` gw_queue g' → session_ok g session → session_ok g' session.
Proof. intros Hp [Hid Hc]. split; [done|]. eauto using on_record_mono. Qed.
Lemma backed_idle g g' : idle g g' → backed g → backed g'.
Proof. intros [Hq Hs] Hb. unfold backed. rewrite Hs. eapply list.Forall_impl; [exact Hb|]. intros x. by apply session_ok_mono. Qed.

Definition idles {A} (c : StateM State A) : Prop := ∀ g, idle g (c g).2.

Lemma idles_ret {A} (x : A) : idles (mret x).
Proof. by intros g. Qed.
Lemma idles_bind {A B} (c : StateM State A) (k : A → StateM State B) : idles c → (∀ x, idles (k x)) → idles (c ≫= k).
Proof. intros Hc Hk g. rewrite run_bind. eapply idle_trans; [apply Hc|apply Hk]. Qed.
Lemma idles_inside {A} (c : StateM World A) : keeps c → idles (inside c).
Proof. intros Hc g. unfold inside. specialize (Hc (gw_world g)). destruct (c (gw_world g)) as [x w]. split; [done|exact Hc]. Qed.
Lemma idles_gets {A} (f : State → A) : idles (gets f).
Proof. by intros g. Qed.
Lemma idles_count f : idles (count f).
Proof. by intros g. Qed.
Lemma idles_hot session : idles (TouchHotSession rt session).
Proof. unfold TouchHotSession. by destruct (bool_decide _). Qed.
Hint Resolve idles_ret idles_bind idles_inside idles_gets idles_count idles_hot : sessions.

Lemma idles_process batch : idles (processLocal env rt batch).
Proof.
  unfold processLocal. destruct (rt_localProcessor rt) as [p|]; [|auto with sessions].
  apply idles_bind; [apply idles_inside, keeps_Process|]. intros [r|e]; auto with sessions.
Qed.

Lemma idles_ack batch status reason message retryable after result : idles (dataAck env batch status reason message retryable after result).
Proof. unfold dataAck. auto with sessions. Qed.
Lemma idles_error_ack batch e : idles (error_ack env batch e).
Proof. destruct e; apply idles_ack. Qed.

Lemma idles_raw batch : idles (appendRawBatch env batch).
Proof.
  unfold appendRawBatch. destruct (marshal_batch batch); [|auto with sessions]. apply idles_bind; [auto with sessions|].
  intros [e|]; [auto with sessions|]. apply idles_bind; [|auto with sessions]. intros g. split; [|done]. cbn. by eexists.
Qed.

Lemma raw_queued batch g g' : appendRawBatch env batch g = (None, g') → queued g' batch.
Proof.
  unfold appendRawBatch. destruct (marshal_batch batch) as [raw|e] eqn:Em; [|done]. rewrite run_bind. cbn [inside call fst snd].
  destruct (env_append _ _ _); [done|]. rewrite run_bind. intros [= <-]. eexists _, raw. split; [done|]. cbn. apply elem_of_app. right. by apply list_elem_of_singleton.
Qed.

(** What a durable backend lists was recorded by a gateway. *)
Definition listing_backed : Prop := ∀ n tenantID agentID l session,
  sessions n tenantID agentID = Some l → session ∈ l → as_LastAckCursor session ≠ "" →
  (session_key tenantID agentID, as_LastAckCursor session) ∈ earlier.

Lemma idles_list tenantID agentID : idles (listAgentSessions sessions tenantID agentID).
Proof. unfold listAgentSessions. auto with sessions. Qed.

Lemma idles_duplicate tenantID agentID batchID : idles (isDuplicateBatch sessions tenantID agentID batchID).
Proof. unfold isDuplicateBatch. destruct (bool_decide _); [auto with sessions|]. apply idles_bind; [apply idles_list|]. auto with sessions. Qed.

Lemma listed_record tenantID agentID session g :
  listing_backed → backed g → tenantID ≠ "" → agentID ≠ "" → session ∈ (listAgentSessions sessions tenantID agentID g).1 →
  as_LastAckCursor session ≠ "" → on_record g (session_key tenantID agentID, as_LastAckCursor session).
Proof.
  intros Hl Hb Ht Ha. unfold listAgentSessions. rewrite !run_bind. cbn. unfold ListAgentSessions.
  destruct (sessions _ tenantID agentID) as [l|] eqn:El; cbn [default from_option].
  - intros Hs Hc. left. by eapply Hl.
  - rewrite elem_of_sort_slice, list_elem_of_filter. intros [Hm Hs] Hc. apply andb_true_iff in Hm as [Hmt Hma].
    unfold matches in *. rewrite (bool_decide_eq_false_2 (tenantID = "")) in Hmt by done.
    rewrite (bool_decide_eq_false_2 (agentID = "")) in Hma by done.
    apply bool_decide_eq_true_1 in Hmt, Hma. subst.
    unfold backed in Hb. rewrite list.Forall_forall in Hb. destruct (Hb session Hs) as [<- Hr]. by apply Hr.
Qed.

Lemma duplicate_record tenantID agentID batchID g g' :
  listing_backed → backed g → tenantID ≠ "" → agentID ≠ "" → isDuplicateBatch sessions tenantID agentID batchID g = (true, g') →
  on_record g (session_key tenantID agentID, batchID).
Proof.
  intros Hl Hb Ht Ha. unfold isDuplicateBatch. case_bool_decide as Hid; [done|]. rewrite run_bind. cbn.
  intros [= Hex _]. apply existsb_exists in Hex as (session & Hs & Hc). apply bool_decide_eq_true_1 in Hc. subst batchID.
  apply listed_record; [done..| |done]. by apply list_elem_of_In.
Qed.

Lemma record_append_run batch transport g :
  let now := env_now env (wd_calls (gw_world g)) in
  let r := RecordDataBatchAppend now (AgentIdentityFromDataBatch batch) (bh_BatchId (GetHeader batch)) transport now (gw_store g) in
  record_append env rt batch transport g =
    TouchHotSession rt r.1 (g <| gw_world := ((gw_world g) <| wd_calls ::= S |>) <| wd_store := r.2 |> |>).
Proof.
  cbn zeta. unfold record_append. rewrite !run_bind. cbn [inside call fst snd]. unfold inside, gw_store.
  cbn [gw_world wd_store assign]. by destruct (RecordDataBatchAppend _ _ _ _ _ _).
Qed.

Lemma recorded_ok now batch transport g :
  backed g → (bh_BatchId (GetHeader batch) ≠ "" → on_record g (upload_key batch)) →
  Forall (session_ok g) (st_AgentSessions
    (RecordDataBatchAppend now (AgentIdentityFromDataBatch batch) (bh_BatchId (GetHeader batch)) transport now (gw_store g)).2).
Proof.
  intros Hb Hr. unfold RecordDataBatchAppend. destruct (negb _); [exact Hb|]. cbn [snd st_AgentSessions assign].
  destruct (Normalized_ids (AgentIdentityFromDataBatch batch)) as [-> ->]. unfold AgentIdentityFromDataBatch.
  set (agent := MkAgentIdentity _ _ _ _ _ _). destruct (Normalized_ids agent) as [-> ->]. cbn [ai_TenantID ai_AgentID agent].
  rewrite or_default_trim, TrimSpace_idem. apply upsert_Forall; [| |exact Hb].
  - intros x _ Hx [Hid Hc]. apply bool_decide_eq_true_1 in Hx. unfold session_ok, data_seen. cbn. split; [done|].
    case_bool_decide as Hbid; [exact Hc|]. intros _. rewrite Hx. by apply Hr.
  - intros _. unfold session_ok. cbn. split; [by rewrite session_key_norm|]. exact Hr.
Qed.

Lemma record_backed batch transport g :
  backed g → (bh_BatchId (GetHeader batch) ≠ "" → on_record g (upload_key batch)) →
  backed (record_append env rt batch transport g).2 ∧ gw_queue (record_append env rt batch transport g).2 = gw_queue g.
Proof.
  intros Hb Hr. rewrite record_append_run. cbn zeta. set (now := env_now _ _).
  pose proof (recorded_ok now batch transport g Hb Hr) as Hs. destruct (RecordDataBatchAppend _ _ _ _ _ _) as [session s].
  unfold TouchHotSession. cbn [fst snd] in *. by destruct (bool_decide _).
Qed.

(** The batch is on the queue, or one with its key is on record. *)
Definition accounted (g : State) (batch : DataBatch) : Prop := queued g batch ∨ on_record g (upload_key batch).

Lemma accounted_mono g g' batch : gw_queue g `prefix_of` gw_queue g' → accounted g batch → accounted g' batch.
Proof. intros Hp [Hq|Hr]; [left; by eapply queued_mono|right; by eapply on_record_mono]. Qed.

(** A step keeps the cursors backed and the queue. *)
Definition sound (g g' : State) : Prop := (backed g → backed g') ∧ gw_queue g `prefix_of` gw_queue g'.

Lemma sound_trans a b c : sound a b → sound b c → sound a c.
Proof. intros [H3 H4] [H5 H6]. split; [auto|by etrans]. Qed.
Lemma sound_idle g g' : idle g g' → sound g g'.
Proof. intros Hi. split; [by apply backed_idle|apply Hi]. Qed.
Lemma sound_record batch transport g :
  (bh_BatchId (GetHeader batch) ≠ "" → on_record g (upload_key batch)) → sound g (record_append env rt batch transport g).2.
Proof.
  intros Hr. split; [intros Hb; by apply record_backed|]. rewrite record_append_run. cbn zeta. unfold TouchHotSession.
  by destruct (bool_decide _).
Qed.

(** A computation that only idles after [g] *)
Lemma idles_after {A} (c : StateM State A) g : idles c → sound g (c g).2.
Proof. intros Hc. apply sound_idle, Hc. Qed.

Lemma idles_duplicate_tail : idles (saved ← inside (call (env_save env));
  match saved with Some e => mret (inl (OtherError e)) | None => mret (inr (MkDataAppendResult 0 0 0 0 true)) end : StateM State (upload_error + DataAppendResult)).
Proof. apply idles_bind; [auto with sessions|]. intros [e|]; auto with sessions. Qed.

Lemma idles_new_tail batch : idles (saved ← inside (call (env_save env));
  match saved with
  | Some e => mret (inl (OtherError e))
  | None =>
    r ← processLocal env rt batch;
    match r with
    | Err e => count (λ m, m <| mt_rejectedBatches ::= λ n, u64 (n + 1) |>) ;; mret (inl (OtherError e))
    | Ok result =>
      count (λ m, m <| mt_acceptedBatches ::= λ n, u64 (n + 1) |>
                    <| mt_acceptedEvents ::= λ n, u64 (n + dr_AcceptedEvents result) |>
                    <| mt_acceptedSignals ::= λ n, u64 (n + dr_AcceptedSignals result) |>) ;;
      mret (inr result)
    end
  end : StateM State (upload_error + DataAppendResult)).
Proof.
  apply idles_bind; [auto with sessions|]. intros [e|]; [auto with sessions|]. apply idles_bind; [apply idles_process|].
  intros [result|e]; auto with sessions.
Qed.

Lemma valid_ids batch header : db_Header batch = Some header → missing_fields header = [] → bh_TenantId (GetHeader batch) ≠ "" ∧ bh_AgentId (GetHeader batch) ≠ "".
Proof.
  intros Hh. unfold GetHeader, missing_fields. rewrite Hh. cbn. intros Hm. split; intros He; rewrite He in Hm.
  - by destruct (bool_decide (bh_AgentId _ = "")), (bool_decide (bh_HostId _ = "")).
  - done.
Qed.

Lemma append_sound batch transport g :
  listing_backed → backed g →
  let r := AppendDataBatchWithTransport env sessions rt (Some batch) transport g in
  sound g r.2 ∧ (∀ result, r.1 = inr result → accounted r.2 batch).
Proof.
  intros Hl Hb. cbn zeta. unfold AppendDataBatchWithTransport. destruct (validateUploadIdentity (Some batch)) as [e|] eqn:Ev.
  { rewrite run_bind. split; [by apply sound_idle|done]. }
  assert (bh_TenantId (GetHeader batch) ≠ "" ∧ bh_AgentId (GetHeader batch) ≠ "") as [Ht Ha].
  { unfold validateUploadIdentity in Ev. cbn in Ev. destruct (db_Header batch) as [header|] eqn:Eh; [|done].
    case_bool_decide as Hm; [|done]. by eapply valid_ids. }
  rewrite run_bind. destruct (isDuplicateBatch _ _ _ _ g) as [[] g1] eqn:Ed; cbn [fst snd].
  - pose proof (idles_duplicate (bh_TenantId (GetHeader batch)) (bh_AgentId (GetHeader batch)) (bh_BatchId (GetHeader batch)) g) as Hi.
    rewrite Ed in Hi. apply duplicate_record in Ed; [|done..]. cbn [snd] in Hi.
    assert (on_record g1 (upload_key batch)) as Hr by (eapply on_record_mono; [apply Hi|exact Ed]).
    rewrite run_bind, run_bind. set (g2 := (record_append _ _ _ _ _).2). set (g3 := (count _ g2).2).
    assert (sound g g3) as Hs.
    { eapply sound_trans; [by apply sound_idle|]. eapply sound_trans; [by apply sound_record|]. by apply idles_after. }
    split; [eapply sound_trans; [exact Hs|apply idles_after, idles_duplicate_tail]|]. intros result _. right.
    eapply on_record_mono; [|exact Hr]. eapply (sound_trans g1); [|apply idles_after, idles_duplicate_tail].
    eapply sound_trans; [by apply sound_record|]. by apply idles_after.
  - pose proof (idles_duplicate (bh_TenantId (GetHeader batch)) (bh_AgentId (GetHeader batch)) (bh_BatchId (GetHeader batch)) g) as Hi.
    rewrite Ed in Hi. cbn [snd] in Hi. rewrite run_bind. destruct (appendRawBatch env batch g1) as [failed g2] eqn:Er; cbn [fst snd].
    pose proof (idles_raw batch g1) as Hi2. rewrite Er in Hi2. cbn [snd] in Hi2.
    assert (sound g g2) as Hs by (apply sound_idle; by eapply idle_trans).
    destruct failed as [e|]; [split; [eapply sound_trans; [exact Hs|by apply idles_after]|by rewrite run_bind]|].
    apply raw_queued in Er. rewrite run_bind. set (g3 := (record_append _ _ _ _ _).2).
    assert (sound g2 g3) as Hs3 by (apply sound_record; intros _; right; by exists batch).
    split; [|intros result _; left; eapply queued_mono; [|exact Er]; eapply (sound_trans g2); [exact Hs3|]].
    + eapply sound_trans; [exact Hs|]. eapply sound_trans; [exact Hs3|]. apply idles_after, idles_new_tail.
    + apply idles_after, idles_new_tail.
Qed.

Definition bind_agent (agent : AgentIdentity) : StateM State (result unit) :=
  inside (λ w, let '(r, s) := BindAgentIdentity agent (wd_store w) in (r, w <| wd_store := s |>)).

Lemma idles_bind_agent agent : idles (bind_agent agent).
Proof.
  apply idles_inside. intros w. destruct (BindAgentIdentity agent (wd_store w)) as [r s] eqn:Eb. cbn.
  assert (st_AgentSessions s = st_AgentSessions (wd_store w)); [|done]. revert Eb. unfold BindAgentIdentity.
  repeat case_match; by intros [= _ <-].
Qed.

Lemma ack_accepted batch status reason message retryable after result g :
  ack_Accepted (dataAck env batch status reason message retryable after result g).1 =
  match status with STATUS_ACCEPTED | STATUS_DUPLICATE => true | _ => false end.
Proof. unfold dataAck. by rewrite run_bind. Qed.

Lemma handle_sound ctx batch transport g :
  listing_backed → backed g →
  let r := handleBatch env sessions rt ctx (Some batch) transport g in
  sound g r.2 ∧ (∀ ack, r.1 = inr ack → ack_Accepted ack = true → accounted r.2 batch).
Proof.
  intros Hl Hb. cbn zeta. unfold handleBatch. destruct (negb _); [by split; [apply sound_idle|]|].
  destruct (validatePeerDataIdentity _ _) as [peer|e]; [|by split; [apply sound_idle|]]. rewrite run_bind.
  match goal with |- context [match peer with Some _ => _ | None => _ end g] => set (b := match peer with Some _ => _ | None => _ end) end.
  assert (idles b) as Hi by (unfold b; destruct peer; [apply idles_bind_agent|apply idles_ret]). specialize (Hi g).
  destruct (b g) as [bound g1]. cbn [fst snd] in *. destruct bound as [[]|e]; [|by split; [apply sound_idle|]].
  apply sound_idle in Hi. destruct (append_sound batch transport g1 Hl) as [Hs Hacc]; [by apply Hi|].
  rewrite run_bind. destruct (AppendDataBatchWithTransport _ _ _ _ _ g1) as [[e|result] g2]; cbn [fst snd] in *; rewrite run_bind;
    cbn [fst snd mret StateM_ret].
  - split; [eapply sound_trans; [exact Hi|]; eapply sound_trans; [exact Hs|]; apply idles_after, idles_error_ack|].
    intros ack [= <-]. destruct e; unfold error_ack; cbn [dataAckRetryable]; by rewrite ack_accepted.
  - split; [eapply sound_trans; [exact Hi|]; eapply sound_trans; [exact Hs|]; apply idles_after, idles_ack|].
    intros ack _ _. eapply accounted_mono; [|by eapply Hacc]. apply idles_ack.
Qed.

Lemma stream_sound ctx inbox g :
  listing_backed → backed g →
  let r := StreamBatches env sessions rt ctx inbox g in
  sound g r.2 ∧ ∀ i batch ack, inbox !! i = Some batch → r.1.1 !! i = Some ack → ack_Accepted ack = true → accounted r.2 batch.
Proof.
  intros Hl. revert g. induction inbox as [|batch inbox IH]; intros g Hb; cbn zeta; cbn [StreamBatches]; [by split; [apply sound_idle|]|].
  rewrite run_bind. destruct (handle_sound ctx batch "grpc_stream" g Hl Hb) as [Hs Hacc].
  destruct (handleBatch _ _ _ _ _ _ g) as [[e|ack] g1]; cbn [fst snd] in *; [by split|].
  rewrite run_bind. destruct (IH g1) as [Hs1 Hacc1]; [by apply Hs|]. destruct (StreamBatches _ _ _ _ inbox g1) as [[acks stop] g2].
  cbn in *. split; [by eapply sound_trans|]. intros [|i] b a; cbn; [|by apply Hacc1].
  intros [= <-] [= <-] Ha. eapply accounted_mono; [apply Hs1|]. by eapply Hacc.
Qed.

(** The states of a gateway that started where every cursor was known, after
    any number of streams *)
Inductive served : State → Prop :=
  | started g :
      Forall (λ session, as_SessionID session = session_key (as_TenantID session) (as_AgentID session) ∧
                         (as_LastAckCursor session ≠ "" → (as_SessionID session, as_LastAckCursor session) ∈ earlier)) (sessions_of (gw_world g)) →
      served g
  | streamed ctx inbox g r g' : served g → StreamBatches env sessions rt ctx inbox g = (r, g') → served g'.

Lemma served_backed g : listing_backed → served g → backed g.
Proof.
  intros Hl. induction 1 as [g Hs|ctx inbox g r g' _ IH Hrun].
  - eapply list.Forall_impl; [exact Hs|]. intros session [Hid Hc]. split; [done|]. intros Hne. left. by apply Hc.
  - pose proof (stream_sound ctx inbox g Hl IH) as Hs. cbn zeta in Hs. rewrite Hrun in Hs. by apply Hs.
Qed.
End acknowledged.

(** C10. An acknowledgement means that the batch is safe.  Whatever the queue,
    the store, the processor and the agents do, on any number of streams one
    after the other, a batch that is acknowledged as accepted or duplicate
    has been taken by the queue of the ingest worker, or a batch of the same
    agent with the same id has, now or in an earlier run whose cursors the
    store or the durable backend still knows. *)
Theorem acknowledged_is_queued `{RangeOrder} `{Texts} `{BatchText} `{SliceSort} (env : Env)
    (sessions : nat → string → string → option (list AgentSession)) (rt : Runtime) (earlier : list (string * string))
    ctx inbox g acks stop g' :
  listing_backed sessions earlier → served env sessions rt earlier g →
  StreamBatches env sessions rt ctx inbox g = ((acks, stop), g') →
  ∀ i batch ack, inbox !! i = Some batch → acks !! i = Some ack → ack_Accepted ack = true →
  queued g' batch ∨ upload_key batch ∈ earlier ∨ ∃ other, queued g' other ∧ upload_key other = upload_key batch.
Proof.
  intros Hl Hs Hrun. pose proof (served_backed env sessions rt earlier g Hl Hs) as Hb.
  pose proof (stream_sound env sessions rt earlier ctx inbox g Hl Hb) as [_ Hacc]. rewrite Hrun in Hacc. exact Hacc.
Qed.

(** ** A run *)

Definition demo_texts : Texts := {|
  marshal_envelope _ := Ok ""; marshal_event _ := Ok "{}"; marshal_signal _ := Ok "{}"; marshal_incident _ := Ok "{}";
  marshal_evidence _ := Ok "{}"; unmarshal_event _ := Err "no event"; unmarshal_signal _ := Err "no signal";
  unmarshal_batch _ := Err "no batch"; json_value := string; json_string := id; unmarshal_object _ := None; marshal_object _ := "";
  format_time _ := ""; parse_time _ := None; texts_unicode := {| print_rune _ := false |} |}.

Definition demo_batch_text : BatchText := {| marshal_batch batch := Ok (bh_BatchId (GetHeader batch)) |}.

(** [down]: the error of the index, if any *)
Definition demo_env (down : option error) : Env := {|
  env_now n := Z.of_nat n; env_bulk _ _ := down; env_save _ := None; env_saveMetrics _ := None; env_search _ _ := Ok [];
  env_effective _ := None; env_health _ := None; env_append _ _ := None; env_commit _ _ := None; env_cancelled _ := None;
  env_fetchError := "closed" |}.

Definition demo_gateway : State :=
  MkState (MkWorld Open Ingest.NewEngine 0%nat [] [] []) [] [] (MkMetrics 0 0 0 0 0 0).

Definition demo_upload : DataBatch :=
  MkDataBatch (Some (MkBatchHeader "b1" "t" "a" "h" "" 0 "" 0 0 0 0 0 0 0 0 0 ∅)) [] [] "dataplane.v1".

Definition demo_caller : Caller := MkCaller [] None.

Definition demo_serve (p : option Processor) (down : option error) (inbox : list DataBatch) : (list DataAck * option (Code * string)) * State :=
  StreamBatches (H := elements_order) (H0 := demo_texts) (H1 := demo_batch_text) (H2 := insertion_SliceSort) (demo_env down)
    (λ _ _ _, None) (NewRuntime p "" "") demo_caller inbox demo_gateway.

Lemma acknowledged_is_queued_witness :
  queued (H1 := demo_batch_text) (demo_serve None None [demo_upload; demo_upload]).2 demo_upload ∨ upload_key demo_upload ∈ [] ∨
  ∃ other, queued (H1 := demo_batch_text) (demo_serve None None [demo_upload; demo_upload]).2 other ∧ upload_key other = upload_key demo_upload.
Proof.
  apply (acknowledged_is_queued (H := elements_order) (H0 := demo_texts) (H1 := demo_batch_text) (H2 := insertion_SliceSort) (demo_env None)
    (λ _ _ _, None) (NewRuntime None "" "") [] demo_caller [demo_upload; demo_upload] demo_gateway
    (demo_serve None None [demo_upload; demo_upload]).1.1 None _ (λ n t a l session Hl, ltac:(discriminate Hl))
    ltac:(by apply started, Forall_nil) ltac:(vm_compute; reflexivity) 1%nat demo_upload
    (MkDataAck "b1" true "duplicate" STATUS_DUPLICATE "duplicate" "b1" "" 0 0 false 0 false 0 0 "dataplane.v1")).
  all: vm_compute; reflexivity.
Defined.

(** With a processor of its own, the gateway notes the cursor before it
    processes the batch: when the index is down the batch is refused for a
    retry, and the retry is acknowledged as a duplicate without any
    document ever written. *)
Lemma retry_not_processed :
  let '((acks, stop), g) := demo_serve (Some NewProcessor) (Some (Plain "index is down")) [demo_upload; demo_upload] in
  ack_Status <$> acks = [STATUS_RETRYABLE; STATUS_DUPLICATE] ∧ stop = None ∧ wd_indexed (gw_world g) = [].
Proof. vm_compute. done. Qed.
End GatewayTheorems.
