(* ===== verification/GatewayControl.v ===== *)
(** * The gateway: the control plane ([internal/gateway/control_grpc.go])

    An agent keeps a connection open on which it sends control frames: a
    hello, health and capability reports, acknowledgements and results.
    Frames are numbered from one in both directions; a frame out of order is
    rejected, and a request id that was already answered is answered again
    with the same replies.  [handleFrame] acts on the store of the manager.

    Messages carry the fields the gateway reads or writes; a nil message is
    [None].  [ControlText]: JSON as Go's encoder and decoder write and read
    it ([decode_policy] decodes over a policy that is already filled in), and
    protojson. *)

From S2P Require Import Prelude GoStrings GoBytes GoData GoSha GoText EventModel Policy DataPlane Response ControlModel PolicyModel Graph Health Analytics StoreData StoreAgents StorePolicies StoreTelemetry StoreResponses StoreCommands OpenSearch IngestWorker Gateway.

Module GatewayControl.
Import EventModel Policy DataPlane Response ControlModel PolicyModel Graph Health Analytics.Incidents StoreData StoreAgents StorePolicies StoreTelemetry StoreResponses StoreCommands OpenSearch IngestWorker Gateway.

(** ** Messages *)

Record ScopeMsg := MkScopeMsg { sm_Type : string; sm_Selector : string }.

Record RequestContext := MkRequestContext {
  rq_RequestId : string;
  rq_TenantId : string;
  rq_AgentId : string;
  rq_Scope : option ScopeMsg
}.

Record SensorCapabilityMsg := MkSensorCapabilityMsg {
  scm_Backend : string;
  scm_Version : string;
  scm_SupportsExec : bool;
  scm_SupportsConnect : bool;
  scm_SupportsFile : bool;
  scm_SupportsEnforce : bool;
  scm_SupportsHealth : bool;
  scm_KernelRelease : string;
  scm_BtfAvailable : bool;
  scm_BpffsAvailable : bool
}.

Record SensorHealthMsg := MkSensorHealthMsg {
  shm_Backend : string;
  shm_Installed : bool;
  shm_Running : bool;
  shm_Version : string;
  shm_PolicyLoaded : bool;
  shm_EventsSeen : Z;
  shm_EventsDropped : Z;
  shm_ParseErrors : Z;
  shm_RestartCount : Z;
  shm_LastEventAt : string;
  shm_LastExitReason : string;
  shm_LastError : string
}.

Record DetectionContentRefMsg := MkDetectionContentRefMsg {
  crm_Ref : string;
  crm_Kind : string;
  crm_Version : string;
  crm_Digest : string
}.

Record CollectionBehaviorMsg := MkCollectionBehaviorMsg {
  cbm_Behavior : string;
  cbm_Fields : list string;
  cbm_PushdownSelectors : list string;
  cbm_AgentSideSelectors : list string;
  cbm_UnsupportedSelectors : list string;
  cbm_SensorMapping : string
}.

Record DetectionRuntimeHealthMsg := MkDetectionRuntimeHealthMsg {
  drm_PolicyId : string;
  drm_PolicyVersion : Z;
  drm_ContentRefs : list DetectionContentRefMsg;
  drm_LastApplyStatus : string;
  drm_LastApplyError : string;
  drm_UpdatedAt : string;
  drm_DefaultManifestVersion : string
}.

Record TelemetryBusHealthMsg := MkTelemetryBusHealthMsg {
  bum_EventCapacity : Z;
  bum_EventBuffered : Z;
  bum_EventDropped : Z;
  bum_EventSubscribers : Z;
  bum_SignalCapacity : Z;
  bum_SignalBuffered : Z;
  bum_SignalDropped : Z;
  bum_SignalSubscribers : Z
}.

Record TelemetryBatcherHealthMsg := MkTelemetryBatcherHealthMsg {
  btm_PendingEvents : Z;
  btm_PendingSignals : Z;
  btm_QueuedBatches : Z;
  btm_QueueCapacity : Z;
  btm_DroppedBatches : Z;
  btm_DroppedEvents : Z;
  btm_DroppedSignals : Z;
  btm_FlushedBatches : Z;
  btm_FlushedEvents : Z;
  btm_FlushedSignals : Z;
  btm_LastFlushReason : string;
  btm_Closed : bool;
  btm_LastError : string;
  btm_PendingBytes : Z;
  btm_MaxBytes : Z;
  btm_FlushedByCount : Z;
  btm_FlushedByBytes : Z;
  btm_FlushedByInterval : Z;
  btm_FlushedByShutdown : Z
}.

Record TelemetrySenderHealthMsg := MkTelemetrySenderHealthMsg {
  sdm_SentBatches : Z;
  sdm_SentEvents : Z;
  sdm_SentSignals : Z;
  sdm_RejectedBatches : Z;
  sdm_RetriedBatches : Z;
  sdm_Drained : bool;
  sdm_LastError : string
}.

Record CEPHealthMsg := MkCEPHealthMsg {
  cpm_ActiveGroups : Z;
  cpm_EvictedGroups : Z;
  cpm_ExpiredGroups : Z;
  cpm_DroppedEventRefs : Z;
  cpm_EvalErrors : Z;
  cpm_EmittedSignals : Z;
  cpm_Degraded : bool
}.

Record LocalStreamHealthMsg := MkLocalStreamHealthMsg {
  stm_EventCapacity : Z;
  stm_EventBuffered : Z;
  stm_EventNextSequence : Z;
  stm_EventOldestSequence : Z;
  stm_EventNewestSequence : Z;
  stm_EventEvicted : Z;
  stm_EventSubscribers : Z;
  stm_SignalCapacity : Z;
  stm_SignalBuffered : Z;
  stm_SignalNextSequence : Z;
  stm_SignalOldestSequence : Z;
  stm_SignalNewestSequence : Z;
  stm_SignalEvicted : Z;
  stm_SignalSubscribers : Z
}.

Record HealthResponse := MkHealthResponse {
  hr_AgentId : string;
  hr_HostId : string;
  hr_TenantId : string;
  hr_Scope : option ScopeMsg;
  hr_Status : string;
  hr_PolicyId : string;
  hr_PolicyVersion : Z;
  hr_PolicyMode : string;
  hr_UptimeSeconds : Z;
  hr_Capability : option SensorCapabilityMsg;
  hr_Sensor : option SensorHealthMsg;
  hr_TelemetryBus : option TelemetryBusHealthMsg;
  hr_TelemetryBatcher : option TelemetryBatcherHealthMsg;
  hr_TelemetrySender : option TelemetrySenderHealthMsg;
  hr_Detection : option DetectionRuntimeHealthMsg;
  hr_Cep : option CEPHealthMsg;
  hr_Streams : option LocalStreamHealthMsg;
  hr_ObservedAt : string
}.

Record CapabilityResponse := MkCapabilityResponse {
  cr_AgentId : string;
  cr_HostId : string;
  cr_TenantId : string;
  cr_Scope : option ScopeMsg;
  cr_Sensor : option SensorCapabilityMsg;
  cr_SupportedPolicySections : list string;
  cr_SupportedResponseActions : list string;
  cr_CollectionBehaviors : list CollectionBehaviorMsg
}.

Record ControlAck := MkControlAck {
  ka_RequestId : string;
  ka_TenantId : string;
  ka_AgentId : string;
  ka_Status : string;
  ka_Message : string;
  ka_PolicyId : string;
  ka_PolicyVersion : Z;
  ka_ReportJson : string
}.

Record ControlError := MkControlError { ke_Code : string; ke_Message : string; ke_Retryable : bool }.

Record CurrentPolicyResponse := MkCurrentPolicyResponse {
  pr_PolicyId : string;
  pr_Version : Z;
  pr_TenantId : string;
  pr_Scope : ScopeMsg;
  pr_Mode : string;
  pr_EndpointRules : list string;
  pr_CloudRules : list string;
  pr_Published : bool;
  pr_RawJson : string
}.

Record ApplyContentRequest := MkApplyContentRequest {
  ac_Context : RequestContext;
  ac_ContentJson : string;
  ac_AllowUnsigned : bool
}.

Record ResponseCommandMsg := MkResponseCommandMsg {
  rm_ResponseId : string;
  rm_TenantId : string;
  rm_AgentId : string;
  rm_PolicyId : string;
  rm_PolicyVersion : Z;
  rm_SignalId : string;
  rm_Labels : gmap string string;
  rm_Scope : ScopeMsg;
  rm_Action : string;
  rm_Mode : string;
  rm_Target : string;
  rm_Reason : string;
  rm_Status : string;
  rm_Actor : string;
  rm_ApprovalRequired : bool;
  rm_ApprovalStatus : string;
  rm_ApprovalThreshold : Z;
  rm_ApprovalRoles : list string;
  rm_RawJson : string
}.

Record EvidencePullbackMsg := MkEvidencePullbackMsg {
  pm_RequestId : string;
  pm_TenantId : string;
  pm_AgentId : string;
  pm_IncidentId : string;
  pm_Labels : gmap string string;
  pm_Target : string;
  pm_Reason : string;
  pm_Status : string;
  pm_Actor : string;
  pm_RawJson : string
}.

Record ResumeCursor := MkResumeCursor {
  ru_TenantID : string;
  ru_AgentID : string;
  ru_SessionID : string;
  ru_ResumeCursor : string
}.

Record ResponseAckMsg := MkResponseAckMsg {
  ram_ResponseId : string;
  ram_TenantId : string;
  ram_AgentId : string;
  ram_Accepted : bool;
  ram_Unsupported : bool;
  ram_ObserveOnly : bool;
  ram_Executed : bool;
  ram_Message : string;
  ram_ObservedAt : string
}.

Record EvidenceResultMsg := MkEvidenceResultMsg {
  erm_RequestId : string;
  erm_TenantId : string;
  erm_AgentId : string;
  erm_Ok : bool;
  erm_Message : string;
  erm_EvidenceJson : string;
  erm_ObservedAt : string
}.

Record ControlFrame := MkControlFrame {
  cf_Type : string;
  cf_RequestId : string;
  cf_Context : option RequestContext;
  cf_ContractVersion : Z;
  cf_Sequence : Z;
  cf_Health : option HealthResponse;
  cf_Capability : option CapabilityResponse;
  cf_Ack : option ControlAck;
  cf_PolicyUpdate : option CurrentPolicyResponse;
  cf_ContentUpdate : option ApplyContentRequest;
  cf_ResponseCommand : option ResponseCommandMsg;
  cf_EvidencePullback : option EvidencePullbackMsg;
  cf_Resume : option ResumeCursor;
  cf_ResponseAck : option ResponseAckMsg;
  cf_EvidenceResult : option EvidenceResultMsg;
  cf_Error : option ControlError;
  cf_PayloadJson : string
}.

Instance ControlFrame_eta : Settable ControlFrame := λ x,
  MkControlFrame (cf_Type x) (cf_RequestId x) (cf_Context x) (cf_ContractVersion x) (cf_Sequence x) (cf_Health x) (cf_Capability x)
    (cf_Ack x) (cf_PolicyUpdate x) (cf_ContentUpdate x) (cf_ResponseCommand x) (cf_EvidencePullback x) (cf_Resume x)
    (cf_ResponseAck x) (cf_EvidenceResult x) (cf_Error x) (cf_PayloadJson x).

Definition zero_frame : ControlFrame :=
  MkControlFrame "" "" None 0 0 None None None None None None None None None None None "".

(** A frame of a type, for a request, in a context *)
Definition reply_frame (ty requestID : string) (ctx : option RequestContext) : ControlFrame :=
  zero_frame <| cf_Type := ty |> <| cf_RequestId := requestID |> <| cf_Context := ctx |> <| cf_ContractVersion := 1%Z |>.

Class ControlText := {
  marshal_endpoint_policy : EndpointPolicy → string;
  marshal_response : Command → string;
  marshal_pullback : EvidencePullbackRequest → string;
  decode_policy : PolicyDoc → string → result PolicyDoc;
  unmarshal_subgraph : string → result EvidenceSubgraph
}.

(** Getters on messages that may be nil *)
Definition tenant_of (ctx : option RequestContext) : string := from_option rq_TenantId "" ctx.
Definition agent_of (ctx : option RequestContext) : string := from_option rq_AgentId "" ctx.
Definition scope_of (ctx : option RequestContext) : option ScopeMsg := ctx ≫= rq_Scope.
Definition scope_type (s : option ScopeMsg) : string := from_option sm_Type "" s.
Definition scope_selector (s : option ScopeMsg) : string := from_option sm_Selector "" s.
Definition version_of (c : option SensorCapabilityMsg) : string := from_option scm_Version "" c.

(** ** Errors *)

Definition code_string (c : Code) : string :=
  match c with
  | OK => "OK" | Canceled => "Canceled" | Unknown => "Unknown" | InvalidArgument => "InvalidArgument" | DeadlineExceeded => "DeadlineExceeded"
  | NotFound => "NotFound" | AlreadyExists => "AlreadyExists" | PermissionDenied => "PermissionDenied" | ResourceExhausted => "ResourceExhausted"
  | FailedPrecondition => "FailedPrecondition" | Aborted => "Aborted" | OutOfRange => "OutOfRange" | Unimplemented => "Unimplemented"
  | Internal => "Internal" | Unavailable => "Unavailable" | DataLoss => "DataLoss" | Unauthenticated => "Unauthenticated"
  end.

(** A status error, and its text *)
Definition status_text (e : Code * string) : string := "rpc error: code = " +:+ code_string e.1 +:+ " desc = " +:+ e.2.

Definition errorRetryable (e : Code * string) : bool :=
  match e.1 with Unavailable | ResourceExhausted | DeadlineExceeded => true | _ => false end.

Definition controlAckFrame (frame : ControlFrame) (status message code : string) (retryable : bool) : ControlFrame :=
  let req := cf_Context frame in
  (reply_frame "ack" (cf_RequestId frame) req)
    <| cf_Ack := Some (MkControlAck (cf_RequestId frame) (tenant_of req) (agent_of req) status message "" 0 "") |>
    <| cf_Error := if bool_decide (code = "") then None else Some (MkControlError code message retryable) |>.

Definition rejection (frame : ControlFrame) (e : Code * string) : ControlFrame :=
  controlAckFrame frame "rejected" (status_text e) (code_string e.1) (errorRetryable e).

(** ** The connection *)

(** The frames stored by [remember] are copies, as are those [replay] returns. *)
Record controlConnectionState := MkControlConnectionState {
  cs_nextIncoming : Z;
  cs_nextOutgoing : Z;
  cs_repliesByRequestID : gmap string (list ControlFrame)
}.

Instance controlConnectionState_eta : Settable controlConnectionState := λ x,
  MkControlConnectionState (cs_nextIncoming x) (cs_nextOutgoing x) (cs_repliesByRequestID x).

Definition initial_connection : controlConnectionState := MkControlConnectionState 1 1 ∅.

Definition acceptIncoming (frame : ControlFrame) (st : controlConnectionState) : (Code * string) + controlConnectionState :=
  let seq := cf_Sequence frame in
  if negb (cf_ContractVersion frame =? 1)%Z then inl (InvalidArgument, "unsupported control contract_version " +:+ FormatUint (cf_ContractVersion frame))
  else if bool_decide (cf_RequestId frame = "") then inl (InvalidArgument, "control frame request_id is required")
  else if (seq =? 0)%Z then inl (InvalidArgument, "control frame sequence is required")
  else if (seq <? cs_nextIncoming st)%Z then
    inl (AlreadyExists, "control frame replay sequence " +:+ FormatUint seq +:+ "; expected " +:+ FormatUint (cs_nextIncoming st))
  else if (cs_nextIncoming st <? seq)%Z then
    inl (FailedPrecondition, "control frame sequence gap: got " +:+ FormatUint seq +:+ "; expected " +:+ FormatUint (cs_nextIncoming st))
  else inr (st <| cs_nextIncoming ::= λ n, u64 (n + 1) |>).

Definition remember (requestID : string) (frames : list ControlFrame) (st : controlConnectionState) : controlConnectionState :=
  if bool_decide (requestID = "") then st else st <| cs_repliesByRequestID ::= <[requestID := frames]> |>.

Definition replay (requestID : string) (st : controlConnectionState) : option (list ControlFrame) :=
  if bool_decide (requestID = "") then None else cs_repliesByRequestID st !! requestID.

Fixpoint assignOutgoing (frames : list ControlFrame) (st : controlConnectionState) : list ControlFrame * controlConnectionState :=
  match frames with
  | [] => ([], st)
  | frame :: frames' =>
    let frame := frame <| cf_ContractVersion := 1%Z |> <| cf_Sequence := cs_nextOutgoing st |> in
    let '(rest, st) := assignOutgoing frames' (st <| cs_nextOutgoing ::= λ n, u64 (n + 1) |>) in
    (frame :: rest, st)
  end.

(** ** Conversions *)

Definition parseControlTime `{Texts} (value : string) : Time :=
  if bool_decide (value = "") then zero_time else default zero_time (parse_time value).

Definition zero_capability : SensorCapability := MkSensorCapability "" "" false false false false false "" false false [].

Definition sensorCapabilityFromControl (c : option SensorCapabilityMsg) : SensorCapability :=
  match c with
  | None => zero_capability
  | Some c =>
    MkSensorCapability (scm_Backend c) (scm_Version c) (scm_SupportsExec c) (scm_SupportsConnect c) (scm_SupportsFile c)
      (scm_SupportsEnforce c) (scm_SupportsHealth c) (scm_KernelRelease c) (scm_BtfAvailable c) (scm_BpffsAvailable c) []
  end.

Definition zero_sensor : SensorHealthMsg := MkSensorHealthMsg "" false false "" false 0 0 0 0 "" "" "".
Definition zero_bus : TelemetryBusHealthMsg := MkTelemetryBusHealthMsg 0 0 0 0 0 0 0 0.
Definition zero_batcher : TelemetryBatcherHealthMsg := MkTelemetryBatcherHealthMsg 0 0 0 0 0 0 0 0 0 0 "" false "" 0 0 0 0 0 0.
Definition zero_sender : TelemetrySenderHealthMsg := MkTelemetrySenderHealthMsg 0 0 0 0 0 false "".
Definition zero_cep : CEPHealthMsg := MkCEPHealthMsg 0 0 0 0 0 0 false.
Definition zero_detection : DetectionHealth := MkDetectionHealth "" 0 [] "" (MkRuntimeFeatureFlags "") "" "" zero_time.
Definition zero_streams : LocalStreamHealth := MkLocalStreamHealth 0 0 0 0 0 0 0 0 0 0 0 0 0 0.

Definition busFromControl (bus : TelemetryBusHealthMsg) : TelemetryBusHealth :=
  MkTelemetryBusHealth
    (bum_EventCapacity bus) (bum_EventBuffered bus) (bum_EventDropped bus) (bum_EventSubscribers bus) (bum_SignalCapacity bus)
    (bum_SignalBuffered bus) (bum_SignalDropped bus) (bum_SignalSubscribers bus).

Definition batcherFromControl (batcher : TelemetryBatcherHealthMsg) : TelemetryBatcherHealth :=
  MkTelemetryBatcherHealth
    (btm_PendingEvents batcher) (btm_PendingSignals batcher) (btm_QueuedBatches batcher) (btm_QueueCapacity batcher)
    (btm_DroppedBatches batcher) (btm_DroppedEvents batcher) (btm_DroppedSignals batcher) (btm_FlushedBatches batcher)
    (btm_FlushedEvents batcher) (btm_FlushedSignals batcher) (btm_PendingBytes batcher) (btm_MaxBytes batcher)
    (btm_FlushedByCount batcher) (btm_FlushedByBytes batcher) (btm_FlushedByInterval batcher) (btm_FlushedByShutdown batcher)
    (btm_LastFlushReason batcher) (btm_Closed batcher) (btm_LastError batcher).

Definition senderFromControl (sender : TelemetrySenderHealthMsg) : TelemetrySenderHealth :=
  MkTelemetrySenderHealth
    (sdm_SentBatches sender) (sdm_SentEvents sender) (sdm_SentSignals sender) (sdm_RejectedBatches sender)
    (sdm_RetriedBatches sender) (sdm_Drained sender) (sdm_LastError sender).

Definition cepFromControl (cep : CEPHealthMsg) : CEPHealth :=
  MkCEPHealth
    (cpm_ActiveGroups cep) (cpm_EvictedGroups cep) (cpm_ExpiredGroups cep) (cpm_DroppedEventRefs cep) (cpm_EvalErrors cep)
    (cpm_EmittedSignals cep) (cpm_Degraded cep).

Definition agentHealthFromControl `{Texts} (h : option HealthResponse) : AgentHealth :=
  match h with
  | None =>
    MkAgentHealth "" "" "" (MkRuntimeScope "" "") "" "" 0 "" 0 zero_capability
      (MkSensorHealth "" false false "" false 0 0 0 0 zero_time "" "") (busFromControl zero_bus) (batcherFromControl zero_batcher)
      (senderFromControl zero_sender) zero_detection (cepFromControl zero_cep) zero_streams zero_time
  | Some h =>
    let sensor := default zero_sensor (hr_Sensor h) in
    MkAgentHealth (hr_AgentId h) (hr_HostId h) (hr_TenantId h) (MkRuntimeScope (scope_type (hr_Scope h)) (scope_selector (hr_Scope h)))
      (hr_Status h) (hr_PolicyId h) (hr_PolicyVersion h) (hr_PolicyMode h) (hr_UptimeSeconds h) (sensorCapabilityFromControl (hr_Capability h))
      (MkSensorHealth (shm_Backend sensor) (shm_Installed sensor) (shm_Running sensor) (shm_Version sensor) (shm_PolicyLoaded sensor)
         (shm_EventsSeen sensor) (shm_EventsDropped sensor) (shm_ParseErrors sensor) (shm_RestartCount sensor)
         (parseControlTime (shm_LastEventAt sensor)) (shm_LastExitReason sensor) (shm_LastError sensor))
      (busFromControl (default zero_bus (hr_TelemetryBus h))) (batcherFromControl (default zero_batcher (hr_TelemetryBatcher h)))
      (senderFromControl (default zero_sender (hr_TelemetrySender h))) zero_detection (cepFromControl (default zero_cep (hr_Cep h))) zero_streams (parseControlTime (hr_ObservedAt h))
  end.

Definition controlCommandAckFromControl (now : Time) (a : option ControlAck) : ControlCommandAck :=
  match a with
  | None => MkControlCommandAck "" "" "" "" "" "" 0 "" zero_time
  | Some a => MkControlCommandAck (ka_RequestId a) (ka_TenantId a) (ka_AgentId a) (ka_Status a) (ka_Message a) (ka_PolicyId a)
                (ka_PolicyVersion a) (ka_ReportJson a) now
  end.

Definition responseAckFromControl `{Texts} (a : option ResponseAckMsg) : Ack :=
  match a with
  | None => MkAck "" "" "" false false false false "" zero_time
  | Some a => MkAck (ram_ResponseId a) (ram_TenantId a) (ram_AgentId a) (ram_Accepted a) (ram_Unsupported a) (ram_ObserveOnly a)
                (ram_Executed a) (ram_Message a) (parseControlTime (ram_ObservedAt a))
  end.

Definition evidencePullbackResultFromControl `{Texts} (r : option EvidenceResultMsg) : EvidencePullbackResult :=
  match r with
  | None => MkEvidencePullbackResult "" "" "" false "" "" zero_time
  | Some r => MkEvidencePullbackResult (erm_RequestId r) (erm_TenantId r) (erm_AgentId r) (erm_Ok r) (erm_Message r) (erm_EvidenceJson r)
                (parseControlTime (erm_ObservedAt r))
  end.

Definition currentPolicyFrame `{ControlText} (now : Time) (policy : PolicyDoc) : CurrentPolicyResponse :=
  MkCurrentPolicyResponse (pol_PolicyID policy) (pol_Version policy) (pol_TenantID policy)
    (MkScopeMsg (sel_Type (pol_Scope policy)) (sel_Selector (pol_Scope policy))) (pol_Mode policy) (pol_EndpointRules policy)
    (pol_CloudRules policy) (pol_Published policy) (marshal_endpoint_policy (GetEndpointPolicy now policy)).

Definition responseCommandControlFrame `{ControlText} (cmd : Command) : ResponseCommandMsg :=
  MkResponseCommandMsg (cmd_ResponseID cmd) (cmd_TenantID cmd) (cmd_AgentID cmd) (cmd_PolicyID cmd) (cmd_PolicyVersion cmd)
    (cmd_SignalID cmd) (cmd_Labels cmd) (MkScopeMsg (sc_Type (cmd_Scope cmd)) (sc_Selector (cmd_Scope cmd))) (cmd_Action cmd)
    (cmd_Mode cmd) (cmd_Target cmd) (cmd_Reason cmd) (cmd_Status cmd) (cmd_Actor cmd) (cmd_ApprovalRequired cmd)
    (cmd_ApprovalStatus cmd) (cmd_ApprovalThreshold cmd) (cmd_ApprovalRoles cmd) (marshal_response cmd).

Definition evidencePullbackControlFrame `{ControlText} (req : EvidencePullbackRequest) : EvidencePullbackMsg :=
  MkEvidencePullbackMsg (ep_RequestID req) (ep_TenantID req) (ep_AgentID req) (ep_IncidentID req) (ep_Labels req) (ep_Target req)
    (ep_Reason req) (ep_Status req) (ep_Actor req) (marshal_pullback req).

(** The frame, none for another type of command, or an error *)
Definition controlCommandFrame `{ControlText} (now : Time) (cmd : ControlCommand) (scope : option ScopeMsg) : result (option ControlFrame) :=
  let ctx := MkRequestContext (cc_CommandID cmd) (cc_TenantID cmd) (cc_AgentID cmd) scope in
  let frame := (reply_frame (cc_Type cmd) (cc_CommandID cmd) (Some ctx)) <| cf_PayloadJson := cc_PayloadJSON cmd |> in
  if bool_decide (cc_Type cmd = ControlCommandTypePolicyUpdate) then
    let policy := zero_policy <| pol_PolicyID := cc_PolicyID cmd |> <| pol_Version := cc_PolicyVersion cmd |> <| pol_TenantID := cc_TenantID cmd |> in
    match (if bool_decide (cc_PayloadJSON cmd = "") then Ok policy else decode_policy policy (cc_PayloadJSON cmd)) with
    | Err e => Err ("decode policy update payload for command " +:+ cc_CommandID cmd +:+ ": " +:+ e)
    | Ok policy => Ok (Some (frame <| cf_PolicyUpdate := Some (currentPolicyFrame now (PolicyModel.Normalize now policy)) |>))
    end
  else if bool_decide (cc_Type cmd = ControlCommandTypeContentUpdate) then
    Ok (Some (frame <| cf_ContentUpdate := Some (MkApplyContentRequest ctx (cc_PayloadJSON cmd) true) |>))
  else Ok None.

(** ** Handling a frame *)

Definition validatePeerControlIdentity (caller : Caller) (ctx : option RequestContext) : result (option PeerIdentity) :=
  check_peer "frame" caller (tenant_of ctx) (agent_of ctx).

(** Host and version of the agent, as its report says *)
Definition reported (frame : ControlFrame) : string * string :=
  if bool_decide (cf_Type frame = "health_report") then
    (from_option hr_HostId "" (cf_Health frame), version_of (cf_Health frame ≫= hr_Capability))
  else if bool_decide (cf_Type frame = "capability_report") then
    (from_option cr_HostId "" (cf_Capability frame), version_of (cf_Capability frame ≫= cr_Sensor))
  else ("", "").

Definition reply_or_error : Type := (Code * string) + list ControlFrame.

Section control.
Context `{RangeOrder} `{Texts} `{ControlText} `{SliceSort} (env : Env) (sessions : nat → string → string → option (list AgentSession))
  (commands : nat → option (list ControlCommand)) (rt : Runtime).

(** A method of the store *)
Definition on_store {A} (f : Store → A * Store) : StateM State A :=
  inside (λ w, let '(x, s) := f (wd_store w) in (x, w <| wd_store := s |>)).
Definition update_store (f : Store → Store) : StateM State unit := on_store (λ s, (tt, f s)).

Definition ask {A} (f : nat → A) : StateM State A := inside (call f).

(** [if err := st.Save(); err != nil { .. }; return replies, nil] *)
Definition save_then (what : string) (replies : list ControlFrame) : StateM State reply_or_error :=
  saved ← ask (env_save env);
  match saved with
  | Some e => mret (inl (Internal, "save " +:+ what +:+ ": " +:+ e))
  | None => mret (inr replies)
  end.

Definition accepted_ack (frame : ControlFrame) (message : string) : list ControlFrame := [controlAckFrame frame "accepted" message "" false].

Definition getResumeCursor (tenantID agentID : string) : StateM State ResumeCursor :=
  l ← listAgentSessions sessions tenantID agentID;
  match l with
  | [] => mret (MkResumeCursor tenantID agentID "" "")
  | session :: _ => mret (MkResumeCursor tenantID agentID (as_SessionID session) (as_LastAckCursor session))
  end.

(** The pending control commands, each marked as sent *)
Fixpoint send_commands (tenantID agentID : string) (scope : option ScopeMsg) (cmds : list ControlCommand) : StateM State reply_or_error :=
  match cmds with
  | [] => mret (inr [])
  | cmd :: cmds' =>
    now ← ask (env_now env);
    match controlCommandFrame now cmd scope with
    | Err e => mret (inl (Internal, "build control command frame: " +:+ e))
    | Ok None => send_commands tenantID agentID scope cmds'
    | Ok (Some frame) =>
      sent ← ask (env_now env);
      backend ← ask commands;
      _ ← on_store (MarkControlCommandSent backend sent (cc_CommandID cmd) tenantID agentID sent);
      rest ← send_commands tenantID agentID scope cmds';
      match rest with inl e => mret (inl e) | inr frames => mret (inr (frame :: frames)) end
    end
  end.

Definition hello (frame : ControlFrame) : StateM State reply_or_error :=
  let ctx := cf_Context frame in
  if bool_decide (agent_of ctx = "") then mret (inl (InvalidArgument, "hello agent_id is required"))
  else
    let tenantID := or_default (tenant_of ctx) in
    let agentID := agent_of ctx in
    let scope := scope_of ctx in
    backend ← ask (env_effective env);
    s ← gets gw_store;
    let policy := default zero_policy (EffectivePolicy backend tenantID agentID (scope_type scope) (scope_selector scope) s) in
    update_store (AddAgent (MkAgentIdentity agentID "" "" tenantID "" "")) ;;
    now ← ask (env_now env);
    session ← on_store (RecordControlSessionOpen now tenantID agentID "control" now);
    TouchHotSession rt session ;;
    now ← ask (env_now env);
    cursor ← getResumeCursor tenantID agentID;
    s ← gets gw_store;
    let within := Some (MkRequestContext "" tenantID agentID scope) in
    let policyID := "policy-" +:+ cf_RequestId frame in
    let replies :=
      [(reply_frame "policy_update" policyID (Some (MkRequestContext policyID tenantID agentID scope)))
         <| cf_PolicyUpdate := Some (currentPolicyFrame now policy) |>;
       (reply_frame "resume" (cf_RequestId frame) within) <| cf_Resume := Some cursor |>] ++
      ((λ cmd, (reply_frame "response_command" (cf_RequestId frame) within) <| cf_ResponseCommand := Some (responseCommandControlFrame cmd) |>)
         <$> PendingResponses tenantID agentID s) ++
      ((λ req, (reply_frame "evidence_pullback" (cf_RequestId frame) within) <| cf_EvidencePullback := Some (evidencePullbackControlFrame req) |>)
         <$> PendingEvidencePullbacks tenantID agentID s) in
    backend ← ask commands;
    cmds ← send_commands tenantID agentID scope (PendingControlCommands backend tenantID agentID s);
    match cmds with
    | inl e => mret (inl e)
    | inr frames => save_then "control hello state" (replies ++ frames)
    end.

Definition health_report (frame : ControlFrame) : StateM State reply_or_error :=
  let health := agentHealthFromControl (cf_Health frame) in
  if bool_decide (ah_AgentID health = "") then mret (inl (InvalidArgument, "health_report agent_id is required"))
  else
    update_store (UpsertAgentHealth health) ;;
    update_store (AddAgent (MkAgentIdentity (ah_AgentID health) (ah_HostID health) (scap_Version (ah_Capability health)) (ah_TenantID health) "" "")) ;;
    save_then "health" (accepted_ack frame "health accepted").

Definition capability_report (frame : ControlFrame) : StateM State reply_or_error :=
  match cf_Capability frame with
  | Some cap =>
    if bool_decide (cr_AgentId cap = "") then mret (inl (InvalidArgument, "capability_report agent_id is required"))
    else
      update_store (AddAgent (MkAgentIdentity (cr_AgentId cap) (cr_HostId cap) (version_of (cr_Sensor cap)) (cr_TenantId cap) "" "")) ;;
      save_then "capability" (accepted_ack frame "capability accepted")
  | None => mret (inl (InvalidArgument, "capability_report agent_id is required"))
  end.

Definition response_ack (frame : ControlFrame) : StateM State reply_or_error :=
  let ack := responseAckFromControl (cf_ResponseAck frame) in
  if bool_decide (rack_ResponseID ack = "") then mret (inl (InvalidArgument, "response_ack response_id is required"))
  else
    now ← ask (env_now env);
    found ← on_store (AckResponse now ack);
    match found with
    | None => mret (inl (NotFound, "response command not found"))
    | Some _ => save_then "response ack" (accepted_ack frame "response ack accepted")
    end.

Definition evidence_result (frame : ControlFrame) : StateM State reply_or_error :=
  let r := evidencePullbackResultFromControl (cf_EvidenceResult frame) in
  if bool_decide (er_RequestID r = "") then mret (inl (InvalidArgument, "evidence_pullback_result request_id is required"))
  else
    s ← gets gw_store;
    match GetEvidencePullback (er_RequestID r) (er_TenantID r) (er_AgentID r) s with
    | None => mret (inl (NotFound, "evidence pullback request not found"))
    | Some req =>
      attached ←
        (if bool_decide (er_Evidence r = "") then mret (inr tt)
         else match unmarshal_subgraph (er_Evidence r) with
         | Err e => mret (inl (InvalidArgument, "decode evidence pullback evidence: " +:+ e))
         | Ok evidence =>
           inc ← on_store (AttachIncidentEvidence (ep_IncidentID req) (ep_Labels req) (Some evidence));
           match inc with
           | None => mret (inl (NotFound, "incident for evidence pullback not found"))
           | Some _ => mret (inr tt)
           end
         end);
      match attached with
      | inl e => mret (inl e)
      | inr _ =>
        now ← ask (env_now env);
        completed ← on_store (CompleteEvidencePullback now r);
        match completed with
        | None => mret (inl (NotFound, "evidence pullback request not found"))
        | Some _ => save_then "evidence pullback result" (accepted_ack frame "evidence pullback result accepted")
        end
      end
    end.

Definition command_ack (frame : ControlFrame) : StateM State reply_or_error :=
  match cf_Ack frame with
  | None => mret (inl (InvalidArgument, "ack payload is required"))
  | Some a =>
    now ← ask (env_now env);
    let ack := controlCommandAckFromControl now (Some a) in
    let done := accepted_ack frame "ack accepted" in
    if bool_decide (cca_CommandID ack = "") then mret (inr done)
    else
      backend ← ask commands;
      found ← on_store (AckControlCommand backend now ack);
      match found with
      | None => mret (inr done)
      | Some _ => save_then "control command ack" done
      end
  end.

Definition bind_peer (frame : ControlFrame) (peer : option PeerIdentity) : StateM State (result unit) :=
  match peer with
  | None => mret (Ok tt)
  | Some peer =>
    if bool_decide (agent_of (cf_Context frame) = "") then mret (Ok tt)
    else let '(hostID, version) := reported frame in on_store (BindAgentIdentity (agentIdentityFromPeer peer hostID version))
  end.

Definition handleFrame (caller : Caller) (frame : ControlFrame) : StateM State reply_or_error :=
  match validatePeerControlIdentity caller (cf_Context frame) with
  | Err e => mret (inl (PermissionDenied, e))
  | Ok peer =>
    bound ← bind_peer frame peer;
    match bound with
    | Err e => mret (inl (PermissionDenied, e))
    | Ok _ =>
      let type_is ty := bool_decide (cf_Type frame = ty) in
      if type_is "hello" then hello frame
      else if type_is "health_report" then health_report frame
      else if type_is "capability_report" then capability_report frame
      else if type_is "response_ack" then response_ack frame
      else if type_is "evidence_pullback_result" then evidence_result frame
      else if type_is "ack" then command_ack frame
      else mret (inl (InvalidArgument, "unsupported control frame type " +:+ Quote (cf_Type frame)))
    end
  end.

(** The replies to a frame: those of [handleFrame], or a rejection *)
Definition replies_to (caller : Caller) (frame : ControlFrame) : StateM State (list ControlFrame) :=
  r ← handleFrame caller frame;
  match r with inl e => mret [rejection frame e] | inr frames => mret frames end.

(** One turn of the loop of [Connect] *)
Definition receive (caller : Caller) (frame : ControlFrame) (st : controlConnectionState) : StateM State (list ControlFrame * controlConnectionState) :=
  match acceptIncoming frame st with
  | inl e => mret (assignOutgoing [rejection frame e] st)
  | inr st =>
    match replay (cf_RequestId frame) st with
    | Some out => mret (assignOutgoing out st)
    | None =>
      out ← replies_to caller frame;
      mret (assignOutgoing out (remember (cf_RequestId frame) out st))
    end
  end.

Fixpoint receive_all (caller : Caller) (inbox : list ControlFrame) (st : controlConnectionState) : StateM State (list ControlFrame) :=
  match inbox with
  | [] => mret []
  | frame :: inbox' =>
    r ← receive caller frame st;
    rest ← receive_all caller inbox' r.2;
    mret (r.1 ++ rest)
  end.

(** [Connect] on the frames the agent sends before it closes the stream; what
    is sent is taken to arrive *)
Definition Connect (caller : Caller) (inbox : list ControlFrame) : StateM State ((Code * string) + list ControlFrame) :=
  if negb (authorized (rt_agentToken rt) caller) then mret (inl (Unauthenticated, "unauthorized"))
  else out ← receive_all caller inbox initial_connection; mret (inr out).
End control.
End GatewayControl.
