(* ===== verification/ControlTheorems.v ===== *)
(** * The gateway: what a control connection guarantees

    Every request that is accepted on a connection is handled exactly once,
    in the order in which the requests were first accepted, and answered the
    same way whenever it is repeated; what is sent is numbered from one.  A
    frame that is refused, and a caller whose certificate names another
    agent, change nothing. *)

From S2P Require Import Prelude GoStrings GoBytes GoData GoSha GoText EventModel Policy DataPlane Response ControlModel PolicyModel Graph Health Analytics StoreData StoreAgents StorePolicies StoreTelemetry StoreResponses StoreCommands OpenSearch IngestWorker Gateway GatewayTheorems GatewayControl.

Module ControlTheorems.
Import EventModel Policy DataPlane Response ControlModel PolicyModel Graph Health Analytics.Incidents StoreData StoreAgents StorePolicies StoreTelemetry StoreResponses StoreCommands OpenSearch IngestWorker Gateway GatewayTheorems GatewayControl.

(** ** The abstract connection *)

(** Whether a frame is the one expected next *)
Definition expected (next : Z) (frame : ControlFrame) : Prop :=
  cf_ContractVersion frame = 1%Z ∧ cf_RequestId frame ≠ "" ∧ cf_Sequence frame ≠ 0%Z ∧ cf_Sequence frame = next.

Instance expected_dec next frame : Decision (expected next frame).
Proof. unfold expected. apply _. Defined.

Fixpoint accepted (next : Z) (inbox : list ControlFrame) : list ControlFrame :=
  match inbox with
  | [] => []
  | frame :: inbox' =>
    if decide (expected next frame) then frame :: accepted (u64 (next + 1)) inbox' else accepted next inbox'
  end.

(** The first frame of each request that is not in [seen] *)
Fixpoint first_requests (seen : gset string) (frames : list ControlFrame) : list ControlFrame :=
  match frames with
  | [] => []
  | frame :: frames' =>
    if decide (cf_RequestId frame ∈ seen) then first_requests seen frames'
    else frame :: first_requests ({[cf_RequestId frame]} ∪ seen) frames'
  end.

(** Frames numbered from [n], in the version of the contract *)
Fixpoint numbered (n : Z) (frames : list ControlFrame) : list ControlFrame :=
  match frames with
  | [] => []
  | frame :: frames' => frame <| cf_ContractVersion := 1%Z |> <| cf_Sequence := n |> :: numbered (u64 (n + 1)) frames'
  end.

(** What is sent for an inbox, when [table] has the replies to each request;
    [refuse] is the error of a frame that is not the next. *)
Fixpoint answers (refuse : Z → ControlFrame → Code * string) (table : gmap string (list ControlFrame)) (next : Z) (inbox : list ControlFrame)
    : list ControlFrame :=
  match inbox with
  | [] => []
  | frame :: inbox' =>
    if decide (expected next frame) then default [] (table !! cf_RequestId frame) ++ answers refuse table (u64 (next + 1)) inbox'
    else rejection frame (refuse next frame) :: answers refuse table next inbox'
  end.

(** The error [acceptIncoming] gives *)
Definition refusal (next : Z) (frame : ControlFrame) : Code * string :=
  match acceptIncoming frame (MkControlConnectionState next 0 ∅) with inl e => e | inr _ => (OK, "") end.

Lemma accept_spec frame st :
  acceptIncoming frame st =
  if decide (expected (cs_nextIncoming st) frame) then inr (st <| cs_nextIncoming ::= λ n, u64 (n + 1) |>)
  else inl (refusal (cs_nextIncoming st) frame).
Proof.
  unfold refusal, acceptIncoming, expected. cbn [cs_nextIncoming]. destruct (Z.eqb_spec (cf_ContractVersion frame) 1); cbn [negb].
  2: { rewrite decide_False by tauto. done. }
  case_bool_decide as Hr; [rewrite decide_False by tauto; done|].
  destruct (Z.eqb_spec (cf_Sequence frame) 0); [rewrite decide_False by tauto; done|].
  destruct (Z.ltb_spec (cf_Sequence frame) (cs_nextIncoming st)); [rewrite decide_False by lia; done|].
  destruct (Z.ltb_spec (cs_nextIncoming st) (cf_Sequence frame)); [rewrite decide_False by lia; done|].
  rewrite decide_True; [done|]. split_and!; [done..|lia].
Qed.

Fixpoint advance (k : nat) (n : Z) : Z := match k with O => n | S k' => advance k' (u64 (n + 1)) end.

Lemma assign_spec frames st :
  assignOutgoing frames st = (numbered (cs_nextOutgoing st) frames, st <| cs_nextOutgoing := advance (length frames) (cs_nextOutgoing st) |>).
Proof. revert st. induction frames as [|frame frames IH]; intros [i o t]; [done|]. cbn [assignOutgoing]. rewrite IH. done. Qed.

Lemma numbered_app n l k : numbered n (l ++ k) = numbered n l ++ numbered (advance (length l) n) k.
Proof. revert n. induction l as [|x l IH]; intros n; cbn; [done|]. by rewrite IH. Qed.

Lemma first_requests_fresh seen frames id : id ∈ cf_RequestId <$> first_requests seen frames → id ∉ seen.
Proof.
  revert seen. induction frames as [|frame frames IH]; intros seen; cbn; [by intros ?%elem_of_nil|]. destruct (decide _) as [Hs|Hs]; [apply IH|].
  cbn. intros [->|Hi]%elem_of_cons; [done|]. apply IH in Hi. set_solver.
Qed.

Lemma first_requests_distinct seen frames : NoDup (cf_RequestId <$> first_requests seen frames).
Proof.
  revert seen. induction frames as [|frame frames IH]; intros seen; cbn; [constructor|]. destruct (decide _); [apply IH|]. cbn.
  constructor; [|apply IH]. intros Hi%first_requests_fresh. set_solver.
Qed.

Section connection.
Context `{RangeOrder} `{Texts} `{ControlText} `{SliceSort} (env : Env) (sessions : nat → string → string → option (list AgentSession))
  (commands : nat → option (list ControlCommand)) (rt : Runtime) (caller : Caller).

(** The frames handled one after the other *)
Fixpoint handle_all (frames : list ControlFrame) : StateM State (list (list ControlFrame)) :=
  match frames with
  | [] => mret []
  | frame :: frames' =>
    out ← replies_to env sessions commands rt caller frame;
    rest ← handle_all frames';
    mret (out :: rest)
  end.

Lemma handle_all_length frames g : length (handle_all frames g).1 = length frames.
Proof. revert g. induction frames as [|frame frames IH]; intros g; [done|]. cbn [handle_all]. rewrite !run_bind. cbn. by rewrite IH. Qed.

(** The replies by request *)
Definition table_of (frames : list ControlFrame) (replies : list (list ControlFrame)) : gmap string (list ControlFrame) :=
  list_to_map (zip (cf_RequestId <$> frames) replies).

Lemma table_of_None seen frames replies id : id ∈ seen → table_of (first_requests seen frames) replies !! id = None.
Proof.
  intros Hs. apply not_elem_of_list_to_map. intros Hi. apply (first_requests_fresh seen frames id); [|done].
  apply list_elem_of_fmap in Hi as ((k & v) & -> & Hz). by apply elem_of_zip_l in Hz.
Qed.

Notation receive' := (receive env sessions commands rt caller).
Notation receive_all' := (receive_all env sessions commands rt caller).

Lemma receive_all_spec inbox st g :
  let firsts := first_requests (dom (cs_repliesByRequestID st)) (accepted (cs_nextIncoming st) inbox) in
  let r := handle_all firsts g in
  receive_all' inbox st g =
    (numbered (cs_nextOutgoing st) (answers refusal (table_of firsts r.1 ∪ cs_repliesByRequestID st) (cs_nextIncoming st) inbox), r.2).
Proof.
  revert st g. induction inbox as [|frame inbox IH]; intros [next out T] g; [done|]. cbn zeta. cbn [receive_all accepted answers cs_nextIncoming cs_nextOutgoing cs_repliesByRequestID].
  rewrite run_bind. unfold receive. rewrite accept_spec. cbn [cs_nextIncoming]. destruct (decide (expected next frame)) as [He|He].
  2: { cbn iota. rewrite assign_spec. cbn [fst snd mret StateM_ret length advance cs_nextOutgoing]. rewrite run_bind, IH. done. }
  assert (cf_RequestId frame ≠ "") as Hid by apply He. unfold replay. rewrite bool_decide_eq_false_2 by done.
  cbn [cs_repliesByRequestID assign first_requests]. destruct (T !! cf_RequestId frame) as [replies|] eqn:ET.
  - rewrite assign_spec. cbn [fst snd mret StateM_ret cs_nextOutgoing assign]. rewrite run_bind, IH. cbn [fst snd mret StateM_ret cs_nextOutgoing cs_nextIncoming cs_repliesByRequestID assign].
    assert (cf_RequestId frame ∈ dom T) as Hd by (apply elem_of_dom; by eexists).
    rewrite decide_True by done. rewrite lookup_union_r, ET by (by apply table_of_None). cbn [default from_option]. rewrite numbered_app. done.
  - rewrite (run_bind (replies_to env sessions commands rt caller frame)). set (h := replies_to env sessions commands rt caller frame g). destruct h as [replies g1] eqn:Eh. unfold h in Eh.
    cbn [fst snd]. rewrite assign_spec. unfold remember. rewrite bool_decide_eq_false_2 by done.
    cbn [fst snd mret StateM_ret]. rewrite run_bind, IH. cbn [fst snd mret StateM_ret cs_nextOutgoing cs_nextIncoming cs_repliesByRequestID assign].
    rewrite dom_insert_L. assert (cf_RequestId frame ∉ dom T) as Hd by (by apply not_elem_of_dom). rewrite decide_False by done.
    cbn [handle_all]. rewrite run_bind, Eh. cbn [fst snd]. rewrite run_bind. cbn [fst snd mret StateM_ret].
    set (firsts := first_requests _ _). set (r := handle_all firsts g1).
    assert (table_of firsts r.1 !! cf_RequestId frame = None) as HN by (apply table_of_None; set_solver).
    assert (table_of (frame :: firsts) (replies :: r.1) ∪ T = table_of firsts r.1 ∪ <[cf_RequestId frame := replies]> T) as ->.
    { unfold table_of. cbn. rewrite <- insert_union_l. by apply insert_union_r. }
    rewrite lookup_union_r, lookup_insert_eq by done. cbn [default from_option]. rewrite numbered_app. done.
Qed.
End connection.

(** C17. A control connection handles every request exactly once.  Of the
    frames an agent sends, those that carry the number expected next are
    accepted.  The first frame of each request is handled, in the order in
    which they were accepted, and nothing else changes the state; a request
    that is sent again is answered with the same frames.  A frame that is
    not accepted is answered with a rejection.  What the gateway sends
    is numbered from one. *)
Theorem control_exactly_once `{RangeOrder} `{Texts} `{ControlText} `{SliceSort} (env : Env)
    (sessions : nat → string → string → option (list AgentSession)) (commands : nat → option (list ControlCommand)) (rt : Runtime)
    (caller : Caller) (inbox : list ControlFrame) (g : State) :
  let firsts := first_requests ∅ (accepted 1 inbox) in
  let '(replies, g') := handle_all env sessions commands rt caller firsts g in
  NoDup (cf_RequestId <$> firsts) ∧
  Connect env sessions commands rt caller inbox g =
    if authorized (rt_agentToken rt) caller
    then (inr (numbered 1 (answers refusal (table_of firsts replies) 1 inbox)), g')
    else (inl (Unauthenticated, "unauthorized"), g).
Proof.
  cbn zeta. pose proof (receive_all_spec env sessions commands rt caller inbox initial_connection g) as Hr. cbn zeta in Hr.
  cbn [initial_connection cs_nextIncoming cs_nextOutgoing cs_repliesByRequestID] in Hr. rewrite dom_empty_L in Hr.
  destruct (handle_all _ _ _ _ _ _ g) as [replies g'] eqn:Eh. split; [apply first_requests_distinct|]. unfold Connect.
  destruct (authorized _ _); cbn [negb]; [|done]. rewrite run_bind, Hr. cbn [fst snd mret StateM_ret]. by rewrite map_union_empty.
Qed.

(** ** What is not checked *)

Definition demo_control_text : ControlText := {|
  marshal_endpoint_policy _ := "{}"; marshal_response _ := "{}"; marshal_pullback _ := "{}";
  decode_policy policy text := if bool_decide (text = "{}") then Ok policy else Err "unexpected text"; unmarshal_subgraph _ := Err "no evidence" |}.

Definition demo_handle (caller : Caller) (frame : ControlFrame) : StateM State reply_or_error :=
  handleFrame (H0 := demo_texts) (H1 := demo_control_text) (H2 := insertion_SliceSort) (demo_env None) (λ _ _ _, None) (λ _, None)
    (NewRuntime None "" "") caller frame.

Definition certified (cn : string) : Caller := MkCaller [MkCertificate [] cn] None.
Definition within (tenantID agentID : string) : option RequestContext := Some (MkRequestContext "" tenantID agentID None).

(** The certificate is compared with the context of a frame, not with the
    agent its payload is about: an agent can report the health of another. *)
Lemma health_of_another :
  let frame := (reply_frame "health_report" "r1" (within "t" "a1"))
    <| cf_Health := Some (MkHealthResponse "a2" "h2" "t" None "ok" "" 0 "" 0 None None None None None None None None "") |> in
  let r := demo_handle (certified "t/a1") frame demo_gateway in
  r.1 = inr (accepted_ack frame "health accepted") ∧ ah_Status <$> GetAgentHealth (H := elements_order) None "t" "a2" (gw_store r.2) = Some "ok".
Proof. vm_compute. done. Qed.

(** A command whose payload cannot be decoded is in the way of every hello:
    the agent is told nothing, not even of its other commands. *)
Definition poisoned : State :=
  let cmd id ty payload := MkControlCommand id "t" "a1" ty "pending" "p" 1 "" "" "" payload "" "" 1%Z 1%Z 0%Z 0%Z 0%Z 0%Z 0%Z 0 "" "" "" 0 "" "" in
  demo_gateway <| gw_world ::= λ w, w <| wd_store ::= λ s, s <| st_ControlCommands :=
    [cmd "c1" ControlCommandTypePolicyUpdate "not a policy"; cmd "c2" ControlCommandTypeContentUpdate "{}"] |> |> |>.

Lemma hello_refused :
  (demo_handle (certified "t/a1") (reply_frame "hello" "r1" (within "t" "a1")) poisoned).1 =
  inl (Internal, "build control command frame: decode policy update payload for command c1: unexpected text").
Proof. vm_compute. done. Qed.
End ControlTheorems.
