(* ===== verification/ContentStore.v ===== *)
(** * The content store of the agent ([internal/agent/content])

    Rule packs, context sets and packs of indicators come as signed
    documents.  A document is checked (version, kind, digest, signature by a
    trusted key), a patch is resolved against the content it changes, and the
    result is kept in a directory, one file per reference; the contents of a
    directory are checked again when it is loaded.  A default layer that was
    delivered with the agent lies below and cannot be changed.

    JSON is the class [ContentText], signatures the class [Signatures].  The
    files of the directory are the field [ct_files]; the other faults of the
    disk are arguments. *)

From S2P Require Import Prelude GoStrings GoBytes GoData GoSha GoText EventModel Policy Response PolicyModel Collection.

Module ContentStore.
Import Collection.

(** ** Documents *)

Record Metadata := MkMetadata {
  md_ID : string;
  md_Version : string;
  md_TenantID : string;
  md_CreatedAt : string;
  md_TTL : string
}.

Instance Metadata_eta : Settable Metadata := λ x, MkMetadata (md_ID x) (md_Version x) (md_TenantID x) (md_CreatedAt x) (md_TTL x).

Record Integrity := MkIntegrity {
  in_DigestAlg : string;
  in_Digest : string;
  in_SignatureAlg : string;
  in_KeyID : string;
  in_Signature : string
}.

Definition zero_integrity : Integrity := MkIntegrity "" "" "" "" "".

(** [env_Spec] is the raw text of the specification. *)
Record Envelope := MkEnvelope {
  env_APIVersion : string;
  env_Kind : string;
  env_Metadata : Metadata;
  env_Spec : string;
  env_Integrity : Integrity
}.

Instance Envelope_eta : Settable Envelope := λ x, MkEnvelope (env_APIVersion x) (env_Kind x) (env_Metadata x) (env_Spec x) (env_Integrity x).

Record ContentRecord := MkContentRecord {
  rec_Ref : string;
  rec_Kind : string;
  rec_Version : string;
  rec_Digest : string;
  rec_Signed : bool;
  rec_Status : string;
  rec_RawJSON : string
}.

Instance ContentRecord_eta : Settable ContentRecord := λ x,
  MkContentRecord (rec_Ref x) (rec_Kind x) (rec_Version x) (rec_Digest x) (rec_Signed x) (rec_Status x) (rec_RawJSON x).

Record ValueSet := MkValueSet {
  vs_Ref : string;
  vs_Version : string;
  vs_Digest : string;
  vs_ValueType : string;
  vs_Values : list string
}.

(** *** Rules *)

Record RuntimeCondition := MkRuntimeCondition {
  rtc_Field : string;
  rtc_Op : string;
  rtc_Value : string;
  rtc_Values : list string;
  rtc_Ref : string;
  rtc_Step : string;
  rtc_StepField : string
}.

Inductive RuntimeConditionNode := MkRuntimeConditionNode {
  rtn_All : option (list RuntimeConditionNode);
  rtn_Any : option (list RuntimeConditionNode);
  rtn_Not : option RuntimeConditionNode;
  rtn_Condition : option RuntimeCondition
}.

Record RuntimeExpr := MkRuntimeExpr {
  rte_Conditions : list RuntimeCondition;
  rte_ConditionGroup : option RuntimeConditionNode
}.

Record RuntimeStep := MkRuntimeStep {
  rts_ID : string;
  rts_Behavior : string;
  rts_Event : string;
  rts_Conditions : list RuntimeCondition;
  rts_ConditionGroup : option RuntimeConditionNode
}.

Record RuntimeSequence := MkRuntimeSequence {
  rtq_Within : string;
  rtq_By : list string;
  rtq_Steps : list RuntimeStep
}.

Record RuntimeFact := MkRuntimeFact {
  rtf_ID : string;
  rtf_Event : string;
  rtf_Events : list string;
  rtf_Conditions : list RuntimeCondition;
  rtf_ConditionGroup : option RuntimeConditionNode
}.

Record RuntimeCorrelate := MkRuntimeCorrelate {
  rtr_Within : string;
  rtr_By : list string;
  rtr_Facts : list RuntimeFact
}.

Record RuntimeSuppression := MkRuntimeSuppression {
  rtp_Within : string;
  rtp_By : list string
}.

Record RequiredEvent := MkRequiredEvent {
  rqe_Behavior : string;
  rqe_Fields : list string
}.

Record ResponseIntent := MkResponseIntent {
  rin_Action : string;
  rin_Confidence : Z;
  rin_Reason : string
}.

Record Rule := MkRule {
  rule_RuleID : string;
  rule_Version : Z;
  rule_RuleSetRef : string;
  rule_Severity : string;
  rule_RuntimeType : string;
  rule_RuntimeEntry : string;
  rule_Expr : RuntimeExpr;
  rule_Sequence : RuntimeSequence;
  rule_Correlate : RuntimeCorrelate;
  rule_Suppression : RuntimeSuppression;
  rule_RequiredEvents : list RequiredEvent;
  rule_ContextRefs : list string;
  rule_IOCRefs : list string;
  rule_ResponseIntent : ResponseIntent;
  rule_Terminal : option bool
}.

(** A rule, and a set of them, as the specification of a rule pack has them *)
Record rule_doc := MkRuleDoc {
  rd_RuleID : string;
  rd_Version : Z;
  rd_Severity : string;
  rd_Type : string;
  rd_Entrypoint : string;
  rd_Expr : RuntimeExpr;
  rd_Sequence : RuntimeSequence;
  rd_Correlate : RuntimeCorrelate;
  rd_Suppress : RuntimeSuppression;
  rd_Events : list RequiredEvent;
  rd_ContextRequired : list string;
  rd_ContextOptional : list string;
  rd_IOCRequired : list string;
  rd_IOCOptional : list string;
  rd_ResponseIntent : ResponseIntent;
  rd_Terminal : option bool
}.

Record ruleset_doc := MkRulesetDoc { rsd_ID : string; rsd_Rules : list rule_doc }.

(** The specification of a value set, with the fields of a patch *)
Record patch_doc := MkPatchDoc {
  pd_BaseVersion : string;
  pd_ValueType : string;
  pd_MergeStrategy : string;
  pd_Values : list string;
  pd_Ops : list (string * string)
}.

Record unsignedAdmission := MkUnsignedAdmission {
  ua_AllowUnsigned : bool;
  ua_Digest : string
}.

(** [pe_Content] is raw; a missing field is the empty text *)
Record persistedRecord := MkPersistedRecord {
  pe_Admission : option unsignedAdmission;
  pe_Content : string
}.

Record ManifestEntry := MkManifestEntry {
  me_Ref : string;
  me_Kind : string;
  me_Version : string;
  me_Digest : string;
  me_File : string
}.

Record Manifest := MkManifest {
  mf_Version : string;
  mf_Entries : list ManifestEntry
}.

Class ContentText := {
  content_unicode :: Unicode;
  decode_envelope : string → result Envelope;
  marshal_envelope : Envelope → result string;
  marshal_payload : Envelope → string;
  decode_values : string → result (string * list string);
  decode_patch : string → result patch_doc;
  marshal_resolved : string → list string → result string;
  decode_rulesets : string → result (list ruleset_doc);
  decode_persisted : string → result persistedRecord;
  marshal_persisted : persistedRecord → result string;
  decode_manifest : string → result Manifest
}.

(** Ed25519 and base64; keys and signatures are strings of bytes *)
Class Signatures := {
  verify_ed25519 : string → string → string → bool;
  sign_ed25519 : string → string → string;
  decode_base64 : string → result string;
  encode_base64 : string → string
}.

Definition public_key_size : nat := 32.
Definition private_key_size : nat := 64.

(** [strings.EqualFold], of texts of which one has hexadecimal digits only *)
Definition EqualFold (a b : string) : bool := bool_decide (ToLower a = ToLower b).

(** The first value that is not blank, trimmed *)
Fixpoint firstNonEmpty (values : list string) : string :=
  match values with
  | [] => ""
  | value :: values' => if bool_decide (TrimSpace value = "") then firstNonEmpty values' else TrimSpace value
  end.

Section content.
Context `{ContentText} `{Signatures}.

Definition Parse (raw : string) : result Envelope :=
  match decode_envelope raw with
  | Err e => Err ("decode content envelope: " +:+ e)
  | Ok env =>
    Ok (env <| env_Kind ::= TrimSpace |>
            <| env_Metadata ::= λ m, m <| md_ID ::= TrimSpace |> <| md_Version ::= TrimSpace |> |>)
  end.

Definition signedBytes (env : Envelope) : string := marshal_payload env.
Definition signedDigest (env : Envelope) : string := EncodeToString (Sum256 (string_bytes (signedBytes env))).

Definition is_signed (env : Envelope) : bool := negb (bool_decide (TrimSpace (in_Signature (env_Integrity env)) = "")).

Definition verifySignature (keys : gmap string string) (env : Envelope) : option string :=
  let integrity := env_Integrity env in
  let keyID := TrimSpace (in_KeyID integrity) in
  let key := default "" (keys !! keyID) in
  if negb (bool_decide (in_SignatureAlg integrity = "ed25519")) then Some ("unsupported content signature_alg " +:+ Quote (in_SignatureAlg integrity))
  else if bool_decide (keyID = "") then Some "content signature key_id is required"
  else if negb (String.length key =? public_key_size)%nat then Some ("content signature key " +:+ Quote keyID +:+ " is not trusted")
  else match decode_base64 (in_Signature integrity) with
  | Err e => Some ("decode content signature: " +:+ e)
  | Ok sig => if verify_ed25519 key (signedBytes env) sig then None else Some "content signature verification failed"
  end.

Definition check_digest (env : Envelope) : option string :=
  let integrity := env_Integrity env in
  let alg := firstNonEmpty [in_DigestAlg integrity; "sha256"] in
  if bool_decide (in_Digest integrity = "") then None
  else if negb (bool_decide (alg = "sha256")) then Some ("unsupported content digest_alg " +:+ Quote alg)
  else if negb (EqualFold (in_Digest integrity) (signedDigest env)) then Some "content digest mismatch"
  else None.

Definition Validate (keys : gmap string string) (env : Envelope) (allowUnsigned : bool) : option string :=
  if negb (bool_decide (env_APIVersion env = "sysarmor.content/v1")) then Some ("unsupported content api_version " +:+ Quote (env_APIVersion env))
  else if negb (bool_decide (env_Kind env ∈ ["rulepack"; "contextset"; "iocpack"; "content-bundle"])) then Some ("unsupported content kind " +:+ Quote (env_Kind env))
  else if bool_decide (md_ID (env_Metadata env) = "") then Some "content metadata.id is required"
  else if bool_decide (md_Version (env_Metadata env) = "") then Some "content metadata.version is required"
  else if bool_decide (env_Spec env = "") || bool_decide (env_Spec env = "null") then Some "content spec is required"
  else match check_digest env with
  | Some e => Some e
  | None =>
    if negb (is_signed env) && negb allowUnsigned then Some "unsigned content requires allow_unsigned"
    else if is_signed env then verifySignature keys env
    else None
  end.

Definition SignEnvelope (env : Envelope) (keyID privateKey : string) : result Envelope :=
  let keyID := TrimSpace keyID in
  if bool_decide (keyID = "") then Err "content signing key_id is required"
  else if negb (String.length privateKey =? private_key_size)%nat then Err "invalid Ed25519 private key"
  else
    let env := env <| env_Integrity := zero_integrity |> in
    Ok (env <| env_Integrity := MkIntegrity "sha256" (signedDigest env) "ed25519" keyID (encode_base64 (sign_ed25519 privateKey (signedBytes env))) |>).

(** ** Payloads *)

Definition normalizeValues (values : list string) : list string := sort_strings (normalizeStringList values).

Definition parseValueSet (record : ContentRecord) : result ValueSet :=
  env ← Parse (rec_RawJSON record);
  spec ← decode_values (env_Spec env);
  mret (MkValueSet (rec_Ref record) (rec_Version record) (rec_Digest record) (TrimSpace spec.1) (normalizeValues spec.2)).

Definition rule_of (ref : string) (rule : rule_doc) : Rule :=
  MkRule (rd_RuleID rule) (rd_Version rule) ref (rd_Severity rule) (rd_Type rule) (rd_Entrypoint rule) (rd_Expr rule) (rd_Sequence rule)
    (rd_Correlate rule) (rd_Suppress rule) (rd_Events rule) (rd_ContextRequired rule ++ rd_ContextOptional rule)
    (rd_IOCRequired rule ++ rd_IOCOptional rule) (rd_ResponseIntent rule) (rd_Terminal rule).

Definition parseRulePack (record : ContentRecord) : result (list Rule) :=
  env ← Parse (rec_RawJSON record);
  sets ← decode_rulesets (env_Spec env);
  mret (mjoin ((λ rs, rule_of (rsd_ID rs) <$> rsd_Rules rs) <$> sets)).

Definition validateRecordPayload (record : ContentRecord) : option string :=
  if bool_decide (rec_Kind record = "rulepack") then
    match parseRulePack record with Err e => Some ("parse rulepack: " +:+ e) | Ok _ => None end
  else if bool_decide (rec_Kind record ∈ ["contextset"; "iocpack"]) then
    match parseValueSet record with Err e => Some ("parse " +:+ rec_Kind record +:+ ": " +:+ e) | Ok _ => None end
  else None.

(** ** The store *)

Record Store := MkStore {
  ct_dir : string;
  ct_trustedKeys : gmap string string;
  ct_records : gmap string ContentRecord;
  ct_defaultRefs : gset string;
  ct_manifestVersion : string;
  ct_files : gmap string string
}.

Global Instance Store_eta : Settable Store := λ x,
  MkStore (ct_dir x) (ct_trustedKeys x) (ct_records x) (ct_defaultRefs x) (ct_manifestVersion x) (ct_files x).

Definition NewStore : Store := MkStore "" ∅ ∅ ∅ "" ∅.

Record Snapshot := MkSnapshot {
  sn_RulePacks : gmap string ContentRecord;
  sn_Rules : list Rule;
  sn_ContextSets : gmap string ValueSet;
  sn_IOCPacks : gmap string ValueSet;
  sn_DefaultManifestVersion : string
}.

Global Instance Snapshot_eta : Settable Snapshot := λ x,
  MkSnapshot (sn_RulePacks x) (sn_Rules x) (sn_ContextSets x) (sn_IOCPacks x) (sn_DefaultManifestVersion x).

Definition add_record (out : Snapshot) (record : ContentRecord) : Snapshot :=
  if bool_decide (rec_Kind record = "rulepack") then
    out <| sn_RulePacks ::= <[rec_Ref record := record]> |>
        <| sn_Rules ::= λ l, match parseRulePack record with Ok rules => l ++ rules | Err _ => l end |>
  else if bool_decide (rec_Kind record = "contextset") then
    match parseValueSet record with Ok set => out <| sn_ContextSets ::= <[rec_Ref record := set]> |> | Err _ => out end
  else if bool_decide (rec_Kind record = "iocpack") then
    match parseValueSet record with Ok set => out <| sn_IOCPacks ::= <[rec_Ref record := set]> |> | Err _ => out end
  else out.

Definition snapshotFromRecords `{RangeOrder} (records : gmap string ContentRecord) : Snapshot :=
  foldl add_record (MkSnapshot ∅ [] ∅ ∅ "") (omap (λ ref, records !! ref) (range_keys records)).

Definition GetSnapshot `{RangeOrder} (s : Store) : Snapshot :=
  (snapshotFromRecords (ct_records s)) <| sn_DefaultManifestVersion := ct_manifestVersion s |>.

Definition SnapshotWith `{RangeOrder} (record : ContentRecord) (s : Store) : Snapshot :=
  let records := if bool_decide (rec_Ref record = "") then ct_records s else <[rec_Ref record := record]> (ct_records s) in
  (snapshotFromRecords records) <| sn_DefaultManifestVersion := ct_manifestVersion s |>.

Definition Get (ref : string) (s : Store) : option ContentRecord := ct_records s !! ref.

Definition record_less (x y : ContentRecord) : bool :=
  if bool_decide (rec_Kind x = rec_Kind y) then string_ltb (rec_Ref x) (rec_Ref y) else string_ltb (rec_Kind x) (rec_Kind y).

Definition List `{RangeOrder} `{SliceSort} (kind : string) (s : Store) : list ContentRecord :=
  sort_slice record_less (filter (λ record, kind = "" ∨ rec_Kind record = kind) (omap (λ ref, ct_records s !! ref) (range_keys (ct_records s)))).

Definition IsDefaultRef (ref : string) (s : Store) : bool := bool_decide (ref ∈ ct_defaultRefs s).

(** ** Patches *)

Fixpoint apply_ops (ops : list (string * string)) (values : gset string) : result (gset string) :=
  match ops with
  | [] => Ok values
  | (op, value) :: ops' =>
    let value := TrimSpace value in
    if bool_decide (value = "") then apply_ops ops' values
    else if bool_decide (op = "add") then apply_ops ops' ({[value]} ∪ values)
    else if bool_decide (op = "remove") then apply_ops ops' (values ∖ {[value]})
    else Err ("unsupported patch op " +:+ Quote op)
  end.

(** [raw, _ := json.Marshal(env)] *)
Definition encode_envelope (env : Envelope) : string := match marshal_envelope env with Ok raw => raw | Err _ => "" end.

Definition resolve_ops (spec : patch_doc) (current : ContentRecord) (env : Envelope) : result (string * Envelope) :=
  if negb (bool_decide (pd_BaseVersion spec = "")) && negb (bool_decide (rec_Version current = pd_BaseVersion spec))
  then Err ("patch base_version mismatch: have " +:+ rec_Version current +:+ " want " +:+ pd_BaseVersion spec)
  else
    set_ ← parseValueSet current;
    values ← apply_ops (pd_Ops spec) (list_to_set (vs_Values set_));
    specData ← marshal_resolved (firstNonEmpty [pd_ValueType spec; vs_ValueType set_]) (sort_strings (elements values));
    let env := env <| env_Spec := specData |> <| env_Integrity := zero_integrity |> in
    raw ← marshal_envelope env;
    mret (raw, env).

Definition resolvePatch (env : Envelope) (s : Store) : result (string * Envelope) :=
  if negb (bool_decide (env_Kind env ∈ ["contextset"; "iocpack"])) then Ok (encode_envelope env, env)
  else
    spec ← decode_patch (env_Spec env);
    if negb (bool_decide (pd_MergeStrategy spec = "patch")) then Ok (encode_envelope env, env)
    else match Get (md_ID (env_Metadata env)) s with
    | None => Err ("patch base content " +:+ md_ID (env_Metadata env) +:+ " not found")
    | Some current => resolve_ops spec current env
    end.

(** ** Applying *)

(** The record of a document *)
Definition record_of (status raw : string) (signed : bool) (env : Envelope) : ContentRecord :=
  MkContentRecord (md_ID (env_Metadata env)) (env_Kind env) (md_Version (env_Metadata env)) (signedDigest env) signed status raw.

Definition Prepare `{RangeOrder} (raw : string) (allowUnsigned : bool) (s : Store) : result (ContentRecord * Snapshot) :=
  env ← Parse raw;
  if IsDefaultRef (md_ID (env_Metadata env)) s then Err ("default content ref " +:+ md_ID (env_Metadata env) +:+ " is read-only")
  else match Validate (ct_trustedKeys s) env allowUnsigned with
  | Some e => Err e
  | None =>
    resolved ← resolvePatch env s;
    let '(raw, env) := (resolved : string * Envelope) in
    let record := record_of "applied" raw (is_signed env) env in
    mret (record, SnapshotWith record s)
  end.

Definition safe_byte (c : Ascii.ascii) : Ascii.ascii :=
  if bool_decide (c ∈ [":"%char; "/"%char; Ascii.ascii_of_nat 92; " "%char]) then "_"%char else c.
Definition safeName (ref : string) : string := String.string_of_list_ascii (safe_byte <$> String.list_ascii_of_string ref).

(** What goes wrong when a file is written: writing the temporary file, or
    renaming it *)
Inductive fault := NoFault | WriteFault (e : string) | RenameFault (e : string).

Definition persisted_data (record : ContentRecord) : result string :=
  if rec_Signed record then Ok (rec_RawJSON record)
  else marshal_persisted (MkPersistedRecord (Some (MkUnsignedAdmission true (rec_Digest record))) (rec_RawJSON record)).

Definition persistLocked (disk : fault) (record : ContentRecord) (s : Store) : option string * Store :=
  if bool_decide (TrimSpace (ct_dir s) = "") then (None, s)
  else
    let name := safeName (rec_Ref record) +:+ ".json" in
    let tmp := name +:+ ".tmp" in
    match persisted_data record with
    | Err e => (Some e, s)
    | Ok data =>
      match disk with
      | WriteFault e => (Some e, s)
      | RenameFault e => (Some e, s <| ct_files ::= <[tmp := data]> |>)
      | NoFault => (None, s <| ct_files ::= λ files, <[name := data]> (delete tmp files) |>)
      end
    end.

Definition Commit (disk : fault) (record : ContentRecord) (s : Store) : option string * Store :=
  let '(failed, s') := persistLocked disk record (s <| ct_records ::= <[rec_Ref record := record]> |>) in
  match failed with
  | Some e => (Some e, s' <| ct_records := ct_records s |>)
  | None => (None, s')
  end.

Definition Apply `{RangeOrder} (raw : string) (allowUnsigned dryRun : bool) (disk : fault) (s : Store) : result ContentRecord * Store :=
  match Prepare raw allowUnsigned s with
  | Err e => (Err e, s)
  | Ok (record, _) =>
    if dryRun then (Ok (record <| rec_Status := "validated" |>), s)
    else let '(failed, s) := Commit disk record s in
      match failed with Some e => (Err e, s) | None => (Ok record, s) end
  end.

(** ** Loading *)

(** The document, and whether it was admitted unsigned *)
Definition decodePersistedContent (data : string) : result (string * bool) :=
  persisted ← decode_persisted data;
  match pe_Admission persisted with
  | Some admission => if bool_decide (pe_Content persisted = "") then Ok (data, false) else Ok (pe_Content persisted, ua_AllowUnsigned admission)
  | None => Ok (data, false)
  end.

Definition persistedDigest (data : string) : string :=
  match decode_persisted data with Ok persisted => from_option ua_Digest "" (pe_Admission persisted) | Err _ => "" end.

(** [fmt.Errorf("load content %s: %w", name, err)] *)
Definition loading {A} (name : string) (r : result A) : result A := match r with Ok x => Ok x | Err e => Err ("load content " +:+ name +:+ ": " +:+ e) end.

Definition fail_if (e : option string) : result unit := match e with Some e => Err e | None => Ok tt end.

Definition load_file (keys : gmap string string) (name data : string) (records : gmap string ContentRecord) : result (gmap string ContentRecord) :=
  persisted ← loading name (decodePersistedContent data);
  let '(raw, allowUnsigned) := (persisted : string * bool) in
  env ← loading name (Parse raw);
  let named := name +:+ " (" +:+ md_ID (env_Metadata env) +:+ ")" in
  _ ← loading named (fail_if (if allowUnsigned && negb (EqualFold (persistedDigest data) (signedDigest env)) then Some "unsigned admission digest mismatch" else None));
  _ ← loading named (fail_if (Validate keys env allowUnsigned));
  _ ← loading name (fail_if (match records !! md_ID (env_Metadata env) with Some _ => Some ("duplicate content ref " +:+ md_ID (env_Metadata env)) | None => None end));
  let record := record_of "loaded" raw (is_signed env) env in
  _ ← loading named (fail_if (validateRecordPayload record));
  mret (<[md_ID (env_Metadata env) := record]> records).

Fixpoint load_files (keys : gmap string string) (entries : list (string * string)) (records : gmap string ContentRecord) : result (gmap string ContentRecord) :=
  match entries with
  | [] => Ok records
  | (name, data) :: entries' =>
    if HasSuffix name ".json" then records ← load_file keys name data records; load_files keys entries' records
    else load_files keys entries' records
  end.

(** [os.ReadDir]: the files in the order of their names *)
Definition entries_of (files : gmap string string) : list (string * string) :=
  omap (λ name, (λ data, (name, data)) <$> files !! name) (sort_strings (elements (dom files))).

Definition Load (s : Store) : result Store :=
  if bool_decide (TrimSpace (ct_dir s) = "") then Ok s
  else
    records ← load_files (ct_trustedKeys s) (entries_of (ct_files s)) ∅;
    mret (s <| ct_records := records |>).

Definition NewStoreWithOptions (dir : string) (keys files : gmap string string) : result Store :=
  let s := MkStore (TrimSpace dir) keys ∅ ∅ "" files in
  if bool_decide (ct_dir s = "") then Ok s else Load s.

(** ** The default layer ([layers.go], [manifest.go]) *)

(** [files] is the directory of the default layer. *)
Definition loadManifestEntry (keys files : gmap string string) (entry : ManifestEntry) : result ContentRecord :=
  match files !! Base (me_File entry) with
  | None => Err ("load default content " +:+ me_Ref entry +:+ ": no such file or directory")
  | Some data =>
    match Parse data with
    | Err e => Err ("parse default content " +:+ me_Ref entry +:+ ": " +:+ e)
    | Ok env =>
      match Validate keys env false with
      | Some e => Err ("validate default content " +:+ me_Ref entry +:+ ": " +:+ e)
      | None =>
        let record := record_of "loaded" data true env in
        if negb (bool_decide (rec_Ref record = me_Ref entry)) || negb (bool_decide (rec_Kind record = me_Kind entry)) ||
           negb (bool_decide (rec_Version record = me_Version entry)) || negb (EqualFold (rec_Digest record) (me_Digest entry))
        then Err ("default content manifest metadata mismatch for " +:+ me_Ref entry)
        else match validateRecordPayload record with
        | Some e => Err ("parse default content " +:+ me_Ref entry +:+ ": " +:+ e)
        | None => Ok record
        end
      end
    end
  end.

Definition bad_file (entry : ManifestEntry) : bool := bool_decide (me_File entry = "") || negb (bool_decide (Base (me_File entry) = me_File entry)).

Definition validateManifestFiles (files : gmap string string) (manifest : Manifest) : option string :=
  match find_first bad_file (mf_Entries manifest) with
  | Some entry => Some ("invalid default content file for " +:+ me_Ref entry)
  | None =>
    let listed := "content-manifest.json" :: (me_File <$> mf_Entries manifest) in
    match find_first (λ e : string * string, HasSuffix e.1 ".json" && negb (bool_decide (e.1 ∈ listed))) (entries_of files) with
    | Some (name, _) => Some ("unlisted default content file " +:+ name)
    | None => None
    end
  end.

Fixpoint load_entries (keys files : gmap string string) (entries : list ManifestEntry) (records : gmap string ContentRecord) : result (gmap string ContentRecord) :=
  match entries with
  | [] => Ok records
  | entry :: entries' =>
    record ← loadManifestEntry keys files entry;
    match records !! rec_Ref record with
    | Some _ => Err ("duplicate default content ref " +:+ rec_Ref record)
    | None => load_entries keys files entries' (<[rec_Ref record := record]> records)
    end
  end.

Definition loadDefaultLayer (dir : string) (keys files : gmap string string) : result (gmap string ContentRecord * Manifest) :=
  if bool_decide (dir = "") then Err "default content directory is required"
  else match files !! "content-manifest.json" with
  | None => Err "read default content manifest: no such file or directory"
  | Some data =>
    match decode_manifest data with
    | Err e => Err ("decode default content manifest: " +:+ e)
    | Ok manifest =>
      _ ← fail_if (validateManifestFiles files manifest);
      records ← load_entries keys files (mf_Entries manifest) ∅;
      mret (records, manifest)
    end
  end.

Definition OpenLayered `{RangeOrder} (defaultDir dir : string) (keys defaultFiles files : gmap string string) : result Store :=
  layer ← loadDefaultLayer (TrimSpace defaultDir) keys defaultFiles;
  let '(defaults, manifest) := (layer : gmap string ContentRecord * Manifest) in
  match NewStoreWithOptions dir keys files with
  | Err e => Err ("load user content: " +:+ e)
  | Ok users =>
    match find_first (λ ref, bool_decide (ref ∈ dom (ct_records users))) (range_keys defaults) with
    | Some ref => Err ("content ref conflict between default and user layers: " +:+ ref)
    | None => Ok (users <| ct_records ::= λ records, defaults ∪ records |> <| ct_defaultRefs ::= λ refs, dom defaults ∪ refs |>
                         <| ct_manifestVersion := mf_Version manifest |>)
    end
  end.
End content.
End ContentStore.
