(* ===== verification/ContentTheorems.v ===== *)
(** * The content store: what is admitted, and what survives a restart

    With unsigned documents refused, a record that is not the one the agent
    was started with carries a valid signature, or is the result of a patch
    that carries one; the default layer never changes.  A store that is
    opened again has the records it had. *)

From S2P Require Import Prelude GoStrings GoBytes GoData GoSha GoText EventModel Policy Response PolicyModel Collection StoreData ContentStore.

Module ContentTheorems.
Import Collection StoreData ContentStore.

Local Arguments signedDigest : simpl never.

Section theorems.
Context `{ContentText} `{Signatures} `{RangeOrder}.

Lemma bind_Ok {A B} (r : result A) (k : A → result B) y : r ≫= k = Ok y ↔ ∃ x, r = Ok x ∧ k x = Ok y.
Proof. destruct r as [x|e]; cbn; [|naive_solver]. split; [eauto|by intros (? & [= <-] & ?)]. Qed.

Lemma loading_Ok {A} name (r : result A) x : loading name r = Ok x ↔ r = Ok x.
Proof. by destruct r. Qed.
Lemma fail_if_Ok e u : fail_if e = Ok u ↔ e = None.
Proof. destruct e, u; cbn; naive_solver. Qed.

(** ** Signatures *)

(** A trusted key has signed the document. *)
Definition authentic (keys : gmap string string) (env : Envelope) : Prop :=
  ∃ key sig, keys !! TrimSpace (in_KeyID (env_Integrity env)) = Some key ∧ String.length key = public_key_size ∧
    decode_base64 (in_Signature (env_Integrity env)) = Ok sig ∧ verify_ed25519 key (signedBytes env) sig = true.

Lemma verified_authentic keys env : verifySignature keys env = None → authentic keys env.
Proof.
  unfold verifySignature, authentic. intros Hv. repeat case_bool_decide; cbn in Hv; try done.
  destruct (Nat.eqb_spec (String.length (default "" (keys !! TrimSpace (in_KeyID (env_Integrity env))))) public_key_size) as [Hl|]; [|done].
  destruct (keys !! _) as [key|]; [|done]. destruct (decode_base64 _) as [sig|]; [|done].
  destruct (verify_ed25519 _ _ _) eqn:E; [|done]. eauto 10.
Qed.

Lemma validated keys env allow : Validate keys env allow = None →
  env_APIVersion env = "sysarmor.content/v1" ∧ env_Kind env ∈ ["rulepack"; "contextset"; "iocpack"; "content-bundle"] ∧
  md_ID (env_Metadata env) ≠ "" ∧ md_Version (env_Metadata env) ≠ "" ∧ env_Spec env ≠ "" ∧ env_Spec env ≠ "null" ∧
  check_digest env = None ∧ if is_signed env then verifySignature keys env = None else allow = true.
Proof.
  unfold Validate. intros Hv. do 4 (case_bool_decide; cbn in Hv; [done || idtac|done || idtac]).
  all: do 2 (case_bool_decide; cbn in Hv; [done|]). all: destruct (check_digest env) eqn:Hd; [done|].
  all: split_and!; try done. all: destruct (is_signed env), allow; done.
Qed.

Lemma validate_ok keys env allow :
  env_APIVersion env = "sysarmor.content/v1" → env_Kind env ∈ ["rulepack"; "contextset"; "iocpack"; "content-bundle"] →
  md_ID (env_Metadata env) ≠ "" → md_Version (env_Metadata env) ≠ "" → env_Spec env ≠ "" → env_Spec env ≠ "null" →
  check_digest env = None → (if is_signed env then verifySignature keys env = None else allow = true) → Validate keys env allow = None.
Proof.
  intros Hv Hk Hi Hw Hs Hn Hd Hg. unfold Validate.
  rewrite (bool_decide_eq_true_2 _ Hv), (bool_decide_eq_true_2 _ Hk), (bool_decide_eq_false_2 _ Hi), (bool_decide_eq_false_2 _ Hw),
    (bool_decide_eq_false_2 _ Hs), (bool_decide_eq_false_2 _ Hn), Hd. cbn. destruct (is_signed env); cbn; [done|]. by rewrite Hg.
Qed.

Lemma signed_authentic keys env : Validate keys env false = None → authentic keys env ∧ is_signed env = true.
Proof. intros (_ & _ & _ & _ & _ & _ & _ & Hv)%validated. destruct (is_signed env); [|done]. by split; [apply verified_authentic|]. Qed.

(** ** What is admitted *)

Lemma resolved env s raw env' : resolvePatch env s = Ok (raw, env') →
  (raw = encode_envelope env ∧ env' = env) ∨
  ∃ spec base, decode_patch (env_Spec env) = Ok spec ∧ pd_MergeStrategy spec = "patch" ∧
    ct_records s !! md_ID (env_Metadata env) = Some base ∧ resolve_ops spec base env = Ok (raw, env').
Proof.
  unfold resolvePatch. case_bool_decide; cbn [negb]; [|intros [= <- <-]; by left].
  intros (spec & Hs & Hr)%bind_Ok. case_bool_decide as Hm; cbn [negb] in Hr; [|injection Hr as <- <-; by left].
  unfold Get in Hr. destruct (ct_records s !! _) as [base|] eqn:Hb; [|done]. right. eauto 10.
Qed.

Lemma resolved_ops spec base env raw env' : resolve_ops spec base env = Ok (raw, env') →
  ∃ t values text, marshal_resolved t values = Ok text ∧ env' = env <| env_Spec := text |> <| env_Integrity := zero_integrity |> ∧
    marshal_envelope env' = Ok raw.
Proof.
  unfold resolve_ops. destruct (_ && _); [done|].
  intros (vs & _ & (set_ & _ & (text & Hm & (raw' & He & [= <- <-])%bind_Ok)%bind_Ok)%bind_Ok)%bind_Ok. eauto 10.
Qed.

Lemma prepared raw allow s record snap : Prepare raw allow s = Ok (record, snap) →
  ∃ env raw' env', Parse raw = Ok env ∧ md_ID (env_Metadata env) ∉ ct_defaultRefs s ∧ Validate (ct_trustedKeys s) env allow = None ∧
    resolvePatch env s = Ok (raw', env') ∧ record = record_of "applied" raw' (is_signed env') env' ∧ rec_Ref record = md_ID (env_Metadata env).
Proof.
  unfold Prepare, IsDefaultRef. intros (env & Hp & Hk)%bind_Ok. case_bool_decide as Hd; [done|].
  destruct (Validate _ _ _) eqn:Hv; [done|]. apply bind_Ok in Hk as ([raw' env'] & Hr & [= <- <-]).
  exists env, raw', env'. split_and!; try done.
  destruct (resolved _ _ _ _ Hr) as [(_ & ->)|(spec & base & _ & _ & _ & (? & ? & ? & _ & -> & _)%resolved_ops)]; done.
Qed.

(** What an application does to the records and the files *)
Lemma commit_cases disk record s :
  let s' := (Commit disk record s).2 in
  ct_dir s' = ct_dir s ∧ ct_trustedKeys s' = ct_trustedKeys s ∧ ct_defaultRefs s' = ct_defaultRefs s ∧ ct_manifestVersion s' = ct_manifestVersion s ∧
  (ct_records s' = ct_records s ∨ ct_records s' = <[rec_Ref record := record]> (ct_records s)).
Proof.
  unfold Commit, persistLocked. case_bool_decide; [by split_and!; auto|].
  destruct (persisted_data record); [|by split_and!; auto]. destruct disk; by split_and!; auto.
Qed.

Lemma applied_cases raw allow dry disk s :
  let s' := (Apply raw allow dry disk s).2 in
  ct_dir s' = ct_dir s ∧ ct_trustedKeys s' = ct_trustedKeys s ∧ ct_defaultRefs s' = ct_defaultRefs s ∧ ct_manifestVersion s' = ct_manifestVersion s ∧
  (ct_records s' = ct_records s ∨ ∃ record snap, Prepare raw allow s = Ok (record, snap) ∧ ct_records s' = <[rec_Ref record := record]> (ct_records s)).
Proof.
  unfold Apply. destruct (Prepare raw allow s) as [[record snap]|e] eqn:Hp; [|by split_and!; auto].
  destruct dry; [by split_and!; auto|]. pose proof (commit_cases disk record s) as Hc.
  destruct (Commit disk record s) as [[e|] s']; cbn in *; destruct Hc as (? & ? & ? & ? & [?|?]); split_and!; eauto 10.
Qed.

(** Documents applied one after the other: the text, whether it is only
    checked, and what the disk does *)
Definition applications (allow : bool) (steps : list (string * bool * fault)) (s : Store) : Store :=
  foldl (λ s '(raw, dry, disk), (Apply raw allow dry disk s).2) s steps.

Lemma applications_snoc allow steps raw dry disk s :
  applications allow (steps ++ [(raw, dry, disk)]) s = (Apply raw allow dry disk (applications allow steps s)).2.
Proof. unfold applications. by rewrite foldl_app. Qed.

Lemma applications_keep allow steps s :
  let s' := applications allow steps s in
  ct_dir s' = ct_dir s ∧ ct_trustedKeys s' = ct_trustedKeys s ∧ ct_defaultRefs s' = ct_defaultRefs s ∧ ct_manifestVersion s' = ct_manifestVersion s.
Proof.
  induction steps as [|[[raw dry] disk] steps IH] using rev_ind; [done|]. rewrite applications_snoc. cbn in *.
  destruct (applied_cases raw allow dry disk (applications allow steps s)) as (-> & -> & -> & -> & _). exact IH.
Qed.

(** The default layer is read-only. *)
Lemma applications_default allow steps s ref :
  ref ∈ ct_defaultRefs s → ct_records (applications allow steps s) !! ref = ct_records s !! ref.
Proof.
  intros Hd. induction steps as [|[[raw dry] disk] steps IH] using rev_ind; [done|]. rewrite applications_snoc, <-IH.
  destruct (applied_cases raw allow dry disk (applications allow steps s)) as (_ & _ & _ & _ & [->|(record & snap & Hp & ->)]); [done|].
  destruct (prepared _ _ _ _ _ Hp) as (env & _ & _ & _ & Hn & _ & _ & _ & He). apply lookup_insert_ne. rewrite He. intros <-. apply Hn.
  by rewrite (proj1 (proj2 (proj2 (applications_keep allow steps s)))).
Qed.

(** Where a record may come from: a document of the default layer or of the
    directory that a trusted key has signed, a document of the directory that
    was admitted unsigned before, with the digest it had then, a document
    that was applied and that a trusted key has signed, or a record of the
    store changed by a patch that a trusted key has signed *)
Inductive genuine (keys defaults files : gmap string string) (raws : list string) : ContentRecord → Prop :=
| genuine_default name data env :
    defaults !! name = Some data → Parse data = Ok env → authentic keys env →
    genuine keys defaults files raws (record_of "loaded" data true env)
| genuine_file name data raw allow env :
    files !! name = Some data → decodePersistedContent data = Ok (raw, allow) → Parse raw = Ok env → authentic keys env →
    genuine keys defaults files raws (record_of "loaded" raw true env)
| genuine_admitted name data raw env :
    files !! name = Some data → decodePersistedContent data = Ok (raw, true) → Parse raw = Ok env →
    EqualFold (persistedDigest data) (signedDigest env) = true →
    genuine keys defaults files raws (record_of "loaded" raw false env)
| genuine_applied raw env :
    raw ∈ raws → Parse raw = Ok env → authentic keys env →
    genuine keys defaults files raws (record_of "applied" (encode_envelope env) true env)
| genuine_patched raw env spec base raw' env' :
    raw ∈ raws → Parse raw = Ok env → authentic keys env → decode_patch (env_Spec env) = Ok spec → pd_MergeStrategy spec = "patch" →
    genuine keys defaults files raws base → rec_Ref base = md_ID (env_Metadata env) → resolve_ops spec base env = Ok (raw', env') →
    genuine keys defaults files raws (record_of "applied" raw' false env').

(** Each record is filed under its reference, and is genuine. *)
Definition provenance (keys defaults files : gmap string string) (raws : list string) (records : gmap string ContentRecord) : Prop :=
  map_Forall (λ ref record, rec_Ref record = ref ∧ genuine keys defaults files raws record) records.

Lemma genuine_mono keys defaults files raws raws' record :
  (∀ raw, raw ∈ raws → raw ∈ raws') → genuine keys defaults files raws record → genuine keys defaults files raws' record.
Proof. intros Hsub Hg. induction Hg; [eapply genuine_default|eapply genuine_file|eapply genuine_admitted|eapply genuine_applied|eapply genuine_patched]; eauto. Qed.

Section provenance.
Context (keys defaults files : gmap string string) (raws : list string).

Lemma provenance_insert records record :
  provenance keys defaults files raws records → genuine keys defaults files raws record →
  provenance keys defaults files raws (<[rec_Ref record := record]> records).
Proof. intros Hp Hg. by apply map_Forall_insert_2. Qed.

Lemma load_file_genuine name data records records' :
  files !! name = Some data → provenance keys defaults files raws records → load_file keys name data records = Ok records' →
  provenance keys defaults files raws records'.
Proof.
  intros Hf Hp. unfold load_file. intros ([raw allow] & Hd%loading_Ok & Hr)%bind_Ok.
  apply bind_Ok in Hr as (env & He%loading_Ok & ([] & Hc%loading_Ok%fail_if_Ok & ([] & Hv%loading_Ok%fail_if_Ok & (_ & _ & (_ & _ & [= <-])%bind_Ok)%bind_Ok)%bind_Ok)%bind_Ok).
  apply (provenance_insert records (record_of "loaded" raw (is_signed env) env)); [done|].
  apply validated in Hv as (_ & _ & _ & _ & _ & _ & _ & Hv). destruct (is_signed env).
  - by eapply genuine_file, verified_authentic.
  - subst allow. eapply genuine_admitted; eauto. cbn in Hc. by destruct (EqualFold _ _).
Qed.

Lemma load_files_genuine entries records records' :
  (∀ name data, (name, data) ∈ entries → files !! name = Some data) → provenance keys defaults files raws records →
  load_files keys entries records = Ok records' → provenance keys defaults files raws records'.
Proof.
  revert records. induction entries as [|[name data] entries IH]; intros records Hin Hp; cbn; [by intros [= <-]|].
  assert (∀ name data, (name, data) ∈ entries → files !! name = Some data) as Hin' by (intros; apply Hin, elem_of_cons; by right).
  destruct (HasSuffix _ _); [|by apply IH]. intros (records1 & Hl & Hr)%bind_Ok.
  eapply (IH records1); [done| |done]. eapply load_file_genuine; [|done|done]. apply Hin, elem_of_cons. by left.
Qed.

Lemma load_entries_genuine entries records records' :
  provenance keys defaults files raws records → load_entries keys defaults entries records = Ok records' →
  provenance keys defaults files raws records'.
Proof.
  revert records. induction entries as [|entry entries IH]; intros records Hp; cbn; [by intros [= <-]|].
  intros (record & Hm & Hr)%bind_Ok. destruct (records !! rec_Ref record); [done|]. eapply IH; [|done]. apply provenance_insert; [done|].
  unfold loadManifestEntry in Hm. destruct (defaults !! _) as [data|] eqn:Hd; [|done]. destruct (Parse data) as [env|] eqn:He; [|done].
  destruct (Validate keys env false) eqn:Hv; [done|]. apply signed_authentic in Hv as [Ha _]. destruct (_ || _); [done|].
  destruct (validateRecordPayload _); [done|]. injection Hm as <-. by eapply genuine_default.
Qed.
End provenance.

Lemma entries_lookup files name data : (name, data) ∈ entries_of files ↔ files !! name = Some data.
Proof.
  unfold entries_of. rewrite list_elem_of_omap. split.
  - intros (n & _ & Hn). destruct (files !! n) eqn:E; [|done]. by injection Hn as -> ->.
  - intros Hf. exists name. rewrite sort_strings_perm, elem_of_elements, elem_of_dom, Hf. by split.
Qed.

(** What an opened store is made of *)
Lemma opened defaultDir dir keys defaults files s : OpenLayered defaultDir dir keys defaults files = Ok s →
  ∃ layer manifest users,
    loadDefaultLayer (TrimSpace defaultDir) keys defaults = Ok (layer, manifest) ∧ NewStoreWithOptions dir keys files = Ok users ∧
    (∀ ref, ref ∈ dom layer → ref ∉ dom (ct_records users)) ∧
    s = MkStore (TrimSpace dir) keys (layer ∪ ct_records users) (dom layer) (mf_Version manifest) files.
Proof.
  unfold OpenLayered. intros ([layer manifest] & Hl & Ho)%bind_Ok.
  destruct (NewStoreWithOptions dir keys files) as [users|] eqn:Hu; [|done]. destruct (find_first _ _) eqn:Hf; [done|].
  injection Ho as <-. exists layer, manifest, users. split_and!; [done|done| |].
  - intros ref Hr Hi. rewrite find_first_none in Hf. specialize (Hf ref). rewrite (bool_decide_eq_true_2 _ Hi) in Hf.
    discriminate Hf. unfold range_keys. by rewrite range_order_perm, elem_of_elements.
  - unfold NewStoreWithOptions in Hu. cbn in Hu. case_bool_decide as Hd; [injection Hu as <-; cbn; unfold assign; cbn; by rewrite ?(right_id_L (∅ : gset string) (∪))|].
    unfold Load in Hu. case_bool_decide; [injection Hu as <-; cbn; unfold assign; cbn; by rewrite ?(right_id_L (∅ : gset string) (∪))|].
    apply bind_Ok in Hu as (records & _ & [= <-]). cbn. unfold assign; cbn; by rewrite ?(right_id_L (∅ : gset string) (∪)).
Qed.

Lemma users_loaded dir keys files users : NewStoreWithOptions dir keys files = Ok users →
  ct_records users = ∅ ∨ load_files keys (entries_of files) ∅ = Ok (ct_records users).
Proof.
  unfold NewStoreWithOptions, Load. cbn. case_bool_decide; [intros [= <-]; by left|]. case_bool_decide; [intros [= <-]; by left|].
  intros (records & Hl & [= <-])%bind_Ok. by right.
Qed.

Lemma opened_genuine defaultDir dir keys defaults files s raws : OpenLayered defaultDir dir keys defaults files = Ok s →
  provenance keys defaults files raws (ct_records s).
Proof.
  intros (layer & manifest & users & Hl & Hu & _ & ->)%opened. cbn. apply map_Forall_union_2.
  - unfold loadDefaultLayer in Hl. case_bool_decide; [done|]. destruct (defaults !! _); [|done]. destruct (decode_manifest _) as [m|]; [|done].
    apply bind_Ok in Hl as (_ & _ & (records & Hl & [= <- <-])%bind_Ok). eapply load_entries_genuine; [|done]. apply map_Forall_empty.
  - apply users_loaded in Hu as [->|Hu]; [apply map_Forall_empty|].
    eapply load_files_genuine; [|apply map_Forall_empty|done]. intros name data. by rewrite entries_lookup.
Qed.

(** C18. With unsigned documents refused, the content in force is accounted
    for: after any documents applied to an opened store, whatever the disk
    does, the records of the default layer are the ones the agent was
    started with, and each record is filed under its reference and is
    [genuine]: it was on the disk with a valid signature or with the mark of
    an earlier unsigned admission of the same digest, or it is a document
    that a trusted key has signed, or a genuine record changed by a patch
    that a trusted key has signed. *)
Theorem content_admission defaultDir dir keys defaults files s steps :
  OpenLayered defaultDir dir keys defaults files = Ok s →
  let s' := applications false steps s in
  (∀ ref, ref ∈ ct_defaultRefs s → ct_records s' !! ref = ct_records s !! ref) ∧
  provenance keys defaults files (steps.*1.*1) (ct_records s').
Proof.
  intros Ho s'. split; [intros ref; apply applications_default|]. subst s'.
  induction steps as [|[[raw dry] disk] steps IH] using rev_ind; [by eapply opened_genuine|].
  rewrite applications_snoc, !fmap_app. set (s1 := applications false steps s) in *.
  assert (provenance keys defaults files (steps.*1.*1 ++ [raw]) (ct_records s1)) as IH'.
  { eapply map_Forall_impl; [exact IH|]. intros ref record [<- Hg]. split; [done|]. eapply genuine_mono; [|done]. set_solver. }
  destruct (applied_cases raw false dry disk s1) as (_ & _ & _ & _ & [->|(record & snap & Hp & ->)]); [done|]. apply provenance_insert; [done|].
  assert (ct_trustedKeys s1 = keys) as Hk.
  { unfold s1. rewrite (proj1 (proj2 (applications_keep false steps s))). by apply opened in Ho as (? & ? & ? & _ & _ & _ & ->). }
  destruct (prepared _ _ _ _ _ Hp) as (env & raw' & env' & He & _ & Hv & Hr & -> & _). rewrite Hk in Hv. apply signed_authentic in Hv as [Ha Hs].
  assert (raw ∈ steps.*1.*1 ++ [raw]) as Hin by set_solver.
  destruct (resolved _ _ _ _ Hr) as [(-> & ->)|(spec & base & Hd & Hm & Hb & Ho')]; [rewrite Hs; by eapply genuine_applied|].
  destruct (IH' _ _ Hb) as [Href Hg]. pose proof (resolved_ops _ _ _ _ _ Ho') as (t & vs & text & _ & Henv & _).
  replace (is_signed env') with false by (by rewrite Henv). by eapply genuine_patched.
Qed.
End theorems.

(** ** Restart *)

(** The documents the store writes: those it has parsed, and those whose
    specification it has replaced *)
Inductive document `{ContentText} : Envelope → Prop :=
| document_parsed raw env : Parse raw = Ok env → document env
| document_resolved env t values text :
    document env → marshal_resolved t values = Ok text → document (env <| env_Spec := text |> <| env_Integrity := zero_integrity |>).

(** What the store relies on of JSON: a document that is written is read as
    it was, except for the spacing of its specification, which the payload
    that is signed does not show; it has no field [admission]; a wrapped
    document is read as it was. *)
Class ContentLaws `{ContentText} : Prop := {
  json_envelope env : document env → ∃ raw spec none,
    marshal_envelope env = Ok raw ∧ raw ≠ "" ∧ decode_envelope raw = Ok (env <| env_Spec := spec |>) ∧
    marshal_payload (env <| env_Spec := spec |>) = marshal_payload env ∧
    (env_Spec env ≠ "" → env_Spec env ≠ "null" → spec ≠ "" ∧ spec ≠ "null") ∧
    decode_persisted raw = Ok (MkPersistedRecord None none);
  json_persisted env raw : document env → marshal_envelope env = Ok raw →
    let p := MkPersistedRecord (Some (MkUnsignedAdmission true (signedDigest env))) raw in
    ∃ data, marshal_persisted p = Ok data ∧ decode_persisted data = Ok p;
  json_resolved t values text : marshal_resolved t values = Ok text → text ≠ "" ∧ text ≠ "null"
}.

Section restart.
Context `{ContentText} `{Signatures} `{RangeOrder} `{!ContentLaws}.

(** The name of a record's file *)
Definition file_of (ref : string) : string := safeName ref +:+ ".json".

Definition loaded (record : ContentRecord) : ContentRecord := record <| rec_Status := "loaded" |>.

(** The record is one of a document that would pass the checks again. *)
Definition admissible (keys : gmap string string) (record : ContentRecord) : Prop :=
  ∃ env, document env ∧ marshal_envelope env = Ok (rec_RawJSON record) ∧ Validate keys env (negb (is_signed env)) = None ∧
    record = record_of "applied" (rec_RawJSON record) (is_signed env) env.

Lemma document_trimmed env : document env →
  TrimSpace (env_Kind env) = env_Kind env ∧ TrimSpace (md_ID (env_Metadata env)) = md_ID (env_Metadata env) ∧
  TrimSpace (md_Version (env_Metadata env)) = md_Version (env_Metadata env).
Proof.
  induction 1 as [raw env Hp|]; [|done]. unfold Parse in Hp. destruct (decode_envelope raw) as [e|]; [|done]. injection Hp as <-. cbn.
  by rewrite !TrimSpace_idem.
Qed.

(** What a written document is when it is read *)
Lemma reparsed env raw : document env → marshal_envelope env = Ok raw →
  ∃ spec, Parse raw = Ok (env <| env_Spec := spec |>) ∧ marshal_payload (env <| env_Spec := spec |>) = marshal_payload env ∧
    (env_Spec env ≠ "" → env_Spec env ≠ "null" → spec ≠ "" ∧ spec ≠ "null").
Proof.
  intros Hd Hm. destruct (json_envelope env Hd) as (raw' & spec & none & Hm' & _ & Hp & Hpay & Hs & _). assert (raw' = raw) as -> by congruence.
  exists spec. split_and!; [|done|done]. unfold Parse. rewrite Hp. destruct (document_trimmed env Hd) as (Hk & Hi & Hv).
  destruct env as [a k [i v t c l] s g]. cbn in *. unfold assign. cbn. by rewrite Hk, Hi, Hv.
Qed.

Lemma validate_respaced keys env spec allow :
  marshal_payload (env <| env_Spec := spec |>) = marshal_payload env → (env_Spec env ≠ "" → env_Spec env ≠ "null" → spec ≠ "" ∧ spec ≠ "null") →
  Validate keys env allow = None → Validate keys (env <| env_Spec := spec |>) allow = None.
Proof.
  intros Hpay Hs (Hv & Hk & Hi & Hw & He & Hn & Hd & Hg)%validated. destruct (Hs He Hn) as [He' Hn'].
  apply validate_ok; try done.
  - unfold check_digest, signedDigest, signedBytes in *. cbn. by rewrite Hpay.
  - replace (is_signed (env <| env_Spec := spec |>)) with (is_signed env) by done. destruct (is_signed env); [|done].
    unfold verifySignature, signedBytes in *. cbn. by rewrite Hpay.
Qed.

Lemma EqualFold_refl a : EqualFold a a = true.
Proof. unfold EqualFold. by apply bool_decide_eq_true_2. Qed.

Lemma unwrapped env record data :
  document env → marshal_envelope env = Ok (rec_RawJSON record) → rec_Signed record = is_signed env → rec_Digest record = signedDigest env →
  persisted_data record = Ok data →
  decodePersistedContent data = Ok (rec_RawJSON record, negb (is_signed env)) ∧ (is_signed env = false → persistedDigest data = signedDigest env).
Proof.
  intros Hd Hm Hs Hg. unfold persisted_data. rewrite Hs. destruct (json_envelope env Hd) as (raw & spec & none & Hm' & Hne & _ & _ & _ & Hp).
  assert (raw = rec_RawJSON record) as -> by congruence. destruct (is_signed env).
  - intros [= <-]. unfold decodePersistedContent. rewrite Hp. done.
  - destruct (json_persisted env _ Hd Hm) as (data' & Hw & Hr). rewrite Hg, Hw. intros [= <-].
    unfold decodePersistedContent, persistedDigest. rewrite Hr. cbn. by rewrite (bool_decide_eq_false_2 _ Hne).
Qed.

(** A file is read as the record it was written from. *)
Lemma reload keys name record data records :
  admissible keys record → persisted_data record = Ok data → validateRecordPayload record = None → records !! rec_Ref record = None →
  load_file keys name data records = Ok (<[rec_Ref record := loaded record]> records).
Proof.
  intros (env & Hd & Hm & Hv & Hr) Hp Hpay Hnew.
  destruct (unwrapped env record data) as [Hu Hg]; [done|done|by rewrite Hr|by rewrite Hr|done|].
  destruct (reparsed env _ Hd Hm) as (spec & Hparse & Hbytes & Hspec). pose proof (validate_respaced _ _ _ _ Hbytes Hspec Hv) as Hv'.
  unfold load_file. rewrite Hu. cbn [loading mbind result_bind]. rewrite Hparse. cbn [loading mbind result_bind].
  assert (signedDigest (env <| env_Spec := spec |>) = signedDigest env) as Hsd by (unfold signedDigest, signedBytes; by rewrite Hbytes).
  rewrite Hsd, Hv'.
  assert (negb (is_signed env) && negb (EqualFold (persistedDigest data) (signedDigest env)) = false) as ->.
  { destruct (is_signed env); [done|]. by rewrite Hg, EqualFold_refl. }
  assert (record_of "loaded" (rec_RawJSON record) (is_signed (env <| env_Spec := spec |>)) (env <| env_Spec := spec |>) = loaded record) as ->.
  { rewrite Hr. unfold record_of, loaded. rewrite Hsd. reflexivity. }
  assert (validateRecordPayload (loaded record) = None) as -> by exact Hpay.
  assert (md_ID (env_Metadata (env <| env_Spec := spec |>)) = rec_Ref record) as -> by (by rewrite Hr). by rewrite Hnew.
Qed.

Lemma resolved_validate keys env t values text allow :
  Validate keys env allow = None → marshal_resolved t values = Ok text →
  Validate keys (env <| env_Spec := text |> <| env_Integrity := zero_integrity |>) true = None.
Proof. intros (Hv & Hk & Hi & Hw & _)%validated [He Hn]%json_resolved. by apply validate_ok. Qed.

Lemma prepared_admissible raw allow s record snap : Prepare raw allow s = Ok (record, snap) → admissible (ct_trustedKeys s) record.
Proof.
  intros (env & raw' & env' & Hp & _ & Hv & Hr & -> & _)%prepared. exists env'. cbn [rec_RawJSON record_of].
  assert (document env) as Hd by (by eapply document_parsed).
  destruct (resolved _ _ _ _ Hr) as [(-> & ->)|(spec & base & _ & _ & _ & (t & vs & text & Hm & -> & He)%resolved_ops)].
  - destruct (json_envelope env Hd) as (raw' & ? & ? & Hm & _). unfold encode_envelope. rewrite Hm. split_and!; [done|done| |done].
    apply validated in Hv as (? & ? & ? & ? & ? & ? & ? & Hg). apply validate_ok; try done. by destruct (is_signed env).
  - split_and!; [by eapply document_resolved|done| |done]. by eapply resolved_validate.
Qed.

Lemma json_suffix ref : HasSuffix (file_of ref) ".json" = true.
Proof. apply HasSuffix_spec. by eexists. Qed.

Lemma ascii_app a b : String.list_ascii_of_string (a +:+ b) = String.list_ascii_of_string a ++ String.list_ascii_of_string b.
Proof. induction a as [|c a IH]; [done|]. rewrite string_app_cons. cbn. by rewrite IH. Qed.

Lemma tmp_suffix name : HasSuffix (name +:+ ".tmp") ".json" = false.
Proof.
  destruct (HasSuffix _ _) eqn:E; [|done]. apply HasSuffix_spec in E as [r E]. apply (f_equal (λ s, list.last (String.list_ascii_of_string s))) in E.
  cbn in E. by rewrite !ascii_app, !last_app in E.
Qed.

(** Each file holds the document of a record, and each record that is not of
    the default layer has its file. *)
Record on_disk (s : Store) : Prop := {
  od_file name data : ct_files s !! name = Some data → HasSuffix name ".json" = true →
    ∃ record, ct_records s !! rec_Ref record = Some record ∧ rec_Ref record ∉ ct_defaultRefs s ∧ name = file_of (rec_Ref record) ∧
      persisted_data record = Ok data;
  od_record ref record : ct_records s !! ref = Some record → ref ∉ ct_defaultRefs s →
    rec_Ref record = ref ∧ admissible (ct_trustedKeys s) record ∧ is_Some (ct_files s !! file_of ref)
}.

Lemma tmp_not_file name ref : name +:+ ".tmp" ≠ file_of ref.
Proof. intros E. pose proof (json_suffix ref) as Hs. by rewrite <- E, tmp_suffix in Hs. Qed.

Lemma on_disk_tmp s (name data : string) : on_disk s → on_disk (s <| ct_files ::= <[name +:+ ".tmp" := data]> |>).
Proof.
  intros [Hf Hr]. split; cbn.
  - intros n d. destruct (decide (n = name +:+ ".tmp")) as [->|Hne]; [by rewrite tmp_suffix|]. rewrite lookup_insert_ne by done. apply Hf.
  - intros ref record Hl Hd. rewrite lookup_insert_ne by apply tmp_not_file. by apply Hr.
Qed.

Lemma on_disk_written s record (data : string) :
  on_disk s → admissible (ct_trustedKeys s) record → rec_Ref record ∉ ct_defaultRefs s → persisted_data record = Ok data →
  let name := file_of (rec_Ref record) in
  on_disk (s <| ct_records ::= <[rec_Ref record := record]> |> <| ct_files ::= λ files, <[name := data]> (delete (name +:+ ".tmp") files) |>).
Proof.
  intros [Hf Hr] Ha Hd Hp name. split; cbn.
  - intros n d. destruct (decide (n = name)) as [->|Hne].
    + rewrite lookup_insert_eq. intros [= <-] _. exists record. by rewrite lookup_insert_eq.
    + rewrite lookup_insert_ne by done. intros (Hne' & Hl)%lookup_delete_Some Hs. destruct (Hf n d Hl Hs) as (r & Hlr & Hdr & -> & Hpr).
      exists r. rewrite lookup_insert_ne; [done|]. intros E. apply Hne. unfold name. by rewrite E.
  - intros ref r. destruct (decide (ref = rec_Ref record)) as [->|Hne].
    + rewrite !lookup_insert_eq. by intros [= <-] _.
    + rewrite lookup_insert_ne by done. intros Hl Hn. destruct (Hr ref r Hl Hn) as (Href & Hadm & Hfile). split_and!; [done|done|].
      destruct (decide (name = file_of ref)) as [->|Hnf]; [by rewrite lookup_insert_eq|].
      rewrite lookup_insert_ne, lookup_delete_ne by (done || apply tmp_not_file). done.
Qed.

Lemma apply_on_disk raw allow dry disk s : TrimSpace (ct_dir s) ≠ "" → on_disk s → on_disk (Apply raw allow dry disk s).2.
Proof.
  intros Hdir Hs. unfold Apply. destruct (Prepare raw allow s) as [[record snap]|e] eqn:Hp; [|done]. destruct dry; [done|].
  destruct (prepared _ _ _ _ _ Hp) as (env & _ & _ & _ & Hn & _ & _ & _ & He). apply prepared_admissible in Hp. rewrite <- He in Hn.
  unfold Commit, persistLocked. cbn [ct_dir]. rewrite (bool_decide_eq_false_2 (TrimSpace (ct_dir (s <| ct_records ::= _ |>)) = "")) by exact Hdir.
  destruct (persisted_data record) as [data|e] eqn:Hd; [|by destruct s]. destruct disk as [|e|e].
  - exact (on_disk_written s record data Hs Hp Hn Hd).
  - by destruct s.
  - pose proof (on_disk_tmp s (file_of (rec_Ref record)) data Hs) as Ht. by destruct s.
Qed.

Lemma applications_on_disk allow steps s : TrimSpace (ct_dir s) ≠ "" → on_disk s → on_disk (applications allow steps s).
Proof.
  intros Hdir Hs. induction steps as [|[[raw dry] disk] steps IH] using rev_ind; [done|]. rewrite applications_snoc.
  apply apply_on_disk; [|done]. by rewrite (proj1 (applications_keep allow steps s)).
Qed.

(** ** Reading the directory *)

(** No two references have the same file. *)
Definition distinct_files (records : gmap string ContentRecord) : Prop :=
  ∀ ref ref', ref ∈ dom records → ref' ∈ dom records → file_of ref = file_of ref' → ref = ref'.

Lemma load_all keys (users : gmap string ContentRecord) entries records :
  NoDup entries.*1 → distinct_files users →
  (∀ name data, (name, data) ∈ entries → HasSuffix name ".json" = true → ∃ record,
     users !! rec_Ref record = Some record ∧ name = file_of (rec_Ref record) ∧ persisted_data record = Ok data ∧
     admissible keys record ∧ validateRecordPayload record = None) →
  (∀ ref, ref ∈ dom records → file_of ref ∉ entries.*1) →
  ∃ records', load_files keys entries records = Ok records' ∧
    ∀ ref record, records' !! ref = Some record ↔
      records !! ref = Some record ∨ (file_of ref ∈ entries.*1 ∧ (loaded <$> users) !! ref = Some record).
Proof.
  intros Hnd Hinj. revert records. induction entries as [|[name data] entries IH]; intros records Hin Hnew; cbn [load_files].
  { exists records. split; [done|]. intros ref record. split; [by left|]. by intros [?|[?%elem_of_nil _]]. }
  cbn in Hnd. apply list.NoDup_cons in Hnd as [Hn Hnd].
  assert (∀ n d, (n, d) ∈ entries → (n, d) ∈ (name, data) :: entries) as Hsub by (intros; apply elem_of_cons; by right).
  destruct (HasSuffix name ".json") eqn:Hj; cycle 1.
  { destruct (IH Hnd records) as (records' & Hl & Hr); [by eauto| |].
    { intros ref Hd Hi. apply (Hnew ref Hd). apply elem_of_cons. by right. }
    exists records'. split; [done|]. intros ref record. rewrite Hr. cbn. rewrite elem_of_cons. split; [naive_solver|].
    intros [?|[[E|?] ?]]; [by left| |by right]. pose proof (json_suffix ref) as Hs. by rewrite E, Hj in Hs. }
  destruct (Hin name data) as (r & Hu & -> & Hp & Ha & Hv); [apply elem_of_cons; by left|done|].
  assert (records !! rec_Ref r = None) as Hnone.
  { apply not_elem_of_dom. intros Hd. apply (Hnew _ Hd), elem_of_cons. by left. }
  rewrite (reload keys _ r data records Ha Hp Hv Hnone). cbn [mbind result_bind].
  destruct (IH Hnd (<[rec_Ref r := loaded r]> records)) as (records' & Hl & Hr); [by eauto| |].
  { intros ref. rewrite dom_insert, elem_of_union, elem_of_singleton. intros [->|Hd] Hi; [done|]. apply (Hnew ref Hd), elem_of_cons. by right. }
  exists records'. split; [done|]. intros ref record. rewrite Hr. cbn. rewrite elem_of_cons, lookup_insert_Some, lookup_fmap.
  destruct (decide (ref = rec_Ref r)) as [->|Hne].
  - rewrite Hu, Hnone. cbn. naive_solver.
  - assert (file_of ref = file_of (rec_Ref r) → (loaded <$> users !! ref) = Some record → False) as Hdiff; [|naive_solver].
    intros E (x & Hx & _)%fmap_Some. apply Hne, Hinj; [by eapply elem_of_dom_2|by eapply elem_of_dom_2|done].
Qed.

Lemma entry_names files : (entries_of files).*1 = sort_strings (elements (dom files)).
Proof.
  unfold entries_of. assert (∀ n, n ∈ sort_strings (elements (dom files)) → is_Some (files !! n)) as Hin.
  { intros n. rewrite sort_strings_perm, elem_of_elements. apply elem_of_dom. }
  induction (sort_strings (elements (dom files))) as [|n l IH]; [done|]. cbn.
  destruct (Hin n) as [d ->]; [apply elem_of_cons; by left|]. cbn. f_equal. apply IH. intros n' Hn'. apply Hin, elem_of_cons. by right.
Qed.

Lemma genuine_loaded keys defaults files record : genuine keys defaults files [] record → rec_Status record = "loaded".
Proof. by inversion 1 as [| | |? ? Hin%elem_of_nil|? ? ? ? ? ? Hin%elem_of_nil]. Qed.

(** The records that are not of the default layer *)
Definition users_of (s : Store) : gmap string ContentRecord := filter (λ '(ref, _), ref ∉ ct_defaultRefs s) (ct_records s).

Lemma load_on_disk s : on_disk s → distinct_files (users_of s) → (∀ ref record, users_of s !! ref = Some record → validateRecordPayload record = None) →
  load_files (ct_trustedKeys s) (entries_of (ct_files s)) ∅ = Ok (loaded <$> users_of s).
Proof.
  intros [Hf Hr] Hinj Hpay.
  destruct (load_all (ct_trustedKeys s) (users_of s) (entries_of (ct_files s)) ∅) as (records & -> & Hrec); [|done| | |].
  - rewrite entry_names, sort_strings_perm. apply NoDup_elements.
  - intros name data Hin%entries_lookup Hj. destruct (Hf name data Hin Hj) as (record & Hl & Hd & -> & Hp). exists record.
    assert (users_of s !! rec_Ref record = Some record) as Hu by (by apply map_lookup_filter_Some).
    split_and!; [done|done|done| |by eapply Hpay]. by destruct (Hr _ _ Hl Hd) as (_ & ? & _).
  - intros ref. by rewrite dom_empty.
  - f_equal. apply map_eq. intros ref. apply option_eq. intros record. rewrite Hrec, lookup_empty. split; [by intros [?|[_ ?]]|].
    intros Hl. right. split; [|done]. rewrite entry_names, sort_strings_perm, elem_of_elements, elem_of_dom.
    rewrite lookup_fmap in Hl. apply fmap_Some in Hl as (x & [Hx Hn]%map_lookup_filter_Some & _). by apply (Hr _ _ Hx).
Qed.

(** A store opened on an empty directory has the default layer only. *)
Lemma opened_empty defaultDir dir keys defaults s : OpenLayered defaultDir dir keys defaults ∅ = Ok s →
  ∃ layer manifest, loadDefaultLayer (TrimSpace defaultDir) keys defaults = Ok (layer, manifest) ∧
    s = MkStore (TrimSpace dir) keys layer (dom layer) (mf_Version manifest) ∅ ∧ map_Forall (λ _ record, loaded record = record) layer.
Proof.
  intros Ho. pose proof (opened_genuine _ _ _ _ _ _ [] Ho) as Hg. apply opened in Ho as (layer & manifest & users & Hl & Hu & _ & ->). cbn in Hg.
  assert (ct_records users = ∅) as Hnone.
  { apply users_loaded in Hu as [?|Hu]; [done|]. unfold entries_of in Hu. rewrite dom_empty_L, elements_empty in Hu. by injection Hu. }
  rewrite Hnone, (right_id_L ∅ (∪)) in *. exists layer, manifest. split_and!; [done|done|].
  eapply map_Forall_impl; [exact Hg|]. intros ref record [_ Hs%genuine_loaded]. destruct record. cbn in Hs. by subst.
Qed.

Lemma default_on_disk dir keys layer version : on_disk (MkStore dir keys layer (dom layer) version ∅).
Proof.
  split; cbn; [intros name data; by rewrite lookup_empty|]. intros ref record Hl Hd. destruct Hd. by eapply elem_of_dom_2.
Qed.

(** The two layers together are the records that were there. *)
Lemma layers_reunited layer s :
  ct_defaultRefs s = dom layer → (∀ ref, ref ∈ dom layer → ct_records s !! ref = layer !! ref) → map_Forall (λ _ record, loaded record = record) layer →
  layer ∪ (loaded <$> users_of s) = loaded <$> ct_records s.
Proof.
  intros Hd Hsame Hl. apply map_eq. intros ref. rewrite lookup_fmap. destruct (layer !! ref) as [record|] eqn:Hr.
  - rewrite (lookup_union_Some_l _ _ _ _ Hr), Hsame, Hr; [|by eapply elem_of_dom_2]. cbn. by rewrite (Hl _ _ Hr).
  - rewrite lookup_union_r, lookup_fmap by done. f_equal. apply option_eq. intros record. unfold users_of.
    rewrite map_lookup_filter_Some, Hd, not_elem_of_dom. naive_solver.
Qed.

(** A store whose files are in order, on top of the default layer, is opened
    again as it was. *)
Lemma reopened defaultDir dir keys defaults layer manifest s :
  TrimSpace dir ≠ "" → loadDefaultLayer (TrimSpace defaultDir) keys defaults = Ok (layer, manifest) →
  map_Forall (λ _ record, loaded record = record) layer →
  ct_dir s = TrimSpace dir → ct_trustedKeys s = keys → ct_defaultRefs s = dom layer → ct_manifestVersion s = mf_Version manifest →
  (∀ ref, ref ∈ dom layer → ct_records s !! ref = layer !! ref) → on_disk s → distinct_files (users_of s) →
  (∀ ref record, users_of s !! ref = Some record → validateRecordPayload record = None) →
  OpenLayered defaultDir dir keys defaults (ct_files s) = Ok (s <| ct_records ::= fmap loaded |>).
Proof.
  intros Hdir Hl Hloaded Hd Hk Hdef Hver Hsame Hs Hinj Hpay. pose proof (load_on_disk s Hs Hinj Hpay) as Hload. rewrite Hk in Hload.
  unfold OpenLayered. rewrite Hl. cbn [mbind result_bind]. unfold NewStoreWithOptions, Load. cbn [ct_dir ct_trustedKeys ct_files].
  rewrite TrimSpace_idem, (bool_decide_eq_false_2 _ Hdir), Hload. cbn [mbind result_bind mret result_ret].
  assert (find_first (λ ref, bool_decide (ref ∈ dom (loaded <$> users_of s))) (range_keys layer) = None) as Hfree.
  { apply find_first_none. intros ref Hr. unfold range_keys in Hr. rewrite range_order_perm, elem_of_elements in Hr. apply bool_decide_eq_false_2.
    rewrite dom_fmap, elem_of_dom. intros [x [_ Hn]%map_lookup_filter_Some]. apply Hn. by rewrite Hdef. }
  unfold assign. cbn. rewrite Hfree, (right_id_L ∅ (∪)), (layers_reunited layer s Hdef Hsame Hloaded). f_equal.
  destruct s; cbn in *. by subst.
Qed.

(** C22. Content survives a restart: after any documents applied to a store
    opened on an empty directory, whatever the disk did, the store opened
    again on what is on the disk has the same records, with the status
    [loaded], provided that no two references have the same file name and
    that the payloads can be parsed. *)
Theorem content_survives_restart defaultDir dir keys defaults allow steps s :
  TrimSpace dir ≠ "" → OpenLayered defaultDir dir keys defaults ∅ = Ok s →
  let s' := applications allow steps s in
  distinct_files (users_of s') → (∀ ref record, users_of s' !! ref = Some record → validateRecordPayload record = None) →
  OpenLayered defaultDir dir keys defaults (ct_files s') = Ok (s' <| ct_records ::= fmap loaded |>).
Proof.
  intros Hdir Ho s' Hinj Hpay. destruct (opened_empty _ _ _ _ _ Ho) as (layer & manifest & Hl & -> & Hloaded).
  set (s := MkStore _ _ _ _ _ _) in s'. destruct (applications_keep allow steps s) as (Hd & Hk & Hdef & Hver).
  apply (reopened _ _ _ _ layer manifest); try done; [apply (applications_default allow steps s)|].
  apply applications_on_disk; [cbn; by rewrite TrimSpace_idem|apply default_on_disk].
Qed.
End restart.

(** ** A codec that satisfies the laws

    A list of texts is written with a dot before each byte and a semicolon
    after each text; a document is an [e] and the list of its fields. *)

Fixpoint write_text (s rest : string) : string :=
  match s with
  | EmptyString => String ";" rest
  | String c s' => String "." (String c (write_text s' rest))
  end.
Definition write_texts (l : list string) : string := foldr write_text "" l.

Fixpoint read_text (acc s : string) (k : string → string → option (list string)) : option (list string) :=
  match s with
  | String ";" rest => k acc rest
  | String "." (String c s') => read_text (acc +:+ String c "") s' k
  | _ => None
  end.
Fixpoint read_texts (n : nat) (s : string) : option (list string) :=
  match n with
  | O => if bool_decide (s = "") then Some [] else None
  | S n' => read_text "" s (λ text rest, cons text <$> read_texts n' rest)
  end.

Lemma read_write_text acc s rest k : read_text acc (write_text s rest) k = k (acc +:+ s) rest.
Proof.
  revert acc. induction s as [|c s IH]; intros acc; cbn; [by rewrite string_app_nil_r|]. rewrite IH, <- string_app_assoc. by rewrite string_app_cons, string_app_nil_l.
Qed.

Lemma read_write_texts l : read_texts (length l) (write_texts l) = Some l.
Proof. unfold write_texts. induction l as [|s l IH]; [done|]. cbn. by rewrite read_write_text, string_app_nil_l, IH. Qed.

Definition payload_fields (env : Envelope) : list string :=
  let m := env_Metadata env in [env_APIVersion env; env_Kind env; md_ID m; md_Version m; md_TenantID m; md_CreatedAt m; md_TTL m; env_Spec env].
Definition integrity_fields (env : Envelope) : list string :=
  let i := env_Integrity env in [in_DigestAlg i; in_Digest i; in_SignatureAlg i; in_KeyID i; in_Signature i].

Definition read_envelope (raw : string) : result Envelope :=
  match raw with
  | String "e" text =>
    match read_texts 13 text with
    | Some [a; k; i; v; t; c; l; s; da; d; sa; ki; sg] => Ok (MkEnvelope a k (MkMetadata i v t c l) s (MkIntegrity da d sa ki sg))
    | _ => Err "invalid document"
    end
  | _ => Err "invalid document"
  end.

Definition read_persisted (data : string) : result persistedRecord :=
  match data with
  | String "p" text =>
    match read_texts 3 text with
    | Some [allow; digest; content] => Ok (MkPersistedRecord (Some (MkUnsignedAdmission (bool_decide (allow = "true")) digest)) content)
    | _ => Err "invalid document"
    end
  | String "e" _ => Ok (MkPersistedRecord None "")
  | _ => Err "invalid document"
  end.

Definition write_persisted (p : persistedRecord) : result string :=
  match p with
  | MkPersistedRecord (Some (MkUnsignedAdmission allow digest)) content =>
    Ok (String "p" (write_texts [if allow then "true" else "false"; digest; content]))
  | MkPersistedRecord None _ => Err "nothing to write"
  end.

(** Values are one text; a text that starts with a bracket is not a list of
    rules, one that starts with a brace is an empty one, and any other is the
    name of a set with one rule, which matches the start of a shell. *)
Definition demo_rule (id : string) : rule_doc :=
  MkRuleDoc id 1 "high" "expr" "process.exec" (MkRuntimeExpr [MkRuntimeCondition "process.binary" "eq" "/bin/sh" [] "" "" ""] None)
    (MkRuntimeSequence "" [] []) (MkRuntimeCorrelate "" [] []) (MkRuntimeSuppression "" []) [MkRequiredEvent "process.exec" []]
    [] [] [] [] (MkResponseIntent "" 0 "") None.

Instance demo_text : ContentText := {|
  content_unicode := {| print_rune := λ _, false |};
  decode_envelope := read_envelope;
  marshal_envelope env := Ok (String "e" (write_texts (payload_fields env ++ integrity_fields env)));
  marshal_payload env := env_Spec env;
  decode_values spec := Ok ("domain", [spec]);
  decode_patch spec := Ok (MkPatchDoc "" "" (if HasPrefix spec "+" then "patch" else "") [] [("add", spec)]);
  marshal_resolved t values := Ok (String "=" (concat_str values));
  decode_rulesets spec := if HasPrefix spec "[" then Err "cannot unmarshal array"
    else Ok (if HasPrefix spec "{" then [] else [MkRulesetDoc spec [demo_rule (spec +:+ "/shell")]]);
  decode_persisted := read_persisted;
  marshal_persisted := write_persisted;
  decode_manifest _ := Ok (MkManifest "1" [])
|}.

Instance demo_laws : ContentLaws.
Proof.
  split.
  - intros env _. exists (String "e" (write_texts (payload_fields env ++ integrity_fields env))), (env_Spec env), "".
    split_and!; [done|done| |by destruct env|done|done]. cbn [decode_envelope demo_text read_envelope].
    pose proof (read_write_texts (payload_fields env ++ integrity_fields env)) as Hr. change (length _) with 13%nat in Hr. rewrite Hr.
    by destruct env as [a k [i v t c l] s [da d sa ki sg]].
  - intros env raw _ _. generalize (signedDigest env). intros digest p. exists (String "p" (write_texts ["true"; digest; raw])). split; [done|].
    pose proof (read_write_texts ["true"; digest; raw]) as Hr. cbn [length] in Hr. unfold decode_persisted, demo_text, read_persisted. by rewrite Hr.
  - by intros t values text [= <-].
Qed.

(** Keys and signatures are texts; a document is signed by its payload. *)
Instance demo_signatures : Signatures := {|
  verify_ed25519 key message sig := bool_decide (sig = key +:+ message);
  sign_ed25519 key message := String.substring 0 32 key +:+ message;
  decode_base64 s := Ok s;
  encode_base64 s := s
|}.
Instance demo_range : RangeOrder := elements_order.

Definition demo_key : string := "0123456789abcdef0123456789abcdef".
Definition demo_keys : gmap string string := {["release" := demo_key]}.
Definition demo_envelope (kind ref spec : string) : Envelope :=
  MkEnvelope "sysarmor.content/v1" kind (MkMetadata ref "1" "" "" "") spec zero_integrity.
Definition demo_unsigned (kind ref spec : string) : string := encode_envelope (demo_envelope kind ref spec).
Definition demo_signed (kind ref spec : string) : string :=
  match SignEnvelope (demo_envelope kind ref spec) "release" (demo_key +:+ demo_key) with Ok env => encode_envelope env | Err _ => "" end.

(** The default directory has a manifest without entries. *)
Definition demo_defaults : gmap string string := {["content-manifest.json" := "{}"]}.
Definition demo_open (files : gmap string string) : result Store := OpenLayered "/etc/sysarmor/content" "/var/lib/sysarmor/content" demo_keys demo_defaults files.
Definition demo_store : Store := match demo_open ∅ with Ok s => s | Err _ => NewStore end.

(** A signed pack, a signed patch of it, an unsigned pack *)
Definition demo_steps : list (string * bool * fault) :=
  [(demo_signed "iocpack" "ioc:bad" "evil.test", false, NoFault); (demo_signed "iocpack" "ioc:bad" "+worse.test", false, NoFault);
   (demo_unsigned "rulepack" "rules:core" "{}", false, NoFault); (demo_signed "rulepack" "rules:lost" "{}", false, RenameFault "no space left")].

Lemma content_admission_witness :
  provenance demo_keys demo_defaults ∅ (demo_steps.*1.*1) (ct_records (applications false demo_steps demo_store)) ∧
  dom (ct_records (applications false demo_steps demo_store)) = {["ioc:bad"]}.
Proof.
  split; [|vm_compute; reflexivity].
  refine (proj2 (content_admission "/etc/sysarmor/content" "/var/lib/sysarmor/content" demo_keys demo_defaults ∅ demo_store demo_steps _)).
  vm_compute. reflexivity.
Defined.

Lemma distinct_files_NoDup records : NoDup (file_of <$> elements (dom records)) → distinct_files records.
Proof.
  intros Hnd ref ref' Hr Hr' E. rewrite <- elem_of_elements in Hr, Hr'. apply list_elem_of_lookup in Hr as [i Hi], Hr' as [j Hj].
  assert (i = j) as ->; [|congruence]. eapply (proj1 (NoDup_alt _) Hnd i j (file_of ref)); rewrite list_lookup_fmap; [by rewrite Hi|rewrite Hj, E; done].
Qed.

Definition demo_final : Store := Eval vm_compute in applications true demo_steps demo_store.

Lemma demo_final_eq : applications true demo_steps demo_store = demo_final.
Proof. vm_compute. reflexivity. Qed.

Lemma content_survives_restart_witness :
  demo_open (ct_files demo_final) = Ok (demo_final <| ct_records ::= fmap loaded |>) ∧ dom (ct_records demo_final) = {["ioc:bad"; "rules:core"]}.
Proof.
  split; [|reflexivity]. rewrite <- demo_final_eq.
  apply (content_survives_restart "/etc/sysarmor/content" "/var/lib/sysarmor/content" demo_keys demo_defaults true demo_steps demo_store).
  - vm_compute. discriminate.
  - vm_compute. reflexivity.
  - rewrite demo_final_eq. apply distinct_files_NoDup. apply (bool_decide_eq_true_1 (NoDup _)). vm_compute. reflexivity.
  - rewrite demo_final_eq. apply (bool_decide_eq_true_1 (map_Forall (λ _ record, validateRecordPayload record = None) _)). vm_compute. reflexivity.
Defined.

(** ** Two ways to lose content *)

(** Two references whose names differ in a separator only have the same file:
    both are in force, and after a restart the first is gone. *)
Example colliding_refs :
  let s := applications true [(demo_unsigned "iocpack" "ioc:bad" "a.test", false, NoFault); (demo_unsigned "iocpack" "ioc/bad" "b.test", false, NoFault)] demo_store in
  dom (ct_records s) = {["ioc:bad"; "ioc/bad"]} ∧
  match demo_open (ct_files s) with Ok s' => dom (ct_records s') = {["ioc/bad"]} | Err _ => False end.
Proof. split; vm_compute; reflexivity. Qed.

(** The payload of a document is not parsed when it is applied: a rule pack
    that cannot be parsed is accepted, and the store cannot be opened again. *)
Example unparsable_accepted :
  let s := applications false [(demo_signed "rulepack" "rules:core" "[]", false, NoFault)] demo_store in
  dom (ct_records s) = {["rules:core"]} ∧
  demo_open (ct_files s) = Err "load user content: load content rules_core.json (rules:core): parse rulepack: cannot unmarshal array".
Proof. split; vm_compute; reflexivity. Qed.
End ContentTheorems.
