(* ===== verification/Agent.v ===== *)
(** * The agent: the policy, the content and the engine in force ([internal/agent/daemon])

    The agent keeps a policy, content, a collection intent and the engine
    that was built from them, and replaces them on request: content and
    detection policies rebuild the engine, collection policies are given to
    the sensor, and an endpoint policy replaces everything.  An event of the
    sensor goes through the normaliser and the engine into a batch.

    The mutexes make each operation atomic.  What the world does during an
    operation is the record [Env]: the clock, the answers of the sensor to
    its calls, whether a row or a file can be written.  [AgentText] is JSON,
    [fmt] and [time] as far as the daemon uses them. *)

From S2P Require Import Prelude GoStrings GoBytes GoData GoSha GoText GoFloat EventModel Policy RuleSpec Validation EventView Compiled Engine DataPlane Segment LocalStore Batcher Response ControlModel PolicyModel Health Collection TetragonPolicy Normalize ContentStore GatewayControl.

Module Agent.
Import ContentStore EventModel Policy RuleSpec Engine DataPlane Response ControlModel PolicyModel Collection.

(** ** Rules of the content, as the engine reads them *)

Definition parse_or_zero (text : string) : Z := default 0%Z (ParseDuration text).

Definition detectionCondition (cond : RuntimeCondition) : ConditionSpec :=
  MkConditionSpec (rtc_Field cond) (rtc_Op cond) (rtc_Value cond) (rtc_Values cond)
    (rtc_Ref cond) (rtc_Step cond) (rtc_StepField cond).

Fixpoint condition_node (node : RuntimeConditionNode) : ConditionNodeSpec :=
  match node with
  | MkRuntimeConditionNode all any not_ condition =>
    MkConditionNodeSpec
      (match all with Some l => Some (condition_node <$> l) | None => None end)
      (match any with Some l => Some (condition_node <$> l) | None => None end)
      (match not_ with Some n => Some (condition_node n) | None => None end)
      (detectionCondition <$> condition)
  end.
Definition detectionConditionNode (node : option RuntimeConditionNode) : option ConditionNodeSpec := condition_node <$> node.

Definition detectionExpr (expr : RuntimeExpr) : ExprSpec :=
  MkExprSpec (detectionCondition <$> rte_Conditions expr) (detectionConditionNode (rte_ConditionGroup expr)).

Definition detection_step (step : RuntimeStep) : StepSpec :=
  let behavior := if bool_decide (rts_Behavior step = "") then rts_Event step else rts_Behavior step in
  MkStepSpec (rts_ID step) (NormalizeBehavior behavior) (detectionCondition <$> rts_Conditions step)
    (detectionConditionNode (rts_ConditionGroup step)).

Definition detectionSequence (seq : RuntimeSequence) : SequenceSpec :=
  MkSequenceSpec (parse_or_zero (rtq_Within seq)) (rtq_By seq) (detection_step <$> rtq_Steps seq).

Definition detection_fact (fact : RuntimeFact) : FactSpec :=
  MkFactSpec (rtf_ID fact) (rtf_Event fact) (rtf_Events fact)
    (detectionCondition <$> rtf_Conditions fact) (detectionConditionNode (rtf_ConditionGroup fact)).

Definition detectionCorrelate (spec : RuntimeCorrelate) : CorrelateSpec :=
  MkCorrelateSpec (parse_or_zero (rtr_Within spec)) (rtr_Within spec) (rtr_By spec)
    (detection_fact <$> rtr_Facts spec).

Definition detectionSuppression (spec : RuntimeSuppression) : SuppressionSpec :=
  MkSuppressionSpec (parse_or_zero (rtp_Within spec)) (rtp_By spec).

Definition detectionRequiredEvents (events : list RequiredEvent) : list RequiredEventSpec :=
  (λ e, MkRequiredEventSpec (rqe_Behavior e) (rqe_Fields e)) <$> events.

Definition requiredBehaviors (events : list RequiredEvent) : list string :=
  distinct_values NormalizeBehavior ∅ (rqe_Behavior <$> events).

(** The field [Where] is not set. *)
Definition rule_spec (rule : Rule) : RuleSpec :=
  let intent := rule_ResponseIntent rule in
  MkRuleSpec (rule_RuleID rule) (rule_Version rule) (rule_RuleSetRef rule) ""
    (rule_Severity rule) (rule_RuntimeEntry rule) (rule_RuntimeType rule)
    (detectionExpr (rule_Expr rule)) (detectionSequence (rule_Sequence rule))
    (detectionCorrelate (rule_Correlate rule)) (detectionSuppression (rule_Suppression rule))
    (detectionRequiredEvents (rule_RequiredEvents rule)) (requiredBehaviors (rule_RequiredEvents rule))
    (rule_ContextRefs rule) (rule_IOCRefs rule)
    (Some (MkResponseIntentRef (rin_Action intent) (rin_Confidence intent) (rin_Reason intent)))
    (rule_Terminal rule).

Definition content_ref (set : ValueSet) : ContentRef :=
  MkContentRef (vs_Ref set) (vs_Version set) (vs_Digest set) (vs_Values set).

Definition detectionContentSnapshotFromContent (snapshot : Snapshot) : ContentSnapshot :=
  MkContentSnapshot (content_ref <$> sn_ContextSets snapshot) (content_ref <$> sn_IOCPacks snapshot)
    (rule_spec <$> sn_Rules snapshot).

Definition collectionValueSet (set : ValueSet) : CollectionValueSet :=
  MkCollectionValueSet (vs_Ref set) (vs_Version set) (vs_Digest set) (vs_ValueType set) (vs_Values set).

Definition collectionContentSnapshot (snapshot : Snapshot) : CollectionContentSnapshot :=
  MkCollectionContentSnapshot (collectionValueSet <$> sn_ContextSets snapshot) (collectionValueSet <$> sn_IOCPacks snapshot).

(** ** Texts *)

Class AgentText := {
  decode_detection_member : string → result (option DetectionPolicy);
  decode_detection : string → result DetectionPolicy;
  decode_members : string → result (gmap string string);
  decode_telemetry : string → result TelemetryPolicy;
  marshal_telemetry : TelemetryPolicy → string;
  marshal_report : ApplyReport → string;
  marshal_explain : TetragonPolicy.CollectionCompileReport → option CoverageReport → string;
  show_selectors : list TetragonPolicy.CollectionSelectorReport → string;
  decode_command : string → result Command;
  decode_pullback : string → result EvidencePullbackRequest;
  marshal_subgraph : string → string → string → result string;
  duration_error : string → string;
  format_nano : Time → string
}.

(** The messages of the engine ([fmt.Sprintf] with the format of each) *)
Definition msg_text `{Unicode} (m : Msg) : string :=
  let rule (id text : string) := "rule " +:+ id +:+ " " +:+ text in
  match m with
  | MsgRulesetRequired => "detection policy requires at least one explicit ruleset"
  | MsgRulesetUnavailable ref => "ruleset " +:+ ref +:+ " is not available"
  | MsgDuplicateRule id => "duplicate rule id " +:+ id
  | MsgMissingContextRef id ref => rule id ("requires missing context ref " +:+ ref)
  | MsgMissingIOCRef id ref => rule id ("requires missing IOC ref " +:+ ref)
  | MsgUnsupportedRuntime id ty => rule id ("has unsupported runtime type " +:+ Quote ty)
  | MsgExprRequiresConditions id => rule id "expr runtime requires conditions"
  | MsgSequenceRequiresSteps id => rule id "sequence runtime requires steps"
  | MsgStepIDRequired id => rule id "sequence step id is required"
  | MsgStepBehaviorRequired id step => rule id ("sequence step " +:+ step +:+ " behavior is required")
  | MsgCorrelateRequiresFacts id => rule id "correlate runtime requires facts"
  | MsgInvalidCorrelateWindow id text => rule id ("has invalid correlate window " +:+ Quote text)
  | MsgCorrelateWindowRange id => rule id "correlate window must be within (0, 24h0m0s]"
  | MsgCorrelateByRequired id => rule id "correlate by field is required"
  | MsgCorrelateByUnsupported id field => rule id ("has unsupported correlate by field " +:+ Quote field)
  | MsgCorrelateTwoFacts id => rule id "correlate requires at least two facts"
  | MsgFactIDRequired id => rule id "correlate fact id is required"
  | MsgDuplicateFact id fact => rule id ("correlate has duplicate fact " +:+ Quote fact)
  | MsgFactEventExactlyOne id fact => rule id ("correlate fact " +:+ fact +:+ " must set exactly one of event or events")
  | MsgFactBehaviorRequired id fact => rule id ("correlate fact " +:+ fact +:+ " behavior is required")
  | MsgSuppressionRequiresExpr id => rule id "suppression requires expr runtime"
  | MsgSuppressionWindowRange id => rule id "suppression window must be between 0 and 24h0m0s"
  | MsgSuppressionByRequired id => rule id "suppression by field is required"
  | MsgSuppressionByUnsupported id field => rule id ("has unsupported suppression by field " +:+ Quote field)
  | MsgSequenceByUnsupported id field => rule id ("sequence has unsupported by field " +:+ Quote field)
  | MsgDuplicateStep id step => rule id ("sequence has duplicate step " +:+ Quote step)
  | MsgTreeTooDeep id location => rule id (location +:+ " condition tree exceeds maximum depth 8")
  | MsgNodeKind id location => rule id (location +:+ " condition node must set exactly one kind")
  | MsgTreeTooManyLeaves id location => rule id (location +:+ " condition tree exceeds maximum leaves 256")
  | MsgGroupRequiresChildren id location group => rule id (location +:+ " " +:+ group +:+ " requires children")
  | MsgUnsupportedField id location field => rule id (location +:+ " has unsupported field " +:+ Quote field)
  | MsgUnsupportedOperator id location op => rule id (location +:+ " has unsupported operator " +:+ Quote op)
  | MsgSameAsUnknownStep id location step => rule id (location +:+ " same_as references unknown prior step " +:+ Quote step)
  | MsgUnsupportedStepField id location field => rule id (location +:+ " has unsupported step field " +:+ Quote field)
  | MsgMissingInputs id missing => rule id ("missing collection inputs: " +:+ Join missing ",")
  end.

Definition join_messages `{Unicode} (l : list Msg) : string := Join (msg_text <$> l) "; ".

(** ** Telemetry settings ([config/telemetry.go]) *)

Record EffectiveTelemetry := MkEffectiveTelemetry {
  et_MaxBatchItems : Z;
  et_MaxBatchBytes : Z;
  et_FlushInterval : Z
}.

Global Instance EffectiveTelemetry_eta : Settable EffectiveTelemetry := λ x,
  MkEffectiveTelemetry (et_MaxBatchItems x) (et_MaxBatchBytes x) (et_FlushInterval x).

Definition DefaultTelemetryConfig : EffectiveTelemetry := MkEffectiveTelemetry 256 (256 * 2 ^ 10) (10 ^ 9).

Definition validateEffectiveTelemetry (value : EffectiveTelemetry) : option string :=
  if (et_MaxBatchItems value <? 1)%Z || (4096 <? et_MaxBatchItems value)%Z then Some "telemetry.max_batch_items must be between 1 and 4096"
  else if (et_MaxBatchBytes value <? 64 * 2 ^ 10)%Z || (16 * 2 ^ 20 <? et_MaxBatchBytes value)%Z
  then Some "telemetry.max_batch_bytes must be between 64KiB and 16MiB"
  else if (et_FlushInterval value <? 100 * 10 ^ 6)%Z || (60 * 10 ^ 9 <? et_FlushInterval value)%Z
  then Some "telemetry.flush_interval must be between 100ms and 1m"
  else None.

Definition ResolveTelemetry `{AgentText} (baseline : EffectiveTelemetry) (policy : option TelemetryPolicy) : result EffectiveTelemetry :=
  let checked effective := match validateEffectiveTelemetry effective with Some e => Err e | None => Ok effective end in
  match policy with
  | None => checked baseline
  | Some policy =>
    let effective := baseline <| et_MaxBatchItems := tp_MaxBatchItems policy when (0 <? tp_MaxBatchItems policy)%Z |>
                              <| et_MaxBatchBytes := tp_MaxBatchBytes policy when (0 <? tp_MaxBatchBytes policy)%Z |> in
    if bool_decide (TrimSpace (tp_FlushInterval policy) = "") then checked effective
    else match ParseDuration (tp_FlushInterval policy) with
    | None => Err ("telemetry.flush_interval: " +:+ duration_error (tp_FlushInterval policy))
    | Some interval => checked (effective <| et_FlushInterval := interval |>)
    end
  end.

(** ** The state *)

Record runtimeIdentity := MkRuntimeIdentity { ri_AgentID : string; ri_HostID : string; ri_TenantID : string }.

Instance runtimeIdentity_eq_dec : EqDecision runtimeIdentity.
Proof. solve_decision. Defined.

(** What the configuration file says, as far as the operations read it *)
Record Config := MkConfig {
  cfg_AgentID : string;
  cfg_HostID : string;
  cfg_TenantID : string;
  cfg_Labels : gmap string string;
  cfg_ScopeType : string;
  cfg_ScopeSelector : string;
  cfg_ObserveOnly : bool;
  cfg_Telemetry : EffectiveTelemetry;
  cfg_Limits : EngineLimits;
  cfg_PolicyPath : string;
  cfg_SensorPolicyPath : string
}.

(** [ag_calls]: the intents the sensor was asked to apply, the last one
    first *)
Record AgentRuntime := MkAgentRuntime {
  ag_Config : Config;
  ag_capability : list CollectionBehaviorCapability;
  ag_localStore : option LocalStore.Store;
  ag_identity : runtimeIdentity;
  ag_standaloneIdentity : runtimeIdentity;
  ag_normalizer : option Normalize.Normalizer;
  ag_batcher : option Batcher.Batcher;
  ag_endpointPolicy : EndpointPolicy;
  ag_effectiveTelemetry : EffectiveTelemetry;
  ag_policy : PolicyDoc;
  ag_detection : option Engine;
  ag_collection : CollectionIntent;
  ag_content : Store;
  ag_featureFlags : Health.RuntimeFeatureFlags;
  ag_detectionStatus : Health.DetectionHealth;
  ag_signalSeq : Z;
  ag_calls : list CollectionIntent
}.

Global Instance AgentRuntime_eta : Settable AgentRuntime := λ x,
  MkAgentRuntime (ag_Config x) (ag_capability x) (ag_localStore x) (ag_identity x) (ag_standaloneIdentity x) (ag_normalizer x) (ag_batcher x)
    (ag_endpointPolicy x) (ag_effectiveTelemetry x) (ag_policy x) (ag_detection x) (ag_collection x) (ag_content x) (ag_featureFlags x)
    (ag_detectionStatus x) (ag_signalSeq x) (ag_calls x).

(** What happens around an operation: the time, the errors of a first and a
    second call of the sensor, the error of writing a row of the local store,
    and the fault when a file of the content store is written *)
Record Env := MkEnv {
  env_now : Time;
  env_apply : option string;
  env_reapply : option string;
  env_save : option string;
  env_disk : fault
}.

(** ** Requests and acknowledgements *)

Record AppliedSection := MkAppliedSection {
  as_Name : string;
  as_Status : string;
  as_Message : string;
  as_RequiresRestart : bool;
  as_Details : list string;
  as_ReportJson : string
}.

(** An acknowledgement: the part the gateway reads, the details and the
    sections *)
Record AgentAck := MkAgentAck {
  aa_Ack : GatewayControl.ControlAck;
  aa_Details : list string;
  aa_Sections : list AppliedSection
}.

Definition aa_Status (ack : AgentAck) : string := GatewayControl.ka_Status (aa_Ack ack).

Record ApplyPolicyRequest := MkApplyPolicyRequest {
  pq_Context : option GatewayControl.RequestContext;
  pq_PolicyType : string;
  pq_PolicyJson : string;
  pq_DryRun : bool;
  pq_Telemetry : option TelemetryPolicy
}.

Record ApplyContentRequest := MkApplyContentRequest {
  cq_Context : option GatewayControl.RequestContext;
  cq_ContentJson : string;
  cq_DryRun : bool;
  cq_AllowUnsigned : bool
}.

Definition requestID (req : option GatewayControl.RequestContext) : string := from_option GatewayControl.rq_RequestId "" req.

Definition requestScope (req : option GatewayControl.RequestContext) : string * string :=
  match req ≫= GatewayControl.rq_Scope with
  | Some scope => (GatewayControl.sm_Type scope, GatewayControl.sm_Selector scope)
  | None => ("", "")
  end.

Definition rejectedAck (cfg : Config) (req : option GatewayControl.RequestContext) (section message : string) : AgentAck :=
  MkAgentAck (GatewayControl.MkControlAck (requestID req) (cfg_TenantID cfg) (cfg_AgentID cfg) "rejected" message "" 0 "") []
    [MkAppliedSection section "rejected" message false [] ""].

Definition telemetryAck `{AgentText} (cfg : Config) (req : option GatewayControl.RequestContext) (status message : string) (policy : TelemetryPolicy) : AgentAck :=
  let report := marshal_telemetry policy in
  MkAgentAck (GatewayControl.MkControlAck (requestID req) (cfg_TenantID cfg) (cfg_AgentID cfg) status message "" 0 report) []
    [MkAppliedSection "telemetry" status message false [] report].

Definition appliedAck (cfg : Config) (req : option GatewayControl.RequestContext) (policy : PolicyDoc) (status message : string) (requiresRestart : bool) : AgentAck :=
  let telemetry := match pol_Telemetry policy with Some _ => (status, "telemetry policy accepted") | None => ("unchanged", "telemetry policy unchanged") end in
  MkAgentAck (GatewayControl.MkControlAck (requestID req) (cfg_TenantID cfg) (cfg_AgentID cfg) status message (pol_PolicyID policy) (pol_Version policy) "") []
    [MkAppliedSection "detection" status "endpoint rules updated" false [] "";
     MkAppliedSection "response" status "response policy updated" false [] "";
     MkAppliedSection "resource" "unsupported" "resource policy contract is reserved for the next phase" requiresRestart [] "";
     MkAppliedSection "telemetry" telemetry.1 telemetry.2 false [] "";
     MkAppliedSection "collection" "unsupported" "collection hot reload requires compiler/runtime apply in the next phase" true [] ""].

Definition collectionReportDetails `{Unicode} (report : TetragonPolicy.CollectionCompileReport) (coverage : option CoverageReport) : list string :=
  let count {A} (l : list A) := FormatInt (Z.of_nat (length l)) in
  let only (b : bool) (text : string) := if b then [text] else [] in
  if bool_decide (TetragonPolicy.ccr_Backend report = "") then []
  else
    ["backend=" +:+ TetragonPolicy.ccr_Backend report;
     "pushed_down_selectors=" +:+ count (TetragonPolicy.ccr_PushedDownSelectors report);
     "agent_side_selectors=" +:+ count (TetragonPolicy.ccr_AgentSideSelectors report);
     "unsupported_selectors=" +:+ count (TetragonPolicy.ccr_UnsupportedSelectors report)] ++
    only (negb (length (TetragonPolicy.ccr_ResolvedRefs report) =? 0)%nat) ("resolved_refs=" +:+ count (TetragonPolicy.ccr_ResolvedRefs report)) ++
    only (negb (bool_decide (TetragonPolicy.ccr_GeneratedPolicyHash report = ""))) ("generated_policy_hash=" +:+ TetragonPolicy.ccr_GeneratedPolicyHash report) ++
    ((λ w, "warning=" +:+ w) <$> filter (λ w, w ≠ "") (TetragonPolicy.ccr_Warnings report)) ++
    match coverage with
    | Some c =>
      if bool_decide (cov_Status c = "") then []
      else ("detection_coverage=" +:+ cov_Status c) :: ((λ w, "coverage_warning=" +:+ w) <$> filter (λ w, w ≠ "") (msg_text <$> cov_Warnings c))
    | None => []
    end.

Definition collectionReportJSON `{AgentText} (report : TetragonPolicy.CollectionCompileReport) (coverage : option CoverageReport) : string :=
  if bool_decide (TetragonPolicy.ccr_Backend report = "") then "" else marshal_explain report coverage.

Definition collectionAck `{AgentText} `{Unicode} (cfg : Config) (req : option GatewayControl.RequestContext) (policy : CollectionPolicy) (status message : string)
    (report : TetragonPolicy.CollectionCompileReport) (coverage : option CoverageReport) : AgentAck :=
  let details := collectionReportDetails report coverage in
  let json := collectionReportJSON report coverage in
  MkAgentAck (GatewayControl.MkControlAck (requestID req) (cfg_TenantID cfg) (cfg_AgentID cfg) status message (col_PolicyID policy) (col_Version policy) json)
    details [MkAppliedSection "collection" status message false details json].

Definition detectionAck `{AgentText} `{Unicode} (cfg : Config) (req : option GatewayControl.RequestContext) (policy : PolicyDoc) (status message : string)
    (report : ApplyReport) : AgentAck :=
  let status := if bool_decide (status = "") then "applied" else status in
  let message := if bool_decide (message = "") then "detection policy applied" else message in
  let message := if (length (rep_Details report) =? 0)%nat then message else message +:+ ": " +:+ join_messages (rep_Details report) in
  MkAgentAck (GatewayControl.MkControlAck (requestID req) (cfg_TenantID cfg) (cfg_AgentID cfg) status message (pol_PolicyID policy) (pol_Version policy) (marshal_report report))
    [] [MkAppliedSection "detection" status message false [] (marshal_report report)].

Global Instance CanonicalEvent_eta : Settable CanonicalEvent := λ x,
  MkCanonicalEvent (ev_Id x) (ev_Seq x) (ev_AgentId x) (ev_HostId x) (ev_MonoNs x) (ev_SubjectProc x) (ev_Object x) (ev_ParentStableId x)
    (ev_LineageId x) (ev_RawRef x) (ev_TenantId x) (ev_Scope x) (ev_ContainerId x) (ev_Cgroup x) (ev_Namespace x) (ev_Pod x)
    (ev_OccurredAtNs x) (ev_Behavior x) (ev_Labels x).

Global Instance EvidenceBundle_eta : Settable EvidenceBundle := λ x,
  MkEvidenceBundle (evb_Id x) (evb_EventRefs x) (evb_RawRefs x) (evb_Entities x) (evb_Summary x).

(** ** The agent *)

Section agent.
Context `{PolicyText} `{ContentText} `{Signatures} `{AgentText} `{RangeOrder}.

(** ** What is in force *)

Definition currentIdentity (r : AgentRuntime) : runtimeIdentity :=
  if bool_decide (ri_AgentID (ag_identity r) = "")
  then MkRuntimeIdentity (cfg_AgentID (ag_Config r)) (cfg_HostID (ag_Config r)) (cfg_TenantID (ag_Config r)) else ag_identity r.

Definition activePolicy (r : AgentRuntime) : PolicyDoc :=
  if bool_decide (pol_PolicyID (ag_policy r) = "") then PolicyModel.DefaultPolicy (cfg_TenantID (ag_Config r)) else ag_policy r.

Definition detectionLimits (r : AgentRuntime) : EngineLimits := cfg_Limits (ag_Config r).

Definition detectionContentSnapshot (r : AgentRuntime) : ContentSnapshot := detectionContentSnapshotFromContent (GetSnapshot (ag_content r)).

(** [detection.NewWithRuntimeLimits] with the matchers the flags select *)
Definition new_engine (r : AgentRuntime) (policy : option DetectionPolicy) (collection : CollectionIntent) (content : ContentSnapshot) : Engine * ApplyReport :=
  NewWithRuntimeLimits (Health.rff_MatcherStrategy (ag_featureFlags r)) policy collection content (detectionLimits r).

Definition currentDetection (r : AgentRuntime) : Engine :=
  match ag_detection r with
  | Some engine => engine
  | None => (new_engine r (Some DefaultDetectionPolicy) (ag_collection r) (MkContentSnapshot ∅ ∅ [])).1
  end.

Definition withCollectionCapabilities (r : AgentRuntime) (intent : CollectionIntent) : CollectionIntent :=
  if bool_decide (ci_Capabilities intent = []) then intent <| ci_Capabilities := ag_capability r |> else intent.

Definition setCollectionIntent (intent : CollectionIntent) (r : AgentRuntime) : AgentRuntime :=
  r <| ag_collection := withCollectionCapabilities r intent |>.

Definition detectionContentRefs (snapshot : Snapshot) : list Health.ContentRef :=
  omap (λ ref, (λ record, Health.MkContentRef ref (rec_Kind record) (rec_Version record) (rec_Digest record)) <$> sn_RulePacks snapshot !! ref)
    (range_keys (sn_RulePacks snapshot)) ++
  omap (λ ref, (λ set, Health.MkContentRef ref "contextset" (vs_Version set) (vs_Digest set)) <$> sn_ContextSets snapshot !! ref)
    (range_keys (sn_ContextSets snapshot)) ++
  omap (λ ref, (λ set, Health.MkContentRef ref "iocpack" (vs_Version set) (vs_Digest set)) <$> sn_IOCPacks snapshot !! ref)
    (range_keys (sn_IOCPacks snapshot)).

(** [policy.Detection] is not nil where this is called. *)
Definition setDetectionStatus (now : Time) (policy : PolicyDoc) (report : ApplyReport) (snapshot : Snapshot) (r : AgentRuntime) : AgentRuntime :=
  let detection := default DefaultDetectionPolicy (pol_Detection policy) in
  r <| ag_detectionStatus :=
    Health.MkDetectionHealth (firstNonEmpty [dp_PolicyID detection; pol_PolicyID policy]) (dp_Version detection) (detectionContentRefs snapshot)
      (sn_DefaultManifestVersion snapshot) (ag_featureFlags r) (rep_Status report)
      (if bool_decide (rep_Status report = "rejected") then join_messages (rep_Details report) else "") now |>.

Definition is_rejected (report : ApplyReport) : bool := bool_decide (rep_Status report = "rejected").

Definition tryApplyRuntimePolicy (now : Time) (policy : PolicyDoc) (r : AgentRuntime) : (ApplyReport * bool) * AgentRuntime :=
  let policy := PolicyModel.Normalize now policy in
  let '(engine, report) := new_engine r (pol_Detection policy) (ag_collection r) (detectionContentSnapshot r) in
  let status := setDetectionStatus now policy report (GetSnapshot (ag_content r)) in
  if is_rejected report then ((report, false), status r)
  else ((report, true), status (r <| ag_policy := policy |> <| ag_detection := Some engine |>)).

Definition rebuildDetection (now : Time) (r : AgentRuntime) : ApplyReport * AgentRuntime :=
  let policy := PolicyModel.Normalize now (activePolicy r) in
  let '(engine, report) := new_engine r (pol_Detection policy) (ag_collection r) (detectionContentSnapshot r) in
  let status := setDetectionStatus now policy report (GetSnapshot (ag_content r)) in
  if is_rejected report then (report, status r) else (report, status (r <| ag_detection := Some engine |>)).

Definition buildDetectionWithSnapshot (now : Time) (snapshot : Snapshot) (r : AgentRuntime) : Engine * ApplyReport :=
  new_engine r (pol_Detection (PolicyModel.Normalize now (activePolicy r))) (ag_collection r) (detectionContentSnapshotFromContent snapshot).

Definition commitDetectionContent (env : Env) (record : ContentRecord) (snapshot : Snapshot) (engine : Engine) (report : ApplyReport) (r : AgentRuntime)
    : option string * AgentRuntime :=
  if is_rejected report
  then (Some (rep_Message report), setDetectionStatus (env_now env) (activePolicy r) report (GetSnapshot (ag_content r)) r)
  else
    let '(failed, content) := Commit (env_disk env) record (ag_content r) in
    let r := r <| ag_content := content |> in
    match failed with
    | Some e => (Some e, r)
    | None => (None, setDetectionStatus (env_now env) (activePolicy r) report snapshot (r <| ag_detection := Some engine |>))
    end.

Definition persistEndpointPolicy (env : Env) (policy : EndpointPolicy) (r : AgentRuntime) : option string * AgentRuntime :=
  match ag_localStore r with
  | None => (None, r <| ag_endpointPolicy := policy |>)
  | Some store =>
    let '(saved, store) := SaveEffectiveEndpointPolicy (env_now env) policy store in
    match saved, env_save env with
    | Err e, _ => (Some e, r)
    | Ok _, Some e => (Some e, r)
    | Ok _, None => (None, r <| ag_localStore := Some store |> <| ag_endpointPolicy := policy |>)
    end
  end.

(** The sensor is asked to apply an intent. *)
Definition apply_intent (failed : option string) (intent : CollectionIntent) (r : AgentRuntime) : option string * AgentRuntime :=
  (failed, r <| ag_calls ::= cons intent |>).

Definition reconfigure (now : Time) (effective : EffectiveTelemetry) (r : AgentRuntime) : AgentRuntime :=
  r <| ag_batcher ::= fmap (Batcher.Reconfigure now (et_MaxBatchItems effective) (et_MaxBatchBytes effective) (et_FlushInterval effective)) |>.

Definition validateControlContext (ctx : option GatewayControl.RequestContext) (r : AgentRuntime) : option string :=
  match ctx with
  | None => None
  | Some ctx =>
    let identity := currentIdentity r in
    let tenantID := TrimSpace (GatewayControl.rq_TenantId ctx) in
    let agentID := TrimSpace (GatewayControl.rq_AgentId ctx) in
    if negb (bool_decide (tenantID = "")) && negb (bool_decide (tenantID = ri_TenantID identity))
    then Some ("tenant mismatch: request=" +:+ tenantID +:+ " agent=" +:+ ri_TenantID identity)
    else if negb (bool_decide (agentID = "")) && negb (bool_decide (agentID = ri_AgentID identity))
    then Some ("agent mismatch: request=" +:+ agentID +:+ " agent=" +:+ ri_AgentID identity)
    else None
  end.

(** ** Content *)

(** The record, the report and the status of an accepted document, or the
    acknowledgement of a refusal *)
Definition applyContentTransaction (env : Env) (req : ApplyContentRequest) (r : AgentRuntime)
    : ((ContentRecord * ApplyReport * string) + AgentAck) * AgentRuntime :=
  let reject message := inr (rejectedAck (ag_Config r) (cq_Context req) "content" message) in
  match Prepare (cq_ContentJson req) (cq_AllowUnsigned req) (ag_content r) with
  | Err e => (reject e, r)
  | Ok (record, snapshot) =>
    let '(engine, report) := buildDetectionWithSnapshot (env_now env) snapshot r in
    if is_rejected report then
      (reject ("content rejected; detection rebuild failed: " +:+ join_messages (rep_Details report)),
       setDetectionStatus (env_now env) (activePolicy r) report (GetSnapshot (ag_content r)) r)
    else
      let '(failed, r) := commitDetectionContent env record snapshot engine report r in
      match failed with
      | Some e => (reject e, r)
      | None => (inl (record, report, if bool_decide (rep_Status report = "degraded") then "degraded" else rec_Status record), r)
      end
  end.

Definition contentAck (cfg : Config) (req : ApplyContentRequest) (record : ContentRecord) (warnings : list Msg) (status : string) : AgentAck :=
  let message := "content " +:+ status +:+ " " +:+ rec_Ref record +:+ "@" +:+ rec_Version record +:+ " digest=" +:+ rec_Digest record in
  let message := if (length warnings =? 0)%nat then message else message +:+ "; detection dependencies degraded: " +:+ join_messages warnings in
  MkAgentAck (GatewayControl.MkControlAck (requestID (cq_Context req)) (cfg_TenantID cfg) (cfg_AgentID cfg) status message (rec_Ref record) 0 "") []
    [MkAppliedSection "content" status message false [] ""].

Definition applyContentUpdate (env : Env) (req : option ApplyContentRequest) (r : AgentRuntime) : AgentAck * AgentRuntime :=
  match req with
  | None => (rejectedAck (ag_Config r) None "content" "content update request is required", r)
  | Some req =>
    let reject message := rejectedAck (ag_Config r) (cq_Context req) "content" message in
    match validateControlContext (cq_Context req) r with
    | Some e => (reject e, r)
    | None =>
      match (Apply (cq_ContentJson req) (cq_AllowUnsigned req) true NoFault (ag_content r)).1 with
      | Err e => (reject e, r)
      | Ok record =>
        if cq_DryRun req then (contentAck (ag_Config r) req record [] "validated", r)
        else
          let '(outcome, r) := applyContentTransaction env req r in
          match outcome with
          | inr ack => (ack, r)
          | inl (record, report, status) => (contentAck (ag_Config r) req record (rep_Warnings report) status, r)
          end
      end
    end
  end.

(** ** Telemetry policies *)

Definition validateTelemetryPolicy (policy : TelemetryPolicy) : option string :=
  match ResolveTelemetry DefaultTelemetryConfig (Some policy) with Err e => Some e | Ok _ => None end.

Definition telemetryPolicyFromRequest (req : ApplyPolicyRequest) (fallback : option TelemetryPolicy) : result (option TelemetryPolicy) :=
  match (match pq_Telemetry req with Some t => Some t | None => fallback end) with
  | None => Ok None
  | Some policy => match validateTelemetryPolicy policy with Some e => Err e | None => Ok (Some policy) end
  end.

Definition persistTelemetryPolicy (env : Env) (policy : TelemetryPolicy) (r : AgentRuntime) : option string * AgentRuntime :=
  match ResolveTelemetry (cfg_Telemetry (ag_Config r)) (Some policy) with
  | Err e => (Some e, r)
  | Ok effective =>
    match ag_localStore r with
    | None => (None, r <| ag_effectiveTelemetry := effective |>)
    | Some _ =>
      let endpoint := (ag_endpointPolicy r) <| epol_Telemetry := policy |> <| epol_Version ::= λ v, u64 (v + 1) |> in
      let '(failed, r) := persistEndpointPolicy env endpoint r in
      match failed with Some e => (Some e, r) | None => (None, r <| ag_effectiveTelemetry := effective |>) end
    end
  end.

Definition applyTelemetryConfig (policy : TelemetryPolicy) (r : AgentRuntime) : AgentRuntime :=
  match ResolveTelemetry (cfg_Telemetry (ag_Config r)) (Some policy) with
  | Ok effective => r <| ag_effectiveTelemetry := effective |>
  | Err _ => r
  end.

(** The policy in the document of a request, if there is one *)
Definition telemetry_document (text : string) : result (option TelemetryPolicy) :=
  if bool_decide (TrimSpace text = "") then Ok None
  else
    members ← with_context "invalid telemetry policy json: " (decode_members text);
    policy ← with_context "invalid telemetry policy json: " (decode_telemetry (default text ((members : gmap string string) !! "telemetry")));
    mret (Some policy).

Definition applyTelemetryPolicy (env : Env) (req : ApplyPolicyRequest) (r : AgentRuntime) : AgentAck * AgentRuntime :=
  let reject message := rejectedAck (ag_Config r) (pq_Context req) "telemetry" message in
  match fallback ← telemetry_document (pq_PolicyJson req); telemetryPolicyFromRequest req fallback with
  | Err e => (reject e, r)
  | Ok None => (reject "telemetry policy is required", r)
  | Ok (Some policy) =>
    if pq_DryRun req then (telemetryAck (ag_Config r) (pq_Context req) "validated" "telemetry policy accepted in dry-run" policy, r)
    else
      let '(failed, r) := persistTelemetryPolicy env policy r in
      match failed with
      | Some e => (reject e, r)
      | None =>
        let r := applyTelemetryConfig policy r in
        (telemetryAck (ag_Config r) (pq_Context req) "applied" "telemetry policy applied" policy, reconfigure (env_now env) (ag_effectiveTelemetry r) r)
      end
  end.

(** ** Collection policies *)

Definition EffectiveScope (cfg : Config) : result (string * string) := NormalizeScope (cfg_ScopeType cfg) (cfg_ScopeSelector cfg).

(** The scope of a policy that has none: the one of the request, or the one
    the agent is configured with *)
Definition policy_scope (req : ApplyPolicyRequest) (policy : CollectionPolicy) (r : AgentRuntime) : CollectionPolicy :=
  let scoped (scope : string * string) := policy <| col_ScopeType := scope.1 |> <| col_ScopeSelector := scope.2 |> in
  if negb (bool_decide (col_ScopeType policy = "")) then policy
  else if negb (bool_decide ((requestScope (pq_Context req)).1 = "")) then scoped (requestScope (pq_Context req))
  else match EffectiveScope (ag_Config r) with Ok scope => scoped scope | Err _ => policy end.

Definition applyCollectionPolicy (env : Env) (req : ApplyPolicyRequest) (r : AgentRuntime) : AgentAck * AgentRuntime :=
  let cfg := ag_Config r in
  let reject message := rejectedAck cfg (pq_Context req) "collection" message in
  match ParseCollectionPolicyJSON (pq_PolicyJson req) (cfg_ObserveOnly cfg) with
  | Err e => (reject ("invalid collection policy: " +:+ e), r)
  | Ok policy =>
    match ExpandCollectionPolicyRefs (policy_scope req policy r) (collectionContentSnapshot (GetSnapshot (ag_content r))) with
    | Err e => (reject ("resolve collection policy refs: " +:+ e), r)
    | Ok (policy, resolved) =>
      match CollectionPolicyIntent policy with
      | Err e => (reject ("compile collection policy: " +:+ e), r)
      | Ok intent =>
        let compiled := (TetragonPolicy.CompileReport intent) <| TetragonPolicy.ccr_ResolvedRefs := resolved |> in
        let ack status message coverage := collectionAck cfg (pq_Context req) policy status message compiled coverage in
        let checked := (new_engine r (pol_Detection (activePolicy r)) (withCollectionCapabilities r intent) (detectionContentSnapshot r)).2 in
        if negb (length (TetragonPolicy.ccr_UnsupportedSelectors compiled) =? 0)%nat
        then (ack "rejected" "collection policy contains unsupported selectors" None, r)
        else if pq_DryRun req then
          (if bool_decide (rep_Status checked = "degraded")
           then ack "degraded" ("collection policy accepted in dry-run; detection dependencies degraded: " +:+ join_messages (rep_Warnings checked)) (Some (rep_Coverage checked))
           else ack "validated" "collection policy accepted in dry-run" (Some (rep_Coverage checked)), r)
        else
          let '(failed, r1) := apply_intent (env_apply env) intent r in
          match failed with
          | Some e => (reject ("apply collection policy: " +:+ e), r1)
          | None =>
            let '(failed, r2) :=
              match ag_localStore r1 with
              | None => (None, r1)
              | Some _ => persistEndpointPolicy env ((ag_endpointPolicy r1) <| epol_Collection := policy |> <| epol_Version ::= λ v, u64 (v + 1) |>) r1
              end in
            match failed with
            | Some e => (ack "rejected" ("persist collection policy: " +:+ e) None, (apply_intent (env_reapply env) (ag_collection r2) r2).2)
            | None =>
              let r3 := setCollectionIntent intent r2 in
              let '(engine, report) := new_engine r3 (pol_Detection (PolicyModel.Normalize (env_now env) (activePolicy r3))) intent (detectionContentSnapshot r3) in
              let r4 := r3 <| ag_detection := Some engine |> in
              (if bool_decide (rep_Status report = "degraded")
               then ack "degraded" ("collection policy applied; detection dependencies degraded: " +:+ join_messages (rep_Warnings report)) (Some (rep_Coverage report))
               else ack "applied" "collection policy applied" (Some (rep_Coverage report)), r4)
            end
          end
      end
    end
  end.

(** ** Detection policies *)

Definition detection_document (text : string) : result DetectionPolicy :=
  match decode_detection_member text with
  | Ok (Some policy) => Ok policy
  | _ => decode_detection text
  end.

Definition applyDetectionPolicy (env : Env) (req : ApplyPolicyRequest) (r : AgentRuntime) : AgentAck * AgentRuntime :=
  match detection_document (pq_PolicyJson req) with
  | Err e => (rejectedAck (ag_Config r) (pq_Context req) "detection" ("invalid detection policy json: " +:+ e), r)
  | Ok next =>
    let next := NormalizeDetectionPolicy next in
    let '(engine, report) := new_engine r (Some next) (ag_collection r) (detectionContentSnapshot r) in
    let active := (PolicyModel.Normalize (env_now env) (activePolicy r)) <| pol_Detection := Some next |> in
    let ack status message := detectionAck (ag_Config r) (pq_Context req) active status message report in
    let status := setDetectionStatus (env_now env) active report (GetSnapshot (ag_content r)) in
    if pq_DryRun req then (ack (rep_Status report) ("detection policy accepted in dry-run: " +:+ rep_Message report), r)
    else if is_rejected report then (ack "rejected" ("detection policy rejected: " +:+ join_messages (rep_Details report)), status r)
    else
      let '(failed, r1) :=
        match ag_localStore r with
        | None => (None, r)
        | Some _ => persistEndpointPolicy env ((ag_endpointPolicy r) <| epol_Detection := next |> <| epol_Version ::= λ v, u64 (v + 1) |>) r
        end in
      match failed with
      | Some e => (ack "rejected" ("persist detection policy: " +:+ e), r1)
      | None => (ack (rep_Status report) (rep_Message report), status (r1 <| ag_policy := active |> <| ag_detection := Some engine |>))
      end
  end.

(** ** Endpoint policies ([endpoint_policy_control.go]) *)

Record preparedEndpointPolicy := MkPrepared {
  pp_policy : EndpointPolicy;
  pp_intent : CollectionIntent;
  pp_runtime : PolicyDoc;
  pp_detection : Engine;
  pp_report : ApplyReport;
  pp_telemetry : EffectiveTelemetry;
  pp_compile : TetragonPolicy.CollectionCompileReport
}.

Definition endpointRuntimePolicy (tenantID : string) (endpoint : EndpointPolicy) : PolicyDoc :=
  (PolicyModel.DefaultPolicy tenantID) <| pol_PolicyID := epol_PolicyID endpoint |> <| pol_Version := epol_Version endpoint |>
    <| pol_Detection := Some (epol_Detection endpoint) |> <| pol_Telemetry := Some (epol_Telemetry endpoint) |> <| pol_Response := epol_Response endpoint |>.

Definition errRejectedDetection (details : list Msg) : string := "detection policy rejected: " +:+ join_messages details.

Definition prepareEndpointPolicy (document : string) (r : AgentRuntime) : result preparedEndpointPolicy :=
  parsed ← ParseEndpointPolicy document;
  expanded ← ExpandCollectionPolicyRefs (epol_Collection parsed) (collectionContentSnapshot (GetSnapshot (ag_content r)));
  let '(collection, resolved) := (expanded : CollectionPolicy * CollectionExpansionReport) in
  let policy := parsed <| epol_Collection := collection |> in
  intent ← CollectionPolicyIntent collection;
  let compiled := (TetragonPolicy.CompileReport intent) <| TetragonPolicy.ccr_ResolvedRefs := resolved |> in
  if negb (length (TetragonPolicy.ccr_UnsupportedSelectors compiled) =? 0)%nat
  then Err ("unsupported collection selectors: " +:+ show_selectors (TetragonPolicy.ccr_UnsupportedSelectors compiled))
  else
    effective ← ResolveTelemetry (cfg_Telemetry (ag_Config r)) (Some (epol_Telemetry policy));
    let runtime := endpointRuntimePolicy (cfg_TenantID (ag_Config r)) policy in
    let '(engine, report) := new_engine r (pol_Detection runtime) (withCollectionCapabilities r intent) (detectionContentSnapshot r) in
    if is_rejected report then Err (errRejectedDetection (rep_Details report))
    else Ok (MkPrepared policy intent runtime engine report effective compiled).

Definition commitEndpointPolicy (env : Env) (prepared : preparedEndpointPolicy) (r : AgentRuntime) : AgentRuntime :=
  let r := setCollectionIntent (pp_intent prepared) r in
  let r := r <| ag_policy := pp_runtime prepared |> <| ag_detection := Some (pp_detection prepared) |> in
  let r := setDetectionStatus (env_now env) (pp_runtime prepared) (pp_report prepared) (GetSnapshot (ag_content r)) r in
  reconfigure (env_now env) (pp_telemetry prepared) (r <| ag_effectiveTelemetry := pp_telemetry prepared |>).

Definition applyEndpointPolicy (env : Env) (req : ApplyPolicyRequest) (r : AgentRuntime) : AgentAck * AgentRuntime :=
  let reject section message := rejectedAck (ag_Config r) (pq_Context req) section message in
  match prepareEndpointPolicy (pq_PolicyJson req) r with
  | Err e => (reject "policy" e, r)
  | Ok prepared =>
    let ack status message := appliedAck (ag_Config r) (pq_Context req) (pp_runtime prepared) status message true in
    if pq_DryRun req then (ack "validated" "endpoint policy accepted in dry-run", r)
    else
      let previous := ag_collection r in
      let '(failed, r) := apply_intent (env_apply env) (pp_intent prepared) r in
      match failed with
      | Some e => (reject "collection" ("apply collection policy: " +:+ e), r)
      | None =>
        let '(failed, r) := persistEndpointPolicy env (pp_policy prepared) r in
        match failed with
        | Some e => (reject "policy" ("persist endpoint policy: " +:+ e), (apply_intent (env_reapply env) previous r).2)
        | None => (ack (rep_Status (pp_report prepared)) "endpoint policy applied", commitEndpointPolicy env prepared r)
        end
      end
  end.

Definition ApplyPolicy (env : Env) (req : ApplyPolicyRequest) (r : AgentRuntime) : AgentAck * AgentRuntime :=
  let reject message := rejectedAck (ag_Config r) (pq_Context req) "policy" message in
  match validateControlContext (pq_Context req) r with
  | Some e => (reject e, r)
  | None =>
    let policyType := if bool_decide (TrimSpace (pq_PolicyType req) = "") then "endpoint" else TrimSpace (pq_PolicyType req) in
    if bool_decide (policyType = "collection") then applyCollectionPolicy env req r
    else if bool_decide (policyType = "detection") then applyDetectionPolicy env req r
    else if bool_decide (policyType = "telemetry") then applyTelemetryPolicy env req r
    else if bool_decide (policyType = "endpoint") then applyEndpointPolicy env req r
    else (reject ("unsupported policy type " +:+ Quote policyType), r)
  end.

(** ** Identity ([runtime_identity.go]) *)

Definition setRuntimeIdentity (identity : runtimeIdentity) (r : AgentRuntime) : AgentRuntime :=
  r <| ag_identity := identity |>
    <| ag_standaloneIdentity := identity when bool_decide (ri_AgentID (ag_standaloneIdentity r) = "") |>
    <| ag_normalizer ::= fmap (Normalize.SetIdentity (ri_AgentID identity) (ri_HostID identity) (ri_TenantID identity)) |>.

Definition standaloneRuntimeIdentity (r : AgentRuntime) : runtimeIdentity :=
  if bool_decide (ri_AgentID (ag_standaloneIdentity r) = "")
  then MkRuntimeIdentity (cfg_AgentID (ag_Config r)) (cfg_HostID (ag_Config r)) (cfg_TenantID (ag_Config r)) else ag_standaloneIdentity r.

Definition applyEnrollmentIdentity (now : Time) (enrollment : LocalStore.Enrollment) (r : AgentRuntime) : AgentRuntime :=
  let identity := standaloneRuntimeIdentity r in
  let identity :=
    match LocalStore.en_State enrollment with
    | LocalStore.StateManaged => MkRuntimeIdentity (LocalStore.en_AgentID enrollment) (ri_HostID identity) (LocalStore.en_TenantID enrollment)
    | LocalStore.StateStandalone => identity
    end in
  let r := if bool_decide (identity = currentIdentity r) then r else r <| ag_batcher ::= fmap (Batcher.Flush now "identity") |> in
  setRuntimeIdentity identity r.

Definition setNormalizer (n : Normalize.Normalizer) (r : AgentRuntime) : AgentRuntime :=
  let identity := currentIdentity r in
  r <| ag_normalizer := Some (Normalize.SetIdentity (ri_AgentID identity) (ri_HostID identity) (ri_TenantID identity) n) |>.

(** ** Starting *)

(** [override]: the variable SYSARMOR_TEST_MATCHER_STRATEGY *)
Definition applyRuntimeFeatureFlags (flag override : string) : result Health.RuntimeFeatureFlags :=
  let strategy := ToLower (TrimSpace flag) in
  let strategy := if bool_decide (strategy = "") then "linear" else strategy in
  let strategy := if bool_decide (TrimSpace override = "") then strategy else ToLower (TrimSpace override) in
  if bool_decide (strategy ∈ ["linear"; "optimized"]) then Ok (Health.MkRuntimeFeatureFlags strategy)
  else Err ("runtime.feature_flags.matcher_strategy: unsupported value " +:+ Quote strategy).

(** The identity of the device where the configuration has none *)
Definition complete_config (store : option LocalStore.Store) (cfg : Config) : result Config :=
  match store with
  | None => Ok cfg
  | Some store =>
    match LocalStore.m_identity (LocalStore.d_meta (LocalStore.s_disk store)) with
    | None => Err "load device identity: no rows in result set"
    | Some device =>
      let or_else (given other : string) := if bool_decide (given = "") then other else given in
      Ok (MkConfig (or_else (cfg_AgentID cfg) (LocalStore.di_DeviceID device)) (or_else (cfg_HostID cfg) (LocalStore.di_HostID device))
            (or_else (cfg_TenantID cfg) "local") (cfg_Labels cfg) (cfg_ScopeType cfg) (cfg_ScopeSelector cfg) (cfg_ObserveOnly cfg)
            (cfg_Telemetry cfg) (cfg_Limits cfg) (cfg_PolicyPath cfg) (cfg_SensorPolicyPath cfg))
    end
  end.

Definition zero_policy : PolicyDoc :=
  MkPolicyDoc "" 0 "" (MkScopeSelector "" "") None None None [] [] "" None None (MkResponsePolicy [] [] false 0 [] false) false zero_time zero_time.
Definition zero_detection_policy : DetectionPolicy := MkDetectionPolicy "" 0 "" (MkScopeSelector "" "") [] [] [] [].
Definition zero_endpoint_policy : EndpointPolicy :=
  MkEndpointPolicy "" 0 (MkCollectionPolicy "" 0 [] [] [] [] [] [] [] "" "" false) zero_detection_policy (MkTelemetryPolicy 0 0 "") (MkResponsePolicy [] [] false 0 [] false).

Definition New (cfg : Config) (flags : Health.RuntimeFeatureFlags) (content : Store) (store : option LocalStore.Store) : result AgentRuntime :=
  cfg ← complete_config store cfg;
  let identity := MkRuntimeIdentity (cfg_AgentID cfg) (cfg_HostID cfg) (cfg_TenantID cfg) in
  mret (MkAgentRuntime cfg [] store identity identity None None zero_endpoint_policy (MkEffectiveTelemetry 0 0 0) zero_policy None zero_CollectionIntent
          content flags (Health.MkDetectionHealth "" 0 [] "" (Health.MkRuntimeFeatureFlags "") "" "" zero_time)
          (from_option (λ s, LocalStore.cur_Signal (LocalStore.s_cursor s)) 0%Z store) []).

(** [parseTrustKeys] *)
Definition trust_key (item : string) : option (string * string) :=
  let item := TrimSpace item in
  if bool_decide (item = "") then None
  else
    let '(keyID, encoded, found) := Cut item "="%char in
    let keyID := TrimSpace keyID in
    let encoded := TrimSpace encoded in
    if negb found || bool_decide (keyID = "") || bool_decide (encoded = "") then None
    else match decode_base64 encoded with
    | Ok data => if (String.length data =? public_key_size)%nat then Some (keyID, data) else None
    | Err _ => None
    end.

Definition parseTrustKeys (raw : string) : gmap string string :=
  foldl (λ out item, match trust_key item with Some (keyID, data) => <[keyID := data]> out | None => out end) ∅ (split_byte ","%char raw).

(** [defaultFiles], [files]: the two directories *)
Definition newContentStore (defaultPath path trustKeys : string) (defaultFiles files : gmap string string) : result Store :=
  if bool_decide (TrimSpace defaultPath = "") then NewStoreWithOptions path (parseTrustKeys trustKeys) files
  else OpenLayered defaultPath path (parseTrustKeys trustKeys) defaultFiles files.

(** [read] reads a file of the configuration. *)
Definition loadLegacyRuntimePolicy (read : string → result string) (r : AgentRuntime) : result (CollectionIntent * PolicyDoc * EffectiveTelemetry) :=
  intent ← LoadCollectionIntent read (cfg_SensorPolicyPath (ag_Config r)) (cfg_ObserveOnly (ag_Config r));
  let policy := activePolicy r in
  effective ← ResolveTelemetry (cfg_Telemetry (ag_Config r)) (pol_Telemetry policy);
  mret (intent, policy, effective).

Definition loadStartupPolicy (env : Env) (read : string → result string) (r : AgentRuntime)
    : result (CollectionIntent * PolicyDoc * EffectiveTelemetry) * AgentRuntime :=
  match ag_localStore r with
  | None => (loadLegacyRuntimePolicy read r, r)
  | Some store =>
    let '(loaded, store) := LoadEffectiveEndpointPolicy read (env_now env) (cfg_PolicyPath (ag_Config r)) store in
    let r := r <| ag_localStore := Some store |> in
    match loaded with
    | Err e => (Err e, r)
    | Ok endpoint =>
      match intent ← CollectionPolicyIntent (epol_Collection endpoint);
            effective ← ResolveTelemetry (cfg_Telemetry (ag_Config r)) (Some (epol_Telemetry endpoint));
            mret (intent, effective) with
      | Err e => (Err e, r)
      | Ok (intent, effective) =>
        (Ok (intent, endpointRuntimePolicy (cfg_TenantID (ag_Config r)) endpoint, effective),
         r <| ag_endpointPolicy := endpoint |> <| ag_effectiveTelemetry := effective |>)
      end
    end
  end.

Definition applyStartupDetection (now : Time) (policy : PolicyDoc) (r : AgentRuntime) : option string * AgentRuntime :=
  let '((report, accepted), r) := tryApplyRuntimePolicy now policy r in
  if accepted then (None, r) else (Some (rep_Message report +:+ ": " +:+ join_messages (rep_Details report)), r).

Definition cloneStringMap (labels : gmap string string) : gmap string string := Normalize.cloneLabels labels.

Definition runtimeLabels (backend scopeType scopeSelector : string) (r : AgentRuntime) : gmap string string :=
  let add (key value : string) (m : gmap string string) := if bool_decide (value = "") then m else <[key := value]> m in
  add "scope_selector" scopeSelector (add "scope_type" scopeType (add "sensor_runtime" backend (cloneStringMap (cfg_Labels (ag_Config r))))).

(** [Run] up to its loop: [backend] and [capability] are what the sensor
    reports, [queue] the capacity of the batcher.  An error is returned with
    the state in which it leaves the agent; failures of probing the sensor, of
    subscribing to it, of the sender and of the local socket are not
    modelled. *)
Definition startup (env : Env) (read : string → result string) (backend : string) (capability : list CollectionBehaviorCapability) (queue : Z) (r : AgentRuntime)
    : option string * AgentRuntime :=
  let r := r <| ag_capability := capability |> in
  let '(loaded, r) := loadStartupPolicy env read r in
  match loaded with
  | Err e => (Some e, r)
  | Ok (intent, policy, effective) =>
    let r := r <| ag_effectiveTelemetry := effective |> in
    match EffectiveScope (ag_Config r) with
    | Err e => (Some e, r)
    | Ok (scopeType, scopeSelector) =>
      let intent := WithScope intent scopeType scopeSelector in
      let r := setCollectionIntent intent r in
      let '(failed, r) := applyStartupDetection (env_now env) policy r in
      match failed with
      | Some e => (Some e, r)
      | None =>
        let '(failed, r) := apply_intent (env_apply env) intent r in
        match failed with
        | Some e => (Some e, r)
        | None =>
          let batcher := Batcher.NewBatcher (et_MaxBatchItems effective) (et_FlushInterval effective) queue (et_MaxBatchBytes effective) in
          let options := Normalize.MkOptions (cfg_TenantID (ag_Config r)) scopeType scopeSelector (runtimeLabels backend scopeType scopeSelector r)
            (from_option (λ s, LocalStore.cur_Event (LocalStore.s_cursor s)) 0%Z (ag_localStore r)) in
          let n := Normalize.NewWithOptions (cfg_AgentID (ag_Config r)) (cfg_HostID (ag_Config r)) None options in
          let r := setNormalizer n (r <| ag_batcher := Some batcher |>) in
          match match ag_localStore r with
                | None => Ok r
                | Some store => enrollment ← LocalStore.GetEnrollment store; mret (applyEnrollmentIdentity (env_now env) enrollment r)
                end with
          | Err e => (Some e, r)
          | Ok r => (None, (tryApplyRuntimePolicy (env_now env) policy r).2)
          end
        end
      end
    end
  end.

(** ** Events *)

Definition policyLabels (r : AgentRuntime) : gmap string string :=
  let policy := activePolicy r in
  let add (b : bool) (key value : string) (m : gmap string string) := if b then <[key := value]> m else m in
  add (negb (bool_decide (pol_Mode policy = ""))) "policy_mode" (pol_Mode policy)
    (add (0 <? pol_Version policy)%Z "policy_version" (FormatUint (pol_Version policy))
       (add (negb (bool_decide (pol_PolicyID policy = ""))) "policy_id" (pol_PolicyID policy) ∅)).

(** Later keys win over earlier ones. *)
Definition mergeLabels (base extra : gmap string string) : gmap string string :=
  foldl (λ out key, if bool_decide (TrimSpace key = "") then out
                    else <[TrimSpace key := default "" (extra !! key)]> out) (cloneStringMap base) (range_keys extra).

Definition newDataBatch (now : Time) (r : AgentRuntime) : DataBatch :=
  let identity := currentIdentity r in
  let policy := activePolicy r in
  MkDataBatch (Some (MkBatchHeader "" (ri_TenantID identity) (ri_AgentID identity) (ri_HostID identity) (pol_PolicyID policy) (pol_Version policy)
    (pol_Mode policy) 0 0 0 0 0 0 0 0 (UnixNano now) (policyLabels r ∪ cloneStringMap (cfg_Labels (ag_Config r))))) [] [] "".

Definition nextSignalSequence (r : AgentRuntime) : Z * AgentRuntime :=
  let sequence := u64 (ag_signalSeq r + 1) in (sequence, r <| ag_signalSeq := sequence |>).

Definition setEndpointSignalID (sequence : Z) (signal : Signal) : Signal :=
  let id := "sig-" +:+ Sprintf_020d sequence in
  signal <| sig_Id := id |> <| sig_Evidence ::= fmap (λ e, e <| evb_Id := "evb-" +:+ id |>) |>.

(** A frame for each signal, numbered one after the other; [named] says
    whether the signal takes its identifier from the number *)
Fixpoint signal_frames (now : Time) (named : bool) (signals : list Signal) (r : AgentRuntime) : list SignalFrame * AgentRuntime :=
  match signals with
  | [] => ([], r)
  | signal :: signals' =>
    let '(sequence, r) := nextSignalSequence r in
    let signal := if named then setEndpointSignalID sequence signal else signal in
    let '(frames, r) := signal_frames now named signals' r in
    (MkSignalFrame sequence (format_nano now) (Some signal) :: frames, r)
  end.

Definition dataBatchForEvent (now : Time) (event : CanonicalEvent) (signals : list Signal) (r : AgentRuntime) : DataBatch * AgentRuntime :=
  let batch := newDataBatch now r in
  let '(frames, r) := signal_frames now true signals r in
  (MkDataBatch (db_Header batch) [MkEventFrame (ev_Seq event) (format_nano now) (Some event)] frames (db_SchemaVersion batch), r).

Definition dataBatchForSignals (now : Time) (signals : list Signal) (r : AgentRuntime) : DataBatch * AgentRuntime :=
  let batch := newDataBatch now r in
  let '(frames, r) := signal_frames now false signals r in
  (MkDataBatch (db_Header batch) [] frames (db_SchemaVersion batch), r).

(** [wall] and [elapsed] are the clock of the engine. *)
Definition ProcessEvent (now : Time) (wall : string → Z) (elapsed : Z) (ev : option Normalize.SensorEvent) (rawRef : string) (r : AgentRuntime)
    : result DataBatch * AgentRuntime :=
  match ag_normalizer r, ev with
  | None, _ => (Err "endpoint runtime is not initialized", r)
  | Some _, None => (Err "sensor event is nil", r)
  | Some n, Some ev =>
    let ev := ev <| Normalize.se_RawRef := rawRef when bool_decide (Normalize.se_RawRef ev = "") |> in
    let '(canonical, n) := Normalize.NormalizeEvent ev n in
    let canonical := canonical <| ev_Labels := mergeLabels (ev_Labels canonical) (policyLabels r) |> in
    let '(signals, engine) := Process wall elapsed (Some canonical) (currentDetection r) in
    let r := r <| ag_normalizer := Some n |> <| ag_detection ::= fmap (λ _, engine) |> in
    let '(batch, r) := dataBatchForEvent now canonical signals r in
    (Ok batch, r)
  end.

Definition ProcessSignals (now : Time) (signals : list Signal) (r : AgentRuntime) : DataBatch * AgentRuntime := dataBatchForSignals now signals r.

(** ** Frames of the control connection ([transport_runtime.go]) *)

Definition executeResponse (now : Time) (enforce : EnforcementCmd → result EnforcementAck) (cmd : Command) (r : AgentRuntime) : Ack :=
  let cmd := NormalizeCommand now cmd in
  let cmd := cmd <| cmd_Mode := DefaultMode when bool_decide (cmd_Mode cmd = "") |> in
  let tenant := cfg_TenantID (ag_Config r) in
  let agent := cfg_AgentID (ag_Config r) in
  if negb (bool_decide (cmd_Mode cmd = "enforce")) then
    MkAck (cmd_ResponseID cmd) tenant agent true false true false
      ("observe-only response accepted; would execute action=" +:+ cmd_Action cmd +:+ " target=" +:+ cmd_Target cmd) now
  else
    let ack := match enforce (ToEnforcement cmd) with Ok ack => ack | Err e => UnsupportedAck (ToEnforcement cmd) e end in
    (FromEnforcementAck now cmd ack) <| rack_TenantID := tenant |> <| rack_AgentID := agent |>.

Definition evidenceKindFromTarget (target : string) : string :=
  let '(kind, _, found) := Cut target ":"%char in
  if found && negb (bool_decide (kind = "")) then kind else "entity".

Definition collectEvidencePullback (now : Time) (req : EvidencePullbackRequest) (r : AgentRuntime) : EvidencePullbackResult :=
  let result ok message evidence :=
    MkEvidencePullbackResult (ep_RequestID req) (cfg_TenantID (ag_Config r)) (cfg_AgentID (ag_Config r)) ok message evidence now in
  if bool_decide (ep_Target req = "") then result true "collected no target evidence" ""
  else match marshal_subgraph (ep_Target req) (evidenceKindFromTarget (ep_Target req)) (ep_Target req) with
  | Err e => result false ("encode evidence: " +:+ e) ""
  | Ok data => result true "collected target evidence" data
  end.

Definition responseCommandFromControl (msg : option GatewayControl.ResponseCommandMsg) : result Command :=
  match msg with
  | None => Err "control frame missing response_command"
  | Some m =>
    if negb (bool_decide (GatewayControl.rm_RawJson m = ""))
    then with_context "decode control frame response command raw_json: " (decode_command (GatewayControl.rm_RawJson m))
    else Ok (MkCommand (GatewayControl.rm_ResponseId m) (GatewayControl.rm_TenantId m) (GatewayControl.rm_AgentId m) (GatewayControl.rm_PolicyId m)
      (GatewayControl.rm_PolicyVersion m) (GatewayControl.rm_SignalId m) (GatewayControl.rm_Labels m)
      (MkScope (GatewayControl.sm_Type (GatewayControl.rm_Scope m)) (GatewayControl.sm_Selector (GatewayControl.rm_Scope m)))
      (GatewayControl.rm_Action m) (GatewayControl.rm_Mode m) (GatewayControl.rm_Target m) (GatewayControl.rm_Reason m) (GatewayControl.rm_Status m)
      (GatewayControl.rm_Actor m) (GatewayControl.rm_ApprovalRequired m) (GatewayControl.rm_ApprovalStatus m) (GatewayControl.rm_ApprovalThreshold m)
      (GatewayControl.rm_ApprovalRoles m) [] "" zero_time zero_time zero_time)
  end.

Definition evidencePullbackFromControl (msg : option GatewayControl.EvidencePullbackMsg) : result EvidencePullbackRequest :=
  match msg with
  | None => Err "control frame missing evidence_pullback"
  | Some m =>
    if negb (bool_decide (GatewayControl.pm_RawJson m = ""))
    then with_context "decode control frame evidence pullback raw_json: " (decode_pullback (GatewayControl.pm_RawJson m))
    else Ok (MkEvidencePullbackRequest (GatewayControl.pm_RequestId m) (GatewayControl.pm_TenantId m) (GatewayControl.pm_AgentId m)
      (GatewayControl.pm_IncidentId m) (GatewayControl.pm_Labels m) (GatewayControl.pm_Target m) (GatewayControl.pm_Reason m) (GatewayControl.pm_Status m)
      false "" (GatewayControl.pm_Actor m) zero_time zero_time zero_time)
  end.

Definition contentUpdateFromControlFrame (frame : GatewayControl.ControlFrame) : ApplyContentRequest :=
  let outer := GatewayControl.cf_Context frame in
  let zero := GatewayControl.MkRequestContext "" "" "" None in
  let update := GatewayControl.cf_ContentUpdate frame in
  let ctx := match update with Some u => GatewayControl.ac_Context u | None => default zero outer end in
  let or_else (given other : string) := if bool_decide (given = "") then other else given in
  MkApplyContentRequest
    (Some (GatewayControl.MkRequestContext (or_else (GatewayControl.rq_RequestId ctx) (GatewayControl.cf_RequestId frame))
       (or_else (GatewayControl.rq_TenantId ctx) (from_option GatewayControl.rq_TenantId "" outer))
       (or_else (GatewayControl.rq_AgentId ctx) (from_option GatewayControl.rq_AgentId "" outer))
       (match GatewayControl.rq_Scope ctx with Some s => Some s | None => outer ≫= GatewayControl.rq_Scope end)))
    (from_option GatewayControl.ac_ContentJson "" update) false (from_option GatewayControl.ac_AllowUnsigned false update).

Definition bindControlAckIdentity (ack : AgentAck) (r : AgentRuntime) : AgentAck :=
  let k := aa_Ack ack in
  let identity := currentIdentity r in
  MkAgentAck (GatewayControl.MkControlAck (GatewayControl.ka_RequestId k) (ri_TenantID identity) (ri_AgentID identity) (GatewayControl.ka_Status k)
    (GatewayControl.ka_Message k) (GatewayControl.ka_PolicyId k) (GatewayControl.ka_PolicyVersion k) (GatewayControl.ka_ReportJson k))
    (aa_Details ack) (aa_Sections ack).

(** What the agent sends back *)
Inductive control_reply :=
| ReplyNone
| ReplyAck (ack : AgentAck)
| ReplyResponse (ack : Ack)
| ReplyEvidence (res : EvidencePullbackResult).

Definition handleControlFrame (env : Env) (enforce : EnforcementCmd → result EnforcementAck) (frame : GatewayControl.ControlFrame) (r : AgentRuntime)
    : result control_reply * AgentRuntime :=
  let ty := GatewayControl.cf_Type frame in
  if bool_decide (ty = "ack") then
    (if bool_decide (from_option GatewayControl.ka_Status "" (GatewayControl.cf_Ack frame) = "rejected")
     then Err ("control channel request rejected: " +:+ from_option GatewayControl.ka_Message "" (GatewayControl.cf_Ack frame)) else Ok ReplyNone, r)
  else if bool_decide (ty = "policy_update") then
    let ctx := match GatewayControl.cf_Context frame with Some c => c | None => GatewayControl.MkRequestContext (GatewayControl.cf_RequestId frame) "" "" None end in
    let '(ack, r) := applyEndpointPolicy env
      (MkApplyPolicyRequest (Some ctx) "endpoint" (from_option GatewayControl.pr_RawJson "" (GatewayControl.cf_PolicyUpdate frame)) false None) r in
    (Ok (ReplyAck (bindControlAckIdentity ack r)), r)
  else if bool_decide (ty = "content_update") then
    let '(ack, r) := applyContentUpdate env (Some (contentUpdateFromControlFrame frame)) r in
    (Ok (ReplyAck (bindControlAckIdentity ack r)), r)
  else if bool_decide (ty = "response_command") then
    (match responseCommandFromControl (GatewayControl.cf_ResponseCommand frame) with
     | Err e => Err e
     | Ok cmd => Ok (ReplyResponse (executeResponse (env_now env) enforce cmd r))
     end, r)
  else if bool_decide (ty = "evidence_pullback") then
    (match evidencePullbackFromControl (GatewayControl.cf_EvidencePullback frame) with
     | Err e => Err e
     | Ok req => Ok (ReplyEvidence (collectEvidencePullback (env_now env) req r))
     end, r)
  else (Ok ReplyNone, r).
End agent.
End Agent.
