(* ===== verification/AgentTheorems.v ===== *)
(** * The agent: updates and restarts

    A refused update leaves what is in force as it was.  The engine in force
    always comes from the policy and the content in force, and an agent that
    is started again on its local store and its content directory builds the
    same engine. *)

From S2P Require Import Prelude GoStrings GoBytes GoData GoSha GoText GoFloat EventModel Policy RuleSpec Validation EventView Compiled Engine DataPlane Segment LocalStore Batcher Response ControlModel PolicyModel Health Collection TetragonPolicy Normalize StoreData ContentStore ContentTheorems GatewayControl Agent.

Module AgentTheorems.
Import ContentStore EventModel Policy RuleSpec Engine DataPlane Response ControlModel PolicyModel Collection ContentTheorems Agent.

Local Arguments new_engine : simpl never.
Local Arguments detectionContentSnapshot : simpl never.
Local Arguments GetSnapshot : simpl never.
Local Arguments setDetectionStatus : simpl never.
Local Arguments TetragonPolicy.CompileReport : simpl never.
Local Arguments PolicyModel.Normalize : simpl never.
Local Arguments join_messages : simpl never.

Section theorems.
Context `{PolicyText} `{ContentText} `{Signatures} `{AgentText} `{RangeOrder}.

(** ** A refused update *)

(** What is in force: the policies, the engine, the intent, the settings of
    the telemetry, the records of the content, and the local store *)
Definition in_force (r : AgentRuntime) :=
  (ag_policy r, ag_detection r, ag_collection r, ag_endpointPolicy r, ag_effectiveTelemetry r, ct_records (ag_content r), ag_localStore r).

(** What is in force is as before; the sensor was not called, or its call
    failed, or the intent in force was applied again. *)
Definition undone (env : Env) (r r' : AgentRuntime) : Prop :=
  in_force r' = in_force r ∧
  (ag_calls r' = ag_calls r ∨ (is_Some (env_apply env) ∧ ∃ intent, ag_calls r' = intent :: ag_calls r) ∨
   ∃ intent, ag_calls r' = ag_collection r :: intent :: ag_calls r).

Lemma undone_refl env r : undone env r r.
Proof. split; [done|by left]. Qed.

Lemma undone_status env r now policy report snapshot : undone env r (setDetectionStatus now policy report snapshot r).
Proof. split; [done|by left]. Qed.

Lemma prepared_applied raw allow s record snap : Prepare raw allow s = Ok (record, snap) → rec_Status record = "applied".
Proof. by intros (env & raw' & env' & _ & _ & _ & _ & -> & _)%prepared. Qed.

Lemma commit_failed disk record s e : (Commit disk record s).1 = Some e → ct_records (Commit disk record s).2 = ct_records s.
Proof. unfold Commit. by destruct (persistLocked _ _ _) as [[e'|] s']. Qed.

Lemma persist_failed env policy r e : (persistEndpointPolicy env policy r).1 = Some e → (persistEndpointPolicy env policy r).2 = r.
Proof.
  unfold persistEndpointPolicy. destruct (ag_localStore r) as [store|]; [|done].
  destruct (SaveEffectiveEndpointPolicy _ _ _) as [[[]|e'] store']; [|done]. by destruct (env_save env).
Qed.

Lemma content_undone env req r :
  aa_Status (applyContentUpdate env req r).1 = "rejected" ∨ from_option cq_DryRun false req = true → undone env r (applyContentUpdate env req r).2.
Proof.
  unfold applyContentUpdate. destruct req as [req|]; [|intros _; apply undone_refl]. destruct (validateControlContext _ _); [intros _; apply undone_refl|].
  destruct (Apply _ _ _ _ _).1; [|intros _; apply undone_refl]. cbn [from_option]. destruct (cq_DryRun req) eqn:Hdry; [intros _; apply undone_refl|].
  intros [Hr|]; [|done]. revert Hr. unfold applyContentTransaction, commitDetectionContent.
  destruct (Prepare _ _ _) as [[record snap]|e] eqn:Hp; [|intros _; apply undone_refl]. destruct (buildDetectionWithSnapshot _ _ _) as [engine report].
  destruct (is_rejected report) eqn:Hrep; [intros _; apply undone_status|].
  pose proof (commit_failed (env_disk env) record (ag_content r)) as Hc. destruct (Commit _ _ _) as [[e|] content]; cbn.
  - intros _. split; [|by left]. specialize (Hc e eq_refl). cbn in Hc. unfold in_force. cbn. by rewrite Hc.
  - apply prepared_applied in Hp. rewrite Hp. intros Hs. exfalso. revert Hs. case_bool_decide; done.
Qed.

Lemma telemetry_undone env req r :
  aa_Status (applyTelemetryPolicy env req r).1 = "rejected" ∨ pq_DryRun req = true → undone env r (applyTelemetryPolicy env req r).2.
Proof.
  unfold applyTelemetryPolicy. destruct (telemetry_document _ ≫= _) as [[policy|]|e]; [|intros _; apply undone_refl..].
  destruct (pq_DryRun req); [intros _; apply undone_refl|]. intros [Hr|]; [|done]. revert Hr.
  unfold persistTelemetryPolicy. destruct (ResolveTelemetry _ _) as [effective|e]; [|intros _; apply undone_refl].
  destruct (ag_localStore r); [|done].
  match goal with |- context [persistEndpointPolicy env ?p r] => pose proof (persist_failed env p r) as Hp; destruct (persistEndpointPolicy env p r) as [[e|] r'] end.
  - intros _. cbn in *. rewrite (Hp e eq_refl). apply undone_refl.
  - done.
Qed.

Lemma detection_undone env req r :
  aa_Status (applyDetectionPolicy env req r).1 = "rejected" ∨ pq_DryRun req = true → undone env r (applyDetectionPolicy env req r).2.
Proof.
  unfold applyDetectionPolicy. destruct (detection_document _) as [next|e]; [|intros _; apply undone_refl].
  destruct (new_engine _ _ _ _) as [engine report] eqn:Hn. destruct (pq_DryRun req); [intros _; apply undone_refl|]. intros [Hr|]; [|done]. revert Hr.
  destruct (is_rejected report) eqn:Hrep; [intros _; apply undone_status|]. unfold is_rejected in Hrep. apply bool_decide_eq_false_1 in Hrep.
  assert (∀ cfg ctx policy message, aa_Status (detectionAck cfg ctx policy (rep_Status report) message report) ≠ "rejected") as Hok.
  { intros. cbn. by case_bool_decide. }
  destruct (ag_localStore r); [|by intros ?%Hok].
  match goal with |- context [persistEndpointPolicy env ?p r] => pose proof (persist_failed env p r) as Hp; destruct (persistEndpointPolicy env p r) as [[e|] r'] end.
  - intros _. cbn in *. rewrite (Hp e eq_refl). apply undone_refl.
  - by intros ?%Hok.
Qed.

Lemma collection_undone env req r :
  aa_Status (applyCollectionPolicy env req r).1 = "rejected" ∨ pq_DryRun req = true → undone env r (applyCollectionPolicy env req r).2.
Proof.
  unfold applyCollectionPolicy. destruct (ParseCollectionPolicyJSON _ _) as [policy|]; [|intros _; apply undone_refl].
  destruct (ExpandCollectionPolicyRefs _ _) as [[policy' refs]|]; [|intros _; apply undone_refl].
  destruct (CollectionPolicyIntent policy') as [intent|]; [|intros _; apply undone_refl]. destruct (negb _); [intros _; apply undone_refl|].
  destruct (pq_DryRun req); [intros _; by case_bool_decide; apply undone_refl|]. intros [Hr|]; [|done]. revert Hr.
  cbn [apply_intent]. destruct (env_apply env) as [e|] eqn:He; [intros _; split; [done|right; left; rewrite He; eauto]|].
  set (r1 := r <| ag_calls ::= cons intent |>). destruct (ag_localStore r1).
  - match goal with |- context [persistEndpointPolicy env ?p r1] => pose proof (persist_failed env p r1) as Hp; destruct (persistEndpointPolicy env p r1) as [[e|] r'] end.
    + intros _. cbn in Hp |- *. rewrite (Hp e eq_refl). split; [done|]. right. right. by exists intent.
    + destruct (new_engine _ _ _ _) as [engine report]. cbn. by case_bool_decide.
  - destruct (new_engine _ _ _ _) as [engine report]. cbn. by case_bool_decide.
Qed.

Lemma prepare_accepted document r prepared : prepareEndpointPolicy document r = Ok prepared → rep_Status (pp_report prepared) ≠ "rejected".
Proof.
  unfold prepareEndpointPolicy. intros (parsed & _ & (expanded & _ & Hk)%bind_Ok)%bind_Ok. destruct expanded as [collection refs].
  apply bind_Ok in Hk as (intent & _ & Hk). destruct (negb _); [done|]. apply bind_Ok in Hk as (effective & _ & Hk).
  destruct (new_engine _ _ _ _) as [engine report]. unfold is_rejected in Hk. case_bool_decide; [done|]. by injection Hk as <-.
Qed.

Lemma endpoint_undone env req r :
  aa_Status (applyEndpointPolicy env req r).1 = "rejected" ∨ pq_DryRun req = true → undone env r (applyEndpointPolicy env req r).2.
Proof.
  unfold applyEndpointPolicy. destruct (prepareEndpointPolicy _ _) as [prepared|e] eqn:Hp; [|intros _; apply undone_refl].
  destruct (pq_DryRun req); [intros _; apply undone_refl|]. intros [Hr|]; [|done]. revert Hr.
  cbn [apply_intent]. destruct (env_apply env) as [e|] eqn:He; [intros _; split; [done|right; left; rewrite He; eauto]|].
  set (r1 := r <| ag_calls ::= cons _ |>). pose proof (persist_failed env (pp_policy prepared) r1) as Hf.
  destruct (persistEndpointPolicy env (pp_policy prepared) r1) as [[e|] r']; cbn.
  - intros _. cbn in Hf. rewrite (Hf e eq_refl). split; [done|]. right. right. by eexists.
  - intros Hs. by apply prepare_accepted in Hp.
Qed.

(** C14. A refused update changes nothing: when a policy or content update is
    answered with [rejected], or was only to be checked, the policies, the
    engine, the intent, the telemetry settings, the content and the local
    store are what they were before, whatever failed on the way; and if the
    sensor had already taken a new intent, it was asked to take the one in
    force again. *)
Theorem refused_update_changes_nothing env :
  (∀ req r, let '(ack, r') := ApplyPolicy env req r in
     aa_Status ack = "rejected" ∨ pq_DryRun req = true → undone env r r') ∧
  (∀ req r, let '(ack, r') := applyContentUpdate env req r in
     aa_Status ack = "rejected" ∨ from_option cq_DryRun false req = true → undone env r r').
Proof.
  split; intros req r.
  - destruct (ApplyPolicy env req r) as [ack r'] eqn:E. unfold ApplyPolicy in E.
    destruct (validateControlContext _ _); [injection E as <- <-; intros _; apply undone_refl|]. cbv zeta in E.
    set (ty := if bool_decide (TrimSpace (pq_PolicyType req) = "") then _ else _) in E. clearbody ty.
    destruct (bool_decide (ty = "collection")); [pose proof (collection_undone env req r) as Hu; by rewrite E in Hu|].
    destruct (bool_decide (ty = "detection")); [pose proof (detection_undone env req r) as Hu; by rewrite E in Hu|].
    destruct (bool_decide (ty = "telemetry")); [pose proof (telemetry_undone env req r) as Hu; by rewrite E in Hu|].
    destruct (bool_decide (ty = "endpoint")); [pose proof (endpoint_undone env req r) as Hu; by rewrite E in Hu|].
    injection E as <- <-. intros _. apply undone_refl.
  - pose proof (content_undone env req r) as Hu. by destruct (applyContentUpdate env req r).
Qed.

(** ** The engine *)

Lemma NormalizeDetectionPolicy_idem p : NormalizeDetectionPolicy (NormalizeDetectionPolicy p) = NormalizeDetectionPolicy p.
Proof.
  unfold NormalizeDetectionPolicy. cbn. f_equal.
  - by repeat case_bool_decide.
  - destruct (dp_Version p =? 0)%Z eqn:E; cbn; [done|]. by rewrite E.
  - by repeat case_bool_decide.
  - rewrite <- list_fmap_compose. apply list_fmap_ext. intros i rs _. cbn. repeat case_bool_decide; done.
Qed.

(** The detection policy that an optional one stands for *)
Definition meant (p : option DetectionPolicy) : DetectionPolicy := NormalizeDetectionPolicy (default DefaultDetectionPolicy p).

Lemma meant_from_option p : from_option NormalizeDetectionPolicy DefaultDetectionPolicy p = meant p.
Proof. by destruct p. Qed.

Lemma meant_Normalize now policy : meant (pol_Detection (PolicyModel.Normalize now policy)) = meant (pol_Detection policy).
Proof. unfold meant, PolicyModel.Normalize. cbn. apply NormalizeDetectionPolicy_idem. Qed.

Lemma meant_idem d : meant (Some (NormalizeDetectionPolicy d)) = meant (Some d).
Proof. apply NormalizeDetectionPolicy_idem. Qed.

(** The engine, and whether it is accepted, depend on the detection policy
    and the content only. *)
Lemma new_engine_same r r' p p' c c' ct :
  ag_featureFlags r = ag_featureFlags r' → cfg_Limits (ag_Config r) = cfg_Limits (ag_Config r') → meant p = meant p' →
  (new_engine r p c ct).1 = (new_engine r' p' c' ct).1 ∧ is_rejected (new_engine r p c ct).2 = is_rejected (new_engine r' p' c' ct).2.
Proof.
  intros Hf Hl Hm. unfold new_engine, detectionLimits, NewWithRuntimeLimits. rewrite Hf, Hl, !meant_from_option, Hm.
  repeat case_bool_decide; done.
Qed.

(** The engine that the policy and the content in force give *)
Definition fresh (r : AgentRuntime) : Engine * ApplyReport :=
  new_engine r (pol_Detection (ag_policy r)) zero_CollectionIntent (detectionContentSnapshot r).

(** The engine after events *)
Inductive evolved (e0 : Engine) : Engine → Prop :=
| evolved_new : evolved e0 e0
| evolved_event wall elapsed ev e : evolved e0 e → evolved e0 (Process wall elapsed ev e).2.

(** ** Content *)

Lemma commit_is_apply raw allow disk s record snap : Prepare raw allow s = Ok (record, snap) → (Commit disk record s).2 = (Apply raw allow false disk s).2.
Proof. intros Hp. unfold Apply. rewrite Hp. by destruct (Commit disk record s) as [[]]. Qed.

Lemma prepared_snapshot raw allow s record snap disk : Prepare raw allow s = Ok (record, snap) →
  GetSnapshot (Commit disk record s).2 = if (Commit disk record s).1 then GetSnapshot s else snap.
Proof.
  intros Hp. destruct (prepared _ _ _ _ _ Hp) as (env & raw' & env' & _ & _ & Hv & _ & _ & Href).
  apply validated in Hv as (_ & _ & Hid & _). rewrite <- Href in Hid.
  assert (snap = SnapshotWith record s) as ->.
  { revert Hp. unfold Prepare. intros (e & _ & Hk)%bind_Ok. destruct (IsDefaultRef _ _); [done|]. destruct (Validate _ _ _); [done|].
    by apply bind_Ok in Hk as ([x y] & _ & [= <- <-]). }
  unfold Commit, persistLocked, GetSnapshot, SnapshotWith. rewrite (bool_decide_eq_false_2 _ Hid).
  case_bool_decide; [done|]. destruct (persisted_data record); [|done]. by destruct disk.
Qed.

(** The content store is the default layer of a directory with documents on
    top, each in its file. *)
Definition based (defaultDir dir : string) (keys defaults : gmap string string) (s : Store) : Prop :=
  ∃ layer manifest, loadDefaultLayer (TrimSpace defaultDir) keys defaults = Ok (layer, manifest) ∧
    map_Forall (λ _ record, loaded record = record) layer ∧ ct_dir s = TrimSpace dir ∧ ct_trustedKeys s = keys ∧
    ct_defaultRefs s = dom layer ∧ ct_manifestVersion s = mf_Version manifest ∧
    (∀ ref, ref ∈ dom layer → ct_records s !! ref = layer !! ref) ∧ on_disk s.

Lemma based_commit `{!ContentLaws} defaultDir dir keys defaults raw allow disk s record snap :
  TrimSpace dir ≠ "" → Prepare raw allow s = Ok (record, snap) → based defaultDir dir keys defaults s → based defaultDir dir keys defaults (Commit disk record s).2.
Proof.
  intros Hdir Hp (layer & manifest & Hl & Hall & Hd & Hk & Hdef & Hver & Hsame & Hdisk). rewrite (commit_is_apply raw allow disk s record snap Hp).
  destruct (applied_cases raw allow false disk s) as (Hd' & Hk' & Hdef' & Hver' & _).
  pose proof (applications_default allow [(raw, false, disk)] s) as Hsame'. cbn in Hsame'.
  exists layer, manifest. split_and!; [done|done|congruence|congruence|congruence|congruence| |].
  - intros ref Hr. rewrite Hsame' by (by rewrite Hdef). by apply Hsame.
  - apply apply_on_disk; [|done]. rewrite Hd. by rewrite TrimSpace_idem.
Qed.

(** ** What every update keeps *)

Section sound.
(** [good]: what is known of the content store *)
Context (good : Store → Prop) (good_commit : ∀ raw allow disk s record snap, Prepare raw allow s = Ok (record, snap) → good s → good (Commit disk record s).2).
Context (cfg : Config) (flags : Health.RuntimeFeatureFlags) (store0 : LocalStore.Store).

Definition same_device (s s' : LocalStore.Store) : Prop :=
  LocalStore.m_identity (LocalStore.d_meta (LocalStore.s_disk s')) = LocalStore.m_identity (LocalStore.d_meta (LocalStore.s_disk s)) ∧
  LocalStore.GetEnrollment s' = LocalStore.GetEnrollment s ∧ LocalStore.s_cursor s' = LocalStore.s_cursor s.

(** The local store has the document of the endpoint policy in force. *)
Definition kept (r : AgentRuntime) : Prop :=
  ∃ store row, ag_localStore r = Some store ∧ same_device store0 store ∧ LocalStore.GetPolicy endpointPolicyKind store = Some row ∧
    let document := String.string_of_list_ascii (LocalStore.pr_Document row) in
    encode_endpoint (ag_endpointPolicy r) = Ok document ∨ ParseEndpointPolicy document = Ok (ag_endpointPolicy r).

(** The engine comes from the policy and the content in force, which are
    accepted; the policy is the one of the endpoint policy, which is on the
    disk and can be used. *)
Record sound (r : AgentRuntime) : Prop := {
  so_config : ag_Config r = cfg;
  so_flags : ag_featureFlags r = flags;
  so_id : pol_PolicyID (ag_policy r) ≠ "";
  so_engine : ∃ e, ag_detection r = Some e ∧ evolved (fresh r).1 e;
  so_accepted : is_rejected (fresh r).2 = false;
  so_same : meant (pol_Detection (ag_policy r)) = meant (Some (epol_Detection (ag_endpointPolicy r)));
  so_intent : ∃ intent, CollectionPolicyIntent (epol_Collection (ag_endpointPolicy r)) = Ok intent;
  so_telemetry : ∃ effective, ResolveTelemetry (cfg_Telemetry cfg) (Some (epol_Telemetry (ag_endpointPolicy r))) = Ok effective;
  so_kept : kept r;
  so_content : good (ag_content r)
}.

(** The fields the invariant is about *)
Definition core (r : AgentRuntime) :=
  (ag_Config r, ag_featureFlags r, ag_localStore r, ag_policy r, ag_endpointPolicy r, ag_detection r, ag_content r).

Lemma fresh_fields r r' :
  ag_Config r' = ag_Config r → ag_featureFlags r' = ag_featureFlags r → ag_policy r' = ag_policy r → GetSnapshot (ag_content r') = GetSnapshot (ag_content r) →
  fresh r' = fresh r.
Proof. intros Hc Hf Hp Hs. unfold fresh, new_engine, detectionLimits, detectionContentSnapshot. by rewrite Hc, Hf, Hp, Hs. Qed.

Lemma sound_core r r' : core r' = core r → sound r → sound r'.
Proof.
  intros [= Hc Hf Hl Hp He Hd Ht] [? ? ? ? ? ? ? ? ? ?]. assert (fresh r' = fresh r) as Hfr by (apply fresh_fields; congruence).
  split; unfold kept in *; rewrite ?Hc, ?Hf, ?Hl, ?Hp, ?He, ?Hd, ?Ht, ?Hfr; done.
Qed.

Lemma sound_active r : sound r → activePolicy r = ag_policy r.
Proof. intros Hs. unfold activePolicy. by rewrite (bool_decide_eq_false_2 _ (so_id r Hs)). Qed.

Lemma persisted_kept env policy r r' store :
  ag_localStore r = Some store → same_device store0 store → persistEndpointPolicy env policy r = (None, r') →
  kept r' ∧ ag_endpointPolicy r' = policy ∧
  (ag_Config r', ag_featureFlags r', ag_policy r', ag_detection r', ag_content r') = (ag_Config r, ag_featureFlags r, ag_policy r, ag_detection r, ag_content r).
Proof.
  intros Hl Hd. unfold persistEndpointPolicy. rewrite Hl. unfold SaveEffectiveEndpointPolicy.
  destruct (encode_endpoint policy) as [document|] eqn:He; [|done]. destruct (ParseEndpointPolicy document); [|done].
  unfold LocalStore.PutPolicy. destruct (_ || _); [done|]. destruct (env_save env); [done|]. intros [= <-]. split; [|done].
  eexists _, _. split_and!; [reflexivity|exact Hd|apply lookup_insert_eq|]. cbn. left. unfold bytes_of. by rewrite String.string_of_list_ascii_of_string.
Qed.

(** The endpoint policy in force is replaced in one of its sections. *)
Lemma sound_persist env policy r r' :
  sound r → persistEndpointPolicy env policy r = (None, r') → meant (Some (epol_Detection policy)) = meant (pol_Detection (ag_policy r)) →
  (∃ intent, CollectionPolicyIntent (epol_Collection policy) = Ok intent) →
  (∃ effective, ResolveTelemetry (cfg_Telemetry cfg) (Some (epol_Telemetry policy)) = Ok effective) → sound r'.
Proof.
  intros [Hc Hf Hid He Ha Hsame Hi Ht (store & row & Hl & Hd & _) Hb] Hp Hm Hi' Ht'.
  destruct (persisted_kept env policy r r' store Hl Hd Hp) as (Hk & Hpol & [= Hc' Hf' Hp' Hd' Hb']).
  assert (fresh r' = fresh r) as Hfr by (apply fresh_fields; congruence).
  split; rewrite ?Hc', ?Hf', ?Hp', ?Hd', ?Hb', ?Hfr, ?Hpol; done.
Qed.

Lemma sound_content env req r : sound r → sound (applyContentUpdate env req r).2.
Proof.
  intros Hs. unfold applyContentUpdate. destruct req as [req|]; [|done]. destruct (validateControlContext _ _); [done|].
  destruct (Apply _ _ _ _ _).1; [|done]. destruct (cq_DryRun req); [done|]. unfold applyContentTransaction, commitDetectionContent.
  destruct (Prepare _ _ _) as [[record snap]|e] eqn:Hp; [|done]. unfold buildDetectionWithSnapshot. rewrite (sound_active r Hs).
  pose proof (good_commit _ _ (env_disk env) _ _ _ Hp (so_content r Hs)) as Hb. pose proof (prepared_snapshot _ _ _ _ _ (env_disk env) Hp) as Hsnap.
  destruct (new_engine r _ _ _) as [engine report] eqn:Hn. destruct (is_rejected report) eqn:Hrep; [by apply (sound_core r)|].
  destruct (Commit (env_disk env) record (ag_content r)) as [[e|] content]; cbn in Hb, Hsnap |- *; destruct Hs as [Hc Hf Hid He Ha Hsame Hi Ht Hk _].
  - assert (fresh (r <| ag_content := content |>) = fresh r) as Hfr by (by apply fresh_fields). split; rewrite ?Hfr; done.
  - match goal with |- sound ?x => set (r' := x) end.
    assert (fresh r' = new_engine r (pol_Detection (ag_policy r)) zero_CollectionIntent (detectionContentSnapshotFromContent snap)) as Hfr.
    { unfold fresh, detectionContentSnapshot, r', setDetectionStatus. cbn. by rewrite Hsnap. }
    destruct (new_engine_same r r (pol_Detection (ag_policy r)) (pol_Detection (PolicyModel.Normalize (env_now env) (ag_policy r))) zero_CollectionIntent
      (ag_collection r) (detectionContentSnapshotFromContent snap) eq_refl eq_refl (eq_sym (meant_Normalize _ _))) as [He' Ha'].
    rewrite Hn, <- Hfr in He', Ha'. cbn in He', Ha'. split; try done; [|by rewrite Ha'].
    exists engine. split; [done|]. rewrite He'. constructor.
Qed.

Lemma sound_telemetry env req r : sound r → sound (applyTelemetryPolicy env req r).2.
Proof.
  intros Hs. unfold applyTelemetryPolicy. destruct (telemetry_document _ ≫= _) as [[policy|]|e]; [|done..]. destruct (pq_DryRun req); [done|].
  unfold persistTelemetryPolicy. destruct (ResolveTelemetry _ _) as [effective|e] eqn:Ht; [|done].
  destruct (so_kept r Hs) as (store & row & Hl & _). rewrite Hl.
  match goal with |- context [persistEndpointPolicy env ?p r] => set (next := p) end.
  pose proof (persist_failed env next r) as Hf. destruct (persistEndpointPolicy env next r) as [[e|] r'] eqn:Hp; cbn.
  - cbn in Hf. by rewrite (Hf e eq_refl).
  - unfold applyTelemetryConfig. assert (sound r') as Hs'.
    { eapply sound_persist; [exact Hs|exact Hp|symmetry; apply (so_same r Hs)|apply (so_intent r Hs)|]. rewrite <- (so_config r Hs). by exists effective. }
    match goal with |- context [match ?x with Ok _ => _ | Err _ => _ end] => destruct x end; by apply (sound_core r').
Qed.

(** The engine is built anew from the policy in force. *)
Lemma sound_rebuilt r p c :
  sound r → meant p = meant (pol_Detection (ag_policy r)) → sound (r <| ag_detection := Some (new_engine r p c (detectionContentSnapshot r)).1 |>).
Proof.
  intros [Hc Hf Hid He Ha Hsame Hi Ht Hk Hb] Hm. set (r' := assign _ r). assert (fresh r' = fresh r) as Hfr by (by apply fresh_fields).
  destruct (new_engine_same r r p (pol_Detection (ag_policy r)) c zero_CollectionIntent (detectionContentSnapshot r) eq_refl eq_refl Hm) as [Heq _].
  split; try done. rewrite Hfr. exists (new_engine r p c (detectionContentSnapshot r)).1. split; [done|]. rewrite Heq. constructor.
Qed.

Lemma sound_collection env req r : sound r → sound (applyCollectionPolicy env req r).2.
Proof.
  intros Hs. unfold applyCollectionPolicy. destruct (ParseCollectionPolicyJSON _ _) as [policy|]; [|done].
  destruct (ExpandCollectionPolicyRefs _ _) as [[policy' refs]|]; [|done]. destruct (CollectionPolicyIntent policy') as [intent|] eqn:Hi; [|done].
  destruct (negb _); [done|]. destruct (pq_DryRun req); [by case_bool_decide|]. cbn [apply_intent].
  set (r1 := r <| ag_calls ::= cons intent |>). assert (sound r1) as Hs1 by (by apply (sound_core r)).
  destruct (env_apply env); [done|]. destruct (so_kept r Hs) as (store & row & Hl & _). replace (ag_localStore r1) with (Some store) by (by rewrite <- Hl).
  match goal with |- context [persistEndpointPolicy env ?p r1] => set (next := p) end.
  pose proof (persist_failed env next r1) as Hf. destruct (persistEndpointPolicy env next r1) as [[e|] r'] eqn:Hp; cbn.
  - cbn in Hf. rewrite (Hf e eq_refl). by apply (sound_core r1).
  - assert (sound r') as Hs'.
    { eapply sound_persist; [exact Hs1|exact Hp|symmetry; apply (so_same r Hs)|by exists intent|apply (so_telemetry r Hs)]. }
    set (r3 := setCollectionIntent intent r'). assert (sound r3) as Hs3 by (by apply (sound_core r')). rewrite (sound_active r3 Hs3).
    pose proof (sound_rebuilt r3 (pol_Detection (PolicyModel.Normalize (env_now env) (ag_policy r3))) intent Hs3 (meant_Normalize _ _)) as Hb.
    destruct (new_engine r3 _ _ _) as [engine report]. done.
Qed.

Lemma sound_detection env req r : sound r → sound (applyDetectionPolicy env req r).2.
Proof.
  intros Hs. unfold applyDetectionPolicy. destruct (detection_document _) as [next|e]; [|done]. rewrite (sound_active r Hs).
  set (next' := NormalizeDetectionPolicy next). destruct (new_engine _ _ _ _) as [engine report] eqn:Hn. destruct (pq_DryRun req); [done|].
  destruct (is_rejected report) eqn:Hrep; [by apply (sound_core r)|]. destruct (so_kept r Hs) as (store & row & Hl & Hd & _). rewrite Hl.
  match goal with |- context [persistEndpointPolicy env ?p r] => set (endpoint := p) end.
  pose proof (persist_failed env endpoint r) as Hf. destruct (persistEndpointPolicy env endpoint r) as [[e|] r'] eqn:Hp; cbn.
  - cbn in Hf. by rewrite (Hf e eq_refl).
  - destruct (persisted_kept env endpoint r r' store Hl Hd Hp) as (Hk & Hpol & [= Hc' Hf' Hp' Hd' Hb']).
    destruct Hs as [Hc Hfl Hid He Ha Hsame Hi Ht _ Hb]. match goal with |- sound ?x => set (r'' := x) end.
    destruct (new_engine_same r r'' (Some next') (Some next') (ag_collection r) zero_CollectionIntent (detectionContentSnapshot r)) as [Heq Hacc];
      [by rewrite <- Hf'|by rewrite <- Hc'|done|].
    assert (fresh r'' = new_engine r'' (Some next') zero_CollectionIntent (detectionContentSnapshot r)) as Hfr.
    { unfold fresh, detectionContentSnapshot. change (ag_content r'') with (ag_content r'). by rewrite Hb'. }
    rewrite <- Hfr, Hn in Heq, Hacc. cbn in Heq, Hacc. split.
    + change (ag_Config r' = cfg). congruence.
    + change (ag_featureFlags r' = flags). congruence.
    + cbv beta delta [r'']. change (pol_PolicyID (ag_policy r) ≠ ""). exact Hid.
    + exists engine. split; [done|]. rewrite <- Heq. constructor.
    + by rewrite <- Hacc.
    + change (ag_endpointPolicy r'') with (ag_endpointPolicy r'). by rewrite Hpol.
    + change (ag_endpointPolicy r'') with (ag_endpointPolicy r'). by rewrite Hpol.
    + change (ag_endpointPolicy r'') with (ag_endpointPolicy r'). by rewrite Hpol.
    + exact Hk.
    + change (ag_content r'') with (ag_content r'). by rewrite Hb'.
Qed.

Lemma parsed_id document policy : ParseEndpointPolicy document = Ok policy → epol_PolicyID policy ≠ "".
Proof.
  unfold ParseEndpointPolicy. intros (envelope & _ & Hk)%bind_Ok. case_bool_decide as Hid; [done|]. cbn [orb] in Hk.
  destruct (ee_Version envelope =? 0)%Z; [done|]. destruct (ee_Detection envelope), (ee_Telemetry envelope), (ee_Response envelope); try done.
  case_bool_decide; [done|]. apply bind_Ok in Hk as (collection & _ & [= <-]). cbn. intros E. apply Hid. by rewrite E.
Qed.

Lemma prepared_facts document r prepared : prepareEndpointPolicy document r = Ok prepared →
  epol_PolicyID (pp_policy prepared) ≠ "" ∧ pp_runtime prepared = endpointRuntimePolicy (cfg_TenantID (ag_Config r)) (pp_policy prepared) ∧
  CollectionPolicyIntent (epol_Collection (pp_policy prepared)) = Ok (pp_intent prepared) ∧
  ResolveTelemetry (cfg_Telemetry (ag_Config r)) (Some (epol_Telemetry (pp_policy prepared))) = Ok (pp_telemetry prepared) ∧
  ∃ c, new_engine r (Some (epol_Detection (pp_policy prepared))) c (detectionContentSnapshot r) = (pp_detection prepared, pp_report prepared) ∧
    is_rejected (pp_report prepared) = false.
Proof.
  unfold prepareEndpointPolicy. intros (parsed & Hparse & ([collection refs] & _ & Hk)%bind_Ok)%bind_Ok. apply parsed_id in Hparse.
  apply bind_Ok in Hk as (intent & Hi & Hk). destruct (negb _); [done|]. apply bind_Ok in Hk as (effective & Ht & Hk).
  destruct (new_engine _ _ _ _) as [engine report] eqn:Hn. destruct (is_rejected report) eqn:Hrep; [done|]. injection Hk as <-. cbn.
  split_and!; [done|done|done|done|]. exists (withCollectionCapabilities r intent). by rewrite <- Hn.
Qed.

(** The policy in force and the engine are replaced together. *)
Lemma sound_endpoint_committed r r' document prepared store now :
  sound r → prepareEndpointPolicy document r = Ok prepared → ag_localStore r = Some store → same_device store0 store →
  kept r' → ag_endpointPolicy r' = pp_policy prepared →
  (ag_Config r', ag_featureFlags r', ag_policy r', ag_detection r', ag_content r') = (ag_Config r, ag_featureFlags r, ag_policy r, ag_detection r, ag_content r) →
  sound (commitEndpointPolicy now prepared r').
Proof.
  intros [Hc Hf Hid He Ha Hsame Hi Ht _ Hb] Hprep Hl Hd Hk Hpol [= Hc' Hf' Hp' Hd' Hb'].
  destruct (prepared_facts _ _ _ Hprep) as (Hid' & Hrun & Hint & Htel & c & Hn & Hrep). set (r'' := commitEndpointPolicy _ _ _).
  destruct (new_engine_same r r'' (Some (epol_Detection (pp_policy prepared))) (pol_Detection (pp_runtime prepared)) c zero_CollectionIntent (detectionContentSnapshot r))
    as [Heq Hacc]; [by rewrite <- Hf'|by rewrite <- Hc'|by rewrite Hrun|].
  assert (fresh r'' = new_engine r'' (pol_Detection (pp_runtime prepared)) zero_CollectionIntent (detectionContentSnapshot r)) as Hfr.
  { unfold fresh, detectionContentSnapshot. change (ag_content r'') with (ag_content r'). change (ag_policy r'') with (pp_runtime prepared). by rewrite Hb'. }
  rewrite <- Hfr, Hn in Heq, Hacc. cbn in Heq, Hacc. split.
  - change (ag_Config r' = cfg). congruence.
  - change (ag_featureFlags r' = flags). congruence.
  - change (pol_PolicyID (pp_runtime prepared) ≠ ""). by rewrite Hrun.
  - exists (pp_detection prepared). split; [done|]. rewrite <- Heq. constructor.
  - by rewrite <- Hacc.
  - change (ag_policy r'') with (pp_runtime prepared). change (ag_endpointPolicy r'') with (ag_endpointPolicy r'). by rewrite Hpol, Hrun.
  - change (ag_endpointPolicy r'') with (ag_endpointPolicy r'). rewrite Hpol. by eexists.
  - change (ag_endpointPolicy r'') with (ag_endpointPolicy r'). rewrite Hpol, <- Hc. by eexists.
  - exact Hk.
  - change (ag_content r'') with (ag_content r'). by rewrite Hb'.
Qed.

Lemma sound_endpoint env req r : sound r → sound (applyEndpointPolicy env req r).2.
Proof.
  intros Hs. unfold applyEndpointPolicy. destruct (prepareEndpointPolicy _ _) as [prepared|e] eqn:Hprep; [|done]. destruct (pq_DryRun req); [done|].
  cbn [apply_intent]. set (r1 := r <| ag_calls ::= cons _ |>). assert (sound r1) as Hs1 by (by apply (sound_core r)).
  destruct (env_apply env); [done|]. destruct (so_kept r Hs) as (store & row & Hl & Hd & _).
  pose proof (persist_failed env (pp_policy prepared) r1) as Hf. destruct (persistEndpointPolicy env (pp_policy prepared) r1) as [[e|] r'] eqn:Hp; cbn.
  - cbn in Hf. rewrite (Hf e eq_refl). by apply (sound_core r1).
  - destruct (persisted_kept env _ r1 r' store Hl Hd Hp) as (Hk & Hpol & Hcore). by eapply (sound_endpoint_committed r).
Qed.

Lemma sound_policy env req r : sound r → sound (ApplyPolicy env req r).2.
Proof.
  intros Hs. unfold ApplyPolicy. destruct (validateControlContext _ _); [done|]. cbv zeta.
  repeat match goal with |- context [if bool_decide (?x = ?y) then ?a else ?b] => lazymatch type of a with prod _ _ => destruct (bool_decide (x = y)) end end;
    [by apply sound_collection|by apply sound_detection|by apply sound_telemetry|by apply sound_endpoint|done].
Qed.

Lemma sound_frame env enforce frame r : sound r → sound (handleControlFrame env enforce frame r).2.
Proof.
  intros Hs. unfold handleControlFrame. cbv zeta. destruct (bool_decide (_ = "ack")); [done|].
  destruct (bool_decide (_ = "policy_update")).
  { match goal with |- context [applyEndpointPolicy env ?q r] => pose proof (sound_endpoint env q r Hs); by destruct (applyEndpointPolicy env q r) end. }
  destruct (bool_decide (_ = "content_update")).
  { match goal with |- context [applyContentUpdate env ?q r] => pose proof (sound_content env q r Hs); by destruct (applyContentUpdate env q r) end. }
  destruct (bool_decide (_ = "response_command")); [done|]. by destruct (bool_decide (_ = "evidence_pullback")).
Qed.

Lemma signal_frames_core now named signals r : core (signal_frames now named signals r).2 = core r.
Proof.
  revert r. induction signals as [|signal signals IH]; intros r; [done|]. cbn [signal_frames nextSignalSequence].
  set (r1 := r <| ag_signalSeq := _ |>). specialize (IH r1). by destruct (signal_frames now named signals r1) as [frames r2].
Qed.

Lemma sound_event now wall elapsed ev rawRef r : sound r → sound (ProcessEvent now wall elapsed ev rawRef r).2.
Proof.
  intros Hs. unfold ProcessEvent. destruct (ag_normalizer r) as [n|]; [|done]. destruct ev as [ev|]; [|done].
  destruct (Normalize.NormalizeEvent _ n) as [canonical n']. destruct (so_engine r Hs) as (e & Hd & He). unfold currentDetection. rewrite Hd.
  destruct (Process _ _ _ e) as [signals engine] eqn:Hproc. unfold dataBatchForEvent.
  match goal with |- context [signal_frames now true signals ?x] => set (r1 := x); pose proof (signal_frames_core now true signals r1) as Hc;
    destruct (signal_frames now true signals r1) as [frames r2] end.
  apply (sound_core r1); [done|]. assert (fresh r1 = fresh r) as Hfr by (by apply fresh_fields). destruct Hs as [Hcf Hf Hid _ Ha Hsame Hi Ht Hk Hb].
  split; try done. rewrite Hfr. exists engine. split; [unfold r1; cbn; by rewrite Hd|].
  assert (engine = (Process wall elapsed (Some (canonical <| ev_Labels := mergeLabels (ev_Labels canonical) (policyLabels r) |>)) e).2) as -> by (by rewrite Hproc).
  by constructor.
Qed.

Lemma sound_signals now signals r : sound r → sound (ProcessSignals now signals r).2.
Proof.
  unfold ProcessSignals, dataBatchForSignals. pose proof (signal_frames_core now false signals r) as Hc.
  destruct (signal_frames now false signals r) as [frames r']. by apply sound_core.
Qed.
End sound.

(** ** Starting *)

(** What [Run] needs to reach its loop, on a local store *)
Record startable (env : Env) (read : string → result string) (r0 : AgentRuntime) (store : LocalStore.Store) (endpoint : EndpointPolicy) : Prop := {
  sa_load : ∃ before, ag_localStore r0 = Some before ∧ LoadEffectiveEndpointPolicy read (env_now env) (cfg_PolicyPath (ag_Config r0)) before = (Ok endpoint, store);
  sa_intent : ∃ intent, CollectionPolicyIntent (epol_Collection endpoint) = Ok intent;
  sa_telemetry : ∃ effective, ResolveTelemetry (cfg_Telemetry (ag_Config r0)) (Some (epol_Telemetry endpoint)) = Ok effective;
  sa_scope : ∃ scope, EffectiveScope (ag_Config r0) = Ok scope;
  sa_accepted : is_rejected (new_engine r0 (Some (epol_Detection endpoint)) zero_CollectionIntent (detectionContentSnapshot r0)).2 = false;
  sa_sensor : env_apply env = None;
  sa_enrollment : ∃ enrollment, LocalStore.GetEnrollment store = Ok enrollment
}.

Definition started_as (env : Env) (r0 : AgentRuntime) (store : LocalStore.Store) (endpoint : EndpointPolicy) (r : AgentRuntime) : Prop :=
  ag_Config r = ag_Config r0 ∧ ag_featureFlags r = ag_featureFlags r0 ∧ ag_localStore r = Some store ∧ ag_endpointPolicy r = endpoint ∧
  ag_policy r = PolicyModel.Normalize (env_now env) (endpointRuntimePolicy (cfg_TenantID (ag_Config r0)) endpoint) ∧
  ag_detection r = Some (new_engine r0 (Some (epol_Detection endpoint)) zero_CollectionIntent (detectionContentSnapshot r0)).1 ∧ ag_content r = ag_content r0.

Lemma try_accepted now policy r p ct :
  meant p = meant (pol_Detection policy) → ct = detectionContentSnapshot r →
  is_rejected (new_engine r p zero_CollectionIntent ct).2 = false →
  ∃ report r', tryApplyRuntimePolicy now policy r = ((report, true), r') ∧
    ag_policy r' = PolicyModel.Normalize now policy ∧ ag_detection r' = Some (new_engine r p zero_CollectionIntent ct).1 ∧
    (ag_Config r', ag_featureFlags r', ag_localStore r', ag_endpointPolicy r', ag_content r') = (ag_Config r, ag_featureFlags r, ag_localStore r, ag_endpointPolicy r, ag_content r).
Proof.
  intros Hm -> Ha. unfold tryApplyRuntimePolicy.
  destruct (new_engine_same r r p (pol_Detection (PolicyModel.Normalize now policy)) zero_CollectionIntent (ag_collection r) (detectionContentSnapshot r) eq_refl eq_refl) as [He Hr];
    [by rewrite meant_Normalize|]. destruct (new_engine r (pol_Detection _) _ _) as [engine report]. cbn in He, Hr. rewrite <- Hr, Ha.
  eexists _, _. split; [reflexivity|]. split_and!; [done| |done]. by rewrite He.
Qed.

Lemma try_refused now policy r p ct :
  meant p = meant (pol_Detection policy) → ct = detectionContentSnapshot r →
  is_rejected (new_engine r p zero_CollectionIntent ct).2 = true → ∃ report r', tryApplyRuntimePolicy now policy r = ((report, false), r').
Proof.
  intros Hm -> Ha. unfold tryApplyRuntimePolicy.
  destruct (new_engine_same r r p (pol_Detection (PolicyModel.Normalize now policy)) zero_CollectionIntent (ag_collection r) (detectionContentSnapshot r) eq_refl eq_refl) as [He Hr];
    [by rewrite meant_Normalize|]. destruct (new_engine r (pol_Detection _) _ _) as [engine report]. cbn in Hr. rewrite <- Hr, Ha. by eexists _, _.
Qed.


Lemma new_engine_fields r r' p c :
  ag_Config r = ag_Config r' → ag_featureFlags r = ag_featureFlags r' → ag_content r = ag_content r' →
  new_engine r p c (detectionContentSnapshot r) = new_engine r' p c (detectionContentSnapshot r').
Proof. intros Hc Hf Ht. unfold new_engine, detectionLimits, detectionContentSnapshot. by rewrite Hc, Hf, Ht. Qed.

Lemma enrolled_core now enrollment r : core (applyEnrollmentIdentity now enrollment r) = core r.
Proof. unfold applyEnrollmentIdentity. by case_bool_decide. Qed.

(** Up to the detection: the policy that is loaded, and the state with which
    the detection is started *)
Lemma loaded_policy env read r0 store endpoint :
  startable env read r0 store endpoint → ∃ intent effective,
    loadStartupPolicy env read r0 =
      (Ok (intent, endpointRuntimePolicy (cfg_TenantID (ag_Config r0)) endpoint, effective),
       r0 <| ag_localStore := Some store |> <| ag_endpointPolicy := endpoint |> <| ag_effectiveTelemetry := effective |>).
Proof.
  intros [(before & Hl & Hload) [intent Hi] [effective Ht] _ _ _ _]. exists intent, effective. unfold loadStartupPolicy.
  rewrite Hl, Hload, Hi. change (ag_Config (_ <| ag_localStore := _ |>)) with (ag_Config r0). cbn [mbind result_bind]. by rewrite Ht.
Qed.

Lemma startup_ok env read backend capability queue r0 store endpoint :
  startable env read r0 store endpoint → ∃ r, startup env read backend capability queue r0 = (None, r) ∧ started_as env r0 store endpoint r.
Proof.
  intros Hs. set (r1 := r0 <| ag_capability := capability |>).
  destruct (loaded_policy env read r1 store endpoint) as (intent & effective & Hload); [by destruct Hs|].
  destruct Hs as [_ _ _ [[scopeType scopeSelector] Hsc] Ha Happly [enrollment He]]. unfold startup. cbv zeta. fold r1. rewrite Hload.
  change (EffectiveScope (ag_Config _)) with (EffectiveScope (ag_Config r0)). rewrite Hsc. unfold applyStartupDetection.
  match goal with |- context [setCollectionIntent ?i ?x] => set (r2 := setCollectionIntent i x) end.
  set (policy := endpointRuntimePolicy (cfg_TenantID (ag_Config r1)) endpoint).
  destruct (try_accepted (env_now env) policy r2 (Some (epol_Detection endpoint)) (detectionContentSnapshot r0)) as (report & r3 & Htry & _ & _ & [= Hc3 Hf3 Hl3 Hp3 Ht3]);
    [done|done|exact Ha|]. rewrite Htry. cbn [apply_intent]. rewrite Happly.
  match goal with |- context [ag_localStore (setNormalizer ?n ?x)] => set (r4 := setNormalizer n x) end.
  change (ag_localStore r4) with (ag_localStore r3). rewrite Hl3. change (ag_localStore r2) with (Some store). cbn [mbind result_bind]. rewrite He.
  cbn [mbind result_bind mret result_ret]. set (r5 := applyEnrollmentIdentity _ _ _).
  assert (core r5 = core r3) as Hcore by exact (enrolled_core _ _ r4). clearbody r5. injection Hcore as Hc5 Hf5 Hl5 _ Hp5 _ Ht5.
  destruct (try_accepted (env_now env) policy r5 (Some (epol_Detection endpoint)) (detectionContentSnapshot r5)) as (report' & r & -> & Hpol & Hd & [= Hc Hf Hl Hp Ht]);
    [done|done| |].
  { by rewrite (new_engine_fields r5 r0) by congruence. }
  exists r. split; [done|]. rewrite (new_engine_fields r5 r0) in Hd by congruence. unfold started_as. rewrite Hpol, Hd.
  split_and!; [congruence|congruence|congruence|congruence|done|done|congruence].
Qed.

Lemma startup_inv env read backend capability queue r0 before r :
  ag_localStore r0 = Some before → startup env read backend capability queue r0 = (None, r) →
  ∃ store endpoint, startable env read r0 store endpoint ∧ started_as env r0 store endpoint r.
Proof.
  intros Hl Hrun. enough (∃ store endpoint, startable env read r0 store endpoint) as (store & endpoint & Hs).
  { exists store, endpoint. split; [done|]. destruct (startup_ok _ _ backend capability queue _ _ _ Hs) as (r' & Hrun' & ?). congruence. }
  revert Hrun. unfold startup. cbv zeta. set (r1 := r0 <| ag_capability := capability |>). unfold loadStartupPolicy.
  change (ag_localStore r1) with (ag_localStore r0). rewrite Hl. change (cfg_PolicyPath (ag_Config r1)) with (cfg_PolicyPath (ag_Config r0)).
  destruct (LoadEffectiveEndpointPolicy _ _ _ _) as [[endpoint|e] store] eqn:Hload; [|done].
  destruct (CollectionPolicyIntent _) as [intent|] eqn:Hi; [|done]. cbn [mbind result_bind].
  change (ag_Config (r1 <| ag_localStore := Some store |>)) with (ag_Config r0).
  destruct (ResolveTelemetry _ _) as [effective|] eqn:Ht; [|done]. cbn [mbind result_bind mret result_ret].
  change (EffectiveScope (ag_Config _)) with (EffectiveScope (ag_Config r0)).
  destruct (EffectiveScope _) as [[scopeType scopeSelector]|] eqn:Hsc; [|done]. unfold applyStartupDetection.
  match goal with |- context [setCollectionIntent ?i ?x] => set (r2 := setCollectionIntent i x) end. set (policy := endpointRuntimePolicy _ _).
  destruct (is_rejected (new_engine r0 (Some (epol_Detection endpoint)) zero_CollectionIntent (detectionContentSnapshot r0)).2) eqn:Ha.
  { by destruct (try_refused (env_now env) policy r2 (Some (epol_Detection endpoint)) (detectionContentSnapshot r0)) as (report & r3 & ->). }
  destruct (try_accepted (env_now env) policy r2 (Some (epol_Detection endpoint)) (detectionContentSnapshot r0)) as (report & r3 & -> & _ & _ & [= _ _ Hl3 _ _]);
    [done|done|done|]. cbn [apply_intent]. destruct (env_apply env) eqn:Happly; [done|].
  match goal with |- context [ag_localStore (setNormalizer ?n ?x)] => set (r4 := setNormalizer n x) end.
  change (ag_localStore r4) with (ag_localStore r3). rewrite Hl3.
  destruct (LocalStore.GetEnrollment store) as [enrollment|] eqn:He; [|done]. intros _.
  exists store, endpoint. split; [by exists before|by eexists|by eexists|by eexists|done|done|by eexists].
Qed.

(** The policy that is loaded has its document in the local store. *)
Lemma endpoint_loaded read now path before store endpoint :
  LoadEffectiveEndpointPolicy read now path before = (Ok endpoint, store) →
  epol_PolicyID endpoint ≠ "" ∧ same_device before store ∧ ∃ row, LocalStore.GetPolicy endpointPolicyKind store = Some row ∧
    let document := String.string_of_list_ascii (LocalStore.pr_Document row) in
    encode_endpoint endpoint = Ok document ∨ ParseEndpointPolicy document = Ok endpoint.
Proof.
  unfold LoadEffectiveEndpointPolicy. destruct (LocalStore.GetPolicy _ _) as [row|] eqn:Hrow.
  { intros [= Hp <-]. split; [by eapply parsed_id|]. split; [done|]. exists row. by split; [|right]. }
  destruct (with_context _ _) as [document|]; [|done]. destruct (ParseEndpointPolicy document) as [policy|] eqn:Hp; [|done].
  unfold SaveEffectiveEndpointPolicy. destruct (encode_endpoint policy) as [canonical|] eqn:He; [|done]. destruct (ParseEndpointPolicy canonical); [|done].
  unfold LocalStore.PutPolicy. destruct (_ || _); [done|]. intros [= <- <-]. split; [by eapply parsed_id|]. split; [done|].
  eexists. split; [apply lookup_insert_eq|]. cbn. left. unfold bytes_of. by rewrite String.string_of_list_ascii_of_string.
Qed.

Lemma startup_sound good env read backend capability queue config flags content before r0 r :
  New config flags content (Some before) = Ok r0 → good content → startup env read backend capability queue r0 = (None, r) →
  sound good (ag_Config r0) flags before r.
Proof.
  intros Hnew Hb Hrun. assert (ag_localStore r0 = Some before ∧ ag_featureFlags r0 = flags ∧ ag_content r0 = content) as (Hl & Hf & Ht).
  { revert Hnew. unfold New. by intros (cfg & _ & [= <-])%bind_Ok. }
  destruct (startup_inv _ _ _ _ _ _ _ _ Hl Hrun) as (store & endpoint & Hs & (Hc' & Hf' & Hl' & Hp' & Hpol & Hd & Ht')).
  destruct Hs as [(before' & Hb' & Hload) Hi Htel _ Ha _ _]. assert (before' = before) as -> by congruence.
  destruct (endpoint_loaded _ _ _ _ _ _ Hload) as (Hid & Hdev & row & Hrow & Hdoc).
  destruct (new_engine_same r r0 (pol_Detection (ag_policy r)) (Some (epol_Detection endpoint)) zero_CollectionIntent zero_CollectionIntent (detectionContentSnapshot r0))
    as [Heq Hacc]; [congruence|congruence|by rewrite Hpol, meant_Normalize|].
  assert (fresh r = new_engine r (pol_Detection (ag_policy r)) zero_CollectionIntent (detectionContentSnapshot r0)) as Hfr.
  { unfold fresh, detectionContentSnapshot. by rewrite Ht'. }
  split; rewrite ?Hfr, ?Hp'; try done; try congruence.
  - rewrite Hpol. exact Hid.
  - rewrite Hd, Heq. eexists. split; [done|]. constructor.
  - by rewrite Hpol, meant_Normalize.
  - exists store, row. by rewrite Hp'.
Qed.

(** ** Everything that comes to a running agent *)

(** The requests of the local control, the frames of the gateway, the events
    of the sensor and the signals of the tamper watch *)
Inductive Request :=
| PolicyRequest (env : Env) (req : ApplyPolicyRequest)
| ContentRequest (env : Env) (req : option ApplyContentRequest)
| GatewayFrame (env : Env) (enforce : EnforcementCmd → result EnforcementAck) (frame : GatewayControl.ControlFrame)
| SensorEvent (now : Time) (wall : string → Z) (elapsed : Z) (ev : option Normalize.SensorEvent) (rawRef : string)
| TamperSignals (now : Time) (signals : list Signal).

Definition perform (r : AgentRuntime) (request : Request) : AgentRuntime :=
  match request with
  | PolicyRequest env req => (ApplyPolicy env req r).2
  | ContentRequest env req => (applyContentUpdate env req r).2
  | GatewayFrame env enforce frame => (handleControlFrame env enforce frame r).2
  | SensorEvent now wall elapsed ev rawRef => (ProcessEvent now wall elapsed ev rawRef r).2
  | TamperSignals now signals => (ProcessSignals now signals r).2
  end.

Lemma sound_requests (good : Store → Prop) cfg flags before requests r :
  (∀ raw allow disk s record snap, Prepare raw allow s = Ok (record, snap) → good s → good (Commit disk record s).2) →
  sound good cfg flags before r → sound good cfg flags before (foldl perform r requests).
Proof.
  intros Hgood. revert r. induction requests as [|request requests IH]; intros r Hs; [done|]. cbn. apply IH. destruct request; cbn.
  - by apply sound_policy.
  - by apply sound_content.
  - by apply sound_frame.
  - by apply sound_event.
  - by apply sound_signals.
Qed.

(** C5. The engine in force is the one of the policy and the content in force:
    once an agent with a local store has started, and after any sequence of
    policy updates, content updates, frames of the gateway, events and tamper
    signals, accepted or refused, with any failures of the sensor, the store
    and the disk, there is an engine; it is what the policy and the content in
    force give, with nothing but events processed since; that policy is
    accepted by the validation; and it is the detection policy of the endpoint
    policy in force, whose document is in the local store. *)
Theorem engine_in_force env read backend capability queue config flags content before r0 r requests :
  New config flags content (Some before) = Ok r0 → startup env read backend capability queue r0 = (None, r) →
  let r' := foldl perform r requests in
  (∃ engine, ag_detection r' = Some engine ∧ evolved (fresh r').1 engine) ∧ is_rejected (fresh r').2 = false ∧
  meant (pol_Detection (ag_policy r')) = meant (Some (epol_Detection (ag_endpointPolicy r'))) ∧ kept before r'.
Proof.
  intros Hnew Hrun r'. pose proof (startup_sound (λ _, True) _ _ _ _ _ _ _ _ _ _ _ Hnew I Hrun) as Hs.
  apply (sound_requests _ _ _ _ requests) in Hs as []; [|done]. done.
Qed.

(** ** Starting again *)

(** The status of a record is not used. *)
Lemma add_loaded out out' record : detectionContentSnapshotFromContent out = detectionContentSnapshotFromContent out' →
  detectionContentSnapshotFromContent (add_record out (loaded record)) = detectionContentSnapshotFromContent (add_record out' record).
Proof.
  intros E. assert (parseRulePack (loaded record) = parseRulePack record ∧ parseValueSet (loaded record) = parseValueSet record) as [Hp Hv] by done.
  unfold add_record. rewrite Hp, Hv. change (rec_Kind (loaded record)) with (rec_Kind record). change (rec_Ref (loaded record)) with (rec_Ref record).
  unfold detectionContentSnapshotFromContent in *. injection E as Hc Hi Hr. repeat case_bool_decide; [destruct (parseRulePack record)|destruct (parseValueSet record)..|];
    unfold assign; cbn; rewrite ?fmap_insert, ?fmap_app; congruence.
Qed.

Lemma loaded_snapshot s : detectionContentSnapshotFromContent (GetSnapshot (s <| ct_records ::= fmap loaded |>)) = detectionContentSnapshotFromContent (GetSnapshot s).
Proof.
  assert (∀ l out out', detectionContentSnapshotFromContent out = detectionContentSnapshotFromContent out' →
    detectionContentSnapshotFromContent (foldl add_record out (loaded <$> l)) = detectionContentSnapshotFromContent (foldl add_record out' l)) as Hl.
  { induction l as [|record l IH]; intros out out' E; [done|]. cbn. apply IH. by apply add_loaded. }
  unfold GetSnapshot. change (ct_records (s <| ct_records ::= fmap loaded |>)) with (loaded <$> ct_records s).
  unfold snapshotFromRecords, range_keys. rewrite dom_fmap_L.
  assert (∀ keys, omap (λ ref, (loaded <$> ct_records s) !! ref) keys = loaded <$> omap (λ ref, ct_records s !! ref) keys) as ->.
  { induction keys as [|key keys IH]; [done|]. cbn. rewrite lookup_fmap. destruct (ct_records s !! key); cbn; by rewrite IH. }
  by apply (Hl _ (MkSnapshot ∅ [] ∅ ∅ "") (MkSnapshot ∅ [] ∅ ∅ "")).
Qed.

(** What the start with the content and the local store of [r] needs *)
Lemma restartable good cfg flags before r content r0 env read scope enrollment :
  sound good cfg flags before r → ag_Config r0 = cfg → ag_featureFlags r0 = flags → ag_content r0 = content → ag_localStore r0 = ag_localStore r →
  content = (ag_content r) <| ct_records ::= fmap loaded |> →
  (∀ document, encode_endpoint (ag_endpointPolicy r) = Ok document → ParseEndpointPolicy document = Ok (ag_endpointPolicy r)) →
  EffectiveScope cfg = Ok scope → LocalStore.GetEnrollment before = Ok enrollment → env_apply env = None →
  ∃ store, startable env read r0 store (ag_endpointPolicy r) ∧
    (new_engine r0 (Some (epol_Detection (ag_endpointPolicy r))) zero_CollectionIntent (detectionContentSnapshot r0)).1 = (fresh r).1.
Proof.
  intros [Hc Hf _ _ Ha Hsame Hi Ht (store & row & Hl & (_ & Hen & _) & Hrow & Hdoc) _] Hc0 Hf0 Hct Hl0 -> Hparse Hscope Henr Happly. exists store.
  destruct (new_engine_same r0 r (Some (epol_Detection (ag_endpointPolicy r))) (pol_Detection (ag_policy r)) zero_CollectionIntent zero_CollectionIntent (detectionContentSnapshot r0))
    as [Heq Hacc]; [congruence|congruence|done|].
  assert (new_engine r (pol_Detection (ag_policy r)) zero_CollectionIntent (detectionContentSnapshot r0) = fresh r) as Hfr.
  { unfold fresh, detectionContentSnapshot. by rewrite Hct, loaded_snapshot. }
  rewrite Hfr in Heq, Hacc. split; [|done]. split; rewrite ?Hc0; try done.
  - exists store. split; [congruence|]. unfold LoadEffectiveEndpointPolicy. rewrite Hrow. f_equal. destruct Hdoc as [He|]; [|done]. by apply Hparse.
  - by eexists.
  - congruence.
  - rewrite Hen. by eexists.
Qed.

Lemma New_parts config flags content store r : New config flags content (Some store) = Ok r →
  ag_localStore r = Some store ∧ ag_featureFlags r = flags ∧ ag_content r = content ∧ complete_config (Some store) config = Ok (ag_Config r).
Proof. unfold New. by intros (cfg & Hc & [= <-])%bind_Ok. Qed.

Lemma New_same config flags content content' store store' r : New config flags content (Some store) = Ok r → same_device store store' →
  ∃ r', New config flags content' (Some store') = Ok r' ∧
    ag_localStore r' = Some store' ∧ ag_featureFlags r' = flags ∧ ag_content r' = content' ∧ ag_Config r' = ag_Config r.
Proof.
  intros (_ & _ & _ & Hc)%New_parts (Hid & _ & _). assert (complete_config (Some store') config = Ok (ag_Config r)) as Hc' by (unfold complete_config; by rewrite Hid).
  unfold New. rewrite Hc'. eexists. split; [reflexivity|done].
Qed.

Lemma based_empty `{!ContentLaws} defaultDir dir keys defaults s : OpenLayered defaultDir dir keys defaults ∅ = Ok s → based defaultDir dir keys defaults s.
Proof. intros (layer & manifest & Hl & -> & Hall)%opened_empty. exists layer, manifest. split_and!; try done. apply default_on_disk. Qed.

(** C12. Detection survives a restart: an agent starts with a local store and
    an empty content directory over the default content, serves any sequence
    of requests and events, and is stopped.  If the endpoint policy in force
    is read back as it was written, no two pieces of content share a file name,
    their payloads can be parsed, and the sensor accepts the collection intent
    again when the agent starts (otherwise startup returns the sensor's error
    and the agent does not start), then the content store opens on what is
    in the directory, the agent starts on what is in the local store, with the
    same endpoint policy in force and the engine that the policy and the
    content before the stop give. *)
Theorem detection_survives_restart `{!ContentLaws} defaultPath path trustKeys defaults config flags before content r0 r requests
    env read backend capability queue env' read' backend' capability' queue' :
  TrimSpace defaultPath ≠ "" → TrimSpace path ≠ "" → newContentStore defaultPath path trustKeys defaults ∅ = Ok content →
  New config flags content (Some before) = Ok r0 → startup env read backend capability queue r0 = (None, r) →
  let r' := foldl perform r requests in
  distinct_files (users_of (ag_content r')) → (∀ ref record, users_of (ag_content r') !! ref = Some record → validateRecordPayload record = None) →
  (∀ document, encode_endpoint (ag_endpointPolicy r') = Ok document → ParseEndpointPolicy document = Ok (ag_endpointPolicy r')) →
  env_apply env' = None →
  ∃ content' restarted running, newContentStore defaultPath path trustKeys defaults (ct_files (ag_content r')) = Ok content' ∧
    New config flags content' (ag_localStore r') = Ok restarted ∧ startup env' read' backend' capability' queue' restarted = (None, running) ∧
    ag_detection running = Some (fresh r').1 ∧ ag_endpointPolicy running = ag_endpointPolicy r'.
Proof.
  intros Hdef Hpath Hopen Hnew Hrun r' Hinj Hpay Hparse Happly. unfold newContentStore in *. rewrite (bool_decide_eq_false_2 _ Hdef) in *.
  set (keys := parseTrustKeys trustKeys) in *. pose proof (startup_sound _ _ _ _ _ _ _ _ _ _ _ _ Hnew (based_empty _ _ _ _ _ Hopen) Hrun) as Hs.
  apply (sound_requests _ _ _ _ requests) in Hs; [|intros; by eapply based_commit].
  pose proof (New_parts _ _ _ _ _ Hnew) as (Hl & _). destruct (startup_inv _ _ _ _ _ _ _ _ Hl Hrun) as (store1 & endpoint1 & [(b & Hb & Hload) _ _ [scope Hscope] _ _ [enr Henr]] & _).
  assert (b = before) as -> by congruence. destruct (endpoint_loaded _ _ _ _ _ _ Hload) as (_ & (_ & Hen1 & _) & _). rewrite Hen1 in Henr.
  destruct (so_content _ _ _ _ _ Hs) as (layer & manifest & Hlay & Hall & Hd & Hk & Hdefs & Hver & Hsame & Hdisk).
  exists ((ag_content r') <| ct_records ::= fmap loaded |>). destruct (so_kept _ _ _ _ _ Hs) as (store & row & Hl' & Hdev & _).
  destruct (New_same _ _ _ ((ag_content r') <| ct_records ::= fmap loaded |>) _ _ _ Hnew Hdev) as (restarted & Hnew' & Hl2 & Hf2 & Hct2 & Hc2).
  destruct (restartable _ _ _ _ _ _ restarted env' read' scope enr Hs Hc2 Hf2 Hct2) as (store2 & Hstart & Heng); [congruence|done|done|done|done|done|].
  destruct (startup_ok _ _ backend' capability' queue' _ _ _ Hstart) as (running & Hrun' & (_ & _ & _ & Hp & _ & Hde & _)).
  exists restarted, running. fold r' in Hl'. rewrite Hl'. split_and!; [|done|done|by rewrite Hde, Heng|done].
  by apply (reopened defaultPath path keys defaults layer manifest).
Qed.
End theorems.

(** ** An agent *)

(** A document is named by its version; the second one selects the rules. *)
Definition demo_detection (version : Z) : DetectionPolicy :=
  MkDetectionPolicy "d" version "observe" (MkScopeSelector "" "") [MkRuleSetRef "core" "latest" (Some (1 <? version)%Z) []] [] [] [].

Definition demo_policy_text : PolicyText := {|
  decode_field _ := Ok "";
  decode_wire _ := Ok (MkCollectionWire "c" 1 "[]" [] [] [] [] [] "" "" false);
  decode_strings _ := Some ["process.exec"];
  decode_specs _ := Ok [];
  decode_endpoint doc :=
    let version := if bool_decide (doc = "v1") then 1%Z else 2%Z in
    Ok (MkEndpointEnvelope "p1" version "{}" (Some (demo_detection version)) (Some (MkTelemetryPolicy 100 65536 "1s")) (Some Response.DefaultPolicy));
  encode_endpoint policy := Ok (if (epol_Version policy =? 1)%Z then "v1" else "v2");
  policy_unicode := {| print_rune _ := true |}
|}.

Definition demo_agent_text : AgentText := {|
  decode_detection_member _ := Ok None;
  decode_detection _ := Err "unexpected end of JSON input";
  decode_members _ := Err "unexpected end of JSON input";
  decode_telemetry _ := Err "unexpected end of JSON input";
  marshal_telemetry _ := "{}";
  marshal_report _ := "{}";
  marshal_explain _ _ := "{}";
  show_selectors _ := "[]";
  decode_command _ := Err "unexpected end of JSON input";
  decode_pullback _ := Err "unexpected end of JSON input";
  marshal_subgraph id kind name := Ok (id +:+ "/" +:+ kind +:+ "/" +:+ name);
  duration_error text := "time: invalid duration " +:+ text;
  format_nano _ := ""
|}.

Local Existing Instances demo_policy_text demo_agent_text.

Definition demo_env : Env := MkEnv 7%Z None None None NoFault.
Definition demo_config : Config :=
  MkConfig "" "" "" ∅ "" "" true DefaultTelemetryConfig (MkEngineLimits 0 0) "/etc/sysarmor/policy.json" "".
Definition demo_read (path : string) : result string := Ok "v1".
Definition demo_trust : string := "release=" +:+ demo_key.
Definition demo_local : LocalStore.Store :=
  LocalStore.MkStore (LocalStore.ensureIdentity 5 "web-1" "d-1" LocalStore.empty_disk) (LocalStore.MkOptions 0 0 0 0) None ∅ (LocalStore.MkCursor 0 0).
Definition demo_content (files : gmap string string) : result Store :=
  newContentStore "/etc/sysarmor/content" "/var/lib/sysarmor/content" demo_trust demo_defaults files.

Definition demo_flags : Health.RuntimeFeatureFlags := Health.MkRuntimeFeatureFlags "linear".
Definition demo_opened : Store := Eval vm_compute in match demo_content ∅ with Ok s => s | Err _ => NewStore end.
Definition demo_identity : runtimeIdentity := MkRuntimeIdentity "d-1" "web-1" "local".
Definition demo_inert : AgentRuntime :=
  MkAgentRuntime demo_config [] None demo_identity demo_identity None None zero_endpoint_policy (MkEffectiveTelemetry 0 0 0) zero_policy None zero_CollectionIntent
    NewStore demo_flags (Health.MkDetectionHealth "" 0 [] "" demo_flags "" "" zero_time) 0 [].
Definition demo_created : AgentRuntime :=
  Eval vm_compute in match New demo_config demo_flags demo_opened (Some demo_local) with Ok r => r | Err _ => demo_inert end.
Definition demo_running : AgentRuntime := Eval vm_compute in (startup demo_env demo_read "tetragon" [] 64 demo_created).2.

(** A signed pack of rules, an endpoint policy that selects them, another that
    cannot be persisted, and the start of a shell *)
Definition demo_requests : list Request :=
  [ContentRequest demo_env (Some (MkApplyContentRequest None (demo_signed "rulepack" "rules:core" "core") false false));
   PolicyRequest demo_env (MkApplyPolicyRequest None "endpoint" "v2" false None);
   PolicyRequest (MkEnv 8%Z None None (Some "disk full") NoFault) (MkApplyPolicyRequest None "endpoint" "v1" false None);
   SensorEvent 9%Z (λ _, 0%Z) 0 (Some Normalize.demo_shell) "raw"].

Definition demo_after : AgentRuntime := Eval vm_compute in foldl perform demo_running demo_requests.

Lemma demo_after_eq : foldl perform demo_running demo_requests = demo_after.
Proof. vm_compute. reflexivity. Qed.

Lemma engine_in_force_witness :
  (∃ engine, ag_detection demo_after = Some engine ∧ evolved (fresh demo_after).1 engine) ∧
  epol_Version (ag_endpointPolicy demo_after) = 2%Z ∧ dom (ct_records (ag_content demo_after)) = {["rules:core"]} ∧
  (dom ∘ e_rules) <$> ag_detection demo_after = Some {["core/shell"]}.
Proof.
  split; [|split_and!; vm_compute; reflexivity]. rewrite <- demo_after_eq.
  refine (proj1 (engine_in_force demo_env demo_read "tetragon" [] 64 demo_config demo_flags demo_opened demo_local demo_created demo_running demo_requests _ _));
    vm_compute; reflexivity.
Defined.

Lemma detection_survives_restart_witness :
  ∃ content restarted running, demo_content (ct_files (ag_content demo_after)) = Ok content ∧
    New demo_config demo_flags content (ag_localStore demo_after) = Ok restarted ∧
    startup demo_env (λ _, Err "gone") "tetragon" [] 64 restarted = (None, running) ∧
    ag_detection running = Some (fresh demo_after).1 ∧ ag_endpointPolicy running = ag_endpointPolicy demo_after.
Proof.
  rewrite <- demo_after_eq.
  apply (detection_survives_restart "/etc/sysarmor/content" "/var/lib/sysarmor/content" demo_trust demo_defaults demo_config demo_flags demo_local demo_opened
    demo_created demo_running demo_requests demo_env demo_read "tetragon" [] 64 demo_env (λ _, Err "gone") "tetragon" [] 64); [vm_compute; done..| | | |done].
  - rewrite demo_after_eq. apply distinct_files_NoDup. apply (bool_decide_eq_true_1 (NoDup _)). vm_compute. reflexivity.
  - rewrite demo_after_eq. apply (bool_decide_eq_true_1 (map_Forall (λ _ record, validateRecordPayload record = None) _)). vm_compute. reflexivity.
  - rewrite demo_after_eq. intros document [= <-]. vm_compute. reflexivity.
Defined.

(** ** Unexpected behaviour *)

(** An agent that is enrolled answers a policy update under the identity it is
    enrolled with, but a response command and an evidence request under the
    one of the device. *)
Example answers_of_the_device :
  let managed := LocalStore.MkEnrollment LocalStore.StateManaged "acme" "a-1" "gw:443" "" "" "" "" false 0 9 in
  let r := applyEnrollmentIdentity 9%Z managed demo_running in
  let ack := bindControlAckIdentity (ApplyPolicy demo_env (MkApplyPolicyRequest None "endpoint" "v1" false None) r).1 r in
  (GatewayControl.ka_TenantId (aa_Ack ack), GatewayControl.ka_AgentId (aa_Ack ack)) = ("acme", "a-1") ∧
  ∀ enforce command, (λ a, (rack_TenantID a, rack_AgentID a)) (executeResponse 9%Z enforce command r) = ("local", "d-1").
Proof. intros managed r ack. split; [vm_compute; reflexivity|]. intros enforce command. unfold executeResponse. by destruct (negb _). Qed.

(** The scope of the configuration is used when the agent starts, and lost
    when the very policy that is in force is applied again. *)
Example scope_lost :
  let config := MkConfig "" "" "" ∅ "container" "web" true DefaultTelemetryConfig (MkEngineLimits 0 0) "/etc/sysarmor/policy.json" "" in
  let r := (startup demo_env demo_read "tetragon" [] 64 match New config demo_flags demo_opened (Some demo_local) with Ok r => r | Err _ => demo_inert end).2 in
  let r' := (ApplyPolicy demo_env (MkApplyPolicyRequest None "endpoint" "v1" false None) r).2 in
  ag_endpointPolicy r' = ag_endpointPolicy r ∧ ci_ScopeSelector (ag_collection r) = "web" ∧ ci_ScopeSelector (ag_collection r') = "".
Proof. vm_compute. done. Qed.
End AgentTheorems.
