(* ===== verification/ControlChannel.v ===== *)
(** * The agent: the control channel ([agent/daemon/control_channel.go])

    The agent's side of the connection that [GatewayControl] serves: the
    frames it sends and how they are numbered, the hello, the messages made of
    the health of the agent ([local_control.go]), and the session that answers
    the frames of the gateway ([transport_runtime.go]).

    [Stream] is what the network does: the error of dialling, and of sending
    the frame with a number.  Frames that are sent are kept in [ch_sent], in
    order.  Closing, credentials and the goroutine that receives are not
    modelled: the frames received are arguments, in their order. *)

From S2P Require Import Prelude GoStrings GoBytes GoData GoSha GoText EventModel Policy DataPlane Response ControlModel PolicyModel Health Collection StoreData ContentStore IngestWorker GatewayControl Agent.

Module ControlChannel.
Import Response ControlModel Health GatewayControl.
Import Collection (PolicyText).
Import ContentStore (ContentText, Signatures).
Import Agent (AgentRuntime, Env, AgentText, env_now, aa_Ack, control_reply, ReplyNone, ReplyAck, ReplyResponse, ReplyEvidence, format_nano, runtimeIdentity, ri_AgentID, ri_TenantID).

(** ** The channel *)

Record Stream := MkStream {
  sr_open : option string;
  sr_send : Z → option string
}.

Record ControlChannel := MkControlChannel {
  ch_manager : string;
  ch_token : string;
  ch_stream : bool;
  ch_next : Z;
  ch_sent : list ControlFrame
}.

Global Instance ControlChannel_eta : Settable ControlChannel := λ x,
  MkControlChannel (ch_manager x) (ch_token x) (ch_stream x) (ch_next x) (ch_sent x).

(** [strings.TrimRight(s, "/")] *)
Definition trim_slashes (s : string) : string :=
  let fix drop l := match l with | "/"%char :: l' => drop l' | _ => l end in
  String.string_of_list_ascii (rev (drop (rev (String.list_ascii_of_string s)))).

Definition normalizeGRPCAddress (manager : string) : string :=
  trim_slashes (TrimPrefix (TrimPrefix manager "http://") "https://").

Definition NewControlChannel (manager token : string) : ControlChannel :=
  MkControlChannel (normalizeGRPCAddress manager) token false 1 [].

Definition Open (stream : Stream) (s : ControlChannel) : option string * ControlChannel :=
  if ch_stream s then (None, s)
  else match sr_open stream with
  | Some e => (Some e, s)
  | None => (None, s <| ch_stream := true |>)
  end.

Definition Send (stream : Stream) (frame : ControlFrame) (s : ControlChannel) : option string * ControlChannel :=
  if bool_decide (cf_RequestId frame = "") then (Some "control channel request_id is required", s)
  else
    let '(failed, s) := Open stream s in
    match failed with
    | Some e => (Some e, s)
    | None =>
      let frame := frame <| cf_ContractVersion := 1%Z |> <| cf_Sequence := ch_next s |> in
      let failed := sr_send stream (ch_next s) in
      let s := s <| ch_next ::= λ n, u64 (n + 1) |> in
      match failed with
      | Some e => (Some e, s)
      | None => (None, s <| ch_sent ::= λ l, l ++ [frame] |>)
      end
    end.

Definition Close (s : ControlChannel) : ControlChannel := s <| ch_stream := false |>.

(** [format_stamp]: [time.Format] with the layout 20060102T150405.000000000Z *)
Class ChannelText := { format_stamp : Time → string }.

Section channel.
Context `{AgentText} `{ChannelText}.

(** ** Messages *)

Definition timestampString (t : Time) : string := if IsZero t then "" else format_nano t.

Definition scopeMessage (scope : Health.RuntimeScope) : ScopeMsg := MkScopeMsg (Health.rs_Type scope) (Health.rs_Selector scope).

Definition capabilityMessage (cap : SensorCapability) : SensorCapabilityMsg :=
  MkSensorCapabilityMsg (scap_Backend cap) (scap_Version cap) (scap_SupportsExec cap) (scap_SupportsConnect cap) (scap_SupportsFile cap)
    (scap_SupportsEnforce cap) (scap_SupportsHealth cap) (scap_KernelRelease cap) (scap_BTFAvailable cap) (scap_BPFFSAvailable cap).

Definition detectionContentRefMessages (items : list ContentRef) : list DetectionContentRefMsg :=
  (λ item, MkDetectionContentRefMsg (hcr_Ref item) (hcr_Kind item) (hcr_Version item) (hcr_Digest item)) <$> items.

Definition collectionBehaviorMessages (items : list CollectionBehaviorCapability) : list CollectionBehaviorMsg :=
  (λ item, MkCollectionBehaviorMsg (hcap_Behavior item) (hcap_Fields item) (hcap_PushdownSelectors item)
     (hcap_AgentSideSelectors item) (hcap_UnsupportedSelectors item) (hcap_SensorMapping item)) <$> items.

Definition busMessage (bus : TelemetryBusHealth) : TelemetryBusHealthMsg :=
  MkTelemetryBusHealthMsg
    (tbh_EventCapacity bus) (tbh_EventBuffered bus) (tbh_EventDropped bus) (tbh_EventSubscribers bus) (tbh_SignalCapacity bus)
    (tbh_SignalBuffered bus) (tbh_SignalDropped bus) (tbh_SignalSubscribers bus).

Definition batcherMessage (batcher : TelemetryBatcherHealth) : TelemetryBatcherHealthMsg :=
  MkTelemetryBatcherHealthMsg
    (tbat_PendingEvents batcher) (tbat_PendingSignals batcher) (tbat_QueuedBatches batcher) (tbat_QueueCapacity batcher)
    (tbat_DroppedBatches batcher) (tbat_DroppedEvents batcher) (tbat_DroppedSignals batcher) (tbat_FlushedBatches batcher)
    (tbat_FlushedEvents batcher) (tbat_FlushedSignals batcher) (tbat_LastFlushReason batcher) (tbat_Closed batcher)
    (tbat_LastError batcher) (tbat_PendingBytes batcher) (tbat_MaxBytes batcher) (tbat_FlushedByCount batcher)
    (tbat_FlushedByBytes batcher) (tbat_FlushedByInterval batcher) (tbat_FlushedByShutdown batcher).

Definition senderMessage (sender : TelemetrySenderHealth) : TelemetrySenderHealthMsg :=
  MkTelemetrySenderHealthMsg
    (tsh_SentBatches sender) (tsh_SentEvents sender) (tsh_SentSignals sender) (tsh_RejectedBatches sender)
    (tsh_RetriedBatches sender) (tsh_Drained sender) (tsh_LastError sender).

Definition cepMessage (cep : CEPHealth) : CEPHealthMsg :=
  MkCEPHealthMsg
    (ceph_ActiveGroups cep) (ceph_EvictedGroups cep) (ceph_ExpiredGroups cep) (ceph_DroppedEventRefs cep)
    (ceph_EvalErrors cep) (ceph_EmittedSignals cep) (ceph_Degraded cep).

Definition streamsMessage (streams : LocalStreamHealth) : LocalStreamHealthMsg :=
  MkLocalStreamHealthMsg
    (lsh_EventCapacity streams) (lsh_EventBuffered streams) (lsh_EventNextSequence streams) (lsh_EventOldestSequence streams)
    (lsh_EventNewestSequence streams) (lsh_EventEvicted streams) (lsh_EventSubscribers streams) (lsh_SignalCapacity streams)
    (lsh_SignalBuffered streams) (lsh_SignalNextSequence streams) (lsh_SignalOldestSequence streams)
    (lsh_SignalNewestSequence streams) (lsh_SignalEvicted streams) (lsh_SignalSubscribers streams).

Definition healthResponse (health : AgentHealth) : HealthResponse :=
  let sensor := ah_Sensor health in
  let detection := ah_Detection health in
  MkHealthResponse (ah_AgentID health) (ah_HostID health) (ah_TenantID health) (Some (scopeMessage (ah_Scope health))) (ah_Status health)
    (ah_PolicyID health) (ah_PolicyVersion health) (ah_PolicyMode health) (ah_UptimeSeconds health) (Some (capabilityMessage (ah_Capability health)))
    (Some (MkSensorHealthMsg (sh_Backend sensor) (sh_Installed sensor) (sh_Running sensor) (sh_Version sensor) (sh_PolicyLoaded sensor)
       (sh_EventsSeen sensor) (sh_EventsDropped sensor) (sh_ParseErrors sensor) (sh_RestartCount sensor)
       (timestampString (sh_LastEventAt sensor)) (sh_LastExitReason sensor) (sh_LastError sensor)))
    (Some (busMessage (ah_TelemetryBus health))) (Some (batcherMessage (ah_TelemetryBatcher health))) (Some (senderMessage (ah_TelemetrySender health)))
    (Some (MkDetectionRuntimeHealthMsg (dh_PolicyID detection) (dh_PolicyVersion detection) (detectionContentRefMessages (dh_ContentRefs detection))
       (dh_LastApplyStatus detection) (dh_LastApplyError detection) (timestampString (dh_UpdatedAt detection)) (dh_DefaultManifestVersion detection)))
    (Some (cepMessage (ah_CEP health))) (Some (streamsMessage (ah_Streams health))) (timestampString (ah_ObservedAt health)).

Definition capabilityResponse (health : AgentHealth) : CapabilityResponse :=
  MkCapabilityResponse (ah_AgentID health) (ah_HostID health) (ah_TenantID health) (Some (scopeMessage (ah_Scope health)))
    (Some (capabilityMessage (ah_Capability health))) ["collection"; "detection"; "telemetry"] ["collect"; "noop"]
    (collectionBehaviorMessages (scap_Collection (ah_Capability health))).

(** ** Frames *)

(** A frame before [Send] numbers it *)
Definition new_frame (ty requestID : string) (ctx : RequestContext) : ControlFrame :=
  zero_frame <| cf_Type := ty |> <| cf_RequestId := requestID |> <| cf_Context := Some ctx |>.

Definition health_context (health : AgentHealth) : RequestContext :=
  MkRequestContext "" (ah_TenantID health) (ah_AgentID health) (Some (MkScopeMsg (Health.rs_Type (ah_Scope health)) (Health.rs_Selector (ah_Scope health)))).

Definition SendHealth (stream : Stream) (now : Time) (health : AgentHealth) : ControlChannel → option string * ControlChannel :=
  Send stream ((new_frame "health_report" ("health-" +:+ format_stamp now) (health_context health)) <| cf_Health := Some (healthResponse health) |>).

Definition SendCapability (stream : Stream) (now : Time) (health : AgentHealth) : ControlChannel → option string * ControlChannel :=
  Send stream ((new_frame "capability_report" ("capability-" +:+ format_stamp now) (health_context health)) <| cf_Capability := Some (capabilityResponse health) |>).

Definition response_ack_frame (ack : Ack) : ControlFrame :=
  (new_frame "response_ack" (rack_ResponseID ack) (MkRequestContext "" (rack_TenantID ack) (rack_AgentID ack) None))
    <| cf_ResponseAck := Some (MkResponseAckMsg (rack_ResponseID ack) (rack_TenantID ack) (rack_AgentID ack) (rack_Accepted ack) (rack_Unsupported ack)
         (rack_ObserveOnly ack) (rack_Executed ack) (rack_Message ack) (format_nano (rack_ObservedAt ack))) |>.

Definition SendResponseAck (stream : Stream) (ack : Ack) : ControlChannel → option string * ControlChannel :=
  Send stream (response_ack_frame ack).

Definition evidence_result_frame (res : EvidencePullbackResult) : ControlFrame :=
  (new_frame "evidence_pullback_result" (er_RequestID res) (MkRequestContext "" (er_TenantID res) (er_AgentID res) None))
    <| cf_EvidenceResult := Some (MkEvidenceResultMsg (er_RequestID res) (er_TenantID res) (er_AgentID res) (er_OK res) (er_Message res) (er_Evidence res)
         (format_nano (er_ObservedAt res))) |>.

Definition SendEvidenceResult (stream : Stream) (res : EvidencePullbackResult) : ControlChannel → option string * ControlChannel :=
  Send stream (evidence_result_frame res).

Definition SendControlAck (stream : Stream) (now : Time) (ack : ControlAck) : ControlChannel → option string * ControlChannel :=
  let requestID := if bool_decide (ka_RequestId ack = "") then "ack-" +:+ format_stamp now else ka_RequestId ack in
  Send stream ((new_frame "ack" requestID (MkRequestContext requestID (ka_TenantId ack) (ka_AgentId ack) None)) <| cf_Ack := Some ack |>).

(** ** The hello *)

(** The frames up to the cursor; [closing] is the error when no more come. *)
Fixpoint hello_frames (requestID closing : string) (inbox : list ControlFrame) : result (list ControlFrame) * list ControlFrame :=
  match inbox with
  | [] => (Err closing, [])
  | frame :: rest =>
    let more := let '(frames, rest) := hello_frames requestID closing rest in (frames ← frames; mret (frame :: frames), rest) in
    if negb (bool_decide (cf_RequestId frame = requestID)) then more
    else if bool_decide (cf_Type frame = "ack") && bool_decide (from_option ka_Status "" (cf_Ack frame) = "rejected")
    then (Err ("control channel hello rejected: " +:+ from_option ka_Message "" (cf_Ack frame)), rest)
    else if bool_decide (cf_Type frame = "resume") then (Ok [frame], rest)
    else more
  end.

Definition Hello (stream : Stream) (now : Time) (tenantID agentID scopeType scopeSelector closing : string) (inbox : list ControlFrame) (s : ControlChannel)
    : (result (list ControlFrame) * list ControlFrame) * ControlChannel :=
  let requestID := "hello-" +:+ format_stamp now in
  let '(failed, s) := Send stream (new_frame "hello" requestID (MkRequestContext "" tenantID agentID (Some (MkScopeMsg scopeType scopeSelector)))) s in
  match failed with
  | Some e => ((Err e, inbox), s)
  | None => (hello_frames requestID closing inbox, s)
  end.

Definition ReportHealth (stream : Stream) (now : Time) (health : AgentHealth) (reply : result ControlFrame) (s : ControlChannel)
    : option string * ControlChannel :=
  let '(failed, s) := SendHealth stream now health s in
  match failed, reply with
  | Some e, _ => (Some e, s)
  | None, Err e => (Some e, s)
  | None, Ok frame =>
    if bool_decide (cf_Type frame = "ack") && bool_decide (from_option ka_Status "" (cf_Ack frame) = "accepted") then (None, s)
    else (Some ("control channel health rejected: " +:+ from_option ka_Message "" (cf_Ack frame)), s)
  end.
End channel.

(** ** A session *)

Section session.
Context `{PolicyText} `{ContentText} `{Signatures} `{AgentText} `{RangeOrder} `{ChannelText}.
Context (enforce : EnforcementCmd → result EnforcementAck) (stream : Stream).

Definition deliver (now : Time) (reply : control_reply) (s : ControlChannel) : option string * ControlChannel :=
  match reply with
  | ReplyNone => (None, s)
  | ReplyAck ack => SendControlAck stream now (aa_Ack ack) s
  | ReplyResponse ack => SendResponseAck stream ack s
  | ReplyEvidence res => SendEvidenceResult stream res s
  end.

(** [handleControlFrame] with what it sends *)
Definition answer (env : Env) (frame : ControlFrame) (s : ControlChannel) (r : AgentRuntime) : option string * (ControlChannel * AgentRuntime) :=
  let '(reply, r) := Agent.handleControlFrame env enforce frame r in
  match reply with
  | Err e => (Some e, (s, r))
  | Ok reply => let '(failed, s) := deliver (env_now env) reply s in (failed, (s, r))
  end.

Fixpoint answer_all (env : Env) (frames : list ControlFrame) (s : ControlChannel) (r : AgentRuntime) : option string * (ControlChannel * AgentRuntime) :=
  match frames with
  | [] => (None, (s, r))
  | frame :: frames' =>
    let '(failed, (s, r)) := answer env frame s r in
    match failed with
    | Some e => (Some e, (s, r))
    | None => answer_all env frames' s r
    end
  end.

Definition report (now : Time) (health : AgentHealth) (s : ControlChannel) : option string * ControlChannel :=
  let '(failed, s) := SendHealth stream now health s in
  match failed with
  | Some e => (Some e, s)
  | None => SendCapability stream now health s
  end.

(** What wakes the loop: a frame, the ticker with the health that is
    collected, the end of the stream, the end of the agent *)
Inductive Wake :=
| WakeFrame (frame : ControlFrame)
| WakeTick (health : result AgentHealth)
| WakeClosed (eof : bool) (error : string)
| WakeDone (error : string).

Fixpoint control_loop (wakes : list (Env * Wake)) (s : ControlChannel) (r : AgentRuntime) : option string * (ControlChannel * AgentRuntime) :=
  match wakes with
  | [] => (None, (s, r))
  | (env, wake) :: wakes' =>
    match wake with
    | WakeDone e => (Some e, (s, r))
    | WakeClosed eof e => (Some (if eof then "control channel closed" else e), (s, r))
    | WakeFrame frame =>
      let '(failed, (s, r)) := answer env frame s r in
      match failed with Some e => (Some e, (s, r)) | None => control_loop wakes' s r end
    | WakeTick (Err e) => (Some e, (s, r))
    | WakeTick (Ok health) =>
      let '(failed, s) := report (env_now env) health s in
      match failed with Some e => (Some e, (s, r)) | None => control_loop wakes' s r end
    end
  end.

(** [inbox]: the frames received until the hello is answered; [health]: what
    is collected then.  [None]: the session still runs. *)
Definition runControlChannel (env : Env) (manager token scopeType scopeSelector closing : string) (identity : runtimeIdentity)
    (inbox : list ControlFrame) (health : result AgentHealth) (wakes : list (Env * Wake)) (r : AgentRuntime) : option string * (ControlChannel * AgentRuntime) :=
  let now := env_now env in
  let '(failed, s) := Open stream (NewControlChannel manager token) in
  match failed with
  | Some e => (Some e, (s, r))
  | None =>
    let '((frames, _), s) := Hello stream now (ri_TenantID identity) (ri_AgentID identity) scopeType scopeSelector closing inbox s in
    match frames with
    | Err e => (Some e, (s, r))
    | Ok frames =>
      let '(failed, (s, r)) := answer_all env frames s r in
      match failed with
      | Some e => (Some e, (s, r))
      | None =>
        let '(failed, s) := match health with Err _ => (None, s) | Ok health => report now health s end in
        match failed with
        | Some e => (Some e, (s, r))
        | None => control_loop wakes s r
        end
      end
    end
  end.
End session.

Definition second : Z := 10 ^ 9.

(** The pauses between sessions: [runControlFlow], and
    [runControlFlowForEnrollment] *)
Definition first_backoff (retryInitial : Z) : Z := if (retryInitial <=? 0)%Z then second else retryInitial.
Definition max_backoff (retryMax : Z) : Z := if (retryMax <=? 0)%Z then (30 * second)%Z else retryMax.
Definition next_backoff (limit backoff : Z) : Z := if (limit <? i64 (backoff * 2))%Z then limit else i64 (backoff * 2).
Definition next_managed_backoff (backoff : Z) : Z := if (backoff <? 30 * second)%Z then i64 (backoff * 2) else backoff.
End ControlChannel.
