(* ===== verification/ChannelTheorems.v ===== *)
(** * The control channel: what the gateway makes of it

    Every frame a session sends carries the number the gateway expects next,
    so that none is refused as repeated or out of order.  What the agent puts
    into a message the gateway reads back, and the other way round. *)

From S2P Require Import Prelude GoStrings GoBytes GoData GoSha GoText EventModel Policy Engine LocalStore DataPlane Response ControlModel PolicyModel Health Collection StoreData ContentStore IngestWorker Gateway GatewayTheorems GatewayControl ControlTheorems ContentTheorems Agent AgentTheorems ControlChannel.

Module ChannelTheorems.
Import Response ControlModel Health GatewayControl ControlChannel.
Import Collection (PolicyText).
Import ContentStore (ContentText, Signatures).
Import IngestWorker (Texts, parse_time).
Import Agent (AgentRuntime, Env, AgentText, aa_Ack, format_nano, runtimeIdentity, decode_command, decode_pullback).
Import ControlTheorems (accepted, answers, refusal, expected, expected_dec).

(** ** Numbers *)

(** The frames sent carry the numbers from one on. *)
Definition in_order (frames : list ControlFrame) : Prop :=
  ∀ i frame, frames !! i = Some frame → cf_ContractVersion frame = 1%Z ∧ cf_RequestId frame ≠ "" ∧ cf_Sequence frame = u64 (1 + Z.of_nat i).

Definition in_step (s : ControlChannel) : Prop := in_order (ch_sent s) ∧ ch_next s = u64 (1 + Z.of_nat (length (ch_sent s))).

(** After a step: what was sent is in order, and so is the channel unless the
    step failed *)
Definition stepped (failed : option string) (s : ControlChannel) : Prop := in_order (ch_sent s) ∧ (failed = None → in_step s).

Lemma stepped_ok s : in_step s → stepped None s.
Proof. intros Hs. split; [apply Hs|done]. Qed.

Lemma stepped_failed e s : in_step s → stepped (Some e) s.
Proof. intros Hs. split; [apply Hs|done]. Qed.

Lemma in_order_snoc frames frame :
  in_order frames → cf_ContractVersion frame = 1%Z → cf_RequestId frame ≠ "" → cf_Sequence frame = u64 (1 + Z.of_nat (length frames)) → in_order (frames ++ [frame]).
Proof.
  intros Hf Hv Hi Hs i f. rewrite lookup_app_Some. intros [Hl|[Hlen Hl]]; [by apply Hf|]. apply list_lookup_singleton_Some in Hl as [Hi0 <-].
  assert (i = length frames) as -> by lia. done.
Qed.

Lemma Open_stepped stream s : in_step s → stepped (Open stream s).1 (Open stream s).2.
Proof. intros Hs. unfold Open. destruct (ch_stream s); [by apply stepped_ok|]. destruct (sr_open stream); [by apply stepped_failed|]. apply stepped_ok. exact Hs. Qed.

Lemma Send_stepped stream frame s : in_step s → stepped (Send stream frame s).1 (Send stream frame s).2.
Proof.
  intros Hs. unfold Send. case_bool_decide as Hid; [by apply stepped_failed|]. pose proof (Open_stepped stream s Hs) as Ho.
  destruct (Open stream s) as [[e|] s1]; [exact Ho|]. destruct (proj2 Ho eq_refl) as [Hord Hn]. cbn [snd] in Hord, Hn. destruct (sr_send stream (ch_next s1)); [split; [exact Hord|done]|].
  apply stepped_ok. split; cbn; [by apply in_order_snoc|]. rewrite Hn, length_app. unfold u64. cbn. rewrite Z.add_mod_idemp_l by done. f_equal. lia.
Qed.
#[local] Hint Resolve Send_stepped stepped_ok stepped_failed : channel.

Section session.
Context `{PolicyText} `{ContentText} `{Signatures} `{AgentText} `{RangeOrder} `{ChannelText}.
Context (enforce : EnforcementCmd → result EnforcementAck) (stream : Stream).

Lemma deliver_stepped now reply s : in_step s → stepped (deliver stream now reply s).1 (deliver stream now reply s).2.
Proof. destruct reply; cbn [deliver]; unfold SendControlAck, SendResponseAck, SendEvidenceResult; auto with channel. Qed.

Lemma answer_stepped env frame s r : in_step s → let '(failed, (s', _)) := answer enforce stream env frame s r in stepped failed s'.
Proof.
  intros Hs. unfold answer. destruct (Agent.handleControlFrame env enforce frame r) as [[reply|e] r']; [|by apply stepped_failed].
  pose proof (deliver_stepped (Agent.env_now env) reply s Hs) as Hd. by destruct (deliver _ _ _ _).
Qed.

Lemma answer_all_stepped env frames s r : in_step s → let '(failed, (s', _)) := answer_all enforce stream env frames s r in stepped failed s'.
Proof.
  revert s r. induction frames as [|frame frames IH]; intros s r Hs; [by apply stepped_ok|]. cbn [answer_all].
  pose proof (answer_stepped env frame s r Hs) as Ha. destruct (answer _ _ _ _ _ _) as [[e|] [s' r']]; [done|]. apply IH. by apply Ha.
Qed.

Lemma report_stepped now health s : in_step s → stepped (report stream now health s).1 (report stream now health s).2.
Proof.
  intros Hs. unfold report. pose proof (Send_stepped stream ((new_frame "health_report" ("health-" +:+ format_stamp now) (health_context health))
    <| cf_Health := Some (healthResponse health) |>) s Hs) as Hh. unfold SendHealth. destruct (Send _ _ s) as [[e|] s']; [done|].
  apply Send_stepped. by apply Hh.
Qed.

Lemma control_loop_stepped wakes s r : in_step s → let '(failed, (s', _)) := control_loop enforce stream wakes s r in stepped failed s'.
Proof.
  revert s r. induction wakes as [|[env [frame|[health|e]|eof e|e]] wakes IH]; intros s r Hs; cbn [control_loop]; auto with channel.
  - pose proof (answer_stepped env frame s r Hs) as Ha. destruct (answer _ _ _ _ _ _) as [[e|] [s' r']]; [done|]. apply IH. by apply Ha.
  - pose proof (report_stepped (Agent.env_now env) health s Hs) as Hr. destruct (report _ _ _ _) as [[e|] s']; [done|]. apply IH. by apply Hr.
Qed.

Lemma session_stepped env manager token scopeType scopeSelector closing identity inbox health wakes r :
  let '(_, (s, _)) := runControlChannel enforce stream env manager token scopeType scopeSelector closing identity inbox health wakes r in in_order (ch_sent s).
Proof.
  unfold runControlChannel. assert (in_step (NewControlChannel manager token)) as Hs0 by (split; [by intros i f|done]).
  pose proof (Open_stepped stream _ Hs0) as Ho. destruct (Open _ _) as [[e|] s]; [exact (proj1 Ho)|]. specialize (proj2 Ho eq_refl) as Hs.
  unfold Hello. match goal with |- context [Send stream ?f s] => pose proof (Send_stepped stream f s Hs) as Hh; destruct (Send stream f s) as [[e|] s1] end; [exact (proj1 Hh)|].
  destruct (hello_frames _ _ _) as [[frames|e] rest]; [|exact (proj1 Hh)]. specialize (proj2 Hh eq_refl) as Hs1.
  pose proof (answer_all_stepped env frames s1 r Hs1) as Ha. destruct (answer_all _ _ _ _ _ _) as [[e|] [s2 r2]]; [exact (proj1 Ha)|]. specialize (proj2 Ha eq_refl) as Hs2.
  assert (∀ p : option string * ControlChannel, stepped p.1 p.2 →
    let '(_, (s, _)) := (let '(failed, s) := p in match failed with Some e => (Some e, (s, r2)) | None => control_loop enforce stream wakes s r2 end) in in_order (ch_sent s)) as Hend.
  { intros [[e|] s3] Hp; [exact (proj1 Hp)|]. pose proof (control_loop_stepped wakes s3 r2 (proj2 Hp eq_refl)) as Hl.
    destruct (control_loop _ _ _ _ _) as [failed [s4 r4]]. exact (proj1 Hl). }
  destruct health as [health|e]; [apply Hend; by apply report_stepped|apply (Hend (None, s2)); by apply stepped_ok].
Qed.
End session.

Lemma accepted_in_order frames n :
  (∀ i frame, frames !! i = Some frame → cf_ContractVersion frame = 1%Z ∧ cf_RequestId frame ≠ "" ∧ cf_Sequence frame = u64 (n + Z.of_nat i)) →
  (0 < n)%Z → (n + Z.of_nat (length frames) <= 2 ^ 64)%Z → accepted n frames = frames.
Proof.
  revert n. induction frames as [|frame frames IH]; intros n Hf Hn Hlen; [done|]. cbn [accepted]. destruct (Hf 0%nat frame eq_refl) as (Hv & Hid & Hs).
  cbn [length] in Hlen. assert (u64 n = n) as Hu by (unfold u64; apply Z.mod_small; lia). rewrite Z.add_0_r, Hu in Hs.
  rewrite decide_True by (repeat split; [done|done|lia|done]). f_equal. destruct frames as [|frame' frames]; [done|].
  assert (u64 (n + 1) = n + 1)%Z as Hu1 by (unfold u64; apply Z.mod_small; cbn [length] in Hlen; lia). rewrite Hu1. apply IH; [|lia|lia].
  intros i f Hi. destruct (Hf (S i) f Hi) as (Hv' & Hid' & Hs'). split_and!; [done|done|]. rewrite Hs'. f_equal. lia.
Qed.

Lemma accepted_length n frames : (length (accepted n frames) <= length frames)%nat.
Proof.
  revert n. induction frames as [|frame frames IH]; intros n; [done|]. cbn [accepted]. case_decide; cbn; [specialize (IH (u64 (n + 1)))|specialize (IH n)]; lia.
Qed.

Lemma answers_in_order table frames n : accepted n frames = frames →
  answers refusal table n frames = mjoin ((λ frame, default [] (table !! cf_RequestId frame)) <$> frames).
Proof.
  revert n. induction frames as [|frame frames IH]; intros n; [done|]. cbn [accepted answers]. case_decide as He.
  - intros [= Ha]. cbn. f_equal. by apply IH.
  - intros Ha. apply (f_equal length) in Ha. pose proof (accepted_length n frames). cbn in Ha. lia.
Qed.

(** C20. The gateway refuses no frame of a session as repeated, missing or
    malformed: whatever the network does, whatever the gateway sends and
    whatever the agent answers, the frames sent from the opening of a channel
    on carry the numbers that the gateway expects, so that it accepts all of
    them, and what it answers are the replies to their requests. *)
Theorem session_accepted `{PolicyText} `{ContentText} `{Signatures} `{AgentText} `{RangeOrder} `{ChannelText}
    enforce stream env manager token scopeType scopeSelector closing identity inbox health wakes r :
  let '(_, (s, _)) := runControlChannel enforce stream env manager token scopeType scopeSelector closing identity inbox health wakes r in
  (Z.of_nat (length (ch_sent s)) < 2 ^ 64)%Z →
  accepted 1 (ch_sent s) = ch_sent s ∧
  ∀ table, answers refusal table 1 (ch_sent s) = mjoin ((λ frame, default [] (table !! cf_RequestId frame)) <$> ch_sent s).
Proof.
  pose proof (session_stepped enforce stream env manager token scopeType scopeSelector closing identity inbox health wakes r) as Hs.
  destruct (runControlChannel _ _ _ _ _ _ _ _ _ _ _ _ _) as [failed [s r']]. intros Hlen. assert (accepted 1 (ch_sent s) = ch_sent s) as Ha.
  { apply accepted_in_order; [exact Hs|lia|lia]. }
  split; [done|]. intros table. by apply answers_in_order.
Qed.

(** ** Messages *)

(** A time that RFC 3339 can write: the years 1 to 9999 *)
Definition rfc_time (t : Time) : Prop := (0 <= t < 3652059 * 86400 * 10 ^ 9)%Z.

(** [time.Format] and [time.Parse] with the layout of RFC 3339 *)
Class TimeLaws `{AgentText} `{Texts} : Prop := {
  time_read t : rfc_time t → format_nano t ≠ "" ∧ parse_time (format_nano t) = Some t
}.

Section messages.
Context `{AgentText} `{Texts} `{ControlText} `{!TimeLaws}.

Lemma read_time t : rfc_time t → parseControlTime (format_nano t) = t.
Proof. intros [Hne Hp]%time_read. unfold parseControlTime. by rewrite bool_decide_eq_false_2, Hp by done. Qed.

Lemma read_timestamp t : rfc_time t → parseControlTime (timestampString t) = t.
Proof. unfold timestampString, IsZero. intros Ht. destruct (Z.eqb_spec t 0) as [->|]; [done|by apply read_time]. Qed.

(** What the gateway keeps of the health of an agent: not the detection, the
    streams and the capabilities of the behaviours *)
Definition reported_health (health : AgentHealth) : AgentHealth :=
  let cap := ah_Capability health in
  MkAgentHealth (ah_AgentID health) (ah_HostID health) (ah_TenantID health) (ah_Scope health) (ah_Status health) (ah_PolicyID health) (ah_PolicyVersion health)
    (ah_PolicyMode health) (ah_UptimeSeconds health)
    (MkSensorCapability (scap_Backend cap) (scap_Version cap) (scap_SupportsExec cap) (scap_SupportsConnect cap) (scap_SupportsFile cap)
       (scap_SupportsEnforce cap) (scap_SupportsHealth cap) (scap_KernelRelease cap) (scap_BTFAvailable cap) (scap_BPFFSAvailable cap) [])
    (ah_Sensor health) (ah_TelemetryBus health) (ah_TelemetryBatcher health) (ah_TelemetrySender health) zero_detection (ah_CEP health) zero_streams
    (ah_ObservedAt health).

(** C40. The gateway reads what the agent wrote: the health of an agent, copied
    field by field into the message of the control channel (identity, policy,
    sensor, bus, batcher, sender, engine) and field by field out of it, is the
    health the agent had, except for the detection, the streams and the
    capabilities of behaviours, which the gateway does not keep; and so for
    the acknowledgement of a response and for evidence, whole.  The times must
    be ones that RFC 3339 can write, the years 1 to 9999. *)
Theorem messages_understood health ack res :
  rfc_time (ah_ObservedAt health) → rfc_time (sh_LastEventAt (ah_Sensor health)) → rfc_time (rack_ObservedAt ack) → rfc_time (er_ObservedAt res) →
  agentHealthFromControl (Some (healthResponse health)) = reported_health health ∧
  responseAckFromControl (cf_ResponseAck (response_ack_frame ack)) = ack ∧
  evidencePullbackResultFromControl (cf_EvidenceResult (evidence_result_frame res)) = res.
Proof.
  intros Hh Hs Ha He. split_and!.
  - unfold agentHealthFromControl, healthResponse. cbn. rewrite !read_timestamp by done. by destruct health as [? ? ? [] ? ? ? ? ? [] [] [] [] [] ? [] ? ?].
  - unfold response_ack_frame, responseAckFromControl. cbn. rewrite read_time by done. by destruct ack.
  - unfold evidence_result_frame, evidencePullbackResultFromControl. cbn. rewrite read_time by done. by destruct res.
Qed.
End messages.

(** ** Commands *)

Section commands.
Context `{PolicyText} `{ContentText} `{Signatures} `{AgentText} `{RangeOrder} `{ControlText}.

Lemma engine_status r p c ct : Engine.rep_Status (Agent.new_engine r p c ct).2 ∈ ["applied"; "degraded"; "rejected"].
Proof. unfold Agent.new_engine, Engine.NewWithRuntimeLimits. repeat case_bool_decide; cbn; set_solver. Qed.

(** An acknowledgement names the request and says what became of it. *)
Definition answers_request (ctx : RequestContext) (ack : Agent.AgentAck) : Prop :=
  ka_RequestId (aa_Ack ack) = rq_RequestId ctx ∧ Agent.aa_Status ack ∈ ["applied"; "degraded"; "rejected"].

Lemma endpoint_answered env req ctx r :
  Agent.pq_Context req = Some ctx → Agent.pq_DryRun req = false → answers_request ctx (Agent.applyEndpointPolicy env req r).1.
Proof.
  intros Hc Hd. unfold Agent.applyEndpointPolicy, answers_request. rewrite Hc, Hd.
  destruct (Agent.prepareEndpointPolicy _ _) as [prepared|e] eqn:Hp; [|split; [done|set_solver]].
  destruct (Agent.apply_intent _ _ r) as [[e|] r1]; [split; [done|set_solver]|].
  destruct (Agent.persistEndpointPolicy _ _ _) as [[e|] r2]; [split; [done|set_solver]|]. split; [done|]. cbn.
  destruct (AgentTheorems.prepared_facts _ _ _ Hp) as (_ & _ & _ & _ & c & Hn & _).
  pose proof (engine_status r (Some (PolicyModel.epol_Detection (Agent.pp_policy prepared))) c (Agent.detectionContentSnapshot r)) as Hs. by rewrite Hn in Hs.
Qed.

Lemma content_answered env req ctx r :
  Agent.cq_Context req = Some ctx → Agent.cq_DryRun req = false → answers_request ctx (Agent.applyContentUpdate env (Some req) r).1.
Proof.
  intros Hc Hd. unfold Agent.applyContentUpdate, answers_request. rewrite Hc, Hd.
  destruct (Agent.validateControlContext _ _); [split; [done|set_solver]|]. destruct (ContentStore.Apply _ _ _ _ _).1 as [record0|e]; [|split; [done|set_solver]].
  unfold Agent.applyContentTransaction. rewrite Hc.
  destruct (ContentStore.Prepare _ _ _) as [[record snap]|e] eqn:Hp; [|split; [done|set_solver]]. apply AgentTheorems.prepared_applied in Hp.
  destruct (Agent.buildDetectionWithSnapshot _ _ _) as [engine report]. destruct (Agent.is_rejected report); [split; [done|set_solver]|].
  destruct (Agent.commitDetectionContent _ _ _ _ _ _) as [[e|] r1]; [split; [done|set_solver]|].
  split; [cbn; by rewrite Hc|]. cbn. rewrite Hp. case_bool_decide; set_solver.
Qed.

(** C21. A command of the manager is acknowledged under its name: the agent
    answers the frame the gateway makes of a command with an acknowledgement
    that the gateway reads as one of that command, by the identity the agent
    is enrolled with, and that says [applied], [degraded] or [rejected]; if it
    is rejected, nothing in force has changed. *)
Theorem commands_acknowledged env enforce now later cmd scope frame r :
  controlCommandFrame now cmd scope = Ok (Some frame) →
  let '(reply, r') := Agent.handleControlFrame env enforce frame r in
  ∃ ack, reply = Ok (Agent.ReplyAck ack) ∧
    let read := controlCommandAckFromControl later (Some (aa_Ack ack)) in
    cca_CommandID read = cc_CommandID cmd ∧ cca_TenantID read = Agent.ri_TenantID (Agent.currentIdentity r') ∧
    cca_AgentID read = Agent.ri_AgentID (Agent.currentIdentity r') ∧ cca_Status read ∈ ["applied"; "degraded"; "rejected"] ∧
    (cca_Status read = "rejected" → AgentTheorems.undone env r r').
Proof.
  unfold controlCommandFrame. case_bool_decide as Hp.
  - match goal with |- context [match ?x with Ok _ => _ | Err _ => _ end] => destruct x as [policy|e]; [|done] end. intros [= <-].
    unfold Agent.handleControlFrame. cbn -[Agent.applyEndpointPolicy]. rewrite Hp. cbn -[Agent.applyEndpointPolicy].
    match goal with |- context [Agent.applyEndpointPolicy env ?q r] => pose proof (endpoint_answered env q _ r eq_refl eq_refl) as [Hid Hs];
      pose proof (AgentTheorems.endpoint_undone env q r) as Hu; destruct (Agent.applyEndpointPolicy env q r) as [ack r'] end.
    eexists. split; [done|]. cbn in *. split_and!; [done|done|done|done|]. intros Hr. apply Hu. by left.
  - case_bool_decide as Hc; [|done]. intros [= <-]. unfold Agent.handleControlFrame. cbn -[Agent.applyContentUpdate]. rewrite Hc. cbn -[Agent.applyContentUpdate].
    match goal with |- context [Agent.applyContentUpdate env (Some ?q) r] => pose proof (content_answered env q _ r eq_refl eq_refl) as [Hid Hs];
      pose proof (AgentTheorems.content_undone env (Some q) r) as Hu; destruct (Agent.applyContentUpdate env (Some q) r) as [ack r'] end.
    eexists. split; [done|]. cbn in *. split_and!; [|done|done|done|].
    + rewrite Hid. by case_bool_decide.
    + intros Hr. apply Hu. by left.
Qed.
End commands.

(** ** Examples *)

(** A time is written in binary, from its last digit on. *)
Fixpoint write_bits (p : positive) : string :=
  match p with
  | xH => ""
  | xO p => String "0" (write_bits p)
  | xI p => String "1" (write_bits p)
  end.

Fixpoint read_bits (s : string) : positive :=
  match s with
  | String "1" s => xI (read_bits s)
  | String _ s => xO (read_bits s)
  | EmptyString => xH
  end.

Lemma read_write_bits p : read_bits (write_bits p) = p.
Proof. induction p as [p IH|p IH|]; cbn; by rewrite ?IH. Qed.

Definition write_time (t : Time) : string := match t with Zpos p => String "+" (write_bits p) | Z0 => "0" | Zneg p => "-" end.
Definition parse_written (s : string) : option Time := match s with String "+" s => Some (Zpos (read_bits s)) | "0" => Some 0%Z | _ => None end.

Definition demo_command : Command :=
  MkCommand "resp-1" "acme" "a-1" "p1" 1 "sig-1" ∅ (MkScope "" "") "kill_process" "observe" "pid:7" "" "approved" "alice" false "" 0 [] [] "" 0%Z 9%Z 9%Z.
Definition demo_pullback : EvidencePullbackRequest :=
  MkEvidencePullbackRequest "ev-1" "acme" "a-1" "inc-1" ∅ "pid:7" "" "pending" false "" "alice" 9%Z 9%Z 0%Z.

Definition wire_agent : AgentText := {|
  Agent.decode_detection_member _ := Ok None;
  Agent.decode_detection _ := Err "unexpected end of JSON input";
  Agent.decode_members _ := Err "unexpected end of JSON input";
  Agent.decode_telemetry _ := Err "unexpected end of JSON input";
  Agent.marshal_telemetry _ := "{}";
  Agent.marshal_report _ := "{}";
  Agent.marshal_explain _ _ := "{}";
  Agent.show_selectors _ := "[]";
  Agent.decode_command _ := Ok demo_command;
  Agent.decode_pullback _ := Ok demo_pullback;
  Agent.marshal_subgraph id kind name := Ok (id +:+ "/" +:+ kind +:+ "/" +:+ name);
  Agent.duration_error text := "time: invalid duration " +:+ text;
  Agent.format_nano := write_time
|}.

Definition wire_texts : Texts := {|
  IngestWorker.marshal_envelope _ := Ok ""; IngestWorker.marshal_event _ := Ok "{}"; IngestWorker.marshal_signal _ := Ok "{}";
  IngestWorker.marshal_incident _ := Ok "{}"; IngestWorker.marshal_evidence _ := Ok "{}"; IngestWorker.unmarshal_event _ := Err "no event";
  IngestWorker.unmarshal_signal _ := Err "no signal"; IngestWorker.unmarshal_batch _ := Err "no batch"; IngestWorker.json_value := string;
  IngestWorker.json_string := id; IngestWorker.unmarshal_object _ := None; IngestWorker.marshal_object _ := ""; IngestWorker.format_time := write_time;
  IngestWorker.parse_time := parse_written; IngestWorker.texts_unicode := {| print_rune _ := false |}
|}.

Local Existing Instances wire_agent wire_texts ControlTheorems.demo_control_text AgentTheorems.demo_policy_text ContentTheorems.demo_text.
Local Existing Instances ContentTheorems.demo_signatures ContentTheorems.demo_range.

Instance wire_laws : TimeLaws.
Proof. split. intros [|p|p] [Hlo Hhi]; [done| |lia]. split; [done|]. cbn. by rewrite read_write_bits. Qed.

Definition demo_health : AgentHealth :=
  MkAgentHealth "a-1" "web-1" "acme" (Health.MkRuntimeScope "host" "") "healthy" "p1" 2 "observe" 60
    (MkSensorCapability "tetragon" "1.2" true true true false true "6.1" true true [])
    (MkSensorHealth "tetragon" true true "1.2" true 10 0 0 0 8%Z "" "") (MkTelemetryBusHealth 1 2 3 4 5 6 7 8)
    (MkTelemetryBatcherHealth 1 2 3 4 5 6 7 8 9 10 11 12 13 14 15 16 "count" false "queue full") (MkTelemetrySenderHealth 1 2 3 4 5 true "refused")
    zero_detection (MkCEPHealth 1 2 3 4 5 6 true) zero_streams 9%Z.
Definition demo_ack : Ack := MkAck "resp-1" "acme" "a-1" true false true false "observe-only" 9%Z.
Definition demo_result : EvidencePullbackResult := MkEvidencePullbackResult "ev-1" "acme" "a-1" true "collected target evidence" "{}" 9%Z.

Lemma messages_understood_witness :
  agentHealthFromControl (Some (healthResponse demo_health)) = demo_health ∧
  responseAckFromControl (cf_ResponseAck (response_ack_frame demo_ack)) = demo_ack.
Proof.
  destruct (messages_understood demo_health demo_ack demo_result) as (Hh & Ha & _); [unfold rfc_time; cbn; lia..|]. split; [exact Hh|exact Ha].
Defined.

(** A piece of content that the manager distributes *)
Definition demo_control : ControlCommand :=
  MkControlCommand "cmd-1" "local" "d-1" ControlCommandTypeContentUpdate "pending" "" 0 "" "" ""
    (ContentTheorems.demo_signed "rulepack" "rules:core" "core") "" "" 1%Z 1%Z 0%Z 0%Z 0%Z 0%Z 0%Z 0 "" "" "" 0 "" "".
Definition demo_frame : ControlFrame := match controlCommandFrame 1%Z demo_control None with Ok (Some frame) => frame | _ => zero_frame end.

Lemma commands_acknowledged_witness :
  ∃ ack, (Agent.handleControlFrame AgentTheorems.demo_env (λ _, Err "unsupported") demo_frame AgentTheorems.demo_running).1 = Ok (Agent.ReplyAck ack) ∧
    cca_CommandID (controlCommandAckFromControl 2%Z (Some (aa_Ack ack))) = "cmd-1".
Proof.
  pose proof (commands_acknowledged AgentTheorems.demo_env (λ _, Err "unsupported") 1%Z 2%Z demo_control None demo_frame AgentTheorems.demo_running
    ltac:(vm_compute; reflexivity)) as Hc.
  destruct (Agent.handleControlFrame _ _ _ _) as [reply r']. destruct Hc as (ack & Hr & Hid & _). exists ack. split; [exact Hr|exact Hid].
Defined.

(** An agent that is enrolled under another identity than the one of the
    device: the gateway refuses its acknowledgement of a response, and the
    agent ends the session when it reads the refusal; the response stays
    pending and is sent, and executed, again at the next hello. *)
Example acknowledgement_refused :
  let managed := LocalStore.MkEnrollment LocalStore.StateManaged "acme" "a-1" "gw:443" "" "" "" "" false 0 9 in
  let r := Agent.applyEnrollmentIdentity 9%Z managed AgentTheorems.demo_running in
  let ack := Agent.executeResponse 9%Z (λ _, Err "unsupported") demo_command r in
  let frame := response_ack_frame ack in
  match (ControlTheorems.demo_handle (ControlTheorems.certified "acme/a-1") frame GatewayTheorems.demo_gateway).1 with
  | inl e => (Agent.handleControlFrame AgentTheorems.demo_env (λ _, Err "unsupported") (rejection frame e) r).1 = Err ("control channel request rejected: " +:+ status_text e)
  | inr _ => False
  end.
Proof. vm_compute. reflexivity. Qed.
End ChannelTheorems.
