(* ===== verification/ManagerApi.v ===== *)
(** * The manager's API ([internal/manager/auth], [internal/manager/api])

    A request is authenticated by its token, bound to the tenant of the token
    ([http_auth.go]), and handled on the manager's store: policies and their
    assignments ([http_policy.go]), commands and evidence ([http_control.go]),
    responses ([http_responses.go]), agents ([http_identity.go]), analysis on
    demand ([http_analysis.go]).  [ManagerServer] puts these handlers and
    those of [ManagerEnrollment] behind one server.

    The signature of a token is checked by a package that is not part of the
    repository: [verify_token] stands for it, with the key, the issuer and the
    audience of the verifier.  [ApiText] is what encoding/json makes of a text:
    [parse_object] decodes into a map of anything ([None] inside for the text
    null), the others decode the first value of a body into the structure of
    a request.  [Env] holds the clock, the failure of [Save], and the answers
    of the durable backend to the calls of a request: [None] when it failed,
    and, where it looks up one policy, also when it found none. *)

From S2P Require Import Prelude GoStrings GoBytes GoData GoText EventModel Policy Response ControlModel PolicyModel Health Analytics StoreData StoreAgents StorePolicies StoreTelemetry StoreResponses StoreCommands ContentStore.

Module ManagerApi.
Import Response ControlModel PolicyModel Health StoreData StoreAgents StorePolicies StoreTelemetry StoreCommands.
Import StoreResponses (ListResponses, PendingResponses, responseDecisionRequest, reply, BadRequest, NotFound, Forbidden, Created).

(** ** Tokens ([auth/jwt.go]) *)

Record Claims := MkClaims { cl_Subject : string; cl_TenantID : string; cl_Roles : list string }.
Record Principal := MkPrincipal { pr_Subject : string; pr_TenantID : string; pr_Roles : list string }.

Definition HasRole (role : string) (p : Principal) : bool :=
  existsb (λ granted, bool_decide (granted = role) || bool_decide (granted = "admin")) (pr_Roles p).

Definition recognizedRoles (roles : list string) : list string :=
  omap (λ role, if bool_decide (TrimSpace role ∈ ["viewer"; "operator"; "admin"]) then Some (TrimSpace role) else None) roles.

Definition Verify (verify_token : string → result Claims) (raw : string) : result Principal :=
  match verify_token raw with
  | Err e => Err ("verify JWT: " +:+ e)
  | Ok claims =>
    let principal := MkPrincipal (TrimSpace (cl_Subject claims)) (TrimSpace (cl_TenantID claims)) (recognizedRoles (cl_Roles claims)) in
    if bool_decide (pr_Subject principal = "") || bool_decide (pr_TenantID principal = "") || bool_decide (pr_Roles principal = [])
    then Err "JWT subject, tenant_id, and recognized roles are required" else Ok principal
  end.

(** ** Requests *)

Record Request := MkRequest {
  hq_Method : string;
  hq_Path : string;
  hq_Query : list (string * string);
  hq_Authorization : string;
  hq_ContentType : string;
  hq_Body : string;
  hq_Principal : option Principal
}.

Global Instance Request_eta : Settable Request := λ x,
  MkRequest (hq_Method x) (hq_Path x) (hq_Query x) (hq_Authorization x) (hq_ContentType x) (hq_Body x) (hq_Principal x).

(** [url.Values] *)
Definition values (key : string) (query : list (string * string)) : list string := (filter (λ kv, kv.1 = key) query).*2.
Definition get (key : string) (query : list (string * string)) : string := default "" (head (values key query)).
Definition set_query (key value : string) (query : list (string * string)) : list (string * string) :=
  (key, value) :: filter (λ kv, kv.1 ≠ key) query.

Definition query_of (key : string) (r : Request) : string := get key (hq_Query r).

Record policyPublishRequest := MkPolicyPublishRequest {
  ppr_TenantID : string;
  ppr_PolicyID : string;
  ppr_Version : Z;
  ppr_Published : bool;
  ppr_Actor : string;
  ppr_Reason : string
}.

Record policyAssignmentRequest := MkPolicyAssignmentRequest {
  par_Assignment : Assignment;
  par_Actor : string;
  par_Reason : string;
  par_Downlink : bool;
  par_CommandID : string
}.

Record responseApprovalRequest := MkResponseApprovalRequest {
  rar_ResponseID : string;
  rar_TenantID : string;
  rar_AgentID : string;
  rar_Approved : bool;
  rar_Actor : string;
  rar_Role : string;
  rar_Reason : string
}.

Record evidencePullbackRequest := MkEvidencePullbackRequest {
  evr_RequestID : string;
  evr_TenantID : string;
  evr_AgentID : string;
  evr_IncidentID : string;
  evr_Labels : gmap string string;
  evr_Target : string;
  evr_Reason : string;
  evr_Actor : string
}.

Record controlCommandRequest := MkControlCommandRequest {
  ccr_Action : string;
  ccr_CommandID : string;
  ccr_TenantID : string;
  ccr_AgentID : string;
  ccr_Type : string;
  ccr_PolicyID : string;
  ccr_PolicyVersion : Z;
  ccr_ContentRef : string;
  ccr_ContentKind : string;
  ccr_ContentVersion : string;
  ccr_PayloadJSON : string;
  ccr_Actor : string;
  ccr_Reason : string
}.

Class ApiText := {
  json_any : Type;
  parse_object : string → option (option (gmap string json_any));
  any_string : json_any → option string;
  string_any : string → json_any;
  marshal_object : gmap string json_any → result string;
  decode_policy : string → result PolicyDoc;
  decode_publish : string → result policyPublishRequest;
  decode_assignment : string → result policyAssignmentRequest;
  decode_response : string → result Command;
  decode_decision : string → result responseDecisionRequest;
  decode_approval : string → result responseApprovalRequest;
  decode_ack : string → result Ack;
  decode_evidence : string → result evidencePullbackRequest;
  decode_control : string → result controlCommandRequest;
  decode_health : string → result AgentHealth;
  marshal_endpoint : EndpointPolicy → result string;
  policy_metadata : string → string * Z;
  content_metadata : string → string * string * string;
  api_unicode :: Unicode
}.

(** ** Replies *)

Record AgentListItem := MkAgentListItem {
  ali_AgentID : string;
  ali_HostID : string;
  ali_TenantID : string;
  ali_Version : string;
  ali_AuthType : string;
  ali_CertIdentity : string;
  ali_HealthStatus : string;
  ali_Scope : Health.RuntimeScope;
  ali_Capability : SensorCapability;
  ali_HealthObserved : Time
}.

Record DataResume := MkDataResume {
  dre_TenantID : string;
  dre_AgentID : string;
  dre_SessionID : string;
  dre_ResumeCursor : string
}.

Inductive body :=
| BError (code message : string)
| BOk (labels : gmap string string)
| BRules (l : list RuleContent)
| BPolicy (p : PolicyDoc)
| BPolicies (l : list PolicyDoc)
| BAudits (l : list PolicyAudit)
| BAssignment (a : Assignment) (command : option ControlCommand)
| BAssignments (l : list Assignment)
| BResponse (cmd : Command)
| BAudit (record : AuditRecord)
| BResponses (l : list AuditRecord)
| BPending (l : list Command)
| BPullback (req : EvidencePullbackRequest)
| BPullbacks (l : list EvidencePullbackRequest)
| BCommand (cmd : ControlCommand)
| BCommands (l : list ControlCommand)
| BAgents (l : list AgentListItem)
| BHealth (h : AgentHealth)
| BHealths (l : list AgentHealth)
| BSessions (l : list AgentSession)
| BResume (resume : DataResume)
| BMetrics (m : StoreMetrics)
| BAnalysis (result : Ingest.Result).

Record Response := MkResponse { hs_Status : Z; hs_Body : body }.

Definition errorIdentity (status : Z) : string * string :=
  if (status =? 400)%Z then ("invalid_request", "Invalid request")
  else if (status =? 401)%Z then ("unauthorized", "Unauthorized")
  else if (status =? 403)%Z then ("forbidden", "Forbidden")
  else if (status =? 404)%Z then ("not_found", "Not found")
  else if (status =? 405)%Z then ("method_not_allowed", "Method not allowed")
  else if (status =? 413)%Z then ("request_too_large", "Request body too large")
  else ("request_failed", "Request failed").

(** [http.Error], as [normalizeAPIErrors] rewrites it *)
Definition http_error (status : Z) (text : string) : Response :=
  let '(code, fallback) := errorIdentity status in
  let message := TrimSpace text in
  MkResponse status (BError code (if (500 <=? status)%Z || bool_decide (message = "") then fallback else message)).

Definition writeAPIError (status : Z) (code message : string) : Response := MkResponse status (BError code message).

Definition writeJSON (b : body) : Response := MkResponse 200 b.

Definition parseUint (raw : string) : Z :=
  let digits := String.list_ascii_of_string raw in
  let digit c := (Z.of_nat (Ascii.nat_of_ascii c) - 48)%Z in
  if bool_decide (digits = []) || negb (forallb (λ c, (0 <=? digit c)%Z && (digit c <=? 9)%Z) digits) then 0%Z
  else Z.min (foldl (λ n c, n * 10 + digit c)%Z 0%Z digits) (2 ^ 64 - 1).

Definition firstNonEmptyString (l : list string) : string := default "" (find_first (λ s, negb (bool_decide (TrimSpace s = ""))) l).

Definition parseLabelSelector (l : list string) : gmap string string :=
  foldl (λ labels raw,
    let '(key, value, ok) := Cut raw "="%char in
    if negb ok || bool_decide (TrimSpace key = "") then labels else <[TrimSpace key := TrimSpace value]> labels) ∅ l.

(** ** The world *)

Record Env := MkEnv {
  av_now : Time;
  av_now2 : Time;
  av_save : option string;
  bk_policy : string → string → Z → option PolicyDoc;
  bk_effective : string → string → string → string → option PolicyDoc;
  bk_response_policy : option PolicyDoc;
  bk_response_policy2 : option PolicyDoc;
  bk_policies : string → option (list PolicyDoc);
  bk_audits : string → string → option (list PolicyAudit);
  bk_assignments : string → string → option (list Assignment);
  bk_responses : string → string → option (list AuditRecord);
  bk_commands : string → string → string → option (list ControlCommand);
  bk_agents : option (list AgentIdentity);
  bk_health : string → string → option (option AgentHealth);
  bk_healths : option (list AgentHealth);
  bk_sessions : string → string → option (list AgentSession);
  bk_metrics : option StoreMetrics
}.

Section api.
Context `{ApiText} `{RangeOrder} `{SliceSort} (env : Env).

(** [Save], and the reply *)
Definition saved (response : Response) : Response :=
  match av_save env with Some e => http_error 500 ("save store: " +:+ e) | None => response end.

Definition method_not_allowed : Response := http_error 405 "method not allowed".

(** ** Permissions ([http_identity.go]) *)

(** The refusal, if any *)
Definition requireOperator (role : string) (r : Request) : option Response :=
  match hq_Principal r with
  | Some principal =>
    let required := if bool_decide (role ∈ ["admin"; "policy_admin"; "control_admin"; "incident_admin"]) then "admin" else "operator" in
    if HasRole required principal then None else Some (http_error 403 "forbidden")
  | None => Some (http_error 401 "unauthorized")
  end.

Definition actorFromRequest (r : Request) : string := from_option pr_Subject "" (hq_Principal r).
Definition roleFromRequest (r : Request) : string := from_option (λ p, default "" (head (pr_Roles p))) "" (hq_Principal r).

(** ** Policies ([http_policy.go]) *)

Definition rules (r : Request) (s : Store) : Response * Store :=
  if negb (bool_decide (hq_Method r = "GET")) then (method_not_allowed, s)
  else (writeJSON (BRules (ListRules (query_of "where" r) s)), s).

Definition audit (tenantID action policyID : string) (version : Z) (assignmentID actor reason : string) : PolicyAudit :=
  MkPolicyAudit "" tenantID action policyID version assignmentID actor "" reason zero_time.

Definition recordPolicyAudit (record : PolicyAudit) (s : Store) : Store := (RecordPolicyAudit (av_now env) record s).2.

Definition get_policy (tenantID policyID : string) (version : Z) (s : Store) : option PolicyDoc :=
  GetPolicy (bk_policy env tenantID policyID version) tenantID policyID version s.

(** The policy the query of a request selects *)
Definition effective_policy (r : Request) (s : Store) : option PolicyDoc :=
  let tenantID := query_of "tenant_id" r in
  let agentID := query_of "agent_id" r in
  let scopeType := query_of "scope_type" r in
  let scopeSelector := query_of "scope_selector" r in
  EffectivePolicy (bk_effective env tenantID agentID scopeType scopeSelector) tenantID agentID scopeType scopeSelector s.

Definition policies (r : Request) (s : Store) : Response * Store :=
  if bool_decide (hq_Method r = "GET") then
    let policyID := query_of "policy_id" r in
    if negb (bool_decide (policyID = "")) then
      match get_policy (query_of "tenant_id" r) policyID (parseUint (query_of "version" r)) s with
      | None => (http_error 404 "policy not found", s)
      | Some policy => (writeJSON (BPolicy policy), s)
      end
    else (writeJSON (BPolicies (ListPolicies (bk_policies env (query_of "tenant_id" r)) (query_of "tenant_id" r) s)), s)
  else if bool_decide (hq_Method r = "POST") then
    match requireOperator "policy_admin" r with
    | Some refusal => (refusal, s)
    | None =>
      match decode_policy (hq_Body r) with
      | Err e => (http_error 400 ("decode policy: " +:+ e), s)
      | Ok policy =>
        if bool_decide (pol_PolicyID policy = "") then (http_error 400 "policy_id is required", s)
        else
          let '(policy, s) := UpsertPolicy (av_now env) policy s in
          let s := recordPolicyAudit (audit (pol_TenantID policy) "policy.upsert" (pol_PolicyID policy) (pol_Version policy) ""
            (actorFromRequest r) (query_of "reason" r)) s in
          (saved (writeJSON (BPolicy policy)), s)
      end
    end
  else (method_not_allowed, s).

Definition policyPublish (r : Request) (s : Store) : Response * Store :=
  if negb (bool_decide (hq_Method r = "POST")) then (method_not_allowed, s)
  else match requireOperator "policy_admin" r with
  | Some refusal => (refusal, s)
  | None =>
    match decode_publish (hq_Body r) with
    | Err e => (http_error 400 ("decode policy publish: " +:+ e), s)
    | Ok req =>
      if bool_decide (ppr_PolicyID req = "") then (http_error 400 "policy_id is required", s)
      else match PublishPolicy (av_now env) (ppr_TenantID req) (ppr_PolicyID req) (ppr_Version req) (ppr_Published req) s with
      | (None, s) => (http_error 404 "policy not found", s)
      | (Some policy, s) =>
        let s := recordPolicyAudit (audit (pol_TenantID policy) (if ppr_Published req then "policy.publish" else "policy.unpublish")
          (pol_PolicyID policy) (pol_Version policy) "" (actorFromRequest r) (ppr_Reason req)) s in
        (saved (writeJSON (BPolicy policy)), s)
      end
    end
  end.

Definition policyAudit (r : Request) (s : Store) : Response * Store :=
  if negb (bool_decide (hq_Method r = "GET")) then (method_not_allowed, s)
  else (writeJSON (BAudits (ListPolicyAudits (bk_audits env (query_of "tenant_id" r) (query_of "policy_id" r)) (query_of "tenant_id" r) (query_of "policy_id" r) s)), s).

Definition new_command (commandID tenantID agentID ty policyID : string) (version : Z) (ref kind contentVersion payload actor reason : string) : ControlCommand :=
  MkControlCommand commandID tenantID agentID ty "" policyID version ref kind contentVersion payload actor reason
    zero_time zero_time zero_time zero_time zero_time zero_time zero_time 0 "" "" "" 0 "" "".

Definition policyDownlinkCommand (r : Request) (a : Assignment) (req : policyAssignmentRequest) (s : Store) : result ControlCommand :=
  if bool_decide (TrimSpace (asg_AgentID a) = "") then Err "downlink requires agent_id on policy assignment"
  else match get_policy (asg_TenantID a) (asg_PolicyID a) (asg_PolicyVersion a) s with
  | None => Err "policy not found for downlink"
  | Some policy =>
    match marshal_endpoint (GetEndpointPolicy (av_now env) policy) with
    | Err e => Err ("encode policy downlink payload: " +:+ e)
    | Ok payload =>
      Ok (new_command (par_CommandID req) (asg_TenantID a) (asg_AgentID a) ControlCommandTypePolicyUpdate (pol_PolicyID policy) (pol_Version policy)
            "" "" "" payload (actorFromRequest r) (firstNonEmptyString [par_Reason req; "policy assignment downlink"]))
    end
  end.

Definition policyAssignments (r : Request) (s : Store) : Response * Store :=
  if bool_decide (hq_Method r = "GET")
  then (writeJSON (BAssignments (ListAssignments (bk_assignments env (query_of "tenant_id" r) (query_of "agent_id" r)) (query_of "tenant_id" r) (query_of "agent_id" r) s)), s)
  else if bool_decide (hq_Method r = "POST") then
    match requireOperator "policy_admin" r with
    | Some refusal => (refusal, s)
    | None =>
      match decode_assignment (hq_Body r) with
      | Err e => (http_error 400 ("decode assignment: " +:+ e), s)
      | Ok req =>
        match (if par_Downlink req then requireOperator "control_admin" r else None) with
        | Some refusal => (refusal, s)
        | None =>
          match AssignPolicy (av_now env) (par_Assignment req) s with
          | (None, s) => (http_error 400 "policy not found or assignment invalid", s)
          | (Some a, s) =>
            let s := recordPolicyAudit (audit (asg_TenantID a) "policy.assign" (asg_PolicyID a) (asg_PolicyVersion a) (asg_AssignmentID a)
              (actorFromRequest r) (par_Reason req)) s in
            if par_Downlink req then
              match policyDownlinkCommand r a req s with
              | Err e => (http_error 400 e, s)
              | Ok cmd =>
                let '(cmd, s) := CreateControlCommand (av_now env) cmd s in
                (saved (writeJSON (BAssignment a (Some cmd))), s)
              end
            else (saved (writeJSON (BAssignment a None)), s)
          end
        end
      end
    end
  else (method_not_allowed, s).

Definition effectivePolicy (r : Request) (s : Store) : Response * Store :=
  if negb (bool_decide (hq_Method r = "GET")) then (method_not_allowed, s)
  else match effective_policy r s with
  | None => (http_error 404 "effective policy not found", s)
  | Some policy => (writeJSON (BPolicy policy), s)
  end.

(** ** Commands and evidence ([http_control.go]) *)

Definition evidencePullbacks (r : Request) (s : Store) : Response * Store :=
  if bool_decide (hq_Method r = "GET")
  then (writeJSON (BPullbacks (ListEvidencePullbacks (query_of "tenant_id" r) (query_of "agent_id" r) s)), s)
  else if bool_decide (hq_Method r = "POST") then
    match requireOperator "incident_admin" r with
    | Some refusal => (refusal, s)
    | None =>
      match decode_evidence (hq_Body r) with
      | Err e => (http_error 400 ("decode evidence pullback: " +:+ e), s)
      | Ok req =>
        if bool_decide (evr_AgentID req = "") then (http_error 400 "agent_id is required", s)
        else
          let '(out, s) := CreateEvidencePullback (av_now env)
            (ControlModel.MkEvidencePullbackRequest (evr_RequestID req) (evr_TenantID req) (evr_AgentID req) (evr_IncidentID req) (evr_Labels req) (evr_Target req)
               (evr_Reason req) "" false "" (actorFromRequest r) zero_time zero_time zero_time) s in
          (saved (writeJSON (BPullback out)), s)
      end
    end
  else (method_not_allowed, s).

Definition controlCommandAction (r : Request) (req : controlCommandRequest) (s : Store) : Response * Store :=
  let commandID := TrimSpace (ccr_CommandID req) in
  if bool_decide (commandID = "") then (http_error 400 "command_id is required", s)
  else
    let tenantID := or_default (ccr_TenantID req) in
    let actor := actorFromRequest r in
    let action := TrimSpace (ccr_Action req) in
    let listed := bk_commands env tenantID (ccr_AgentID req) "" in
    let finish (res : option ControlCommand * Store) :=
      match res with
      | (None, s) => (http_error 404 "control command not found", s)
      | (Some cmd, s) => (saved (writeJSON (BCommand cmd)), s)
      end in
    if bool_decide (action = "cancel")
    then finish (CancelControlCommand listed (av_now env) commandID tenantID (ccr_AgentID req) actor (ccr_Reason req) s)
    else if bool_decide (action = "retry")
    then finish (RetryControlCommand listed (av_now env) commandID tenantID (ccr_AgentID req) actor (ccr_Reason req) s)
    else if bool_decide (action = "expire")
    then finish (ExpireControlCommand listed (av_now env) commandID tenantID (ccr_AgentID req) (ccr_Reason req) s)
    else (http_error 400 ("unsupported control command action " +:+ Quote (ccr_Action req)), s).

(** The policy and its version, and the payload, of a [policy_update] *)
Definition policy_update_payload (tenantID : string) (req : controlCommandRequest) (s : Store) : result (string * Z * string) :=
  let policyID := ccr_PolicyID req in
  let version := ccr_PolicyVersion req in
  let payload := ccr_PayloadJSON req in
  if bool_decide (payload = "") then
    if bool_decide (policyID = "") then Err "policy_id or payload_json is required for policy_update"
    else match get_policy tenantID policyID version s with
    | None => Err "policy not found"
    | Some policy =>
      match marshal_endpoint (GetEndpointPolicy (av_now env) policy) with
      | Err e => Err ("encode policy payload: " +:+ e)
      | Ok raw => Ok (pol_PolicyID policy, pol_Version policy, raw)
      end
    end
  else
    let '(parsedID, parsedVersion) := policy_metadata payload in
    Ok (if bool_decide (policyID = "") then parsedID else policyID, if (version =? 0)%Z then parsedVersion else version, payload).

Definition controlCommandFromRequest (r : Request) (req : controlCommandRequest) (s : Store) : result ControlCommand :=
  let ty := TrimSpace (ccr_Type req) in
  if bool_decide (ty = "") then Err "type is required"
  else if bool_decide (TrimSpace (ccr_AgentID req) = "") then Err "agent_id is required"
  else
    let tenantID := or_default (ccr_TenantID req) in
    let command policyID version ref kind contentVersion payload :=
      new_command (ccr_CommandID req) tenantID (ccr_AgentID req) ty policyID version ref kind contentVersion payload (actorFromRequest r) (ccr_Reason req) in
    if bool_decide (ty = ControlCommandTypePolicyUpdate) then
      update ← policy_update_payload tenantID req s;
      mret (command update.1.1 update.1.2 (ccr_ContentRef req) (ccr_ContentKind req) (ccr_ContentVersion req) update.2)
    else if bool_decide (ty = ControlCommandTypeContentUpdate) then
      if bool_decide (ccr_PayloadJSON req = "") then Err "payload_json is required for content_update"
      else
        let '(ref, kind, version) := content_metadata (ccr_PayloadJSON req) in
        let or_else (given other : string) := if bool_decide (given = "") then other else given in
        Ok (command (ccr_PolicyID req) (ccr_PolicyVersion req) (or_else (ccr_ContentRef req) ref) (or_else (ccr_ContentKind req) kind)
              (or_else (ccr_ContentVersion req) version) (ccr_PayloadJSON req))
    else Err ("unsupported control command type " +:+ Quote ty).

Definition controlCommands (r : Request) (s : Store) : Response * Store :=
  if bool_decide (hq_Method r = "GET")
  then (writeJSON (BCommands (ListControlCommands (bk_commands env (query_of "tenant_id" r) (query_of "agent_id" r) (query_of "type" r)) (query_of "tenant_id" r) (query_of "agent_id" r) (query_of "type" r) s)), s)
  else if bool_decide (hq_Method r = "POST") then
    match requireOperator "control_admin" r with
    | Some refusal => (refusal, s)
    | None =>
      match decode_control (hq_Body r) with
      | Err e => (http_error 400 ("decode control command: " +:+ e), s)
      | Ok req =>
        if negb (bool_decide (TrimSpace (ccr_Action req) = "")) then controlCommandAction r req s
        else match controlCommandFromRequest r req s with
        | Err e => (http_error 400 e, s)
        | Ok cmd => let '(out, s) := CreateControlCommand (av_now env) cmd s in (saved (writeJSON (BCommand out)), s)
        end
      end
    end
  else (method_not_allowed, s).

(** ** Responses ([http_responses.go]) *)

(** The reply of the functions of [StoreResponses]; a command that was stored
    is saved. *)
Definition response_reply (res : reply * Store) : Response * Store :=
  match res with
  | (BadRequest e, s) => (http_error 400 e, s)
  | (NotFound e, s) => (http_error 404 e, s)
  | (Forbidden cmd, s) => (saved (MkResponse 403 (BAudit (MkAuditRecord cmd None))), s)
  | (Created cmd, s) => (saved (writeJSON (BResponse cmd)), s)
  end.

(** [post] with a decoded body, for a principal that may respond *)
Definition respond {A} (role what : string) (decode : string → result A) (post : A → reply * Store) (r : Request) (s : Store) : Response * Store :=
  match requireOperator role r with
  | Some refusal => (refusal, s)
  | None =>
    match decode (hq_Body r) with
    | Err e => (http_error 400 ("decode " +:+ what +:+ ": " +:+ e), s)
    | Ok req => response_reply (post req)
    end
  end.

Definition create (cmd : Command) (s : Store) : reply * Store :=
  StoreResponses.createResponse (av_now env) (av_now2 env) (bk_health env (or_default (cmd_TenantID cmd)) (cmd_AgentID cmd)) (bk_response_policy env) (bk_response_policy2 env) cmd s.

Definition responses (r : Request) (s : Store) : Response * Store :=
  if bool_decide (hq_Method r = "GET") then
    if bool_decide (query_of "pending" r = "true")
    then (writeJSON (BPending (PendingResponses (query_of "tenant_id" r) (query_of "agent_id" r) s)), s)
    else (writeJSON (BResponses (ListResponses (bk_responses env (query_of "tenant_id" r) (query_of "agent_id" r)) (query_of "tenant_id" r) (query_of "agent_id" r) s)), s)
  else if bool_decide (hq_Method r = "POST")
  then respond "responder" "response command" decode_response (λ cmd, create (cmd <| cmd_Actor := actorFromRequest r |>) s) r s
  else (method_not_allowed, s).

Definition responseDecisions (r : Request) (s : Store) : Response * Store :=
  if negb (bool_decide (hq_Method r = "POST")) then (method_not_allowed, s)
  else respond "responder" "response decision" decode_decision
    (λ req, StoreResponses.responseDecisions (av_now env) (av_now2 env)
       (bk_health env (or_default (StoreResponses.dr_TenantID req)) (StoreResponses.dr_AgentID req)) (bk_response_policy env) (bk_response_policy2 env) req (actorFromRequest r) s) r s.

Definition responseApprovals (r : Request) (s : Store) : Response * Store :=
  if negb (bool_decide (hq_Method r = "POST")) then (method_not_allowed, s)
  else
    let '(response, s) := respond "responder" "response approval" decode_approval
      (λ req, StoreResponses.responseApprovals (av_now env) (rar_TenantID req) (rar_AgentID req) (rar_ResponseID req) (rar_Approved req)
         (actorFromRequest r) (roleFromRequest r) (rar_Reason req) s) r s in
    (match hs_Body response with BResponse cmd => writeJSON (BAudit (MkAuditRecord cmd None)) | _ => response end, s).

Definition responseAcks (r : Request) (s : Store) : Response * Store :=
  if negb (bool_decide (hq_Method r = "POST")) then (method_not_allowed, s)
  else
    let '(response, s) := respond "response_admin" "response ack" decode_ack (λ ack, StoreResponses.responseAcks (av_now env) ack s) r s in
    (if (hs_Status response =? 200)%Z then writeJSON (BOk ∅) else response, s).

(** ** Agents ([http_identity.go]) *)

Definition zero_item_capability : SensorCapability := MkSensorCapability "" "" false false false false false "" false false [].

Definition agent_item (agent : AgentIdentity) (s : Store) : AgentListItem :=
  let item status scope capability observed :=
    MkAgentListItem (ai_AgentID agent) (ai_HostID agent) (ai_TenantID agent) (ai_Version agent) (ai_AuthType agent) (ai_CertIdentity agent)
      status scope capability observed in
  match GetAgentHealth (bk_health env (ai_TenantID agent) (ai_AgentID agent)) (ai_TenantID agent) (ai_AgentID agent) s with
  | Some health => item (ah_Status health) (ah_Scope health) (ah_Capability health) (ah_ObservedAt health)
  | None => item "" (Health.MkRuntimeScope "" "") zero_item_capability zero_time
  end.

Definition agents (r : Request) (s : Store) : Response * Store :=
  let wanted (item : AgentListItem) :=
    matches (query_of "scope_type" r) (Health.rs_Type (ali_Scope item)) && matches (query_of "scope_selector" r) (Health.rs_Selector (ali_Scope item)) &&
    matches (query_of "health_status" r) (ali_HealthStatus item) in
  let of_tenant := filter (λ agent, matches (query_of "tenant_id" r) (ai_TenantID agent) = true) (ListAgents (bk_agents env) s) in
  (writeJSON (BAgents (filter (λ item, wanted item = true) ((λ agent, agent_item agent s) <$> of_tenant))), s).

Definition agentHealth (r : Request) (s : Store) : Response * Store :=
  if bool_decide (hq_Method r = "POST") then
    match requireOperator "admin" r with
    | Some refusal => (refusal, s)
    | None =>
      match decode_health (hq_Body r) with
      | Err e => (http_error 400 ("decode agent health: " +:+ e), s)
      | Ok health =>
        if bool_decide (ah_AgentID health = "") then (http_error 400 "agent_id is required", s)
        else (saved (writeJSON (BOk ∅)), UpsertAgentHealth health s)
      end
    end
  else if bool_decide (hq_Method r = "GET") then
    let agentID := query_of "agent_id" r in
    if bool_decide (agentID = "") then (writeJSON (BHealths (ListAgentHealth (bk_healths env) s)), s)
    else match GetAgentHealth (bk_health env (query_of "tenant_id" r) agentID) (query_of "tenant_id" r) agentID s with
    | None => (http_error 404 "agent health not found", s)
    | Some health => (writeJSON (BHealth health), s)
    end
  else (method_not_allowed, s).

Definition agentSessions (r : Request) (s : Store) : Response * Store :=
  if negb (bool_decide (hq_Method r = "GET")) then (method_not_allowed, s)
  else (writeJSON (BSessions (ListAgentSessions (bk_sessions env (query_of "tenant_id" r) (query_of "agent_id" r)) (query_of "tenant_id" r) (query_of "agent_id" r) s)), s).

Definition resumeCursor (tenantID agentID : string) (s : Store) : DataResume :=
  match ListAgentSessions (bk_sessions env tenantID agentID) tenantID agentID s with
  | [] => MkDataResume tenantID agentID "" ""
  | session :: _ => MkDataResume tenantID agentID (as_SessionID session) (as_LastAckCursor session)
  end.

Definition dataResume (r : Request) (s : Store) : Response * Store :=
  if negb (bool_decide (hq_Method r = "GET")) then (method_not_allowed, s)
  else
    let agentID := query_of "agent_id" r in
    if bool_decide (agentID = "") then (http_error 400 "agent_id is required", s)
    else (writeJSON (BResume (resumeCursor (or_default (query_of "tenant_id" r)) agentID s)), s).

Definition reset (r : Request) (s : Store) : Response * Store :=
  if negb (bool_decide (hq_Method r = "POST")) then (method_not_allowed, s)
  else match requireOperator "admin" r with
  | Some refusal => (refusal, s)
  | None =>
    let labels := parseLabelSelector (values "label" (hq_Query r)) in
    let s := DeleteByLabels labels s in
    match av_save env with
    | Some e => (http_error 500 ("save store: " +:+ e), s)
    | None => (writeJSON (BOk labels), if bool_decide (labels = ∅) then ResetMetrics s else s)
    end
  end.

Definition metrics (r : Request) (s : Store) : Response * Store := (writeJSON (BMetrics (MetricsSnapshot (bk_metrics env) s)), s).

(** ** Analysis on demand ([http_analysis.go]) *)

(** The parameters of the analysis, and the refusal of a query; the
    parameters are changed before a later part of the query is refused. *)
Definition recompute_params (r : Request) (converge : ConvergeParams) (cloudRules : list string)
    : ConvergeParams * list string * option Response :=
  let disable := query_of "disable" r in
  let disabled :=
    if bool_decide (disable = "cloud.cross_lineage") then (converge <| cv_CrossLineage := false |>, cloudRules, None)
    else if bool_decide (disable = "") then (converge, cloudRules, None)
    else if HasPrefix disable "cloud.rule:"
    then (converge, filter (λ rule, rule ≠ TrimPrefix disable "cloud.rule:") cloudRules, None)
    else (converge, cloudRules, Some (http_error 400 ("unknown disable " +:+ Quote disable))) in
  match disabled with
  | (_, _, Some _) => disabled
  | (converge, cloudRules, None) =>
    let mode := query_of "mode" r in
    if bool_decide (mode = "additive_threshold")
    then (converge <| cv_Mode := "additive_threshold" |> <| cv_AdditiveRiskThreshold := 100%Z |>, cloudRules, None)
    else if bool_decide (mode ∈ [""; "rarity_structural"]) then (converge, cloudRules, None)
    else (converge, cloudRules, Some (http_error 400 ("unknown converge mode " +:+ Quote mode)))
  end.

(** The policy that memory holds shares its parameters with the one the
    handler changes, and what the backend returned is a copy.  A policy is
    known by tenant, id and version; the built-in default is in no store. *)
Definition share_params (r : Request) (effective : PolicyDoc) (converge : ConvergeParams) (s : Store) : Store :=
  match bk_effective env (query_of "tenant_id" r) (query_of "agent_id" r) (query_of "scope_type" r) (query_of "scope_selector" r), pol_Converge effective with
  | None, Some _ => s <| st_Policies ::= update_first (λ p, same_policy effective p && pol_Published p) (λ p, p <| pol_Converge := Some converge |>) |>
  | _, _ => s
  end.

Definition recompute (r : Request) (s : Store) : Response * Store :=
  let effective := default zero_policy (effective_policy r s) in
  let policy := GetDetectionPolicy effective in
  let converge := default (MkConvergeParams "" 0 0 0 true) (cp_Converge policy) in
  let '(converge, cloudRules, refusal) := recompute_params r converge (cp_CloudRules policy) in
  let s' := share_params r effective converge s in
  match refusal with
  | Some refusal => (refusal, s')
  | None =>
    let policy := policy <| cp_Converge := Some converge |> <| cp_CloudRules := cloudRules |> in
    let engine := Ingest.SetRarityBaseline (st_RarityBaseline s) Ingest.NewEngine in
    let signals := ListSignals (parseLabelSelector (values "label" (hq_Query r))) "endpoint" false s in
    (writeJSON (BAnalysis (Ingest.AnalyzeWithPolicy [] signals (Some policy) engine).1), s')
  end.

(** ** The routes of this file *)

Definition route (path : string) : option (Request → Store → Response * Store) :=
  let routes := [
    ("/api/v1/reset", reset); ("/api/v1/recompute", recompute); ("/api/v1/rules", rules); ("/api/v1/policies", policies); ("/api/v1/policy-publish", policyPublish);
    ("/api/v1/policy-audit", policyAudit); ("/api/v1/policy-assignments", policyAssignments); ("/api/v1/effective-policy", effectivePolicy);
    ("/api/v1/responses", responses); ("/api/v1/response-decisions", responseDecisions); ("/api/v1/response-approvals", responseApprovals);
    ("/api/v1/response-acks", responseAcks); ("/api/v1/data-resume", dataResume); ("/api/v1/evidence-pullbacks", evidencePullbacks);
    ("/api/v1/control-commands", controlCommands); ("/api/v1/agents", agents); ("/api/v1/agent-health", agentHealth);
    ("/api/v1/agent-sessions", agentSessions); ("/api/v1/metrics", metrics)] in
  snd <$> find_first (λ entry, bool_decide (entry.1 = path)) routes.

Definition isEnrollmentTokenEndpoint (path : string) : bool :=
  bool_decide (path ∈ ["/api/v1/enrollment-artifact"; "/api/v1/enrollment-certificate"; "/api/v1/agent-install.sh"]).

Definition is_open (path : string) : bool := bool_decide (path = "/healthz") || isEnrollmentTokenEndpoint path.

Definition maxAuthenticatedBody : nat := 2 ^ 22.

(** The body bound to the tenant, a refusal, or a panic: a map that was
    decoded from null is nil, and cannot be assigned to. *)
Definition bindJSONTenant (tenantID : string) (r : Request) : option (Response + Request) :=
  if negb (Contains (hq_ContentType r) "application/json") then Some (inr r)
  else
    let raw := hq_Body r in
    if (maxAuthenticatedBody <? String.length raw)%nat then Some (inl (writeAPIError 413 "request_too_large" "Request body too large"))
    else if bool_decide (TrimSpace raw = "") then Some (inr r)
    else match parse_object raw with
    | None => Some (inr r)
    | Some None => None
    | Some (Some object) =>
      let tenant := default "" (object !! "tenant_id" ≫= any_string) in
      if negb (bool_decide (tenant = "")) && negb (bool_decide (tenant = tenantID)) then Some (inl (writeAPIError 403 "forbidden" "Forbidden"))
      else match marshal_object (<["tenant_id" := string_any tenantID]> object) with
      | Err _ => Some (inl (writeAPIError 400 "invalid_request" "Invalid request"))
      | Ok bound => Some (inr (r <| hq_Body := bound |>))
      end
    end.

(** The token of the header *)
Definition bearer (r : Request) : option string :=
  let '(scheme, raw, ok) := Cut (hq_Authorization r) " "%char in
  if negb ok || negb (ContentStore.EqualFold scheme "Bearer") || bool_decide (TrimSpace raw = "") then None else Some (TrimSpace raw).
End api.
End ManagerApi.
