(* ===== verification/ManagerEnrollment.v ===== *)
(** * Enrolment and artifacts over HTTP ([internal/manager/api], [internal/distribution])

    An operator creates an enrolment for an agent ([enrollment_service.go]);
    the host fetches an install script with the bootstrap ticket, and buys a
    certificate with the token of the script ([http_enrollments.go]).
    Artifacts are registered, inspected ([distribution/manifest.go]), put on
    channels and downloaded ([http_artifacts.go], [http_channels.go],
    [artifact_feed.go]); the UI combines these steps ([http_ui_deploy.go]).

    [X509] stands for Go's [crypto/x509], [encoding/pem] and [net/url];
    [EnrollText] for encoding/json, archive/tar and RSA signatures.  [World]
    holds the configuration, clocks, random bytes, environment variables and
    the answers of a durable backend; the text of the install script is a
    parameter. *)

From S2P Require Import Prelude GoStrings GoBytes GoFloat GoData GoSha GoText EventModel StoreData StoreEnrollment Gateway ContentStore ManagerApi.

Module ManagerEnrollment.
Import StoreData StoreEnrollment ManagerApi.

(** ** Texts *)

Definition rev_string (s : string) : string := String.string_of_list_ascii (rev (String.list_ascii_of_string s)).

(** [strings.TrimRight(s, "/")], [strings.TrimLeft(s, "/")] *)
Definition TrimLeftSlash (s : string) : string := String.string_of_list_ascii (strip_slashes (String.list_ascii_of_string s)).
Definition TrimRightSlash (s : string) : string := rev_string (TrimLeftSlash (rev_string s)).

Definition is_alnum (c : Ascii.ascii) : bool :=
  let b := byte_val c in
  ((97 <=? b) && (b <=? 122) || (65 <=? b) && (b <=? 90) || (48 <=? b) && (b <=? 57))%Z.

Definition is_name_byte (c : Ascii.ascii) : bool := is_alnum c || bool_decide (c ∈ ["."%char; "_"%char; "-"%char]).

(** [^[A-Za-z0-9][A-Za-z0-9._-]{0,127}$] *)
Definition enrollmentIdentityPattern (s : string) : bool :=
  match s with
  | String c rest => is_alnum c && forallb is_name_byte (String.list_ascii_of_string rest) && (String.length rest <=? 127)%nat
  | EmptyString => false
  end.

Definition patternText : string := "^[A-Za-z0-9][A-Za-z0-9._-]{0,127}$".

Definition defaultString (v fallback : string) : string := if bool_decide (TrimSpace v = "") then fallback else v.

(** [net.SplitHostPort] *)
Definition SplitHostPort (hostport : string) : option (string * string) :=
  let '(rport, rhost, ok) := Cut (rev_string hostport) ":"%char in
  if negb ok then None
  else
    let host := rev_string rhost in
    let port := rev_string rport in
    match hostport with
    | String "["%char rest =>
      let '(inside, after, closed) := Cut rest "]"%char in
      if negb closed || negb (bool_decide (after = ":" +:+ port)) || contains_byte rest "["%char || contains_byte after "]"%char then None
      else Some (inside, port)
    | _ =>
      if contains_byte host ":"%char || contains_byte hostport "["%char || contains_byte hostport "]"%char then None
      else Some (host, port)
    end.

(** [strconv.Atoi] *)
Definition Atoi (s : string) : option Z :=
  let '(negative, digits) :=
    match s with String "-"%char s' => (true, s') | String "+"%char s' => (false, s') | _ => (false, s) end in
  let l := String.list_ascii_of_string digits in
  if bool_decide (l = []) || negb (forallb (λ c, (48 <=? byte_val c)%Z && (byte_val c <=? 57)%Z) l) then None
  else
    let n := foldl (λ n c, n * 10 + (byte_val c - 48))%Z 0%Z l in
    let n := if negative then (- n)%Z else n in
    if (n <? - 2 ^ 63)%Z || (2 ^ 63 - 1 <? n)%Z then None else Some n.

Definition base64url : string := "ABCDEFGHIJKLMNOPQRSTUVWXYZabcdefghijklmnopqrstuvwxyz0123456789-_".
Definition base64_digit (z : Z) : string := String (default "A"%char (String.get (Z.to_nat z) base64url)) "".

(** [base64.RawURLEncoding] *)
Fixpoint RawURLEncode (l : list Z) : string :=
  match l with
  | a :: b :: c :: l' =>
    base64_digit (a / 4) +:+ base64_digit ((a mod 4) * 16 + b / 16) +:+ base64_digit ((b mod 16) * 4 + c / 64) +:+ base64_digit (c mod 64) +:+
    RawURLEncode l'
  | [a; b] => base64_digit (a / 4) +:+ base64_digit ((a mod 4) * 16 + b / 16) +:+ base64_digit ((b mod 16) * 4)
  | [a] => base64_digit (a / 4) +:+ base64_digit ((a mod 4) * 16)
  | [] => ""
  end%Z.

Definition upper_hex (z : Z) : Ascii.ascii := byte_of (if z <? 10 then 48 + z else 55 + z)%Z.

(** [url.QueryEscape] *)
Definition QueryEscape (s : string) : string :=
  concat_str ((λ c,
    if is_name_byte c || bool_decide (c = "~"%char) then String c ""
    else if bool_decide (c = " "%char) then "+"
    else String "%"%char (String (upper_hex (byte_val c / 16)) (String (upper_hex (byte_val c mod 16)) ""))) <$> String.list_ascii_of_string s).

Definition last_bytes (n : nat) (s : string) : string := String.substring (String.length s - n) n s.

Example split_host_port :
  SplitHostPort "gw.example:443" = Some ("gw.example", "443") ∧ SplitHostPort "[::1]:80" = Some ("::1", "80") ∧
  SplitHostPort "::1:80" = None ∧ SplitHostPort "gw" = None.
Proof. by vm_compute. Qed.

(** ** The world *)

Record enrollmentRequest := MkEnrollmentRequest {
  erq_TenantID : string;
  erq_AgentID : string;
  erq_HostID : string;
  erq_GatewayAddr : string;
  erq_GatewaySNI : string;
  erq_Profile : string;
  erq_Channel : string;
  erq_ArtifactID : string;
  erq_ArtifactURL : string;
  erq_Labels : gmap string string;
  erq_TTL : string;
  erq_Actor : string
}.

Record channelRequest := MkChannelRequest { chr_TenantID : string; chr_Channel : string; chr_ArtifactID : string; chr_Actor : string }.
Record certificateRequest := MkCertificateRequest { crq_Token : string; crq_CSR : string }.

Record FileSpec := MkFileSpec { fs_Path : string; fs_Mode : string; fs_SHA256 : string }.
Record InstallSpec := MkInstallSpec { is_AgentHome : string; is_ConfigPath : string; is_PolicyDir : string; is_RuntimeSocket : string }.
Record SensorSpec := MkSensorSpec { ss_Name : string; ss_Backend : string; ss_BundleDir : string; ss_InstallDir : string }.
Record Manifest := MkManifest {
  mf_SchemaVersion : string;
  mf_Name : string;
  mf_Version : string;
  mf_OS : string;
  mf_Arch : string;
  mf_Entrypoint : string;
  mf_SystemdUnit : string;
  mf_Install : InstallSpec;
  mf_Sensors : list SensorSpec;
  mf_Files : list FileSpec;
  mf_Metadata : gmap string string
}.

Record artifactFeedItem := MkArtifactFeedItem {
  afi_ArtifactID : string;
  afi_TenantID : string;
  afi_Name : string;
  afi_Kind : string;
  afi_Version : string;
  afi_OS : string;
  afi_Arch : string;
  afi_SHA256 : string;
  afi_SizeBytes : Z;
  afi_Status : string;
  afi_DownloadURL : string;
  afi_Channels : list string
}.
Record artifactFeed := MkArtifactFeed { af_SchemaVersion : string; af_Artifacts : list artifactFeedItem }.

(** [tar_entries] opens an archive and reads it entry by entry: the name,
    whether it is a regular file, and the content (of which at most 512 MiB
    are read). *)
Class EnrollText := {
  decode_enrollment : string → result enrollmentRequest;
  decode_channel : string → result channelRequest;
  decode_certificate : string → result certificateRequest;
  decode_feed : string → result artifactFeed;
  decode_manifest : string → result Manifest;
  tar_entries : string → result (list (result (string * bool * string)));
  verify_manifest : string → string → string → option string;
  duration_error : string → string;
  enroll_unicode :: Unicode
}.

(** What [signAgentCSR] asks to be signed *)
Record Template := MkTemplate {
  tm_SerialNumber : Z;
  tm_CommonName : string;
  tm_NotBefore : Time;
  tm_NotAfter : Time;
  tm_KeyUsage : list string;
  tm_ExtKeyUsage : list string;
  tm_URI : Gateway.URI
}.

(** A certificate as [x509.ParseCertificate] reads it; [xc_Peer] is what a
    TLS server sees of it. *)
Record x509Certificate := MkX509Certificate {
  xc_SerialNumber : string;
  xc_Subject : string;
  xc_NotBefore : Time;
  xc_NotAfter : Time;
  xc_Peer : Gateway.Certificate
}.

Class X509 := {
  csr : Type;
  pem_decode : string → option (string * string);
  pem_encode : string → string → string;
  parse_request : string → result csr;
  check_signature : csr → option string;
  csr_key : csr → list Z;
  parse_uri : string → result Gateway.URI;
  create_certificate : Template → csr → result string;
  parse_certificate : string → result x509Certificate;
  parse_url : string → option (bool * string)
}.

Record World := MkWorld {
  w_artifactDir : string;
  w_artifactPub : string;
  w_ca : bool;
  w_caCertPEM : string;
  w_cwd : string;
  w_host : string;
  w_tls : bool;
  w_getenv : string → string;
  w_script : Enrollment → string → string;
  w_now : Time;
  w_sign : Time;
  w_issued : Time;
  w_stored : Time;
  w_stamp : string;
  w_random : result (list Z);
  w_random2 : result (list Z);
  w_serial : result Z;
  w_save : option string;
  wb_enrollments : option (list Enrollment);
  wb_token : string → option (option Enrollment);
  wb_bootstrap : string → string → string → Time → option (result (option Enrollment));
  wb_commit : string → string → Enrollment → AgentCertificate → option (result (Enrollment * EnrollmentIssueResult));
  wb_artifact : option (option Artifact);
  wb_artifacts : option (list Artifact);
  wb_channel : option (option ArtifactChannel);
  wb_channels : option (list ArtifactChannel)
}.

(** ** Replies *)

Record certificateReply := MkCertificateReply {
  cr_TenantID : string;
  cr_AgentID : string;
  cr_EnrollmentID : string;
  cr_GatewayAddress : string;
  cr_GatewayServerName : string;
  cr_CertificatePEM : string;
  cr_CAPEM : string;
  cr_SerialNumber : string;
  cr_NotAfter : Time
}.

Inductive content :=
| CError (response : ManagerApi.Response)
| CEnrollments (l : list Enrollment)
| CCreated (enrollment : Enrollment) (token installURL : string)
| CScript (text : string)
| CCertificate (reply : certificateReply)
| CFile (path artifactID sha256 : string)
| CRedirect (url : string)
| CArtifacts (l : list Artifact)
| CArtifact (artifact : Artifact)
| CChannels (l : list ArtifactChannel)
| CChannel (channel : ArtifactChannel) (artifact : Artifact)
| CCommand (enrollment : Enrollment) (artifact : option (string * string * string)) (install entrypoint script : string).

Definition fail (status : Z) (text : string) : content := CError (http_error status text).
Definition not_found : content := fail 404 "404 page not found".
Definition bad_method : content := CError method_not_allowed.

(** ** Distributions ([distribution/manifest.go]) *)

Section distribution.
Context `{EnrollText}.

Definition cleanArchivePath (p : string) : result string :=
  let p := TrimSpace (TrimPrefix p "./") in
  if bool_decide (p = "") || HasPrefix p "/" then Err ("invalid archive path " +:+ Quote p)
  else
    let clean := Clean p in
    if bool_decide (clean = ".") || HasPrefix clean "../" || bool_decide (clean = "..") then Err ("invalid archive path " +:+ Quote p) else Ok clean.

Definition error_of {A} (r : result A) : option string := match r with Err e => Some e | Ok _ => None end.

Fixpoint first_error (l : list (option string)) : option string :=
  match l with [] => None | Some e :: _ => Some e | None :: l' => first_error l' end.

Definition is_blank (s : string) : bool := bool_decide (TrimSpace s = "").

Definition check_file (f : FileSpec) : option string :=
  match cleanArchivePath (fs_Path f) with
  | Err e => Some e
  | Ok _ => if negb (String.length (fs_SHA256 f) =? 64)%nat then Some ("invalid sha256 for " +:+ fs_Path f) else None
  end.

Definition check_sensor (sensor : SensorSpec) : option string :=
  if is_blank (ss_Name sensor) || is_blank (ss_Backend sensor) then Some "sensor name and backend are required"
  else match cleanArchivePath (ss_BundleDir sensor) with
  | Err e => Some e
  | Ok _ => if is_blank (ss_InstallDir sensor) then Some "sensor install_dir is required" else None
  end.

Definition Validate (m : Manifest) : option string :=
  if negb (bool_decide (mf_SchemaVersion m = "sysarmor.agent.distribution/v1"))
  then Some ("unsupported manifest schema_version " +:+ Quote (mf_SchemaVersion m))
  else if is_blank (mf_Name m) || is_blank (mf_Version m) || is_blank (mf_OS m) || is_blank (mf_Arch m)
  then Some "manifest name, version, os, and arch are required"
  else if is_blank (mf_Entrypoint m) || is_blank (mf_SystemdUnit m) then Some "manifest entrypoint and systemd_unit are required"
  else if bool_decide (length (mf_Files m) = 0) then Some "manifest files are required"
  else first_error ((error_of ∘ cleanArchivePath <$> [mf_Entrypoint m; mf_SystemdUnit m]) ++ (check_file <$> mf_Files m) ++ (check_sensor <$> mf_Sensors m)).

(** The regular files of an archive; a later entry replaces an earlier one. *)
Fixpoint read_files (files : gmap string string) (entries : list (result (string * bool * string))) : result (gmap string string) :=
  match entries with
  | [] => Ok files
  | Err e :: _ => Err e
  | Ok (name, regular, data) :: entries' =>
    if negb regular then read_files files entries'
    else match cleanArchivePath name with
    | Err e => Err e
    | Ok clean => read_files (<[clean := data]> files) entries'
    end
  end.

Definition verify_file (files : gmap string string) (spec : FileSpec) : option string :=
  match cleanArchivePath (fs_Path spec) with
  | Err e => Some e
  | Ok clean =>
    match files !! clean with
    | None => Some ("manifest file missing: " +:+ fs_Path spec)
    | Some data =>
      if ContentStore.EqualFold (EncodeToString (Sum256 (string_bytes data))) (fs_SHA256 spec) then None
      else Some ("manifest file sha256 mismatch: " +:+ fs_Path spec)
    end
  end.

(** The manifest of an archive and whether it is signed *)
Definition InspectTarGz (archive publicKeyPEM : string) : result (Manifest * bool) :=
  entries ← tar_entries archive;
  files ← read_files ∅ entries;
  match files !! "manifest.json" with
  | None => Err "manifest.json is required"
  | Some raw =>
    match decode_manifest raw with
    | Err e => Err ("decode manifest: " +:+ e)
    | Ok manifest =>
      match Validate manifest with
      | Some e => Err e
      | None =>
        let signature := files !! "manifest.sig" in
        let unsigned :=
          if bool_decide (publicKeyPEM = "") then None
          else match signature with None => Some "manifest.sig is required" | Some sig => verify_manifest raw sig publicKeyPEM end in
        match unsigned with
        | Some e => Err e
        | None =>
          match first_error (verify_file files <$> mf_Files manifest) with
          | Some e => Err e
          | None => Ok (manifest, bool_decide (is_Some signature))
          end
        end
      end
    end
  end.
End distribution.

Section enrollment.
Context `{EnrollText} `{X509} `{SliceSort} (w : World).

Definition saving (reply : content) : content :=
  match w_save w with Some e => fail 500 ("save store: " +:+ e) | None => reply end.

(** ** URLs *)

Definition absoluteURL (path : string) : string :=
  let publicURL := TrimSpace (w_getenv w "SYSARMOR_PUBLIC_URL") in
  let local := (if w_tls w then "https" else "http") +:+ "://" +:+ w_host w +:+ path in
  if bool_decide (publicURL = "") then local
  else match parse_url publicURL with
  | Some (true, _) => TrimRightSlash publicURL +:+ "/" +:+ TrimLeftSlash path
  | _ => local
  end.

Definition installURL (ticket : string) : string := absoluteURL ("/api/v1/agent-install.sh?ticket=" +:+ QueryEscape ticket).
Definition artifactDownloadURL (artifactID : string) : string := absoluteURL ("/api/v1/artifacts/" +:+ artifactID +:+ "/download").

Definition rewritePackageDownloadURL (downloadURL : string) : string :=
  let base := TrimSpace (w_getenv w "SYSARMOR_AGENT_PACKAGE_DOWNLOAD_BASE_URL") in
  if bool_decide (base = "") then downloadURL
  else match parse_url downloadURL with
  | Some (_, path) => if bool_decide (path = "") then downloadURL else TrimRightSlash base +:+ "/" +:+ Base path
  | None => downloadURL
  end.

Definition artifactInstallURLForProfile (artifact : Artifact) (profile : string) : string :=
  let url := TrimSpace (default "" (ar_Metadata artifact !! "download_url")) in
  if negb (bool_decide (url = "")) then
    if bool_decide (defaultString profile "linux-systemd" = "linux-container") then url else rewritePackageDownloadURL url
  else artifactDownloadURL (ar_ArtifactID artifact).

Definition artifactInstallURL (artifact : Artifact) : string := artifactInstallURLForProfile artifact "".

(** ** Creation ([enrollment_service.go]) *)

Definition validateEnrollmentGateway (address serverName : string) : option string :=
  match SplitHostPort (TrimSpace address) with
  | None => Some "gateway_addr must be host:port"
  | Some (host, portText) =>
    if bool_decide (TrimSpace host = "") then Some "gateway_addr must be host:port"
    else match Atoi portText with
    | None => Some "gateway_addr port must be between 1 and 65535"
    | Some port =>
      let serverName := TrimSpace serverName in
      if (port <? 1)%Z || (65535 <? port)%Z then Some "gateway_addr port must be between 1 and 65535"
      else if bool_decide (serverName = "") then None
      else if ContainsAny serverName (":/" +:+ String backslash (" " +:+ String (byte_of 9) ""))
      then Some "gateway_sni must be a host name without a port" else None
    end
  end.

Definition normalizeInstallProfile (profile : string) : result string :=
  if bool_decide (TrimSpace profile ∈ [""; "linux-systemd"]) then Ok "linux-systemd"
  else if bool_decide (TrimSpace profile = "linux-container") then Ok "linux-container"
  else Err ("unsupported install profile " +:+ Quote profile).

Definition newEnrollmentToken (random : result (list Z)) : result string :=
  match random with Err e => Err ("generate enrollment token: " +:+ e) | Ok bytes => Ok ("enr_" +:+ RawURLEncode bytes) end.

Definition enrollmentTokenHash (token : string) : string := EncodeToString (Sum256 (string_bytes (TrimSpace token))).

Definition tokenPreview (token : string) : string :=
  if (String.length token <=? 12)%nat then token else String.substring 0 8 token +:+ "..." +:+ last_bytes 4 token.

(** [24 * time.Hour] unless the request has a duration *)
Definition enrollment_ttl (req : enrollmentRequest) : result Z :=
  if bool_decide (TrimSpace (erq_TTL req) = "") then Ok (24 * 3600 * 10 ^ 9)%Z
  else match ParseDuration (erq_TTL req) with
  | None => Err ("ttl: " +:+ duration_error (erq_TTL req))
  | Some ttl => if (ttl <=? 0)%Z then Err "ttl must be positive" else Ok ttl
  end.

Definition newEnrollment (req : enrollmentRequest) (actor : string) : result (Enrollment * string * string) :=
  let tenantID := defaultString (TrimSpace (erq_TenantID req)) "default" in
  let agentID := TrimSpace (erq_AgentID req) in
  if negb (enrollmentIdentityPattern tenantID) then Err ("tenant_id must match " +:+ patternText)
  else if negb (enrollmentIdentityPattern agentID) then Err ("agent_id must match " +:+ patternText)
  else if bool_decide (TrimSpace (erq_GatewayAddr req) = "") then Err "gateway_addr is required"
  else match validateEnrollmentGateway (erq_GatewayAddr req) (erq_GatewaySNI req) with
  | Some e => Err e
  | None =>
    profile ← normalizeInstallProfile (erq_Profile req);
    ttl ← enrollment_ttl req;
    token ← newEnrollmentToken (w_random w);
    ticket ← newEnrollmentToken (w_random2 w);
    mret (MkEnrollment ("enr-" +:+ w_stamp w +:+ "-" +:+ last_bytes 8 token) tenantID agentID (defaultString (erq_HostID req) agentID)
      (enrollmentTokenHash token) (tokenPreview token) (enrollmentTokenHash ticket) (tokenPreview ticket) zero_time
      (erq_GatewayAddr req) (erq_GatewaySNI req) profile (erq_Channel req) (erq_ArtifactID req) "" (erq_ArtifactURL req) (erq_Labels req)
      "active" (w_now w) (w_now w + ttl)%Z actor zero_time "" "" "" "" zero_time zero_time, token, ticket)
  end.

Definition deployChannelMatchesProfile (profile channel : string) : bool :=
  if HasPrefix channel "linux-container-" then bool_decide (profile = "linux-container")
  else if HasPrefix channel "linux-systemd-" then bool_decide (profile = "linux-systemd")
  else true.

Record enrollmentCreation := MkEnrollmentCreation {
  ec_Enrollment : Enrollment;
  ec_Token : string;
  ec_BootstrapTicket : string;
  ec_Artifact : option Artifact
}.

(** The artifact of the request or of its channel, and the name of the channel *)
Definition resolve_channel (req : enrollmentRequest) (deployRequest : bool) (enrollment : Enrollment) (s : Store) : result (string * Enrollment) :=
  let artifactID := TrimSpace (erq_ArtifactID req) in
  let channelName := TrimSpace (erq_Channel req) in
  if bool_decide (channelName = "") then Ok (artifactID, enrollment)
  else match GetChannel (wb_channel w) (en_TenantID enrollment) channelName s with
  | None => if negb deployRequest || bool_decide (artifactID = "") then Err "channel not found" else Ok (artifactID, enrollment)
  | Some channel =>
    if deployRequest && negb (deployChannelMatchesProfile (en_Profile enrollment) (ch_Channel channel)) then Err "channel profile mismatch"
    else Ok (ch_ArtifactID channel, enrollment <| en_Channel := ch_Channel channel |>)
  end.

Definition resolve_artifact (artifactID : string) (enrollment : Enrollment) (s : Store) : result (Enrollment * option Artifact) :=
  if bool_decide (artifactID = "") then Ok (enrollment, None)
  else match GetArtifact (wb_artifact w) (en_TenantID enrollment) artifactID s with
  | None => Err "active artifact not found"
  | Some resolved =>
    if negb (bool_decide (ar_Status resolved = "active")) then Err "active artifact not found"
    else Ok (enrollment <| en_ArtifactID := ar_ArtifactID resolved |> <| en_ArtifactSHA256 := ar_SHA256 resolved |>
               <| en_ArtifactURL := artifactInstallURLForProfile resolved (en_Profile enrollment) |>, Some resolved)
  end.

(** What is stored, or the reason of a refusal *)
Definition prepare_enrollment (req : enrollmentRequest) (actor : string) (deployRequest : bool) (s : Store)
    : result (Enrollment * string * string * option Artifact) :=
  created ← newEnrollment req actor;
  channel ← resolve_channel req deployRequest created.1.1 s;
  resolved ← resolve_artifact channel.1 channel.2 s;
  mret (resolved.1, created.1.2, created.2, resolved.2).

(** The status and the text of a refusal, or what was created *)
Definition createEnrollment (req : enrollmentRequest) (actor : string) (deployRequest : bool) (s : Store)
    : ((Z * string) + enrollmentCreation) * Store :=
  match prepare_enrollment req actor deployRequest s with
  | Err e => (inl (400%Z, e), s)
  | Ok (enrollment, token, ticket, artifact) =>
    let '(enrollment, s) := CreateEnrollment (w_stored w) enrollment s in
    if bool_decide (en_EnrollmentID enrollment = "") then (inl (400%Z, "create enrollment failed"), s)
    else match w_save w with
    | Some e => (inl (500%Z, "save store: " +:+ e), s)
    | None => (inr (MkEnrollmentCreation enrollment token ticket artifact), s)
    end
  end.

Definition publicEnrollment (enrollment : Enrollment) : Enrollment :=
  enrollment <| en_TokenHash := "" |> <| en_BootstrapTokenHash := "" |> <| en_IssuedKeySHA256 := "" |>
             <| en_IssuedCertificatePEM := "" |> <| en_IssuedCAPEM := "" |>.

Definition refused (refusal : ManagerApi.Response) (s : Store) : content * Store := (CError refusal, s).

Definition enrollments (r : Request) (s : Store) : content * Store :=
  if bool_decide (hq_Method r = "GET")
  then (CEnrollments (publicEnrollment <$> ListEnrollments (wb_enrollments w) (query_of "tenant_id" r) (query_of "status" r) s), s)
  else if bool_decide (hq_Method r = "POST") then
    match requireOperator "admin" r with
    | Some refusal => refused refusal s
    | None =>
      match decode_enrollment (hq_Body r) with
      | Err e => (fail 400 ("decode enrollment: " +:+ e), s)
      | Ok req =>
        match createEnrollment req (actorFromRequest r) false s with
        | (inl (status, e), s) => (fail status e, s)
        | (inr created, s) => (CCreated (publicEnrollment (ec_Enrollment created)) (ec_Token created) (installURL (ec_BootstrapTicket created)), s)
        end
      end
    end
  else (bad_method, s).

(** ** The install script ([http_enrollments.go]) *)

(** What redeeming the ticket of a request asks of the store: the token drawn,
    the hashes of the ticket and of the token, and the preview.  [Ok None]:
    there is no ticket. *)
Definition redemption (r : Request) : result (option (string * string * string * string)) :=
  let ticket := TrimSpace (query_of "ticket" r) in
  if bool_decide (ticket = "") then Ok None
  else match newEnrollmentToken (w_random w) with
  | Err e => Err e
  | Ok token => Ok (Some (token, enrollmentTokenHash ticket, enrollmentTokenHash token, tokenPreview token))
  end.

(** The token and the enrolment; [Ok None]: not found *)
Definition resolveInstallEnrollment (r : Request) (s : Store) : result (option (string * Enrollment)) * Store :=
  match redemption r with
  | Err e => (Err e, s)
  | Ok None => (Ok None, s)
  | Ok (Some (token, ticketHash, tokenHash, preview)) =>
    match ConsumeEnrollmentBootstrap (wb_bootstrap w ticketHash tokenHash preview (w_now w)) (w_stored w) ticketHash tokenHash preview (w_now w) s with
    | (Err e, s) => (Err e, s)
    | (Ok None, s) => (Ok None, s)
    | (Ok (Some enrollment), s) =>
      match w_save w with
      | Some e => (Err ("save bootstrap redemption: " +:+ e), s)
      | None => (Ok (Some (token, enrollment)), s)
      end
    end
  end.

Definition agentInstallScript (r : Request) (s : Store) : content * Store :=
  if negb (bool_decide (hq_Method r = "GET")) then (bad_method, s)
  else match resolveInstallEnrollment r s with
  | (Err e, s) => (fail 500 e, s)
  | (Ok None, s) => (fail 404 "enrollment not found", s)
  | (Ok (Some (token, enrollment)), s) =>
    if negb (bool_decide (en_Status enrollment = "active")) then (fail 404 "enrollment not found", s)
    else if expired (w_sign w) enrollment then (fail 410 "enrollment expired", s)
    else (CScript (w_script w enrollment token), s)
  end.

(** ** The certificate *)

Definition trust_domain : string := defaultString (w_getenv w "SYSARMOR_TRUST_DOMAIN") "sysarmor.local".

Definition certificate_template (serial : Z) (tenantID agentID : string) (uri : Gateway.URI) : Template :=
  MkTemplate serial ("tenant_id:" +:+ tenantID +:+ ",agent_id:" +:+ agentID) (w_sign w - 60 * 10 ^ 9)%Z (w_sign w + 90 * 24 * 3600 * 10 ^ 9)%Z
    ["digitalSignature"; "keyEncipherment"] ["clientAuth"] uri.

(** The certificate in PEM and as it is read, and the hash of its key *)
Definition signAgentCSR (enrollment : Enrollment) (csrPEM : string) : result (string * x509Certificate * string) :=
  match pem_decode csrPEM with
  | None => Err "csr must be PEM encoded CERTIFICATE REQUEST"
  | Some (ty, der) =>
    if negb (bool_decide (ty = "CERTIFICATE REQUEST")) then Err "csr must be PEM encoded CERTIFICATE REQUEST"
    else match parse_request der with
    | Err e => Err ("parse csr: " +:+ e)
    | Ok request =>
      match check_signature request with
      | Some e => Err ("verify csr signature: " +:+ e)
      | None =>
        let keyHash := EncodeToString (Sum256 (csr_key request)) in
        match w_serial w with
        | Err e => Err ("create serial: " +:+ e)
        | Ok serial =>
          let tenantID := defaultString (en_TenantID enrollment) "default" in
          match parse_uri ("spiffe://" +:+ trust_domain +:+ "/tenant/" +:+ tenantID +:+ "/agent/" +:+ en_AgentID enrollment) with
          | Err e => Err ("build agent uri san: " +:+ e)
          | Ok uri =>
            match create_certificate (certificate_template serial tenantID (en_AgentID enrollment) uri) request with
            | Err e => Err ("sign agent certificate: " +:+ e)
            | Ok der =>
              match parse_certificate der with
              | Err e => Err ("parse signed certificate: " +:+ e)
              | Ok cert => Ok (pem_encode "CERTIFICATE" der, cert, keyHash)
              end
            end
          end
        end
      end
    end
  end.

Definition proposed_enrollment (enrollment : Enrollment) (certPEM keyHash : string) (cert : x509Certificate) : Enrollment :=
  enrollment <| en_Status := "issued" |> <| en_UsedAt := w_issued w |> <| en_IssuedAt := w_issued w |> <| en_IssuedKeySHA256 := keyHash |>
             <| en_IssuedCertificatePEM := certPEM |> <| en_IssuedCAPEM := w_caCertPEM w |>
             <| en_IssuedSerialNumber := xc_SerialNumber cert |> <| en_IssuedNotAfter := xc_NotAfter cert |>.

Definition agent_certificate (enrollment : Enrollment) (certPEM : string) (cert : x509Certificate) : AgentCertificate :=
  MkAgentCertificate (defaultString (en_TenantID enrollment) "default") (en_AgentID enrollment) (en_EnrollmentID enrollment)
    (xc_SerialNumber cert) (xc_Subject cert) (xc_NotBefore cert) (xc_NotAfter cert) (w_issued w) zero_time certPEM.

Definition certificate_reply (e : Enrollment) : certificateReply :=
  MkCertificateReply (defaultString (en_TenantID e) "default") (en_AgentID e) (en_EnrollmentID e) (en_GatewayAddr e) (en_GatewaySNI e)
    (en_IssuedCertificatePEM e) (en_IssuedCAPEM e) (en_IssuedSerialNumber e) (en_IssuedNotAfter e).

(** What a request for a certificate asks of the store, or the reply to it *)
Record issue_call := MkIssueCall {
  ic_tokenHash : string;
  ic_keyHash : string;
  ic_proposed : Enrollment;
  ic_cert : AgentCertificate
}.

Definition prepare_issue (r : Request) (s : Store) : content + issue_call :=
  if negb (bool_decide (hq_Method r = "POST")) then inl bad_method
  else if negb (w_ca w) || bool_decide (w_caCertPEM w = "") then inl (fail 503 "agent certificate authority is not configured")
  else match decode_certificate (hq_Body r) with
  | Err e => inl (fail 400 ("decode certificate request: " +:+ e))
  | Ok req =>
    let tokenHash := enrollmentTokenHash (TrimSpace (crq_Token req)) in
    match GetEnrollmentByTokenHash (wb_token w (TrimSpace tokenHash)) tokenHash s with
    | None => inl (fail 404 "enrollment not found")
    | Some enrollment =>
      if negb (bool_decide (en_Status enrollment = "active")) && negb (bool_decide (en_Status enrollment = "issued"))
      then inl (fail 404 "enrollment not found")
      else if bool_decide (en_Status enrollment = "active") && expired (w_now w) enrollment then inl (fail 410 "enrollment expired")
      else match signAgentCSR enrollment (crq_CSR req) with
      | Err e => inl (fail 400 e)
      | Ok (certPEM, cert, keyHash) =>
        inr (MkIssueCall tokenHash keyHash (proposed_enrollment enrollment certPEM keyHash cert) (agent_certificate enrollment certPEM cert))
      end
    end
  end.

Definition enrollmentCertificate (r : Request) (s : Store) : content * Store :=
  match prepare_issue r s with
  | inl reply => (reply, s)
  | inr (MkIssueCall tokenHash keyHash proposed cert) =>
    match CommitEnrollmentIssue (wb_commit w (TrimSpace tokenHash) (TrimSpace keyHash) proposed cert) (w_stored w) tokenHash keyHash proposed cert s with
    | (Err e, s) => (fail 500 ("commit enrollment certificate: " +:+ e), s)
    | (Ok (_, EnrollmentIssueConflict), s) => (fail 409 "enrollment token is already bound to another key", s)
    | (Ok (_, EnrollmentIssueMissing), s) => (fail 404 "enrollment not found", s)
    | (Ok (enrollment, _), s) => (saving (CCertificate (certificate_reply enrollment)), s)
    end
  end.

(** ** Artifacts ([http_artifacts.go], [http_channels.go]) *)

Definition Abs (path : string) : string := if HasPrefix path "/" then Clean path else JoinPath [w_cwd w; path].

(** [filepath.Rel] of two absolute, clean paths, as the elements of the result *)
Fixpoint rel_elements (base target : list string) : list string :=
  match base, target with
  | b :: base', x :: target' => if bool_decide (b = x) then rel_elements base' target' else ((λ _, "..") <$> base) ++ target
  | _, _ => ((λ _, "..") <$> base) ++ target
  end.
Definition path_elements (path : string) : list string := filter (λ e, e ≠ "") (split_byte "/"%char path).
Definition Rel (base target : string) : string :=
  match rel_elements (path_elements base) (path_elements target) with [] => "." | l => Join l "/" end.

Definition pathWithinDir (dir path : string) : bool :=
  let rel := Rel (Abs dir) (Abs path) in
  bool_decide (rel = ".") || negb (HasPrefix rel "../") && negb (bool_decide (rel = "..")).

Definition downloadArtifact (r : Request) (tenantID artifactID : string) (s : Store) : content :=
  if negb (bool_decide (hq_Method r = "GET")) then bad_method
  else match GetArtifact (wb_artifact w) tenantID artifactID s with
  | None => not_found
  | Some artifact =>
    if bool_decide (ar_Status artifact = "revoked") then not_found
    else if bool_decide (ar_StoragePath artifact = "") then
      let url := artifactInstallURL artifact in
      if negb (bool_decide (url = artifactDownloadURL (ar_ArtifactID artifact))) then CRedirect url else fail 404 "artifact has no storage path"
    else if negb (pathWithinDir (w_artifactDir w) (ar_StoragePath artifact)) then fail 500 "artifact storage path escapes artifact dir"
    else CFile (ar_StoragePath artifact) (ar_ArtifactID artifact) (ar_SHA256 artifact)
  end.

Definition enrollmentArtifactToken (r : Request) : string :=
  let authorization := TrimSpace (hq_Authorization r) in
  if HasPrefix authorization "Enrollment " then TrimSpace (TrimPrefix authorization "Enrollment ") else "".

Definition enrollmentArtifact (r : Request) (s : Store) : content :=
  if negb (bool_decide (hq_Method r = "GET")) then bad_method
  else
    let token := enrollmentArtifactToken r in
    match GetEnrollmentByTokenHash (wb_token w (enrollmentTokenHash token)) (enrollmentTokenHash token) s with
    | None => not_found
    | Some enrollment =>
      if bool_decide (token = "") || negb (bool_decide (en_Status enrollment = "active")) || bool_decide (en_ArtifactID enrollment = "") then not_found
      else if expired (w_now w) enrollment then fail 410 "enrollment expired"
      else match GetArtifact (wb_artifact w) (en_TenantID enrollment) (en_ArtifactID enrollment) s with
      | None => not_found
      | Some artifact =>
        if negb (bool_decide (ar_Status artifact = "active")) then not_found
        else downloadArtifact r (en_TenantID enrollment) (en_ArtifactID enrollment) s
      end
    end.

Definition updateArtifactStatus (r : Request) (tenantID artifactID action : string) (s : Store) : content * Store :=
  if negb (bool_decide (hq_Method r = "POST")) then (bad_method, s)
  else match requireOperator "admin" r with
  | Some refusal => refused refusal s
  | None =>
    match GetArtifact (wb_artifact w) tenantID artifactID s with
    | None => (not_found, s)
    | Some artifact =>
      let status := if bool_decide (action = "activate") then "active" else "revoked" in
      let '(artifact, s) := UpsertArtifact (w_stored w) (artifact <| ar_Status := status |> <| ar_UpdatedAt := w_now w |>) s in
      (saving (CArtifact artifact), s)
    end
  end.

Definition artifactByID (r : Request) (s : Store) : content * Store :=
  let rest := TrimPrefix (hq_Path r) "/api/v1/artifacts/" in
  let tenantID := query_of "tenant_id" r in
  match split_byte "/"%char (Gateway.trim_path rest) with
  | [artifactID] =>
    if bool_decide (artifactID = "") then (not_found, s)
    else if negb (bool_decide (hq_Method r = "GET")) then (bad_method, s)
    else match GetArtifact (wb_artifact w) tenantID artifactID s with
    | None => (not_found, s)
    | Some artifact => (CArtifact artifact, s)
    end
  | [artifactID; action] =>
    if bool_decide (artifactID = "") then (not_found, s)
    else if bool_decide (action = "download") then (downloadArtifact r tenantID artifactID s, s)
    else if bool_decide (action ∈ ["activate"; "revoke"]) then updateArtifactStatus r tenantID artifactID action s
    else (not_found, s)
  | _ => (not_found, s)
  end.

Definition channels (r : Request) (s : Store) : content * Store :=
  if bool_decide (hq_Method r = "GET") then (CChannels (ListChannels (wb_channels w) (query_of "tenant_id" r) s), s)
  else if bool_decide (hq_Method r = "POST") then
    match requireOperator "admin" r with
    | Some refusal => refused refusal s
    | None =>
      match decode_channel (hq_Body r) with
      | Err e => (fail 400 ("decode channel: " +:+ e), s)
      | Ok req =>
        let tenantID := or_default (TrimSpace (chr_TenantID req)) in
        if bool_decide (TrimSpace (chr_Channel req) = "") || bool_decide (TrimSpace (chr_ArtifactID req) = "")
        then (fail 400 "channel and artifact_id are required", s)
        else match GetArtifact (wb_artifact w) tenantID (chr_ArtifactID req) s with
        | None => (fail 400 "active artifact not found", s)
        | Some artifact =>
          if negb (bool_decide (ar_Status artifact = "active")) then (fail 400 "active artifact not found", s)
          else
            let '(channel, s) := UpsertChannel (w_stored w)
              (MkArtifactChannel tenantID (chr_Channel req) (ar_ArtifactID artifact) zero_time (w_now w) (actorFromRequest r)) s in
            if bool_decide (ch_Channel channel = "") then (fail 400 "upsert channel failed", s)
            else (saving (CChannel channel artifact), s)
        end
      end
    end
  else (bad_method, s).

(** *** What an upload is stored as *)

Definition safe_rune (rune : Z * string) : string :=
  match rune.2 with
  | String c EmptyString => if is_name_byte c then rune.2 else "_"
  | _ => "_"
  end.

Definition safePathSegment (v : string) : string :=
  let v := TrimSpace v in if bool_decide (v = "") then "_" else concat_str (safe_rune <$> runes v).

Definition safeFilename (name : string) : string :=
  let name := Base (TrimSpace name) in if bool_decide (name ∈ ["."; "/"]) then "" else safePathSegment name.

(** The directory and the file of an upload *)
Definition upload_dir (tenantID kind name version artifactID : string) : string :=
  JoinPath [w_artifactDir w; safePathSegment tenantID; safePathSegment kind; safePathSegment name; safePathSegment version; safePathSegment artifactID].
Definition upload_path (tenantID kind name version artifactID filename : string) : string :=
  let filename := safeFilename filename in
  JoinPath [upload_dir tenantID kind name version artifactID; if bool_decide (filename = "") then "artifact.tar.gz" else filename].

(** A multipart form, or why it could not be parsed; the values of its
    fields; its file, or why there is none *)
Record Form := MkForm {
  fm_parsed : option string;
  fm_value : string → string;
  fm_file : result (string * string)
}.

(** The files of the artifact directory; [Fault] is a step that failed. *)
Definition Disk : Type := gmap string string.
Definition Fault : Type := option (string * string).

Definition fault_text (fault : Fault) : option string := (λ f, f.1 +:+ ": " +:+ f.2) <$> fault.

(** The checks of an agent distribution against the form *)
Definition check_distribution (form : Form) (name version archive : string) : result (gmap string string) :=
  match InspectTarGz archive (w_artifactPub w) with
  | Err e => Err ("inspect agent distribution: " +:+ e)
  | Ok (manifest, signed) =>
    let differs field value := negb (bool_decide (TrimSpace (fm_value form field) = "")) && negb (bool_decide (value = TrimSpace (fm_value form field))) in
    if negb (bool_decide (mf_Name manifest = name)) || negb (bool_decide (mf_Version manifest = version))
    then Err "artifact form metadata does not match distribution manifest"
    else if differs "os" (mf_OS manifest) then Err "artifact os does not match distribution manifest"
    else if differs "arch" (mf_Arch manifest) then Err "artifact arch does not match distribution manifest"
    else Ok (list_to_map [("manifest_schema", mf_SchemaVersion manifest); ("manifest_entrypoint", mf_Entrypoint manifest);
                          ("manifest_systemd_unit", mf_SystemdUnit manifest); ("manifest_signed", if signed then "true" else "false")])
  end.

(** [fault]: a step of writing the file that failed; [suffix]: [randomSuffix] *)
Definition receiveArtifact (fault : Fault) (suffix : string) (form : Form) (disk : Disk) : result Artifact * Disk :=
  match fm_parsed form, fm_file form with
  | Some e, _ => (Err ("parse artifact upload: " +:+ e), disk)
  | None, Err e => (Err ("file is required: " +:+ e), disk)
  | None, Ok (filename, data) =>
    let name := TrimSpace (fm_value form "name") in
    let kind := TrimSpace (fm_value form "kind") in
    let version := TrimSpace (fm_value form "version") in
    if bool_decide (name = "") || bool_decide (kind = "") || bool_decide (version = "") then (Err "name, kind, and version are required", disk)
    else
      let tenantID := or_default (TrimSpace (fm_value form "tenant_id")) in
      let artifactID := "art-" +:+ w_stamp w +:+ "-" +:+ suffix in
      let finalPath := upload_path tenantID kind name version artifactID filename in
      match fault_text fault with
      | Some e => (Err e, disk)
      | None =>
        let written := <[finalPath := data]> disk in
        let status := let st := TrimSpace (fm_value form "status") in if bool_decide (st = "") then "draft" else st in
        match (if bool_decide (kind = "agent") then check_distribution form name version data else Ok ∅) with
        | Err e => (Err e, delete finalPath written)
        | Ok metadata =>
          (Ok (MkArtifact artifactID tenantID name kind version (fm_value form "os") (fm_value form "arch")
                 (EncodeToString (Sum256 (string_bytes data))) (Z.of_nat (String.length data)) status finalPath (w_now w) (w_now w) "" metadata), written)
        end
      end
  end.

Definition artifacts (fault : Fault) (suffix : string) (form : Form) (r : Request) (s : Store) (disk : Disk) : content * Store * Disk :=
  if bool_decide (hq_Method r = "GET")
  then (CArtifacts (ListArtifacts (wb_artifacts w) (query_of "tenant_id" r) (query_of "kind" r) (query_of "status" r) s), s, disk)
  else if bool_decide (hq_Method r = "POST") then
    match requireOperator "admin" r with
    | Some refusal => (CError refusal, s, disk)
    | None =>
      match receiveArtifact fault suffix form disk with
      | (Err e, disk) => (fail 400 e, s, disk)
      | (Ok artifact, disk) =>
        let '(artifact, s) := UpsertArtifact (w_stored w) (artifact <| ar_CreatedBy := actorFromRequest r |>) s in
        if bool_decide (ar_ArtifactID artifact = "") then (fail 400 "create artifact failed", s, disk)
        else (saving (CArtifact artifact), s, disk)
      end
    end
  else (bad_method, s, disk).

(** ** The package index ([artifact_feed.go]) *)

Definition feed_artifact (now : Time) (item : artifactFeedItem) : result Artifact :=
  let or_else (s fallback : string) := if bool_decide (TrimSpace s = "") then fallback else TrimSpace s in
  let downloadURL := TrimSpace (afi_DownloadURL item) in
  if bool_decide (downloadURL = "") then Err ("seed artifact " +:+ Quote (afi_Name item) +:+ ": download_url is required")
  else Ok (MkArtifact (or_else (afi_ArtifactID item) (Join ["release"; afi_Name item; afi_OS item; afi_Arch item; afi_Version item] "-"))
    (or_else (afi_TenantID item) "default") (afi_Name item) (afi_Kind item) (afi_Version item) (afi_OS item) (afi_Arch item) (afi_SHA256 item)
    (afi_SizeBytes item) (or_else (afi_Status item) "active") "" now now "package-index"
    (<["download_url" := downloadURL]> {[ "source" := "package-index" ]})).

Fixpoint seed_channels (artifact : Artifact) (names : list string) (s : Store) : option string * Store :=
  match names with
  | [] => (None, s)
  | name :: names' =>
    let name := TrimSpace name in
    if bool_decide (name = "") then seed_channels artifact names' s
    else
      let '(channel, s) := UpsertChannel (w_stored w) (MkArtifactChannel (ar_TenantID artifact) name (ar_ArtifactID artifact) zero_time (w_now w) "package-index") s in
      if bool_decide (ch_Channel channel = "") then (Some ("seed channel " +:+ Quote name +:+ ": upsert failed"), s)
      else seed_channels artifact names' s
  end.

Fixpoint seed_artifacts (items : list artifactFeedItem) (s : Store) : option string * Store :=
  match items with
  | [] => (None, s)
  | item :: items' =>
    match feed_artifact (w_now w) item with
    | Err e => (Some e, s)
    | Ok artifact =>
      let '(artifact, s) := UpsertArtifact (w_stored w) artifact s in
      if bool_decide (ar_ArtifactID artifact = "") then (Some ("seed artifact " +:+ Quote (afi_Name item) +:+ ": upsert failed"), s)
      else match seed_channels artifact (afi_Channels item) s with
      | (Some e, s) => (Some e, s)
      | (None, s) => seed_artifacts items' s
      end
    end
  end.

Definition seedArtifactFeed (text : string) (s : Store) : option string * Store :=
  match decode_feed text with
  | Err e => (Some ("decode artifact feed: " +:+ e), s)
  | Ok feed =>
    if negb (bool_decide (af_SchemaVersion feed = "sysarmor.artifact.feed/v1"))
    then (Some ("unsupported artifact feed schema " +:+ Quote (af_SchemaVersion feed)), s)
    else match seed_artifacts (af_Artifacts feed) s with
    | (Some e, s) => (Some e, s)
    | (None, s) => ((λ e, "save artifact feed: " +:+ e) <$> w_save w, s)
    end
  end.

(** ** Deployment from the UI ([http_ui_deploy.go]) *)

Fixpoint quote_shell (s : string) : string :=
  match s with
  | EmptyString => ""
  | String c s' =>
    (if Ascii.eqb c "'"%char then "'" +:+ String double_quote "'" +:+ String double_quote "'" else String c "") +:+ quote_shell s'
  end.
Definition shellQuote (v : string) : string := "'" +:+ quote_shell v +:+ "'".

Definition defaultDeployGatewayAddr : string := defaultString (w_getenv w "SYSARMOR_DEPLOY_GATEWAY_ADDR") "127.0.0.1:19444".
Definition defaultDeployGatewaySNI : string := w_getenv w "SYSARMOR_DEPLOY_GATEWAY_SNI".
Definition defaultContainerEntrypointCommand : string :=
  "/opt/sysarmor/agent/bin/sysarmor-agent run --config /etc/sysarmor/agent/agent.yaml".

(** The request of a deployment with the defaults filled in *)
Definition deploy_request (req : enrollmentRequest) : enrollmentRequest :=
  MkEnrollmentRequest (defaultString (erq_TenantID req) "default") (erq_AgentID req) (erq_HostID req)
    (defaultString (erq_GatewayAddr req) defaultDeployGatewayAddr) (defaultString (erq_GatewaySNI req) defaultDeployGatewaySNI)
    (erq_Profile req) (erq_Channel req) (erq_ArtifactID req) "" (erq_Labels req) (erq_TTL req) (erq_Actor req).

Definition uiDeployAgentCommand (r : Request) (s : Store) : content * Store :=
  if negb (bool_decide (hq_Method r = "POST")) then (bad_method, s)
  else match requireOperator "admin" r with
  | Some refusal => refused refusal s
  | None =>
    match decode_enrollment (hq_Body r) with
    | Err e => (fail 400 ("decode deploy command: " +:+ e), s)
    | Ok req =>
      match createEnrollment (deploy_request req) (actorFromRequest r) true s with
      | (inl (status, e), s) => (fail status e, s)
      | (inr created, s) =>
        let enrollment := ec_Enrollment created in
        let scriptURL := installURL (ec_BootstrapTicket created) in
        let container := bool_decide (defaultString (en_Profile enrollment) "linux-systemd" = "linux-container") in
        (CCommand (publicEnrollment enrollment)
           ((λ artifact, (ar_ArtifactID artifact, en_ArtifactURL enrollment, ar_SHA256 artifact)) <$> ec_Artifact created)
           ("curl -fsSL " +:+ shellQuote scriptURL +:+ (if container then " | bash" else " | sudo bash"))
           (if container then defaultContainerEntrypointCommand else "") scriptURL, s)
      end
    end
  end.
End enrollment.
End ManagerEnrollment.
