(* ===== verification/ManagerServer.v ===== *)
(** * The manager's HTTP server ([internal/manager/api/http.go], [http_auth.go], [internal/manager/auth])

    The handlers of [ManagerApi] and of [ManagerEnrollment] behind one server:
    the routes, the check that a request has a principal, the binding of a
    request to the tenant of its principal, and the verification of the
    token.  The state is the store and the files of the artifact directory.

    A request for a route that is not modelled is [Elsewhere], which says
    nothing of the state: the health of the server, the search of telemetry
    ([http_search.go], [http_telemetry.go], [http_incidents.go]), the views of
    the UI that only list, paths that [ServeMux] redirects because they are
    not clean, and unknown paths. *)

From S2P Require Import Prelude GoStrings GoBytes GoData GoText StoreData StoreEnrollment ContentStore ManagerApi ManagerEnrollment.

Module ManagerServer.
Import StoreData ManagerApi ManagerEnrollment.

Definition State : Type := Store * Disk.

Inductive answer := Api (response : Response) | Deployment (reply : content).

Inductive outcome := Served (reply : answer) (y : State) | Panicked (y : State) | Elsewhere.

(** The world of one request, with the upload it carries *)
Record Surroundings := MkSurroundings {
  su_env : Env;
  su_world : World;
  su_fault : Fault;
  su_suffix : string;
  su_form : Form
}.

Section server.
Context `{ApiText} `{EnrollText} `{X509} `{RangeOrder} `{SliceSort} (su : Surroundings).
Notation env := (su_env su).
Notation w := (su_world su).

Definition api (handler : Request → Store → Response * Store) (r : Request) (y : State) : outcome :=
  let '(response, s) := handler r y.1 in Served (Api response) (s, y.2).

Definition deployment (handler : Request → Store → content * Store) (r : Request) (y : State) : outcome :=
  let '(reply, s) := handler r y.1 in Served (Deployment reply) (s, y.2).

Definition upload (r : Request) (y : State) : outcome :=
  let '(reply, s, disk) := artifacts w (su_fault su) (su_suffix su) (su_form su) r y.1 y.2 in Served (Deployment reply) (s, disk).

(** [cleanPath] of net/http, of a path that begins with a slash *)
Definition cleanPath (path : string) : string :=
  let clean := Clean path in if HasSuffix path "/" && negb (bool_decide (clean = "/")) then clean +:+ "/" else clean.

(** [ServeMux]: the routes of [Handler]; the one that ends in a slash is a
    prefix. *)
Definition mux (r : Request) (y : State) : outcome :=
  let path := hq_Path r in
  if negb (bool_decide (cleanPath path = path)) then Elsewhere
  else match route env path with
  | Some handler => api handler r y
  | None =>
    if bool_decide (path = "/api/v1/artifacts") then upload r y
    else if HasPrefix path "/api/v1/artifacts/" then deployment (artifactByID w) r y
    else if bool_decide (path = "/api/v1/channels") then deployment (channels w) r y
    else if bool_decide (path = "/api/v1/enrollments") then deployment (enrollments w) r y
    else if bool_decide (path = "/api/v1/enrollment-artifact") then deployment (λ r s, (enrollmentArtifact w r s, s)) r y
    else if bool_decide (path = "/api/v1/enrollment-certificate") then deployment (enrollmentCertificate w) r y
    else if bool_decide (path = "/api/v1/agent-install.sh") then deployment (agentInstallScript w) r y
    else if bool_decide (path = "/api/v1/ui/deploy/agent-command") then deployment (uiDeployAgentCommand w) r y
    else Elsewhere
  end.

Definition refuse (response : Response) (y : State) : outcome := Served (Api response) y.

Definition unauthorized : Response := writeAPIError 401 "unauthorized" "Unauthorized".

Definition requireProductionPrincipal (next : Request → State → outcome) (r : Request) (y : State) : outcome :=
  if is_open (hq_Path r) then next r y
  else match hq_Principal r with
  | None => refuse unauthorized y
  | Some _ => next r y
  end.

Definition Handler : Request → State → outcome := requireProductionPrincipal mux.

Definition bindPrincipalTenant (next : Request → State → outcome) (r : Request) (y : State) : outcome :=
  if is_open (hq_Path r) then next r y
  else match hq_Principal r with
  | None => refuse unauthorized y
  | Some principal =>
    let tenant := query_of "tenant_id" r in
    if negb (bool_decide (tenant = "")) && negb (bool_decide (tenant = pr_TenantID principal))
    then refuse (writeAPIError 403 "forbidden" "Forbidden") y
    else match bindJSONTenant (pr_TenantID principal) (r <| hq_Query ::= set_query "tenant_id" (pr_TenantID principal) |>) with
    | None => Panicked y
    | Some (inl refusal) => refuse refusal y
    | Some (inr r) => next r y
    end
  end.

Definition Middleware (verify_token : string → result Claims) (next : Request → State → outcome) (r : Request) (y : State) : outcome :=
  if bool_decide (hq_Path r = "/healthz") then next r y
  else match bearer r with
  | None => refuse (http_error 401 "unauthorized") y
  | Some raw =>
    match Verify verify_token raw with
    | Err _ => refuse (http_error 401 "unauthorized") y
    | Ok principal => next (r <| hq_Principal := Some principal |>) y
    end
  end.

Definition HandlerWithAuth (verify_token : string → result Claims) (r : Request) (y : State) : outcome :=
  if isEnrollmentTokenEndpoint (hq_Path r) then Handler r y else Middleware verify_token (bindPrincipalTenant Handler) r y.
End server.

(** The state after a request whose route is modelled *)
Definition state_after (o : outcome) : option State :=
  match o with Served _ y | Panicked y => Some y | Elsewhere => None end.
End ManagerServer.
