(* ===== verification/ManagerTheorems.v ===== *)
(** * The manager's API: who may change what, and who sees what

    About the server of [ManagerServer], with the database of [Postgres].
    [writes_authorized]: a request changes the state only with a token that
    was verified and whose role the route asks for, or with the ticket or the
    token of an enrolment.  [tenant_isolation]: a request whose body is bound
    to the tenant of its token is answered with records of that tenant alone,
    whatever the processes have written to the database.  The lemmas at the
    end are requests that escape the binding, and an analysis that changes a
    policy. *)

From S2P Require Import Prelude GoStrings GoBytes GoData GoText EventModel Policy Response ControlModel PolicyModel Health StoreData StoreAgents StorePolicies StoreTelemetry StoreResponses StoreCommands StoreEnrollment Postgres ResponseGate ContentStore ManagerApi ManagerEnrollment ManagerServer.

Module ManagerTheorems.
Import Response ControlModel PolicyModel Health StoreData StoreAgents StorePolicies StoreTelemetry StoreCommands StoreEnrollment Postgres ResponseGate ManagerApi ManagerServer.
Import ManagerEnrollment (EnrollText, X509, World, Disk, w_stored, w_now, wb_bootstrap, wb_commit).
Import StoreResponses (ListResponses, PendingResponses, responseDecisionRequest, dr_TenantID, reply, BadRequest, NotFound, Forbidden, Created).

(** ** Who may change the store *)

(** The role a route asks of those who write through it *)
Definition required_role (path : string) : string :=
  if bool_decide (path ∈ ["/api/v1/responses"; "/api/v1/response-decisions"; "/api/v1/response-approvals"; "/api/v1/response-acks"])
  then "operator" else "admin".

(** The request may write with this role. *)
Definition may_write (role : string) (r : Request) : Prop :=
  hq_Method r = "POST" ∧ ∃ principal, hq_Principal r = Some principal ∧ HasRole role principal = true.

(** A principal has a name and a tenant. *)
Lemma Verify_named verify raw principal : Verify verify raw = Ok principal → pr_Subject principal ≠ "" ∧ pr_TenantID principal ≠ "".
Proof.
  unfold Verify. destruct (verify raw) as [claims|e]; [|done]. repeat (case_bool_decide; [done|]). cbn. by intros [= <-].
Qed.

Section writes.
Context `{ApiText} `{RangeOrder} `{SliceSort} (env : Env).

Lemma requireOperator_admin role r :
  role ∈ ["admin"; "policy_admin"; "control_admin"; "incident_admin"] → requireOperator role r = None →
  ∃ principal, hq_Principal r = Some principal ∧ HasRole "admin" principal = true.
Proof.
  intros Hrole. unfold requireOperator. destruct (hq_Principal r) as [principal|]; [|done].
  rewrite bool_decide_eq_true_2 by done. destruct (HasRole "admin" principal) eqn:E; [by exists principal|done].
Qed.

Lemma requireOperator_operator role r :
  role ∉ ["admin"; "policy_admin"; "control_admin"; "incident_admin"] → requireOperator role r = None →
  ∃ principal, hq_Principal r = Some principal ∧ HasRole "operator" principal = true.
Proof.
  intros Hrole. unfold requireOperator. destruct (hq_Principal r) as [principal|]; [|done].
  rewrite bool_decide_eq_false_2 by done. destruct (HasRole "operator" principal) eqn:E; [by exists principal|done].
Qed.

(** What a handler does to the store *)
Definition guarded (role : string) (handler : Request → Store → ManagerApi.Response * Store) : Prop :=
  ∀ r s, (handler r s).2 = s ∨ may_write role r.

Lemma guarded_admin role handler :
  role ∈ ["admin"; "policy_admin"; "control_admin"; "incident_admin"] →
  (∀ r s, (handler r s).2 = s ∨ hq_Method r = "POST" ∧ requireOperator role r = None) → guarded "admin" handler.
Proof.
  intros Hrole Hh r s. destruct (Hh r s) as [?|[Hm Hr]]; [by left|right]. split; [done|]. by eapply requireOperator_admin.
Qed.

Lemma guarded_reads role handler : (∀ r s, (handler r s).2 = s) → guarded role handler.
Proof. intros Hh r s. left. apply Hh. Qed.

Lemma respond_guarded {A} role what (decode : string → result A) post r s :
  (respond env role what decode post r s).2 = s ∨ requireOperator role r = None.
Proof. unfold respond. destruct (requireOperator role r); [by left|by right]. Qed.

(** A handler that writes past the method and the permission *)
Local Ltac past_permission role r :=
  case_bool_decide; [cbn [negb]; destruct (requireOperator role r) eqn:?; [by left|by right]|by left].

(** The same where the answer of [respond] is rewritten *)
Local Ltac past_answer r s :=
  case_bool_decide; [cbn [negb]|by left];
  match goal with |- context [respond ?env ?a ?b ?c ?d r s] =>
    let Hg := fresh in pose proof (respond_guarded a b c d r s) as Hg; destruct (respond env a b c d r s) as [? ?]; by destruct Hg; [left|right]
  end.

Local Ltac past_respond r s :=
  case_bool_decide; [cbn [negb]|by left];
  match goal with |- context [respond ?env ?a ?b ?c ?d r s] => by destruct (respond_guarded a b c d r s); [left|right] end.

Lemma policies_guarded : guarded "admin" (policies env).
Proof.
  apply (guarded_admin "policy_admin"); [set_solver|]. intros r s. unfold policies.
  destruct (bool_decide (hq_Method r = "GET")); [left; by repeat case_match|].
  past_permission "policy_admin" r.
Qed.

Lemma policyPublish_guarded : guarded "admin" (policyPublish env).
Proof.
  apply (guarded_admin "policy_admin"); [set_solver|]. intros r s. unfold policyPublish.
  past_permission "policy_admin" r.
Qed.

Lemma policyAssignments_guarded : guarded "admin" (policyAssignments env).
Proof.
  apply (guarded_admin "policy_admin"); [set_solver|]. intros r s. unfold policyAssignments.
  destruct (bool_decide (hq_Method r = "GET")); [by left|].
  past_permission "policy_admin" r.
Qed.

Lemma evidencePullbacks_guarded : guarded "admin" (evidencePullbacks env).
Proof.
  apply (guarded_admin "incident_admin"); [set_solver|]. intros r s. unfold evidencePullbacks.
  destruct (bool_decide (hq_Method r = "GET")); [by left|].
  past_permission "incident_admin" r.
Qed.

Lemma controlCommands_guarded : guarded "admin" (controlCommands env).
Proof.
  apply (guarded_admin "control_admin"); [set_solver|]. intros r s. unfold controlCommands.
  destruct (bool_decide (hq_Method r = "GET")); [by left|].
  past_permission "control_admin" r.
Qed.

Lemma agentHealth_guarded : guarded "admin" (agentHealth env).
Proof.
  apply (guarded_admin "admin"); [set_solver|]. intros r s. unfold agentHealth.
  case_bool_decide; [|left; by repeat case_match]. destruct (requireOperator "admin" r) eqn:?; [by left|by right].
Qed.

Lemma reset_guarded : guarded "admin" (reset env).
Proof.
  apply (guarded_admin "admin"); [set_solver|]. intros r s. unfold reset.
  past_permission "admin" r.
Qed.

Lemma guarded_operator role handler :
  role ∉ ["admin"; "policy_admin"; "control_admin"; "incident_admin"] →
  (∀ r s, (handler r s).2 = s ∨ hq_Method r = "POST" ∧ requireOperator role r = None) → guarded "operator" handler.
Proof.
  intros Hrole Hh r s. destruct (Hh r s) as [?|[Hm Hr]]; [by left|right]. split; [done|]. by eapply requireOperator_operator.
Qed.

Lemma responses_guarded : guarded "operator" (responses env).
Proof.
  apply (guarded_operator "responder"); [set_solver|]. intros r s. unfold responses.
  destruct (bool_decide (hq_Method r = "GET")); [left; by case_match|].
  past_respond r s.
Qed.

Lemma responseDecisions_guarded : guarded "operator" (responseDecisions env).
Proof.
  apply (guarded_operator "responder"); [set_solver|]. intros r s. unfold responseDecisions.
  past_respond r s.
Qed.

Lemma responseApprovals_guarded : guarded "operator" (responseApprovals env).
Proof.
  apply (guarded_operator "responder"); [set_solver|]. intros r s. unfold responseApprovals.
  past_answer r s.
Qed.

Lemma responseAcks_guarded : guarded "operator" (responseAcks env).
Proof.
  apply (guarded_operator "response_admin"); [set_solver|]. intros r s. unfold responseAcks.
  past_answer r s.
Qed.

Lemma route_guarded path handler : path ≠ "/api/v1/recompute" → route env path = Some handler → guarded (required_role path) handler.
Proof.
  intros Hne ([entry handler'] & Hin & [= ->])%fmap_Some. apply find_first_elem in Hin as [Hin Hp].
  apply bool_decide_eq_true in Hp. cbn in Hp. subst entry.
  repeat (apply elem_of_cons in Hin as [[= -> ->]|Hin]);
    [apply reset_guarded|done|apply guarded_reads|apply policies_guarded|apply policyPublish_guarded|apply guarded_reads
    |apply policyAssignments_guarded|apply guarded_reads|apply responses_guarded|apply responseDecisions_guarded
    |apply responseApprovals_guarded|apply responseAcks_guarded|apply guarded_reads|apply evidencePullbacks_guarded
    |apply controlCommands_guarded|apply guarded_reads|apply agentHealth_guarded|apply guarded_reads..|by apply elem_of_nil in Hin].
  all: intros r s.
  - unfold rules. by case_match.
  - unfold policyAudit. by case_match.
  - unfold effectivePolicy. by repeat case_match.
  - unfold dataResume. by repeat case_match.
  - done.
  - unfold agentSessions. by case_match.
  - done.
Qed.

(** Analysis on demand: the parameters of one published policy of the memory *)
Definition reparametrised (s s' : Store) : Prop :=
  ∃ p c, s' = s <| st_Policies ::= update_first (λ q, same_policy p q && pol_Published q) (λ q, q <| pol_Converge := Some c |>) |>.

Definition unanswered (tenantID : string) : Prop :=
  ∃ agentID scopeType scopeSelector, bk_effective env tenantID agentID scopeType scopeSelector = None.

Lemma recompute_guarded r s :
  (recompute env r s).2 = s ∨ unanswered (query_of "tenant_id" r) ∧ reparametrised s (recompute env r s).2.
Proof.
  unfold recompute. destruct (recompute_params _ _ _) as [[c l] refusal].
  set (e := default zero_policy (effective_policy env r s)).
  assert (share_params env r e c s = s ∨ unanswered (query_of "tenant_id" r) ∧ reparametrised s (share_params env r e c s)) as Hs.
  { unfold share_params. destruct (bk_effective _ _ _ _ _) eqn:E; [by left|]. destruct (pol_Converge e); [|by left].
    right. split; [by eexists _, _, _|]. by exists e, c. }
  by destruct refusal.
Qed.
End writes.

Section deployment_writes.
Context `{EnrollText} `{X509} `{SliceSort} (w : World).

Definition keeps (role : string) (r : Request) {A} (y y' : A) : Prop := y' = y ∨ may_write role r.

Local Ltac past_admin r :=
  match goal with |- context [requireOperator "admin" r] =>
    destruct (requireOperator "admin" r) eqn:?; [by left|right; split; [done|by eapply requireOperator_admin; [|done]; set_solver]] end.

Lemma enrollments_guarded r s : keeps "admin" r s (ManagerEnrollment.enrollments w r s).2.
Proof. unfold ManagerEnrollment.enrollments. case_bool_decide; [by left|]. case_bool_decide; [|by left]. past_admin r. Qed.

Lemma deploy_guarded r s : keeps "admin" r s (ManagerEnrollment.uiDeployAgentCommand w r s).2.
Proof. unfold ManagerEnrollment.uiDeployAgentCommand. case_bool_decide; cbn [negb]; [|by left]. past_admin r. Qed.

Lemma channels_guarded r s : keeps "admin" r s (ManagerEnrollment.channels w r s).2.
Proof. unfold ManagerEnrollment.channels. case_bool_decide; [by left|]. case_bool_decide; [|by left]. past_admin r. Qed.

Lemma updateArtifactStatus_guarded r tenantID artifactID action s :
  keeps "admin" r s (ManagerEnrollment.updateArtifactStatus w r tenantID artifactID action s).2.
Proof. unfold ManagerEnrollment.updateArtifactStatus. case_bool_decide; cbn [negb]; [|by left]. past_admin r. Qed.

Lemma artifactByID_guarded r s : keeps "admin" r s (ManagerEnrollment.artifactByID w r s).2.
Proof.
  unfold ManagerEnrollment.artifactByID.
  destruct (split_byte _ _) as [|artifactID [|action [|? ?]]]; [by left| | |by left]; (case_bool_decide; [by left|]).
  - case_bool_decide; cbn [negb]; [|by left]. left. by case_match.
  - case_bool_decide; [by left|]. case_bool_decide; [apply updateArtifactStatus_guarded|by left].
Qed.

Lemma artifacts_guarded fault suffix form r s disk reply s' disk' :
  ManagerEnrollment.artifacts w fault suffix form r s disk = (reply, s', disk') → keeps "admin" r (s, disk) (s', disk').
Proof.
  unfold ManagerEnrollment.artifacts. case_bool_decide; [intros [= _ <- <-]; by left|]. case_bool_decide; [|intros [= _ <- <-]; by left].
  destruct (requireOperator "admin" r) eqn:E; [intros [= _ <- <-]; by left|]. intros _. right. split; [done|].
  by eapply requireOperator_admin; [|done]; set_solver.
Qed.

(** A ticket was redeemed. *)
Definition redeems (r : Request) (s s' : Store) : Prop :=
  hq_Method r = "GET" ∧ ∃ token ticketHash tokenHash preview e,
    ManagerEnrollment.redemption w r = Ok (Some (token, ticketHash, tokenHash, preview)) ∧
    ConsumeEnrollmentBootstrap (wb_bootstrap w ticketHash tokenHash preview (w_now w)) (w_stored w) ticketHash tokenHash preview (w_now w) s = (Ok (Some e), s').

Lemma install_guarded r s : (ManagerEnrollment.agentInstallScript w r s).2 = s ∨ redeems r s (ManagerEnrollment.agentInstallScript w r s).2.
Proof.
  unfold ManagerEnrollment.agentInstallScript, ManagerEnrollment.resolveInstallEnrollment. case_bool_decide as Hm; cbn [negb]; [|by left].
  unfold redeems. destruct (ManagerEnrollment.redemption w r) as [[[[[token t] h] p]|]|]; [|by left..].
  destruct (ConsumeEnrollmentBootstrap _ _ t h p _ s) as [[[e|]|e] s1] eqn:Ec.
  - right. split; [done|]. exists token, t, h, p, e. split; [done|].
    rewrite Ec. f_equal. destruct (ManagerEnrollment.w_save w); [done|]. destruct (negb _); [done|].
    by destruct (expired _ e).
  - left. unfold ConsumeEnrollmentBootstrap in Ec. repeat case_match; by simplify_eq.
  - left. unfold ConsumeEnrollmentBootstrap in Ec. repeat case_match; by simplify_eq.
Qed.

(** A certificate was issued. *)
Definition issues (r : Request) (s s' : Store) : Prop :=
  hq_Method r = "POST" ∧ ∃ t k proposed cert e,
    ManagerEnrollment.prepare_issue w r s = inr (ManagerEnrollment.MkIssueCall t k proposed cert) ∧
    CommitEnrollmentIssue (wb_commit w (TrimSpace t) (TrimSpace k) proposed cert) (w_stored w) t k proposed cert s = (Ok (e, EnrollmentIssued), s').

Lemma CommitEnrollmentIssue_writes backend now t k proposed cert s res s' :
  CommitEnrollmentIssue backend now t k proposed cert s = (res, s') → s' = s ∨ ∃ e, res = Ok (e, EnrollmentIssued).
Proof.
  unfold CommitEnrollmentIssue, commitEnrollmentIssueInMemory. intros Hc. repeat case_match; simplify_eq; eauto.
Qed.

Lemma certificate_guarded r s : (ManagerEnrollment.enrollmentCertificate w r s).2 = s ∨ issues r s (ManagerEnrollment.enrollmentCertificate w r s).2.
Proof.
  unfold ManagerEnrollment.enrollmentCertificate, issues. destruct (ManagerEnrollment.prepare_issue w r s) as [reply|[t k proposed cert]] eqn:Ep; [by left|].
  assert (hq_Method r = "POST") as Hm by (unfold ManagerEnrollment.prepare_issue in Ep; by case_bool_decide).
  destruct (CommitEnrollmentIssue _ _ t k proposed cert s) as [res s1] eqn:Ec.
  destruct (CommitEnrollmentIssue_writes _ _ _ _ _ _ _ _ _ Ec) as [->|[e ->]].
  - left. by destruct res as [[e []]|e].
  - right. split; [done|]. by exists t, k, proposed, cert, e.
Qed.
End deployment_writes.

Section server_writes.
Context `{ApiText} `{EnrollText} `{X509} `{RangeOrder} `{SliceSort} (su : Surroundings).
Notation env := (su_env su).
Notation w := (su_world su).

(** What a request that was routed may have done to the state *)
Definition allowed (r : Request) (y y' : State) : Prop :=
  keeps (required_role (hq_Path r)) r y y' ∨
  (y'.2 = y.2 ∧
   (hq_Path r = "/api/v1/recompute" ∧ unanswered env (query_of "tenant_id" r) ∧ reparametrised y.1 y'.1 ∨
    hq_Path r = "/api/v1/agent-install.sh" ∧ redeems w r y.1 y'.1 ∨
    hq_Path r = "/api/v1/enrollment-certificate" ∧ issues w r y.1 y'.1)).

Lemma api_state handler r y y' : state_after (api handler r y) = Some y' → y' = ((handler r y.1).2, y.2).
Proof. unfold api. destruct (handler r y.1). by intros [= <-]. Qed.

Lemma deployment_state handler r y y' : state_after (deployment handler r y) = Some y' → y' = ((handler r y.1).2, y.2).
Proof. unfold deployment. destruct (handler r y.1). by intros [= <-]. Qed.

Lemma keeps_pair role r (y : State) s : keeps role r y.1 s → keeps role r y (s, y.2).
Proof. intros [->|?]; [left; by destruct y|by right]. Qed.

Lemma required_admin r :
  required_role (hq_Path r) = "admin" →
  ∀ (y : State) s, keeps "admin" r y.1 s → allowed r y (s, y.2).
Proof. intros Hr y s Hk. left. rewrite Hr. by apply keeps_pair. Qed.

(** What admins alone may do, on a path that is not one of the responses *)
Local Ltac by_admin lemma :=
  intros ->%deployment_state; apply required_admin; [|apply lemma].

Lemma mux_allowed r y y' : state_after (mux su r y) = Some y' → allowed r y y'.
Proof.
  unfold mux. destruct (negb _); [done|]. destruct (route env (hq_Path r)) as [handler|] eqn:Er.
  { intros ->%api_state. destruct (decide (hq_Path r = "/api/v1/recompute")) as [Hp|Hp].
    - rewrite Hp in Er. injection Er as <-. destruct (recompute_guarded env r y.1) as [->|Hs]; [left; left; by destruct y|].
      right. split; [done|]. left. by split.
    - left. apply keeps_pair. exact (route_guarded env _ _ Hp Er r y.1). }
  case_bool_decide as Hp.
  { unfold upload. destruct (ManagerEnrollment.artifacts _ _ _ _ _ _ _) as [[reply s] disk] eqn:Ea. intros [= <-].
    left. rewrite Hp. destruct y as [s0 disk0]. exact (artifacts_guarded _ _ _ _ _ _ _ _ _ _ Ea). }
  clear Hp. destruct (HasPrefix (hq_Path r) "/api/v1/artifacts/") eqn:Hp.
  { by_admin artifactByID_guarded. unfold required_role. rewrite bool_decide_eq_false_2; [done|]. intros Hin. repeat (apply elem_of_cons in Hin as [Hin|Hin]; [by rewrite Hin in Hp|]). by apply elem_of_nil in Hin. }
  clear Hp. case_bool_decide as Hp; [by_admin channels_guarded; by rewrite Hp|].
  clear Hp. case_bool_decide as Hp; [by_admin enrollments_guarded; by rewrite Hp|].
  clear Hp. case_bool_decide as Hp; [intros ->%deployment_state; left; left; by destruct y|].
  clear Hp. case_bool_decide as Hp.
  { intros ->%deployment_state. destruct (certificate_guarded w r y.1) as [->|Hi]; [left; left; by destruct y|]. right. by split; [|right; right]. }
  clear Hp. case_bool_decide as Hp.
  { intros ->%deployment_state. destruct (install_guarded w r y.1) as [->|Hi]; [left; left; by destruct y|]. right. by split; [|right; left]. }
  clear Hp. case_bool_decide as Hp; [|done]. by_admin deploy_guarded; by rewrite Hp.
Qed.

(** The binding changes neither the method, nor the path, nor the principal. *)
Lemma bindJSONTenant_same t r r' :
  bindJSONTenant t r = Some (inr r') → hq_Method r' = hq_Method r ∧ hq_Path r' = hq_Path r ∧ hq_Principal r' = hq_Principal r ∧ hq_Query r' = hq_Query r.
Proof. unfold bindJSONTenant. intros Hb. repeat case_match; simplify_eq; done. Qed.

Lemma get_set_query key value query : get key (set_query key value query) = value.
Proof. unfold get, values, set_query. by rewrite filter_cons_True. Qed.

Lemma Handler_allowed r y y' : state_after (Handler su r y) = Some y' → allowed r y y'.
Proof.
  unfold Handler, requireProductionPrincipal. destruct (is_open _); [apply mux_allowed|].
  destruct (hq_Principal r); [apply mux_allowed|]. intros [= <-]. left. by left.
Qed.

(** Behind the middleware, the request is the one that was bound. *)
Lemma bindPrincipalTenant_allowed r y y' principal :
  hq_Principal r = Some principal → is_open (hq_Path r) = false →
  state_after (bindPrincipalTenant (Handler su) r y) = Some y' →
  y' = y ∨ ∃ r', hq_Path r' = hq_Path r ∧ hq_Method r' = hq_Method r ∧ hq_Principal r' = Some principal ∧
    query_of "tenant_id" r' = pr_TenantID principal ∧ allowed r' y y'.
Proof.
  intros Hp Ho. unfold bindPrincipalTenant. rewrite Ho, Hp. destruct (negb _ && negb _); [intros [= <-]; by left|].
  destruct (bindJSONTenant _ _) as [[refusal|r']|] eqn:Eb; [intros [= <-]; by left| |intros [= <-]; by left].
  apply bindJSONTenant_same in Eb as (Hm & Hpath & Hpr & Hq). intros Hs%Handler_allowed. right. exists r'.
  split_and!; [done|done|by rewrite Hpr| |done]. unfold query_of. rewrite Hq. apply get_set_query.
Qed.

(** C4. Only an authorised request changes the store or the artifact files: if
    the state after a request from the network is not the state before, one of
    these holds.  (1) It was a POST with a bearer token that the verifier
    accepted, which names a subject and a tenant, and has the role the route
    asks for: operator (or admin) for responses, their decisions, approvals
    and acknowledgements, admin for policies, assignments, commands, evidence,
    health, reset, enrolments, deployments, artifacts and channels.  (2) It
    fetched the install script and its bootstrap ticket was redeemed.  (3) It
    posted for a certificate, and one was issued for its enrolment token.
    (4) It asked for an analysis with a valid token of any role, the database
    gave no effective policy, and the parameters of one published policy in
    memory changed, nothing else (a defect: they are shared).  The routes are
    the modelled ones: nothing is said of health checks, search, listings of
    telemetry, status pages and unclean paths. *)
Theorem writes_authorized verify r y y' :
  hq_Principal r = None → state_after (HandlerWithAuth su verify r y) = Some y' →
  y' = y ∨
  (∃ raw principal, bearer r = Some raw ∧ Verify verify raw = Ok principal ∧ pr_Subject principal ≠ "" ∧ pr_TenantID principal ≠ "" ∧
     (hq_Method r = "POST" ∧ HasRole (required_role (hq_Path r)) principal = true ∨
      hq_Path r = "/api/v1/recompute" ∧ unanswered env (pr_TenantID principal) ∧ y'.2 = y.2 ∧ reparametrised y.1 y'.1)) ∨
  (y'.2 = y.2 ∧ (hq_Path r = "/api/v1/agent-install.sh" ∧ redeems w r y.1 y'.1 ∨ hq_Path r = "/api/v1/enrollment-certificate" ∧ issues w r y.1 y'.1)).
Proof.
  intros Hnone. unfold HandlerWithAuth. destruct (isEnrollmentTokenEndpoint (hq_Path r)) eqn:Ee.
  { intros [[Hk|[_ (p & Hp & _)]]|[Hd [(Hp & _)|Hc]]]%Handler_allowed; [by left|congruence|by rewrite Hp in Ee|]. right. right. by split. }
  unfold Middleware. case_bool_decide as Hz.
  { unfold bindPrincipalTenant, Handler, requireProductionPrincipal, is_open. rewrite bool_decide_eq_true_2 by done. cbn [orb].
    unfold mux. by rewrite Hz. }
  destruct (bearer r) as [raw|]; [|intros [= <-]; by left].
  destruct (Verify verify raw) as [principal|e] eqn:Ev; [|intros [= <-]; by left].
  intros [?|(r' & Hpath & Hm & Hpr & Hq & Ha)]%(bindPrincipalTenant_allowed _ _ _ principal);
    [by left| |done|unfold is_open; cbn; by rewrite Ee, bool_decide_eq_false_2].
  cbn in Hpath, Hm. destruct (Verify_named _ _ _ Ev) as [Hsub Ht].
  destruct Ha as [[Hk|[Hpost (p & Hp & Hr)]]|[Hd [(Hp & Hu & Hs)|[(Hp & _)|(Hp & _)]]]]; [by left| | | |].
  - right. left. rewrite Hpr in Hp. injection Hp as <-. exists raw, principal. rewrite Hpath in Hr. rewrite Hm in Hpost. by split_and!; [..|left].
  - right. left. exists raw, principal. rewrite Hq in Hu. rewrite Hpath in Hp. by split_and!; [..|right].
  - rewrite Hpath in Hp. by rewrite Hp in Ee.
  - rewrite Hpath in Hp. by rewrite Hp in Ee.
Qed.
End server_writes.

(** ** Who sees what *)

(** The tenants of the records of a reply *)
Definition shown (b : body) : list string :=
  match b with
  | BPolicy p => [pol_TenantID p]
  | BPolicies l => pol_TenantID <$> l
  | BAudits l => pa_TenantID <$> l
  | BAssignment a command => asg_TenantID a :: from_option (λ cmd, [cc_TenantID cmd]) [] command
  | BAssignments l => asg_TenantID <$> l
  | BResponse cmd => [cmd_TenantID cmd]
  | BAudit record => [cmd_TenantID (aud_Command record)]
  | BResponses l => (λ record, cmd_TenantID (aud_Command record)) <$> l
  | BPending l => cmd_TenantID <$> l
  | BPullback req => [ep_TenantID req]
  | BPullbacks l => ep_TenantID <$> l
  | BCommand cmd => [cc_TenantID cmd]
  | BCommands l => cc_TenantID <$> l
  | BAgents l => ali_TenantID <$> l
  | BHealth h => [ah_TenantID h]
  | BHealths l => ah_TenantID <$> l
  | BSessions l => as_TenantID <$> l
  | BResume resume => [dre_TenantID resume]
  | BError _ _ | BOk _ | BRules _ | BMetrics _ | BAnalysis _ => []
  end.

(** Encoding/json: an object with this tenant_id, written and read again, has
    this tenant_id (the keys of a map are written in order, so that its other
    spellings come before it and the last one counts). *)
Definition binds `{ApiText} {A} (preserved : string → Prop) (decode : string → result A) (tenant : A → string) : Prop :=
  ∀ t object bound a, preserved t → marshal_object (<["tenant_id" := string_any t]> object) = Ok bound → decode bound = Ok a → tenant a = t.

Class ApiLaws `{ApiText} := {
  preserved : string → Prop;
  parse_blank raw : TrimSpace raw = "" → parse_object raw = None;
  binds_policy : binds preserved decode_policy pol_TenantID;
  binds_publish : binds preserved decode_publish ppr_TenantID;
  binds_assignment : binds preserved decode_assignment (asg_TenantID ∘ par_Assignment);
  binds_response : binds preserved decode_response cmd_TenantID;
  binds_decision : binds preserved decode_decision dr_TenantID;
  binds_approval : binds preserved decode_approval rar_TenantID;
  binds_evidence : binds preserved decode_evidence evr_TenantID;
  binds_control : binds preserved decode_control ccr_TenantID
}.

(** A body every request of which is for the tenant *)
Record bound_body `{ApiText} (t raw : string) : Prop := {
  bb_policy p : decode_policy raw = Ok p → pol_TenantID p = t;
  bb_publish req : decode_publish raw = Ok req → ppr_TenantID req = t;
  bb_assignment req : decode_assignment raw = Ok req → asg_TenantID (par_Assignment req) = t;
  bb_response cmd : decode_response raw = Ok cmd → cmd_TenantID cmd = t;
  bb_decision req : decode_decision raw = Ok req → dr_TenantID req = t;
  bb_approval req : decode_approval raw = Ok req → rar_TenantID req = t;
  bb_evidence req : decode_evidence raw = Ok req → evr_TenantID req = t;
  bb_control req : decode_control raw = Ok req → ccr_TenantID req = t
}.

Lemma marshalled_bound `{ApiLaws} t object raw :
  preserved t → marshal_object (<["tenant_id" := string_any t]> object) = Ok raw → bound_body t raw.
Proof.
  intros Ht Hm. split; intros a Ha.
  - by eapply binds_policy.
  - by eapply binds_publish.
  - by eapply (binds_assignment t object raw a).
  - by eapply binds_response.
  - by eapply binds_decision.
  - by eapply binds_approval.
  - by eapply binds_evidence.
  - by eapply binds_control.
Qed.

(** ** What the database answers *)

(** Every answer of the backend is what the database holds; a call can fail. *)
Record answers `{Postgresql} `{SliceSort} (db : Database) (env : Env) : Prop := {
  an_policy tenantID policyID version p : bk_policy env tenantID policyID version = Some p → queryPolicy tenantID policyID version db = Some p;
  an_effective tenantID agentID ty sel p : bk_effective env tenantID agentID ty sel = Some p → queryEffectivePolicy tenantID agentID ty sel db = Some p;
  an_policies tenantID l : bk_policies env tenantID = Some l → l = queryPolicies tenantID db;
  an_audits tenantID policyID l : bk_audits env tenantID policyID = Some l → l = queryPolicyAudits tenantID policyID db;
  an_assignments tenantID agentID l : bk_assignments env tenantID agentID = Some l → l = queryPolicyAssignments tenantID agentID db;
  an_responses tenantID agentID l : bk_responses env tenantID agentID = Some l → l = queryResponses tenantID agentID db;
  an_commands tenantID agentID ty l : bk_commands env tenantID agentID ty = Some l → l = queryControlCommands tenantID agentID ty db;
  an_sessions tenantID agentID l : bk_sessions env tenantID agentID = Some l → l = queryAgentSessions tenantID agentID db
}.

(** So what it answers for a tenant is of the tenant; a record without a
    tenant belongs to the tenant default. *)
Record honours (t : string) (env : Env) : Prop := {
  ho_policy id v p : bk_policy env t id v = Some p → or_default (pol_TenantID p) = t;
  ho_effective a ty sel p : bk_effective env t a ty sel = Some p → or_default (pol_TenantID p) = t;
  ho_policies l p : bk_policies env t = Some l → p ∈ l → or_default (pol_TenantID p) = t;
  ho_audits id l p : bk_audits env t id = Some l → p ∈ l → or_default (pa_TenantID p) = t;
  ho_assignments a l p : bk_assignments env t a = Some l → p ∈ l → or_default (asg_TenantID p) = t;
  ho_responses a l p : bk_responses env t a = Some l → p ∈ l → or_default (cmd_TenantID (aud_Command p)) = t;
  ho_commands a ty l p : bk_commands env t a ty = Some l → p ∈ l → or_default (cc_TenantID p) = t;
  ho_sessions a l p : bk_sessions env t a = Some l → p ∈ l → or_default (as_TenantID p) = t
}.

Section backend.
Context `{Postgresql} `{SliceSort} `{RangeOrder} (db : Database) (t : string).
Hypotheses (Ht : t ≠ "") (Hdb : well_keyed db).

Lemma or_default_t : or_default t = t.
Proof. unfold or_default. by rewrite bool_decide_eq_false_2. Qed.

(** A row selected by the tenant of its key *)
Lemma selected {A K} `{Countable K} (key : A → K) (column : K → string) where_ other less (rows : Table K A) x :
  keyed key rows → (∀ k a, where_ k a = true → matches t (column k) && other k a = true) → x ∈ select where_ less rows → column (key x) = t.
Proof.
  intros Hk Hw Hx. apply (elem_of_select_keyed key) in Hx as [Hm%Hw _]; [|done]. apply andb_true_iff in Hm as [Hm _]. by apply matches_eq.
Qed.

Lemma policy_versions_tenant id v p : p ∈ policy_versions t id v db → or_default (pol_TenantID p) = t.
Proof.
  apply (selected policy_row (λ k, k.1.1) _ (λ k _, bool_decide (k.1.2 = id) && ((v =? 0) || (k.2 =? v))%Z)); [by destruct Hdb|].
  intros k a. by rewrite <- andb_assoc.
Qed.

Lemma queryPublishedPolicy_tenant id v p : queryPublishedPolicy t id v db = Some p → or_default (pol_TenantID p) = t.
Proof. unfold queryPublishedPolicy. case_bool_decide; [done|]. intros [Hp _]%find_first_elem. by eapply policy_versions_tenant. Qed.

Lemma queryPolicy_tenant id v p : queryPolicy t id v db = Some p → or_default (pol_TenantID p) = t.
Proof.
  unfold queryPolicy. case_bool_decide; [done|]. intros Hp. apply (policy_versions_tenant id v).
  destruct (policy_versions t id v db); [done|]. injection Hp as ->. left.
Qed.

Lemma queryEffectivePolicy_tenant a ty sel p : queryEffectivePolicy t a ty sel db = Some p → or_default (pol_TenantID p) = t.
Proof.
  unfold queryEffectivePolicy.
  pose proof (best_assignment_spec t a ty sel (queryPolicyAssignments t "" db)) as Hb. destruct (best_assignment _ _ _ _ _) as [best|].
  - destruct Hb as (_ & _ & _ & [Hm _] & _). rewrite (matches_eq t _ Ht Hm). apply queryPublishedPolicy_tenant.
  - rewrite or_default_t. destruct (queryPublishedPolicy t DefaultPolicyID 0 db) eqn:Ep; intros [= <-]; [by eapply queryPublishedPolicy_tenant|].
    cbn. rewrite bool_decide_eq_false_2 by done. apply or_default_t.
Qed.

Lemma of_tenant_key key x : of_tenant t (key, x) = true → key = t.
Proof. unfold of_tenant. rewrite bool_decide_eq_true. cbn. by rewrite or_default_t. Qed.

Lemma answers_honour env : answers db env → honours t env.
Proof.
  intros Ha. split.
  - intros id v p Hp%(an_policy db env Ha). by eapply queryPolicy_tenant.
  - intros a ty sel p Hp%(an_effective db env Ha). by eapply queryEffectivePolicy_tenant.
  - intros l p ->%(an_policies db env Ha).
    apply (selected policy_row (λ k, k.1.1) _ (λ _ _, true)); [by destruct Hdb|]. intros k a. by rewrite andb_true_r.
  - intros id l p ->%(an_audits db env Ha) Hp. apply (elem_of_select_keyed audit_row) in Hp as [[Hw _]%andb_true_iff _]; [|by destruct Hdb].
    by apply of_tenant_key in Hw.
  - intros a l p ->%(an_assignments db env Ha). by apply (selected assignment_row fst _ (λ _ x, matches a (asg_AgentID x))); [destruct Hdb|].
  - intros a l p ->%(an_responses db env Ha).
    by apply (selected response_row fst _ (λ _ x, matches a (cmd_AgentID (aud_Command x)))); [destruct Hdb|].
  - intros a ty l p ->%(an_commands db env Ha).
    apply (selected command_row fst _ (λ _ x, matches a (cc_AgentID x) && matches ty (cc_Type x))); [by destruct Hdb|].
    intros k x. by rewrite <- andb_assoc.
  - intros a l p ->%(an_sessions db env Ha). by apply (selected session_row fst _ (λ _ x, matches a (as_AgentID x))); [destruct Hdb|].
Qed.
End backend.

Section isolation.
Context `{ApiText} `{RangeOrder} `{SliceSort} (env : Env) (t : string).
Hypotheses (Ht : t ≠ "") (Henv : honours t env).

Definition owned (b : body) : Prop := Forall (λ x, or_default x = t) (shown b).

Lemma of_t x : x = t → or_default x = t.
Proof. intros ->. by apply or_default_t. Qed.

Lemma owned_nil b : shown b = [] → owned b.
Proof. unfold owned. by intros ->. Qed.

Lemma owned_error status text : owned (hs_Body (http_error status text)).
Proof. unfold http_error. destruct (errorIdentity status). constructor. Qed.

Lemma owned_saved response : owned (hs_Body response) → owned (hs_Body (saved env response)).
Proof. unfold saved. destruct (av_save env); [intros _; apply owned_error|done]. Qed.

Lemma owned_refused role r refusal : requireOperator role r = Some refusal → owned (hs_Body refusal).
Proof. unfold requireOperator. intros Hr. repeat case_match; simplify_eq; apply owned_error. Qed.

Lemma owned_list {A} (tenant : A → string) l : (∀ x, x ∈ l → or_default (tenant x) = t) → Forall (λ x, or_default x = t) (tenant <$> l).
Proof. intros Hl. apply Forall_fmap, list.Forall_forall. exact Hl. Qed.

(** *** Policies *)

Lemma wanted_tenant policyID p : wanted t policyID p = true → pol_TenantID p = t.
Proof. unfold wanted. intros [Hm _]%andb_true_iff. by apply matches_eq. Qed.

Lemma GetPolicy_tenant policyID version s p : get_policy env t policyID version s = Some p → or_default (pol_TenantID p) = t.
Proof.
  unfold get_policy, GetPolicy. destruct (bk_policy env t policyID version) eqn:E; [intros [= <-]; by eapply ho_policy|].
  intros [[?|[_ [Hw _]]] _]%pick_policy_sound; [done|]. by eapply of_t, wanted_tenant.
Qed.

Lemma publishedPolicy_tenant policyID version s p : publishedPolicy t policyID version s = Some p → pol_TenantID p = t.
Proof.
  intros [[?|[_ [Hw _]]] _]%pick_policy_sound; [done|]. apply andb_true_iff in Hw as [Hw _]. by eapply wanted_tenant.
Qed.

Lemma EffectivePolicy_tenant r s p : query_of "tenant_id" r = t → effective_policy env r s = Some p → or_default (pol_TenantID p) = t.
Proof.
  intros Hq. unfold effective_policy. rewrite Hq. generalize (query_of "agent_id" r) (query_of "scope_type" r) (query_of "scope_selector" r).
  intros agentID ty sel. unfold EffectivePolicy. destruct (bk_effective env t agentID ty sel) eqn:E; [intros [= <-]; by eapply ho_effective|].
  pose proof (best_assignment_spec t agentID ty sel (st_Assignments s)) as Hb.
  destruct (best_assignment t agentID ty sel (st_Assignments s)) as [best|].
  - destruct Hb as (_ & _ & _ & [Hm _] & _). rewrite (matches_eq t _ Ht Hm). intros Hp%publishedPolicy_tenant. by apply of_t.
  - rewrite (or_default_t t Ht). destruct (publishedPolicy t DefaultPolicyID 0 s) eqn:Ep; intros [= <-]; apply of_t; [by eapply publishedPolicy_tenant|].
    cbn. by rewrite bool_decide_eq_false_2.
Qed.

Lemma UpsertPolicy_tenant now p s : pol_TenantID p = t → pol_PolicyID p ≠ "" → pol_TenantID (UpsertPolicy now p s).1 = t.
Proof.
  intros Hp Hid. unfold UpsertPolicy. rewrite bool_decide_eq_false_2 by done. cbn [fst].
  destruct (find_first _ _); cbn; rewrite Hp; by rewrite bool_decide_eq_false_2.
Qed.

Lemma PublishPolicy_tenant now policyID version published s p s' :
  PublishPolicy now t policyID version published s = (Some p, s') → pol_TenantID p = t.
Proof.
  unfold PublishPolicy. rewrite (or_default_t t Ht). case_bool_decide; [done|]. intros [= Hp _].
  apply fmap_Some in Hp as (q & Hq & ->). apply find_first_elem in Hq as [_ Hq].
  rewrite !andb_true_iff, bool_decide_eq_true in Hq. cbn. naive_solver.
Qed.

Lemma AssignPolicy_tenant now a s a' s' : asg_TenantID a = t → AssignPolicy now a s = (Some a', s') → asg_TenantID a' = t.
Proof.
  intros Ha. unfold AssignPolicy. case_bool_decide; [done|]. cbn. rewrite Ha, (or_default_t t Ht).
  destruct (publishedPolicy _ _ _ s); [|done]. intros [= <- _]. destruct (find_first _ _); cbn; by rewrite Ha, (or_default_t t Ht).
Qed.

(** *** Commands, evidence and responses *)

Lemma CreateEvidencePullback_tenant now req s : ep_TenantID req = t → ep_TenantID (CreateEvidencePullback now req s).1 = t.
Proof.
  intros Hr. unfold CreateEvidencePullback. cbn [fst].
  destruct (find_first _ _); cbn; rewrite Hr; by rewrite bool_decide_eq_false_2.
Qed.

Lemma CreateControlCommand_tenant now cmd s : cc_TenantID cmd = t → cc_TenantID (CreateControlCommand now cmd s).1 = t.
Proof.
  intros Hc. unfold CreateControlCommand. cbn [fst].
  destruct (find_first _ _); cbn; rewrite Hc; by rewrite bool_decide_eq_false_2.
Qed.

Lemma command_listed_tenant agentID cmd : command_listed t agentID cmd = true → cc_TenantID cmd = t.
Proof. unfold command_listed. intros [Hm _]%andb_true_iff. by apply matches_eq. Qed.

Lemma ListControlCommands_tenant agentID ty s cmd : cmd ∈ ListControlCommands (bk_commands env t agentID ty) t agentID ty s → or_default (cc_TenantID cmd) = t.
Proof.
  unfold ListControlCommands. destruct (bk_commands env t agentID ty) eqn:E; [by eapply ho_commands|].
  intros [[Hl _]%andb_true_iff _]%elem_of_sort_slice%list_elem_of_filter. by eapply of_t, command_listed_tenant.
Qed.

Lemma updateControlCommand_tenant commandID agentID update s cmd s' :
  (∀ x, cc_TenantID (update x) = cc_TenantID x) →
  updateControlCommand (bk_commands env t agentID "") commandID t agentID update s = (Some cmd, s') → or_default (cc_TenantID cmd) = t.
Proof.
  intros Hu. unfold updateControlCommand. destruct (find_first _ (st_ControlCommands s)) as [x|] eqn:E.
  - intros [= <- _]. rewrite Hu. apply find_first_elem in E as [_ [_ Hx]%andb_true_iff]. by eapply of_t, command_listed_tenant.
  - destruct (find_first (is_command commandID) (ListControlCommands _ _ _ _ _)) as [x|] eqn:E2; [|by intros [=]]. intros [= <- _]. rewrite Hu.
    apply find_first_elem in E2 as [Hx _]. by eapply ListControlCommands_tenant.
Qed.

Lemma listed_tenant agentID cmd : StoreResponses.listed t agentID cmd = true → cmd_TenantID cmd = t.
Proof. unfold StoreResponses.listed. intros [Hm _]%andb_true_iff. by apply matches_eq. Qed.

Lemma CreateResponse_tenant now cmd s : cmd_TenantID cmd = t → cmd_TenantID (StoreResponses.CreateResponse now cmd s).1 = t.
Proof.
  intros Hc. unfold StoreResponses.CreateResponse. cbn [fst].
  destruct (find_first _ _); cbn; unfold blank; rewrite Hc; by rewrite bool_decide_eq_false_2.
Qed.

Lemma NormalizeCommand_tenant now cmd : cmd_TenantID cmd = t → cmd_TenantID (NormalizeCommand now cmd) = t.
Proof. intros Hc. unfold NormalizeCommand, blank. cbn. by rewrite Hc, bool_decide_eq_false_2. Qed.

Lemma tenant_denied st f cmd : cmd_TenantID (cmd <| cmd_Status := st |> <| cmd_Reason ::= f |>) = cmd_TenantID cmd.
Proof. done. Qed.

Lemma tenant_waiting st ap cmd : cmd_TenantID (cmd <| cmd_Status := st |> <| cmd_ApprovalStatus := ap |>) = cmd_TenantID cmd.
Proof. done. Qed.

(** The command of a reply is of the tenant. *)
Definition reply_owned (answer : reply) : Prop :=
  match answer with Forbidden cmd | Created cmd => cmd_TenantID cmd = t | _ => True end.

Lemma denyResponse_tenant now now2 cmd decision s :
  cmd_TenantID cmd = t → reply_owned (StoreResponses.denyResponse now now2 cmd decision s).1.
Proof.
  intros Hc. unfold StoreResponses.denyResponse.
  match goal with |- context [StoreResponses.CreateResponse now2 ?c s] =>
    pose proof (CreateResponse_tenant now2 c s) as Hs; destruct (StoreResponses.CreateResponse now2 c s) as [c' s'] end.
  apply Hs. rewrite tenant_denied. by apply NormalizeCommand_tenant.
Qed.

Lemma createResponse_tenant now now2 health eff eff2 cmd s :
  cmd_TenantID cmd = t → reply_owned (StoreResponses.createResponse now now2 health eff eff2 cmd s).1.
Proof.
  intros Hc. unfold StoreResponses.createResponse. case_bool_decide; [done|].
  destruct (StoreResponses.check_scope _ _) as [c d] eqn:Es.
  assert (cmd_TenantID c = t) as Hct.
  { unfold StoreResponses.check_scope in Es. destruct (GetAgentHealth _ _ _ _); injection Es as <- _; cbn; by rewrite Hc, (or_default_t t Ht). }
  destruct (negb (vd_Allowed d)); [by apply denyResponse_tenant|]. cbn zeta.
  match goal with |- context [ValidateCommandWithPolicy ?c' ?p] => assert (cmd_TenantID c' = t) as Hc'; [|set (cmd' := c') in *; set (pol := p) in *] end.
  { rewrite (proj1 (proj1 (ApplyPolicyRequirements_spec _ _))).
    repeat (case_bool_decide; rewrite ?(proj1 (set_policy_target _ _))); done. }
  destruct (negb _); [by apply denyResponse_tenant|].
  match goal with |- context [StoreResponses.CreateResponse now2 ?c s] =>
    pose proof (CreateResponse_tenant now2 c s) as Hs; destruct (StoreResponses.CreateResponse now2 c s) as [c'' s''] end.
  apply Hs. destruct (cmd_ApprovalRequired cmd'); [|done].
  rewrite tenant_waiting. by apply NormalizeCommand_tenant.
Qed.

Lemma responseDecisions_tenant now now2 health eff eff2 req actor s :
  dr_TenantID req = t → reply_owned (StoreResponses.responseDecisions now now2 health eff eff2 req actor s).1.
Proof.
  intros Hr. unfold StoreResponses.responseDecisions. do 2 (case_bool_decide; [done|]).
  destruct (GetSignal _ _); [|done]. destruct (EventModel.sig_ResponseIntent _); [|done]. case_bool_decide; [done|].
  by apply createResponse_tenant.
Qed.

Lemma decide_approval_tenant now approved actor role reason cmd :
  cmd_TenantID (StoreResponses.decide_approval now approved actor role reason cmd) = cmd_TenantID cmd.
Proof. unfold StoreResponses.decide_approval. by repeat case_match. Qed.

Lemma responseApprovals_tenant now agentID responseID approved actor role reason s :
  reply_owned (StoreResponses.responseApprovals now t agentID responseID approved actor role reason s).1.
Proof.
  unfold StoreResponses.responseApprovals, StoreResponses.ApproveResponse. rewrite (or_default_t t Ht). case_bool_decide; [done|].
  destruct (find_first _ _) as [cmd|] eqn:E; [|done]. destruct (negb _); [done|]. cbn. rewrite decide_approval_tenant.
  apply find_first_elem in E as [_ [_ Hl]%andb_true_iff]. by eapply listed_tenant.
Qed.

Lemma response_reply_owned res : reply_owned res.1 → owned (hs_Body (response_reply env res).1).
Proof.
  destruct res as [[e|e|cmd|cmd] s]; cbn [response_reply fst reply_owned]; intros Hr; [apply owned_error..| |];
    apply owned_saved; repeat constructor; by apply of_t.
Qed.

Lemma respond_owned {A} role what (decode : string → result A) post r s :
  (∀ req, decode (hq_Body r) = Ok req → reply_owned (post req).1) → owned (hs_Body (respond env role what decode post r s).1).
Proof.
  intros Hp. unfold respond. destruct (requireOperator role r) eqn:E; [by eapply owned_refused|].
  destruct (decode (hq_Body r)); [by apply response_reply_owned, Hp|apply owned_error].
Qed.

(** *** The handlers *)

Definition isolated (handler : Request → Store → ManagerApi.Response * Store) : Prop :=
  ∀ r s, query_of "tenant_id" r = t → (hq_Method r = "POST" → bound_body t (hq_Body r)) → owned (hs_Body (handler r s).1).

Lemma matches_tenant {A} (tenant : A → string) x other : matches t (tenant x) && other = true → tenant x = t.
Proof. intros [Hm _]%andb_true_iff. by apply matches_eq. Qed.

Lemma ListPolicies_tenant s p : p ∈ ListPolicies (bk_policies env t) t s → or_default (pol_TenantID p) = t.
Proof.
  unfold ListPolicies. destruct (bk_policies env t) eqn:E; [by eapply ho_policies|].
  intros [Hl _]%elem_of_sort_slice%list_elem_of_filter. by apply of_t, matches_eq.
Qed.

Lemma ListPolicyAudits_tenant policyID s p : p ∈ ListPolicyAudits (bk_audits env t policyID) t policyID s → or_default (pa_TenantID p) = t.
Proof.
  unfold ListPolicyAudits. destruct (bk_audits env t policyID) eqn:E; [by eapply ho_audits|].
  intros [Hl _]%elem_of_sort_slice%list_elem_of_filter. by eapply of_t, matches_tenant.
Qed.

Lemma ListAssignments_tenant agentID s a : a ∈ ListAssignments (bk_assignments env t agentID) t agentID s → or_default (asg_TenantID a) = t.
Proof.
  unfold ListAssignments. destruct (bk_assignments env t agentID) eqn:E; [by eapply ho_assignments|].
  intros [Hl _]%elem_of_sort_slice%list_elem_of_filter. by eapply of_t, matches_tenant.
Qed.

Lemma ListAgentSessions_tenant agentID s x : x ∈ ListAgentSessions (bk_sessions env t agentID) t agentID s → or_default (as_TenantID x) = t.
Proof.
  unfold ListAgentSessions. destruct (bk_sessions env t agentID) eqn:E; [by eapply ho_sessions|].
  intros [Hl _]%elem_of_sort_slice%list_elem_of_filter. by eapply of_t, matches_tenant.
Qed.

Lemma ListResponses_tenant agentID s x : x ∈ ListResponses (bk_responses env t agentID) t agentID s → or_default (cmd_TenantID (aud_Command x)) = t.
Proof.
  unfold ListResponses. destruct (bk_responses env t agentID) eqn:E; [by eapply ho_responses|].
  intros (cmd & -> & [Hl _]%list_elem_of_filter)%elem_of_sort_slice%list_elem_of_fmap. by eapply of_t, listed_tenant.
Qed.

Lemma PendingResponses_tenant agentID s cmd : cmd ∈ PendingResponses t agentID s → or_default (cmd_TenantID cmd) = t.
Proof.
  unfold PendingResponses. intros [Hl _]%elem_of_sort_slice%list_elem_of_filter.
  rewrite !andb_true_iff in Hl. by eapply of_t, listed_tenant, Hl.
Qed.

Lemma ListEvidencePullbacks_tenant agentID s req : req ∈ ListEvidencePullbacks t agentID s → or_default (ep_TenantID req) = t.
Proof. intros [Hl _]%elem_of_sort_slice%list_elem_of_filter. by eapply of_t, matches_tenant. Qed.

(** Refusals and errors show nothing. *)
Local Ltac past_errors :=
  repeat match goal with
  | |- owned (hs_Body (http_error _ _, _).1) => apply owned_error
  | |- owned (hs_Body (method_not_allowed, _).1) => apply owned_error
  | E : requireOperator _ _ = Some ?refusal |- owned (hs_Body (?refusal, _).1) => exact (owned_refused _ _ _ E)
  | |- owned (hs_Body (saved _ _, _).1) => apply owned_saved
  end.

Lemma policies_isolated : isolated (policies env).
Proof.
  intros r s Hq Hb. unfold policies. rewrite Hq. case_bool_decide.
  - destruct (negb _); [|by apply owned_list, ListPolicies_tenant].
    destruct (get_policy _ _ _ _ _) eqn:E; past_errors. constructor; [by eapply GetPolicy_tenant|constructor].
  - case_bool_decide; past_errors. destruct (requireOperator _ r) eqn:Er; past_errors.
    destruct (decode_policy (hq_Body r)) as [p|] eqn:Ed; past_errors. case_bool_decide; past_errors.
    pose proof (UpsertPolicy_tenant (av_now env) p s (bb_policy _ _ (Hb ltac:(done)) p Ed) ltac:(done)) as Hp.
    destruct (UpsertPolicy _ p s). past_errors. repeat constructor; by apply of_t.
Qed.

Lemma policyPublish_isolated : isolated (policyPublish env).
Proof.
  intros r s Hq Hb. unfold policyPublish. case_bool_decide; cbn [negb]; past_errors.
  destruct (requireOperator _ r) eqn:Er; past_errors. destruct (decode_publish (hq_Body r)) as [req|] eqn:Ed; past_errors.
  case_bool_decide; past_errors. rewrite (bb_publish _ _ (Hb ltac:(done)) req Ed).
  destruct (PublishPolicy _ _ _ _ _ s) as [[p|] s'] eqn:Ep; past_errors.
  constructor; [by eapply of_t, PublishPolicy_tenant|constructor].
Qed.

Lemma policyAudit_isolated : isolated (policyAudit env).
Proof.
  intros r s Hq Hb. unfold policyAudit. rewrite Hq. case_bool_decide; cbn [negb]; past_errors.
  by apply owned_list, ListPolicyAudits_tenant.
Qed.

Lemma policyDownlinkCommand_tenant r a req s cmd :
  policyDownlinkCommand env r a req s = Ok cmd → cc_TenantID cmd = asg_TenantID a.
Proof. unfold policyDownlinkCommand. intros Hc. repeat case_match; by simplify_eq. Qed.

Lemma policyAssignments_isolated : isolated (policyAssignments env).
Proof.
  intros r s Hq Hb. unfold policyAssignments. rewrite Hq. case_bool_decide; [by apply owned_list, ListAssignments_tenant|].
  case_bool_decide; past_errors. destruct (requireOperator _ r) eqn:Er; past_errors.
  destruct (decode_assignment (hq_Body r)) as [req|] eqn:Ed; past_errors.
  destruct (if par_Downlink req then _ else None) as [refusal|] eqn:Ec.
  { by destruct (par_Downlink req). }
  destruct (AssignPolicy _ _ s) as [[a|] s'] eqn:Ea; past_errors.
  apply AssignPolicy_tenant in Ea; [|by eapply bb_assignment; [apply Hb|]].
  destruct (par_Downlink req); past_errors; [|by apply list.Forall_singleton, of_t].
  destruct (policyDownlinkCommand _ _ _ _ _) as [cmd|] eqn:Ew; past_errors. apply policyDownlinkCommand_tenant in Ew.
  match goal with |- context [CreateControlCommand ?n cmd ?s] => pose proof (CreateControlCommand_tenant n cmd s ltac:(congruence)) as Hc;
    destruct (CreateControlCommand n cmd s) end.
  past_errors. repeat constructor; by apply of_t.
Qed.

Lemma effectivePolicy_isolated : isolated (effectivePolicy env).
Proof.
  intros r s Hq Hb. unfold effectivePolicy. case_bool_decide; cbn [negb]; past_errors.
  destruct (effective_policy _ r s) eqn:E; past_errors. constructor; [by eapply EffectivePolicy_tenant|constructor].
Qed.

Lemma evidencePullbacks_isolated : isolated (evidencePullbacks env).
Proof.
  intros r s Hq Hb. unfold evidencePullbacks. rewrite Hq. case_bool_decide; [by apply owned_list, ListEvidencePullbacks_tenant|].
  case_bool_decide; past_errors. destruct (requireOperator _ r) eqn:Er; past_errors.
  destruct (decode_evidence (hq_Body r)) as [req|] eqn:Ed; past_errors. case_bool_decide; past_errors.
  match goal with |- context [CreateEvidencePullback ?n ?x s] => pose proof (CreateEvidencePullback_tenant n x s (bb_evidence _ _ (Hb ltac:(done)) req Ed)) as Hc;
    destruct (CreateEvidencePullback n x s) end.
  past_errors. repeat constructor; by apply of_t.
Qed.

Lemma cancel_tenant now actor reason x : cc_TenantID (cancel now actor reason x) = cc_TenantID x.
Proof. unfold cancel. by case_match. Qed.
Lemma retry_tenant now actor reason x : cc_TenantID (retry now actor reason x) = cc_TenantID x.
Proof. unfold retry. by case_match. Qed.
Lemma expire_tenant now reason x : cc_TenantID (expire now reason x) = cc_TenantID x.
Proof. unfold expire. by case_match. Qed.

Lemma controlCommandAction_owned r req s : ccr_TenantID req = t → owned (hs_Body (controlCommandAction env r req s).1).
Proof.
  intros Hr. unfold controlCommandAction. rewrite Hr, (or_default_t t Ht). case_bool_decide; past_errors.
  unfold CancelControlCommand, RetryControlCommand, ExpireControlCommand. rewrite !(bool_decide_eq_false_2 (TrimSpace (ccr_CommandID req) = "")) by done.
  repeat case_bool_decide; past_errors;
    (destruct (updateControlCommand _ _ _ _ _ s) as [[cmd|] s'] eqn:E; past_errors; constructor; [|constructor]);
    eapply updateControlCommand_tenant in E; try done; intros x;
    [apply cancel_tenant|apply retry_tenant|apply expire_tenant].
Qed.

Lemma controlCommandFromRequest_tenant r req s cmd :
  ccr_TenantID req = t → controlCommandFromRequest env r req s = Ok cmd → cc_TenantID cmd = t.
Proof.
  intros Hr. unfold controlCommandFromRequest. rewrite Hr, (or_default_t t Ht). do 2 (case_bool_decide; [done|]).
  case_bool_decide.
  - destruct (policy_update_payload env t req s); [|done]. cbn. by intros [= <-].
  - case_bool_decide; [|done]. case_bool_decide; [done|]. destruct (content_metadata _) as [[? ?] ?]. by intros [= <-].
Qed.

Lemma controlCommands_isolated : isolated (controlCommands env).
Proof.
  intros r s Hq Hb. unfold controlCommands. rewrite Hq. case_bool_decide; [by apply owned_list, ListControlCommands_tenant|].
  case_bool_decide; past_errors. destruct (requireOperator _ r) eqn:Er; past_errors.
  destruct (decode_control (hq_Body r)) as [req|] eqn:Ed; past_errors.
  pose proof (bb_control _ _ (Hb ltac:(done)) req Ed) as Hr.
  destruct (negb _); [by apply controlCommandAction_owned|].
  destruct (controlCommandFromRequest env r req s) as [cmd|] eqn:Ec; past_errors.
  apply controlCommandFromRequest_tenant in Ec; [|done]. pose proof (CreateControlCommand_tenant (av_now env) cmd s Ec) as Hc.
  destruct (CreateControlCommand _ cmd s). past_errors. repeat constructor; by apply of_t.
Qed.

Lemma responses_isolated : isolated (responses env).
Proof.
  intros r s Hq Hb. unfold responses. rewrite Hq. case_bool_decide.
  - case_bool_decide; [by apply owned_list, PendingResponses_tenant|]. apply owned_list, ListResponses_tenant.
  - case_bool_decide; past_errors. apply respond_owned. intros cmd Hd. apply createResponse_tenant.
    by apply (bb_response _ _ (Hb ltac:(done)) cmd Hd).
Qed.

Lemma responseDecisions_isolated : isolated (responseDecisions env).
Proof.
  intros r s Hq Hb. unfold responseDecisions. case_bool_decide; cbn [negb]; past_errors.
  apply respond_owned. intros req Hd. by apply responseDecisions_tenant, (bb_decision _ _ (Hb ltac:(done))).
Qed.

Lemma responseApprovals_isolated : isolated (responseApprovals env).
Proof.
  intros r s Hq Hb. unfold responseApprovals. case_bool_decide; cbn [negb]; past_errors.
  match goal with |- context [respond env ?a ?b ?c ?d r s] => assert (owned (hs_Body (respond env a b c d r s).1)) as Ho end.
  { apply respond_owned. intros req Hd. rewrite (bb_approval _ _ (Hb ltac:(done)) req Hd). apply responseApprovals_tenant. }
  destruct (respond _ _ _ _ _ r s) as [response s']. cbn [fst] in *. by destruct (hs_Body response) eqn:E; cbn; rewrite ?E.
Qed.

(** An acknowledgement answers with the status alone. *)
Lemma responseAcks_isolated : isolated (responseAcks env).
Proof.
  intros r s Hq Hb. unfold responseAcks. case_bool_decide; cbn [negb]; past_errors.
  unfold respond. destruct (requireOperator _ r) eqn:Er.
  { destruct (hs_Status _ =? 200)%Z; [by apply owned_nil|by eapply owned_refused]. }
  destruct (decode_ack (hq_Body r)) as [ack|]; [|by apply owned_nil].
  unfold StoreResponses.responseAcks. case_bool_decide; [by apply owned_nil|].
  destruct (StoreResponses.AckResponse _ ack s) as [[cmd|] s']; [|by apply owned_nil].
  cbn [response_reply]. unfold saved. destruct (av_save env); by apply owned_nil.
Qed.

Lemma agents_isolated : isolated (agents env).
Proof.
  intros r s Hq Hb. unfold agents. rewrite Hq. apply owned_list. intros item [_ Hin]%list_elem_of_filter.
  apply list_elem_of_fmap in Hin as (agent & -> & [Hm _]%list_elem_of_filter). apply matches_eq in Hm; [|done].
  apply of_t. unfold agent_item. by case_match.
Qed.

Lemma agentSessions_isolated : isolated (agentSessions env).
Proof.
  intros r s Hq Hb. unfold agentSessions. rewrite Hq. case_bool_decide; cbn [negb]; past_errors.
  by apply owned_list, ListAgentSessions_tenant.
Qed.

Lemma dataResume_isolated : isolated (dataResume env).
Proof.
  intros r s Hq Hb. unfold dataResume. rewrite Hq, (or_default_t t Ht). case_bool_decide; cbn [negb]; past_errors.
  case_bool_decide; past_errors. unfold resumeCursor. case_match; repeat constructor; by apply of_t.
Qed.

Lemma route_isolated path handler :
  path ∉ ["/api/v1/agent-health"; "/api/v1/recompute"] → route env path = Some handler → isolated handler.
Proof.
  intros Hne ([entry handler'] & Hin & [= ->])%fmap_Some. apply find_first_elem in Hin as [Hin Hp].
  apply bool_decide_eq_true in Hp. cbn in Hp. subst entry.
  repeat (apply elem_of_cons in Hin as [[= -> ->]|Hin]);
    [|by destruct Hne; set_solver| |apply policies_isolated|apply policyPublish_isolated|apply policyAudit_isolated
    |apply policyAssignments_isolated|apply effectivePolicy_isolated|apply responses_isolated|apply responseDecisions_isolated
    |apply responseApprovals_isolated|apply responseAcks_isolated|apply dataResume_isolated|apply evidencePullbacks_isolated
    |apply controlCommands_isolated|apply agents_isolated|by destruct Hne; set_solver|apply agentSessions_isolated| |by apply elem_of_nil in Hin].
  all: intros r s Hq Hb.
  - unfold reset. case_bool_decide; cbn [negb]; past_errors. destruct (requireOperator _ r) eqn:Er; past_errors.
    destruct (av_save env); past_errors. by apply owned_nil.
  - unfold rules. case_bool_decide; cbn [negb]; past_errors. by apply owned_nil.
  - by apply owned_nil.
Qed.
End isolation.

Section isolation_theorem.
Context `{ApiLaws} `{RangeOrder} `{SliceSort}.

(** An object in the body of a request that passes the binding is of the tenant. *)
Lemma bindJSONTenant_bound t r r' object :
  preserved t → Contains (hq_ContentType r) "application/json" = true → parse_object (hq_Body r) = Some (Some object) →
  bindJSONTenant t r = Some (inr r') → bound_body t (hq_Body r').
Proof.
  intros Ht Hc Ho. unfold bindJSONTenant. rewrite Hc, Ho. cbn [negb]. case_match; [done|].
  case_bool_decide as Hb; [by rewrite (parse_blank _ Hb) in Ho|]. case_match; [done|].
  destruct (marshal_object _) as [bound|] eqn:Em; [|done]. intros [= <-]. by eapply marshalled_bound.
Qed.

(** What posts an object posts one that can be bound. *)
Definition binds_body (r : Request) : Prop :=
  hq_Method r = "POST" → Contains (hq_ContentType r) "application/json" = true ∧ ∃ object, parse_object (hq_Body r) = Some (Some object).

Section bound.
Context `{EnrollText} `{X509} (su : Surroundings) (principal : Principal).
Notation t := (pr_TenantID principal).
Hypotheses (Ht : t ≠ "") (Hpre : preserved t) (Henv : honours t (su_env su)).

(** The routes of open paths hold no handler of the API. *)
Lemma route_open path : is_open path = true → route (su_env su) path = None.
Proof.
  unfold is_open, isEnrollmentTokenEndpoint. rewrite orb_true_iff, !bool_decide_eq_true.
  intros [->|Hp]; [done|]. repeat (apply elem_of_cons in Hp as [->|Hp]; [done|]). by apply elem_of_nil in Hp.
Qed.

Lemma deployment_not_api handler r y response y' : deployment handler r y ≠ Served (Api response) y'.
Proof. unfold deployment. by destruct (handler r y.1). Qed.

Lemma mux_owned r y response y' :
  hq_Path r ∉ ["/api/v1/agent-health"; "/api/v1/recompute"] →
  (is_open (hq_Path r) = false → query_of "tenant_id" r = t ∧ (hq_Method r = "POST" → bound_body t (hq_Body r))) →
  mux su r y = Served (Api response) y' → owned t (hs_Body response).
Proof.
  intros Hpath Hb. unfold mux. destruct (negb _); [done|]. destruct (route (su_env su) (hq_Path r)) as [handler|] eqn:Er.
  - destruct (is_open (hq_Path r)) eqn:Eo; [by rewrite (route_open _ Eo) in Er|]. destruct (Hb eq_refl) as [Hq Hbody].
    pose proof (route_isolated (su_env su) t Ht Henv _ _ Hpath Er r y.1 Hq Hbody) as Ho. unfold api. destruct (handler r y.1). by intros [= <- _].
  - unfold upload. destruct (ManagerEnrollment.artifacts _ _ _ _ _ _ _) as [[reply s] disk].
    repeat (match goal with |- (if ?b then _ else _) = _ → _ => destruct b end; [first [by intros ?%deployment_not_api|by intros [=]]|]). done.
Qed.

Lemma Handler_owned r y response y' :
  hq_Path r ∉ ["/api/v1/agent-health"; "/api/v1/recompute"] →
  (is_open (hq_Path r) = false → query_of "tenant_id" r = t ∧ (hq_Method r = "POST" → bound_body t (hq_Body r))) →
  Handler su r y = Served (Api response) y' → owned t (hs_Body response).
Proof.
  intros Hpath Hb. unfold Handler, requireProductionPrincipal. destruct (is_open (hq_Path r)) eqn:Eo.
  - apply mux_owned; [done|]. by rewrite Eo.
  - destruct (hq_Principal r); [apply mux_owned; [done|by rewrite Eo]|]. intros [= <- _]. by apply owned_nil.
Qed.

Lemma bindPrincipalTenant_owned r y response y' :
  hq_Principal r = Some principal → hq_Path r ∉ ["/api/v1/agent-health"; "/api/v1/recompute"] → binds_body r →
  bindPrincipalTenant (Handler su) r y = Served (Api response) y' → owned t (hs_Body response).
Proof.
  intros Hp Hpath Hb. unfold bindPrincipalTenant. destruct (is_open (hq_Path r)) eqn:Eo.
  { apply Handler_owned; [done|]. by rewrite Eo. }
  rewrite Hp. destruct (negb _ && negb _); [intros [= <- _]; by apply owned_nil|].
  destruct (bindJSONTenant _ _) as [[refusal|r']|] eqn:Eb; [| |done].
  - intros [= <- _]. apply owned_nil. unfold bindJSONTenant in Eb. by repeat case_match; simplify_eq.
  - pose proof (bindJSONTenant_same _ _ _ Eb) as (Hm & Hp' & _ & Hq). cbn in Hm, Hp', Hq.
    apply Handler_owned; [by rewrite Hp'|]. intros _. split.
    + unfold query_of. rewrite Hq. apply get_set_query.
    + rewrite Hm. intros Hpost. destruct (Hb Hpost) as (Hc & object & Ho). by refine (bindJSONTenant_bound _ _ _ object Hpre _ _ Eb).
Qed.
End bound.

(** C6. Tenants are kept apart: a request with a verified token, whose tenant
    is text that JSON preserves, and whose body (when it posts one) is
    declared as JSON and is an object, is answered with
    records of the tenant of the token and no other, whatever tenant the
    query and the body name and whatever the store and the database hold:
    policies, audits, assignments, the effective policy, responses and
    pending responses, evidence requests, commands, agents, sessions, and
    what a POST created or changed.  The database was written by any sequence
    of the backend's writes, by any process, and each of its answers is what
    it holds or a failure, after which the memory answers; a record without a
    tenant belongs to the tenant default.  The routes are those of the API
    for these records: the listing of health records and the analysis on
    demand, which look at all tenants, are left out, and so are the replies
    for enrolments and artifacts. *)
Theorem tenant_isolation `{Postgresql} `{EnrollText} `{X509} db su verify r y raw principal response y' :
  bearer r = Some raw → Verify verify raw = Ok principal → preserved (pr_TenantID principal) →
  written db → answers db (su_env su) →
  hq_Path r ∉ ["/api/v1/agent-health"; "/api/v1/recompute"] → binds_body r →
  HandlerWithAuth su verify r y = Served (Api response) y' →
  ∀ tenant, tenant ∈ shown (hs_Body response) → or_default tenant = pr_TenantID principal.
Proof.
  intros Hraw Hv Hpre Hw%written_keyed Ha Hpath Hbody Hs. destruct (Verify_named _ _ _ Hv) as [_ Ht].
  pose proof (answers_honour db _ Ht Hw _ Ha) as Henv.
  enough (owned (pr_TenantID principal) (hs_Body response)) as Ho by (intros x Hx; exact (proj1 (list.Forall_forall _ _) Ho x Hx)).
  unfold HandlerWithAuth in Hs. destruct (isEnrollmentTokenEndpoint (hq_Path r)) eqn:Ee.
  { eapply Handler_owned in Hs; [done..|]. unfold is_open. by rewrite Ee, orb_true_r. }
  unfold Middleware in Hs. case_bool_decide as Hz.
  { unfold bindPrincipalTenant, is_open in Hs. rewrite bool_decide_eq_true_2 in Hs by done.
    eapply Handler_owned in Hs; [done..|]. unfold is_open. by rewrite bool_decide_eq_true_2. }
  rewrite Hraw, Hv in Hs. by eapply bindPrincipalTenant_owned in Hs.
Qed.
End isolation_theorem.

(** ** An instance

    A text TENANT|ID stands for an object with these two fields; what follows
    a line feed is data after the object. *)

Definition line_feed : Ascii.ascii := Ascii.ascii_of_nat 10.
Definition demo_first (text : string) : string := let '(before, _, ok) := Cut text line_feed in if ok then before else text.
Definition demo_fields (raw : string) : option (string * string) :=
  let '(tenant, rest, ok) := Cut raw "|"%char in if ok then Some (tenant, demo_first rest) else None.
Definition demo_decode {A} (make : string → string → A) (raw : string) : result A :=
  match demo_fields raw with Some (tenant, id) => Ok (make tenant id) | None => Err "unexpected end of JSON input" end.

Definition demo_policy (tenant id : string) : PolicyDoc :=
  zero_policy <| pol_TenantID := tenant |> <| pol_PolicyID := id |>.
Definition demo_response_command (tenant id : string) : Command :=
  MkCommand id tenant "agent-1" "" 0 "" ∅ (MkScope "" "") "collect" "" "" "" "" "" false "" 0 [] [] "" zero_time zero_time zero_time.

Local Instance demo_unicode : Unicode := {| print_rune := λ _, false |}.

Definition demo_text : ApiText := {|
  json_any := string;
  parse_object raw :=
    if bool_decide (TrimSpace raw = "") then None
    else if bool_decide (raw = "null") then Some None
    else if (Cut raw line_feed).2 then None
    else (λ '(tenant, id), Some (<["tenant_id" := tenant]> {[ "id" := id ]})) <$> demo_fields raw;
  any_string := Some;
  string_any := id;
  marshal_object object := Ok (default "" (object !! "tenant_id") +:+ "|" +:+ default "" (object !! "id"));
  decode_policy := demo_decode demo_policy;
  decode_publish := demo_decode (λ tenant id, MkPolicyPublishRequest tenant id 0 true "" "");
  decode_assignment := demo_decode (λ tenant id, MkPolicyAssignmentRequest (MkAssignment "" tenant "" (Policy.MkScopeSelector "" "") id 0 zero_time zero_time) "" "" false "");
  decode_response := demo_decode demo_response_command;
  decode_decision := demo_decode (λ tenant id, StoreResponses.MkResponseDecisionRequest id tenant "agent-1" (MkScope "" "") "");
  decode_approval := demo_decode (λ tenant id, MkResponseApprovalRequest id tenant "" true "" "" "");
  decode_ack := demo_decode (λ tenant id, MkAck id tenant "agent-1" true false false true "" zero_time);
  decode_evidence := demo_decode (λ tenant id, ManagerApi.MkEvidencePullbackRequest id tenant "agent-1" "" ∅ "" "" "");
  decode_control := demo_decode (λ tenant id, MkControlCommandRequest "" id tenant "agent-1" "policy_update" "" 0 "" "" "" "{}" "" "");
  decode_health := λ _, Err "unsupported";
  marshal_endpoint := λ _, Ok "{}";
  policy_metadata := λ _, ("", 0%Z);
  content_metadata := λ _, ("", "", "")
|}.
Local Existing Instance demo_text.
Local Existing Instance elements_order.
Local Existing Instance insertion_SliceSort.

Lemma Cut_bar tenant rest : (Cut tenant "|"%char).2 = false → Cut (tenant +:+ "|" +:+ rest) "|"%char = (tenant, rest, true).
Proof.
  induction tenant as [|c tenant IH]; [done|]. cbn [Cut]. change (String c tenant +:+ ("|" +:+ rest)) with (String c (tenant +:+ ("|" +:+ rest))). cbn [Cut].
  destruct (Ascii.eqb c "|"); [done|]. intros Hc. rewrite IH; [done|]. by destruct (Cut tenant "|"%char) as [[? ?] []].
Qed.

Lemma demo_binds {A} (make : string → string → A) (tenant : A → string) :
  (∀ t id, tenant (make t id) = t) → binds (λ t, (Cut t "|"%char).2 = false) (demo_decode make) tenant.
Proof.
  intros Hm t object bound a Ht [= <-]. unfold demo_decode, demo_fields. rewrite lookup_insert_eq. cbn [default].
  unfold string_any, demo_text, id. rewrite Cut_bar by done. intros [= <-]. apply Hm.
Qed.

Local Instance demo_laws : ApiLaws.
Proof.
  refine {| preserved t := (Cut t "|"%char).2 = false |}; try by apply demo_binds.
  intros raw Hr. cbn. by rewrite bool_decide_eq_true_2.
Defined.

(** Enrolments are not part of these requests. *)
Local Instance demo_no_enrollment : ManagerEnrollment.EnrollText := {|
  ManagerEnrollment.decode_enrollment := λ _, Err "unsupported";
  ManagerEnrollment.decode_channel := λ _, Err "unsupported";
  ManagerEnrollment.decode_certificate := λ _, Err "unsupported";
  ManagerEnrollment.decode_feed := λ _, Err "unsupported";
  ManagerEnrollment.decode_manifest := λ _, Err "unsupported";
  ManagerEnrollment.tar_entries := λ _, Err "unsupported";
  ManagerEnrollment.verify_manifest := λ _ _ _, None;
  ManagerEnrollment.duration_error := id
|}.
Local Instance demo_no_x509 : ManagerEnrollment.X509 := {|
  ManagerEnrollment.csr := unit;
  ManagerEnrollment.pem_decode := λ _, None;
  ManagerEnrollment.pem_encode := λ _ _, "";
  ManagerEnrollment.parse_request := λ _, Err "unsupported";
  ManagerEnrollment.check_signature := λ _, None;
  ManagerEnrollment.csr_key := λ _, [];
  ManagerEnrollment.parse_uri := λ _, Err "unsupported";
  ManagerEnrollment.create_certificate := λ _ _, Err "unsupported";
  ManagerEnrollment.parse_certificate := λ _, Err "unsupported";
  ManagerEnrollment.parse_url := λ _, None
|}.
Local Instance demo_postgresql : Postgresql := {| text_ltb := string_ltb; column_time := id |}.

Definition demo_world : World :=
  ManagerEnrollment.MkWorld "/artifacts" "" false "" "/" "manager" true (λ _, "") (λ _ token, token) 1%Z 1%Z 1%Z 1%Z "stamp"
    (Err "unsupported") (Err "unsupported") (Err "unsupported") None None (λ _, None) (λ _ _ _ _, None) (λ _ _ _ _, None) None None None None.
Definition demo_form : ManagerEnrollment.Form := ManagerEnrollment.MkForm (Some "unsupported") (λ _, "") (Err "unsupported").

(** A database that cannot be reached, and one that answers *)
Definition demo_down : Env :=
  MkEnv 1%Z 2%Z None (λ _ _ _, None) (λ _ _ _ _, None) None None (λ _, None) (λ _ _, None) (λ _ _, None) (λ _ _, None) (λ _ _ _, None)
    None (λ _ _, None) None (λ _ _, None) None.
Definition demo_up (db : Database) : Env :=
  MkEnv 1%Z 2%Z None (λ t id v, queryPolicy t id v db) (λ t a ty sel, queryEffectivePolicy t a ty sel db) None None
    (λ t, Some (queryPolicies t db)) (λ t id, Some (queryPolicyAudits t id db)) (λ t a, Some (queryPolicyAssignments t a db))
    (λ t a, Some (queryResponses t a db)) (λ t a ty, Some (queryControlCommands t a ty db)) None (λ _ _, None) None
    (λ t a, Some (queryAgentSessions t a db)) None.
Definition demo_surroundings (env : Env) : Surroundings := MkSurroundings env demo_world None "" demo_form.

Lemma demo_up_answers db : answers db (demo_up db).
Proof. split; cbn; congruence. Qed.

Definition demo_verify (raw : string) : result Claims :=
  if bool_decide (raw = "token") then Ok (MkClaims "alice" "acme" ["admin"])
  else if bool_decide (raw = "visitor") then Ok (MkClaims "victor" "acme" ["viewer"]) else Err "token is malformed".
Definition demo_principal : Principal := MkPrincipal "alice" "acme" ["admin"].

Definition demo_request (method path contentType text : string) : Request :=
  MkRequest method path [] "Bearer token" contentType text None.

Definition demo_serve (method path contentType text : string) (s : Store) : outcome :=
  HandlerWithAuth (demo_surroundings demo_down) demo_verify (demo_request method path contentType text) (s, ∅).

Definition served (o : outcome) : ManagerApi.Response :=
  match o with Served (Api response) _ => response | _ => method_not_allowed end.
Definition left_over (o : outcome) : Store := from_option fst Open (state_after o).

(** An admin of acme posts a policy: the store changes. *)
Definition demo_posted : State :=
  Eval vm_compute in default (Open, ∅) (state_after (demo_serve "POST" "/api/v1/policies" "application/json" "|pol-1" Open)).

Lemma writes_authorized_witness :
  let r := demo_request "POST" "/api/v1/policies" "application/json" "|pol-1" in
  let su := demo_surroundings demo_down in
  length (st_Policies demo_posted.1) = 1 ∧
  (demo_posted = (Open, ∅) ∨
   (∃ raw principal, bearer r = Some raw ∧ Verify demo_verify raw = Ok principal ∧ pr_Subject principal ≠ "" ∧ pr_TenantID principal ≠ "" ∧
      (hq_Method r = "POST" ∧ HasRole (required_role (hq_Path r)) principal = true ∨
       hq_Path r = "/api/v1/recompute" ∧ unanswered (su_env su) (pr_TenantID principal) ∧ demo_posted.2 = ∅ ∧ reparametrised Open demo_posted.1)) ∨
   (demo_posted.2 = ∅ ∧ (hq_Path r = "/api/v1/agent-install.sh" ∧ redeems (su_world su) r Open demo_posted.1 ∨
      hq_Path r = "/api/v1/enrollment-certificate" ∧ issues (su_world su) r Open demo_posted.1))).
Proof.
  split; [vm_compute; reflexivity|].
  apply (writes_authorized (demo_surroundings demo_down) demo_verify (demo_request "POST" "/api/v1/policies" "application/json" "|pol-1")
    (Open, ∅) demo_posted).
  - reflexivity.
  - vm_compute. reflexivity.
Defined.

(** A database with policies of two tenants *)
Definition demo_shared : Database :=
  upsertPolicy 2%Z ((demo_policy "rival" "pol-1") <| pol_Version := 1%Z |>) (upsertPolicy 1%Z ((demo_policy "acme" "pol-1") <| pol_Version := 1%Z |>) PostgresSchema).
Definition demo_listing : ManagerApi.Response :=
  Eval vm_compute in served (HandlerWithAuth (demo_surroundings (demo_up demo_shared)) demo_verify (demo_request "GET" "/api/v1/policies" "" "") (Open, ∅)).

Lemma tenant_isolation_witness :
  shown (hs_Body demo_listing) = ["acme"] ∧ ∀ tenant, tenant ∈ shown (hs_Body demo_listing) → or_default tenant = "acme".
Proof.
  split; [vm_compute; reflexivity|].
  apply (tenant_isolation demo_shared (demo_surroundings (demo_up demo_shared)) demo_verify (demo_request "GET" "/api/v1/policies" "" "")
    (Open, ∅) "token" demo_principal demo_listing (Open, ∅)).
  - vm_compute. reflexivity.
  - vm_compute. reflexivity.
  - vm_compute. reflexivity.
  - repeat constructor.
  - exact (demo_up_answers demo_shared).
  - apply (bool_decide_eq_true_1 _). vm_compute. reflexivity.
  - discriminate.
  - vm_compute. reflexivity.
Defined.

(** ** Requests that escape the binding *)

Definition tenants_shown (o : outcome) : list string := shown (hs_Body (served o)).

(** [bindJSONTenant] leaves a body alone that is not declared as JSON, or that
    [json.Unmarshal] refuses because something follows the object; the
    handlers decode both. *)
Lemma unbound_bodies :
  tenants_shown (demo_serve "POST" "/api/v1/policies" "text/plain" "rival|pol-2" Open) = ["rival"] ∧
  tenants_shown (demo_serve "POST" "/api/v1/policies" "application/json" ("rival|pol-2" +:+ String line_feed "}") Open) = ["rival"].
Proof. split; vm_compute; reflexivity. Qed.

(** The body null is decoded into a nil map, which is then assigned to. *)
Lemma null_body_panics : demo_serve "POST" "/api/v1/policies" "application/json" "null" Open = Panicked (Open, ∅).
Proof. vm_compute. reflexivity. Qed.

(** Health records are listed for all tenants. *)
Lemma health_of_all_tenants h :
  tenants_shown (demo_serve "GET" "/api/v1/agent-health" "" "" (Open <| st_Health := {[ "rival/agent-1" := h ]} |>)) = [ah_TenantID h].
Proof. vm_compute. reflexivity. Qed.

(** A response is found by its id alone: the operator of another tenant
    replaces it, or acknowledges it. *)
Definition rival_pending : Store := (StoreResponses.CreateResponse 1%Z (demo_response_command "rival" "resp-1") Open).2.

Lemma responses_of_another :
  length (PendingResponses "rival" "agent-1" rival_pending) = 1 ∧
  PendingResponses "rival" "agent-1" (left_over (demo_serve "POST" "/api/v1/responses" "application/json" "|resp-1" rival_pending)) = [] ∧
  PendingResponses "rival" "agent-1" (left_over (demo_serve "POST" "/api/v1/response-acks" "application/json" "|resp-1" rival_pending)) = [].
Proof. split_and!; vm_compute; reflexivity. Qed.

(** A viewer who reads an analysis while the database does not answer turns
    the correlation across lineages off for the policy in memory, which every
    later analysis, and the next [Save], then has. *)
Definition demo_default : Store := EnsureDefaultPolicy 1%Z "acme" Open.
Definition viewer_analysis : Request :=
  MkRequest "GET" "/api/v1/recompute" [("disable", "cloud.cross_lineage")] "Bearer visitor" "" "" None.

Lemma analysis_changes_policy :
  (λ p, cv_CrossLineage <$> pol_Converge p) <$> st_Policies demo_default = [Some true] ∧
  (λ p, cv_CrossLineage <$> pol_Converge p) <$>
    st_Policies (left_over (HandlerWithAuth (demo_surroundings demo_down) demo_verify viewer_analysis (demo_default, ∅))) = [Some false].
Proof. split; vm_compute; reflexivity. Qed.
End ManagerTheorems.
