(* ===== verification/EnrollmentTheorems.v ===== *)
(** * Enrolment over HTTP: single use, and what a certificate says

    The manager holds enrolments in memory and in its database, and hosts
    redeem tickets and buy certificates in transactions of the database.
    [http_enrollment_single_use] is about the requests of operators and hosts,
    in any order, with saves that fail, a database that cannot be reached and
    restarts of the manager in between.  [certificates_identify] composes the
    manager with the gateway: the certificate that is handed out makes the
    gateway see the tenant and the agent of the enrolment. *)

From S2P Require Import Prelude GoStrings GoBytes GoData GoSha GoText StoreData StoreEnrollment Postgres Gateway ManagerApi ManagerEnrollment.

Module EnrollmentTheorems.
Import StoreData StoreEnrollment Postgres ManagerApi ManagerEnrollment.

(** A hash has digits. *)
Lemma hash_nonblank msg : EncodeToString (Sum256 msg) ≠ "".
Proof. pose proof (Sum256_length msg) as Hlen. by destruct (Sum256 msg). Qed.

(** ** The manager and its database *)

Record System := MkSystem { sy_memory : Store; sy_database : Database }.

(** An enrolment is known when the memory or the database has it. *)
Definition known (y : System) (x : Enrollment) : Prop :=
  x ∈ st_Enrollments (sy_memory y) ∨ ∃ k row, db_enrollments (sy_database y) !! k = Some row ∧ row_data row = x.

Section history.
Context `{EnrollText} `{X509} `{SliceSort} `{Postgresql} `{RangeOrder} (good : World → Prop).

(** The backend of a request: [lookup] is whether it could be read, [fault]
    why its transaction failed, [now] and [clock] the clocks of the database
    and of the backend. *)
Record connected (lookup : bool) (fault : option string) (now clock : Time) (db : Database) (w : World) : Prop := {
  cn_token t : wb_token w t = if lookup then Some (queryEnrollmentByTokenHash t db) else None;
  cn_bootstrap b t p at_ : wb_bootstrap w b t p at_ = Some (consume_ticket fault now b t p at_ db).1;
  cn_commit t k e c : wb_commit w t k e c = Some (commit_issue fault now clock t k e c db).1
}.

(** The handlers, with what their calls do to the database *)
Definition install (fault : option string) (now : Time) (w : World) (r : Request) (y : System) : content * System :=
  let '(reply, s) := agentInstallScript w r (sy_memory y) in
  (reply, MkSystem s
    match (if bool_decide (hq_Method r = "GET") then redemption w r else Ok None) with
    | Ok (Some (_, ticketHash, tokenHash, preview)) => (consume_ticket fault now ticketHash tokenHash preview (w_now w) (sy_database y)).2
    | _ => sy_database y
    end).

Definition certificate (fault : option string) (now clock : Time) (w : World) (r : Request) (y : System) : content * System :=
  let '(reply, s) := enrollmentCertificate w r (sy_memory y) in
  (reply, MkSystem s
    match prepare_issue w r (sy_memory y) with
    | inr (MkIssueCall t k proposed cert) =>
      if bool_decide (TrimSpace t = "") || bool_decide (TrimSpace k = "") then sy_database y
      else (commit_issue fault now clock (TrimSpace t) (TrimSpace k) proposed cert (sy_database y)).2
    | inl _ => sy_database y
    end).

(** The hash of the key of a request for a certificate *)
Definition request_key (csrPEM : string) : option string :=
  match pem_decode csrPEM with
  | Some (_, der) => match parse_request der with Ok request => Some (EncodeToString (Sum256 (csr_key request))) | Err _ => None end
  | None => None
  end.

(** Tokens, tickets and ids are drawn at random: the new ones are not in use. *)
Definition unused (e : Enrollment) (y : System) : Prop :=
  ∀ x, known y x → en_TokenHash x ≠ en_TokenHash e ∧ en_BootstrapTokenHash x ≠ en_BootstrapTokenHash e ∧ enrollment_row x ≠ enrollment_row e.
Definition fresh_enrollment (w : World) (y : System) : Prop :=
  ∀ req actor deploy e token ticket artifact,
    prepare_enrollment w req actor deploy (sy_memory y) = Ok (e, token, ticket, artifact) → unused (normalizeEnrollment e) y.
Definition fresh_token (w : World) (y : System) : Prop :=
  ∀ token x, newEnrollmentToken (w_random w) = Ok token → known y x → en_TokenHash x ≠ enrollmentTokenHash token.

(** What happens to enrolments, one thing after another, with a world for
    each request ([good] when it signs): [issued] are the certificates in the
    replies, with the hashes of the token and of the key that were presented;
    [scripts], the hashes of the tickets that a script was given for.  The
    memory is saved at any time and the save can fail; the manager restarts
    with an empty memory.  [hi_other] is whatever leaves the enrolments
    alone: the other requests, and the saves of the gateway and the workers,
    whose memories have no enrolments ([save_without_enrollments]). *)
Inductive history : System → list (string * string * certificateReply) → list string → Prop :=
| hi_init : history (MkSystem Open PostgresSchema) [] []
| hi_create w r y issued scripts :
    history y issued scripts → fresh_enrollment w y →
    history (MkSystem (enrollments w r (sy_memory y)).2 (sy_database y)) issued scripts
| hi_deploy w r y issued scripts :
    history y issued scripts → fresh_enrollment w y →
    history (MkSystem (uiDeployAgentCommand w r (sy_memory y)).2 (sy_database y)) issued scripts
| hi_install lookup fault now clock w r y issued scripts reply y' :
    history y issued scripts → connected lookup fault now clock (sy_database y) w → fresh_token w y → w_now w ≠ zero_time →
    install fault now w r y = (reply, y') →
    history y' issued (match reply with CScript _ => scripts ++ [enrollmentTokenHash (TrimSpace (query_of "ticket" r))] | _ => scripts end)
| hi_certificate lookup fault now clock w r req key y issued scripts reply y' :
    history y issued scripts → good w → connected lookup fault now clock (sy_database y) w →
    decode_certificate (hq_Body r) = Ok req → request_key (crq_CSR req) = Some key →
    certificate fault now clock w r y = (reply, y') →
    history y' (match reply with
                | CCertificate c => issued ++ [(TrimSpace (enrollmentTokenHash (TrimSpace (crq_Token req))), TrimSpace key, c)]
                | _ => issued end) scripts
| hi_save now fault y issued scripts :
    history y issued scripts → history (MkSystem (sy_memory y) (saveTables now fault (sy_memory y) (sy_database y)).2) issued scripts
| hi_restart y issued scripts : history y issued scripts → history (MkSystem Open (sy_database y)) issued scripts
| hi_other y y' issued scripts :
    history y issued scripts → st_Enrollments (sy_memory y') = st_Enrollments (sy_memory y) →
    db_enrollments (sy_database y') = db_enrollments (sy_database y) → history y' issued scripts.

Lemma save_without_enrollments now fault s db :
  st_Enrollments s = [] → db_enrollments (saveTables now fault s db).2 = db_enrollments db.
Proof.
  intros Hs. unfold saveTables. destruct fault; [done|]. destruct (save_enrollments now s db) as (db0 & Hdb0 & Hdb). cbn [snd].
  by rewrite Hdb, Hs.
Qed.

(** ** The steps *)

Lemma createEnrollment_step w req actor deploy s :
  (createEnrollment w req actor deploy s).2 = s ∨
  ∃ e token ticket artifact, prepare_enrollment w req actor deploy s = Ok (e, token, ticket, artifact) ∧
    (createEnrollment w req actor deploy s).2 = (CreateEnrollment (w_stored w) e s).2.
Proof.
  unfold createEnrollment. destruct (prepare_enrollment w req actor deploy s) as [[[[e token] ticket] artifact]|]; [right|by left].
  exists e, token, ticket, artifact. split; [done|]. destruct (CreateEnrollment _ e s) as [e' s']. by repeat case_match.
Qed.

Definition creates (w : World) (s s' : Store) : Prop :=
  s' = s ∨ ∃ req actor deploy e token ticket artifact,
    prepare_enrollment w req actor deploy s = Ok (e, token, ticket, artifact) ∧ s' = (CreateEnrollment (w_stored w) e s).2.

Lemma createEnrollment_creates w req actor deploy s : creates w s (createEnrollment w req actor deploy s).2.
Proof.
  destruct (createEnrollment_step w req actor deploy s) as [?|(e & token & ticket & artifact & Hp & Hs)]; [by left|right].
  by exists req, actor, deploy, e, token, ticket, artifact.
Qed.

Lemma enrollments_creates w r s : creates w s (enrollments w r s).2.
Proof.
  unfold enrollments. do 2 (case_bool_decide; [try by left|try by left]). destruct (requireOperator _ r); [by left|].
  destruct (decode_enrollment (hq_Body r)) as [req|]; [|by left].
  pose proof (createEnrollment_creates w req (actorFromRequest r) false s) as Hc.
  destruct (createEnrollment w req _ false s) as [[[status e]|created] s']; done.
Qed.

Lemma deploy_creates w r s : creates w s (uiDeployAgentCommand w r s).2.
Proof.
  unfold uiDeployAgentCommand. case_bool_decide; cbn [negb]; [|by left]. destruct (requireOperator _ r); [by left|].
  destruct (decode_enrollment (hq_Body r)) as [req|]; [|by left].
  pose proof (createEnrollment_creates w (deploy_request w req) (actorFromRequest r) true s) as Hc.
  destruct (createEnrollment w _ _ true s) as [[[status e]|created] s']; done.
Qed.

(** The enrolment [e] takes the place of its row and of its copy in memory. *)
Definition replaced (now : Time) (e : Enrollment) (y y' : System) : Prop :=
  st_Enrollments (sy_memory y') = upsert (same_enrollment e) (λ _, e) e (st_Enrollments (sy_memory y)) ∧
  db_enrollments (sy_database y') = db_enrollments (upsertEnrollment now e (sy_database y)).

Definition unchanged (y y' : System) : Prop :=
  st_Enrollments (sy_memory y') = st_Enrollments (sy_memory y) ∧ db_enrollments (sy_database y') = db_enrollments (sy_database y).

(** A row of the database *)
Definition stored (y : System) (x : Enrollment) : Prop := ∃ k row, db_enrollments (sy_database y) !! k = Some row ∧ row_data row = x.

(** A redemption, and what the reply shows of it *)
Lemma install_step lookup fault now clock w r y reply y' :
  connected lookup fault now clock (sy_database y) w → install fault now w r y = (reply, y') →
  (unchanged y y' ∧ ∀ text, reply ≠ CScript text) ∨
  ∃ token x, newEnrollmentToken (w_random w) = Ok token ∧ stored y x ∧
    en_BootstrapTokenHash x = enrollmentTokenHash (TrimSpace (query_of "ticket" r)) ∧ redeemable (w_now w) x = true ∧
    replaced now (redeem (enrollmentTokenHash token) (tokenPreview token) (w_now w) x) y y'.
Proof.
  intros Hw. unfold install, agentInstallScript, resolveInstallEnrollment, redemption.
  case_bool_decide; cbn [negb]; [|intros [= <- <-]; by left]. case_bool_decide; [intros [= <- <-]; by left|].
  destruct (newEnrollmentToken (w_random w)) as [token|]; [|intros [= <- <-]; by left].
  rewrite (cn_bootstrap _ _ _ _ _ _ Hw). unfold consume_ticket, ConsumeEnrollmentBootstrap.
  destruct fault as [e|]; [intros [= <- <-]; by left|].
  destruct (queryEnrollmentByBootstrapTokenHash _ _) as [x|] eqn:Eq; [|intros [= <- <-]; by left].
  destruct (redeemable (w_now w) x) eqn:Er; cbn [negb]; [|intros [= <- <-]; by left].
  apply latest_enrollment_row in Eq as [[Ht _]%andb_true_iff Hrow]. unfold has_ticket in Ht. apply bool_decide_eq_true in Ht.
  cbn [fst snd]. intros Hr. right. exists token, x. split; [done|]. split; [exact Hrow|]. split; [done|]. split; [done|].
  destruct (w_save w); [by injection Hr as _ <-|]. destruct (negb _); [by injection Hr as _ <-|]. by destruct (expired _ _); injection Hr as _ <-.
Qed.

Lemma signAgentCSR_key w e csrPEM certPEM cert keyHash :
  signAgentCSR w e csrPEM = Ok (certPEM, cert, keyHash) → request_key csrPEM = Some keyHash.
Proof. unfold signAgentCSR, request_key. intros Hs. repeat case_match; by simplify_eq. Qed.

(** What is asked for is a copy of the enrolment found, in the database or in
    the memory. *)
Lemma prepare_issue_spec lookup fault now clock w r req key y t k proposed cert :
  connected lookup fault now clock (sy_database y) w → decode_certificate (hq_Body r) = Ok req → request_key (crq_CSR req) = Some key →
  prepare_issue w r (sy_memory y) = inr (MkIssueCall t k proposed cert) →
  t = enrollmentTokenHash (TrimSpace (crq_Token req)) ∧ k = key ∧
  ∃ x certPEM parsed, known y x ∧ en_TokenHash x = TrimSpace t ∧ signAgentCSR w x (crq_CSR req) = Ok (certPEM, parsed, key) ∧
    proposed = proposed_enrollment w x certPEM key parsed.
Proof.
  intros Hw Hd Hk. unfold prepare_issue. rewrite Hd. destruct (negb _); [done|]. destruct (negb (w_ca w) || _); [done|].
  unfold GetEnrollmentByTokenHash. rewrite (cn_token _ _ _ _ _ _ Hw). case_bool_decide as Hb; [done|].
  set (hash := enrollmentTokenHash (TrimSpace (crq_Token req))) in *.
  destruct (match (if lookup then _ else _) with Some found => found | None => _ end) as [x|] eqn:Ef; [|done].
  assert (known y x ∧ en_TokenHash x = TrimSpace hash) as [Hx Ht].
  { destruct lookup.
    - unfold queryEnrollmentByTokenHash in Ef. rewrite bool_decide_eq_false_2 in Ef by done.
      apply latest_enrollment_row in Ef as [Ht%bool_decide_eq_true Hrow]. split; [by right|done].
    - apply find_first_elem in Ef as [Hin Ht%bool_decide_eq_true]. split; [by left|done]. }
  destruct (negb _ && negb _); [done|]. destruct (bool_decide _ && _); [done|].
  destruct (signAgentCSR w x (crq_CSR req)) as [[[certPEM parsed] keyHash]|] eqn:Es; [|done].
  pose proof (signAgentCSR_key _ _ _ _ _ _ Es) as Hk'. rewrite Hk in Hk'. injection Hk' as <-.
  intros [= <- <- <- <-]. split; [done|]. split; [done|]. by exists x, certPEM, parsed.
Qed.

(** A certificate, and what the reply shows of it: the one issued before for
    the same key, or a new one. *)
Lemma certificate_step lookup fault now clock w r req key y reply y' :
  connected lookup fault now clock (sy_database y) w → decode_certificate (hq_Body r) = Ok req → request_key (crq_CSR req) = Some key →
  certificate fault now clock w r y = (reply, y') →
  let token := TrimSpace (enrollmentTokenHash (TrimSpace (crq_Token req))) in
  (unchanged y y' ∧ ∀ c, reply ≠ CCertificate c) ∨
  (∃ x, unchanged y y' ∧ stored y x ∧ en_TokenHash x = token ∧ en_Status x = "issued" ∧ en_IssuedKeySHA256 x = TrimSpace key ∧
     ∀ c, reply = CCertificate c → c = certificate_reply x) ∨
  ∃ current x certPEM parsed,
    let e := issue token (TrimSpace key) (proposed_enrollment w x certPEM key parsed) in
    stored y current ∧ en_TokenHash current = token ∧ en_Status current = "active" ∧ known y x ∧ en_TokenHash x = token ∧
    signAgentCSR w x (crq_CSR req) = Ok (certPEM, parsed, key) ∧ replaced now e y y' ∧
    ∀ c, reply = CCertificate c → c = certificate_reply e.
Proof.
  intros Hw Hd Hk. cbn zeta. unfold certificate, enrollmentCertificate.
  destruct (prepare_issue w r (sy_memory y)) as [reply0|[t k proposed cert]] eqn:Ep; [|].
  { intros [= <- <-]. left. split; [done|]. unfold prepare_issue in Ep. intros c ->. repeat case_match; simplify_eq. }
  destruct (prepare_issue_spec _ _ _ _ _ _ _ _ _ _ _ _ _ Hw Hd Hk Ep) as (-> & -> & x & certPEM & parsed & Hx & Htx & Hs & ->). clear Ep.
  set (token := TrimSpace (enrollmentTokenHash (TrimSpace (crq_Token req)))) in *.
  rewrite (cn_commit _ _ _ _ _ _ Hw). unfold CommitEnrollmentIssue. fold token.
  destruct (bool_decide (token = "") || bool_decide (TrimSpace key = "")); [intros [= <- <-]; by left|].
  unfold commit_issue. destruct fault as [e|]; [intros [= <- <-]; by left|].
  destruct (queryEnrollmentByTokenHashForUpdate token (sy_database y)) as [current|] eqn:Eq; [|intros [= <- <-]; by left].
  apply latest_enrollment_row in Eq as [Ht%bool_decide_eq_true Hrow]. fold (stored y current) in Hrow.
  destruct (decide (en_Status current = "issued")) as [Hiss|Hiss];
    [rewrite (bool_decide_eq_true_2 (en_Status current = "issued")) by done|rewrite (bool_decide_eq_false_2 (en_Status current = "issued")) by done].
  { case_bool_decide as Hkey; cbn [fst snd]; intros [= <- <-]; [|by left]. right. left. exists current.
    split_and!; [done..|]. unfold saving. destruct (w_save w); [by intros c Hc|]. by intros c [= <-]. }
  destruct (decide (en_Status current = "active")) as [Hact|Hact];
    [rewrite (bool_decide_eq_true_2 (en_Status current = "active")) by done
    |rewrite (bool_decide_eq_false_2 (en_Status current = "active")) by done; intros [= <- <-]; by left].
  cbn [negb orb]. destruct (expired clock current); [intros [= <- <-]; by left|]. cbn [fst snd].
  rewrite Ht. set (e := issue token (TrimSpace key) (proposed_enrollment w x certPEM key parsed)).
  intros Hr. apply pair_equal_spec in Hr as [<- <-].
  right. right. exists current, x, certPEM, parsed. fold e. split_and!; [done..| |].
  - split; [done|]. apply upsertAgentCertificate_enrollments.
  - unfold saving. destruct (w_save w); [by intros c Hc|]. by intros c [= <-].
Qed.

(** ** What a history keeps *)

Definition row_issued (y : System) (x : string * string * string) : Prop :=
  let '(token, key, pem) := x in
  ∃ e, stored y e ∧ en_TokenHash e = token ∧ en_Status e = "issued" ∧ en_IssuedKeySHA256 e = key ∧ en_IssuedCertificatePEM e = pem.

Definition spent (e : Enrollment) : Prop := en_Status e ≠ "active" ∨ en_BootstrapFetchedAt e ≠ zero_time.
Definition row_spent (y : System) (ticket : string) : Prop := ∃ e, stored y e ∧ en_BootstrapTokenHash e = ticket ∧ spent e.

Definition named (e : Enrollment) : Prop :=
  en_TenantID e ≠ "" ∧ en_EnrollmentID e ≠ "" ∧ en_TokenHash e ≠ "".

(** Two enrolments with a token, a ticket or a key in common *)
Definition alike (x x' : Enrollment) : Prop :=
  en_TokenHash x = en_TokenHash x' ∨ en_BootstrapTokenHash x = en_BootstrapTokenHash x' ∨ enrollment_row x = enrollment_row x'.

Record consistent (y : System) (issued : list (string * string * string)) (redeemed : list string) : Prop := {
  co_rows : keyed enrollment_row (db_enrollments (sy_database y));
  co_memory : NoDup (enrollment_row <$> st_Enrollments (sy_memory y));
  co_named x : known y x → named x;
  co_unique x x' : known y x → known y x' → alike x x' → x = x';
  co_issued : Forall (row_issued y) issued;
  co_spent : Forall (row_spent y) redeemed;
  co_once : NoDup redeemed
}.

Lemma same_enrollment_row e x : en_TenantID e ≠ "" → en_TenantID x ≠ "" → same_enrollment e x = true ↔ enrollment_row x = enrollment_row e.
Proof.
  intros He Hx. unfold same_enrollment, enrollment_row, or_default. rewrite !(bool_decide_eq_false_2 (_ = "")) by done.
  rewrite andb_true_iff, !bool_decide_eq_true. split; [intros [-> ->]; done|by intros [= -> ->]].
Qed.

(** One copy is replaced, or added at the end. *)
Lemma upsert_rows e l :
  named e → (∀ x, x ∈ l → named x) → NoDup (enrollment_row <$> l) →
  let l' := upsert (same_enrollment e) (λ _, e) e l in
  NoDup (enrollment_row <$> l') ∧ ∀ x, x ∈ l' → x = e ∨ (x ∈ l ∧ enrollment_row x ≠ enrollment_row e).
Proof.
  intros [He _] Hl Hn. cbn zeta. assert (∀ x, x ∈ l → same_enrollment e x = true ↔ enrollment_row x = enrollment_row e) as Hs.
  { intros x Hx. apply same_enrollment_row; [done|]. by destruct (Hl x Hx). }
  assert (∀ x, x ∈ l → same_enrollment e x = false → enrollment_row x ≠ enrollment_row e) as Hf.
  { intros x Hx Hfalse Heq%Hs; [congruence|done]. }
  unfold upsert. pose proof (replace_first_spec (same_enrollment e) (λ _, e) l) as Hr. destruct (replace_first _ _ l) as [l'|]; cbn.
  - destruct Hr as (l1 & z & l2 & -> & -> & Hz & Hl1). apply Hs in Hz; [|set_solver].
    rewrite !fmap_app, !fmap_cons, Hz in *. split; [done|]. rewrite list.Forall_forall in Hl1.
    apply list.NoDup_app in Hn as (_ & _ & [Hn _]%list.NoDup_cons). intros x [Hx|[->|Hx]%elem_of_cons]%elem_of_app; [|by left|].
    + right. split; [set_solver|]. apply Hf; [set_solver|by apply Hl1].
    + right. split; [set_solver|]. intros Heq. apply Hn. rewrite <- Heq. by apply list_elem_of_fmap_2.
  - rewrite list.Forall_forall in Hr. rewrite fmap_app. split.
    + apply list.NoDup_app. split; [done|]. split; [|apply NoDup_singleton].
      intros k (x & -> & Hx)%list_elem_of_fmap Hk%list_elem_of_singleton. by apply (Hf x Hx (Hr x Hx)).
    + intros x [Hx| ->%list_elem_of_singleton]%elem_of_app; [right; split; [done|by apply Hf, Hr]|by left].
Qed.

Lemma upsertEnrollment_row now e db : named e →
  ∃ row, row_data row = e ∧ db_enrollments (upsertEnrollment now e db) = <[enrollment_row e := row]> (db_enrollments db).
Proof.
  intros (_ & Hid & Ht). unfold upsertEnrollment. rewrite !bool_decide_eq_false_2 by done. cbn [orb].
  eexists. split; [|unfold put; reflexivity]. done.
Qed.

Section replace.
Context (y y' : System) (issued : list (string * string * string)) (redeemed : list string) (now : Time) (e : Enrollment).
Hypotheses (Hc : consistent y issued redeemed) (Hr : replaced now e y y') (He : named e).

(** The other rows and copies stay. *)
Lemma replaced_stored x : stored y' x ↔ x = e ∨ (stored y x ∧ enrollment_row x ≠ enrollment_row e).
Proof.
  destruct Hr as [_ Hdb]. destruct (upsertEnrollment_row now e (sy_database y) He) as (row & Hrow & Hins). rewrite Hins in Hdb.
  unfold stored. rewrite Hdb. split.
  - intros (k & row' & Hk & <-). apply lookup_insert_Some in Hk as [[<- <-]|[Hne Hk]]; [by left|right].
    pose proof (co_rows _ _ _ Hc k row' Hk) as Hkey. split; [by exists k, row'|]. by rewrite Hkey.
  - intros [->|[(k & row' & Hk & <-) Hne]]; [exists (enrollment_row e), row; split; [apply lookup_insert_eq|done]|].
    exists k, row'. split; [|done]. rewrite (co_rows _ _ _ Hc k row' Hk) in Hne. by rewrite lookup_insert_ne.
Qed.

Lemma replaced_memory :
  NoDup (enrollment_row <$> st_Enrollments (sy_memory y')) ∧
  ∀ x, x ∈ st_Enrollments (sy_memory y') → x = e ∨ (x ∈ st_Enrollments (sy_memory y) ∧ enrollment_row x ≠ enrollment_row e).
Proof.
  destruct Hr as [-> _]. apply upsert_rows; [done| |by destruct Hc]. intros x Hx. apply (co_named _ _ _ Hc). by left.
Qed.

Lemma replaced_known x : known y' x → x = e ∨ (known y x ∧ enrollment_row x ≠ enrollment_row e).
Proof.
  intros [Hx|Hx]; [apply replaced_memory in Hx|apply replaced_stored in Hx]; unfold known, stored in *; naive_solver.
Qed.

Lemma replaced_rows : keyed enrollment_row (db_enrollments (sy_database y')).
Proof.
  destruct Hr as [_ ->]. destruct (upsertEnrollment_row now e (sy_database y) He) as (row & Hrow & ->).
  apply (map_Forall_insert_2 (λ k row, enrollment_row (row_data row) = k)); [by rewrite Hrow|by destruct Hc].
Qed.

(** An active enrolment is replaced by one with its ticket and its key, and a
    token that is its own or new: what was issued and what was spent stays. *)
Lemma consistent_replace current :
  stored y current → en_Status current = "active" → enrollment_row e = enrollment_row current →
  en_BootstrapTokenHash e = en_BootstrapTokenHash current →
  (en_TokenHash e = en_TokenHash current ∨ ∀ x, known y x → en_TokenHash x ≠ en_TokenHash e) → spent e →
  consistent y' issued redeemed.
Proof.
  intros Hcur Hact Hrow Htick Htok Hsp. assert (known y current) as Hkc by by right.
  assert (∀ x, known y x → enrollment_row x ≠ enrollment_row e → ¬ alike x e) as Hdiff.
  { intros x Hx Hne [Ha|[Ha|Ha]]; [|rewrite Htick in Ha|done].
    - destruct Htok as [Htok|Htok]; [|by apply (Htok x)]. rewrite Htok in Ha.
      rewrite (co_unique _ _ _ Hc x current Hx Hkc) in Hne by by left. by rewrite Hrow in Hne.
    - rewrite (co_unique _ _ _ Hc x current Hx Hkc) in Hne by by right; left. by rewrite Hrow in Hne. }
  assert (∀ x, stored y x → x ≠ current → stored y' x) as Hstay.
  { intros x Hx Hne. apply replaced_stored. right. split; [done|]. rewrite Hrow. intros Heq. apply Hne.
    apply (co_unique _ _ _ Hc); [by right|done|by right; right]. }
  split.
  - exact replaced_rows.
  - exact (proj1 replaced_memory).
  - intros x [->|[Hx _]]%replaced_known; [done|by apply (co_named _ _ _ Hc)].
  - intros x x' [->|[Hx Hnx]]%replaced_known [->|[Hx' Hnx']]%replaced_known Ha; [done| | |by apply (co_unique _ _ _ Hc)].
    + destruct (Hdiff x' Hx' Hnx'). unfold alike in *. naive_solver.
    + by destruct (Hdiff x Hx Hnx).
  - eapply list.Forall_impl; [exact (co_issued _ _ _ Hc)|]. intros [[token key] pem] (x & Hx & Ht & Hst & Hrest).
    exists x. split; [|done]. apply Hstay; [done|]. intros ->. congruence.
  - eapply list.Forall_impl; [exact (co_spent _ _ _ Hc)|]. intros ticket (x & Hx & Ht & Hs).
    destruct (decide (enrollment_row x = enrollment_row current)) as [Heq|Hne].
    + assert (x = current) as -> by (apply (co_unique _ _ _ Hc); [by right|done|by right; right]).
      exists e. split; [apply replaced_stored; by left|]. split; [by rewrite Htick|done].
    + exists x. split; [apply Hstay; congruence|done].
  - by destruct Hc.
Qed.
End replace.

(** ** The steps keep it *)

Lemma consistent_subset y y' issued redeemed :
  consistent y issued redeemed →
  keyed enrollment_row (db_enrollments (sy_database y')) → NoDup (enrollment_row <$> st_Enrollments (sy_memory y')) →
  (∀ x, known y' x → known y x) → (∀ x, stored y x → stored y' x) → consistent y' issued redeemed.
Proof.
  intros [C1 C2 C3 C4 C5 C6 C7] Hk Hn Hknown Hstored. split; try done; [by auto|by auto| |].
  - eapply list.Forall_impl; [exact C5|]. intros [[token key] pem] (x & Hx & Hrest). exists x. auto.
  - eapply list.Forall_impl; [exact C6|]. intros ticket (x & Hx & Hrest). exists x. auto.
Qed.

Lemma unchanged_known y y' x : unchanged y y' → known y' x ↔ known y x.
Proof. intros [Hm Hd]. unfold known. by rewrite Hm, Hd. Qed.

Lemma unchanged_consistent y y' issued redeemed : unchanged y y' → consistent y issued redeemed → consistent y' issued redeemed.
Proof.
  intros Hu Hc. pose proof Hu as [Hm Hd]. apply (consistent_subset y); [done| | | |].
  - rewrite Hd. by destruct Hc.
  - rewrite Hm. by destruct Hc.
  - intros x. by rewrite (unchanged_known y y' x Hu).
  - intros x. unfold stored. by rewrite Hd.
Qed.

(** Saving writes copies that are rows already, or new rows. *)
Lemma save_consistent now fault y issued redeemed :
  consistent y issued redeemed →
  let y' := MkSystem (sy_memory y) (saveTables now fault (sy_memory y) (sy_database y)).2 in
  (∀ x, known y' x → known y x) ∧ consistent y' issued redeemed.
Proof.
  intros Hc. cbn zeta. unfold saveTables. destruct fault; [by destruct y|]. cbn [snd].
  destruct (save_enrollments now (sy_memory y) (sy_database y)) as (db0 & Hdb0 & Hsave).
  assert (∀ l, (∀ x, x ∈ l → x ∈ st_Enrollments (sy_memory y)) → ∀ db,
    keyed enrollment_row (db_enrollments db) ∧ (∀ k row, db_enrollments db !! k = Some row → known y (row_data row)) ∧
    (∀ x, stored y x → stored (MkSystem Open db) x) →
    let db' := project (upsertEnrollment now) l db in
    keyed enrollment_row (db_enrollments db') ∧ (∀ k row, db_enrollments db' !! k = Some row → known y (row_data row)) ∧
    (∀ x, stored y x → stored (MkSystem Open db') x)) as Hproject.
  { induction l as [|e l IH]; [done|]. intros Hl db (Hk & Hkn & Hst). cbn. apply IH; [set_solver|].
    assert (known y e) as He by (left; set_solver). pose proof (co_named _ _ _ Hc e He) as Hnamed.
    destruct (upsertEnrollment_row now e db Hnamed) as (row & Hrow & Hins). split_and!.
    - rewrite Hins. apply (map_Forall_insert_2 (λ k row, enrollment_row (row_data row) = k)); [by rewrite Hrow|done].
    - rewrite Hins. intros k row' [[_ <-]|[_ Hk']]%lookup_insert_Some; [by rewrite Hrow|by eapply Hkn].
    - intros x Hx. destruct (Hst x Hx) as (k & row' & Hk' & Hx'). cbn in Hk'.
      unfold stored. cbn [sy_database]. rewrite Hins. destruct (decide (k = enrollment_row e)) as [->|Hne].
      + exists (enrollment_row e), row. rewrite lookup_insert_eq. split; [done|]. rewrite Hrow.
        apply (co_unique _ _ _ Hc); [done|by right|]. right. right. rewrite <- Hx'. by rewrite (Hk _ _ Hk').
      + exists k, row'. by rewrite lookup_insert_ne. }
  destruct (Hproject (st_Enrollments (sy_memory y)) (λ x Hx, Hx) db0) as (P1 & P2 & P3).
  { rewrite Hdb0. split; [by destruct Hc|]. split; [intros k row Hk; right; eauto|]. intros x. unfold stored. cbn. by rewrite Hdb0. }
  assert (∀ x, known (MkSystem (sy_memory y) (save_rows now (sy_memory y) (sy_database y))) x → known y x) as Hsub.
  { intros x [Hx|(k & row & Hk & <-)]; [by left|]. cbn in Hk. rewrite Hsave in Hk. by eapply P2. }
  split; [done|]. apply (consistent_subset y); [done| |by destruct Hc|done|].
  - cbn. by rewrite Hsave.
  - intros x Hx. destruct (P3 x Hx) as (k & row & Hk & Hx'). exists k, row. cbn in *. by rewrite Hsave.
Qed.

Lemma create_step now e y issued redeemed :
  unused (normalizeEnrollment e) y → consistent y issued redeemed →
  let y' := MkSystem (CreateEnrollment now e (sy_memory y)).2 (sy_database y) in
  consistent y' issued redeemed ∧
  ∀ x, known y' x → known y x ∨
    ∃ b1 b2 : bool, x = (normalizeEnrollment e) <| en_CreatedAt := now when b1 |> <| en_Status := "active" when b2 |>.
Proof.
  assert (en_TenantID (normalizeEnrollment e) ≠ "") as Hten by (cbn; unfold or_default; by case_bool_decide).
  unfold CreateEnrollment. revert Hten. generalize (normalizeEnrollment e). clear e. intros e Hten Hu Hc. cbn zeta.
  destruct (bool_decide (en_EnrollmentID e = "") || _) eqn:Eb; [split; [by destruct y|by left]|].
  apply orb_false_iff in Eb as [Hid%bool_decide_eq_false Htok%bool_decide_eq_false]. cbn [snd].
  match goal with |- context [upsert (same_enrollment ?x)] => set (e' := x) in * end.
  assert (unused e' y ∧ named e' ∧ ∃ b1 b2 : bool, e' = e <| en_CreatedAt := now when b1 |> <| en_Status := "active" when b2 |>)
    as (Hu' & Hn' & Hshape).
  { split_and!; [| |by eexists _, _]; destruct e; cbn in *; [exact Hu|by split_and!]. }
  clearbody e'. clear Hten Hu Hid Htok. set (y' := MkSystem _ (sy_database y)).
  assert (∀ x, known y' x → x = e' ∨ known y x) as Hk.
  { intros x [Hx|Hx]; [|right; by right]. apply upsert_elem in Hx as [->|Hx]; [|right; by left]. by destruct (find_first _ _); left. }
  split; [|intros x [->|Hx]%Hk; [by right|by left]].
  assert (∀ x, x ∈ st_Enrollments (sy_memory y) → known y x) as Hmem by by left.
  destruct Hc as [C1 C2 C3 C4 C5 C6 C7]. split; try done.
  - apply (upsert_rows e' (st_Enrollments (sy_memory y))); [done| |done]. intros x Hx. by apply C3, Hmem.
  - intros x [->|Hx]%Hk; [done|by apply C3].
  - intros x x' [->|Hx]%Hk [->|Hx']%Hk Ha; [done| | |by apply C4];
      [destruct (Hu' x' Hx') as (? & ? & ?)|destruct (Hu' x Hx) as (? & ? & ?)]; unfold alike in Ha; naive_solver.
Qed.

Lemma creates_step w s' y issued redeemed :
  fresh_enrollment w y → creates w (sy_memory y) s' → consistent y issued redeemed → consistent (MkSystem s' (sy_database y)) issued redeemed.
Proof.
  intros Hf [->|(req & actor & deploy & e & token & ticket & artifact & Hp & ->)]; [by destruct y|].
  intros Hc. by apply (create_step _ _ _ _ _ (Hf _ _ _ _ _ _ _ Hp) Hc).
Qed.

(** A ticket that was redeemed is not redeemed again. *)
Lemma redeemed_step lookup fault now clock w r y reply y' issued redeemed :
  connected lookup fault now clock (sy_database y) w → fresh_token w y → w_now w ≠ zero_time → install fault now w r y = (reply, y') →
  consistent y issued redeemed →
  ∃ redeemed', consistent y' issued redeemed' ∧
    (match reply with CScript _ => redeemed' = redeemed ++ [enrollmentTokenHash (TrimSpace (query_of "ticket" r))] | _ => redeemed `sublist_of` redeemed' end) ∧
    ∀ x, known y' x → known y x ∨ ∃ x0 token preview at_, known y x0 ∧ x = redeem token preview at_ x0.
Proof.
  intros Hw Hf Hnow Hr Hc.
  destruct (install_step _ _ _ _ _ _ _ _ _ Hw Hr) as [[Hu Hno]|(token & x & Htok & Hx & Hticket & Hred & Hrep)].
  { exists redeemed. split; [by apply (unchanged_consistent y)|]. split; [|intros x Hx; left; by apply (unchanged_known y y' x Hu)].
    destruct reply; try done. by destruct (Hno text). }
  set (e := redeem (enrollmentTokenHash token) (tokenPreview token) (w_now w) x) in *.
  unfold redeemable, IsZero in Hred. rewrite !andb_true_iff, bool_decide_eq_true, Z.eqb_eq in Hred. destruct Hred as [[Hact Hz] _].
  assert (known y x) as Hkx by by right. destruct (co_named _ _ _ Hc x Hkx) as (Hn1 & Hn2 & Hn3).
  assert (named e) as He by (split_and!; [done|done|apply hash_nonblank]).
  assert (consistent y' issued redeemed) as Hc'.
  { apply (consistent_replace y y' issued redeemed now e Hc Hrep He x); [done..| |by right]. right. intros z Hkz. by apply Hf. }
  set (ticket := enrollmentTokenHash (TrimSpace (query_of "ticket" r))) in *.
  exists (redeemed ++ [ticket]). split; [|split; [destruct reply; try done; by apply sublist_inserts_r|]].
  - destruct Hc' as [C1 C2 C3 C4 C5 C6 C7]. split; try done.
    + apply Forall_app. split; [done|]. constructor; [|constructor]. exists e. split; [|by split; [|right]].
      apply (replaced_stored y y' issued redeemed now e Hc Hrep He). by left.
    + apply list.NoDup_app. split; [done|]. split; [|apply NoDup_singleton]. intros b Hb ->%list_elem_of_singleton.
      pose proof (co_spent _ _ _ Hc) as Hs. rewrite list.Forall_forall in Hs. destruct (Hs _ Hb) as (z & Hz' & Ht & Hsp).
      assert (z = x) as -> by (apply (co_unique _ _ _ Hc); [by right|done|right; left; congruence]). by destruct Hsp.
  - intros z [->|[Hk _]]%(replaced_known y y' issued redeemed now e Hc Hrep He); [right|by left]. by eexists _, _, _, _.
Qed.

(** A token buys one certificate, for one key. *)
Lemma issued_step lookup fault now clock w r req key y reply y' issued redeemed :
  connected lookup fault now clock (sy_database y) w → decode_certificate (hq_Body r) = Ok req → request_key (crq_CSR req) = Some key →
  certificate fault now clock w r y = (reply, y') → consistent y issued redeemed →
  let token := TrimSpace (enrollmentTokenHash (TrimSpace (crq_Token req))) in
  ∃ issued', consistent y' issued' redeemed ∧ (∀ i, i ∈ issued → i ∈ issued') ∧
    (∀ c, reply = CCertificate c → (token, TrimSpace key, cr_CertificatePEM c) ∈ issued' ∧
       ∃ e, known y' e ∧ en_Status e = "issued" ∧ c = certificate_reply e) ∧
    ∀ z, known y' z → known y z ∨ ∃ x certPEM parsed, known y x ∧ signAgentCSR w x (crq_CSR req) = Ok (certPEM, parsed, key) ∧
      z = issue token (TrimSpace key) (proposed_enrollment w x certPEM key parsed).
Proof.
  clear good. intros Hw Hd Hk Hr Hc. pose proof (certificate_step _ _ _ _ _ _ _ _ _ _ _ Hw Hd Hk Hr) as Hstep. cbn zeta in *.
  set (token := TrimSpace (enrollmentTokenHash (TrimSpace (crq_Token req)))) in *. destruct Hstep as
    [[Hu Hno]|[(x & Hu & Hx & Ht & Hst & Hkey & Hrep)|(current & x & certPEM & parsed & Hcur & Htc & Hact & Hx & Htx & Hs & Hrepl & Hrep)]].
  - exists issued. split; [by apply (unchanged_consistent y)|]. split; [done|]. split; [intros c ->; by destruct (Hno c)|].
    intros z Hz. left. by apply (unchanged_known y y' z Hu).
  - exists (issued ++ [(token, TrimSpace key, en_IssuedCertificatePEM x)]).
    assert (stored y' x) as Hx' by (destruct Hu as [_ Hd']; unfold stored in *; by rewrite Hd').
    pose proof (unchanged_consistent y y' _ _ Hu Hc) as [C1 C2 C3 C4 C5 C6 C7]. split_and!.
    + split; try done. apply Forall_app. split; [done|]. constructor; [|constructor]. by exists x.
    + set_solver.
    + intros c ->%Hrep. split; [apply elem_of_app; right; apply list_elem_of_singleton; reflexivity|]. exists x. by split; [right|].
    + intros z Hz. left. by apply (unchanged_known y y' z Hu).
  - assert (x = current) as -> by (apply (co_unique _ _ _ Hc); [done|by right|left; congruence]).
    set (e := issue token (TrimSpace key) (proposed_enrollment w current certPEM key parsed)) in *.
    destruct (co_named _ _ _ Hc current Hx) as (Hn1 & Hn2 & Hn3).
    assert (named e) as He by (split_and!; [done|done|cbn; congruence]).
    assert (stored y' e) as Hse by (apply (replaced_stored y y' issued redeemed now e Hc Hrepl He); by left).
    assert (consistent y' issued redeemed) as [C1 C2 C3 C4 C5 C6 C7].
    { apply (consistent_replace y y' issued redeemed now e Hc Hrepl He current); [done..| |by left]. left. by rewrite Htc. }
    exists (issued ++ [(token, TrimSpace key, en_IssuedCertificatePEM e)]). split_and!.
    + split; try done. apply Forall_app. split; [done|]. constructor; [|constructor]. by exists e.
    + set_solver.
    + intros c ->%Hrep. split; [apply elem_of_app; right; apply list_elem_of_singleton; reflexivity|]. exists e. by split; [right|].
    + intros z [->|[Hz _]]%(replaced_known y y' issued redeemed now e Hc Hrepl He); [right|by left]. by exists current, certPEM, parsed.
Qed.

(** ** The history *)

Definition seen (x : string * string * certificateReply) : string * string * string := (x.1, cr_CertificatePEM x.2).

(** The requests refine a history of the database, in which more may have been
    issued and redeemed than the replies show. *)
Definition refines (y : System) (issued : list (string * string * certificateReply)) (scripts : list string) : Prop :=
  ∃ issued' redeemed, consistent y issued' redeemed ∧ (∀ x, x ∈ issued → seen x ∈ issued') ∧ scripts `sublist_of` redeemed.

Lemma history_refines y issued scripts : history y issued scripts → refines y issued scripts.
Proof.
  induction 1 as [|w r y issued scripts _ IH Hf|w r y issued scripts _ IH Hf|lookup fault now clock w r y issued scripts reply y' _ IH Hw Hf Hn Hr
    |lookup fault now clock w r req key y issued scripts reply y' _ IH Hg Hw Hd Hk Hr|now fault y issued scripts _ IH|y issued scripts _ IH
    |y y' issued scripts _ IH Hm Hd].
  { exists [], []. split_and!; [|set_solver|done].
    assert (∀ x, ¬ known (MkSystem Open PostgresSchema) x) as Hno.
    { intros x [?%elem_of_nil|(k & row & Hk & _)]; [done|]. cbn in Hk. by rewrite lookup_empty in Hk. }
    split; [apply map_Forall_empty|constructor|by intros x ?%Hno|by intros x x' ?%Hno|constructor..]. }
  all: destruct IH as (issued' & redeemed & Hc & Hi & Hs).
  - exists issued', redeemed. split; [|done]. by eapply creates_step; [|apply enrollments_creates|].
  - exists issued', redeemed. split; [|done]. by eapply creates_step; [|apply deploy_creates|].
  - destruct (redeemed_step _ _ _ _ _ _ _ _ _ _ _ Hw Hf Hn Hr Hc) as (redeemed' & Hc' & Hrep & _). exists issued', redeemed'.
    split_and!; [done..|]. destruct reply; try (by etrans). subst. by apply sublist_app.
  - destruct (issued_step _ _ _ _ _ _ _ _ _ _ _ _ _ Hw Hd Hk Hr Hc) as (issued2 & Hc' & Hold & Hnew & _). exists issued2, redeemed.
    split_and!; [done| |done]. intros x Hx. destruct reply; try by apply Hold, Hi.
    apply elem_of_app in Hx as [Hx| ->%list_elem_of_singleton]; [by apply Hold, Hi|]. by apply Hnew.
  - exists issued', redeemed. split; [|done]. by apply save_consistent.
  - exists issued', redeemed. split; [|done]. apply (consistent_subset y); [done|by destruct Hc|constructor| |done].
    intros x [?%elem_of_nil|Hx]; [done|by right].
  - exists issued', redeemed. split; [|done]. by apply (unchanged_consistent y).
Qed.

(** C7. The credentials of an enrolment are good for one use, seen from
    outside: in every history of a manager and its database (operators that
    create enrolments, hosts that ask for install scripts and certificates, in
    any order, with any tokens, tickets and keys; saves that fail, a database
    that cannot be read or whose transactions fail, restarts of the manager
    with an empty memory), two replies with a certificate for the same token
    carry the same certificate, for the same key, and no ticket is answered
    with a script twice.  Random tokens, tickets and ids are taken to be new;
    one manager writes the enrolments, and each request and each save is
    complete before the next begins (a save that is overtaken by a redemption
    does undo it: [late_save_reopens_ticket]). *)
Theorem http_enrollment_single_use y issued scripts :
  history y issued scripts →
  (∀ token key c key' c', (token, key, c) ∈ issued → (token, key', c') ∈ issued →
     key = key' ∧ cr_CertificatePEM c = cr_CertificatePEM c') ∧
  NoDup scripts.
Proof.
  intros (issued' & redeemed & Hc & Hi & Hs)%history_refines. split; [|eapply sublist_NoDup; [by destruct Hc|done]].
  intros token key c key' c' Ha%Hi Hb%Hi. pose proof (co_issued _ _ _ Hc) as Hk. rewrite list.Forall_forall in Hk.
  destruct (Hk _ Ha) as (e & He & Ht & _ & Hk1 & Hp1), (Hk _ Hb) as (e' & He' & Ht' & _ & Hk2 & Hp2).
  assert (e = e') as <- by (apply (co_unique _ _ _ Hc); [by right|by right|left; congruence]). cbn in *. split; congruence.
Qed.
End history.

(** ** What a certificate says *)

(** Names: the bytes of [enrollmentIdentityPattern] *)
Definition is_name (s : string) : Prop := s ≠ "" ∧ forallb is_name_byte (String.list_ascii_of_string s) = true.

Lemma pattern_is_name s : enrollmentIdentityPattern s = true → is_name s.
Proof.
  destruct s as [|c s]; [done|]. cbn. rewrite !andb_true_iff. intros [[Hc Hs] _]. split; [done|]. cbn.
  by rewrite andb_true_iff; split; [unfold is_name_byte; rewrite Hc|].
Qed.

Lemma name_no_slash s : forallb is_name_byte (String.list_ascii_of_string s) = true → Forall (λ c, c ≠ "/"%char) (String.list_ascii_of_string s).
Proof.
  intros Hs. apply list.Forall_forall. intros c Hc ->. rewrite forallb_forall in Hs.
  specialize (Hs "/"%char (proj1 (list_elem_of_In _ _) Hc)). by vm_compute in Hs.
Qed.

Lemma split_name a : Forall (λ c, c ≠ "/"%char) (String.list_ascii_of_string a) → split_byte "/"%char a = [a].
Proof.
  induction a as [|c a IH]; [done|]. cbn. intros [Hc Ha]%list.Forall_cons. rewrite (IH Ha).
  by destruct (Ascii.eqb_spec c "/").
Qed.

Lemma split_path a b : Forall (λ c, c ≠ "/"%char) (String.list_ascii_of_string a) →
  split_byte "/"%char (a +:+ String "/"%char b) = a :: split_byte "/"%char b.
Proof.
  induction a as [|c a IH]; [done|]. intros [Hc Ha]%list.Forall_cons.
  change (String c a +:+ String "/"%char b) with (String c (a +:+ String "/"%char b)). cbn [split_byte].
  rewrite (IH Ha). by destruct (Ascii.eqb_spec c "/").
Qed.

Lemma list_ascii_app a b : String.list_ascii_of_string (a +:+ b) = String.list_ascii_of_string a ++ String.list_ascii_of_string b.
Proof. induction a as [|c a IH]; [done|]. change (String c a +:+ b) with (String c (a +:+ b)). cbn. by rewrite IH. Qed.

Lemma strip_slashes_name c l : c ≠ "/"%char → strip_slashes (c :: l) = c :: l.
Proof. intros Hc. cbn. by destruct (Ascii.eqb_spec c "/"). Qed.

(** A path that begins and ends with a name loses its leading slash only. *)
Lemma trim_path_name c a b : c ≠ "/"%char → is_name b → Gateway.trim_path (String "/"%char (String c (a +:+ b))) = String c (a +:+ b).
Proof.
  intros Hc [Hb Hn]. unfold Gateway.trim_path. change (String.list_ascii_of_string (String "/"%char (String c (a +:+ b))))
    with ("/"%char :: c :: String.list_ascii_of_string (a +:+ b)).
  change (strip_slashes ("/"%char :: c :: String.list_ascii_of_string (a +:+ b))) with (strip_slashes (c :: String.list_ascii_of_string (a +:+ b))).
  rewrite strip_slashes_name by done.
  change (c :: String.list_ascii_of_string (a +:+ b)) with (String.list_ascii_of_string (String c (a +:+ b))).
  assert (strip_slashes (rev (String.list_ascii_of_string (String c (a +:+ b)))) = rev (String.list_ascii_of_string (String c (a +:+ b)))) as ->.
  { change (String c (a +:+ b)) with (String c a +:+ b). rewrite list_ascii_app, rev_app_distr.
    apply name_no_slash in Hn. apply Forall_rev in Hn. rewrite <- (rev_involutive (String.list_ascii_of_string b)) in Hn.
    destruct (rev (String.list_ascii_of_string b)) as [|x l] eqn:E.
    - destruct b; [done|]. by apply (f_equal (@length _)) in E; cbn in E; rewrite length_app in E; cbn in E; lia.
    - cbn [app]. apply strip_slashes_name. rewrite rev_involutive in Hn. by apply list.Forall_cons in Hn as [Hn _]. }
  by rewrite rev_involutive, String.string_of_list_ascii_of_string.
Qed.

(** The gateway reads the tenant and the agent from the URI of the manager. *)
Lemma identity_of_uri tenant agent uri :
  is_name tenant → is_name agent → Gateway.uri_Path uri = "/tenant/" +:+ tenant +:+ "/agent/" +:+ agent →
  Gateway.identityFromURI uri = Some (Gateway.MkPeerIdentity tenant agent (Gateway.uri_String uri)).
Proof.
  intros [Ht Hnt] Ha Hp. unfold Gateway.identityFromURI. rewrite Hp.
  change ("/tenant/" +:+ tenant +:+ "/agent/" +:+ agent) with (String "/" (String "t" (("enant/" +:+ tenant +:+ "/agent/" +:+ agent)))).
  assert (("enant/" +:+ tenant +:+ "/agent/" +:+ agent) = ("enant/" +:+ tenant +:+ "/agent/") +:+ agent) as -> by by rewrite !string_app_assoc.
  rewrite trim_path_name by done. rewrite <- string_app_assoc.
  change (String "t" ("enant/" +:+ (tenant +:+ "/agent/") +:+ agent)) with ("tenant" +:+ String "/" ((tenant +:+ "/agent/") +:+ agent)).
  rewrite split_path by by repeat constructor. rewrite <- string_app_assoc. change ("/agent/" +:+ agent) with (String "/" ("agent" +:+ String "/" agent)).
  rewrite split_path by by apply name_no_slash. rewrite split_path by by repeat constructor.
  destruct Ha as [Ha Hna]. rewrite (split_name agent) by by apply name_no_slash. cbn.
  by rewrite (bool_decide_eq_false_2 _ Ht), (bool_decide_eq_false_2 _ Ha).
Qed.

(** Documented behaviour of [encoding/pem], [crypto/x509] and [net/url]: PEM
    is read back; a certificate carries the names of its template; the path
    of a URI of plain characters is what follows the host. *)
Class X509Laws `{X509} := {
  pem_roundtrip der : pem_decode (pem_encode "CERTIFICATE" der) = Some ("CERTIFICATE", der);
  signed_names template request der cert : create_certificate template request = Ok der → parse_certificate der = Ok cert →
    xc_Peer cert = Gateway.MkCertificate [tm_URI template] (tm_CommonName template);
  plain_uri host path uri : is_name host → forallb (λ c, is_name_byte c || bool_decide (c = "/"%char)) (String.list_ascii_of_string path) = true →
    parse_uri ("spiffe://" +:+ host +:+ String "/"%char path) = Ok uri → Gateway.uri_Path uri = String "/"%char path
}.

Section identity.
Context `{EnrollText} `{X509Laws} `{SliceSort} `{Postgresql} `{RangeOrder}.

Definition identifies (pem tenant agent : string) : Prop :=
  ∃ der cert principal, pem_decode pem = Some ("CERTIFICATE", der) ∧ parse_certificate der = Ok cert ∧
    ∀ metadata, Gateway.PeerAgentIdentity (Gateway.MkCaller [xc_Peer cert] metadata) = Some (Gateway.MkPeerIdentity tenant agent principal).

Record wellformed (e : Enrollment) : Prop := {
  wf_tenant : is_name (en_TenantID e);
  wf_trimmed : TrimSpace (en_TenantID e) = en_TenantID e;
  wf_agent : is_name (en_AgentID e);
  wf_issued : en_Status e = "issued" → identifies (en_IssuedCertificatePEM e) (en_TenantID e) (en_AgentID e)
}.

Lemma defaultString_trimmed t fallback : t ≠ "" → TrimSpace t = t → defaultString t fallback = t.
Proof. intros Hne Ht. unfold defaultString. rewrite Ht. by rewrite bool_decide_eq_false_2. Qed.

Lemma plain_name s : forallb is_name_byte (String.list_ascii_of_string s) = true →
  forallb (λ c, is_name_byte c || bool_decide (c = "/"%char)) (String.list_ascii_of_string s) = true.
Proof. rewrite !forallb_forall. intros Hs c Hc. by rewrite (Hs c Hc). Qed.

Lemma plain_path tenant agent : is_name tenant → is_name agent →
  forallb (λ c, is_name_byte c || bool_decide (c = "/"%char)) (String.list_ascii_of_string ("tenant/" +:+ tenant +:+ "/agent/" +:+ agent)) = true.
Proof.
  intros [_ Ht] [_ Ha]. rewrite !list_ascii_app, !forallb_app. by rewrite (plain_name _ Ht), (plain_name _ Ha).
Qed.

Lemma signAgentCSR_identifies w e csrPEM pem cert keyHash :
  is_name (trust_domain w) → wellformed e → signAgentCSR w e csrPEM = Ok (pem, cert, keyHash) → identifies pem (en_TenantID e) (en_AgentID e).
Proof.
  intros Hdomain [Ht Htr Ha _]. unfold signAgentCSR. rewrite (defaultString_trimmed _ _ (proj1 Ht) Htr).
  destruct (pem_decode csrPEM) as [[ty der]|]; [|done]. case_bool_decide; cbn [negb]; [|done].
  destruct (parse_request der) as [request|]; [|done]. destruct (check_signature request); [done|]. destruct (w_serial w) as [serial|]; [|done].
  destruct (parse_uri _) as [uri|] eqn:Eu; [|done].
  destruct (create_certificate _ request) as [der'|] eqn:Ec; [|done]. destruct (parse_certificate der') as [cert'|] eqn:Ep; [|done].
  intros [= <- <- <-]. exists der', cert', (Gateway.uri_String uri). split; [apply pem_roundtrip|]. split; [done|]. intros metadata.
  unfold Gateway.PeerAgentIdentity. rewrite (signed_names _ _ _ _ Ec Ep).
  cbn [Gateway.ca_Certificates Gateway.crt_URIs Gateway.first_some certificate_template tm_URI].
  by rewrite (identity_of_uri _ _ uri Ht Ha (plain_uri _ _ _ Hdomain (plain_path _ _ Ht Ha) Eu)).
Qed.

(** ** Enrolments are well formed *)

Lemma newEnrollment_wellformed w req actor e token ticket :
  newEnrollment w req actor = Ok (e, token, ticket) →
  is_name (en_TenantID e) ∧ TrimSpace (en_TenantID e) = en_TenantID e ∧ is_name (en_AgentID e) ∧ TrimSpace (en_AgentID e) = en_AgentID e ∧ en_Status e = "active".
Proof.
  unfold newEnrollment. destruct (enrollmentIdentityPattern (defaultString _ _)) eqn:Et; [|done].
  destruct (enrollmentIdentityPattern (TrimSpace _)) eqn:Ea; [|done]. cbn [negb]. case_bool_decide; [done|].
  destruct (validateEnrollmentGateway _ _); [done|]. cbn.
  destruct (normalizeInstallProfile _); [|done]. cbn. destruct (enrollment_ttl req); [|done]. cbn.
  destruct (newEnrollmentToken (w_random w)); [|done]. cbn. destruct (newEnrollmentToken (w_random2 w)); [|done]. cbn.
  intros [= <- <- <-]. cbn. split_and!; [by apply pattern_is_name| |by apply pattern_is_name|by rewrite TrimSpace_idem|done].
  unfold defaultString. rewrite TrimSpace_idem. case_bool_decide; [done|by rewrite TrimSpace_idem].
Qed.

Lemma prepare_wellformed w req actor deploy s e token ticket artifact :
  prepare_enrollment w req actor deploy s = Ok (e, token, ticket, artifact) →
  is_name (en_TenantID e) ∧ TrimSpace (en_TenantID e) = en_TenantID e ∧ is_name (en_AgentID e) ∧ TrimSpace (en_AgentID e) = en_AgentID e ∧ en_Status e = "active".
Proof.
  unfold prepare_enrollment. destruct (newEnrollment w req actor) as [[[e0 token0] ticket0]|] eqn:En; [|done]. apply newEnrollment_wellformed in En. cbn.
  destruct (resolve_channel w req deploy e0 s) as [[artifactID e1]|] eqn:Ec; [|done]. cbn.
  destruct (resolve_artifact w artifactID e1 s) as [[e2 resolved]|] eqn:Ea; [|done]. cbn. intros [= <- <- <- <-].
  unfold resolve_channel in Ec. unfold resolve_artifact in Ea. repeat case_match; simplify_eq; exact En.
Qed.

Lemma normalized_wellformed (now : Time) (b1 b2 : bool) e :
  is_name (en_TenantID e) → TrimSpace (en_TenantID e) = en_TenantID e → is_name (en_AgentID e) → TrimSpace (en_AgentID e) = en_AgentID e →
  en_Status e = "active" → wellformed ((normalizeEnrollment e) <| en_CreatedAt := now when b1 |> <| en_Status := "active" when b2 |>).
Proof.
  intros Ht Htr Ha Hatr Hst.
  assert (or_default (en_TenantID e) = en_TenantID e) as Hd by (unfold or_default; by rewrite bool_decide_eq_false_2 by apply Ht).
  destruct e. cbn in *. subst.
  split; cbn; rewrite ?Htr, ?Hd, ?Hatr; [done..|]. by destruct b2.
Qed.

Lemma redeem_wellformed token preview at_ e : wellformed e → wellformed (redeem token preview at_ e).
Proof. intros [Ht Htr Ha Hi]. by split. Qed.

Lemma issue_wellformed w token key k e csrPEM certPEM parsed :
  is_name (trust_domain w) → wellformed e → signAgentCSR w e csrPEM = Ok (certPEM, parsed, k) →
  wellformed (issue token key (proposed_enrollment w e certPEM k parsed)).
Proof.
  intros Hd Hwf Hs. pose proof (signAgentCSR_identifies _ _ _ _ _ _ Hd Hwf Hs) as Hid. destruct Hwf as [Ht Htr Ha _]. by split.
Qed.

Lemma creates_wellformed w s' y issued redeemed :
  fresh_enrollment w y → creates w (sy_memory y) s' → consistent y issued redeemed → (∀ x, known y x → wellformed x) →
  ∀ x, known (MkSystem s' (sy_database y)) x → wellformed x.
Proof.
  intros Hf [->|(req & actor & deploy & e & token & ticket & artifact & Hp & ->)] Hc Hwf; [by destruct y|]. intros x Hx.
  apply (create_step _ _ _ _ _ (Hf _ _ _ _ _ _ _ Hp) Hc) in Hx as [Hx|(b1 & b2 & ->)]; [by apply Hwf|].
  apply prepare_wellformed in Hp as (Ht & Htr & Ha & Hatr & Hst). by apply normalized_wellformed.
Qed.

Section runs.
Context (good : World → Prop) (Hgood : ∀ w, good w → is_name (trust_domain w)).

Definition reply_identifies (x : string * string * certificateReply) : Prop :=
  identifies (cr_CertificatePEM x.2) (cr_TenantID x.2) (cr_AgentID x.2).

Lemma certificate_reply_identifies e : wellformed e → en_Status e = "issued" → ∀ x, reply_identifies (x, certificate_reply e).
Proof.
  intros [Ht Htr Ha Hi] Hst x. unfold reply_identifies. cbn. rewrite (defaultString_trimmed _ _ (proj1 Ht) Htr). by apply Hi.
Qed.

Lemma history_identifies y issued scripts :
  history good y issued scripts → (∀ x, known y x → wellformed x) ∧ Forall reply_identifies issued.
Proof.
  induction 1 as [|w r y issued scripts Hh [IH1 IH2] Hf|w r y issued scripts Hh [IH1 IH2] Hf
    |lookup fault now clock w r y issued scripts reply y' Hh [IH1 IH2] Hw Hf Hn Hr
    |lookup fault now clock w r req key y issued scripts reply y' Hh [IH1 IH2] Hg Hw Hd Hk Hr|now fault y issued scripts Hh [IH1 IH2]
    |y issued scripts Hh [IH1 IH2]|y y' issued scripts Hh [IH1 IH2] Hm Hd].
  { split; [|constructor]. intros x [?%elem_of_nil|(k & row & Hk & _)]; [done|]. cbn in Hk. by rewrite lookup_empty in Hk. }
  all: destruct (history_refines good _ _ _ Hh) as (issued' & redeemed & Hc & _).
  - split; [|done]. by eapply creates_wellformed; [|apply enrollments_creates| |].
  - split; [|done]. by eapply creates_wellformed; [|apply deploy_creates| |].
  - split; [|done]. destruct (redeemed_step _ _ _ _ _ _ _ _ _ _ _ Hw Hf Hn Hr Hc) as (_ & _ & _ & Hknown).
    intros x [Hx|(x0 & token & preview & at_ & Hx0 & ->)]%Hknown; [by apply IH1|]. by apply redeem_wellformed, IH1.
  - destruct (issued_step _ _ _ _ _ _ _ _ _ _ _ _ _ Hw Hd Hk Hr Hc) as (issued2 & _ & _ & Hnew & Hknown).
    assert (∀ x, known y' x → wellformed x) as Hwf.
    { intros x [Hx|(x0 & certPEM & parsed & Hx0 & Hs & ->)]%Hknown; [by apply IH1|]. eapply issue_wellformed; [by apply Hgood|by apply IH1|done]. }
    split; [done|]. destruct reply; try done. apply Forall_app. split; [done|]. constructor; [|constructor].
    destruct (Hnew _ eq_refl) as (_ & e & He & Hst & ->). by apply certificate_reply_identifies; [apply Hwf|].
  - split; [|done]. intros x Hx. apply IH1. by eapply save_consistent.
  - split; [|done]. intros x [?%elem_of_nil|Hx]; [done|]. apply IH1. by right.
  - split; [|done]. intros x Hx. apply IH1. by apply (unchanged_known y y').
Qed.
End runs.

(** C8. A certificate says who its agent is: in every history of a manager
    and its database with a plain trust domain (as for single use: any
    requests, failing saves, lookups and transactions, restarts; new random
    tokens; one request or save after another), the certificate in a reply,
    presented to the gateway, is accepted for frames and batches of the tenant
    and agent of the enrolment, as the reply names them, and of no others.
    Creation admits only names that cannot be confused in the certificate's
    URI. *)
Theorem certificates_identify good y issued scripts token key c :
  history good y issued scripts → (∀ w, good w → is_name (trust_domain w)) → (token, key, c) ∈ issued →
  ∃ der cert, pem_decode (cr_CertificatePEM c) = Some ("CERTIFICATE", der) ∧ parse_certificate der = Ok cert ∧
    ∀ what metadata tenant agent,
      (∃ peer, Gateway.check_peer what (Gateway.MkCaller [xc_Peer cert] metadata) tenant agent = Ok peer) ↔
      or_default tenant = cr_TenantID c ∧ agent = cr_AgentID c.
Proof.
  intros Hh Hgood Hin. destruct (history_identifies good Hgood y issued scripts Hh) as [_ Hid]. rewrite list.Forall_forall in Hid.
  destruct (Hid _ Hin) as (der & cert & principal & Hd & Hp & Hpeer). exists der, cert. split; [done|]. split; [done|].
  intros what metadata tenant agent. unfold Gateway.check_peer. rewrite Hpeer. cbn.
  destruct (decide (cr_TenantID c = or_default tenant)) as [Ht|Ht], (decide (cr_AgentID c = agent)) as [Ha|Ha];
    rewrite ?(bool_decide_eq_true_2 _ Ht), ?(bool_decide_eq_false_2 _ Ht), ?(bool_decide_eq_true_2 _ Ha), ?(bool_decide_eq_false_2 _ Ha); cbn;
    (split; [intros [peer Hpe]|intros [Ht' Ha']]); try done; by eexists.
Qed.
End identity.

(** ** An instance

    PEM is TYPE|DATA, a certificate URI|NAME, a request for one its key; a
    request to enrol is the name of an agent, one for a certificate
    TOKEN|CSR. *)

Definition bar (s : string) : option (string * string) := let '(a, b, ok) := Cut s "|"%char in if ok then Some (a, b) else None.

Definition demo_uri (text : string) : result Gateway.URI :=
  match Cut text "/"%char with
  | (_, String _ rest, true) =>
    let '(host, path, ok) := Cut rest "/"%char in
    if ok then Ok (Gateway.MkURI (String "/"%char path) ∅ text) else Err "no path"
  | _ => Err "no host"
  end.

Definition demo_parse (der : string) : result x509Certificate :=
  match bar der with
  | Some (text, name) =>
    match demo_uri text with Ok uri => Ok (MkX509Certificate "1" name 1%Z 2%Z (Gateway.MkCertificate [uri] name)) | Err e => Err e end
  | None => Err "malformed certificate"
  end.

Global Instance URI_eq : EqDecision Gateway.URI.
Proof. solve_decision. Defined.
Global Instance Certificate_eq : EqDecision Gateway.Certificate.
Proof. solve_decision. Defined.

Definition demo_create (template : Template) : result string :=
  let der := Gateway.uri_String (tm_URI template) +:+ "|" +:+ tm_CommonName template in
  match demo_parse der with
  | Ok cert => if bool_decide (xc_Peer cert = Gateway.MkCertificate [tm_URI template] (tm_CommonName template)) then Ok der else Err "unsupported names"
  | Err e => Err e
  end.

Definition demo_x509 : X509 := {|
  csr := string;
  pem_decode := bar;
  pem_encode ty der := ty +:+ "|" +:+ der;
  parse_request := Ok;
  check_signature := λ _, None;
  csr_key := string_bytes;
  parse_uri := demo_uri;
  create_certificate template _ := demo_create template;
  parse_certificate := demo_parse;
  parse_url := λ _, None
|}.

Definition demo_enroll_text : EnrollText := {|
  decode_enrollment agent := Ok (MkEnrollmentRequest "acme" agent "" "gw:443" "" "" "" "" "" ∅ "" "");
  decode_channel := λ _, Err "unsupported";
  decode_certificate text := match bar text with Some (token, request) => Ok (MkCertificateRequest token request) | None => Err "unexpected end" end;
  decode_feed := λ _, Err "unsupported";
  decode_manifest := λ _, Err "unsupported";
  tar_entries := λ _, Err "unsupported";
  verify_manifest := λ _ _ _, None;
  duration_error := id;
  enroll_unicode := {| print_rune := λ _, false |}
|}.
Local Existing Instance demo_x509.
Local Existing Instance demo_enroll_text.
Local Existing Instance insertion_SliceSort.
Local Existing Instance elements_order.
Local Instance demo_postgresql : Postgresql := {| text_ltb := string_ltb; column_time := id |}.

Lemma Cut_slash host path : Forall (λ c, c ≠ "/"%char) (String.list_ascii_of_string host) →
  Cut (host +:+ String "/"%char path) "/"%char = (host, path, true).
Proof.
  induction host as [|c host IH]; [done|]. intros [Hc Hh]%list.Forall_cons.
  change (String c host +:+ String "/"%char path) with (String c (host +:+ String "/"%char path)). cbn [Cut].
  rewrite (IH Hh). by destruct (Ascii.eqb_spec c "/").
Qed.

Local Instance demo_x509_laws : X509Laws.
Proof.
  split.
  - done.
  - cbn. unfold demo_create. intros template request der cert Hc Hp. destruct (demo_parse _) as [cert'|] eqn:E in Hc; [|done].
    case_bool_decide as Hn; [|done]. injection Hc as <-. rewrite E in Hp. by injection Hp as <-.
  - intros host path uri [_ Hh] _. change (parse_uri ("spiffe://" +:+ host +:+ String "/"%char path)) with
      (let '(h, p, ok) := Cut (host +:+ String "/"%char path) "/"%char in
       if ok then Ok (Gateway.MkURI (String "/"%char p) ∅ ("spiffe://" +:+ host +:+ String "/"%char path)) else Err "no path").
    rewrite Cut_slash by by apply name_no_slash. by intros [= <-].
Defined.

(** The world of a request, with a database that answers *)
Definition demo_world (random random2 : list Z) (db : Database) : World :=
  MkWorld "/artifacts" "" true "CA" "/" "manager" true (λ _, "") (λ _ token, token) 1000%Z 1001%Z 1002%Z 1003%Z "stamp" (Ok random) (Ok random2) (Ok 7%Z) None
    None (λ t, Some (queryEnrollmentByTokenHash t db)) (λ b t p at_, Some (consume_ticket None 1004%Z b t p at_ db).1)
    (λ t k e c, Some (commit_issue None 1004%Z 1005%Z t k e c db).1) None None None None.

Lemma demo_connected random random2 db : connected true None 1004%Z 1005%Z db (demo_world random random2 db).
Proof. by split. Qed.

Definition demo_http (method query body : string) : Request :=
  MkRequest method "" [("ticket", query)] "" "application/json" body (Some (MkPrincipal "alice" "acme" ["admin"])).

(** The ticket of the enrolment, and the token its script carries *)
Definition demo_ticket : string := Eval vm_compute in default "" (match newEnrollmentToken (Ok (repeat 2%Z 24)) with Ok t => Some t | Err _ => None end).
Definition demo_token : string := Eval vm_compute in default "" (match newEnrollmentToken (Ok (repeat 3%Z 24)) with Ok t => Some t | Err _ => None end).

Definition w_create : World := demo_world (repeat 1%Z 24) (repeat 2%Z 24) PostgresSchema.
Definition w_later (db : Database) : World := demo_world (repeat 3%Z 24) (repeat 4%Z 24) db.
Definition r_create : Request := demo_http "POST" "" "agent-1".
Definition r_install : Request := demo_http "GET" demo_ticket "".
Definition r_certificate (key : string) : Request := demo_http "POST" "" (demo_token +:+ "|CERTIFICATE REQUEST|" +:+ key).

Definition do_install (y : System) : content * System := install None 1004%Z (w_later (sy_database y)) r_install y.
Definition do_certificate (key : string) (y : System) : content * System :=
  certificate None 1004%Z 1005%Z (w_later (sy_database y)) (r_certificate key) y.

(** The enrolment is created and saved, the ticket redeemed, the certificate
    issued; then the manager restarts. *)
Definition y_created : System := Eval vm_compute in MkSystem (enrollments w_create r_create Open).2 PostgresSchema.
Definition y_saved : System :=
  Eval vm_compute in MkSystem (sy_memory y_created) (saveTables 1004%Z None (sy_memory y_created) (sy_database y_created)).2.
Definition y_redeemed : System := Eval vm_compute in (do_install y_saved).2.
Definition y_issued : System := Eval vm_compute in (do_certificate "key-1" y_redeemed).2.
Definition y_restarted : System := Eval vm_compute in MkSystem Open (sy_database y_issued).
Definition demo_certificate : certificateReply :=
  Eval vm_compute in (match (do_certificate "key-1" y_redeemed).1 with CCertificate c => c | _ => certificate_reply zero_enrollment end).

Example enrolment_run :
  (do_install y_created).1 = fail 404 "enrollment not found" ∧
  (do_install y_saved).1 = CScript demo_token ∧
  (do_certificate "key-1" y_redeemed).1 = CCertificate demo_certificate ∧
  (do_certificate "key-1" y_restarted).1 = CCertificate demo_certificate ∧
  (do_certificate "key-2" y_restarted).1 = fail 409 "enrollment token is already bound to another key" ∧
  (do_install y_restarted).1 = fail 404 "enrollment not found".
Proof. split_and!; vm_compute; reflexivity. Qed.

Definition demo_good (w : World) : Prop := trust_domain w = "sysarmor.local".

Definition demo_key : string := Eval vm_compute in EncodeToString (Sum256 (string_bytes "key-1")).
Definition demo_token_hash : string := Eval vm_compute in TrimSpace (enrollmentTokenHash demo_token).
Definition demo_ticket_hash : string := Eval vm_compute in enrollmentTokenHash demo_ticket.

Lemma demo_created : history demo_good y_created [] [].
Proof.
  assert (y_created = MkSystem (enrollments w_create r_create (sy_memory (MkSystem Open PostgresSchema))).2 PostgresSchema) as -> by (vm_compute; reflexivity).
  apply (hi_create _ w_create r_create (MkSystem Open PostgresSchema)); [apply hi_init|]. intros req actor deploy e token ticket artifact _ x Hx.
  destruct Hx as [Hx|(k & row & Hk & _)]; [by apply elem_of_nil in Hx|]. cbn in Hk. by rewrite lookup_empty in Hk.
Qed.

Lemma demo_saved : history demo_good y_saved [] [].
Proof.
  assert (y_saved = MkSystem (sy_memory y_created) (saveTables 1004%Z None (sy_memory y_created) (sy_database y_created)).2) as -> by (vm_compute; reflexivity).
  apply hi_save, demo_created.
Qed.

(** Everything known, as a list *)
Lemma known_list y x : known y x ↔ x ∈ st_Enrollments (sy_memory y) ++ ((λ kr, row_data kr.2) <$> map_to_list (db_enrollments (sy_database y))).
Proof.
  unfold known. rewrite elem_of_app, list_elem_of_fmap. split; (intros [?|Hx]; [by left|right]).
  - destruct Hx as (k & row & Hk & <-). exists (k, row). split; [done|]. by apply elem_of_map_to_list.
  - destruct Hx as ([k row] & -> & Hk%elem_of_map_to_list). eauto.
Qed.

Lemma demo_redeemed : history demo_good y_redeemed [] [demo_ticket_hash].
Proof.
  assert (do_install y_saved = (CScript demo_token, y_redeemed)) as Hr by (vm_compute; reflexivity).
  refine (hi_install _ true None 1004%Z 1005%Z (w_later (sy_database y_saved)) r_install y_saved [] [] _ _ demo_saved (demo_connected _ _ _) _ _ Hr).
  - intros token x Ht Hx%known_list. assert (token = demo_token) as -> by (vm_compute in Ht; injection Ht as <-; reflexivity).
    revert x Hx. apply (proj1 (list.Forall_forall _ _)). apply (bool_decide_eq_true_1 _). vm_compute. reflexivity.
  - done.
Qed.

(** The certificate is handed out, and handed out again after the restart. *)
Lemma demo_enrolment_run :
  history demo_good y_restarted [(demo_token_hash, demo_key, demo_certificate); (demo_token_hash, demo_key, demo_certificate)] [demo_ticket_hash].
Proof.
  assert (decode_certificate (hq_Body (r_certificate "key-1")) = Ok (MkCertificateRequest demo_token "CERTIFICATE REQUEST|key-1")) as Hd
    by (vm_compute; reflexivity).
  assert (request_key "CERTIFICATE REQUEST|key-1" = Some demo_key) as Hk by (vm_compute; reflexivity).
  assert (∀ db, demo_good (w_later db)) as Hg by (intros db; vm_compute; reflexivity).
  assert (do_certificate "key-1" y_redeemed = (CCertificate demo_certificate, y_issued)) as H1 by (vm_compute; reflexivity).
  assert (do_certificate "key-1" y_restarted = (CCertificate demo_certificate, y_restarted)) as H2 by (vm_compute; reflexivity).
  pose proof (hi_certificate _ _ _ _ _ _ _ _ _ _ _ _ _ _ demo_redeemed (Hg _) (demo_connected _ _ _) Hd Hk H1) as Hone.
  apply hi_restart in Hone. change (MkSystem Open (sy_database y_issued)) with y_restarted in Hone.
  exact (hi_certificate _ _ _ _ _ _ _ _ _ _ _ _ _ _ Hone (Hg _) (demo_connected _ _ _) Hd Hk H2).
Qed.

Lemma http_enrollment_single_use_witness :
  (demo_key = demo_key ∧ cr_CertificatePEM demo_certificate = cr_CertificatePEM demo_certificate) ∧ NoDup [demo_ticket_hash].
Proof.
  destruct (http_enrollment_single_use demo_good y_restarted _ _ demo_enrolment_run) as [Hone Hnodup]. split; [|exact Hnodup].
  apply (Hone demo_token_hash); [left|right; left].
Defined.

Lemma certificates_identify_witness :
  cr_TenantID demo_certificate = "acme" ∧ cr_AgentID demo_certificate = "agent-1" ∧
  ∃ der cert, pem_decode (cr_CertificatePEM demo_certificate) = Some ("CERTIFICATE", der) ∧ parse_certificate der = Ok cert ∧
    ∀ what metadata tenant agent,
      (∃ peer, Gateway.check_peer what (Gateway.MkCaller [xc_Peer cert] metadata) tenant agent = Ok peer) ↔
      or_default tenant = "acme" ∧ agent = "agent-1".
Proof.
  split; [vm_compute; reflexivity|]. split; [vm_compute; reflexivity|].
  refine (certificates_identify demo_good y_restarted _ _ demo_token_hash demo_key demo_certificate demo_enrolment_run _ _).
  - intros w Hw. unfold demo_good in Hw. rewrite Hw. split; [discriminate|vm_compute; reflexivity].
  - left.
Defined.

(** ** A save that is overtaken

    [Save] exports the memory under the lock and writes it to the database
    after the lock is released.  A redemption in between is undone: the row is
    active again, and the ticket buys a second script. *)
Lemma late_save_reopens_ticket :
  let late := MkSystem (sy_memory y_redeemed) (saveTables 1006%Z None (sy_memory y_saved) (sy_database y_redeemed)).2 in
  (do_install y_redeemed).1 = fail 404 "enrollment not found" ∧ (do_install late).1 = CScript demo_token.
Proof. split; vm_compute; reflexivity. Qed.

(** ** Uploads outside the artifact directory

    [safePathSegment] lets the segment .. through, which [filepath.Join]
    resolves: the file of an upload is written outside the directory, where
    downloads refuse to read it. *)
Lemma upload_escapes :
  upload_path w_create "acme" ".." ".." ".." "art-1" "agent.tar.gz" = "/art-1/agent.tar.gz" ∧
  pathWithinDir w_create "/artifacts" "/art-1/agent.tar.gz" = false.
Proof. split; vm_compute; reflexivity. Qed.
End EnrollmentTheorems.
