(* ===== verification/AgentConfig.v ===== *)
(** * The configuration of the agent ([internal/agent/config])

    The agent reads one text file, in a small language of its own: sections
    without indentation, keys and inner sections below them, comments after a
    hash.  [parse] reads it line by line, [Validate] checks the result, and
    [LoadFile] is both on a file.  When a release is installed over a running
    agent, [MergeReleaseContent] puts the content section of the release into
    the file of the host and keeps the rest of that file.

    A reader is the bytes it gives and the error that ends them, if there is
    one.  [AgentText] has the messages of [time], and [Unicode] the printable
    characters. *)

From S2P Require Import Prelude GoStrings GoBytes GoData GoText GoFloat Engine Collection Agent.

Module AgentConfig.
Import Agent.

(** ** Texts *)

Definition newline : Ascii.ascii := byte_of 10.
Definition carriage : Ascii.ascii := byte_of 13.
Definition tab : Ascii.ascii := byte_of 9.
Definition hash : Ascii.ascii := byte_of 35.
Definition nl : string := String newline "".

(** [strings.Split] with a one-byte separator *)
Fixpoint Split (s : string) (sep : Ascii.ascii) : list string :=
  match s with
  | EmptyString => [""]
  | String c s' =>
    if Ascii.eqb c sep then "" :: Split s' sep
    else match Split s' sep with
    | line :: lines => String c line :: lines
    | [] => [String c ""]
    end
  end.

(** [strings.TrimLeft] and [strings.TrimRight] with a set of ASCII characters *)
Fixpoint TrimLeft (s cutset : string) : string :=
  match s with
  | EmptyString => ""
  | String c s' => if contains_byte cutset c then TrimLeft s' cutset else s
  end.

Fixpoint TrimRight (s cutset : string) : string :=
  match s with
  | EmptyString => ""
  | String c s' =>
    let rest := TrimRight s' cutset in
    if bool_decide (rest = "") && contains_byte cutset c then "" else String c rest
  end.

(** [strings.TrimSuffix] *)
Definition TrimSuffix (s suffix : string) : string :=
  if HasSuffix s suffix then String.substring 0 (String.length s - String.length suffix) s else s.

(** [strings.CutPrefix] *)
Definition CutPrefix (s prefix : string) : option string :=
  if HasPrefix s prefix then Some (String.substring (String.length prefix) (String.length s - String.length prefix) s) else None.

(** [bufio.ScanLines] on what a reader gives: no line for what follows the
    last newline when nothing does *)
Fixpoint drop_last_blank (lines : list string) : list string :=
  match lines with
  | [] => []
  | [line] => if bool_decide (line = "") then [] else [line]
  | line :: lines' => line :: drop_last_blank lines'
  end.

Definition scan_lines (data : string) : list string := drop_last_blank (Split data newline).

Fixpoint drop_cr (line : string) : string :=
  match line with
  | EmptyString => ""
  | String c s' => if bool_decide (s' = "") && Ascii.eqb c carriage then "" else String c (drop_cr s')
  end.

Record Reader := MkReader { rd_data : string; rd_err : option string }.
(** [bytes.NewReader] *)
Definition NewReader (data : string) : Reader := MkReader data None.

(** ** Numbers *)

Section numbers.
Context `{Unicode}.

(** The message of a [strconv.NumError] *)
Definition num_error (fn num reason : string) : string :=
  "strconv." +:+ fn +:+ ": parsing " +:+ Quote num +:+ ": " +:+ reason.

Definition invalid_syntax : string := "invalid syntax".
Definition out_of_range : string := "value out of range".

(** The digits of an unsigned number up to [max]; the first character that is
    no digit, or that makes the number too large, ends the loop. *)
Fixpoint read_digits (max n : Z) (s : string) : result Z :=
  match s with
  | EmptyString => Ok n
  | String c s' =>
    let d := (byte_val c - 48)%Z in
    if negb ((0 <=? d)%Z && (d <=? 9)%Z) then Err invalid_syntax
    else
      let n1 := (n * 10 + d)%Z in
      if (max <? n1)%Z then Err out_of_range else read_digits max n1 s'
  end.

(** [strconv.ParseUint(s, 10, 64)] *)
Definition ParseUint (s : string) : result Z :=
  if bool_decide (s = "") then Err (num_error "ParseUint" s invalid_syntax)
  else match read_digits (2 ^ 64 - 1) 0 s with
  | Ok n => Ok n
  | Err reason => Err (num_error "ParseUint" s reason)
  end.

(** [strconv.ParseInt(s, 10, 64)] and [strconv.Atoi], which differ in the name
    that their errors carry: the digits may exceed [uint64], which is out of
    range as well *)
Definition parse_int (fn s : string) : result Z :=
  let '(neg, digits) :=
    match s with
    | String c s' => if Ascii.eqb c "+"%char then (false, s') else if Ascii.eqb c "-"%char then (true, s') else (false, s)
    | EmptyString => (false, s)
    end in
  if bool_decide (digits = "") then Err (num_error fn s invalid_syntax)
  else match read_digits (2 ^ 64 - 1) 0 digits with
  | Err reason => Err (num_error fn s reason)
  | Ok un =>
    if negb neg && (2 ^ 63 <=? un)%Z then Err (num_error fn s out_of_range)
    else if neg && (2 ^ 63 <? un)%Z then Err (num_error fn s out_of_range)
    else Ok (if neg then (- un)%Z else un)
  end.
Definition ParseInt (s : string) : result Z := parse_int "ParseInt" s.
Definition Atoi (s : string) : result Z := parse_int "Atoi" s.

(** [strconv.ParseBool] *)
Definition ParseBool (s : string) : result bool :=
  if bool_decide (s ∈ ["1"; "t"; "T"; "true"; "TRUE"; "True"]) then Ok true
  else if bool_decide (s ∈ ["0"; "f"; "F"; "false"; "FALSE"; "False"]) then Ok false
  else Err (num_error "ParseBool" s invalid_syntax).

(** A product of two [int64] wraps around. *)
Fixpoint byte_size (raw : string) (units : list (string * Z)) : result Z :=
  match units with
  | [] => Err ("byte size " +:+ Quote raw +:+ " requires B, KiB, MiB, or GiB")
  | (suffix, multiplier) :: units' =>
    if HasSuffix raw suffix then
      match ParseInt (TrimSpace (TrimSuffix raw suffix)) with
      | Err _ => Err ("invalid byte size " +:+ Quote raw)
      | Ok parsed => if (parsed <=? 0)%Z then Err ("invalid byte size " +:+ Quote raw) else Ok (i64 (parsed * multiplier))
      end
    else byte_size raw units'
  end.

Definition parseByteSize (raw : string) : result Z :=
  byte_size raw [("GiB", 2 ^ 30); ("MiB", 2 ^ 20); ("KiB", 2 ^ 10); ("B", 1)]%Z.
End numbers.

(** ** The configuration *)

Record AgentSection := MkAgentSection {
  as_ID : string; as_HostID : string; as_TenantID : string; as_Token : string; as_Labels : gmap string string
}.
Global Instance AgentSection_eta : Settable AgentSection := λ x,
  MkAgentSection (as_ID x) (as_HostID x) (as_TenantID x) (as_Token x) (as_Labels x).

Record LocalStorageConfig := MkLocalStorageConfig {
  sto_MaxBytes : Z; sto_MinFreeBytes : Z; sto_SegmentSize : Z; sto_SignalMaxCount : Z
}.
Global Instance LocalStorageConfig_eta : Settable LocalStorageConfig := λ x,
  MkLocalStorageConfig (sto_MaxBytes x) (sto_MinFreeBytes x) (sto_SegmentSize x) (sto_SignalMaxCount x).

Record LocalExportConfig := MkLocalExportConfig {
  exp_RetryInitial : Z; exp_RetryMax : Z; exp_RequestTimeout : Z; exp_MaxInflight : Z; exp_WireCompression : string
}.
Global Instance LocalExportConfig_eta : Settable LocalExportConfig := λ x,
  MkLocalExportConfig (exp_RetryInitial x) (exp_RetryMax x) (exp_RequestTimeout x) (exp_MaxInflight x) (exp_WireCompression x).

Record LocalConfig := MkLocalConfig { loc_StatePath : string; loc_Storage : LocalStorageConfig; loc_Export : LocalExportConfig }.
Global Instance LocalConfig_eta : Settable LocalConfig := λ x, MkLocalConfig (loc_StatePath x) (loc_Storage x) (loc_Export x).

Record ManagerConfig := MkManagerConfig {
  mgr_Address : string; mgr_Transport : string; mgr_TLSCA : string; mgr_TLSCert : string; mgr_TLSKey : string;
  mgr_TLSServerName : string; mgr_TLSInsecure : bool
}.

Record RuntimeScope := MkRuntimeScope { rs_Type : string; rs_Selector : string }.
Global Instance RuntimeScope_eta : Settable RuntimeScope := λ x, MkRuntimeScope (rs_Type x) (rs_Selector x).

Record SensorConfig := MkSensorConfig {
  sen_Backend : string;
  sen_Mode : string;
  sen_Version : string;
  sen_BundleDir : string;
  sen_InstallDir : string;
  sen_TetraPath : string;
  sen_TetragonPath : string;
  sen_EventTransport : string;
  sen_ServerAddress : string;
  sen_CgroupRate : string;
  sen_PprofAddress : string;
  sen_GopsAddress : string;
  sen_ProcessCacheSize : Z;
  sen_DataCacheSize : Z;
  sen_EventQueueSize : Z;
  sen_RBQueueSize : string;
  sen_BTFPath : string;
  sen_BPFFSPath : string;
  sen_RequireBTF : bool;
  sen_RequireBPFFS : bool;
  sen_PolicyPath : string;
  sen_EventSource : string;
  sen_Scope : RuntimeScope;
  sen_FakeStartupEvents : Z;
  sen_ObserveOnly : bool;
  sen_Restart : string;
  sen_MaxRestarts : Z;
  sen_MaxParseErrors : Z;
  sen_MaxDroppedEvents : Z;
  sen_RestartWindow : Z
}.
Global Instance SensorConfig_eta : Settable SensorConfig := λ x,
  MkSensorConfig (sen_Backend x) (sen_Mode x) (sen_Version x) (sen_BundleDir x) (sen_InstallDir x) (sen_TetraPath x) (sen_TetragonPath x)
    (sen_EventTransport x) (sen_ServerAddress x) (sen_CgroupRate x) (sen_PprofAddress x) (sen_GopsAddress x) (sen_ProcessCacheSize x)
    (sen_DataCacheSize x) (sen_EventQueueSize x) (sen_RBQueueSize x) (sen_BTFPath x) (sen_BPFFSPath x) (sen_RequireBTF x)
    (sen_RequireBPFFS x) (sen_PolicyPath x) (sen_EventSource x) (sen_Scope x) (sen_FakeStartupEvents x) (sen_ObserveOnly x)
    (sen_Restart x) (sen_MaxRestarts x) (sen_MaxParseErrors x) (sen_MaxDroppedEvents x) (sen_RestartWindow x).

Record ContentConfig := MkContentConfig { con_DefaultPath : string; con_Path : string; con_TrustKeys : string }.
Global Instance ContentConfig_eta : Settable ContentConfig := λ x, MkContentConfig (con_DefaultPath x) (con_Path x) (con_TrustKeys x).

Record ResourceConfig := MkResourceConfig { res_MaxActiveCEPGroups : Z; res_MaxEventRefsPerSignal : Z }.
Global Instance ResourceConfig_eta : Settable ResourceConfig := λ x, MkResourceConfig (res_MaxActiveCEPGroups x) (res_MaxEventRefsPerSignal x).

(** The structs of one field (control, runtime, health and policy) are that field. *)
Record Config := MkConfig {
  c_Agent : AgentSection;
  c_Local : LocalConfig;
  c_Manager : ManagerConfig;
  c_SocketPath : string;
  c_MatcherStrategy : string;
  c_Sensor : SensorConfig;
  c_Telemetry : EffectiveTelemetry;
  c_HealthInterval : Z;
  c_PolicyPath : string;
  c_Content : ContentConfig;
  c_Resource : ResourceConfig
}.
Global Instance Config_eta : Settable Config := λ x,
  MkConfig (c_Agent x) (c_Local x) (c_Manager x) (c_SocketPath x) (c_MatcherStrategy x) (c_Sensor x) (c_Telemetry x)
    (c_HealthInterval x) (c_PolicyPath x) (c_Content x) (c_Resource x).

Definition second : Z := 10 ^ 9.

Definition zero_agent : AgentSection := MkAgentSection "" "" "" "" ∅.
Definition zero_manager : ManagerConfig := MkManagerConfig "" "" "" "" "" "" false.

Definition default_sensor : SensorConfig :=
  MkSensorConfig "tetragon" "managed" "" "" "" "" "" "grpc" "unix:///var/run/tetragon/tetragon.sock" "" "" "" 4096 128 1024 "8192" "" ""
    false false "" "" (MkRuntimeScope "" "") 0 true "always" 5 0 0 (60 * second).

Definition defaults : Config :=
  MkConfig zero_agent
    (MkLocalConfig "/var/lib/sysarmor/agent" (MkLocalStorageConfig (10 * 2 ^ 30) (2 * 2 ^ 30) (64 * 2 ^ 20) 100000)
       (MkLocalExportConfig second (30 * second) (10 * second) 1 "none"))
    zero_manager "/run/sysarmor/agent/control.sock" "linear" default_sensor DefaultTelemetryConfig (10 * second)
    "/etc/sysarmor/agent/policy.json" (MkContentConfig "" "/var/lib/sysarmor/agent/content" "") (MkResourceConfig 4096 128).

(** ** Keys *)

Section config.
Context `{Unicode} `{AgentText}.

Definition unknown (section key : string) : string := "unknown config key " +:+ section +:+ "." +:+ key.

(** A parsed value, or the error with the name of the key before it *)
Definition field {A B} (name : string) (parsed : result A) (store : A → B) : result B :=
  match parsed with Ok v => Ok (store v) | Err e => Err (name +:+ ": " +:+ e) end.

(** [time.ParseDuration] with its error *)
Definition parse_duration (value : string) : result Z :=
  match ParseDuration value with Some d => Ok d | None => Err (duration_error value) end.

Definition assignAgent (agent : AgentSection) (key value : string) : result AgentSection :=
  match CutPrefix key "label." with
  | None => Err (unknown "agent" key)
  | Some labelKey =>
    if bool_decide (TrimSpace labelKey = "") then Err (unknown "agent" key)
    else Ok (agent <| as_Labels ::= <[TrimSpace labelKey := value]> |>)
  end.

Definition assignLocalStorage (storage : LocalStorageConfig) (key raw : string) : result LocalStorageConfig :=
  if bool_decide (key = "signal_max_count") then
    field "local.storage.signal_max_count" (ParseInt raw) (λ v, storage <| sto_SignalMaxCount := v |>)
  else match parseByteSize raw with
  | Err e => Err ("local.storage." +:+ key +:+ ": " +:+ e)
  | Ok value =>
    if bool_decide (key = "max_bytes") then Ok (storage <| sto_MaxBytes := value |>)
    else if bool_decide (key = "min_free_bytes") then Ok (storage <| sto_MinFreeBytes := value |>)
    else if bool_decide (key = "segment_size") then Ok (storage <| sto_SegmentSize := value |>)
    else Err (unknown "local.storage" key)
  end.

Definition assignLocalExport (export : LocalExportConfig) (key raw : string) : result LocalExportConfig :=
  if bool_decide (key = "max_inflight") then
    field "local.export.max_inflight" (Atoi raw) (λ v, export <| exp_MaxInflight := v |>)
  else if bool_decide (key = "wire_compression") then Ok (export <| exp_WireCompression := raw |>)
  else match parse_duration raw with
  | Err e => Err ("local.export." +:+ key +:+ ": " +:+ e)
  | Ok value =>
    if bool_decide (key = "retry_initial") then Ok (export <| exp_RetryInitial := value |>)
    else if bool_decide (key = "retry_max") then Ok (export <| exp_RetryMax := value |>)
    else if bool_decide (key = "request_timeout") then Ok (export <| exp_RequestTimeout := value |>)
    else Err (unknown "local.export" key)
  end.

Definition assignSensor (s : SensorConfig) (key value : string) : result SensorConfig :=
  let on name := bool_decide (key = name) in
  if on "backend" then Ok (s <| sen_Backend := value |>)
  else if on "mode" then Ok (s <| sen_Mode := value |>)
  else if on "version" then Ok (s <| sen_Version := value |>)
  else if on "bundle_dir" then Ok (s <| sen_BundleDir := value |>)
  else if on "install_dir" then Ok (s <| sen_InstallDir := value |>)
  else if on "tetra_path" then Ok (s <| sen_TetraPath := value |>)
  else if on "tetragon_path" then Ok (s <| sen_TetragonPath := value |>)
  else if on "event_transport" then Ok (s <| sen_EventTransport := value |>)
  else if on "server_address" then Ok (s <| sen_ServerAddress := value |>)
  else if on "cgroup_rate" then Ok (s <| sen_CgroupRate := value |>)
  else if on "pprof_address" then Ok (s <| sen_PprofAddress := value |>)
  else if on "gops_address" then Ok (s <| sen_GopsAddress := value |>)
  else if on "process_cache_size" then field "sensor.process_cache_size" (Atoi value) (λ v, s <| sen_ProcessCacheSize := v |>)
  else if on "data_cache_size" then field "sensor.data_cache_size" (Atoi value) (λ v, s <| sen_DataCacheSize := v |>)
  else if on "event_queue_size" then field "sensor.event_queue_size" (Atoi value) (λ v, s <| sen_EventQueueSize := v |>)
  else if on "rb_queue_size" then Ok (s <| sen_RBQueueSize := value |>)
  else if on "btf_path" then Ok (s <| sen_BTFPath := value |>)
  else if on "bpffs_path" then Ok (s <| sen_BPFFSPath := value |>)
  else if on "require_btf" then field "sensor.require_btf" (ParseBool value) (λ b, s <| sen_RequireBTF := b |>)
  else if on "require_bpffs" then field "sensor.require_bpffs" (ParseBool value) (λ b, s <| sen_RequireBPFFS := b |>)
  else if on "event_source" then Ok (s <| sen_EventSource := value |>)
  else if on "fake_startup_events" then field "sensor.fake_startup_events" (Atoi value) (λ v, s <| sen_FakeStartupEvents := v |>)
  else if on "observe_only" then field "sensor.observe_only" (ParseBool value) (λ b, s <| sen_ObserveOnly := b |>)
  else if on "restart" then Ok (s <| sen_Restart := value |>)
  else if on "max_restarts" then field "sensor.max_restarts" (Atoi value) (λ v, s <| sen_MaxRestarts := v |>)
  else if on "max_parse_errors" then field "sensor.max_parse_errors" (ParseUint value) (λ v, s <| sen_MaxParseErrors := v |>)
  else if on "max_dropped_events" then field "sensor.max_dropped_events" (ParseUint value) (λ v, s <| sen_MaxDroppedEvents := v |>)
  else if on "restart_window" then field "sensor.restart_window" (parse_duration value) (λ d, s <| sen_RestartWindow := d |>)
  else Err (unknown "sensor" key).

Definition assignScope (s : SensorConfig) (key value : string) : result SensorConfig :=
  if bool_decide (key = "type") then Ok (s <| sen_Scope ::= λ x, x <| rs_Type := value |> |>)
  else if bool_decide (key = "selector") then Ok (s <| sen_Scope ::= λ x, x <| rs_Selector := value |> |>)
  else Err (unknown "sensor.scope" key).

Definition assignTelemetry (t : EffectiveTelemetry) (key value : string) : result EffectiveTelemetry :=
  if bool_decide (key = "max_batch_items") then field "telemetry.max_batch_items" (Atoi value) (λ v, t <| et_MaxBatchItems := v |>)
  else if bool_decide (key = "max_batch_bytes") then
    field "telemetry.max_batch_bytes" (parseByteSize value) (λ v, t <| et_MaxBatchBytes := v |>)
  else if bool_decide (key = "flush_interval") then
    field "telemetry.flush_interval" (parse_duration value) (λ d, t <| et_FlushInterval := d |>)
  else Err (unknown "telemetry" key).

Definition assignContent (c : ContentConfig) (key value : string) : result ContentConfig :=
  if bool_decide (key = "default_path") then Ok (c <| con_DefaultPath := value |>)
  else if bool_decide (key = "path") then Ok (c <| con_Path := value |>)
  else if bool_decide (key = "trust_keys") then Ok (c <| con_TrustKeys := value |>)
  else Err (unknown "content" key).

Definition assignResource (r : ResourceConfig) (key value : string) : result ResourceConfig :=
  if bool_decide (key = "max_active_cep_groups") then
    field "resource.max_active_cep_groups" (Atoi value) (λ v, r <| res_MaxActiveCEPGroups := v |>)
  else if bool_decide (key = "max_event_refs_per_signal") then
    field "resource.max_event_refs_per_signal" (Atoi value) (λ v, r <| res_MaxEventRefsPerSignal := v |>)
  else Err (unknown "resource" key).

(** A section of one key *)
Definition assign_only (section name key value : string) (set : Config) : result Config :=
  if bool_decide (key = name) then Ok set else Err (unknown section key).

Definition assign (cfg : Config) (section key value : string) : result Config :=
  let on name := bool_decide (section = name) in
  if on "agent" then a ← assignAgent (c_Agent cfg) key value; mret (cfg <| c_Agent := a |>)
  else if on "local" then assign_only section "state_path" key value (cfg <| c_Local ::= λ l, l <| loc_StatePath := value |> |>)
  else if on "local.storage" then
    v ← assignLocalStorage (loc_Storage (c_Local cfg)) key value; mret (cfg <| c_Local ::= λ l, l <| loc_Storage := v |> |>)
  else if on "local.export" then
    v ← assignLocalExport (loc_Export (c_Local cfg)) key value; mret (cfg <| c_Local ::= λ l, l <| loc_Export := v |> |>)
  else if on "control" then assign_only section "socket_path" key value (cfg <| c_SocketPath := value |>)
  else if on "runtime.feature_flags" then assign_only section "matcher_strategy" key value (cfg <| c_MatcherStrategy := value |>)
  else if on "sensor" then s ← assignSensor (c_Sensor cfg) key value; mret (cfg <| c_Sensor := s |>)
  else if on "sensor.scope" then s ← assignScope (c_Sensor cfg) key value; mret (cfg <| c_Sensor := s |>)
  else if on "telemetry" then t ← assignTelemetry (c_Telemetry cfg) key value; mret (cfg <| c_Telemetry := t |>)
  else if on "health" then
    if bool_decide (key = "interval") then field "health.interval" (parse_duration value) (λ d, cfg <| c_HealthInterval := d |>)
    else Err (unknown section key)
  else if on "policy" then assign_only section "path" key value (cfg <| c_PolicyPath := value |>)
  else if on "content" then c ← assignContent (c_Content cfg) key value; mret (cfg <| c_Content := c |>)
  else if on "resource" then r ← assignResource (c_Resource cfg) key value; mret (cfg <| c_Resource := r |>)
  else Err ("unknown section " +:+ Quote section).

(** ** Lines *)

Definition stripComment (line : string) : string := (Cut line hash).1.1.

Definition unquote (value : string) : string :=
  let value := TrimSpace value in
  let n := String.length value in
  if (2 <=? n)%nat && bool_decide (String.get 0 value = String.get (n - 1) value) &&
     bool_decide (String.get 0 value ∈ [Some double_quote; Some "'"%char])
  then String.substring 1 (n - 2) value
  else value.

Definition markConfigPath (seen : gset string) (path : string) : result (gset string) :=
  if bool_decide (path ∈ seen) then Err ("duplicate " +:+ path) else Ok ({[path]} ∪ seen).

Record Parser := MkParser { p_cfg : Config; p_root : string; p_nested : string; p_seen : gset string; p_lineNo : Z }.
Global Instance Parser_eta : Settable Parser := λ x, MkParser (p_cfg x) (p_root x) (p_nested x) (p_seen x) (p_lineNo x).

Definition initial : Parser := MkParser defaults "" "" ∅ 0.

Definition at_line {A} (p : Parser) (r : result A) : result A :=
  match r with Ok v => Ok v | Err e => Err ("line " +:+ FormatInt (p_lineNo p) +:+ ": " +:+ e) end.

(** What a line is, by its indentation and its last character *)
Inductive Line :=
| LBlank
| LSection (name : string)
| LNested (name : string)
| LKey (indent : nat) (key value : string)
| LOther.

Definition line_of (text : string) : Line :=
  let raw := stripComment text in
  let trimmed := TrimSpace raw in
  let indent := (String.length raw - String.length (TrimLeft raw " "))%nat in
  if bool_decide (trimmed = "") then LBlank
  else if (indent =? 0)%nat && HasSuffix trimmed ":" then LSection (TrimSuffix trimmed ":")
  else if (indent =? 2)%nat && HasSuffix trimmed ":" then LNested (TrimSuffix trimmed ":")
  else match Cut trimmed ":"%char with
  | (key, value, true) => LKey indent (TrimSpace key) (unquote (TrimSpace value))
  | _ => LOther
  end.

(** One iteration of the loop of [parse] *)
Definition parse_line (text : string) (p : Parser) : result Parser :=
  let p := p <| p_lineNo ::= Z.succ |> in
  match line_of text with
  | LBlank => Ok p
  | LSection root =>
    seen ← at_line p (markConfigPath (p_seen p) ("section " +:+ root));
    mret (p <| p_root := root |> <| p_seen := seen |> <| p_nested := "" |>)
  | line =>
    if bool_decide (p_root p = "") then at_line p (Err "key outside section")
    else match line with
    | LNested name =>
      let nested := p_root p +:+ "." +:+ name in
      seen ← at_line p (markConfigPath (p_seen p) ("section " +:+ nested));
      mret (p <| p_nested := nested |> <| p_seen := seen |>)
    | LKey indent key value =>
      let inner := (4 <=? indent)%nat && negb (bool_decide (p_nested p = "")) in
      let section := if inner then p_nested p else p_root p in
      let p := p <| p_nested := "" when negb inner && (indent =? 2)%nat |> in
      seen ← at_line p (markConfigPath (p_seen p) ("key " +:+ section +:+ "." +:+ key));
      cfg ← at_line p (assign (p_cfg p) section key value);
      mret (p <| p_seen := seen |> <| p_cfg := cfg |>)
    | _ => at_line p (Err "expected key: value")
    end
  end.

(** A line that fills the buffer of the scanner (64 KiB) ends the scan. *)
Fixpoint parse_lines (lines : list string) (p : Parser) : result Parser :=
  match lines with
  | [] => Ok p
  | line :: lines' =>
    if (2 ^ 16 <=? Z.of_nat (String.length line))%Z then Err "bufio.Scanner: token too long"
    else p ← parse_line (drop_cr line) p; parse_lines lines' p
  end.

Definition parse (r : Reader) : result Config :=
  p ← parse_lines (scan_lines (rd_data r)) initial;
  match rd_err r with Some e => Err e | None => Ok (p_cfg p) end.

(** ** Checks *)

Definition validMatcherStrategy (strategy : string) : bool :=
  bool_decide (ToLower (TrimSpace strategy) ∈ [""; "linear"; "optimized"]).

Definition EffectiveScope (s : SensorConfig) : result RuntimeScope :=
  scope ← Collection.NormalizeScope (rs_Type (sen_Scope s)) (rs_Selector (sen_Scope s));
  mret (MkRuntimeScope scope.1 scope.2).

Definition missing_settings (c : Config) : list string :=
  let check path value := if bool_decide (TrimSpace value = "") then [path] else [] in
  check "local.state_path" (loc_StatePath (c_Local c)) ++ check "sensor.backend" (sen_Backend (c_Sensor c)) ++
  check "sensor.mode" (sen_Mode (c_Sensor c)) ++ check "policy.path" (c_PolicyPath c).

(** [Validate] on a copy of the configuration: the transport that it sets is
    not kept. *)
Definition Validate (c : Config) : option string :=
  let sensor := c_Sensor c in
  let export := loc_Export (c_Local c) in
  let storage := loc_Storage (c_Local c) in
  let missing := missing_settings c in
  let transport := if bool_decide (sen_EventTransport sensor = "") then "grpc" else sen_EventTransport sensor in
  if (0 <? length missing)%nat then Some ("missing required config: " +:+ Join missing ", ")
  else if negb (validMatcherStrategy (c_MatcherStrategy c)) then Some "runtime.feature_flags.matcher_strategy must be linear or optimized"
  else if negb (Bool.eqb (bool_decide (mgr_TLSCert (c_Manager c) = "")) (bool_decide (mgr_TLSKey (c_Manager c) = "")))
  then Some "manager.tls_cert and manager.tls_key must be configured together"
  else if bool_decide (sen_Backend sensor ∉ ["tetragon"; "fake"]) then Some "sensor.backend must be tetragon or fake"
  else if bool_decide (sen_Mode sensor ∉ ["managed"; "external"]) then Some "sensor.mode must be managed or external"
  else if bool_decide (transport ∉ ["grpc"; "tetra"]) then Some "sensor.event_transport must be grpc or tetra"
  else if (sen_ProcessCacheSize sensor <? 0)%Z then Some "sensor.process_cache_size must be non-negative"
  else if (sen_DataCacheSize sensor <? 0)%Z then Some "sensor.data_cache_size must be non-negative"
  else if (sen_EventQueueSize sensor <? 0)%Z then Some "sensor.event_queue_size must be non-negative"
  else if (sen_MaxRestarts sensor <? 0)%Z then Some "sensor.max_restarts must be non-negative"
  else if (sen_FakeStartupEvents sensor <? 0)%Z then Some "sensor.fake_startup_events must be non-negative"
  else match EffectiveScope sensor with
  | Err e => Some ("sensor scope: " +:+ e)
  | Ok scope =>
    if bool_decide (rs_Type scope = "namespace") && negb (bool_decide (rs_Selector scope = "self"))
    then Some "sensor scope: namespace scope selector must be self"
    else match ResolveTelemetry (c_Telemetry c) None with
    | Err e => Some e
    | Ok _ =>
      if (exp_RetryInitial export <=? 0)%Z || (exp_RetryMax export <=? 0)%Z || (exp_RequestTimeout export <=? 0)%Z
      then Some "local.export retry/request timeouts must be positive"
      else if (exp_RetryMax export <? exp_RetryInitial export)%Z then Some "local.export.retry_initial must be <= local.export.retry_max"
      else if negb (exp_MaxInflight export =? 1)%Z then Some "local.export.max_inflight must be 1"
      else if (sto_MaxBytes storage <=? 0)%Z || (sto_MinFreeBytes storage <=? 0)%Z || (sto_SegmentSize storage <=? 0)%Z ||
              (sto_SignalMaxCount storage <=? 0)%Z
      then Some "local.storage limits must be positive"
      else if (c_HealthInterval c <=? 0)%Z then Some "health.interval must be positive"
      else if (res_MaxActiveCEPGroups (c_Resource c) <? 0)%Z then Some "resource.max_active_cep_groups must be non-negative"
      else if (res_MaxEventRefsPerSignal (c_Resource c) <? 0)%Z then Some "resource.max_event_refs_per_signal must be non-negative"
      else None
    end
  end.

(** [open]: what opening a file gives *)
Definition LoadFile (open : string → result Reader) (path : string) : result Config :=
  f ← open path;
  cfg ← parse f;
  let cfg := cfg <| c_Sensor ::= λ s, s <| sen_PolicyPath := c_PolicyPath cfg |> |> in
  match Validate cfg with Some e => Err e | None => Ok cfg end.

(** ** Installing a release over a configuration *)

Definition parseValidConfig (raw name : string) : result Config :=
  match parse (NewReader raw) with
  | Err e => Err ("parse " +:+ name +:+ " config: " +:+ e)
  | Ok cfg =>
    match Validate cfg with
    | Some e => Err ("validate " +:+ name +:+ " config: " +:+ e)
    | None => Ok cfg
    end
  end.

Definition renderContentConfig (content : ContentConfig) : string :=
  "content:" +:+ nl +:+ "  default_path: " +:+ Quote (con_DefaultPath content) +:+ nl +:+ "  path: " +:+ Quote (con_Path content) +:+ nl +:+
  "  trust_keys: " +:+ Quote (con_TrustKeys content) +:+ nl.

Definition blanks : string := String " "%char (String tab "").

(** [line == strings.TrimLeft(line, " \t")] *)
Definition top_level (line : string) : bool := bool_decide (line = TrimLeft line blanks).
Definition line_text (line : string) : string := TrimSpace (stripComment line).

(** The loop of [replaceTopLevelSection]: the lines before the section, and
    from the first line after it *)
Fixpoint skip_section (lines : list string) : list string :=
  match lines with
  | [] => []
  | line :: lines' => if negb (bool_decide (line_text line = "")) && top_level line then lines else skip_section lines'
  end.

Fixpoint find_section (section : string) (lines : list string) : option (list string * list string) :=
  match lines with
  | [] => None
  | line :: lines' =>
    if top_level line && bool_decide (line_text line = section +:+ ":") then Some ([], skip_section lines')
    else '(before, after) ← find_section section lines'; mret (line :: before, after)
  end.

Definition replaceTopLevelSection (raw section replacement : string) : string :=
  match find_section section (Split raw newline) with
  | None => TrimRight raw nl +:+ nl +:+ nl +:+ replacement
  | Some (before, after) => TrimRight (Join before nl) nl +:+ nl +:+ replacement +:+ TrimLeft (Join after nl) nl
  end.

Definition MergeReleaseContent (existing release : string) : result string :=
  existingConfig ← parseValidConfig existing "existing";
  releaseConfig ← parseValidConfig release "release";
  if bool_decide (TrimSpace (con_DefaultPath (c_Content releaseConfig)) = "") || bool_decide (TrimSpace (con_TrustKeys (c_Content releaseConfig)) = "")
  then Err "release content.default_path and content.trust_keys are required"
  else
    let content := MkContentConfig (con_DefaultPath (c_Content releaseConfig)) (con_Path (c_Content existingConfig)) (con_TrustKeys (c_Content releaseConfig)) in
    let merged := replaceTopLevelSection existing "content" (renderContentConfig content) in
    _ ← parseValidConfig merged "merged";
    mret merged.

(** ** The labels of an enrolment ([manager/api/http_agent_install.go]) *)

Definition yamlQuote (v : string) : string := Quote v.

Definition label_line (kv : string * string) : string := "  label." +:+ kv.1 +:+ ": " +:+ yamlQuote kv.2 +:+ nl.

Definition sorted_labels (labels : gmap string string) : list (string * string) :=
  omap (λ k, v ← labels !! k; mret (k, v)) (sort_strings (elements (dom labels))).

Definition renderAgentLabelConfig (labels : gmap string string) : string := concat_str (label_line <$> sorted_labels labels).

(** The configuration that the install script writes: the one of the
    distribution, and below it the labels *)
Definition enrolled_config (distributed : string) (labels : gmap string string) : string :=
  distributed +:+ nl +:+ "agent:" +:+ nl +:+ renderAgentLabelConfig labels +:+ nl.

(** ** What the daemon takes from it *)

Definition daemon_config (c : Config) : Agent.Config :=
  Agent.MkConfig (as_ID (c_Agent c)) (as_HostID (c_Agent c)) (as_TenantID (c_Agent c)) (as_Labels (c_Agent c))
    (rs_Type (sen_Scope (c_Sensor c))) (rs_Selector (sen_Scope (c_Sensor c))) (sen_ObserveOnly (c_Sensor c)) (c_Telemetry c)
    (Engine.MkEngineLimits (res_MaxActiveCEPGroups (c_Resource c)) (res_MaxEventRefsPerSignal (c_Resource c)))
    (c_PolicyPath c) (sen_PolicyPath (c_Sensor c)).
End config.
End AgentConfig.
