(* ===== verification/ConfigRun.v ===== *)
(** * The configuration file as lines

    The parser is related to a run over the lines of the file, [run], which
    has no line numbers and no texts: a line is blank, opens a section or
    gives a key its value, and a run ends in a configuration or stops.  Then
    what the lines of a text are, how the lines that the agent and the manager
    write are read back, and that settings of other sections do not depend on
    the content section. *)

From S2P Require Import Prelude GoStrings GoBytes GoData GoText GoFloat Engine Collection Agent AgentConfig.

Module ConfigRun.
Import Agent AgentConfig.

(** ** ASCII characters at the ends of a text *)

Definition is_ascii (c : Ascii.ascii) : bool := (byte_val c <? 128)%Z.
Definition blank_byte (c : Ascii.ascii) : bool := is_ascii c && is_space (byte_val c).

Lemma decode_ascii c s : is_ascii c = true → decode_rune c s = (byte_val c, String c "", s).
Proof. unfold is_ascii, decode_rune. by intros ->. Qed.

Lemma runes_ascii c s : is_ascii c = true → runes (String c s) = (byte_val c, String c "") :: runes s.
Proof. intros Hc. apply runes_cons, decode_ascii, Hc. Qed.

Lemma ascii_not_cont c : is_ascii c = true → is_cont (byte_val c) = false.
Proof. unfold is_ascii, is_cont. intros ?%Z.ltb_lt. destruct (Z.leb_spec 128 (byte_val c)); [lia|done]. Qed.

(** An ASCII character is no part of a rune that was begun before it. *)
Lemma decode_before_ascii c0 s c r chunk rest :
  is_ascii c = true → decode_rune c0 s = (r, chunk, rest) → decode_rune c0 (s +:+ String c "") = (r, chunk, rest +:+ String c "").
Proof.
  intros Hc. pose proof (ascii_not_cont _ Hc) as Hn. unfold decode_rune. cbn zeta.
  destruct s as [|c1 [|c2 [|c3 s]]]; rewrite ?string_app_cons, ?string_app_nil_l, ?Hn, ?andb_false_r;
    repeat match goal with |- context [if ?b then _ else _] => destruct b end; intros [= <- <- <-];
    by rewrite ?string_app_cons, ?string_app_nil_l.
Qed.

Lemma runes_snoc s c : is_ascii c = true → runes (s +:+ String c "") = runes s ++ [(byte_val c, String c "")].
Proof.
  intros Hc. induction s as [|c0 s1 r chunk rest Hd IH] using runes_ind; [by rewrite string_app_nil_l, runes_ascii|].
  rewrite (runes_cons _ _ _ _ _ Hd). pose proof (decode_before_ascii _ _ _ _ _ _ Hc Hd) as Hd'.
  rewrite string_app_cons, (runes_cons _ _ _ _ _ Hd'), IH. done.
Qed.

Lemma TrimSpace_blank_l c s : blank_byte c = true → TrimSpace (String c s) = TrimSpace s.
Proof. intros [Ha Hs]%andb_true_iff. unfold TrimSpace. rewrite runes_ascii by done. cbn. by rewrite Hs. Qed.

Lemma TrimSpace_blank_r s c : blank_byte c = true → TrimSpace (s +:+ String c "") = TrimSpace s.
Proof.
  intros [Ha Hs]%andb_true_iff. unfold TrimSpace. rewrite runes_snoc by done.
  destruct (decide (drop_spaces (runes s) = [])) as [Hnil|Hne].
  - assert (drop_spaces (runes s ++ [(byte_val c, String c "")]) = []) as ->.
    { apply drop_spaces_nil. apply Forall_app. split; [by apply drop_spaces_nil|]. by repeat constructor. }
    by rewrite Hnil.
  - assert (drop_spaces (runes s ++ [(byte_val c, String c "")]) = drop_spaces (runes s) ++ [(byte_val c, String c "")]) as ->.
    { clear -Hne. induction (runes s) as [|[r k] l IH]; [done|]. cbn in *. destruct (is_space r); [by apply IH|done]. }
    rewrite reverse_app. cbn. by rewrite Hs.
Qed.

(** A text between two ASCII characters that are no blanks is not trimmed. *)
Lemma TrimSpace_fixed c s d :
  is_ascii c = true → is_space (byte_val c) = false → is_ascii d = true → is_space (byte_val d) = false →
  TrimSpace (String c (s +:+ String d "")) = String c (s +:+ String d "").
Proof.
  intros Hc Hcs Hd Hds. unfold TrimSpace. rewrite <- string_app_cons, runes_snoc, (runes_ascii c) by done.
  rewrite <- app_comm_cons. cbn [drop_spaces]. rewrite Hcs, app_comm_cons, reverse_app, reverse_singleton.
  rewrite <- app_comm_cons. cbn [drop_spaces]. rewrite Hds, reverse_cons, app_nil_l, reverse_involutive.
  rewrite fmap_app, concat_str_app. change (String c (concat_str (runes s).*2) +:+ String d "" = String c s +:+ String d "").
  by rewrite runes_concat.
Qed.

(** ** What a part of a text has *)

Lemma contains_byte_app a b c : contains_byte (a +:+ b) c = contains_byte a c || contains_byte b c.
Proof. induction a as [|d a IH]; [done|]. rewrite string_app_cons. cbn. by rewrite IH, orb_assoc. Qed.

Lemma TrimSpace_part s : ∃ a b, s = a +:+ TrimSpace s +:+ b.
Proof.
  destruct (drop_spaces_suffix (runes s)) as [k Hk]. destruct (drop_spaces_suffix (reverse (drop_spaces (runes s)))) as [k' Hk'].
  apply (f_equal reverse) in Hk'. rewrite reverse_involutive, reverse_app in Hk'. rewrite Hk' in Hk.
  exists (concat_str k.*2), (concat_str (reverse k').*2). unfold TrimSpace.
  rewrite <- !concat_str_app, <- !fmap_app, <- Hk. by rewrite runes_concat.
Qed.

Lemma Cut_spec s c a b ok : Cut s c = (a, b, ok) → if ok then s = a +:+ String c b ∧ contains_byte a c = false else s = a ∧ contains_byte s c = false.
Proof.
  revert a b ok. induction s as [|d s IH]; intros a b ok; cbn; [by intros [= <- <- <-]|].
  destruct (Ascii.eqb_spec d c) as [->|Hne]; [by intros [= <- <- <-]|].
  destruct (Cut s c) as [[a' b'] [|]] eqn:Hc; intros [= <- <- <-]; specialize (IH _ _ _ eq_refl) as [-> Ha]; cbn; rewrite ?Ha.
  - split; [done|]. rewrite orb_false_r. by apply Ascii.eqb_neq.
  - done.
Qed.

Lemma Cut_absent s c : contains_byte s c = false → Cut s c = (s, "", false).
Proof.
  induction s as [|d s IH]; cbn; [done|]. intros [Hd Hs]%orb_false_iff. by rewrite Hd, IH.
Qed.

Lemma stripComment_no_hash s : contains_byte (stripComment s) hash = false.
Proof.
  unfold stripComment. destruct (Cut s hash) as [[a b] ok] eqn:Hc. apply Cut_spec in Hc. cbn. destruct ok; [naive_solver|].
  by destruct Hc as [-> ?].
Qed.

Lemma stripComment_no_byte s c : contains_byte s c = false → contains_byte (stripComment s) c = false.
Proof.
  unfold stripComment. destruct (Cut s hash) as [[a b] ok] eqn:Hc. apply Cut_spec in Hc. cbn. destruct ok; [|by destruct Hc as [-> _]].
  destruct Hc as [-> _]. rewrite contains_byte_app. by intros [? _]%orb_false_iff.
Qed.

Lemma substring_prefix m s : ∃ b, s = String.substring 0 m s +:+ b.
Proof.
  revert m. induction s as [|c s IH]; intros [|m]; [by exists ""|by exists ""|by exists (String c s)|].
  destruct (IH m) as [b Hb]. exists b. cbn. rewrite string_app_cons. by f_equal.
Qed.

Lemma substring_part n m s : ∃ a b, s = a +:+ String.substring n m s +:+ b.
Proof.
  revert n. induction s as [|c s IH]; intros n; [exists "", ""; by destruct n, m|]. destruct n as [|n].
  - destruct (substring_prefix m (String c s)) as [b Hb]. by exists "", b.
  - destruct (IH n) as (a & b & Hs). exists (String c a), b. cbn. rewrite string_app_cons. by f_equal.
Qed.

Lemma part_no_byte s a t b c : s = a +:+ t +:+ b → contains_byte s c = false → contains_byte t c = false.
Proof. intros ->. rewrite !contains_byte_app, !orb_false_iff. naive_solver. Qed.

Lemma TrimSpace_no_byte s c : contains_byte s c = false → contains_byte (TrimSpace s) c = false.
Proof. destruct (TrimSpace_part s) as (a & b & Hs). by apply part_no_byte with (1 := Hs). Qed.

Lemma unquote_no_byte s c : contains_byte s c = false → contains_byte (unquote s) c = false.
Proof.
  intros Hs. apply TrimSpace_no_byte in Hs. unfold unquote. case_match; [|done].
  destruct (substring_part 1 (String.length (TrimSpace s) - 2) (TrimSpace s)) as (a & b & Hp). by apply part_no_byte with (1 := Hp).
Qed.

(** A value has no character that the line without its comment does not have. *)
Lemma value_no_byte c text indent key value :
  contains_byte (stripComment text) c = false → line_of text = LKey indent key value → contains_byte value c = false.
Proof.
  intros Hno.
  unfold line_of. destruct (bool_decide _); [done|]. destruct (_ && _); [done|]. destruct (_ && _); [done|].
  destruct (Cut _ _) as [[k v] [|]] eqn:Hc; [|done]. intros [= _ _ <-]. apply Cut_spec in Hc as [Hc _].
  apply unquote_no_byte, TrimSpace_no_byte. pose proof (TrimSpace_no_byte _ _ Hno) as Ht. rewrite Hc in Ht.
  rewrite contains_byte_app in Ht. apply orb_false_iff in Ht as [_ Ht]. by apply orb_false_iff in Ht as [_ Ht].
Qed.

(** ** Lines of a text *)

Definition no_newline (s : string) : Prop := contains_byte s newline = false.

Lemma Split_nonempty s c : Split s c ≠ [].
Proof. destruct s as [|d s]; [done|]. cbn. destruct (Ascii.eqb d c); [done|]. by destruct (Split s c). Qed.

Lemma Split_app a b c : Split (a +:+ String c b) c = Split a c ++ Split b c.
Proof.
  induction a as [|d a IH].
  - rewrite string_app_nil_l. cbn. by rewrite Ascii.eqb_refl.
  - rewrite string_app_cons. cbn. rewrite IH. destruct (Ascii.eqb d c); [done|].
    pose proof (Split_nonempty a c). by destruct (Split a c).
Qed.

Lemma Split_one s c : contains_byte s c = false → Split s c = [s].
Proof.
  induction s as [|d s IH]; [done|]. cbn. intros [Hd Hs]%orb_false_iff. by rewrite Hd, IH.
Qed.

Lemma Split_Forall s c : Forall (λ line, contains_byte line c = false) (Split s c).
Proof.
  induction s as [|d s IH]; cbn; [by repeat constructor|]. destruct (Ascii.eqb d c) eqn:Hd; [by constructor|].
  destruct (Split s c) as [|line lines]; [by repeat constructor; cbn; rewrite Hd|]. inversion IH; subst.
  constructor; [|done]. cbn. by rewrite Hd.
Qed.

Lemma Split_single s c x : Split s c = [x] → s = x.
Proof.
  revert x. induction s as [|d s IH]; intros x; cbn; [by intros [= <-]|]. destruct (Ascii.eqb d c).
  - pose proof (Split_nonempty s c). by destruct (Split s c).
  - pose proof (Split_nonempty s c). destruct (Split s c) as [|y [|]]; [done| |done]. intros [= <-]. f_equal. by apply IH.
Qed.

Lemma Split_Join lines : lines ≠ [] → Forall no_newline lines → Split (Join lines nl) newline = lines.
Proof.
  intros Hne Hf. induction Hf as [|line lines Hl Hf IH]; [done|]. destruct lines as [|line' lines]; [by apply Split_one|].
  change (Split (line +:+ String newline (Join (line' :: lines) nl)) newline = line :: line' :: lines).
  by rewrite Split_app, IH, Split_one.
Qed.

(** ** Runs over lines *)

Record State := MkState { s_cfg : Config; s_root : string; s_nested : string; s_seen : gset string }.

Definition state (p : Parser) : State := MkState (p_cfg p) (p_root p) (p_nested p) (p_seen p).
Definition start : State := MkState defaults "" "" ∅.

Definition mark (path : string) (seen : gset string) : option (gset string) :=
  if bool_decide (path ∈ seen) then None else Some ({[path]} ∪ seen).

Definition key_section (s : State) (indent : nat) : string :=
  if (4 <=? indent)%nat && negb (bool_decide (s_nested s = "")) then s_nested s else s_root s.
Definition key_nested (s : State) (indent : nat) : string :=
  if negb ((4 <=? indent)%nat && negb (bool_decide (s_nested s = ""))) && (indent =? 2)%nat then "" else s_nested s.

Section run.
Context `{Unicode} `{AgentText}.

Definition step (line : Line) (s : State) : option State :=
  match line with
  | LBlank => Some s
  | LSection root => seen ← mark ("section " +:+ root) (s_seen s); mret (MkState (s_cfg s) root "" seen)
  | LNested name =>
    if bool_decide (s_root s = "") then None else
    seen ← mark ("section " +:+ s_root s +:+ "." +:+ name) (s_seen s);
    mret (MkState (s_cfg s) (s_root s) (s_root s +:+ "." +:+ name) seen)
  | LKey indent key value =>
    if bool_decide (s_root s = "") then None else
    seen ← mark ("key " +:+ key_section s indent +:+ "." +:+ key) (s_seen s);
    match AgentConfig.assign (s_cfg s) (key_section s indent) key value with
    | Ok cfg => Some (MkState cfg (s_root s) (key_nested s indent) seen)
    | Err _ => None
    end
  | LOther => None
  end.

Fixpoint run (lines : list Line) (s : State) : option State :=
  match lines with [] => Some s | line :: lines' => s ← step line s; run lines' s end.

Lemma run_app l1 l2 s : run (l1 ++ l2) s = s ← run l1 s; run l2 s.
Proof. revert s. induction l1 as [|line l1 IH]; intros s; [done|]. cbn. destruct (step line s); [apply IH|done]. Qed.

Lemma mark_path seen path : mark path seen = match markConfigPath seen path with Ok seen => Some seen | Err _ => None end.
Proof. unfold mark, markConfigPath. by case_bool_decide. Qed.

(** The loop of the parser makes the steps of the run. *)
Lemma parse_line_step text p :
  step (line_of text) (state p) = match parse_line text p with Ok q => Some (state q) | Err _ => None end.
Proof.
  unfold step, parse_line. destruct (line_of text) as [|root|name|indent key value|]; cbn [state s_root s_nested s_seen s_cfg].
  - done.
  - rewrite mark_path. cbn. by destruct (markConfigPath _ _).
  - cbn. case_bool_decide; [done|]. cbn. rewrite mark_path. by destruct (markConfigPath _ _).
  - unfold key_section, key_nested. cbn. case_bool_decide as Hr; [done|]. cbn. rewrite mark_path.
    destruct (markConfigPath _ _); [|done]. cbn. by destruct (AgentConfig.assign _ _ _ _).
  - cbn. by case_bool_decide.
Qed.

Lemma parse_lines_run lines p q :
  parse_lines lines p = Ok q → run (line_of ∘ drop_cr <$> lines) (state p) = Some (state q).
Proof.
  revert p. induction lines as [|line lines IH]; intros p; cbn [parse_lines]; [by intros [= ->]|]. case_match; [done|].
  pose proof (parse_line_step (drop_cr line) p) as Hs. destruct (parse_line (drop_cr line) p) as [p'|]; [|done].
  intros Hl%IH. cbn. by rewrite Hs.
Qed.

Definition short (line : string) : Prop := (Z.of_nat (String.length line) < 2 ^ 16)%Z.

Lemma run_parse_lines lines p s :
  Forall short lines → run (line_of ∘ drop_cr <$> lines) (state p) = Some s → ∃ q, parse_lines lines p = Ok q ∧ state q = s.
Proof.
  intros Hf. revert p. induction Hf as [|line lines Hl Hf IH]; intros p; cbn [parse_lines]; [intros [= <-]; by exists p|].
  unfold short in Hl. destruct (Z.leb_spec (2 ^ 16) (Z.of_nat (String.length line))); [lia|].
  pose proof (parse_line_step (drop_cr line) p) as Hs. cbn [fmap list_fmap run compose]. rewrite Hs.
  destruct (parse_line (drop_cr line) p) as [p'|]; [|done]. apply IH.
Qed.

(** ** Blank lines do not count *)

Definition is_blank (line : Line) : bool := match line with LBlank => true | _ => false end.
Definition solid (lines : list string) : list Line := filter (λ line, is_blank line = false) (line_of ∘ drop_cr <$> lines).
Definition lines_of (data : string) : list Line := solid (Split data newline).

Lemma solid_app l1 l2 : solid (l1 ++ l2) = solid l1 ++ solid l2.
Proof. unfold solid. by rewrite fmap_app, list.filter_app. Qed.

Lemma solid_cons line lines :
  solid (line :: lines) = (if is_blank (line_of (drop_cr line)) then [] else [line_of (drop_cr line)]) ++ solid lines.
Proof.
  unfold solid. cbn [fmap list_fmap compose]. by destruct (line_of (drop_cr line)).
Qed.

Lemma run_solid lines s : run (solid lines) s = run (line_of ∘ drop_cr <$> lines) s.
Proof.
  revert s. induction lines as [|line lines IH]; intros s; [done|]. rewrite solid_cons. cbn [fmap list_fmap compose run].
  destruct (line_of (drop_cr line)) eqn:Hl; cbn [is_blank app]; [by rewrite IH|..]; cbn [run]; (destruct (step _ s); [apply IH|done]).
Qed.

Lemma solid_blank lines : solid (lines ++ [""]) = solid lines.
Proof. rewrite solid_app. change (solid [""]) with (@nil Line). by rewrite app_nil_r. Qed.

Lemma solid_scan data : solid (scan_lines data) = lines_of data.
Proof.
  unfold scan_lines, lines_of. generalize (Split data newline). intros lines.
  induction lines as [|line [|line' lines] IH]; [done|..].
  - cbn [drop_last_blank]. case_bool_decide as Hb; [|done]. by subst.
  - change (drop_last_blank (line :: line' :: lines)) with (line :: drop_last_blank (line' :: lines)).
    by rewrite !(solid_cons line), IH.
Qed.

Lemma parse_run data cfg : parse (NewReader data) = Ok cfg → ∃ s, run (lines_of data) start = Some s ∧ s_cfg s = cfg.
Proof.
  unfold parse. cbn [rd_data rd_err NewReader]. destruct (parse_lines _ _) as [q|] eqn:Hp; [|done]. intros [= <-].
  apply parse_lines_run in Hp. rewrite <- run_solid, solid_scan in Hp. by exists (state q).
Qed.

Lemma scan_short data : Forall short (Split data newline) → Forall short (scan_lines data).
Proof.
  unfold scan_lines. induction 1 as [|line lines Hl Hf IH]; [constructor|]. destruct lines as [|line' lines]; cbn [drop_last_blank].
  - case_bool_decide; by repeat constructor.
  - by constructor.
Qed.

Lemma run_parse data s : Forall short (Split data newline) → run (lines_of data) start = Some s → parse (NewReader data) = Ok (s_cfg s).
Proof.
  intros Hf%scan_short Hr. rewrite <- solid_scan, run_solid in Hr. change start with (state initial) in Hr.
  destruct (run_parse_lines _ _ _ Hf Hr) as (q & Hq & <-). unfold parse. cbn [rd_data rd_err NewReader]. by rewrite Hq.
Qed.

(** ** The content section and the others *)

Definition with_content (c : ContentConfig) (cfg : Config) : Config := cfg <| c_Content := c |>.

Lemma with_content_twice c d cfg : with_content c (with_content d cfg) = with_content c cfg.
Proof. done. Qed.

Lemma assign_other c cfg section key value :
  section ≠ "content" →
  AgentConfig.assign (with_content c cfg) section key value =
  match AgentConfig.assign cfg section key value with Ok cfg' => Ok (with_content c cfg') | Err e => Err e end.
Proof.
  intros Hs. unfold with_content, AgentConfig.assign, assign_only, field. destruct cfg.
  cbn -[assignAgent assignLocalStorage assignLocalExport assignSensor assignScope assignTelemetry assignContent assignResource parse_duration bool_decide].
  rewrite (bool_decide_eq_false_2 (section = "content")) by done.
  repeat match goal with |- (if bool_decide ?P then ?x else _) = _ => destruct (bool_decide P); [clear; try (destruct (bool_decide _); [|reflexivity]);
    lazymatch x with context [?r ≫= _] => destruct r | context [parse_duration ?v] => destruct (parse_duration v) | _ => idtac end; reflexivity|] end.
  reflexivity.
Qed.

Lemma assign_content cfg key value :
  AgentConfig.assign cfg "content" key value =
  match assignContent (c_Content cfg) key value with Ok c => Ok (with_content c cfg) | Err e => Err e end.
Proof. unfold AgentConfig.assign. cbn -[assignContent]. by destruct (assignContent _ _ _). Qed.

Lemma assignContent_key c key value c' : assignContent c key value = Ok c' → key ∈ ["default_path"; "path"; "trust_keys"].
Proof. unfold assignContent. repeat case_bool_decide; subst; intros; set_solver. Qed.

Lemma assign_content_inner cfg name key value : ∃ e, AgentConfig.assign cfg ("content." +:+ name) key value = Err e.
Proof. unfold AgentConfig.assign. repeat (rewrite bool_decide_eq_false_2 by discriminate). by eexists. Qed.

(** After the content section: two runs that differ in the content and in
    what they have seen *)
Record outside (c : ContentConfig) (s t : State) : Prop := {
  o_root : s_root t = s_root s;
  o_nested : s_nested t = s_nested s;
  o_cfg : s_cfg t = with_content c (s_cfg s);
  o_seen_l : "section content" ∈ s_seen s;
  o_not_root : s_root s ≠ "content";
  o_not_nested : s_nested s ≠ "" → contains_byte (s_nested s) "."%char = true
}.

Lemma mark_some path seen seen' : mark path seen = Some seen' → path ∉ seen ∧ seen' = {[path]} ∪ seen.
Proof. unfold mark. case_bool_decide; [done|]. by intros [= <-]. Qed.

Lemma mark_fresh path seen : path ∉ seen → mark path seen = Some ({[path]} ∪ seen).
Proof. intros Hp. unfold mark. by rewrite bool_decide_eq_false_2. Qed.

Lemma outside_section c s t indent : outside c s t → key_section s indent ≠ "content" ∧ key_section t indent = key_section s indent.
Proof.
  intros [Hr Hn _ _ Hroot Hdot]. unfold key_section. rewrite Hr, Hn. split; [|done]. case_match; [|done].
  intros Heq. rewrite Heq in Hdot. by specialize (Hdot ltac:(done)).
Qed.

Lemma outside_step c line s t s' t' :
  outside c s t → step line s = Some s' → step line t = Some t' → outside c s' t'.
Proof.
  intros Ho. pose proof Ho as [Hr Hn Hc Hs Hroot Hdot]. destruct line as [|root|name|indent key value|]; cbn [step].
  - by intros [= <-] [= <-].
  - destruct (mark _ (s_seen s)) as [seen|] eqn:Hm; [|done]. destruct (mark _ (s_seen t)) as [seen'|] eqn:Hm'; [|done].
    apply mark_some in Hm as [Hnew ->]. intros [= <-] [= <-]. split; cbn; [done|done|done|set_solver| |done]. by intros ->.
  - rewrite Hr. case_bool_decide; [done|]. destruct (mark _ (s_seen s)) as [seen|] eqn:Hm; [|done]. destruct (mark _ (s_seen t)); [|done].
    apply mark_some in Hm as [_ ->]. intros [= <-] [= <-]. split; cbn; [done|done|done|set_solver|done|]. intros _.
    rewrite contains_byte_app. cbn. by rewrite orb_true_r.
  - destruct (outside_section _ _ _ indent Ho) as [Hsec Heq]. rewrite Hr, Heq, Hc, assign_other by done. case_bool_decide; [done|].
    destruct (mark _ (s_seen s)) as [seen|] eqn:Hm; [|done]. destruct (mark _ (s_seen t)); [|done].
    apply mark_some in Hm as [_ ->]. cbn. destruct (AgentConfig.assign _ _ _ _) as [cfg|]; [|done]. intros [= <-] [= <-].
    assert (key_nested t indent = key_nested s indent) as Hk by (unfold key_nested; by rewrite Hn).
    split; cbn; [done|done|done|set_solver|done|]. unfold key_nested. case_match; [done|exact Hdot].
  - done.
Qed.

Lemma outside_run c lines s t s' t' : outside c s t → run lines s = Some s' → run lines t = Some t' → outside c s' t'.
Proof.
  revert s t. induction lines as [|line lines IH]; intros s t Ho; cbn; [by intros [= <-] [= <-]|].
  destruct (step line s) as [s1|] eqn:Hs; [|done]. destruct (step line t) as [t1|] eqn:Ht; [|done]. cbn.
  apply IH. by eapply outside_step.
Qed.

(** Within the content section *)
Record inside (base : Config) (s : State) : Prop := {
  i_root : s_root s = "content";
  i_nested : s_nested s ≠ "" → ∃ name, s_nested s = "content." +:+ name;
  i_cfg : ∀ c, with_content c (s_cfg s) = with_content c base;
  i_seen : "section content" ∈ s_seen s
}.

Definition opens_section (line : Line) : bool := match line with LSection _ => true | _ => false end.

Lemma inside_step base line s s' : inside base s → opens_section line = false → step line s = Some s' → inside base s'.
Proof.
  intros [Hr Hn Hc Hs] Hl. destruct line as [|root|name|indent key value|]; cbn [step] in *; [by intros [= <-]|done|..|done].
  - rewrite Hr. cbn. destruct (mark _ _) as [seen|] eqn:Hm; [|done]. apply mark_some in Hm as [_ ->]. intros [= <-].
    split; cbn; [done| |done|set_solver]. intros _. by exists name.
  - rewrite Hr. cbn. destruct (mark _ _) as [seen|] eqn:Hm; [|done]. apply mark_some in Hm as [_ ->]. cbn.
    assert (∀ cfg, AgentConfig.assign (s_cfg s) (key_section s indent) key value = Ok cfg → ∃ d, cfg = with_content d (s_cfg s)) as Ha.
    { unfold key_section. destruct (_ && _) eqn:Hb.
      - apply andb_true_iff in Hb as [_ Hb%negb_true_iff%bool_decide_eq_false]. destruct (Hn Hb) as [name ->].
        destruct (assign_content_inner (s_cfg s) name key value) as [e He]. intros cfg. by rewrite He.
      - rewrite Hr, assign_content. intros cfg. destruct (assignContent _ _ _) as [d|]; [|done]. intros [= <-]. by exists d. }
    destruct (AgentConfig.assign _ _ _ _) as [cfg|]; [|done]. destruct (Ha _ eq_refl) as [d ->]. intros [= <-].
    split; cbn; [done| |done|set_solver]. unfold key_nested. case_match; [done|exact Hn].
Qed.

Lemma inside_run base lines s s' :
  inside base s → Forall (λ line, opens_section line = false) lines → run lines s = Some s' → inside base s'.
Proof.
  intros Hi Hf. revert s Hi. induction Hf as [|line lines Hl Hf IH]; intros s Hi; cbn; [by intros [= <-]|].
  destruct (step line s) as [s1|] eqn:Hs; [|done]. apply IH. by eapply inside_step.
Qed.

(** ** Lines as [replaceTopLevelSection] sees them *)

Lemma drop_cr_spec line : drop_cr line = line ∨ line = drop_cr line +:+ String carriage "".
Proof.
  induction line as [|c line IH]; [by left|]. cbn [drop_cr]. case_bool_decide as Hb; cbn [andb].
  - subst. destruct (Ascii.eqb_spec c carriage) as [->|]; [by right|by left].
  - rewrite string_app_cons. destruct IH as [->|IH]; [by left|]. right. by f_equal.
Qed.

Lemma Cut_app_absent a b c : contains_byte a c = false → (Cut (a +:+ b) c).1.1 = a +:+ (Cut b c).1.1.
Proof.
  induction a as [|d a IH]; [done|]. cbn [contains_byte]. intros [Hd Ha]%orb_false_iff. rewrite !string_app_cons. cbn [Cut]. rewrite Hd.
  specialize (IH Ha). destruct (Cut (a +:+ b) c) as [[x y] [|]] eqn:Hc; cbn in *; [by f_equal|].
  apply Cut_spec in Hc as [Hc _]. by rewrite <- IH, <- Hc.
Qed.

Lemma Cut_app_present a b c : contains_byte a c = true → (Cut (a +:+ b) c).1.1 = (Cut a c).1.1.
Proof.
  induction a as [|d a IH]; [done|]. cbn [contains_byte]. rewrite string_app_cons. cbn [Cut]. destruct (Ascii.eqb d c); [done|].
  cbn. intros Ha. specialize (IH Ha). destruct (Cut (a +:+ b) c) as [[x y] ok] eqn:H1, (Cut a c) as [[x' y'] ok'] eqn:H2.
  cbn in IH. subst. apply Cut_spec in H1, H2. destruct ok'; [|naive_solver congruence]. destruct ok; [done|].
  destruct H1 as [_ H1]. by rewrite contains_byte_app, Ha in H1.
Qed.

(** A carriage return at the end of a line is a blank. *)
Lemma line_text_cr line : line_text (drop_cr line) = line_text line.
Proof.
  destruct (drop_cr_spec line) as [->|Hl]; [done|]. rewrite Hl at 2. unfold line_text, stripComment.
  destruct (contains_byte (drop_cr line) hash) eqn:Hh.
  - by rewrite Cut_app_present.
  - rewrite Cut_app_absent, Cut_absent by done. cbn. symmetry. by apply TrimSpace_blank_r.
Qed.

Lemma drop_cr_head c line : drop_cr (String c line) = "" ∨ ∃ line', drop_cr (String c line) = String c line'.
Proof. cbn [drop_cr]. case_match; [by left|]. right. by eexists. Qed.

Lemma stripComment_head c line : stripComment (String c line) = "" ∨ ∃ line', stripComment (String c line) = String c line'.
Proof.
  unfold stripComment. cbn [Cut]. destruct (Ascii.eqb c hash); [by left|]. right. destruct (Cut line hash) as [[a b] [|]]; by eexists.
Qed.

(** The text that [line_of] measures begins as the line does. *)
Lemma raw_head line :
  stripComment (drop_cr line) = "" ∨ ∃ c a b, line = String c a ∧ stripComment (drop_cr line) = String c b.
Proof.
  destruct line as [|c line]; [by left|]. destruct (drop_cr_head c line) as [->|[l ->]]; [by left|].
  destruct (stripComment_head c l) as [->|[l' ->]]; [by left|]. right. by exists c, line, l'.
Qed.

Definition indent_of (line : string) : nat :=
  let raw := stripComment (drop_cr line) in (String.length raw - String.length (TrimLeft raw " "))%nat.

Lemma TrimLeft_length s cutset : (String.length (TrimLeft s cutset) ≤ String.length s)%nat.
Proof. induction s as [|d s IH]; [done|]. cbn [TrimLeft]. case_match; cbn; lia. Qed.

Lemma top_level_indent line : top_level line = true → indent_of line = 0%nat.
Proof.
  intros Ht%bool_decide_eq_true. unfold indent_of. destruct (raw_head line) as [->|(c & a & b & -> & ->)]; [done|].
  unfold blanks in Ht. cbn [TrimLeft contains_byte] in *. destruct (Ascii.eqb " "%char c); cbn [orb] in *; [|lia].
  apply (f_equal String.length) in Ht. pose proof (TrimLeft_length a (String " "%char (String tab ""))). cbn [String.length] in *. lia.
Qed.

Lemma indented line : top_level line = false → HasPrefix line (String tab "") = false → stripComment (drop_cr line) ≠ "" → indent_of line ≠ 0%nat.
Proof.
  intros Ht%bool_decide_eq_false Htab Hne. unfold indent_of. destruct (raw_head line) as [|(c & a & b & -> & ->)]; [done|].
  unfold blanks in Ht. cbn [TrimLeft contains_byte] in *. destruct (Ascii.eqb " "%char c); cbn [orb] in *.
  - pose proof (TrimLeft_length b " "). cbn [String.length]. lia.
  - exfalso. destruct (Ascii.eqb_spec tab c) as [<-|]; [|done]. unfold HasPrefix in Htab. cbn in Htab. by destruct a.
Qed.

Lemma line_of_shape line :
  line_of (drop_cr line) =
  if bool_decide (line_text line = "") then LBlank
  else if (indent_of line =? 0)%nat && HasSuffix (line_text line) ":" then LSection (TrimSuffix (line_text line) ":")
  else if (indent_of line =? 2)%nat && HasSuffix (line_text line) ":" then LNested (TrimSuffix (line_text line) ":")
  else match Cut (line_text line) ":"%char with
  | (key, value, true) => LKey (indent_of line) (TrimSpace key) (unquote (TrimSpace value))
  | _ => LOther
  end.
Proof. rewrite <- line_text_cr. done. Qed.

Lemma content_header line : top_level line = true → line_text line = "content:" → line_of (drop_cr line) = LSection "content".
Proof. intros Hi%top_level_indent Ht. by rewrite line_of_shape, Ht, Hi. Qed.

(** An unindented line opens a section, or is a key of the section before it. *)
Definition unindented (line : Line) : Prop :=
  match line with LSection _ | LOther => True | LKey indent _ _ => indent = 0%nat | LBlank | LNested _ => False end.

Lemma top_level_line line : top_level line = true → line_text line ≠ "" → unindented (line_of (drop_cr line)).
Proof.
  intros Hi%top_level_indent Ht. rewrite line_of_shape, bool_decide_eq_false_2, Hi by done. cbn. case_match; [done|].
  by destruct (Cut _ _) as [[? ?] [|]].
Qed.

Lemma section_line line :
  (line_text line = "" ∨ top_level line = false) → HasPrefix line (String tab "") = false → opens_section (line_of (drop_cr line)) = false.
Proof.
  rewrite line_of_shape. intros Ht Htab. case_bool_decide as Hb; [done|]. destruct Ht as [|Ht]; [done|].
  pose proof (indented line Ht Htab) as Hi. destruct (indent_of line) as [|n] eqn:Hn.
  - exfalso. apply Hi; [|done]. intros Hraw. apply Hb. rewrite <- line_text_cr. unfold line_text. by rewrite Hraw.
  - cbn [Nat.eqb andb]. case_match; [done|]. by destruct (Cut _ _) as [[? ?] [|]].
Qed.

(** ** What is written for a value is read as the value *)

Definition quoted (v : string) : string := String double_quote (v +:+ String double_quote "").

(** Values that need no escapes *)
Definition plain (v : string) : bool := bool_decide (Quote v = quoted v).

Lemma TrimSpace_quoted v : TrimSpace (quoted v) = quoted v.
Proof. by apply TrimSpace_fixed. Qed.

Lemma get_last s c : String.get (String.length s) (s +:+ String c "") = Some c.
Proof. induction s as [|d s IH]; [done|]. exact IH. Qed.

Lemma unquote_quoted v : unquote (quoted v) = v.
Proof.
  unfold unquote. rewrite TrimSpace_quoted. unfold quoted. cbn [String.length]. rewrite string_length_app. cbn [String.length].
  rewrite Nat.add_comm. cbn [Nat.add Nat.leb Nat.sub]. rewrite Nat.sub_0_r.
  change (String.get (S (String.length v)) (String double_quote (v +:+ String double_quote ""))) with (String.get (String.length v) (v +:+ String double_quote "")).
  rewrite get_last. cbn [String.get]. rewrite bool_decide_eq_true_2, bool_decide_eq_true_2 by (done || set_solver). cbn [andb String.substring].
  change (String.substring 0 (String.length v) (v +:+ String double_quote "") = v).
  induction v as [|c v IH]; [done|]. rewrite string_app_cons. cbn. by f_equal.
Qed.

Lemma drop_cr_quote s : drop_cr (s +:+ String double_quote "") = s +:+ String double_quote "".
Proof.
  induction s as [|c s IH]; [done|]. rewrite string_app_cons. cbn [drop_cr]. rewrite IH, bool_decide_eq_false_2; [done|]. by destruct s.
Qed.

Lemma HasSuffix_quote s : HasSuffix (s +:+ String double_quote "") ":" = false.
Proof.
  apply not_true_iff_false. intros [r Hr]%HasSuffix_spec. pose proof (get_last s double_quote) as H1. pose proof (get_last r ":"%char) as H2.
  assert (String.length s = String.length r) as Hl by (apply (f_equal String.length) in Hr; rewrite !string_length_app in Hr; cbn in Hr; lia).
  rewrite Hr, Hl in H1. rewrite H1 in H2. done.
Qed.

(** A key as it may be written *)
Definition key_text (key : string) : Prop :=
  TrimSpace key = key ∧ contains_byte key ":"%char = false ∧ contains_byte key hash = false ∧
  match key with String c _ => is_ascii c = true ∧ is_space (byte_val c) = false | EmptyString => False end.

Lemma key_line key v :
  key_text key → contains_byte v hash = false → line_of (drop_cr ("  " +:+ key +:+ ": " +:+ quoted v)) = LKey 2 key v.
Proof.
  intros (Htrim & Hcolon & Hhash & Hhead) Hv. set (body := key +:+ ": " +:+ quoted v).
  assert (body = (key +:+ ": " +:+ String double_quote v) +:+ String double_quote "") as Hbody.
  { unfold body, quoted. rewrite <- !string_app_assoc. by rewrite <- string_app_cons. }
  assert (contains_byte ("  " +:+ body) hash = false) as Hno.
  { assert (∀ x, contains_byte (String double_quote x) hash = contains_byte x hash) as Hq by done.
    unfold body, quoted. by rewrite !contains_byte_app, Hhash, !Hq, contains_byte_app, Hv. }
  assert (stripComment ("  " +:+ body) = "  " +:+ body) as Hraw by (unfold stripComment; by rewrite Cut_absent).
  assert (TrimSpace ("  " +:+ body) = body) as Hbt.
  { change ("  " +:+ body) with (String " " (String " " body)). rewrite !TrimSpace_blank_l by done. rewrite Hbody.
    destruct key as [|c key]; [done|]. destruct Hhead. rewrite !string_app_cons. by apply TrimSpace_fixed. }
  assert (drop_cr ("  " +:+ body) = "  " +:+ body) as -> by (rewrite Hbody, string_app_assoc; apply drop_cr_quote).
  unfold line_of. rewrite Hraw, Hbt. rewrite bool_decide_eq_false_2 by (destruct key; [done|discriminate]).
  assert (TrimLeft ("  " +:+ body) " " = body) as ->.
  { change ("  " +:+ body) with (String " " (String " " body)). cbn. unfold body. destruct key as [|c key]; [done|]. destruct Hhead as [_ Hs].
    rewrite string_app_cons. cbn [TrimLeft contains_byte]. destruct (Ascii.eqb_spec " "%char c) as [<-|]; [done|]. done. }
  assert (String.length ("  " +:+ body) - String.length body = 2)%nat as -> by (rewrite string_length_app; cbn [String.length]; lia).
  assert (HasSuffix body ":" = false) as -> by (rewrite Hbody; apply HasSuffix_quote). cbn [Nat.eqb andb].
  assert (Cut body ":"%char = (key, String " " (quoted v), true)) as ->.
  { unfold body. clear -Hcolon. induction key as [|c key IH]; [done|]. cbn [contains_byte] in Hcolon. apply orb_false_iff in Hcolon as [Hc Hk].
    rewrite string_app_cons. cbn [Cut]. by rewrite Hc, IH. }
  by rewrite Htrim, TrimSpace_blank_l, TrimSpace_quoted, unquote_quoted.
Qed.

(** ** Values of a file *)

Definition clean_text (v : string) : Prop := contains_byte v hash = false ∧ no_newline v.
Definition clean_line (line : Line) : Prop := match line with LKey _ _ value => clean_text value | _ => True end.
Definition clean_content (c : ContentConfig) : Prop :=
  clean_text (con_DefaultPath c) ∧ clean_text (con_Path c) ∧ clean_text (con_TrustKeys c).

Lemma drop_cr_no_byte line c : contains_byte line c = false → contains_byte (drop_cr line) c = false.
Proof. destruct (drop_cr_spec line) as [->|Hl]; [done|]. rewrite Hl at 1. rewrite contains_byte_app. by intros [? _]%orb_false_iff. Qed.

Lemma lines_of_clean data : Forall clean_line (lines_of data).
Proof.
  apply list.Forall_forall. intros l [_ (line & -> & Hl)%list_elem_of_fmap]%list_elem_of_filter. pose proof (Split_Forall data newline) as Hf.
  rewrite list.Forall_forall in Hf. specialize (Hf line Hl). unfold compose. destruct (line_of (drop_cr line)) eqn:Hline; cbn; try done. split.
  - eapply value_no_byte; [apply stripComment_no_hash|exact Hline].
  - eapply value_no_byte; [|exact Hline]. by apply stripComment_no_byte, drop_cr_no_byte.
Qed.

Lemma assign_keeps_content cfg section key value cfg' :
  section ≠ "content" → AgentConfig.assign cfg section key value = Ok cfg' → c_Content cfg' = c_Content cfg.
Proof.
  intros Hs Ha. pose proof (assign_other (c_Content cfg) cfg section key value Hs) as Ho. rewrite Ha in Ho.
  assert (with_content (c_Content cfg) cfg = cfg) as Heta by (by destruct cfg). rewrite Heta, Ha in Ho. injection Ho as Ho. by rewrite Ho.
Qed.

Lemma assign_clean cfg section key value cfg' :
  clean_text value → clean_content (c_Content cfg) → AgentConfig.assign cfg section key value = Ok cfg' → clean_content (c_Content cfg').
Proof.
  intros Hv (H1 & H2 & H3) Ha. destruct (decide (section = "content")) as [->|Hne]; [|by rewrite (assign_keeps_content _ _ _ _ _ Hne Ha)].
  rewrite assign_content in Ha. unfold assignContent in Ha. repeat case_bool_decide; [..|done]; injection Ha as <-; (split; [|split]); assumption.
Qed.

Lemma run_clean lines s t : Forall clean_line lines → clean_content (c_Content (s_cfg s)) → run lines s = Some t → clean_content (c_Content (s_cfg t)).
Proof.
  intros Hf. revert s. induction Hf as [|line lines Hl Hf IH]; intros s Hs; cbn [run]; [by intros [= <-]|].
  destruct (step line s) as [s1|] eqn:Hstep; [|done]. apply IH. destruct line; cbn [step] in Hstep.
  - by injection Hstep as <-.
  - destruct (mark _ _); [|done]. by injection Hstep as <-.
  - case_bool_decide; [done|]. destruct (mark _ _); [|done]. by injection Hstep as <-.
  - case_bool_decide; [done|]. destruct (mark _ _); [|done]. cbn in Hstep. destruct (AgentConfig.assign _ _ _ _) as [cfg|] eqn:Ha; [|done].
    injection Hstep as <-. by eapply assign_clean.
  - done.
Qed.

Lemma parse_clean data cfg : parse (NewReader data) = Ok cfg → clean_content (c_Content cfg).
Proof. intros (s & Hr & <-)%parse_run. eapply run_clean; [apply lines_of_clean| |exact Hr]. done. Qed.

(** ** The section that a release writes *)

Definition content_section (c : ContentConfig) : list Line :=
  [LSection "content"; LKey 2 "default_path" (con_DefaultPath c); LKey 2 "path" (con_Path c); LKey 2 "trust_keys" (con_TrustKeys c)].

Definition plain_content (c : ContentConfig) : Prop :=
  plain (con_DefaultPath c) = true ∧ plain (con_Path c) = true ∧ plain (con_TrustKeys c) = true.

Definition rendered_lines (c : ContentConfig) : list string :=
  ["content:"; "  default_path: " +:+ quoted (con_DefaultPath c); "  path: " +:+ quoted (con_Path c); "  trust_keys: " +:+ quoted (con_TrustKeys c)].

Lemma quoted_no_newline prefix v : no_newline prefix → no_newline v → no_newline (prefix +:+ quoted v).
Proof.
  unfold no_newline, quoted. intros Hp Hv. assert (∀ x, contains_byte (String double_quote x) newline = contains_byte x newline) as Hq by done.
  by rewrite contains_byte_app, Hp, Hq, contains_byte_app, Hv.
Qed.

Lemma rendered_split c tail :
  plain_content c → clean_content c → Split (renderContentConfig c +:+ tail) newline = rendered_lines c ++ Split tail newline.
Proof.
  intros (P1 & P2 & P3) ((_ & N1) & (_ & N2) & (_ & N3)). unfold renderContentConfig.
  apply bool_decide_eq_true in P1, P2, P3. rewrite P1, P2, P3. rewrite <- !string_app_assoc.
  assert (∀ a b, Split (a +:+ nl +:+ b) newline = Split a newline ++ Split b newline) as Hs by (intros; apply Split_app).
  rewrite Hs. rewrite (string_app_assoc "  default_path: "), Hs, (string_app_assoc "  path: "), Hs, (string_app_assoc "  trust_keys: "), Hs.
  rewrite !(Split_one (_ +:+ quoted _)) by (by apply quoted_no_newline). done.
Qed.

Lemma solid_rendered c : clean_content c → solid (rendered_lines c) = content_section c.
Proof.
  intros ((H1 & _) & (H2 & _) & (H3 & _)). unfold rendered_lines. rewrite !solid_cons.
  change ("  default_path: " +:+ quoted (con_DefaultPath c)) with ("  " +:+ "default_path" +:+ ": " +:+ quoted (con_DefaultPath c)).
  change ("  path: " +:+ quoted (con_Path c)) with ("  " +:+ "path" +:+ ": " +:+ quoted (con_Path c)).
  change ("  trust_keys: " +:+ quoted (con_TrustKeys c)) with ("  " +:+ "trust_keys" +:+ ": " +:+ quoted (con_TrustKeys c)).
  by rewrite !key_line.
Qed.

(** What running it does *)
Definition content_paths : gset string := {["key content.default_path"; "key content.path"; "key content.trust_keys"]}.

Lemma content_key_step key v s c :
  s_root s = "content" → s_nested s = "" → ("key content." +:+ key) ∉ s_seen s → assignContent (c_Content (s_cfg s)) key v = Ok c →
  step (LKey 2 key v) s = Some (MkState (with_content c (s_cfg s)) "content" "" ({["key content." +:+ key]} ∪ s_seen s)).
Proof.
  intros Hr Hn Hp Ha. cbn [step]. unfold key_section, key_nested. cbn [Nat.leb Nat.eqb andb negb]. rewrite Hr, mark_fresh by exact Hp.
  cbn. by rewrite assign_content, Ha.
Qed.

Lemma content_section_run c s :
  "section content" ∉ s_seen s → (∀ path, path ∈ content_paths → path ∉ s_seen s) →
  run (content_section c) s = Some (MkState (with_content c (s_cfg s)) "content" "" (content_paths ∪ {["section content"]} ∪ s_seen s)).
Proof.
  intros Hnew Hkeys. unfold content_section. cbn [run]. unfold content_paths in *.
  assert (step (LSection "content") s = Some (MkState (s_cfg s) "content" "" ({["section content"]} ∪ s_seen s))) as ->.
  { cbn [step]. by rewrite mark_fresh. }
  cbn [mbind option_bind].
  do 3 (erewrite content_key_step; [|done|done|cbn [s_seen]; set_solver|reflexivity]; cbn [mbind option_bind]).
  cbn [s_seen s_cfg]. destruct c. do 2 f_equal. set_solver.
Qed.
End run.
End ConfigRun.
