(* ===== verification/ConfigTheorems.v ===== *)
(** * The configuration: merging a release, labels, what a file can set

    [merge_keeps_settings]: installing a release over a host replaces the
    default content and its keys, and nothing else of the configuration.
    [labels_arrive]: the agent reads the labels that the manager wrote into
    the configuration of an enrolled host.  [file_sets_no_identity]: a file
    that loads names no manager and no identity, and its numbers are within
    the limits that the daemon relies on. *)

From S2P Require Import Prelude GoStrings GoBytes GoData GoText GoFloat DataPlane Segment LocalStore Engine Health Collection ContentStore Agent AgentConfig ConfigRun.

Module ConfigTheorems.
Import Agent AgentConfig ConfigRun.

Section run.
Context `{Unicode} `{AgentText}.

(** ** Merged files *)

(** Only the content section marks its keys. *)
Lemma content_path_section section key : ("key " +:+ section +:+ "." +:+ key) ∈ content_paths → section = "content".
Proof.
  intros Hp. assert (∃ k, section +:+ String "."%char key = "content" +:+ String "."%char k ∧ contains_byte k "."%char = false) as (k & Heq & Hk).
  { unfold content_paths in Hp. rewrite !elem_of_union, !elem_of_singleton in Hp.
    destruct Hp as [[Hp|Hp]|Hp]; [exists "default_path"|exists "path"|exists "trust_keys"]; (split; [|done]); injection Hp as Hp; exact Hp. }
  apply (f_equal (λ s, Split s "."%char)) in Heq. rewrite !Split_app, (Split_one k) in Heq by done. cbn [Split Ascii.eqb] in Heq.
  pose proof (Split_nonempty key "."%char). destruct (Split section "."%char) as [|x [|y l]] eqn:Hs; [by apply Split_nonempty in Hs| |].
  - injection Heq as Hx _. apply Split_single in Hs. by rewrite Hs, Hx.
  - injection Heq as _ Hl. destruct l; [|done]. by destruct (Split key "."%char).
Qed.

Record well_marked (s : State) : Prop := {
  wm_root : s_root s ≠ "" → ("section " +:+ s_root s) ∈ s_seen s;
  wm_nested : s_nested s ≠ "" → contains_byte (s_nested s) "."%char = true;
  wm_keys : ∀ path, path ∈ content_paths → path ∈ s_seen s → "section content" ∈ s_seen s
}.

Lemma section_not_key name : ("section " +:+ name) ∉ content_paths.
Proof. unfold content_paths. rewrite !elem_of_union, !elem_of_singleton. intros [[Hp|Hp]|Hp]; discriminate Hp. Qed.

Lemma well_marked_step line s s' : well_marked s → step line s = Some s' → well_marked s'.
Proof.
  intros [Hr Hn Hk]. destruct line as [|root|name|indent key value|]; cbn [step]; [by intros [= <-]|..|done].
  - destruct (mark _ _) as [seen|] eqn:Hm; [|done]. apply mark_some in Hm as [_ ->]. intros [= <-]. split; cbn; [set_solver|done|].
    intros path Hp. rewrite !elem_of_union, !elem_of_singleton. intros [->|]; [by apply section_not_key in Hp|]. right. by eapply Hk.
  - case_bool_decide; [done|]. destruct (mark _ _) as [seen|] eqn:Hm; [|done]. apply mark_some in Hm as [_ ->]. intros [= <-]. split; cbn.
    + set_solver.
    + intros _. rewrite contains_byte_app. cbn. by rewrite orb_true_r.
    + intros path Hp. rewrite !elem_of_union, !elem_of_singleton. intros [->|]; [by apply section_not_key in Hp|]. right. by eapply Hk.
  - case_bool_decide as Hroot; [done|]. destruct (mark _ _) as [seen|] eqn:Hm; [|done]. apply mark_some in Hm as [_ ->]. cbn.
    destruct (AgentConfig.assign _ _ _ _) as [cfg|]; [|done]. intros [= <-]. split; cbn.
    + set_solver.
    + unfold key_nested. case_match; [done|exact Hn].
    + intros path Hp. rewrite !elem_of_union, !elem_of_singleton. intros [->|Hs]; right; [|by eapply Hk].
      apply content_path_section in Hp. unfold key_section in Hp. destruct (_ && _) eqn:Hb; [|rewrite Hp in Hr; by apply Hr].
      rewrite Hp in Hn. discriminate Hn. done.
Qed.

Lemma well_marked_run lines s s' : well_marked s → run lines s = Some s' → well_marked s'.
Proof.
  revert s. induction lines as [|line lines IH]; intros s Hs; cbn; [by intros [= <-]|].
  destruct (step line s) as [s1|] eqn:Hstep; [|done]. apply IH. by eapply well_marked_step.
Qed.

(** A run that has marked less, the keys of the content apart, goes as far. *)
Definition marks_less (s t : State) : Prop := s_seen t ⊆ s_seen s ∪ content_paths.

Lemma mark_less path s t seen : marks_less s t → path ∉ content_paths → mark path (s_seen s) = Some seen → ∃ seen', mark path (s_seen t) = Some seen' ∧ seen' ⊆ seen ∪ content_paths.
Proof.
  unfold marks_less. intros Hl Hp [Hnew ->]%mark_some. exists ({[path]} ∪ s_seen t). split; [|set_solver]. apply mark_fresh. set_solver.
Qed.

Lemma outside_progress c line s t s' :
  outside c s t → marks_less s t → step line s = Some s' → ∃ t', step line t = Some t' ∧ marks_less s' t'.
Proof.
  intros Ho Hl. pose proof Ho as [Hr Hn Hc Hs Hroot Hdot]. destruct line as [|root|name|indent key value|]; cbn [step]; [intros [= <-]; by exists t|..|done].
  - destruct (mark _ (s_seen s)) as [seen|] eqn:Hm; [|done]. intros [= <-].
    destruct (mark_less _ _ _ _ Hl (section_not_key _) Hm) as (seen' & -> & Hsub). by eexists.
  - rewrite Hr. case_bool_decide; [done|]. destruct (mark _ (s_seen s)) as [seen|] eqn:Hm; [|done]. intros [= <-].
    destruct (mark_less _ _ _ _ Hl (section_not_key _) Hm) as (seen' & -> & Hsub). by eexists.
  - destruct (outside_section _ _ _ indent Ho) as [Hsec Heq]. rewrite Hr, Heq, Hc, assign_other by done. case_bool_decide; [done|].
    destruct (mark _ (s_seen s)) as [seen|] eqn:Hm; [|done]. cbn. destruct (AgentConfig.assign _ _ _ _) as [cfg|]; [|done]. intros [= <-].
    assert (("key " +:+ key_section s indent +:+ "." +:+ key) ∉ content_paths) as Hp by (by intros Hp%content_path_section).
    destruct (mark_less _ _ _ _ Hl Hp Hm) as (seen' & -> & Hsub). by eexists.
Qed.

Lemma outside_run_progress c lines s t s' :
  outside c s t → marks_less s t → run lines s = Some s' → ∃ t', run lines t = Some t' ∧ s_cfg t' = with_content c (s_cfg s').
Proof.
  revert s t. induction lines as [|line lines IH]; intros s t Ho Hl; cbn.
  { intros [= <-]. exists t. split; [done|]. apply Ho. }
  destruct (step line s) as [s1|] eqn:Hs; [|done]. destruct (outside_progress _ _ _ _ _ Ho Hl Hs) as (t1 & Ht & Hl1). rewrite Ht. cbn.
  apply IH; [|done]. by eapply outside_step.
Qed.

Lemma step_mono line s s' : step line s = Some s' → s_seen s ⊆ s_seen s'.
Proof.
  destruct line; cbn [step]; [by intros [= <-]|..|done].
  - destruct (mark _ _) as [seen|] eqn:Hm; [|done]. apply mark_some in Hm as [_ ->]. intros [= <-]. cbn. set_solver.
  - case_bool_decide; [done|]. destruct (mark _ _) as [seen|] eqn:Hm; [|done]. apply mark_some in Hm as [_ ->]. intros [= <-]. cbn. set_solver.
  - case_bool_decide; [done|]. destruct (mark _ _) as [seen|] eqn:Hm; [|done]. apply mark_some in Hm as [_ ->]. cbn.
    destruct (AgentConfig.assign _ _ _ _); [|done]. intros [= <-]. cbn. set_solver.
Qed.

Lemma run_mono lines s s' : run lines s = Some s' → s_seen s ⊆ s_seen s'.
Proof.
  revert s. induction lines as [|line lines IH]; intros s; cbn; [by intros [= <-]|].
  destruct (step line s) as [s1|] eqn:Hs; [|done]. intros Hr%IH. apply step_mono in Hs. set_solver.
Qed.

Lemma well_marked_start : well_marked start.
Proof. by split. Qed.

(** A file with a content section, and the file with another one in its place:
    where the two runs are after the section *)
Lemma merged_states before inner after c e :
  run (before ++ LSection "content" :: inner ++ after) start = Some e → Forall (λ line, opens_section line = false) inner →
  ∃ x y, run after x = Some e ∧ run (before ++ content_section c ++ after) start = run after y ∧ s_cfg y = with_content c (s_cfg x) ∧
    s_root x = "content" ∧ "section content" ∈ s_seen x ∧ s_root y = "content" ∧ content_paths ⊆ s_seen y ∧ marks_less x y.
Proof.
  rewrite run_app. destruct (run before start) as [b|] eqn:Hb; [|done]. cbn [mbind option_bind]. intros He Hin.
  pose proof (well_marked_run _ _ _ well_marked_start Hb) as [_ _ Hkeys].
  cbn [run] in He. destruct (step (LSection "content") b) as [b1|] eqn:Hb1; [|done]. cbn [mbind option_bind] in He. rewrite run_app in He.
  destruct (run inner b1) as [x|] eqn:Hx; [|done]. cbn [mbind option_bind] in He.
  cbn [step] in Hb1. destruct (mark _ _) as [seen|] eqn:Hm; [|done]. apply mark_some in Hm as [Hnew ->]. injection Hb1 as <-.
  assert (inside (s_cfg b) x) as [Hr _ Hc Hs].
  { eapply inside_run; [|exact Hin|exact Hx]. split; cbn; [done|done|done|]. apply elem_of_union_l. by apply elem_of_singleton. }
  apply run_mono in Hx. cbn [s_seen] in Hx. change ("section " +:+ "content") with "section content" in *.
  exists x, (MkState (with_content c (s_cfg b)) "content" "" (content_paths ∪ {["section content"]} ∪ s_seen b)).
  rewrite !run_app, Hb. cbn [mbind option_bind]. rewrite run_app, content_section_run; [|done|].
  - cbn. repeat split; [done|by rewrite Hc|done|done|set_solver|unfold marks_less; cbn; set_solver].
  - intros path Hp Hseen. apply Hnew. by eapply Hkeys.
Qed.

(** The first line after the section opens a section in both runs, or stops
    the second. *)
Lemma after_section c name x y x' :
  s_cfg y = with_content c (s_cfg x) → "section content" ∈ s_seen x → marks_less x y → step (LSection name) x = Some x' →
  ∃ y', step (LSection name) y = Some y' ∧ outside c x' y' ∧ marks_less x' y'.
Proof.
  intros Hc Hs Hl. cbn [step]. destruct (mark _ (s_seen x)) as [seen|] eqn:Hm; [|done]. intros [= <-].
  destruct (mark_less _ _ _ _ Hl (section_not_key _) Hm) as (seen' & -> & Hsub). apply mark_some in Hm as [Hnew ->].
  eexists. split; [done|]. split; [|done]. split; cbn; [done|done|done|set_solver| |done]. by intros ->.
Qed.

Lemma content_key_twice indent key value x y x' :
  (indent < 4)%nat → s_root x = "content" → s_root y = "content" → content_paths ⊆ s_seen y →
  step (LKey indent key value) x = Some x' → step (LKey indent key value) y = None.
Proof.
  intros Hi Hx Hy Hsub. cbn [step]. unfold key_section. destruct (Nat.leb_spec 4 indent); [lia|]. cbn [andb]. rewrite Hx, Hy. cbn.
  destruct (mark _ (s_seen x)); [|done]. cbn. rewrite assign_content. destruct (assignContent _ _ _) as [d|] eqn:Ha; [|done]. intros _.
  apply assignContent_key in Ha. assert (("key content." +:+ key) ∈ content_paths) as Hp.
  { unfold content_paths. rewrite !elem_of_cons, elem_of_nil in Ha. destruct Ha as [->|[->|[->|[]]]]; set_solver. }
  case_bool_decide; [done|]. unfold mark. rewrite bool_decide_eq_true_2; [done|]. by apply Hsub.
Qed.

Lemma merged_run before inner after c e m :
  run (before ++ LSection "content" :: inner ++ after) start = Some e → Forall (λ line, opens_section line = false) inner →
  (∀ line lines, after = line :: lines → unindented line) →
  run (before ++ content_section c ++ after) start = Some m → s_cfg m = with_content c (s_cfg e).
Proof.
  intros He Hin Hhead. destruct (merged_states _ _ _ c _ He Hin) as (x & y & Hx & -> & Hc & Hr & Hs & Hry & Hk & Hl).
  destruct after as [|line after]; cbn [run] in *; [by injection Hx as <-; intros [= <-]|].
  specialize (Hhead _ _ eq_refl). destruct (step line x) as [x1|] eqn:Hx1; [|done]. cbn [mbind option_bind] in Hx.
  destruct line as [|name|name|indent key value|]; try done.
  - destruct (after_section c name x y x1) as (y1 & -> & Ho & _); [done..|]. cbn [mbind option_bind]. intros Hm.
    by destruct (outside_run _ _ _ _ _ _ Ho Hx Hm).
  - cbn in Hhead. subst indent. by rewrite (content_key_twice _ _ _ x y x1) by (done || lia).
Qed.

Lemma merged_run_exists before inner after c e :
  run (before ++ LSection "content" :: inner ++ after) start = Some e → Forall (λ line, opens_section line = false) inner →
  (∀ line lines, after = line :: lines → opens_section line = true) →
  ∃ m, run (before ++ content_section c ++ after) start = Some m ∧ s_cfg m = with_content c (s_cfg e).
Proof.
  intros He Hin Hhead. destruct (merged_states _ _ _ c _ He Hin) as (x & y & Hx & -> & Hc & Hr & Hs & Hry & Hk & Hl).
  destruct after as [|line after]; cbn [run] in *; [injection Hx as <-; by exists y|].
  specialize (Hhead _ _ eq_refl). destruct line as [|name|name|indent key value|]; try done.
  destruct (step (LSection name) x) as [x1|] eqn:Hx1; [|done]. cbn [mbind option_bind] in Hx.
  destruct (after_section c name x y x1) as (y1 & -> & Ho & Hl1); [done..|]. by eapply outside_run_progress.
Qed.

(** A file without the section, and the section at its end *)
Lemma appended_run before c e :
  run before start = Some e → "section content" ∉ s_seen e →
  ∃ m, run (before ++ content_section c) start = Some m ∧ s_cfg m = with_content c (s_cfg e).
Proof.
  intros He Hnew. pose proof (well_marked_run _ _ _ well_marked_start He) as [_ _ Hkeys]. rewrite run_app, He. cbn [mbind option_bind].
  rewrite content_section_run; [by eexists|done|]. intros path Hp Hseen. apply Hnew. by eapply Hkeys.
Qed.

Lemma appended_again before c e m :
  run before start = Some e → run (before ++ content_section c) start = Some m → s_cfg m = with_content c (s_cfg e).
Proof.
  intros He Hm. destruct (decide ("section content" ∈ s_seen e)) as [Hs|Hs].
  - rewrite run_app, He in Hm. unfold content_section in Hm. cbn [mbind option_bind run step] in Hm. unfold mark in Hm.
    by rewrite bool_decide_eq_true_2 in Hm.
  - destruct (appended_run _ c _ He Hs) as (m' & Hm' & Hc). congruence.
Qed.

(** ** The text that is written *)

Lemma TrimLeft_newlines s : ∃ k, Split s newline = replicate k "" ++ Split (TrimLeft s nl) newline.
Proof.
  induction s as [|c s [k IH]]; [by exists 0%nat|]. cbn [TrimLeft]. unfold nl in *. cbn [contains_byte]. rewrite orb_false_r.
  destruct (Ascii.eqb_spec newline c) as [<-|Hne]; [|by exists 0%nat]. exists (S k). cbn [Split replicate app]. by rewrite Ascii.eqb_refl, IH.
Qed.

Lemma TrimRight_newlines s : ∃ k, Split s newline = Split (TrimRight s nl) newline ++ replicate k "".
Proof.
  induction s as [|c s [k IH]]; [by exists 0%nat|]. cbn [TrimRight Split]. rewrite IH. unfold nl in *. cbn [contains_byte] in *. rewrite orb_false_r.
  case_bool_decide as Hb; cbn [andb].
  - rewrite Hb. cbn [Split]. rewrite (Ascii.eqb_sym newline c). destruct (Ascii.eqb c newline) eqn:Hc; cbn [Split app]; rewrite ?Hc.
    + by exists (S k).
    + by exists k.
  - exists k. cbn [Split]. destruct (Ascii.eqb c newline); [done|].
    pose proof (Split_nonempty (TrimRight s (String newline "")) newline). by destruct (Split (TrimRight s (String newline "")) newline).
Qed.

Lemma solid_replicate k : solid (replicate k "") = [].
Proof. induction k as [|k IH]; [done|]. cbn [replicate]. by rewrite solid_cons, IH. Qed.

Lemma lines_of_Join lines : Forall no_newline lines → lines_of (Join lines nl) = solid lines.
Proof. intros Hf. unfold lines_of. destruct lines as [|line lines]; [done|]. by rewrite Split_Join. Qed.

Lemma lines_of_TrimRight s : lines_of (TrimRight s nl) = lines_of s.
Proof. destruct (TrimRight_newlines s) as [k Hk]. unfold lines_of. by rewrite Hk, solid_app, solid_replicate, app_nil_r. Qed.

Lemma lines_of_TrimLeft s : lines_of (TrimLeft s nl) = lines_of s.
Proof. destruct (TrimLeft_newlines s) as [k Hk]. unfold lines_of. by rewrite Hk, solid_app, solid_replicate. Qed.

Lemma lines_of_app a b : lines_of (a +:+ nl +:+ b) = lines_of a ++ lines_of b.
Proof. unfold lines_of. change (a +:+ nl +:+ b) with (a +:+ String newline b). by rewrite Split_app, solid_app. Qed.

Lemma lines_of_rendered c tail : plain_content c → clean_content c → lines_of (renderContentConfig c +:+ tail) = content_section c ++ lines_of tail.
Proof. intros Hp Hc. unfold lines_of. by rewrite rendered_split, solid_app, solid_rendered. Qed.

Definition in_section (line : string) : Prop := line_text line = "" ∨ top_level line = false.
Definition begins_section (lines : list string) : Prop := ∀ line lines', lines = line :: lines' → line_text line ≠ "" ∧ top_level line = true.

Lemma skip_section_spec lines : ∃ inner, lines = inner ++ skip_section lines ∧ Forall in_section inner ∧ begins_section (skip_section lines).
Proof.
  induction lines as [|line lines (inner & Hl & Hf & Hb)]; [by exists []|]. cbn [skip_section]. case_bool_decide as Ht; cbn [negb andb].
  - exists (line :: inner). split; [by rewrite Hl at 1|]. split; [|done]. constructor; [by left|done].
  - destruct (top_level line) eqn:Htop.
    + exists []. split; [done|]. split; [constructor|]. by intros ? ? [= <- <-].
    + exists (line :: inner). split; [by rewrite Hl at 1|]. split; [|done]. constructor; [by right|done].
Qed.

Lemma find_section_spec section lines before after :
  find_section section lines = Some (before, after) →
  ∃ header inner, lines = before ++ header :: inner ++ after ∧ top_level header = true ∧ line_text header = section +:+ ":" ∧
    Forall in_section inner ∧ begins_section after.
Proof.
  revert before. induction lines as [|line lines IH]; intros before; cbn [find_section]; [done|].
  destruct (_ && _) eqn:Hb.
  - intros [= <- <-]. apply andb_true_iff in Hb as [Ht Hb%bool_decide_eq_true]. destruct (skip_section_spec lines) as (inner & Hl & Hf & Hs).
    exists line, inner. split; [by rewrite Hl at 1|done].
  - destruct (find_section section lines) as [[before' after']|]; [|done]. intros [= <- <-].
    destruct (IH _ eq_refl) as (header & inner & -> & Hrest). by exists header, inner.
Qed.

(** No line is indented with tabs. *)
Definition untabbed (data : string) : bool := forallb (λ line, negb (HasPrefix line (String tab ""))) (Split data newline).
(** Keys are indented: a line that is not opens a section. *)
Definition tidy (data : string) : bool :=
  forallb (λ line, negb (top_level line) || bool_decide (line_text line = "") || HasSuffix (line_text line) ":") (Split data newline).

Lemma untabbed_line data line : untabbed data = true → line ∈ Split data newline → HasPrefix line (String tab "") = false.
Proof. intros Hu Hl. apply forallb_forall with (x := line) in Hu; [by apply negb_true_iff|]. by apply list_elem_of_In. Qed.

Lemma tidy_line data line :
  tidy data = true → line ∈ Split data newline → top_level line = true → line_text line ≠ "" → opens_section (line_of (drop_cr line)) = true.
Proof.
  intros Hu Hl Ht Htext. apply forallb_forall with (x := line) in Hu; [|by apply list_elem_of_In].
  rewrite Ht, bool_decide_eq_false_2 in Hu by done. cbn in Hu. by rewrite line_of_shape, bool_decide_eq_false_2, top_level_indent, Hu by done.
Qed.

Lemma solid_head lines line rest : begins_section lines → solid lines = line :: rest → ∃ text texts, lines = text :: texts ∧ line = line_of (drop_cr text).
Proof.
  intros Hb. destruct lines as [|text texts]; [done|]. destruct (Hb _ _ eq_refl) as [Ht Htop]. pose proof (top_level_line _ Htop Ht) as Hu.
  rewrite solid_cons. destruct (line_of (drop_cr text)) eqn:Hl; [done|..]; cbn [is_blank app]; intros [= <- _]; by exists text, texts.
Qed.

Lemma solid_Forall (P : Line → Prop) lines : (∀ text, text ∈ lines → P (line_of (drop_cr text))) → Forall P (solid lines).
Proof. intros Hp. apply list.Forall_forall. intros l [_ (text & -> & Ht)%list_elem_of_fmap]%list_elem_of_filter. by apply Hp. Qed.

Section replaced.
Context (existing : string) (c : ContentConfig) (Hplain : plain_content c) (Hclean : clean_content c).

Let merged : string := replaceTopLevelSection existing "content" (renderContentConfig c).

Lemma found_lines before after :
  find_section "content" (Split existing newline) = Some (before, after) → Forall no_newline before ∧ Forall no_newline after.
Proof.
  intros (header & inner & Hl & _)%find_section_spec. pose proof (Split_Forall existing newline) as Hf. rewrite Hl in Hf.
  apply Forall_app in Hf as [Hb Hf]. inversion Hf as [|? ? _ Hf']; subst. by apply Forall_app in Hf' as [_ Ha].
Qed.

Lemma replaced_found before after :
  find_section "content" (Split existing newline) = Some (before, after) → lines_of merged = solid before ++ content_section c ++ solid after.
Proof using Hplain Hclean.
  intros Hfound. destruct (found_lines _ _ Hfound) as [Hb Ha]. unfold merged, replaceTopLevelSection. rewrite Hfound.
  by rewrite lines_of_app, lines_of_rendered, lines_of_TrimLeft, lines_of_TrimRight, !lines_of_Join.
Qed.

Lemma replaced_missing : find_section "content" (Split existing newline) = None → lines_of merged = lines_of existing ++ content_section c.
Proof using Hplain Hclean.
  intros Hnone. unfold merged, replaceTopLevelSection. rewrite Hnone, lines_of_app, lines_of_TrimRight.
  change (nl +:+ renderContentConfig c) with ("" +:+ nl +:+ renderContentConfig c). rewrite lines_of_app.
  rewrite <- (string_app_nil_r (renderContentConfig c)), lines_of_rendered by done. change (lines_of "") with (@nil Line).
  by rewrite app_nil_l, app_nil_r.
Qed.

Lemma Join_short lines : Forall no_newline lines → Forall short lines → Forall short (Split (Join lines nl) newline).
Proof. intros Hn Hs. destruct lines as [|line lines]; [by repeat constructor|]. by rewrite Split_Join. Qed.

Lemma trimmed_short s :
  Forall short (Split s newline) → Forall short (Split (TrimRight s nl) newline) ∧ Forall short (Split (TrimLeft s nl) newline).
Proof.
  intros Hs. destruct (TrimRight_newlines s) as [k Hk], (TrimLeft_newlines s) as [k' Hk']. split.
  - rewrite Hk in Hs. by apply Forall_app in Hs as [? _].
  - rewrite Hk' in Hs. by apply Forall_app in Hs as [_ ?].
Qed.

Lemma replaced_short : Forall short (Split existing newline) → Forall short (rendered_lines c) → Forall short (Split merged newline).
Proof using Hplain Hclean.
  intros Hs Hr. unfold merged, replaceTopLevelSection.
  assert (∀ a b, Split (a +:+ nl +:+ b) newline = Split a newline ++ Split b newline) as Happ by (intros; apply Split_app).
  destruct (find_section _ _) as [[before after]|] eqn:Hfound.
  - destruct (found_lines _ _ Hfound) as [Hb Ha]. apply find_section_spec in Hfound as (header & inner & Hl & _). rewrite Hl in Hs.
    apply Forall_app in Hs as [Hsb Hs]. inversion Hs as [|? ? _ Hs']; subst. apply Forall_app in Hs' as [_ Hsa].
    rewrite Happ, rendered_split by done. repeat (apply Forall_app; split); [|done|].
    + by apply trimmed_short, Join_short.
    + by apply trimmed_short, Join_short.
  - change (nl +:+ renderContentConfig c) with ("" +:+ nl +:+ renderContentConfig c). rewrite Happ, Happ.
    rewrite <- (string_app_nil_r (renderContentConfig c)), rendered_split by done.
    repeat (apply Forall_app; split); [by apply trimmed_short|by repeat constructor|done|by repeat constructor].
Qed.
End replaced.

Lemma parse_short data cfg : parse (NewReader data) = Ok cfg → Forall short (Split data newline).
Proof.
  unfold parse, scan_lines. cbn [rd_data rd_err NewReader]. destruct (parse_lines _ _) as [q|] eqn:Hp; [|done]. intros _. revert Hp.
  generalize initial. generalize (Split data newline). intros lines. induction lines as [|line lines IH]; intros p; [constructor|].
  destruct lines as [|line' lines].
  - cbn [drop_last_blank]. case_bool_decide as Hb; [subst; by repeat constructor|]. cbn [parse_lines].
    destruct (Z.leb_spec (2 ^ 16) (Z.of_nat (String.length line))); [done|]. intros _. by repeat constructor.
  - change (drop_last_blank (line :: line' :: lines)) with (line :: drop_last_blank (line' :: lines)). cbn [parse_lines].
    destruct (Z.leb_spec (2 ^ 16) (Z.of_nat (String.length line))); [done|]. destruct (parse_line _ p) as [p'|]; [|done]. intros Hp.
    constructor; [done|]. by eapply IH.
Qed.

(** A section that no line opens is not seen. *)
Lemma unopened section lines s t :
  contains_byte section "."%char = false → run lines s = Some t → Forall (λ line, line ≠ LSection section) lines →
  ("section " +:+ section) ∉ s_seen s → ("section " +:+ section) ∉ s_seen t.
Proof.
  intros Hsec Hr Hf. revert s Hr. induction Hf as [|line lines Hl Hf IH]; intros s; cbn [run]; [by intros [= <-]|].
  destruct (step line s) as [s1|] eqn:Hs; [|done]. intros Hr Hn. eapply IH; [exact Hr|]. destruct line as [|name|name|indent key value|]; cbn [step] in Hs.
  - by injection Hs as <-.
  - destruct (mark _ _) as [seen|] eqn:Hm; [|done]. apply mark_some in Hm as [_ ->]. injection Hs as <-. cbn.
    rewrite elem_of_union, elem_of_singleton. intros [Heq|]; [|done]. injection Heq as Heq. apply Hl. f_equal. symmetry. exact Heq.
  - case_bool_decide; [done|]. destruct (mark _ _) as [seen|] eqn:Hm; [|done]. apply mark_some in Hm as [_ ->]. injection Hs as <-. cbn.
    rewrite elem_of_union, elem_of_singleton. intros [Heq|]; [|done]. injection Heq as Heq.
    assert (contains_byte (s_root s +:+ String "."%char name) "."%char = true) as Hdot by (rewrite contains_byte_app; cbn; by rewrite orb_true_r).
    change (section = s_root s +:+ String "."%char name) in Heq. rewrite <- Heq in Hdot. congruence.
  - case_bool_decide; [done|]. destruct (mark _ _) as [seen|] eqn:Hm; [|done]. apply mark_some in Hm as [_ ->]. cbn in Hs.
    destruct (AgentConfig.assign _ _ _ _); [|done]. injection Hs as <-. cbn. rewrite elem_of_union, elem_of_singleton. intros [Heq|]; [|done].
    discriminate Heq.
  - done.
Qed.

(** ** Installing a release *)

Lemma valid_config raw name cfg : parseValidConfig raw name = Ok cfg ↔ parse (NewReader raw) = Ok cfg ∧ Validate cfg = None.
Proof.
  unfold parseValidConfig. destruct (parse _) as [cfg'|]; [|naive_solver]. destruct (Validate cfg') eqn:Hv; [naive_solver congruence|].
  split; [by intros [= <-]|]. by intros [[= <-] _].
Qed.

Lemma Validate_content c cfg : Validate (with_content c cfg) = Validate cfg.
Proof. by destruct cfg. Qed.

(** The content of the release, where the host keeps its path *)
Definition release_content (existing release : Config) : ContentConfig :=
  MkContentConfig (con_DefaultPath (c_Content release)) (con_Path (c_Content existing)) (con_TrustKeys (c_Content release)).

Lemma release_content_clean existing release e r :
  parse (NewReader existing) = Ok e → parse (NewReader release) = Ok r → clean_content (release_content e r).
Proof. intros (_ & He & _)%parse_clean (Hr & _ & Hk)%parse_clean. by split. Qed.

Definition merged_text (existing : string) (c : ContentConfig) : string := replaceTopLevelSection existing "content" (renderContentConfig c).

Lemma inner_lines existing before header inner after :
  untabbed existing = true → Split existing newline = before ++ header :: inner ++ after → Forall in_section inner →
  Forall (λ line, opens_section line = false) (solid inner).
Proof.
  intros Hu Hl Hin. apply solid_Forall. intros text Ht. rewrite list.Forall_forall in Hin. apply section_line; [by apply Hin|].
  eapply untabbed_line; [exact Hu|]. rewrite Hl. set_solver.
Qed.

Lemma existing_lines existing before header inner after :
  Split existing newline = before ++ header :: inner ++ after → top_level header = true → line_text header = "content:" →
  lines_of existing = solid before ++ LSection "content" :: solid inner ++ solid after.
Proof. intros Hl Ht Htext. unfold lines_of. by rewrite Hl, solid_app, solid_cons, solid_app, (content_header _ Ht Htext). Qed.

(** Whatever parses after the merge is the old configuration with the new content. *)
Lemma merged_parse existing c e m :
  parse (NewReader existing) = Ok e → untabbed existing = true → plain_content c → clean_content c →
  parse (NewReader (merged_text existing c)) = Ok m → m = with_content c e.
Proof.
  intros (s & Hs & <-)%parse_run Hu Hp Hc (t & Ht & <-)%parse_run. unfold merged_text in Ht.
  destruct (find_section "content" (Split existing newline)) as [[before after]|] eqn:Hfound.
  - rewrite (replaced_found _ _ Hp Hc _ _ Hfound) in Ht. apply find_section_spec in Hfound as (header & inner & Hl & Htop & Htext & Hin & Hb).
    rewrite (existing_lines _ _ _ _ _ Hl Htop Htext) in Hs. eapply merged_run; [exact Hs|by eapply inner_lines| |exact Ht].
    intros line lines Hhead. destruct (solid_head _ _ _ Hb Hhead) as (text & texts & -> & ->). destruct (Hb _ _ eq_refl). by apply top_level_line.
  - rewrite (replaced_missing _ _ Hp Hc Hfound) in Ht. by eapply appended_again.
Qed.

(** The section is found, if there is one. *)
Lemma find_section_none section lines header :
  find_section section lines = None → header ∈ lines → ¬ (top_level header = true ∧ line_text header = section +:+ ":").
Proof.
  induction lines as [|line lines IH]; cbn [find_section]; [set_solver|]. destruct (_ && _) eqn:Hb; [done|].
  destruct (find_section section lines) as [[? ?]|]; [done|]. intros _ [->|Hin]%elem_of_cons; [|by apply IH].
  intros [Ht Htext]. by rewrite Ht, bool_decide_eq_true_2 in Hb.
Qed.

Lemma untabbed_header section line :
  HasPrefix line (String tab "") = false → line_of (drop_cr line) = LSection section → top_level line = true ∧ line_text line = section +:+ ":".
Proof.
  intros Htab Hl. destruct (top_level line) eqn:Ht.
  - split; [done|]. rewrite line_of_shape, (top_level_indent _ Ht) in Hl. case_bool_decide; [done|]. cbn in Hl.
    destruct (HasSuffix _ _) eqn:Hsuf; [|by destruct (Cut _ _) as [[? ?] [|]]]. injection Hl as Hl. unfold TrimSuffix in Hl. rewrite Hsuf in Hl.
    apply HasSuffix_spec in Hsuf as [r Hr]. rewrite Hr in Hl |- *. enough (r = section) as -> by done. rewrite <- Hl.
    rewrite string_length_app. cbn [String.length]. rewrite Nat.add_sub. clear. induction r as [|c r IH]; [done|]. rewrite string_app_cons. cbn. by f_equal.
  - pose proof (section_line line (or_intror Ht) Htab) as Ho. by rewrite Hl in Ho.
Qed.

(** A file in which the section is not found does not have it. *)
Lemma missing_section section data s :
  contains_byte section "."%char = false → untabbed data = true → find_section section (Split data newline) = None →
  run (lines_of data) start = Some s → ("section " +:+ section) ∉ s_seen s.
Proof.
  intros Hsec Hu Hnone Hr. eapply unopened; [exact Hsec|exact Hr| |set_solver].
  apply solid_Forall. intros text Hin Heq. apply untabbed_header in Heq; [|by eapply untabbed_line].
  by apply (find_section_none _ _ _ Hnone Hin).
Qed.

Lemma merged_exists existing c e :
  parse (NewReader existing) = Ok e → untabbed existing = true → tidy existing = true → plain_content c → clean_content c →
  Forall short (rendered_lines c) → parse (NewReader (merged_text existing c)) = Ok (with_content c e).
Proof.
  intros He Hu Ht Hp Hc Hsh. pose proof (replaced_short _ _ Hp Hc (parse_short _ _ He) Hsh) as Hshort. apply parse_run in He as (s & Hs & <-).
  enough (∃ t, run (lines_of (merged_text existing c)) start = Some t ∧ s_cfg t = with_content c (s_cfg s)) as (t & Hr & <-) by (by apply run_parse).
  unfold merged_text. destruct (find_section "content" (Split existing newline)) as [[before after]|] eqn:Hfound.
  - rewrite (replaced_found _ _ Hp Hc _ _ Hfound). apply find_section_spec in Hfound as (header & inner & Hl & Htop & Htext & Hin & Hb).
    rewrite (existing_lines _ _ _ _ _ Hl Htop Htext) in Hs. eapply merged_run_exists; [exact Hs|by eapply inner_lines|].
    intros line lines Hhead. destruct (solid_head _ _ _ Hb Hhead) as (text & texts & Heq & ->). destruct (Hb _ _ Heq).
    eapply tidy_line; [exact Ht| |done|done]. rewrite Hl, Heq. set_solver.
  - rewrite (replaced_missing _ _ Hp Hc Hfound). apply appended_run; [exact Hs|]. by eapply missing_section.
Qed.

(** C13. Installing a release over a host ([MergeReleaseContent]) changes the
    content settings and nothing else.  Whenever the merge succeeds, the
    written file is read as the configuration of the host with the default
    content and the trust keys of the release in the place of its own, and is
    valid; the host keeps the path of its content.  It does succeed when both
    files are valid, the release names its default content and its keys, and
    the lines of the host's file are laid out as sections and indented keys.
    The values are those that [strconv.Quote] does not escape, and no line
    begins with a tab. *)
Theorem merge_keeps_settings existing release e r :
  parseValidConfig existing "existing" = Ok e → parseValidConfig release "release" = Ok r →
  untabbed existing = true → plain_content (release_content e r) →
  (∀ merged, MergeReleaseContent existing release = Ok merged →
     parseValidConfig merged "merged" = Ok (with_content (release_content e r) e)) ∧
  (TrimSpace (con_DefaultPath (c_Content r)) ≠ "" → TrimSpace (con_TrustKeys (c_Content r)) ≠ "" → tidy existing = true →
   Forall short (rendered_lines (release_content e r)) → ∃ merged, MergeReleaseContent existing release = Ok merged).
Proof.
  intros He Hr Hu Hp. pose proof He as [Hpe Hve]%valid_config. pose proof Hr as [Hpr _]%valid_config.
  pose proof (release_content_clean _ _ _ _ Hpe Hpr) as Hc. unfold MergeReleaseContent. rewrite He, Hr.
  cbn [mbind result_bind]. fold (release_content e r). fold (merged_text existing (release_content e r)). split.
  - intros merged. destruct (_ || _); [done|]. destruct (parseValidConfig _ "merged") as [m|] eqn:Hm; [|done]. intros [= <-].
    rewrite Hm. f_equal. apply valid_config in Hm as [Hm _]. by eapply merged_parse.
  - intros Hd Hk Ht Hsh. rewrite !bool_decide_eq_false_2 by done. cbn [orb].
    pose proof (merged_exists _ _ _ Hpe Hu Ht Hp Hc Hsh) as Hm.
    assert (parseValidConfig (merged_text existing (release_content e r)) "merged" = Ok (with_content (release_content e r) e)) as ->.
    { apply valid_config. by rewrite Validate_content. }
    by eexists.
Qed.

(** ** Labels of an enrolment *)

Definition known_sections : list string :=
  ["agent"; "local"; "local.storage"; "local.export"; "control"; "runtime.feature_flags"; "sensor"; "sensor.scope"; "telemetry"; "health";
   "policy"; "content"; "resource"].

Lemma assign_known cfg section key value cfg' : AgentConfig.assign cfg section key value = Ok cfg' → section ∈ known_sections.
Proof.
  unfold AgentConfig.assign. cbn zeta.
  do 13 (match goal with |- (if bool_decide ?P then _ else _) = _ → _ => destruct (decide P) as [->|?];
    [intros _; by apply (bool_decide_eq_true_1 _)|rewrite (bool_decide_eq_false_2 P) by done] end). done.
Qed.

(** The identity of the agent and its manager are in no key of a file. *)
Record unset (cfg : Config) : Prop := {
  un_ID : as_ID (c_Agent cfg) = "";
  un_HostID : as_HostID (c_Agent cfg) = "";
  un_TenantID : as_TenantID (c_Agent cfg) = "";
  un_Token : as_Token (c_Agent cfg) = "";
  un_Manager : c_Manager cfg = zero_manager
}.

Lemma assign_agent_section cfg section key value cfg' :
  AgentConfig.assign cfg section key value = Ok cfg' →
  c_Manager cfg' = c_Manager cfg ∧
  (c_Agent cfg' = c_Agent cfg ∨ section = "agent" ∧ ∃ label, c_Agent cfg' = (c_Agent cfg) <| as_Labels ::= <[label := value]> |>).
Proof.
  unfold AgentConfig.assign, assign_only, field. destruct cfg.
  cbn -[assignAgent assignLocalStorage assignLocalExport assignSensor assignScope assignTelemetry assignContent assignResource parse_duration bool_decide].
  case_bool_decide as Ha.
  { unfold assignAgent. destruct (CutPrefix key "label.") as [label|]; [|done]. case_bool_decide; [done|]. cbn. intros [= <-].
    split; [done|]. right. split; [done|]. by eexists. }
  repeat match goal with |- (if bool_decide ?P then ?x else _) = _ → _ => destruct (bool_decide P); [clear; try (destruct (bool_decide _); [|done]);
    lazymatch x with context [?r ≫= _] => destruct r | context [parse_duration ?v] => destruct (parse_duration v) | _ => idtac end; (done || (intros [= <-]; by auto))|] end.
  done.
Qed.

Lemma step_assign line s s' :
  step line s = Some s' →
  s_cfg s' = s_cfg s ∨ ∃ indent key value, line = LKey indent key value ∧ AgentConfig.assign (s_cfg s) (key_section s indent) key value = Ok (s_cfg s').
Proof.
  destruct line as [|root|name|indent key value|]; cbn [step]; [by intros [= <-]; left|..|done].
  - destruct (mark _ _); [|done]. intros [= <-]. by left.
  - case_bool_decide; [done|]. destruct (mark _ _); [|done]. intros [= <-]. by left.
  - case_bool_decide; [done|]. destruct (mark _ _); [|done]. cbn. destruct (AgentConfig.assign _ _ _ _) as [cfg|] eqn:Ha; [|done].
    intros [= <-]. right. by exists indent, key, value.
Qed.

Lemma run_unset lines s s' : unset (s_cfg s) → run lines s = Some s' → unset (s_cfg s').
Proof.
  revert s. induction lines as [|line lines IH]; intros s Hu; cbn; [by intros [= <-]|].
  destruct (step line s) as [s1|] eqn:Hs; [|done]. apply IH. destruct (step_assign _ _ _ Hs) as [->|(indent & key & value & _ & Ha)]; [done|].
  destruct Hu as [H1 H2 H3 H4 H5]. apply assign_agent_section in Ha as [Hm [Hc|(_ & label & Hc)]]; split; rewrite ?Hc, ?Hm; done.
Qed.

Record agent_marked (s : State) : Prop := {
  am_marked : well_marked s;
  am_keys : ∀ key, ("key agent." +:+ key) ∈ s_seen s → "section agent" ∈ s_seen s;
  am_labels : "section agent" ∉ s_seen s → c_Agent (s_cfg s) = zero_agent
}.

Lemma agent_key_section section key other :
  section ∈ known_sections → "key " +:+ section +:+ "." +:+ key = "key agent." +:+ other → section = "agent".
Proof.
  unfold known_sections. rewrite !elem_of_cons, elem_of_nil. intros Hs Heq. injection Heq as Heq.
  repeat (destruct Hs as [->|Hs]; [done || (exfalso; discriminate Heq)|]). done.
Qed.

Lemma key_in_agent s indent : well_marked s → s_root s ≠ "" → key_section s indent = "agent" → "section agent" ∈ s_seen s.
Proof.
  intros [Hr Hn _] Hroot. unfold key_section. case_match eqn:Hb; intros Heq; [|rewrite Heq in Hr; by apply Hr].
  rewrite Heq in Hn. by discriminate (Hn ltac:(done)).
Qed.

Lemma agent_marked_step line s s' : agent_marked s → step line s = Some s' → agent_marked s'.
Proof.
  intros [Hw Hk Hl] Hs. split; [by eapply well_marked_step|..].
  - destruct line as [|root|name|indent key value|]; cbn [step] in Hs; [by injection Hs as <-|..|done].
    + destruct (mark _ _) as [seen|] eqn:Hm; [|done]. apply mark_some in Hm as [_ ->]. injection Hs as <-. cbn. intros k.
      rewrite !elem_of_union, !elem_of_singleton. intros [Heq|]; [discriminate Heq|right; by eapply Hk].
    + case_bool_decide; [done|]. destruct (mark _ _) as [seen|] eqn:Hm; [|done]. apply mark_some in Hm as [_ ->]. injection Hs as <-. cbn. intros k.
      rewrite !elem_of_union, !elem_of_singleton. intros [Heq|]; [discriminate Heq|right; by eapply Hk].
    + case_bool_decide as Hroot; [done|]. destruct (mark _ _) as [seen|] eqn:Hm; [|done]. apply mark_some in Hm as [_ ->]. cbn in Hs.
      destruct (AgentConfig.assign _ _ _ _) as [cfg|] eqn:Ha; [|done]. injection Hs as <-. cbn. intros k.
      rewrite !elem_of_union, !elem_of_singleton. intros [Heq|]; right; [|by eapply Hk]. apply assign_known in Ha. symmetry in Heq.
      eapply key_in_agent; [exact Hw|exact Hroot|]. by eapply agent_key_section.
  - intros Hn. pose proof (step_mono _ _ _ Hs) as Hmono. rewrite <- Hl by set_solver.
    destruct (step_assign _ _ _ Hs) as [->|(indent & key & value & -> & Ha)]; [done|].
    apply assign_agent_section in Ha as [_ [->|[Hsec _]]]; [done|]. exfalso. apply Hn, Hmono. eapply key_in_agent; [exact Hw| |exact Hsec].
    cbn [step] in Hs. by case_bool_decide.
Qed.

Lemma agent_marked_run lines s s' : agent_marked s → run lines s = Some s' → agent_marked s'.
Proof.
  revert s. induction lines as [|line lines IH]; intros s Hs; cbn; [by intros [= <-]|].
  destruct (step line s) as [s1|] eqn:Hstep; [|done]. apply IH. by eapply agent_marked_step.
Qed.

Definition readable_key (k : string) : Prop :=
  TrimSpace k = k ∧ k ≠ "" ∧ contains_byte k ":"%char = false ∧ clean_text k.
Definition readable_value (v : string) : Prop := plain v = true ∧ clean_text v.

Definition put_label (cfg : Config) (kv : string * string) : Config := cfg <| c_Agent ::= λ a, a <| as_Labels ::= <[kv.1 := kv.2]> |> |>.
Definition label_lines (l : list (string * string)) : list Line := (λ kv, LKey 2 ("label." +:+ kv.1) kv.2) <$> l.

Lemma label_step k v s :
  readable_key k → s_root s = "agent" → s_nested s = "" → ("key agent.label." +:+ k) ∉ s_seen s →
  step (LKey 2 ("label." +:+ k) v) s = Some (MkState (put_label (s_cfg s) (k, v)) "agent" "" ({["key agent.label." +:+ k]} ∪ s_seen s)).
Proof.
  intros (Ht & Hne & _) Hr Hn Hp. cbn [step]. unfold key_section, key_nested. cbn [Nat.leb Nat.eqb andb negb]. rewrite Hr, mark_fresh by exact Hp.
  rewrite (bool_decide_eq_false_2 ("agent" = "")) by done. cbn [mbind option_bind]. unfold AgentConfig.assign.
  rewrite (bool_decide_eq_true_2 ("agent" = "agent")) by done. unfold assignAgent, CutPrefix.
  assert (HasPrefix ("label." +:+ k) "label." = true) as -> by (apply HasPrefix_spec; by exists k).
  assert (String.substring (String.length "label.") (String.length ("label." +:+ k) - String.length "label.") ("label." +:+ k) = k) as ->.
  { rewrite string_length_app, Nat.add_comm, Nat.add_sub. cbn. apply substring_full. }
  rewrite Ht, bool_decide_eq_false_2 by done. done.
Qed.

Lemma label_run l s :
  Forall (λ kv, readable_key kv.1) l → NoDup l.*1 → s_root s = "agent" → s_nested s = "" →
  (∀ k, k ∈ l.*1 → ("key agent.label." +:+ k) ∉ s_seen s) →
  ∃ t, run (label_lines l) s = Some t ∧ s_cfg t = foldl put_label (s_cfg s) l.
Proof.
  intros Hf. revert s. induction Hf as [|[k v] l Hk Hf IH]; intros s Hnd Hr Hn Hnew; [by exists s|].
  cbn [label_lines fmap list_fmap run fst snd]. rewrite fmap_cons in Hnd, Hnew. apply list.NoDup_cons in Hnd as [Hnot Hnd]. cbn [fst] in *.
  rewrite label_step; [|done|done|done|apply Hnew; set_solver]. cbn [mbind option_bind]. apply IH; [done|done|done|].
  intros k' Hk'. cbn [s_seen]. rewrite elem_of_union, elem_of_singleton. intros [Heq|Hin]; [|by eapply Hnew; [|exact Hin]; set_solver].
  injection Heq as Heq. change (k' = k) in Heq. by subst.
Qed.

(** *** The lines of the labels *)

Lemma TrimSpace_cons c s : is_ascii c = true → is_space (byte_val c) = false → TrimSpace s = s → s ≠ "" → TrimSpace (String c s) = String c s.
Proof.
  intros Hc Hs Ht Hne. pose proof (runes_TrimSpace s) as Hr. rewrite Ht in Hr. unfold TrimSpace. rewrite runes_ascii by done. cbn [drop_spaces].
  rewrite Hs, reverse_cons. set (l := drop_spaces (reverse (drop_spaces (runes s)))) in Hr.
  assert (reverse (runes s) = l) as Hl by (by rewrite Hr, reverse_involutive). rewrite Hl.
  destruct l as [|[r chunk] l'] eqn:Hl'.
  - exfalso. apply Hne. rewrite <- (runes_concat s), Hr. done.
  - assert (is_space r = false) as Hsp by (by eapply (drop_spaces_head _ (r, chunk) l')).
    rewrite <- app_comm_cons. cbn [drop_spaces]. rewrite Hsp, app_comm_cons, reverse_app, reverse_singleton, <- Hr, fmap_app, concat_str_app.
     change (String c (concat_str (runes s).*2) = String c s). by rewrite runes_concat.
Qed.

Lemma label_key_text k : readable_key k → key_text ("label." +:+ k).
Proof.
  intros (Ht & Hne & Hcolon & Hhash & _). split; [|split; [exact Hcolon|split; [exact Hhash|done]]].
  cbn. repeat (apply TrimSpace_cons; [done|done| |done || exact Hne]). exact Ht.
Qed.

Lemma lines_of_labels l tail :
  Forall (λ kv, readable_key kv.1 ∧ readable_value kv.2) l →
  lines_of (concat_str (label_line <$> l) +:+ tail) = label_lines l ++ lines_of tail.
Proof.
  induction 1 as [|[k v] l [Hk [Hp Hv]] Hf IH]; [done|]. cbn [fmap list_fmap fst snd] in *.
  change (concat_str (label_line (k, v) :: (label_line <$> l))) with (label_line (k, v) +:+ concat_str (label_line <$> l)).
  unfold label_line at 1, yamlQuote. cbn [fst snd]. apply bool_decide_eq_true in Hp. rewrite Hp, <- !string_app_assoc.
  rewrite (string_app_assoc ": "), (string_app_assoc k), (string_app_assoc "  label."), lines_of_app, IH.
  assert (lines_of ("  label." +:+ k +:+ ": " +:+ quoted v) = [LKey 2 ("label." +:+ k) v]) as ->; [|done].
  unfold lines_of. rewrite Split_one.
  - rewrite solid_cons. change ("  label." +:+ k +:+ ": " +:+ quoted v) with ("  " +:+ ("label." +:+ k) +:+ ": " +:+ quoted v).
    by rewrite key_line by (apply label_key_text, Hk || apply Hv).
  - rewrite !(string_app_assoc "  label."), (string_app_assoc ("  label." +:+ k)). apply quoted_no_newline; [|apply Hv].
    unfold no_newline. rewrite !contains_byte_app. destruct Hk as (_ & _ & _ & _ & ->). done.
Qed.

(** *** The map that the lines build *)

Definition collect (m : gmap string string) (l : list (string * string)) : gmap string string := foldl (λ m kv, <[kv.1 := kv.2]> m) m l.

Lemma put_labels l cfg : foldl put_label cfg l = cfg <| c_Agent := (c_Agent cfg) <| as_Labels := collect (as_Labels (c_Agent cfg)) l |> |>.
Proof. revert cfg. induction l as [|kv l IH]; intros cfg; [by destruct cfg as [[] ? ? ? ? ? ? ? ? ? ?]|]. cbn [foldl]. by rewrite IH. Qed.

Lemma sorted_labels_keys labels : (sorted_labels labels).*1 = sort_strings (elements (dom labels)).
Proof.
  assert (∀ ks, Forall (λ k, is_Some (labels !! k)) ks → (omap (λ k, v ← labels !! k; mret (k, v)) ks).*1 = ks) as Hks.
  { induction 1 as [|k ks [v Hv] Hf IH]; [done|]. cbn. rewrite Hv. cbn. by f_equal. }
  apply Hks, list.Forall_forall. intros k. rewrite sort_strings_perm, elem_of_elements. apply elem_of_dom.
Qed.

Lemma sorted_labels_nodup labels : NoDup (sorted_labels labels).*1.
Proof. rewrite sorted_labels_keys, sort_strings_perm. apply NoDup_elements. Qed.

Lemma elem_of_sorted_labels labels k v : (k, v) ∈ sorted_labels labels ↔ labels !! k = Some v.
Proof.
  unfold sorted_labels. rewrite list_elem_of_omap. split.
  - intros (k' & _ & Hk). destruct (labels !! k') eqn:Hv; [|done]. cbn in Hk. by injection Hk as <- <-.
  - intros Hk. exists k. rewrite sort_strings_perm, elem_of_elements, elem_of_dom, Hk. split; [by eexists|done].
Qed.

Lemma collect_lookup l m k v : NoDup l.*1 → collect m l !! k = Some v ↔ (k, v) ∈ l ∨ k ∉ l.*1 ∧ m !! k = Some v.
Proof.
  revert m. induction l as [|[k' v'] l IH]; intros m Hnd; [set_solver|]. rewrite fmap_cons in *. apply list.NoDup_cons in Hnd as [Hn Hnd].
  cbn [collect foldl fst snd] in *. fold (collect (<[k' := v']> m) l). rewrite IH, !elem_of_cons by done. destruct (decide (k = k')) as [->|Hne].
  - rewrite lookup_insert_eq. split; [intros [Hin|[_ [= ->]]]; by auto|]. intros [[[= ->]|Hin]|[Hk _]]; [by auto|by auto|]. exfalso. apply Hk. by left.
  - rewrite lookup_insert_ne by done. split; [intros [Hin|[Hk Hm]]; [by auto|right; split; [by intros [|]|done]]|].
    intros [[[= -> ->]|Hin]|[Hk Hm]]; [done|by auto|]. right. split; [|done]. intros Hin. apply Hk. by right.
Qed.

Lemma collect_labels labels : collect ∅ (sorted_labels labels) = labels.
Proof.
  apply map_eq. intros k. apply option_eq. intros v. rewrite collect_lookup by apply sorted_labels_nodup. rewrite elem_of_sorted_labels.
  rewrite lookup_empty. naive_solver.
Qed.

(** C19. The labels that an operator gives to an enrolment arrive at the agent:
    the install script of the manager appends them to the configuration of
    the distribution, and the agent reads that file as the configuration of
    the distribution with exactly these labels.  The distribution has no
    section for the agent, keys and values are such as the parser can read
    back (no colon in a key, no comment sign, nothing that is escaped), and
    no line fills the buffer of the scanner. *)
Theorem labels_arrive distributed labels d :
  parse (NewReader distributed) = Ok d → untabbed distributed = true → find_section "agent" (Split distributed newline) = None →
  map_Forall (λ k v, readable_key k ∧ readable_value v) labels → Forall short (Split (enrolled_config distributed labels) newline) →
  parse (NewReader (enrolled_config distributed labels)) = Ok (d <| c_Agent ::= λ a, a <| as_Labels := labels |> |>).
Proof.
  intros (s & Hs & <-)%parse_run Hu Hnone Hlabels Hshort. pose proof (missing_section "agent" _ _ eq_refl Hu Hnone Hs) as Hnew.
  assert (agent_marked start) as Hstart by (split; [by split|set_solver|done]). pose proof (agent_marked_run _ _ _ Hstart Hs) as [_ Hkeys Hempty].
  assert (Forall (λ kv, readable_key kv.1 ∧ readable_value kv.2) (sorted_labels labels)) as Hf.
  { apply list.Forall_forall. intros [k v] Hin%elem_of_sorted_labels. by apply Hlabels in Hin. }
  assert (lines_of (enrolled_config distributed labels) = lines_of distributed ++ LSection "agent" :: label_lines (sorted_labels labels)) as Hlines.
  { unfold enrolled_config. rewrite !lines_of_app. unfold renderAgentLabelConfig. rewrite lines_of_labels by done.
    change (lines_of nl) with (@nil Line). by rewrite app_nil_r. }
  set (s1 := MkState (s_cfg s) "agent" "" ({["section agent"]} ∪ s_seen s)).
  destruct (label_run (sorted_labels labels) s1) as (t & Ht & Hcfg); [by eapply list.Forall_impl; [exact Hf|]; intros ? [? _]|apply sorted_labels_nodup|done|done| |].
  { intros k _. cbn. rewrite elem_of_union, elem_of_singleton. intros [Heq|Hin]; [discriminate Heq|]. by apply Hnew, (Hkeys ("label." +:+ k)). }
  assert (run (lines_of (enrolled_config distributed labels)) start = Some t) as Hrun.
  { rewrite Hlines, run_app, Hs. cbn [mbind option_bind run]. cbn [step]. by rewrite mark_fresh. }
  rewrite (run_parse _ _ Hshort Hrun), Hcfg, put_labels. f_equal. cbn [s_cfg s1].
  assert (collect (as_Labels (c_Agent (s_cfg s))) (sorted_labels labels) = labels) as Hl by (rewrite (Hempty Hnew); apply collect_labels).
  by rewrite Hl.
Qed.

(** ** Loading *)

Record limits (cfg : Config) : Prop := {
  lim_items : (1 ≤ et_MaxBatchItems (c_Telemetry cfg) ≤ 4096)%Z;
  lim_bytes : (2 ^ 16 ≤ et_MaxBatchBytes (c_Telemetry cfg) ≤ 2 ^ 24)%Z;
  lim_flush : (10 ^ 8 ≤ et_FlushInterval (c_Telemetry cfg) ≤ 60 * 10 ^ 9)%Z;
  lim_retry : (0 < exp_RetryInitial (loc_Export (c_Local cfg)) ≤ exp_RetryMax (loc_Export (c_Local cfg)))%Z;
  lim_timeout : (0 < exp_RequestTimeout (loc_Export (c_Local cfg)))%Z;
  lim_inflight : exp_MaxInflight (loc_Export (c_Local cfg)) = 1%Z;
  lim_storage : (0 < sto_MaxBytes (loc_Storage (c_Local cfg)))%Z ∧ (0 < sto_MinFreeBytes (loc_Storage (c_Local cfg)))%Z ∧
                (0 < sto_SegmentSize (loc_Storage (c_Local cfg)))%Z ∧ (0 < sto_SignalMaxCount (loc_Storage (c_Local cfg)))%Z;
  lim_health : (0 < c_HealthInterval cfg)%Z;
  lim_engine : (0 ≤ res_MaxActiveCEPGroups (c_Resource cfg))%Z ∧ (0 ≤ res_MaxEventRefsPerSignal (c_Resource cfg))%Z;
  lim_policy : TrimSpace (c_PolicyPath cfg) ≠ "";
  lim_scope : ∃ scope, EffectiveScope (c_Sensor cfg) = Ok scope
}.

Lemma telemetry_limits t : validateEffectiveTelemetry t = None →
  (1 ≤ et_MaxBatchItems t ≤ 4096)%Z ∧ (2 ^ 16 ≤ et_MaxBatchBytes t ≤ 2 ^ 24)%Z ∧ (10 ^ 8 ≤ et_FlushInterval t ≤ 60 * 10 ^ 9)%Z.
Proof.
  unfold validateEffectiveTelemetry. repeat match goal with |- (if ?b then _ else _) = _ → _ => destruct b eqn:?; [intros [=]|] end. intros _.
  rewrite !orb_false_iff, !Z.ltb_ge in *. lia.
Qed.

Lemma missing_policy cfg : (0 <? length (missing_settings cfg))%nat = false → TrimSpace (c_PolicyPath cfg) ≠ "".
Proof.
  intros Hm%Nat.ltb_ge Hp. unfold missing_settings in Hm. rewrite !length_app, (bool_decide_eq_true_2 (TrimSpace (c_PolicyPath cfg) = "")) in Hm by done.
  cbn in Hm. lia.
Qed.

Lemma Validate_limits cfg : Validate cfg = None → limits cfg.
Proof.
  unfold Validate. cbn zeta. destruct (0 <? _)%nat eqn:Hm; [intros [=]|]. do 10 (match goal with |- (if ?b then _ else _) = _ → _ => destruct b; [intros [=]|] end).
  destruct (EffectiveScope (c_Sensor cfg)) as [scope|] eqn:Hscope; [|intros [=]]. destruct (_ && _); [intros [=]|].
  unfold ResolveTelemetry. destruct (validateEffectiveTelemetry _) eqn:Ht; [intros [=]|]. apply telemetry_limits in Ht as (? & ? & ?).
  repeat (match goal with |- (if ?b then _ else _) = _ → _ => destruct b eqn:?; [intros [=]|] end). intros _.
  rewrite ?orb_false_iff, ?negb_false_iff, ?Z.leb_gt, ?Z.ltb_ge, ?Z.eqb_eq in *.
  split; first [lia|by apply missing_policy|by exists scope].
Qed.

(** A configuration file cannot give the agent an identity or a manager:
    no key of it sets them, so the agent that starts from a file that loads
    has the identity of its device and the tenant of a host that is not
    enrolled, and only an enrolment makes it another.  What loads is within
    the limits that the daemon relies on: batches, intervals, retries,
    storage, the limits of the engine, a policy path and a scope. *)
Theorem file_sets_no_identity open path cfg :
  LoadFile open path = Ok cfg →
  unset cfg ∧ limits cfg ∧ sen_PolicyPath (c_Sensor cfg) = c_PolicyPath cfg ∧
  (∀ flags content store device, LocalStore.m_identity (LocalStore.d_meta (LocalStore.s_disk store)) = Some device →
     ∃ runtime, Agent.New (daemon_config cfg) flags content (Some store) = Ok runtime ∧
       ag_identity runtime = MkRuntimeIdentity (LocalStore.di_DeviceID device) (LocalStore.di_HostID device) "local").
Proof.
  unfold LoadFile. destruct (open path) as [f|]; [|done]. cbn [mbind result_bind]. destruct (parse f) as [c|] eqn:Hp; [|done]. cbn [mbind result_bind].
  destruct (Validate _) eqn:Hv; [done|]. intros [= <-]. apply Validate_limits in Hv.
  assert (parse (NewReader (rd_data f)) = Ok c) as (s & Hs & <-)%parse_run.
  { unfold parse in *. cbn [rd_data rd_err NewReader]. destruct (parse_lines _ _); [|done]. cbn in *. by destruct (rd_err f). }
  apply run_unset in Hs; [|done]. destruct Hs as [H1 H2 H3 H4 H5]. split; [done|]. split; [done|]. split; [done|].
  intros flags content store device Hd. unfold Agent.New, complete_config. rewrite Hd. cbn. rewrite H1, H2, H3. by eexists.
Qed.
End run.

(** ** Files *)

Global Instance short_dec line : Decision (short line).
Proof. unfold short. apply _. Defined.

Definition config_unicode : Unicode := {| print_rune _ := false |}.
Definition config_text : AgentText := {|
  decode_detection_member _ := Ok None;
  decode_detection _ := Err "unexpected end of JSON input";
  decode_members _ := Err "unexpected end of JSON input";
  decode_telemetry _ := Err "unexpected end of JSON input";
  marshal_telemetry _ := "{}";
  marshal_report _ := "{}";
  marshal_explain _ _ := "{}";
  show_selectors _ := "[]";
  decode_command _ := Err "unexpected end of JSON input";
  decode_pullback _ := Err "unexpected end of JSON input";
  marshal_subgraph _ _ _ := Ok "{}";
  duration_error text := "time: invalid duration " +:+ text;
  format_nano _ := ""
|}.
Local Existing Instances config_unicode config_text.

Definition file (lines : list string) : string := concat_str ((λ line, line +:+ nl) <$> lines).

(** The files of [release_merge_test.go] *)
Definition host_file : string := file
  ["agent:"; "  label.owner: platform"; "local:"; "  state_path: /custom/state"; "sensor:"; "  backend: tetragon"; "  mode: managed"; "  scope:";
   "    type: container"; "    selector: exact-container"; "telemetry:"; "  max_batch_items: 17"; "  max_batch_bytes: 64KiB"; "  flush_interval: 3s";
   "policy:"; "  path: /custom/policy.json"; "content:"; "  default_path: /old/default"; "  path: /custom/content"; "  trust_keys: " +:+ quoted "old=key"].
Definition release_file : string := file
  ["local:"; "  state_path: /var/lib/sysarmor/agent"; "sensor:"; "  backend: tetragon"; "  mode: managed"; "policy:";
   "  path: /etc/sysarmor/agent/policy.json"; "content:"; "  default_path: /opt/sysarmor/agent/content/default";
   "  path: /var/lib/sysarmor/agent/content"; "  trust_keys: " +:+ quoted "release=new-key"].

Definition parsed (data : string) : Config := match parse (NewReader data) with Ok cfg => cfg | Err _ => defaults end.
Definition host_config : Config := Eval vm_compute in parsed host_file.
Definition release_config : Config := Eval vm_compute in parsed release_file.

Example host_settings :
  as_Labels (c_Agent host_config) = {["owner" := "platform"]} ∧ sen_Scope (c_Sensor host_config) = MkRuntimeScope "container" "exact-container" ∧
  c_Telemetry host_config = MkEffectiveTelemetry 17 65536 3000000000 ∧ con_TrustKeys (c_Content host_config) = "old=key".
Proof. by vm_compute. Qed.

Lemma merge_keeps_settings_witness :
  ∃ merged, MergeReleaseContent host_file release_file = Ok merged ∧
    parseValidConfig merged "merged" =
      Ok (with_content (MkContentConfig "/opt/sysarmor/agent/content/default" "/custom/content" "release=new-key") host_config).
Proof.
  destruct (merge_keeps_settings host_file release_file host_config release_config) as [Hmeans Hexists].
  - vm_compute. reflexivity.
  - vm_compute. reflexivity.
  - vm_compute. reflexivity.
  - vm_compute. repeat split.
  - destruct Hexists as [merged Hmerged].
    + vm_compute. discriminate.
    + vm_compute. discriminate.
    + vm_compute. reflexivity.
    + apply (bool_decide_eq_true_1 _). vm_compute. reflexivity.
    + exists merged. split; [exact Hmerged|]. exact (Hmeans _ Hmerged).
Defined.

Definition demo_labels : gmap string string := {["team" := "platform"; "env" := "prod"]}.
Definition enrolled_distribution : string := file ["sensor:"; "  backend: fake"; "policy:"; "  path: /etc/sysarmor/agent/policy.json"].

Lemma labels_arrive_witness :
  as_Labels (c_Agent (parsed (enrolled_config enrolled_distribution demo_labels))) = demo_labels.
Proof.
  pose proof (labels_arrive enrolled_distribution demo_labels (parsed enrolled_distribution)) as Hparse. unfold parsed at 1.
  rewrite Hparse.
  - reflexivity.
  - vm_compute. reflexivity.
  - vm_compute. reflexivity.
  - vm_compute. reflexivity.
  - apply map_Forall_insert_2; [|apply map_Forall_singleton]; vm_compute; repeat split; discriminate.
  - apply (bool_decide_eq_true_1 _). vm_compute. reflexivity.
Defined.

Definition demo_device : LocalStore.Store :=
  LocalStore.MkStore (LocalStore.ensureIdentity 5 "web-1" "d-1" LocalStore.empty_disk) (LocalStore.MkOptions 0 0 0 0) None ∅ (LocalStore.MkCursor 0 0).

Lemma file_sets_no_identity_witness :
  limits host_config ∧
  ∃ runtime, Agent.New (daemon_config (host_config <| c_Sensor ::= λ s, s <| sen_PolicyPath := c_PolicyPath host_config |> |>))
      (Health.MkRuntimeFeatureFlags "linear") ContentStore.NewStore (Some demo_device) = Ok runtime ∧
    ag_identity runtime = MkRuntimeIdentity "d-1" "web-1" "local".
Proof.
  destruct (file_sets_no_identity (λ _, Ok (NewReader host_file)) "agent.yaml"
    (host_config <| c_Sensor ::= λ s, s <| sen_PolicyPath := c_PolicyPath host_config |> |>)) as (_ & [] & _ & Hidentity).
  - vm_compute. reflexivity.
  - split; [split; assumption|]. apply (Hidentity _ _ _ (LocalStore.MkDeviceIdentity "d-1" "web-1" 5)). vm_compute. reflexivity.
Defined.

(** ** What one might not expect *)

(** The size of a file wraps around: 16 EiB and one GiB are one GiB. *)
Lemma byte_size_wraps : parseByteSize "17179869185GiB" = Ok (2 ^ 30)%Z.
Proof. vm_compute. reflexivity. Qed.

(** A section that is indented with a tab is one for the parser, and part of
    the section before it for the merge, which drops it. *)
Definition tabbed_file : string := file
  ["sensor:"; "  backend: fake"; "content:"; "  path: /custom/content"; String tab "local:"; "  state_path: /custom/state"].

Lemma tabbed_section_lost :
  ∃ merged, MergeReleaseContent tabbed_file release_file = Ok merged ∧
    loc_StatePath (c_Local (parsed tabbed_file)) = "/custom/state" ∧ loc_StatePath (c_Local (parsed merged)) = "/var/lib/sysarmor/agent".
Proof. eexists. split; [vm_compute; reflexivity|]. vm_compute. split; reflexivity. Qed.

(** A quote in a value is escaped when it is written, and the escape is part
    of the value when it is read. *)
Definition quote_file : string := file ["sensor:"; "  backend: fake"; "content:"; "  path: /data/a" +:+ String double_quote "b"].

Lemma escape_not_undone :
  ∃ merged, MergeReleaseContent quote_file release_file = Ok merged ∧
    con_Path (c_Content (parsed quote_file)) = "/data/a" +:+ String double_quote "b" ∧
    con_Path (c_Content (parsed merged)) = "/data/a" +:+ String backslash (String double_quote "b").
Proof. eexists. split; [vm_compute; reflexivity|]. vm_compute. split; reflexivity. Qed.

(** A comment sign cuts a label off, in quotes too. *)
Lemma label_cut_at_hash :
  as_Labels (c_Agent (parsed (enrolled_config "" {["note" := "team #1"]}))) = {["note" := String double_quote "team"]}.
Proof. vm_compute. reflexivity. Qed.

(** The key of a label is written as it is: it can hold the line that ends
    the text in the install script, and what follows is script. *)
Lemma label_key_ends_document :
  let key := "x" +:+ nl +:+ "YAML" +:+ nl +:+ "reboot " +:+ String hash "" in
  Split (enrolled_config "" {[key := "v"]}) newline =
    [""; "agent:"; "  label.x"; "YAML"; "reboot " +:+ String hash (": " +:+ quoted "v"); ""; ""].
Proof. vm_compute. reflexivity. Qed.
End ConfigTheorems.
